(* ===== verification/_CoqProject ===== *)
-Q . S2P
Prelude.v
Prog.v
Arrays.v
Float32.v
Rounding.v
Types.v
DList.v
Timespec.v
Timers.v
ByteBuffer.v
BufferShare.v
Shm.v
Utf8.v
AudioFormat.v
FmtConvOps.v
Mix.v
Ramp.v
AudioArea.v
LinearResampler.v
FmtConv.v
Volume.v
Rstream.v
StreamList.v
DevStream.v
InputData.v
Iodev.v
IodevOutput.v
Expr.v
IodevOpen.v
IodevStates.v
EmptyIodev.v
IodevLevels.v
Thread.v
DevIoPlayback.v
DevIoCapture.v
DevIo.v
DevLinks.v
DevStreamKept.v
DevLinksKept.v
DevIoMix.v
AudioThread.v
AudioThreadKept.v
AudioThreadStreams.v
AudioThreadPoll.v
AudioThreadSleep.v
AudioThreadRemix.v
DeviceIds.v
IodevList.v
Alert.v
Outcome.v
DspIni.v
DspUtil.v
DspPipeline.v
DspBuffers.v
DspSort.v
DspModules.v
DspSemantics.v
DspRun.v
DspLoad.v
DspContext.v
