(* ===== verification/Prelude.v ===== *)
(** * CRAS, the ChromiumOS audio server: a verification development

    CRAS mixes the audio of many clients.  A client shares a region of memory
    with the server and talks to it over a socket; the server's audio thread
    takes each stream's samples from its region, converts them to the format
    of the devices the stream is attached to, scales and mixes them, and the
    other way round for capture.  This library models that data path, from the
    shared memory to the mixed samples, with the bookkeeping around it.  The
    sources are under cras/src/: common/ for what client and server share,
    server/ for the server.

    ** The files

    - [Prelude]: machine integers ([u32], [s32], [u64], ... write out the
      wrap-around), [MIN] and [MAX], error codes, and the lemmas, hints and
      tactics all files use.
    - [Prog]: programs that thread a state and may be undefined, their two
      logics ([runs] and [yields]), the relations they respect, and loops.
    - [Arrays]: indexed reads and writes that are undefined out of range, and
      counting loops over samples and frames.
    - [Float32]: C's [float] and [double] on [SpecFloat], with the conversions
      from and to integers and the range of a volume.
    - [Rounding]: what rounding an exact result to a float keeps.
    - [Types]: common/cras_types.h, common/cras_messages.h.
    - [DList]: the list macros of common/utlist.h: a list of addressed nodes,
      where following a node that is no longer linked is undefined.
    - [Timespec]: the time arithmetic of common/cras_util.h.
    - [Timers]: server/cras_tm.c, server/polled_interval_checker.c.
    - [ByteBuffer]: common/byte_buffer.h.
    - [BufferShare]: server/buffer_share.c, the offsets of several devices in
      one stream.
    - [Shm]: common/cras_shm.h, the double buffer in shared memory.
    - [Utf8]: server/cras_utf8.c.
    - [AudioFormat]: common/cras_audio_format.c and .h.
    - [FmtConvOps]: server/cras_fmt_conv_ops.c, the sample format and channel
      converters.
    - [Mix]: server/cras_mix_ops.c, over byte memory.
    - [AudioArea]: server/cras_audio_area.c, which copies through [Mix].
    - [Rstream]: server/cras_rstream.c and server/cras_rstream_config.c, a
      stream: it owns a [Shm], a [BufferShare] and an [AudioArea].
    - [StreamList]: server/stream_list.c, over [Rstream] and [Timers].
    - [LinearResampler]: server/linear_resampler.c.
    - [FmtConv]: server/cras_fmt_conv.c, the chain of converters of a stream,
      over [FmtConvOps] and [LinearResampler].
    - [DevStream]: server/dev_stream.c, a stream on a device: it joins [Rstream],
      [FmtConv], [Mix] and [AudioArea].
    - [Ramp]: server/cras_ramp.c; [Volume]: server/cras_volume_curve.c and
      server/softvol_curve.c; [InputData]: server/input_data.c and
      server/float_buffer.h.
    - [Iodev], [IodevOutput], [IodevOpen]: server/cras_iodev.c, over the class
      of drivers [iodev_driver] and, for the transition functions that a driver
      may replace, [iodev_hw] and [iodev_xrun].  [IodevStates] says what a
      device's operations keep, [IodevLevels] what removing a stream does.
      [EmptyIodev]: server/cras_empty_iodev.c, an instance of those classes.
    - [Thread]: the state of the audio thread, with devices and streams by
      address; [DevIoPlayback], [DevIoCapture], [DevIo]: server/dev_io.c over
      it.  [DevLinks] relates the lists of the devices to the tables in the
      streams, [DevStreamKept] says what of a table the operations of a stream
      leave alone, and [DevLinksKept] goes through all programs of the thread.
      [DevIoMix] says what an output device hears.
    - [Expr]: server/cras_expr.c, the conditions in DSP ini files.
    - [Outcome]: the monad of results that fail, fault or run on, for the files
      below.
    - [DspIni]: server/cras_dsp_ini.c, from an ini file to plugins and flows.
    - [DspUtil]: dsp/dsp_util.c, interleaved samples and float buffers.
    - [DspPipeline]: server/cras_dsp_pipeline.c, over the class
      [dsp_module_library] of modules; [DspBuffers] proves the sharing of
      buffers, [DspSort] the sorting.
    - [DspModules]: server/cras_dsp_mod_builtin.c, an instance of that class;
      [DspSemantics] is the class of modules that compute functions of their
      inputs, with the built-in ones as an instance, [DspRun] runs a pipeline of
      such modules, and [DspLoad] composes all of it.
    - [DspContext]: server/cras_dsp.c, contexts and who owns the ini objects.

    Structs are records with the fields of the code, functions keep their
    names, and a state change returns the new state.  [option] is C's
    undefined behaviour (and the trap on a zero divisor): [None] where an
    access leaves its object, a freed node is followed, a signed sum overflows
    in a place where that matters.  Error codes are returned as the code
    returns them, negated.  Pointers into buffers are offsets.

    ** What is proved

    - The shared memory: between an honest writer and reader it is a FIFO of
      frames ([Shm.shm_is_fifo]); with a hostile peer every window the server
      reads stays inside the mapping ([readable_frames_safe]); what clearing
      an overrun does, and when it leaves the mapping
      ([check_write_overrun_spec]); the volume a peer may store.
    - The table of devices implements a finite map, and its write point is the
      minimum of the offsets ([BufferShare]).  For a stream these two meet:
      the read pointer moves to the slowest device and no device's unplayed
      samples are lost ([Rstream.output_positions_kept]).
    - Streams: which parameters are accepted, exactly; an accepted stream
      satisfies the invariants; the master device is always attached; the
      protocol of requests and replies; draining the socket ends.
    - The byte buffer is a bounded FIFO.
    - The mixer: every format's loops write the scaled, clipped sum of every
      sample and no other byte; ramps; copies between areas.
    - Converters: channel remapping, up- and downmixing agree with their
      channel layouts; formats of 8 and 16 bits survive the wider ones.
    - Timers: the sleeping time is the time to the earliest deadline; a pass of
      callbacks ends and follows no freed timer.  The stream list loses no
      stream and destroys none twice.
    - The converter chain keeps to its buffers and counts frames right
      ([FmtConv.conversion_fits]); the resampler interpolates.  A stream on a
      device plays its queue in order, and a capture client is woken
      ([DevStream]).
    - Devices: whatever calls are made, an output device's state moves along
      the arrows of the diagram in the source
      ([IodevStates.output_device_states]); removing a stream sets the levels
      that the streams left give ([IodevLevels.removing_a_stream]); a ramp ends
      once; volumes become scalers; the frames of an input device are queued in
      order for each stream.
    - The audio thread: in any order of calls, with devices and streams taken
      away in the middle of a run, the lists of the devices and the tables of
      the streams agree, so no pointer to a master device is stale
      ([DevLinksKept.devices_and_streams_agree]).  What a device's buffer gets
      is the clipped sum of its streams ([DevIoMix.device_hears_streams]).
    - The DSP graph: conditions evaluate to their truth value ([Expr]); an ini
      file becomes a consistent graph or nothing ([DspIni]); without cycles the
      pipeline follows its flows ([DspSort]), shares buffers safely
      ([DspBuffers]), and what runs on shared buffers is the dataflow of the
      graph ([DspLoad.pipeline_computes_graph]); ini objects are owned
      ([DspContext]).
    - UTF-8: everything valid is accepted, and what is accepted is valid up to
      a byte order mark that is not complete.

    Defects the models show are theorems too, named after what goes wrong
    ([accepted_configs_fault], [scaled_mix_defects], [default_mixer_faults],
    [partial_mark_accepted], [negative_position_accepted],
    [full_scale_undefined], [flow_read_twice_overflows], [self_feeding_never_ends],
    [failed_reload_dangles]).

    ** Loops and fuel

    Counting loops recurse on the count.  The loops that follow pointers or
    wait for messages take fuel: [call_loop] and [dl_foreach] need one unit
    per node there can be, and the theorems prove the result is defined with
    the fuel their statements name; [cras_rstream_flush_old_audio_messages] recurses on the
    list of answers the socket gives, which is finite because the socket is
    non-blocking.  The loops that ask a driver for its buffer take fuel, since a
    driver that gives no frames keeps them running.  Sorting the DSP graph takes one more unit than there are
    plugins, which is enough when the graph has no cycle.

    ** What is a parameter, and what is left out

    What the operating system answers is an argument of the operation (results
    of reads and writes, clocks, shared memory set-up, the contents [realloc]
    leaves).  ALSA's sample widths are the class [AudioFormat.pcm_library].
    Callbacks are functions on the state they can change.  DSP filters and
    LADSPA plugins are an argument of the modules, the ini file parser of
    iniparser a dictionary.  Memory barriers, threads and logging are not
    modelled: an operation is one step.  What the audio thread meets (the clock,
    the clients' answers, fresh addresses) is the class [Thread.surroundings];
    the rate estimator, which is Rust, and the audio processing library are
    classes too.  Device back ends (ALSA, Bluetooth, USB), the audio thread's
    poll loop, the device list with its policies, D-Bus, the handling of client
    connections and the client library are not modelled. *)
From Stdlib Require Export ZArith Lia Bool.
From stdpp Require Export base tactics option list numbers gmap.
#[global] Open Scope Z_scope.

(** ** Machine integers

    An unsigned C integer is a [Z] in its range, and every operation that can
    leave the range is followed by [u32] or [u64]. *)

(** Results of C arithmetic on [uint32_t] and [unsigned int]. *)
Definition u32 (z : Z) : Z := z mod 4294967296.
(** Results of C arithmetic on [uint64_t] and [size_t] (LP64). *)
Definition u64 (z : Z) : Z := z mod 18446744073709551616.
(** Conversion to [int], two's complement as GCC and Clang define it. *)
Definition s32 (z : Z) : Z := (z + 2147483648) mod 4294967296 - 2147483648.
Definition s64 (z : Z) : Z := (z + 9223372036854775808) mod 18446744073709551616 - 9223372036854775808.

(** The narrower types of samples and bytes. *)
Definition u8 (z : Z) : Z := z mod 256.
Definition u16 (z : Z) : Z := z mod 65536.
Definition s16 (z : Z) : Z := (z + 32768) mod 65536 - 32768.

Definition is_u8 (z : Z) : Prop := 0 <= z < 256.
Definition is_s16 (z : Z) : Prop := -32768 <= z < 32768.
Definition is_u32 (z : Z) : Prop := 0 <= z < 4294967296.
Definition is_u64 (z : Z) : Prop := 0 <= z < 18446744073709551616.
Definition is_s32 (z : Z) : Prop := -2147483648 <= z < 2147483648.

(** Unsigned division and remainder: [None] is the trap on a zero divisor. *)
Definition udiv (a b : Z) : option Z := if b =? 0 then None else Some (a / b).
Definition urem (a b : Z) : option Z := if b =? 0 then None else Some (a mod b).

(** [MIN] and [MAX] of <sys/param.h>, on operands of one type. *)
Definition cmin (a b : Z) : Z := if a <? b then a else b.
Definition cmax (a b : Z) : Z := if a >? b then a else b.

(** The error codes of <errno.h> the server returns, negated there. *)
Definition ENOENT : Z := 2.
Definition EIO : Z := 5.
Definition ENOMEM : Z := 12.
Definition EEXIST : Z := 17.
Definition EINVAL : Z := 22.
Definition ETIMEDOUT : Z := 110.

(** A C truth value. *)
Definition c_bool (b : bool) : Z := if b then 1 else 0.

Lemma u32_small z : 0 <= z < 4294967296 -> u32 z = z.
Proof. apply Z.mod_small. Qed.

Lemma u64_small z : 0 <= z < 18446744073709551616 -> u64 z = z.
Proof. apply Z.mod_small. Qed.

Lemma s32_small z : -2147483648 <= z < 2147483648 -> s32 z = z.
Proof. intros Hz. unfold s32. rewrite Z.mod_small by lia. lia. Qed.

Lemma s64_small z : -9223372036854775808 <= z < 9223372036854775808 -> s64 z = z.
Proof. intros Hz. unfold s64. rewrite Z.mod_small by lia. lia. Qed.

Lemma u8_small z : 0 <= z < 256 -> u8 z = z.
Proof. apply Z.mod_small. Qed.

Lemma s16_small z : -32768 <= z < 32768 -> s16 z = z.
Proof. intros Hz. unfold s16. rewrite Z.mod_small by lia. lia. Qed.

Lemma s16_range z : is_s16 (s16 z).
Proof. unfold is_s16, s16. pose proof (Z.mod_pos_bound (z + 32768) 65536). lia. Qed.

Lemma u32_range z : is_u32 (u32 z).
Proof. apply Z.mod_pos_bound. lia. Qed.

Lemma u64_range z : is_u64 (u64 z).
Proof. apply Z.mod_pos_bound. lia. Qed.

Lemma cmin_min a b : cmin a b = Z.min a b.
Proof. unfold cmin. destruct (Z.ltb_spec a b); lia. Qed.

Lemma cmax_max a b : cmax a b = Z.max a b.
Proof. unfold cmax. rewrite Z.gtb_ltb. destruct (Z.ltb_spec b a); lia. Qed.

Lemma udiv_Some a b : b <> 0 -> udiv a b = Some (a / b).
Proof. intros Hb. unfold udiv. by destruct (Z.eqb_spec b 0). Qed.

Lemma urem_Some a b : b <> 0 -> urem a b = Some (a mod b).
Proof. intros Hb. unfold urem. by destruct (Z.eqb_spec b 0). Qed.

Create HintDb cras discriminated.
#[export] Hint Resolve u32_range u64_range : cras.


(** [wrap_lia]: linear arithmetic through the wrap-arounds, divisions and
    boolean comparisons. *)
Ltac wrap_lia :=
  unfold is_u8, is_s16, is_u32, is_u64, is_s32, u8, u16, s16, u32, u64, s32 in *;
  Z.to_euclidean_division_equations; lia.

(** [unwrap]: drop every wrap-around whose argument is in range. *)
Ltac unwrap :=
  repeat match goal with
  | |- context [u32 ?z] => rewrite (u32_small z) by (unfold is_u32, is_u64 in *; lia)
  | |- context [u64 ?z] => rewrite (u64_small z) by (unfold is_u32, is_u64 in *; lia)
  | |- context [s32 ?z] => rewrite (s32_small z) by (unfold is_u32, is_u64 in *; lia)
  end.

(** Case analysis on the boolean comparisons of a goal. *)
Ltac zcases :=
  repeat match goal with
  | |- context [Z.ltb ?a ?b] => destruct (Z.ltb_spec a b)
  | |- context [Z.leb ?a ?b] => destruct (Z.leb_spec a b)
  | |- context [Z.eqb ?a ?b] => destruct (Z.eqb_spec a b)
  | |- context [Z.gtb ?a ?b] => rewrite (Z.gtb_ltb a b)
  | |- context [Z.geb ?a ?b] => rewrite (Z.geb_leb a b)
  end.

(** Decide the comparisons of a goal that the context settles. *)
Ltac zdecide :=
  rewrite ?Z.geb_leb, ?Z.gtb_ltb;
  repeat match goal with
  | |- context [Z.leb ?a ?b] =>
    first [ replace (Z.leb a b) with true by (symmetry; apply Z.leb_le; lia)
          | replace (Z.leb a b) with false by (symmetry; apply Z.leb_gt; lia) ]
  | |- context [Z.ltb ?a ?b] =>
    first [ replace (Z.ltb a b) with true by (symmetry; apply Z.ltb_lt; lia)
          | replace (Z.ltb a b) with false by (symmetry; apply Z.ltb_ge; lia) ]
  | |- context [Z.eqb ?a ?b] =>
    first [ replace (Z.eqb a b) with true by (symmetry; apply Z.eqb_eq; lia)
          | replace (Z.eqb a b) with false by (symmetry; apply Z.eqb_neq; lia) ]
  end.

(** ** Loops

    A C [while] loop with fuel: [None] when the fuel runs out or the body
    fails.  [cwhile_spec] is the total-correctness rule: with an invariant
    and a measure the fuel bounds, the loop ends and ends well. *)
Section Loops.
Context {St : Type} (cond : St -> bool) (body : St -> option St).

Fixpoint cwhile (fuel : nat) (s : St) : option St :=
  match fuel with
  | O => None
  | S n => if cond s then s' ← body s; cwhile n s' else Some s
  end.

Lemma cwhile_spec (I : St -> Prop) (m : St -> nat) :
  (forall s, I s -> cond s = true ->
     exists s', body s = Some s' /\ I s' /\ (m s' < m s)%nat) ->
  forall fuel s, I s -> (m s < fuel)%nat ->
    exists s', cwhile fuel s = Some s' /\ I s' /\ cond s' = false.
Proof.
  intros Hstep fuel. induction fuel as [|n IH]; intros s HI Hm; [lia|].
  simpl. destruct (cond s) eqn:Hc; [|by eauto].
  destruct (Hstep s HI Hc) as (s' & -> & HI' & Hlt). simpl.
  apply IH; [done|lia].
Qed.
End Loops.

(** ** Memory regions

    A region is the list of its bytes; a pointer into it is an offset.  A
    read or a write that leaves the region is undefined: [None]. *)

Definition zget (m : list Z) (i : Z) : Z := m !!! Z.to_nat i.

Definition mem_write (m : list Z) (off : Z) (data : list Z) : option (list Z) :=
  if (0 <=? off) && (off + Z.of_nat (length data) <=? Z.of_nat (length m))
  then Some (list_inserts (Z.to_nat off) data m) else None.

Definition mem_read (m : list Z) (off len : Z) : option (list Z) :=
  if (0 <=? off) && (0 <=? len) && (off + len <=? Z.of_nat (length m))
  then Some (take (Z.to_nat len) (drop (Z.to_nat off) m)) else None.

Lemma mem_write_Some m off data :
  0 <= off -> off + Z.of_nat (length data) <= Z.of_nat (length m) ->
  mem_write m off data = Some (list_inserts (Z.to_nat off) data m).
Proof. intros. unfold mem_write. zcases; simpl; [done|lia..]. Qed.

Lemma mem_read_Some m off len :
  0 <= off -> 0 <= len -> off + len <= Z.of_nat (length m) ->
  mem_read m off len = Some (take (Z.to_nat len) (drop (Z.to_nat off) m)).
Proof. intros. unfold mem_read. zcases; simpl; [done|lia..]. Qed.

Lemma zget_inserts_in m off data i :
  0 <= off <= i -> i < off + Z.of_nat (length data) ->
  off + Z.of_nat (length data) <= Z.of_nat (length m) ->
  zget (list_inserts (Z.to_nat off) data m) i = zget data (i - off).
Proof.
  intros. unfold zget. rewrite list_lookup_total_inserts by lia. f_equal. lia.
Qed.

Lemma zget_inserts_out m off data i :
  0 <= off -> 0 <= i -> i < off \/ off + Z.of_nat (length data) <= i ->
  zget (list_inserts (Z.to_nat off) data m) i = zget m i.
Proof.
  intros ?? [?|?]; unfold zget.
  - apply list_lookup_total_inserts_lt. lia.
  - apply list_lookup_total_inserts_ge. lia.
Qed.

(** A list is its lookups. *)
Lemma fmap_zget_seq (l : list Z) :
  (fun j : nat => zget l (Z.of_nat j)) <$> seq 0 (length l) = l.
Proof.
  apply list_eq. intros i. rewrite list_lookup_fmap. destruct (decide (i < length l)%nat).
  - rewrite lookup_seq_lt by lia. simpl. unfold zget. rewrite Nat2Z.id.
    symmetry. by apply list_lookup_lookup_total_lt.
  - rewrite lookup_seq_ge by lia. simpl. symmetry. apply lookup_ge_None. lia.
Qed.

Lemma fmap_seq_shift {A} (f : nat -> A) a n :
  f <$> seq a n = (fun j => f (a + j)%nat) <$> seq 0 n.
Proof.
  apply list_eq. intros i. rewrite !list_lookup_fmap. destruct (decide (i < n)%nat).
  - by rewrite !lookup_seq_lt by lia.
  - by rewrite !lookup_seq_ge by lia.
Qed.

Lemma fmap_seq_ext {A} (f g : nat -> A) n :
  (forall j, (j < n)%nat -> f j = g j) -> f <$> seq 0 n = g <$> seq 0 n.
Proof.
  intros Hfg. apply list_fmap_ext. intros i x Hx.
  apply lookup_seq in Hx as [-> ?]. apply Hfg. lia.
Qed.

Lemma drop_fmap_seq {A} (f : nat -> A) n k :
  (k <= n)%nat -> drop k (f <$> seq 0 n) = (fun j => f (k + j)%nat) <$> seq 0 (n - k).
Proof.
  intros. rewrite <- fmap_drop, drop_seq. by rewrite fmap_seq_shift.
Qed.

(** The bytes of a region from offset [a] up to offset [b]. *)
Definition slice (m : list Z) (a b : Z) : list Z := take (Z.to_nat (b - a)) (drop (Z.to_nat a) m).

Lemma slice_length m a b :
  0 <= a <= b -> b <= Z.of_nat (length m) -> Z.of_nat (length (slice m a b)) = b - a.
Proof. intros. unfold slice. rewrite length_take, length_drop. lia. Qed.

Lemma slice_nil m a : slice m a a = [].
Proof. unfold slice. by rewrite Z.sub_diag. Qed.

Lemma slice_drop m a b k :
  0 <= a -> 0 <= k -> a + k <= b -> drop (Z.to_nat k) (slice m a b) = slice m (a + k) b.
Proof.
  intros. unfold slice. rewrite skipn_firstn_comm, drop_drop. do 2 f_equal; lia.
Qed.

Lemma slice_take m a b k :
  0 <= a -> 0 <= k -> a + k <= b -> take (Z.to_nat k) (slice m a b) = slice m a (a + k).
Proof. intros. unfold slice. rewrite take_take. f_equal. lia. Qed.

Lemma take_slice_all m a b n :
  b - a <= n -> take (Z.to_nat n) (slice m a b) = slice m a b.
Proof. intros. unfold slice. rewrite take_take. f_equal. lia. Qed.

Lemma mem_read_slice m a n :
  0 <= a -> 0 <= n -> a + n <= Z.of_nat (length m) -> mem_read m a n = Some (slice m a (a + n)).
Proof. intros. rewrite mem_read_Some by done. unfold slice. do 3 f_equal. lia. Qed.

(** A slice of a region after a write: untouched outside, the data inside. *)
Lemma slice_inserts_out m off d a b :
  0 <= off -> 0 <= a <= b -> b <= off \/ off + Z.of_nat (length d) <= a ->
  slice (list_inserts (Z.to_nat off) d m) a b = slice m a b.
Proof.
  intros Hoff Hab Hdis. unfold slice. apply list_eq. intros i.
  rewrite !lookup_take. case_decide; [|done]. rewrite !lookup_drop.
  destruct Hdis; [apply list_lookup_inserts_lt|apply list_lookup_inserts_ge]; lia.
Qed.

Lemma slice_inserts_in m off d :
  0 <= off -> off + Z.of_nat (length d) <= Z.of_nat (length m) ->
  slice (list_inserts (Z.to_nat off) d m) off (off + Z.of_nat (length d)) = d.
Proof.
  intros. unfold slice. apply list_eq. intros i. rewrite lookup_take. case_decide.
  - rewrite lookup_drop, list_lookup_inserts by lia. f_equal. lia.
  - symmetry. apply lookup_ge_None. lia.
Qed.
