(* ===== verification/Prog.v ===== *)
(** * Programs over a state

    The devices and the audio thread's work on them (server/cras_iodev.c,
    server/dev_io.c) change shared state, fail and call functions through
    pointers; their models are written in the state monad of this file.
    [None] is undefined behaviour, or a loop that was cut off. *)
From S2P Require Import Prelude.

Definition prog (S A : Type) : Type := S -> option (A * S).

Definition ret {S A} (a : A) : prog S A := fun s => Some (a, s).
Definition bind {S A B} (m : prog S A) (f : A -> prog S B) : prog S B :=
  fun s => match m s with Some (a, s) => f a s | None => None end.

Declare Scope prog_scope.
Notation "'let*' x := m 'in' k" := (bind m (fun x => k))
  (at level 10, x pattern, m at level 200, k at level 200) : prog_scope.
Notation "m ;; k" := (bind m (fun _ => k)) (at level 100, k at level 200, right associativity) : prog_scope.
#[local] Open Scope prog_scope.

(** An access that is undefined when it finds nothing. *)
Definition here {S A} (o : option A) : prog S A :=
  fun s => match o with Some a => Some (a, s) | None => None end.

Definition gets {S A} (f : S -> A) : prog S A := fun s => Some (f s, s).
Definition modify {S} (f : S -> S) : prog S unit := fun s => Some (tt, f s).

(** A loop over the elements of a list, with a value that it carries. *)
Fixpoint fold_prog {S A B} (body : A -> B -> prog S B) (l : list A) (b : B) : prog S B :=
  match l with
  | [] => ret b
  | x :: l => let* b := body x b in fold_prog body l b
  end.

Definition each {S A} (body : A -> prog S unit) (l : list A) : prog S unit :=
  fold_prog (fun x _ => body x) l tt.

(** ** What a program does

    [runs m s Q]: started in [s] it ends, with a result and a state that [Q]
    holds of.  [yields m s Q]: so it does whenever it ends. *)
Section Specs.
Context {St : Type}.

Definition runs {A} (m : prog St A) (s : St) (Q : A -> St -> Prop) : Prop :=
  match m s with Some (a, s) => Q a s | None => False end.

Definition yields {A} (m : prog St A) (s : St) (Q : A -> St -> Prop) : Prop :=
  match m s with Some (a, s) => Q a s | None => True end.

Lemma runs_ret {A} (a : A) s (Q : A -> St -> Prop) : Q a s -> runs (ret a) s Q.
Proof. done. Qed.

Lemma runs_bind {A B} (m : prog St A) (f : A -> prog St B) s (Q : B -> St -> Prop) :
  runs m s (fun a s => runs (f a) s Q) -> runs (bind m f) s Q.
Proof. unfold runs, bind. by destruct (m s) as [[a s']|]. Qed.

Lemma runs_mono {A} (m : prog St A) s (Q R : A -> St -> Prop) :
  runs m s Q -> (forall a s, Q a s -> R a s) -> runs m s R.
Proof. unfold runs. destruct (m s) as [[a s']|]; auto. Qed.

Lemma runs_step {A B} (m : prog St A) (f : A -> prog St B) s (Q : A -> St -> Prop) (R : B -> St -> Prop) :
  runs m s Q -> (forall a s, Q a s -> runs (f a) s R) -> runs (bind m f) s R.
Proof. intros Hm Hf. apply runs_bind. by eapply runs_mono. Qed.

Lemma runs_here {A} (o : option A) (a : A) s (Q : A -> St -> Prop) : o = Some a -> Q a s -> runs (here o) s Q.
Proof. by intros ->. Qed.

Lemma runs_yields {A} (m : prog St A) s (Q : A -> St -> Prop) : runs m s Q -> yields m s Q.
Proof. unfold runs, yields. by destruct (m s) as [[a s']|]. Qed.

Lemma runs_Some {A} (m : prog St A) s (Q : A -> St -> Prop) :
  runs m s Q <-> exists a s', m s = Some (a, s') /\ Q a s'.
Proof.
  unfold runs. destruct (m s) as [[a s']|].
  - split; [by eauto|]. by intros (b & t & [= <- <-] & H).
  - split; [done|]. by intros (b & t & ? & H).
Qed.

Lemma yields_ret {A} (a : A) s (Q : A -> St -> Prop) : Q a s -> yields (ret a) s Q.
Proof. done. Qed.

Lemma yields_here {A} (o : option A) s (Q : A -> St -> Prop) :
  (forall a, o = Some a -> Q a s) -> yields (here o) s Q.
Proof. unfold yields, here. destruct o; auto. Qed.

Lemma yields_bind {A B} (m : prog St A) (f : A -> prog St B) s (Q : B -> St -> Prop) :
  yields m s (fun a s => yields (f a) s Q) -> yields (bind m f) s Q.
Proof. unfold yields, bind. by destruct (m s) as [[a s']|]. Qed.

Lemma yields_mono {A} (m : prog St A) s (Q R : A -> St -> Prop) :
  yields m s Q -> (forall a s, Q a s -> R a s) -> yields m s R.
Proof. unfold yields. destruct (m s) as [[a s']|]; auto. Qed.

Lemma yields_step {A B} (m : prog St A) (f : A -> prog St B) s (Q : A -> St -> Prop) (R : B -> St -> Prop) :
  yields m s Q -> (forall a s, Q a s -> yields (f a) s R) -> yields (bind m f) s R.
Proof. intros Hm Hf. apply yields_bind. by eapply yields_mono. Qed.

Lemma yields_both {A} (m : prog St A) s (Q R : A -> St -> Prop) :
  yields m s Q -> yields m s R -> yields m s (fun a s' => Q a s' /\ R a s').
Proof. unfold yields. destruct (m s) as [[a s']|]; auto. Qed.

Lemma yields_Some {A} (m : prog St A) s (Q : A -> St -> Prop) a s' :
  yields m s Q -> m s = Some (a, s') -> Q a s'.
Proof. unfold yields. intros H Hm. by rewrite Hm in H. Qed.

Lemma runs_gets {A B} (g : St -> A) (f : A -> prog St B) s (Q : B -> St -> Prop) :
  runs (f (g s)) s Q -> runs (bind (gets g) f) s Q.
Proof. done. Qed.
Lemma yields_gets {A B} (g : St -> A) (f : A -> prog St B) s (Q : B -> St -> Prop) :
  yields (f (g s)) s Q -> yields (bind (gets g) f) s Q.
Proof. done. Qed.
Lemma runs_get {A} (g : St -> A) s (Q : A -> St -> Prop) : Q (g s) s -> runs (gets g) s Q.
Proof. done. Qed.
Lemma yields_get {A} (g : St -> A) s (Q : A -> St -> Prop) : Q (g s) s -> yields (gets g) s Q.
Proof. done. Qed.
Lemma runs_set (g : St -> St) s (Q : unit -> St -> Prop) : Q tt (g s) -> runs (modify g) s Q.
Proof. done. Qed.
Lemma yields_set (g : St -> St) s (Q : unit -> St -> Prop) : Q tt (g s) -> yields (modify g) s Q.
Proof. done. Qed.
Lemma runs_modify {B} (g : St -> St) (f : unit -> prog St B) s (Q : B -> St -> Prop) :
  runs (f tt) (g s) Q -> runs (bind (modify g) f) s Q.
Proof. done. Qed.
Lemma yields_modify {B} (g : St -> St) (f : unit -> prog St B) s (Q : B -> St -> Prop) :
  yields (f tt) (g s) Q -> yields (bind (modify g) f) s Q.
Proof. done. Qed.

Lemma runs_fold {A B} (I : nat -> B -> St -> Prop) (body : A -> B -> prog St B) (l : list A) (k : nat) b s :
  I k b s ->
  (forall i x b s, l !! i = Some x -> I (k + i)%nat b s -> runs (body x b) s (I (1 + (k + i))%nat)) ->
  runs (fold_prog body l b) s (I (k + length l)%nat).
Proof.
  revert k b s. induction l as [|x l IH]; intros k b s HI Hb; simpl.
  { rewrite Nat.add_0_r. by apply runs_ret. }
  eapply runs_step.
  - apply (Hb 0%nat x b s); [done|]. by rewrite Nat.add_0_r.
  - intros b' s' H'. replace (k + S (length l))%nat with (S k + length l)%nat by lia. apply IH.
    + by rewrite Nat.add_0_r in H'.
    + intros i y b1 s1 Hl H1. replace (S k + i)%nat with (k + S i)%nat in * by lia.
      apply (Hb (S i) y b1 s1); [done|]. done.
Qed.

Lemma yields_fold {A B} (I : B -> St -> Prop) (body : A -> B -> prog St B) (l : list A) b s :
  I b s -> (forall x b s, x ∈ l -> I b s -> yields (body x b) s I) -> yields (fold_prog body l b) s I.
Proof.
  revert b s. induction l as [|x l IH]; intros b s HI Hb; simpl; [by apply yields_ret|].
  eapply yields_step; [apply Hb; [by left|done]|]. intros b' s' H'.
  apply IH; [done|]. intros y b1 s1 Hy. apply Hb. by right.
Qed.

Lemma yields_fold_at {A B} (I : nat -> B -> St -> Prop) (body : A -> B -> prog St B) (l : list A) (k : nat) b s :
  I k b s ->
  (forall i x b s, l !! i = Some x -> I (k + i)%nat b s -> yields (body x b) s (I (1 + (k + i))%nat)) ->
  yields (fold_prog body l b) s (I (k + length l)%nat).
Proof.
  revert k b s. induction l as [|x l IH]; intros k b s HI Hb; simpl.
  { rewrite Nat.add_0_r. by apply yields_ret. }
  eapply yields_step.
  - apply (Hb 0%nat x b s); [done|]. by rewrite Nat.add_0_r.
  - intros b' s' H'. replace (k + S (length l))%nat with (S k + length l)%nat by lia. apply IH.
    + by rewrite Nat.add_0_r in H'.
    + intros i y b1 s1 Hl H1. replace (S k + i)%nat with (k + S i)%nat in * by lia.
      apply (Hb (S i) y b1 s1); [done|]. done.
Qed.
End Specs.

(** ** What a program respects

    A relation between the state before and the state after, whatever the
    program does. *)
Section Respects.
Context {St : Type} (R : St -> St -> Prop) {HR : PreOrder R}.

Definition respects {A} (m : prog St A) : Prop := forall s, yields m s (fun _ s' => R s s').

Lemma respects_ret {A} (a : A) : respects (ret a).
Proof using HR. intros s. apply yields_ret. reflexivity. Qed.

Lemma respects_here {A} (o : option A) : respects (here o).
Proof using HR. intros s. apply yields_here. reflexivity. Qed.

Lemma respects_gets {A} (f : St -> A) : respects (gets f).
Proof using HR. intros s. apply yields_get. reflexivity. Qed.

Lemma respects_modify (f : St -> St) : (forall s, R s (f s)) -> respects (modify f).
Proof. intros Hf s. apply Hf. Qed.

Lemma respects_from {A B} (m : prog St A) (f : A -> prog St B) s :
  yields m s (fun a s' => R s s' /\ respects (f a)) -> yields (bind m f) s (fun _ s' => R s s').
Proof using HR.
  intros Hm. eapply yields_step; [exact Hm|]. intros a s' [Hs Hf].
  eapply yields_mono; [apply Hf|]. intros b s2 H2. by transitivity s'.
Qed.

Lemma respects_bind {A B} (m : prog St A) (f : A -> prog St B) :
  respects m -> (forall a, respects (f a)) -> respects (bind m f).
Proof using HR.
  intros Hm Hf s. apply respects_from. eapply yields_mono; [apply Hm|]. intros a s' Hs. by split.
Qed.

Lemma respects_fold {A B} (body : A -> B -> prog St B) (l : list A) (b : B) :
  (forall x b, respects (body x b)) -> respects (fold_prog body l b).
Proof using HR.
  intros Hb s. apply (yields_fold (fun _ s' => R s s')); [reflexivity|].
  intros x b1 s1 _ Hs. eapply yields_mono; [apply Hb|]. intros b2 s2 H2. by transitivity s1.
Qed.

Lemma yields_respects {A B} (m : prog St A) (f : A -> prog St B) s (Q : B -> St -> Prop) :
  respects m -> (forall a s', R s s' -> yields (f a) s' Q) -> yields (bind m f) s Q.
Proof. intros Hm Hf. eapply yields_step; [apply Hm|]. intros a s' Hs. by apply Hf. Qed.
End Respects.

Lemma respects_weaken {St A} (R R' : St -> St -> Prop) (m : prog St A) :
  (forall s s', R s s' -> R' s s') -> respects R m -> respects R' m.
Proof. intros HR Hm s. eapply yields_mono; [apply Hm|]. intros a s'. apply HR. Qed.

Create HintDb respects discriminated.

(** Goes through a program's steps. *)
Ltac respect :=
  repeat first
    [ progress intros
    | solve [auto with respects nocore]
    | match goal with
      | |- PreOrder _ => typeclasses eauto
      | |- respects _ (ret _) => apply respects_ret
      | |- respects _ (here _) => apply respects_here
      | |- respects _ (gets _) => apply respects_gets
      | |- respects _ (bind _ _) => apply respects_bind
      | |- respects _ (fold_prog _ _ _) => apply respects_fold
      | |- respects _ (modify _) => apply respects_modify
      | |- respects _ (match ?x with _ => _ end) => destruct x eqn:?
      | |- respects _ (if ?x then _ else _) => destruct x
      | |- respects _ (let '_ := ?x in _) => destruct x
      end ].

(** A program over a part of the state. *)
Definition zoom {S T A} (part : S -> T) (put : T -> S -> S) (m : prog T A) : prog S A :=
  fun s => match m (part s) with Some (a, t) => Some (a, put t s) | None => None end.

Lemma runs_zoom {S T A} (part : S -> T) (put : T -> S -> S) (m : prog T A) s (Q : A -> S -> Prop) :
  runs m (part s) (fun a t => Q a (put t s)) -> runs (zoom part put m) s Q.
Proof. unfold runs, zoom. by destruct (m (part s)) as [[a t]|]. Qed.

Lemma yields_zoom {S T A} (part : S -> T) (put : T -> S -> S) (m : prog T A) s (Q : A -> S -> Prop) :
  yields m (part s) (fun a t => Q a (put t s)) -> yields (zoom part put m) s Q.
Proof. unfold yields, zoom. by destruct (m (part s)) as [[a t]|]. Qed.

(** Runs the steps at the head of a program that need nothing of it. *)
Ltac prog_step :=
  cbv beta;
  match goal with
  | |- runs (bind (ret _) _) _ _ => apply runs_bind, runs_ret
  | |- runs (bind (gets _) _) _ _ => apply runs_gets
  | |- runs (bind (modify _) _) _ _ => apply runs_modify
  | |- runs (bind (bind _ _) _) _ _ => do 2 apply runs_bind
  | |- yields (bind (ret _) _) _ _ => apply yields_bind, yields_ret
  | |- yields (bind (gets _) _) _ _ => apply yields_gets
  | |- yields (bind (modify _) _) _ _ => apply yields_modify
  | |- runs (gets _) _ _ => apply runs_get
  | |- runs (modify _) _ _ => apply runs_set
  | |- yields (gets _) _ _ => apply yields_get
  | |- yields (modify _) _ _ => apply yields_set
  | |- yields (bind (bind _ _) _) _ _ => do 2 apply yields_bind
  | |- runs (ret _) _ _ => apply runs_ret
  | |- yields (ret _) _ _ => apply yields_ret
  end; cbv beta.
