(* ===== verification/Arrays.v ===== *)
(** * Arrays of samples and loops over frames

    A C array of samples is a list; [ld] and [st] are the indexed read and
    write, undefined ([None]) outside the array.  [for_loop] is the counting
    loop of the sample converters.  [for_frames] turns a loop that treats one
    frame after another into one list of frames, so that a converter is
    specified by what it does to a single frame. *)
From S2P Require Import Prelude.
#[local] Open Scope Z_scope.

Definition ld {A} (m : list A) (i : Z) : option A := if 0 <=? i then m !! Z.to_nat i else None.

Definition st {A} (m : list A) (i : Z) (v : A) : option (list A) :=
  if (0 <=? i) && (i <? Z.of_nat (length m)) then Some (<[Z.to_nat i := v]> m) else None.

(** [for (i = a; i < a + n; i++) body]. *)
Fixpoint for_loop {S} (n a : nat) (body : Z -> S -> option S) (s : S) : option S :=
  match n with
  | O => Some s
  | Datatypes.S n => s' ← body (Z.of_nat a) s; for_loop n (Datatypes.S a) body s'
  end.

(** [for (i = 0; i < n; i++) body], for an unsigned [n]. *)
Definition for_n {S} (n : Z) (body : Z -> S -> option S) (s : S) : option S :=
  for_loop (Z.to_nat n) 0 body s.

Lemma ld_Some {A} (m : list A) (i : nat) x : m !! i = Some x -> ld m (Z.of_nat i) = Some x.
Proof. intros Hx. unfold ld. zdecide. by rewrite Nat2Z.id. Qed.

Lemma ld_total (m : list Z) (i : Z) :
  0 <= i < Z.of_nat (length m) -> ld m i = Some (zget m i).
Proof.
  intros Hi. unfold ld, zget. zdecide. apply list_lookup_lookup_total_lt. lia.
Qed.

Lemma st_Some {A} (m : list A) (i : Z) v :
  0 <= i < Z.of_nat (length m) -> st m i v = Some (<[Z.to_nat i := v]> m).
Proof. intros. unfold st. by zdecide. Qed.

Lemma st_None {A} (m : list A) (i : Z) v :
  i < 0 \/ Z.of_nat (length m) <= i -> st m i v = None.
Proof. intros [?|?]; unfold st; zdecide; by rewrite ?andb_false_r. Qed.

(** A write inside the middle part of an array. *)
Lemma st_middle {A} (p b s : list A) (i : Z) v :
  Z.of_nat (length p) <= i < Z.of_nat (length p) + Z.of_nat (length b) ->
  st (p ++ b ++ s) i v = Some (p ++ <[Z.to_nat (i - Z.of_nat (length p)) := v]> b ++ s).
Proof.
  intros Hi. rewrite st_Some by (rewrite !length_app; lia).
  rewrite insert_app_r_alt by lia. rewrite insert_app_l by lia. do 3 f_equal.
  replace (Z.to_nat i - length p)%nat with (Z.to_nat (i - Z.of_nat (length p))) by lia. done.
Qed.

Lemma ld_middle {A} (p b s : list A) (i : Z) :
  Z.of_nat (length p) <= i < Z.of_nat (length p) + Z.of_nat (length b) ->
  ld (p ++ b ++ s) i = b !! Z.to_nat (i - Z.of_nat (length p)).
Proof.
  intros Hi. unfold ld. zdecide. rewrite lookup_app_r by lia. rewrite lookup_app_l by lia.
  f_equal. lia.
Qed.

(** The invariant rule of the counting loop. *)
Lemma for_loop_inv {S} (I : nat -> S -> Prop) (n a : nat) (body : Z -> S -> option S) (s : S) :
  I a s ->
  (forall i s, (a <= i < a + n)%nat -> I i s ->
     exists s', body (Z.of_nat i) s = Some s' /\ I (Datatypes.S i) s') ->
  exists s', for_loop n a body s = Some s' /\ I (a + n)%nat s'.
Proof.
  revert a s. induction n as [|n IH]; intros a s Ha Hstep; simpl.
  { exists s. by rewrite Nat.add_0_r. }
  destruct (Hstep a s) as (s' & -> & Hs'); [lia|done|]. simpl.
  replace (a + Datatypes.S n)%nat with (Datatypes.S a + n)%nat by lia.
  apply IH; [done|]. intros i t Hi. apply Hstep. lia.
Qed.

Lemma for_loop_ext {S} (n a : nat) (f g : Z -> S -> option S) (s : S) :
  (forall i s, (a <= i < a + n)%nat -> f (Z.of_nat i) s = g (Z.of_nat i) s) ->
  for_loop n a f s = for_loop n a g s.
Proof.
  revert a s. induction n as [|n IH]; intros a s Hfg; simpl; [done|].
  rewrite Hfg by lia. destruct (g _ s); simpl; [|done]. apply IH. intros. apply Hfg. lia.
Qed.

Lemma for_loop_app {S} (n m a : nat) (f : Z -> S -> option S) (s : S) :
  for_loop (n + m) a f s = (s' ← for_loop n a f s; for_loop m (a + n) f s').
Proof.
  revert a s. induction n as [|n IH]; intros a s; simpl; [by rewrite Nat.add_0_r|].
  destruct (f _ s); simpl; [|done]. rewrite IH.
  by replace (Datatypes.S a + n)%nat with (a + Datatypes.S n)%nat by lia.
Qed.

(** The frames [g 0 f0, ..., g (n - 1) f(n-1)] a loop leaves in an array whose
    frames, of [k] samples, were [f0, f1, ...]. *)
Definition frames {A} (k n : nat) (g : nat -> list A -> list A) (m : list A) : list A :=
  concat ((fun i => g i (take k (drop (k * i) m))) <$> seq 0 n) ++ drop (k * n) m.

Lemma concat_length_const {A} (k : nat) (l : list (list A)) :
  (forall x, x ∈ l -> length x = k) -> length (concat l) = (k * length l)%nat.
Proof.
  intros Hk. induction l as [|x l IH]; simpl; [lia|].
  rewrite length_app, IH by (intros; apply Hk; set_solver).
  rewrite Hk by set_solver. lia.
Qed.

Section Frames.
Context {A : Type} (k n : nat) (g : nat -> list A -> list A).
Hypothesis g_length : forall i b, length b = k -> length (g i b) = k.

Lemma frames_prefix_length (m : list A) (j : nat) :
  (k * j <= length m)%nat ->
  length (concat ((fun i => g i (take k (drop (k * i) m))) <$> seq 0 j)) = (k * j)%nat.
Proof.
  intros Hm. rewrite (concat_length_const k), length_fmap, length_seq; [done|].
  intros x (i & -> & Hi)%list_elem_of_fmap. apply elem_of_seq in Hi.
  apply g_length. rewrite length_take, length_drop. nia.
Qed.

Lemma frames_length (m : list A) :
  (k * n <= length m)%nat -> length (frames k n g m) = length m.
Proof.
  intros. unfold frames. rewrite length_app, frames_prefix_length, length_drop by done. lia.
Qed.

(** A loop whose [i]-th pass rewrites the [i]-th frame only, by [g i]. *)
Lemma for_frames (body : Z -> list A -> option (list A)) (m : list A) :
  (forall i p b s, (i < n)%nat -> length p = (k * i)%nat -> length b = k ->
     body (Z.of_nat i) (p ++ b ++ s) = Some (p ++ g i b ++ s)) ->
  (k * n <= length m)%nat ->
  for_loop n 0 body m = Some (frames k n g m).
Proof.
  intros Hbody Hm.
  set (pre j := concat ((fun i => g i (take k (drop (k * i) m))) <$> seq 0 j)).
  destruct (for_loop_inv (fun j t => t = pre j ++ drop (k * j) m) n 0 body m)
    as (s' & Hs & ->).
  - by rewrite Nat.mul_0_r.
  - intros i ? Hi ->.
    rewrite <- (take_drop k (drop (k * i) m)). rewrite drop_drop.
    rewrite Hbody; [| lia | by apply frames_prefix_length; nia
                    | rewrite length_take, length_drop; nia].
    eexists. split; [done|]. unfold pre. rewrite seq_S, fmap_app, concat_app. simpl.
    rewrite app_nil_r, <- app_assoc. do 3 f_equal. lia.
  - done.
Qed.

(** What the loop leaves at sample [c] of frame [i]. *)
Lemma frames_lookup (m : list A) (i c : nat) :
  (k * n <= length m)%nat -> (i < n)%nat -> (c < k)%nat ->
  frames k n g m !! (k * i + c)%nat = g i (take k (drop (k * i) m)) !! c.
Proof.
  intros Hm Hi Hc. unfold frames.
  replace n with (i + (1 + (n - i - 1)))%nat at 1 by lia.
  rewrite !seq_app, !fmap_app, !concat_app. simpl. rewrite app_nil_r, <- !app_assoc.
  rewrite lookup_app_r; rewrite frames_prefix_length by nia; [|lia].
  replace (k * i + c - k * i)%nat with c by lia.
  apply lookup_app_l. rewrite g_length; [done|]. rewrite length_take, length_drop. nia.
Qed.

Lemma frames_lookup_after (m : list A) (j : nat) :
  (k * n <= length m)%nat -> (k * n <= j)%nat -> frames k n g m !! j = m !! j.
Proof.
  intros Hm Hj. unfold frames. rewrite lookup_app_r; rewrite frames_prefix_length by done; [|lia].
  rewrite lookup_drop. f_equal. lia.
Qed.
End Frames.

(** A loop that also keeps running indices is the loop without them. *)
Lemma for_loop_indices {I S} (idx : nat -> I) (body : Z -> I * S -> option (I * S))
    (body' : Z -> S -> option S) (n a : nat) (s : S) :
  (forall i s, (a <= i < a + n)%nat ->
     body (Z.of_nat i) (idx i, s) = (fun s' => (idx (Datatypes.S i), s')) <$> body' (Z.of_nat i) s) ->
  for_loop n a body (idx a, s) = (fun s' => (idx (a + n)%nat, s')) <$> for_loop n a body' s.
Proof.
  revert a s. induction n as [|n IH]; intros a s Hb; simpl; [by rewrite Nat.add_0_r|].
  rewrite Hb by lia. destruct (body' _ s) as [s'|]; simpl; [|done].
  rewrite IH by (intros; apply Hb; lia).
  by replace (Datatypes.S a + n)%nat with (a + Datatypes.S n)%nat by lia.
Qed.

(** A loop that fills a part of an array. *)
Lemma for_fill {A} (v : nat -> A) (body : Z -> list A -> option (list A)) (p b s : list A) :
  (forall i m, (i < length b)%nat ->
     body (Z.of_nat i) m = st m (Z.of_nat (length p) + Z.of_nat i) (v i)) ->
  for_loop (length b) 0 body (p ++ b ++ s) = Some (p ++ (v <$> seq 0 (length b)) ++ s).
Proof.
  intros Hb.
  destruct (for_loop_inv (fun i m => m = p ++ ((v <$> seq 0 i) ++ drop i b) ++ s)
              (length b) 0 body (p ++ b ++ s)) as (m & -> & ->); [done| |].
  - intros i ? Hi ->. rewrite Hb by lia. rewrite st_middle.
    2:{ rewrite length_app, length_fmap, length_seq, length_drop. lia. }
    eexists. split; [done|]. f_equal. f_equal.
    replace (Z.to_nat _) with i by lia.
    rewrite insert_app_r_alt by (rewrite length_fmap, length_seq; lia).
    rewrite length_fmap, length_seq, Nat.sub_diag.
    destruct (drop i b) as [|x r] eqn:Hd.
    { apply (f_equal length) in Hd. rewrite length_drop in Hd. simpl in Hd. lia. }
    rewrite seq_S, fmap_app, <- app_assoc. simpl. do 2 f_equal.
    rewrite <- Nat.add_1_r, <- drop_drop, Hd. done.
  - rewrite Nat.add_0_l, drop_all, app_nil_r. done.
Qed.

(** The first [n] samples cleared, as [memset] does. *)
Definition zeroed (n : nat) (m : list Z) : list Z := replicate n 0 ++ drop n m.

Lemma zeroed_length n m : (n <= length m)%nat -> length (zeroed n m) = length m.
Proof. intros. unfold zeroed. rewrite length_app, length_replicate, length_drop. lia. Qed.

Lemma frames_ext {A} (k n : nat) (g h : nat -> list A -> list A) (m m' : list A) :
  (forall i, (i < n)%nat -> g i (take k (drop (k * i) m)) = h i (take k (drop (k * i) m'))) ->
  drop (k * n) m = drop (k * n) m' -> frames k n g m = frames k n h m'.
Proof.
  intros Hg Hd. unfold frames. rewrite Hd. f_equal. f_equal. apply fmap_seq_ext. auto.
Qed.

Lemma frames_zeroed (k n : nat) (g : nat -> list Z -> list Z) (m : list Z) :
  (k * n <= length m)%nat ->
  frames k n g (zeroed (k * n) m) = frames k n (fun i _ => g i (replicate k 0)) m.
Proof.
  intros Hm. apply frames_ext; unfold zeroed.
  - intros i Hi. f_equal. replace (k * n)%nat with (k * i + (k + k * (n - i - 1)))%nat by nia.
    rewrite !replicate_add, <- !app_assoc, drop_app_length', take_app_length';
      by rewrite ?length_replicate.
  - by rewrite drop_app_length' by (by rewrite length_replicate).
Qed.

(** [for_frames] on an array cleared beforehand. *)
Lemma for_frames_zeroed (k n : nat) (g : nat -> list Z -> list Z)
    (body : Z -> list Z -> option (list Z)) (m : list Z) :
  (forall i b, length b = k -> length (g i b) = k) ->
  (forall i p b s, (i < n)%nat -> length p = (k * i)%nat -> length b = k ->
     body (Z.of_nat i) (p ++ b ++ s) = Some (p ++ g i b ++ s)) ->
  (k * n <= length m)%nat ->
  for_loop n 0 body (zeroed (k * n) m) = Some (frames k n (fun i _ => g i (replicate k 0)) m).
Proof.
  intros Hg Hbody Hm. rewrite (for_frames k n g); [|done|done|by rewrite zeroed_length].
  by rewrite frames_zeroed.
Qed.

(** The frames of an array that a loop left. *)
Lemma frame_of_frames {A} (k n : nat) (g : nat -> list A -> list A) (m : list A) (i : nat) :
  (forall i b, length b = k -> length (g i b) = k) ->
  (k * n <= length m)%nat -> (i < n)%nat ->
  take k (drop (k * i) (frames k n g m)) = g i (take k (drop (k * i) m)).
Proof.
  intros Hg Hm Hi. apply list_eq. intros c.
  assert (Hl : length (g i (take k (drop (k * i) m))) = k)
    by (apply Hg; rewrite length_take, length_drop; nia).
  destruct (decide (c < k)%nat).
  - rewrite lookup_take, decide_True, lookup_drop by done. by apply (frames_lookup k n g Hg).
  - rewrite !lookup_ge_None_2; [done|lia|rewrite length_take; lia].
Qed.

Lemma frames_compose {A} (k n : nat) (g h : nat -> list A -> list A) (m : list A) :
  (forall i b, length b = k -> length (h i b) = k) ->
  (k * n <= length m)%nat ->
  frames k n g (frames k n h m) = frames k n (fun i b => g i (h i b)) m.
Proof.
  intros Hh Hm. apply frames_ext.
  - intros i Hi. by rewrite frame_of_frames.
  - unfold frames at 1. rewrite drop_app_length'; [done|]. by rewrite frames_prefix_length.
Qed.

Lemma frames_id {A} (k n : nat) (m : list A) :
  (k * n <= length m)%nat -> frames k n (fun _ b => b) m = m.
Proof.
  revert m. induction n as [|n IH]; intros m Hm.
  { unfold frames. by rewrite Nat.mul_0_r. }
  unfold frames. rewrite seq_S, fmap_app, concat_app. simpl. rewrite app_nil_r, <- app_assoc.
  transitivity (frames k n (fun _ b => b) m); [|apply IH; lia]. unfold frames. f_equal.
  replace (k * S n)%nat with (k * n + k)%nat by lia. rewrite <- drop_drop. apply take_drop.
Qed.

(** A loop whose every pass is a loop over the frames. *)
Lemma for_loop_frames {A} (k n c : nat) (pass : nat -> nat -> list A -> list A)
    (body : Z -> list A -> option (list A)) (m : list A) :
  (forall j i b, length b = k -> length (pass j i b) = k) ->
  (forall j m', (j < c)%nat -> length m' = length m ->
     body (Z.of_nat j) m' = Some (frames k n (pass j) m')) ->
  (k * n <= length m)%nat ->
  for_loop c 0 body m
  = Some (frames k n (fun i b => foldl (fun b j => pass j i b) b (seq 0 c)) m).
Proof.
  intros Hp Hb Hm.
  assert (Hf : forall c i b, length b = k -> length (foldl (fun b j => pass j i b) b (seq 0 c)) = k).
  { intros c' i b Hl. generalize (seq 0 c'). intros js. revert b Hl.
    induction js as [|j js IH]; intros b Hl; simpl; [done|]. apply IH. by apply Hp. }
  destruct (for_loop_inv (fun j t =>
      t = frames k n (fun i b => foldl (fun b j => pass j i b) b (seq 0 j)) m) c 0 body m)
    as (t & -> & ->); [by rewrite frames_id| |done].
  intros j ? Hj ->. eexists.
  split; [apply Hb; [lia|]; apply frames_length; [intros; by apply Hf|done]|].
  rewrite frames_compose by auto. apply frames_ext; [|done]. intros i Hi.
  by rewrite seq_S, foldl_app.
Qed.
