(* ===== verification/Float32.v ===== *)
(** * Single precision arithmetic

    [float] is IEEE 754 binary32, rounding to nearest even: the operations of
    the Standard Library's [SpecFloat] at 24 bits of precision. *)
From S2P Require Import Prelude.
From Stdlib Require Export Floats.SpecFloat.
#[local] Open Scope Z_scope.

Definition f32_mul : spec_float -> spec_float -> spec_float := SFmul 24 128.
Definition f32_add : spec_float -> spec_float -> spec_float := SFadd 24 128.
Definition f32_sub : spec_float -> spec_float -> spec_float := SFsub 24 128.
Definition f32_div : spec_float -> spec_float -> spec_float := SFdiv 24 128.

(** [(float)z]. *)
Definition f32_of_Z (z : Z) : spec_float := binary_normalize 24 128 z 0 false.

(** Truncation to an integer: none for an infinity or a NaN. *)
Definition f32_trunc (f : spec_float) : option Z :=
  match f with
  | S754_zero _ => Some 0
  | S754_finite s m e =>
      let v := if 0 <=? e then Z.pos m * 2 ^ e else Z.pos m / 2 ^ (- e) in
      Some (if s then - v else v)
  | _ => None
  end.

(** [(int)f] and [(unsigned)f]: undefined when the truncation does not fit. *)
Definition f32_to_s32 (f : spec_float) : option Z :=
  v ← f32_trunc f; if (-2147483648 <=? v) && (v <=? 2147483647) then Some v else None.
Definition f32_to_u32 (f : spec_float) : option Z :=
  v ← f32_trunc f; if (0 <=? v) && (v <=? 4294967295) then Some v else None.

Definition f32_to_s16 (f : spec_float) : option Z :=
  v ← f32_trunc f; if (-32768 <=? v) && (v <=? 32767) then Some v else None.
Definition f32_to_s64 (f : spec_float) : option Z :=
  v ← f32_trunc f;
  if (-9223372036854775808 <=? v) && (v <=? 9223372036854775807) then Some v else None.

(** [double] is binary64; a [float] compared with a constant such as [0.99] is
    converted to it. *)
Definition f64_of_Z (z : Z) : spec_float := binary_normalize 53 1024 z 0 false.
Definition f64_div : spec_float -> spec_float -> spec_float := SFdiv 53 1024.
Definition f64_mul : spec_float -> spec_float -> spec_float := SFmul 53 1024.
Definition f64_add : spec_float -> spec_float -> spec_float := SFadd 53 1024.
Definition f64_sub : spec_float -> spec_float -> spec_float := SFsub 53 1024.
Definition f64_of_f32 (f : spec_float) : spec_float :=
  match f with
  | S754_finite s m e => binary_normalize 53 1024 (if s then Z.neg m else Z.pos m) e s
  | _ => f
  end.
Definition f32_of_f64 (f : spec_float) : spec_float :=
  match f with
  | S754_finite s m e => binary_normalize 24 128 (if s then Z.neg m else Z.pos m) e s
  | _ => f
  end.

(** The [double] nearest to a decimal fraction. *)
Definition f64_ratio (n d : Z) : spec_float := f64_div (f64_of_Z n) (f64_of_Z d).

Definition float_zero : spec_float := S754_zero false.
Definition float_one : spec_float := S754_finite false 8388608 (-23).


(** ** Small integers are exact *)

(** A sample's distance from the [2 ^ 24] at which [float] loses units. *)
Definition f32_exact (z : Z) : Prop := - 16777216 < z < 16777216.

Lemma iter_xO_value (m d : positive) : Z.pos (Pos.iter xO m d) = Z.pos m * 2 ^ Z.pos d.
Proof.
  induction d as [|d IH] using Pos.peano_ind; [simpl; lia|].
  rewrite Pos.iter_succ, Pos2Z.inj_xO, IH, Pos2Z.inj_succ, Z.pow_succ_r by lia. lia.
Qed.

Lemma iter_xO_digits (m d : positive) :
  Z.pos (digits2_pos (Pos.iter xO m d)) = Z.pos (digits2_pos m) + Z.pos d.
Proof.
  induction d as [|d IH] using Pos.peano_ind; [simpl; lia|].
  rewrite Pos.iter_succ. simpl digits2_pos. lia.
Qed.

Lemma digits_small (m : positive) : Z.pos m < 16777216 -> Z.pos (digits2_pos m) <= 24.
Proof.
  intros Hm. change (digits2_pos m) with (Pos.size m). pose proof (Pos.size_le m) as Hs.
  destruct (Z.le_gt_cases (Z.pos (Pos.size m)) 24) as [|Hgt]; [done|].
  assert (2 ^ 25 <= 2 ^ Z.pos (Pos.size m)) by (apply Z.pow_le_mono_r; lia). lia.
Qed.

(** A mantissa of at most 24 digits at an exponent that keeps it needs no shift. *)
Lemma round_aux_exact (s : bool) (m : positive) (e : Z) :
  Z.pos (digits2_pos m) <= 24 -> - 149 <= e <= 104 ->
  binary_round_aux 24 128 s (Z.pos m) e loc_Exact = S754_finite s m e.
Proof.
  intros Hm He. unfold binary_round_aux.
  assert (Hs : shr_fexp 24 128 (Z.pos m) e loc_Exact
             = ({| shr_m := Z.pos m; shr_r := false; shr_s := false |}, e)).
  { unfold shr_fexp, fexp, SpecFloat.emin. simpl Zdigits2.
    destruct (Z.max _ _ - e) as [|p|p] eqn:Hp; [done| |done]. lia. }
  rewrite Hs. simpl. rewrite Hs. simpl. by zdecide.
Qed.

(** [float] of a small positive integer: the mantissa is shifted up to 24 digits. *)
Lemma f32_round_pos (s : bool) (m : positive) :
  Z.pos m < 16777216 ->
  exists k, 0 <= k /\ Z.pos (digits2_pos m) + k = 24 /\
    binary_round 24 128 s m 0 = S754_finite s (Z.to_pos (Z.pos m * 2 ^ k)) (- k).
Proof.
  intros Hm. pose proof (digits_small m Hm) as Hd.
  exists (24 - Z.pos (digits2_pos m)). split_and!; [lia..|].
  unfold binary_round, shl_align, fexp, SpecFloat.emin.
  replace (Z.max _ _ - 0) with (- (24 - Z.pos (digits2_pos m))) by lia.
  destruct (24 - Z.pos (digits2_pos m)) as [|d|d] eqn:Hk; [..|lia].
  - change (- 0) with 0. cbv iota beta. rewrite round_aux_exact by lia. f_equal. lia.
  - change (- Z.pos d) with (Z.neg d). cbv iota beta.
    replace (Z.max _ _) with (Z.neg d) by lia.
    assert (Hdig := iter_xO_digits m d). rewrite round_aux_exact by lia.
    rewrite <- iter_xO_value. f_equal.
Qed.

Lemma shr_twice (m : positive) (d : positive) :
  iter_pos shr_1 d {| shr_m := Z.pos (Pos.iter xO m d); shr_r := false; shr_s := false |}
  = {| shr_m := Z.pos m; shr_r := false; shr_s := false |}.
Proof.
  enough (H : forall d n m, iter_pos shr_1 d
     {| shr_m := Z.pos (Nat.iter (Pos.to_nat d + n) xO m); shr_r := false; shr_s := false |}
     = {| shr_m := Z.pos (Nat.iter n xO m); shr_r := false; shr_s := false |}).
  { specialize (H d 0%nat m). rewrite Nat.add_0_r in H. simpl in H. rewrite <- H.
    by rewrite Pos2Nat.inj_iter. }
  clear. induction d as [d IH|d IH|]; intros n m; cbn [iter_pos].
  - replace (Pos.to_nat d~1 + n)%nat with (S (Pos.to_nat d + (Pos.to_nat d + n)))%nat by lia.
    change (Nat.iter (S ?k) xO m) with (Nat.iter k xO m)~0%positive.
    cbn [shr_1 orb]. by rewrite !IH.
  - replace (Pos.to_nat d~0 + n)%nat with (Pos.to_nat d + (Pos.to_nat d + n))%nat by lia.
    by rewrite !IH.
  - done.
Qed.

(** Multiplying an exact sample by [1.0f] returns it. *)
Lemma f32_one_mul (s : bool) (m : positive) (e : Z) :
  Z.pos (digits2_pos m) = 24 -> - 149 <= e <= 104 ->
  f32_mul float_one (S754_finite s m e) = S754_finite s m e.
Proof.
  intros Hd He. unfold f32_mul, float_one, SFmul. rewrite xorb_false_l.
  replace (8388608 * m)%positive with (Pos.iter xO m 23) by (simpl; lia).
  unfold binary_round_aux.
  replace (shr_fexp 24 128 (Z.pos (Pos.iter xO m 23)) (-23 + e) loc_Exact)
    with (Build_shr_record (Z.pos m) false false, e).
  2:{ unfold shr_fexp, fexp, SpecFloat.emin. cbn [Zdigits2]. rewrite iter_xO_digits.
      replace (Z.max _ _ - _) with 23 by lia. unfold shr, shr_record_of_loc.
      rewrite shr_twice. f_equal. lia. }
  simpl shr_m. simpl loc_of_shr_record. simpl round_nearest_even.
  replace (shr_fexp 24 128 (Z.pos m) e loc_Exact)
    with (Build_shr_record (Z.pos m) false false, e).
  2:{ unfold shr_fexp, fexp, SpecFloat.emin. simpl Zdigits2.
      destruct (Z.max _ _ - e) as [|p|p] eqn:Hp; [done| |done]. lia. }
  simpl. by zdecide.
Qed.

Lemma shifted_digits (m : positive) (k : Z) :
  0 <= k ->
  Z.pos (digits2_pos (Z.to_pos (Z.pos m * 2 ^ k))) = Z.pos (digits2_pos m) + k.
Proof.
  intros Hk. destruct k as [|d|d]; [|by rewrite <- iter_xO_value, Pos2Z.id, iter_xO_digits|lia].
  rewrite Z.mul_1_r, Pos2Z.id. lia.
Qed.

Lemma f32_of_Z_cases (z : Z) :
  f32_exact z ->
  (z = 0 /\ f32_of_Z z = float_zero) \/
  exists s m k, Z.pos (digits2_pos m) = 24 /\ 0 <= k < 24 /\
    f32_of_Z z = S754_finite s m (- k) /\ (if s then - z else z) * 2 ^ k = Z.pos m.
Proof.
  intros [Hl Hu].
  assert (Hcase : forall s m, Z.pos m < 16777216 -> exists m' k,
    Z.pos (digits2_pos m') = 24 /\ 0 <= k < 24 /\
    binary_round 24 128 s m 0 = S754_finite s m' (- k) /\ Z.pos m * 2 ^ k = Z.pos m').
  { intros s m Hm. destruct (f32_round_pos s m Hm) as (k & Hk & Hd & Hr).
    exists (Z.to_pos (Z.pos m * 2 ^ k)), k. assert (0 < 2 ^ k) by (apply Z.pow_pos_nonneg; lia).
    rewrite shifted_digits by done. split_and!; [lia..|done|]. rewrite Z2Pos.id by lia. done. }
  destruct z as [|m|m]; [by left| |]; right.
  - destruct (Hcase false m) as (m' & k & ?); [lia|]. by exists false, m', k.
  - destruct (Hcase true m) as (m' & k & ?); [lia|]. by exists true, m', k.
Qed.

Lemma f32_trunc_of_Z (z : Z) : f32_exact z -> f32_trunc (f32_of_Z z) = Some z.
Proof.
  intros Hz. destruct (f32_of_Z_cases z Hz) as [[-> ->]|(s & m & k & _ & Hk & -> & Hm)]; [done|].
  unfold f32_trunc. rewrite <- Hm. assert (0 < 2 ^ k) by (apply Z.pow_pos_nonneg; lia).
  destruct (Z.leb_spec 0 (- k)).
  - assert (k = 0) as -> by lia. simpl. destruct s; f_equal; lia.
  - rewrite Z.opp_involutive, Z.div_mul by lia. destruct s; f_equal; lia.
Qed.

Lemma f32_to_s32_of_Z (z : Z) : f32_exact z -> f32_to_s32 (f32_of_Z z) = Some z.
Proof.
  intros Hz. unfold f32_to_s32. rewrite f32_trunc_of_Z by done. simpl.
  unfold f32_exact in Hz. by zdecide.
Qed.

Lemma f32_mul_one (z : Z) : f32_exact z -> f32_mul float_one (f32_of_Z z) = f32_of_Z z.
Proof.
  intros Hz. destruct (f32_of_Z_cases z Hz) as [[-> ->]|(s & m & k & Hd & Hk & -> & Hm)]; [done|].
  apply f32_one_mul; [done|lia].
Qed.

(** The product with [0.0f] is a zero, which adds nothing. *)
Lemma f32_add_zero_mul (x z : Z) :
  f32_exact x -> f32_exact z ->
  f32_add (f32_of_Z x) (f32_mul float_zero (f32_of_Z z)) = f32_of_Z x.
Proof.
  intros Hx Hz.
  assert (exists s, f32_mul float_zero (f32_of_Z z) = S754_zero s) as [s ->].
  { destruct (f32_of_Z_cases z Hz) as [[-> ->]|(s & m & k & Hd & Hk & -> & Hm)]; by eexists. }
  destruct (f32_of_Z_cases x Hx) as [[-> ->]|(s' & m & k & Hd & Hk & -> & Hm)]; [|done].
  by destruct s.
Qed.

Lemma f32_zero_add (z : Z) : f32_exact z -> f32_add float_zero (f32_of_Z z) = f32_of_Z z.
Proof.
  intros Hz. by destruct (f32_of_Z_cases z Hz) as [[-> ->]|(s & m & k & Hd & Hk & -> & Hm)].
Qed.

(** ** Rounding stays below a bound that is representable *)

(** Shifting right by [n] divides by [2 ^ n]; the two flags are off exactly
    when nothing was lost. *)
Definition shifted (m : Z) (n : nat) (r : shr_record) : Prop :=
  shr_m r = m / 2 ^ Z.of_nat n /\ (shr_r r || shr_s r = false <-> m = shr_m r * 2 ^ Z.of_nat n).

Lemma shr_1_shifted (m : Z) (n : nat) (r : shr_record) :
  0 <= m -> shifted m n r -> shifted m (S n) (shr_1 r).
Proof.
  intros Hm [Hd Hx]. pose proof (Z.pow_pos_nonneg 2 (Z.of_nat n) ltac:(lia) ltac:(lia)) as Hp.
  assert (Hpos : 0 <= shr_m r) by (rewrite Hd; apply Z.div_pos; lia).
  assert (Hstep : shr_m (shr_1 r) = shr_m r / 2 /\
    (shr_r (shr_1 r) || shr_s (shr_1 r) = false <->
       shr_m r = shr_m (shr_1 r) * 2 /\ shr_r r || shr_s r = false)).
  { destruct r as [k a b]. simpl in *. destruct k as [|[p|p|]|p]; simpl; try lia.
    - split; [done|]. tauto.
    - split; [by rewrite Pos2Z.inj_xI, (Z.mul_comm 2), Z.div_add_l, Z.add_0_r by lia|].
      split; [done|lia].
    - split; [by rewrite Pos2Z.inj_xO, (Z.mul_comm 2), Z.div_mul by lia|].
      split; [intros ->; split; [lia|done]|tauto].
    - split; [done|]. split; [done|lia]. }
  destruct Hstep as [Hm' Hx']. unfold shifted.
  rewrite Nat2Z.inj_succ, Z.pow_succ_r, Hm' by lia. split.
  - by rewrite Hd, Z.div_div, (Z.mul_comm 2) by lia.
  - rewrite Hx', Hx, Hm'. pose proof (Z.div_mod (shr_m r) 2 ltac:(lia)).
    pose proof (Z.mod_pos_bound (shr_m r) 2 ltac:(lia)).
    pose proof (Z.div_mod m (2 ^ Z.of_nat n) ltac:(lia)) as Hdm.
    pose proof (Z.mod_pos_bound m (2 ^ Z.of_nat n) Hp). rewrite <- Hd in Hdm.
    split; [intros [Ha Hb]; rewrite Hb, Ha at 1; nia|]. intros Hc.
    assert (shr_m r mod 2 = 0) by nia. split; nia.
Qed.

Lemma iter_shr_shifted (m : Z) (p : positive) (n : nat) (r : shr_record) :
  0 <= m -> shifted m n r -> shifted m (n + Pos.to_nat p) (iter_pos shr_1 p r).
Proof.
  intros Hm. revert n r. induction p as [p IH|p IH|]; intros n r Hr; cbn [iter_pos].
  - replace (n + Pos.to_nat p~1)%nat with (S n + Pos.to_nat p + Pos.to_nat p)%nat by lia.
    apply IH, IH. by apply shr_1_shifted.
  - replace (n + Pos.to_nat p~0)%nat with (n + Pos.to_nat p + Pos.to_nat p)%nat by lia.
    by apply IH, IH.
  - rewrite Nat.add_1_r. by apply shr_1_shifted.
Qed.

Lemma round_shifted_le (m : Z) (n : nat) (r : shr_record) (b : Z) :
  0 <= m -> shifted m n r -> m <= b * 2 ^ Z.of_nat n ->
  0 <= round_nearest_even (shr_m r) (loc_of_shr_record r) <= b.
Proof.
  intros Hm [Hd Hx] Hb. pose proof (Z.pow_pos_nonneg 2 (Z.of_nat n) ltac:(lia) ltac:(lia)) as Hp.
  assert (H0 : 0 <= shr_m r) by (rewrite Hd; apply Z.div_pos; lia).
  assert (Hle : shr_m r <= b) by (rewrite Hd; apply Z.div_le_upper_bound; lia).
  pose proof (Z.div_mod m (2 ^ Z.of_nat n) ltac:(lia)) as Hdm.
  assert (Hlt : shr_r r || shr_s r = true -> shr_m r + 1 <= b).
  { intros Ht. destruct (Z.eq_dec (shr_m r) b) as [He|]; [|lia].
    pose proof (Z.mod_pos_bound m _ Hp). rewrite <- Hd in Hdm.
    assert (shr_r r || shr_s r = false); [apply Hx; nia|congruence]. }
  destruct r as [k [] []]; simpl in *; try destruct (Z.even k); specialize (Hlt eq_refl) || idtac; lia.
Qed.

Lemma digits_le (m : Z) (d : Z) : 0 <= m -> 0 <= d -> m < 2 ^ d -> Zdigits2 m <= d.
Proof.
  intros Hm Hd Hlt. destruct m as [|m|m]; [simpl; lia| |lia]. simpl.
  change (digits2_pos m) with (Pos.size m). pose proof (Pos.size_le m) as Hs.
  destruct (Z.le_gt_cases (Z.pos (Pos.size m)) d) as [|Hgt]; [done|].
  assert (2 ^ (d + 1) <= 2 ^ Z.pos (Pos.size m)) by (apply Z.pow_le_mono_r; lia).
  rewrite Z.pow_add_r, Z.pow_1_r in * by lia. lia.
Qed.

Lemma below_digits (m : Z) : 0 <= m -> 0 <= Zdigits2 m /\ m < 2 ^ Zdigits2 m.
Proof.
  intros Hm. destruct m as [|m|m]; [simpl; lia| |lia]. simpl.
  change (digits2_pos m) with (Pos.size m). pose proof (Pos.size_gt m). lia.
Qed.

Lemma shr_fexp_shifted (m e : Z) :
  0 <= m ->
  let '(r, e') := shr_fexp 24 128 m e loc_Exact in
  exists n : nat, shifted m n r /\ e' = e + Z.of_nat n /\
    e' = Z.max e (Z.max (Zdigits2 m + e - 24) (-149)).
Proof.
  intros Hm. unfold shr_fexp, fexp, SpecFloat.emin. change (3 - 128 - 24) with (-149).
  assert (H0 : shifted m 0 (shr_record_of_loc m loc_Exact)).
  { split; simpl; [by rewrite Z.div_1_r|]. split; [lia|done]. }
  destruct (Z.max _ _ - e) as [|p|p] eqn:Hp; cbn [shr].
  - exists 0%nat. split_and!; [done|lia|lia].
  - exists (Pos.to_nat p). rewrite positive_nat_Z. split_and!; [|lia|lia].
    by apply (iter_shr_shifted m p 0).
  - exists 0%nat. split_and!; [done|lia|lia].
Qed.

(** [M * 2 ^ E] is a bound that [float] represents. *)
Lemma round_aux_le (s : bool) (m : positive) (e M E : Z) :
  0 <= M < 16777216 -> e <= E -> -149 <= E <= 104 -> Z.pos m <= M * 2 ^ (E - e) ->
  binary_round_aux 24 128 s (Z.pos m) e loc_Exact = S754_zero s \/
  exists m' e', binary_round_aux 24 128 s (Z.pos m) e loc_Exact = S754_finite s m' e' /\
    e <= e' <= E /\ -149 <= e' /\ Z.pos m' <= M * 2 ^ (E - e') /\ Z.pos m' < 16777216.
Proof.
  intros HM He HE Hb. unfold binary_round_aux.
  pose proof (shr_fexp_shifted (Z.pos m) e ltac:(lia)) as H1.
  destruct (shr_fexp 24 128 (Z.pos m) e loc_Exact) as [r1 e1]. destruct H1 as (n1 & Hs1 & He1 & Hmax1).
  assert (Hd1 : Zdigits2 (Z.pos m) <= 24 + (E - e)).
  { apply digits_le; [lia..|]. rewrite Z.pow_add_r by lia. change (2 ^ 24) with 16777216.
    assert (0 < 2 ^ (E - e)) by (apply Z.pow_pos_nonneg; lia). nia. }
  assert (Hle1 : e1 <= E) by lia.
  assert (Hp1 : 0 < 2 ^ (E - e1)) by (apply Z.pow_pos_nonneg; lia).
  pose proof (round_shifted_le (Z.pos m) n1 r1 (M * 2 ^ (E - e1)) ltac:(lia) Hs1) as Hr.
  set (m1 := round_nearest_even (shr_m r1) (loc_of_shr_record r1)) in *.
  destruct Hr as [Hm0 Hm1].
  { rewrite <- Z.mul_assoc, <- Z.pow_add_r by lia. replace (E - e1 + Z.of_nat n1) with (E - e) by lia. done. }
  pose proof (shr_fexp_shifted m1 e1 Hm0) as H2.
  destruct (shr_fexp 24 128 m1 e1 loc_Exact) as [r2 e2]. destruct H2 as (n2 & [Hs2 _] & He2 & Hmax2).
  assert (Hd2 : Zdigits2 m1 <= 24 + (E - e1)).
  { apply digits_le; [lia..|]. rewrite Z.pow_add_r by lia. change (2 ^ 24) with 16777216. nia. }
  assert (Hle2 : e2 <= E) by lia.
  assert (Hp2 : 0 < 2 ^ Z.of_nat n2) by (apply Z.pow_pos_nonneg; lia).
  assert (Hm2 : 0 <= shr_m r2 <= M * 2 ^ (E - e2)).
  { rewrite Hs2. split; [apply Z.div_pos; lia|]. apply Z.div_le_upper_bound; [done|].
    rewrite (Z.mul_comm (2 ^ Z.of_nat n2)), <- Z.mul_assoc, <- Z.pow_add_r by lia.
    replace (E - e2 + Z.of_nat n2) with (E - e1) by lia. done. }
  assert (Hsmall : shr_m r2 < 16777216).
  { rewrite Hs2. apply Z.div_lt_upper_bound; [done|]. destruct (below_digits m1 Hm0) as [Hdp Hlt].
    eapply Z.lt_le_trans; [exact Hlt|]. change 16777216 with (2 ^ 24). rewrite <- Z.pow_add_r by lia.
    apply Z.pow_le_mono_r; lia. }
  destruct (shr_m r2) as [|m'|m'] eqn:Hm'; [by left|right|lia].
  exists m', e2. rewrite (proj2 (Z.leb_le e2 _)) by lia. split; [done|]. lia.
Qed.

(** The truncation of a finite [float] below [M * 2 ^ E]. *)
Definition f32_trunc_abs (m e : Z) : Z := if 0 <=? e then m * 2 ^ e else m / 2 ^ (- e).

Lemma f32_trunc_finite (s : bool) (m : positive) (e : Z) :
  f32_trunc (S754_finite s m e) = Some (if s then - f32_trunc_abs (Z.pos m) e else f32_trunc_abs (Z.pos m) e).
Proof. done. Qed.

Lemma f32_trunc_abs_mono (m e M E : Z) :
  0 <= m -> e <= E -> m <= M * 2 ^ (E - e) -> 0 <= f32_trunc_abs m e <= f32_trunc_abs M E.
Proof.
  intros Hm He Hle. unfold f32_trunc_abs.
  assert (0 < 2 ^ (E - e)) by (apply Z.pow_pos_nonneg; lia). assert (0 <= M) by nia.
  destruct (Z.leb_spec 0 e), (Z.leb_spec 0 E); try lia.
  - assert (0 < 2 ^ e) by (apply Z.pow_pos_nonneg; lia).
    replace E with (E - e + e) at 1 by lia. rewrite Z.pow_add_r by lia. nia.
  - assert (0 < 2 ^ (- e)) by (apply Z.pow_pos_nonneg; lia).
    split; [apply Z.div_pos; lia|]. apply Z.div_le_upper_bound; [done|].
    replace (E - e) with (E + - e) in Hle by lia. rewrite Z.pow_add_r in Hle by lia. lia.
  - assert (0 < 2 ^ (- e)) by (apply Z.pow_pos_nonneg; lia).
    assert (0 < 2 ^ (- E)) by (apply Z.pow_pos_nonneg; lia).
    split; [apply Z.div_pos; lia|].
    replace (- e) with ((E - e) + (- E)) by lia.
    rewrite Z.pow_add_r, <- Z.div_div by lia.
    apply Z.div_le_mono; [done|]. apply Z.div_le_upper_bound; lia.
Qed.

(** ** Scaling by a volume between 0 and 1 *)

Definition volume (v : spec_float) : Prop :=
  valid_binary 24 128 v = true /\ SFleb float_zero v = true /\ SFleb v float_one = true.

Lemma compare_cont_le (m n : positive) : Pos.compare_cont Eq m n <> Gt -> Z.pos m <= Z.pos n.
Proof. done. Qed.

Lemma volume_cases (v : spec_float) :
  volume v -> (exists s, v = S754_zero s) \/
  exists m e, v = S754_finite false m e /\ e <= 0 /\ Z.pos m <= 2 ^ (- e).
Proof.
  intros (Hv & Hz & Ho). destruct v as [s|[]| |[] m e];
    [left; by exists s|discriminate Hz|discriminate Ho|discriminate Hz|discriminate Hz|].
  right. exists m, e. split; [done|]. unfold SFleb, float_one in Ho. cbn [SFcompare] in Ho.
  unfold valid_binary, bounded, canonical_mantissa in Hv.
  apply andb_true_iff in Hv as [Hc _]. apply Z.eqb_eq in Hc.
  unfold fexp, SpecFloat.emin in Hc. change (3 - 128 - 24) with (-149) in Hc.
  destruct (below_digits (Z.pos m)) as [_ Hlt]; [lia|]. simpl in Hlt.
  destruct (e ?= -23) eqn:He.
  - apply Z.compare_eq in He as ->. split; [done|].
    change (2 ^ (- (-23))) with 8388608. apply (compare_cont_le m 8388608).
    intros Hgt. by rewrite Hgt in Ho.
  - change (e < -23) in He. split; [clear -He; lia|].
    eapply Z.le_trans; [apply Z.lt_le_incl; exact Hlt|]. apply Z.pow_le_mono_r; clear -He Hc; lia.
  - discriminate Ho.
Qed.

Lemma f32_of_Z_bound (z M E : Z) :
  0 <= M < 16777216 -> 0 <= E <= 104 -> Z.abs z <= M * 2 ^ E ->
  (exists s, f32_of_Z z = S754_zero s) \/
  exists m e, f32_of_Z z = S754_finite (z <? 0) m e /\ -149 <= e <= E /\
    Z.pos m <= M * 2 ^ (E - e) /\ Z.pos m < 16777216.
Proof.
  intros HM HE Hz.
  assert (Hround : forall s m, Z.pos m <= M * 2 ^ E ->
    (exists s', binary_round 24 128 s m 0 = S754_zero s') \/
    exists m' e', binary_round 24 128 s m 0 = S754_finite s m' e' /\ -149 <= e' <= E /\
      Z.pos m' <= M * 2 ^ (E - e') /\ Z.pos m' < 16777216).
  { intros s m Hm. unfold binary_round, shl_align.
    assert (Haux : forall m1 e1, e1 <= 0 -> Z.pos m1 = Z.pos m * 2 ^ (- e1) ->
      (exists s', binary_round_aux 24 128 s (Z.pos m1) e1 loc_Exact = S754_zero s') \/
      exists m' e', binary_round_aux 24 128 s (Z.pos m1) e1 loc_Exact = S754_finite s m' e' /\
        -149 <= e' <= E /\ Z.pos m' <= M * 2 ^ (E - e') /\ Z.pos m' < 16777216).
    { intros m1 e1 He1 Hm1. assert (0 < 2 ^ (- e1)) by (apply Z.pow_pos_nonneg; lia).
      destruct (round_aux_le s m1 e1 M E) as [->|(m' & e' & -> & Hr)]; [done|lia|lia| |by left; eexists|].
      - replace (E - e1) with (E + - e1) by lia. rewrite Z.pow_add_r, Hm1 by lia. nia.
      - right. exists m', e'. split; [done|]. lia. }
    destruct (fexp 24 128 _ - 0) as [|d|d] eqn:Hd.
    - apply Haux; [lia|]. simpl. lia.
    - apply Haux; [lia|]. simpl. lia.
    - apply Haux; [lia|]. rewrite iter_xO_value. f_equal. f_equal. lia. }
  destruct z as [|m|m]; [left; by exists false| |]; apply Hround; simpl in Hz; lia.
Qed.

(** A scaled sample is truncated to a sample no farther from zero. *)
Lemma scaled_bound (z M E : Z) (v : spec_float) :
  volume v -> 0 <= M < 16777216 -> 0 <= E <= 104 -> Z.abs z <= M * 2 ^ E ->
  exists w, f32_trunc (f32_mul (f32_of_Z z) v) = Some w /\ Z.abs w <= M * 2 ^ E /\
    (0 < z -> 0 <= w) /\ (z < 0 -> w <= 0).
Proof.
  intros Hv HM HE Hz. assert (0 < 2 ^ E) by (apply Z.pow_pos_nonneg; lia).
  destruct (f32_of_Z_bound z M E HM HE Hz) as [[s ->]|(m & e & -> & He & Hm & Hlt)];
    destruct (volume_cases v Hv) as [[s' ->]|(mv & ev & -> & Hev & Hmv)];
    try (exists 0; split; [done|]; nia).
  unfold f32_mul. cbn [SFmul]. rewrite xorb_false_r.
  assert (Hprod : Z.pos (m * mv) <= Z.pos m * 2 ^ (e - (e + ev))).
  { replace (e - (e + ev)) with (- ev) by lia. nia. }
  destruct (round_aux_le (z <? 0) (m * mv) (e + ev) (Z.pos m) e)
    as [->|(m' & e' & -> & Hr & _ & Hle & _)]; [lia..|done| |].
  { exists 0. split; [done|]. nia. }
  rewrite f32_trunc_finite.
  destruct (f32_trunc_abs_mono (Z.pos m') e' (Z.pos m) e) as [H0 H1]; [lia..|].
  destruct (f32_trunc_abs_mono (Z.pos m) e M E) as [_ H2]; [lia..|].
  assert (HE' : f32_trunc_abs M E = M * 2 ^ E) by (unfold f32_trunc_abs; by zdecide).
  rewrite HE' in H2. eexists. split; [done|]. destruct (Z.ltb_spec z 0); lia.
Qed.
