(* ===== verification/Rounding.v ===== *)
(** * Rounding to nearest is monotone

    What the resampler relies on of [float] arithmetic.  [fval] reads a finite
    [float] as an integer number of units [2 ^ -600]; an operation [rounds] an
    exact value when every [float] above the exact value is above the result
    and every [float] below it is below.  Sums, differences, products,
    quotients and conversions all do, so bounds by [float]s survive rounding. *)
From S2P Require Import Prelude Float32.
#[local] Open Scope Z_scope.

Definition pw (e : Z) : Z := 2 ^ (e + 600).

(** A finite [float] in the form IEEE 754 gives it. *)
Definition is_fin (f : spec_float) : bool :=
  match f with
  | S754_zero _ => true
  | S754_finite _ m e => bounded 24 128 m e
  | _ => false
  end.

Definition mag (f : spec_float) : Z :=
  match f with S754_finite _ m e => Z.pos m * pw e | _ => 0 end.

Definition fval (f : spec_float) : Z :=
  match f with S754_finite true m e => - (Z.pos m * pw e) | _ => mag f end.

(** [r] is a rounding of [P / Q], in the units of [fval]. *)
Definition rounds (P Q : Z) (r : spec_float) : Prop :=
  is_fin r = true /\
  forall g, is_fin g = true ->
    (P <= fval g * Q -> fval r <= fval g) /\ (fval g * Q <= P -> fval g <= fval r).

Lemma pw_pos (e : Z) : -600 <= e -> 0 < pw e.
Proof. intros He. apply Z.pow_pos_nonneg; lia. Qed.

Lemma pw_shift (e k : Z) : -600 <= e -> 0 <= k -> pw (e + k) = 2 ^ k * pw e.
Proof. intros He Hk. unfold pw. rewrite <- Z.pow_add_r by lia. f_equal. lia. Qed.

Lemma pw_prod (a b : Z) : -300 <= a -> -300 <= b -> pw a * pw b = pw (a + b) * pw 0.
Proof. intros Ha Hb. unfold pw. rewrite <- !Z.pow_add_r by lia. f_equal. lia. Qed.

#[local] Opaque pw.

(** ** One rounding step *)

Lemma shr_1_half (r : shr_record) : 0 <= shr_m r -> shr_m (shr_1 r) = shr_m r / 2.
Proof.
  destruct r as [[|[q|q|]|q] a b]; simpl; intros; try done; try lia.
  - by rewrite Pos2Z.inj_xI, (Z.mul_comm 2), Z.div_add_l, Z.add_0_r by lia.
  - by rewrite Pos2Z.inj_xO, (Z.mul_comm 2), Z.div_mul by lia.
Qed.

Lemma iter_shr_div (p : positive) (r : shr_record) :
  0 <= shr_m r -> shr_m (iter_pos shr_1 p r) = shr_m r / 2 ^ Z.pos p.
Proof.
  revert r. induction p as [p IH|p IH|]; intros r Hr; cbn [iter_pos]; [..|by rewrite shr_1_half].
  - assert (H1 : 0 <= shr_m (shr_1 r)) by (rewrite shr_1_half by done; apply Z.div_pos; lia).
    rewrite !IH, shr_1_half, !Z.div_div by (rewrite ?IH by done; try apply Z.div_pos; lia).
    f_equal. replace (Z.pos p~1) with (1 + Z.pos p + Z.pos p) by lia.
    rewrite !Z.pow_add_r by lia. lia.
  - rewrite !IH, !Z.div_div by (rewrite ?IH by done; try apply Z.div_pos; lia).
    f_equal. replace (Z.pos p~0) with (Z.pos p + Z.pos p) by lia. by rewrite Z.pow_add_r by lia.
Qed.

Lemma nearest_step (r : shr_record) :
  let k := round_nearest_even (shr_m r) (loc_of_shr_record r) in
  shr_m r <= k <= shr_m r + 1 /\ (shr_r r || shr_s r = false -> k = shr_m r).
Proof. destruct r as [q [] []]; simpl; try destruct (Z.even q); split; lia || done. Qed.

Lemma record_of_loc (m : Z) (l : location) : shr_m (shr_record_of_loc m l) = m.
Proof. by destruct l as [|[]]. Qed.

(** The shift of [shr_fexp] drops some bits; rounding takes the quotient or the
    next integer, and the quotient when nothing was dropped. *)
Lemma shr_fexp_rounds (m e : Z) (l : location) :
  0 <= m -> let e1 := fexp 24 128 (Zdigits2 m + e) in e <= e1 ->
  let '(r, e') := shr_fexp 24 128 m e l in
  let k := round_nearest_even (shr_m r) (loc_of_shr_record r) in
  let q := m / 2 ^ (e1 - e) in
  e' = e1 /\ q <= k <= q + 1 /\ (l = loc_Exact -> m = q * 2 ^ (e1 - e) -> k = q).
Proof.
  intros Hm e1 He. unfold shr_fexp. fold e1.
  pose proof (record_of_loc m l) as Hrec.
  destruct (e1 - e) as [|p|p] eqn:Hn; cbn [shr]; [| |lia].
  - destruct (nearest_step (shr_record_of_loc m l)) as [Hb Hx]. rewrite Hrec in *.
    rewrite Z.div_1_r. split_and!; [lia|lia|lia|]. intros -> _. by apply Hx.
  - set (r := iter_pos shr_1 p _).
    assert (Hd : shr_m r = m / 2 ^ Z.pos p) by (unfold r; rewrite iter_shr_div, Hrec by lia; done).
    destruct (nearest_step r) as [Hb Hx]. rewrite Hd in *. split_and!; [lia|lia|lia|].
    intros -> Hq. apply Hx.
    destruct (iter_shr_shifted m p 0 (Build_shr_record m false false)) as [_ Hs];
      [done|split; simpl; [by rewrite Z.div_1_r|lia]|].
    rewrite Nat.add_0_l, positive_nat_Z in Hs. apply Hs. unfold r in Hd. cbn [shr_record_of_loc] in Hd.
    by rewrite Hd.
Qed.

Lemma above_digits (m : Z) : 0 < m -> 2 ^ (Zdigits2 m - 1) <= m.
Proof.
  intros Hm. destruct m as [|m|m]; [lia| |lia]. cbn [Zdigits2].
  change (digits2_pos m) with (Pos.size m). pose proof (Pos.size_le m) as H.
  apply Pos2Z.pos_le_pos in H. rewrite Pos2Z.inj_pow in H. change (Z.pos m~0) with (2 * Z.pos m) in H.
  replace (Z.pos (Pos.size m)) with (Z.pos (Pos.size m) - 1 + 1) in H at 1 by lia.
  rewrite Z.pow_add_r, Z.pow_1_r in H by lia. lia.
Qed.

(** The second shift only renormalises a mantissa that was rounded up to [2 ^ 24]. *)
Lemma renormalise (k e : Z) :
  0 <= k <= 16777216 -> -149 <= e -> (e = -149 \/ 8388608 <= k) ->
  exists m' e', shr_fexp 24 128 k e loc_Exact = (Build_shr_record m' false false, e') /\
    m' * pw e' = k * pw e /\ e <= e' /\ 0 <= m' < 16777216 /\
    (0 < m' -> fexp 24 128 (Zdigits2 m' + e') = e').
Proof.
  intros Hk He Hn. destruct (Z.eq_dec k 16777216) as [->|Hne].
  - exists 8388608, (e + 1). unfold shr_fexp, fexp, SpecFloat.emin.
    replace (Zdigits2 16777216) with 25 by reflexivity.
    replace (Z.max _ _ - e) with 1 by lia. cbn [shr iter_pos]. split; [reflexivity|].
    rewrite pw_shift by lia. replace (Zdigits2 8388608) with 24 by reflexivity.
    split_and!; lia.
  - exists k, e. assert (Hd : Zdigits2 k <= 24) by (apply digits_le; lia).
    unfold shr_fexp, fexp, SpecFloat.emin. split_and!; try lia.
    + destruct (Z.max _ _ - e) as [|p|p] eqn:Hp; [done|lia|done].
    + intros Hpos. destruct Hn as [->|Hn]; [lia|].
      destruct (below_digits k ltac:(lia)) as [Hd0 Hlt].
      assert (23 < Zdigits2 k); [|lia]. apply (Z.pow_lt_mono_r_iff 2); [lia..|].
      change (2 ^ 23) with 8388608. lia.
Qed.

(** The real number [P / Q] lies where [m], [e] and the location say. *)
Definition enclosed (m e : Z) (l : location) (P Q : Z) : Prop :=
  (l = loc_Exact /\ P = m * pw e * Q) \/
  (l <> loc_Exact /\ m * pw e * Q < P < (m + 1) * pw e * Q).

(** Rounding to a grid is monotone. *)
Lemma grid_bounds (m e n k : Z) (l : location) (P Q : Z) :
  0 <= m -> -600 <= e -> 0 <= n -> 0 < Q -> enclosed m e l P Q ->
  m / 2 ^ n <= k <= m / 2 ^ n + 1 -> (l = loc_Exact -> m = m / 2 ^ n * 2 ^ n -> k = m / 2 ^ n) ->
  forall B, (P <= B * pw (e + n) * Q -> k <= B) /\ (B * pw (e + n) * Q <= P -> B <= k).
Proof.
  intros Hm He Hn HQ Henc Hk Hx B. rewrite pw_shift by done.
  assert (Hp : 0 < 2 ^ n) by (apply Z.pow_pos_nonneg; lia). pose proof (pw_pos e He) as Hw.
  pose proof (Z.div_mod m (2 ^ n) ltac:(lia)) as Hdm. pose proof (Z.mod_pos_bound m (2 ^ n) Hp) as Hr.
  set (q := m / 2 ^ n) in *. set (w := pw e * Q). assert (0 < w) by (unfold w; nia).
  assert (Hcase : (k = q /\ P = q * (2 ^ n * w)) \/ (q * (2 ^ n * w) < P < (q + 1) * (2 ^ n * w))).
  { destruct Henc as [[Hl HP]|[_ HP]].
    - destruct (Z.eq_dec (m mod 2 ^ n) 0) as [H0|H0].
      + left. split; [apply Hx; [done|lia]|]. unfold w. nia.
      + right. replace P with (m * w) by (unfold w; lia). nia.
    - right. assert (m * w < P < (m + 1) * w) by (unfold w; lia). nia. }
  replace (B * (2 ^ n * pw e) * Q) with (B * (2 ^ n * w)) by (unfold w; lia).
  assert (0 < 2 ^ n * w) by nia.
  destruct Hcase as [[-> ->]|[Ha Hb]]; split; intros HB; nia.
Qed.

(** A magnitude and the bounds it must respect. *)
Lemma round_aux_rounds (s : bool) (m e : Z) (l : location) (P Q : Z) :
  0 <= m -> -600 <= e -> e <= fexp 24 128 (Zdigits2 m + e) -> 0 < Q ->
  enclosed m e l P Q -> P <= pw 127 * Q ->
  let r := binary_round_aux 24 128 s m e l in
  (r = S754_zero s \/ exists m' e', r = S754_finite s m' e' /\ bounded 24 128 m' e' = true) /\
  forall M E, 0 <= M < 16777216 -> -149 <= E ->
    (P <= M * pw E * Q -> mag r <= M * pw E) /\ (M * pw E * Q <= P -> M * pw E <= mag r).
Proof.
  intros Hm He Hf HQ Henc Hmax r.
  pose proof (shr_fexp_rounds m e l Hm Hf) as H1.
  set (e1 := fexp 24 128 (Zdigits2 m + e)) in *. set (n := e1 - e) in *.
  assert (He1 : e1 = Z.max (Zdigits2 m + e - 24) (-149)) by reflexivity.
  unfold r, binary_round_aux. destruct (shr_fexp 24 128 m e l) as [r1 e1'].
  cbv zeta in H1. destruct H1 as (-> & Hk & Hx).
  set (k := round_nearest_even (shr_m r1) (loc_of_shr_record r1)) in *.
  pose proof (grid_bounds m e n k l P Q Hm He ltac:(unfold n; lia) HQ Henc Hk Hx) as Hgrid.
  replace (e + n) with e1 in Hgrid by (unfold n; lia).
  assert (Hp : 0 < 2 ^ n) by (apply Z.pow_pos_nonneg; unfold n; lia).
  destruct (below_digits m Hm) as [Hd0 Hd].
  assert (Hq : m / 2 ^ n < 16777216).
  { apply Z.div_lt_upper_bound; [done|]. change 16777216 with (2 ^ 24).
    rewrite <- Z.pow_add_r by (unfold n; lia). eapply Z.lt_le_trans; [exact Hd|].
    apply Z.pow_le_mono_r; unfold n; lia. }
  assert (Hq0 : 0 <= m / 2 ^ n) by (apply Z.div_pos; lia).
  assert (Hnorm : e1 <> -149 -> 8388608 <= m / 2 ^ n /\ 8388608 * pw e1 * Q <= P).
  { intros Hne. assert (Hn : n = Zdigits2 m - 24) by (unfold n; lia).
    assert (Hlow : 2 ^ (Zdigits2 m - 1) <= m).
    { apply above_digits. assert (m <> 0); [|lia]. intros ->. simpl in *. lia. }
    assert (Hle : 8388608 <= m / 2 ^ n).
    { apply Z.div_le_lower_bound; [done|]. change 8388608 with (2 ^ 23).
      rewrite <- Z.pow_add_r by (unfold n in *; lia).
      replace (n + 23) with (Zdigits2 m - 1) by lia. done. }
    split; [done|]. replace e1 with (e + n) by (unfold n; lia).
    rewrite pw_shift by (unfold n; lia). pose proof (pw_pos e He).
    pose proof (Z.mul_div_le m (2 ^ n) Hp). assert (m * pw e * Q <= P) by (destruct Henc; lia).
    assert (8388608 * 2 ^ n <= m) by nia. nia. }
  destruct (renormalise k e1) as (m2 & e2 & -> & Hv & He2 & Hm2 & Hcan); [lia..|].
  assert (Hbound : forall M E, 0 <= M < 16777216 -> -149 <= E ->
    (P <= M * pw E * Q -> m2 * pw e2 <= M * pw E) /\ (M * pw E * Q <= P -> M * pw E <= m2 * pw e2)).
  { intros M E HM HE. rewrite Hv. pose proof (pw_pos e1) as Hpe1. destruct (Z.le_gt_cases e1 E) as [Hle|Hgt].
    - replace E with (e1 + (E - e1)) by lia. rewrite pw_shift by lia. destruct (Hgrid (M * 2 ^ (E - e1))) as [Hu Hl].
      split; intros HB; [apply Z.le_trans with (M * 2 ^ (E - e1) * pw e1)|]; [|lia|].
      + apply Z.mul_le_mono_nonneg_r; [lia|]. apply Hu. lia.
      + rewrite Z.mul_assoc. apply Z.mul_le_mono_nonneg_r; [lia|]. apply Hl. lia.
    - destruct (Hnorm ltac:(lia)) as [Hq1 HP]. pose proof (pw_pos E).
      assert (Hlt : M * pw E < 8388608 * pw e1).
      { replace e1 with (E + 1 + (e1 - E - 1)) by lia. rewrite pw_shift, (pw_shift E 1) by lia.
        assert (0 < 2 ^ (e1 - E - 1)) by (apply Z.pow_pos_nonneg; lia). nia. }
      split; intros HB; [exfalso; nia|]. nia. }
  assert (He2max : 0 < m2 -> e2 <= 104).
  { intros Hm20. destruct (Z.le_gt_cases e2 104) as [|Hgt]; [done|]. exfalso.
    destruct (Hbound 8388608 104) as [Hu _]; [lia..|].
    assert (H127 : 8388608 * pw 104 = pw 127) by (change 127 with (104 + 23); by rewrite pw_shift by lia).
    rewrite H127 in Hu. specialize (Hu Hmax). specialize (Hcan Hm20).
    assert (Zdigits2 m2 = 24).
    { unfold fexp, SpecFloat.emin in Hcan.
      assert (Zdigits2 m2 <= 24) by (apply digits_le; lia). lia. }
    pose proof (above_digits m2 Hm20) as Hge. replace (Zdigits2 m2 - 1) with 23 in Hge by lia.
    change (2 ^ 23) with 8388608 in Hge. pose proof (pw_pos 104).
    replace e2 with (104 + 1 + (e2 - 105)) in Hu by lia. rewrite pw_shift, (pw_shift 104 1) in Hu by lia.
    assert (0 < 2 ^ (e2 - 105)) by (apply Z.pow_pos_nonneg; lia). change (2 ^ 1) with 2 in Hu.
    assert (8388608 * (1 * (2 * pw 104)) <= m2 * (2 ^ (e2 - 105) * (2 * pw 104))); [|lia].
    apply Z.mul_le_mono_nonneg; [lia..|]. apply Z.mul_le_mono_nonneg_r; lia. }
  cbn [shr_m]. destruct m2 as [|m2|m2]; [split; [by left|]|..|lia].
  { intros M E HM HE. specialize (Hbound M E HM HE). simpl mag. by rewrite Z.mul_0_l in Hbound. }
  replace (e2 <=? 128 - 24) with true by (symmetry; apply Z.leb_le; lia).
  split; [|exact Hbound]. right. exists m2, e2. split; [done|]. unfold bounded, canonical_mantissa.
  cbn [Zdigits2] in Hcan. rewrite Hcan, Z.eqb_refl by lia. apply Z.leb_le. lia.
Qed.

(** ** Signed values *)

Lemma fin_cases (g : spec_float) :
  is_fin g = true -> exists M E, 0 <= M < 16777216 /\ -149 <= E <= 104 /\
    (fval g = M * pw E \/ fval g = - (M * pw E)).
Proof.
  destruct g as [|[]| |s m e]; try done.
  - intros _. exists 0, 0. simpl. lia.
  - simpl. unfold bounded, canonical_mantissa, fexp, SpecFloat.emin.
    intros [Hc He]%andb_true_iff. apply Z.eqb_eq in Hc. apply Z.leb_le in He.
    exists (Z.pos m), e. destruct (below_digits (Z.pos m)) as [_ Hlt]; [lia|].
    assert (2 ^ Zdigits2 (Z.pos m) <= 2 ^ 24) by (apply Z.pow_le_mono_r; cbn [Zdigits2]; lia).
    change (2 ^ 24) with 16777216 in *. destruct s; lia.
Qed.

Lemma rounds_signed (s : bool) (P Q : Z) (r : spec_float) :
  0 <= P -> 0 < Q ->
  (r = S754_zero s \/ exists m' e', r = S754_finite s m' e' /\ bounded 24 128 m' e' = true) ->
  (forall M E, 0 <= M < 16777216 -> -149 <= E ->
    (P <= M * pw E * Q -> mag r <= M * pw E) /\ (M * pw E * Q <= P -> M * pw E <= mag r)) ->
  rounds (if s then - P else P) Q r.
Proof.
  intros HP HQ Hr Hb.
  assert (Hmag : 0 <= mag r).
  { destruct Hr as [->|(m & e & -> & He)]; simpl; [done|].
    destruct (fin_cases (S754_finite false m e) He) as (M & E & HM & HE & [H|H]);
      pose proof (pw_pos E ltac:(lia)); simpl in H; [rewrite H; nia|].
    unfold bounded, canonical_mantissa, fexp, SpecFloat.emin in He.
    apply andb_true_iff in He as [He _]. apply Z.eqb_eq in He. pose proof (pw_pos e). nia. }
  assert (Hv : is_fin r = true /\ fval r = if s then - mag r else mag r).
  { destruct Hr as [->|(m & e & -> & He)]; simpl; [by destruct s|]. by destruct s. }
  destruct Hv as [Hf Hv]. split; [done|]. intros g Hg.
  destruct (fin_cases g Hg) as (M & E & HM & HE & Hgv). pose proof (pw_pos E ltac:(lia)) as Hp.
  destruct (Hb M E HM ltac:(lia)) as [Hu Hl]. assert (0 <= M * pw E) by nia.
  assert (Hz : P <= 0 -> mag r <= 0).
  { intros Hz. destruct (Hb 0 0) as [H0 _]; [lia..|]. apply H0. lia. }
  set (x := M * pw E) in *. rewrite Hv. assert (0 <= x * Q /\ (x * Q <= 0 -> x = 0)) by nia.
  destruct s, Hgv as [-> | ->]; split; intros HH; lia.
Qed.

Lemma binary_round_rounds (s : bool) (m : positive) (e : Z) :
  -600 <= e -> Z.pos m * pw e <= pw 127 ->
  rounds (if s then - (Z.pos m * pw e) else Z.pos m * pw e) 1 (binary_round 24 128 s m e).
Proof.
  intros He Hmax. unfold binary_round.
  assert (H : exists m' e', shl_align m e (fexp 24 128 (Z.pos (digits2_pos m) + e)) = (m', e') /\
    -600 <= e' /\ e' <= fexp 24 128 (Zdigits2 (Z.pos m') + e') /\ Z.pos m' * pw e' = Z.pos m * pw e).
  { unfold shl_align. destruct (_ - e) as [|d|d] eqn:Hd.
    - exists m, e. split_and!; [done|lia|cbn [Zdigits2]; lia|done].
    - exists m, e. split_and!; [done|lia|cbn [Zdigits2]; lia|done].
    - eexists _, _. split; [done|]. set (f := fexp _ _ _) in *.
      assert (Hf : -149 <= f) by (unfold f, fexp, SpecFloat.emin; lia).
      split; [lia|]. split.
      + cbn [Zdigits2]. rewrite iter_xO_digits. unfold f at 2. replace (_ + f) with (Z.pos (digits2_pos m) + e) by lia.
        done.
      + rewrite iter_xO_value. replace e with (f + Z.pos d) by lia. rewrite pw_shift by lia. lia. }
  destruct H as (m' & e' & -> & He' & Hf & Hv). rewrite <- Hv in *. pose proof (pw_pos e' He').
  destruct (round_aux_rounds s (Z.pos m') e' loc_Exact (Z.pos m' * pw e') 1) as [Hr Hb];
    [lia|done|done|lia|left; split; [done|lia]|lia|].
  apply rounds_signed; [lia|lia|done|done].
Qed.

Lemma normalize_rounds (z e : Z) (sz : bool) :
  -600 <= e -> Z.abs z * pw e <= pw 127 -> rounds (z * pw e) 1 (binary_normalize 24 128 z e sz).
Proof.
  intros He Hz. destruct z as [|m|m].
  - split; [done|]. intros g _. cbn [binary_normalize fval mag]. lia.
  - exact (binary_round_rounds false m e He Hz).
  - pose proof (binary_round_rounds true m e He Hz) as H.
    replace (Z.neg m * pw e) with (- (Z.pos m * pw e)) by lia. exact H.
Qed.

(** An exact value that is a [float] is returned. *)
Lemma rounds_exact (P Q : Z) (r g : spec_float) :
  rounds P Q r -> is_fin g = true -> P = fval g * Q -> fval r = fval g.
Proof. intros [_ H] Hg HP. destruct (H g Hg) as [Hu Hl]. lia. Qed.

(** ** The operations *)

Lemma of_Z_rounds (z : Z) : Z.abs z * pw 0 <= pw 127 -> rounds (z * pw 0) 1 (f32_of_Z z).
Proof. intros Hz. apply normalize_rounds; [lia|done]. Qed.

Lemma align_value (m : positive) (e ez : Z) :
  -600 <= ez <= e -> Z.pos (fst (shl_align m e ez)) * pw ez = Z.pos m * pw e.
Proof.
  intros He. unfold shl_align. destruct (ez - e) as [|d|d] eqn:Hd; [|lia|]; cbn [fst].
  - by replace ez with e by lia.
  - rewrite iter_xO_value. replace e with (ez + Z.pos d) by lia. rewrite pw_shift by lia. lia.
Qed.

Lemma fin_exponent (s : bool) (m : positive) (e : Z) :
  is_fin (S754_finite s m e) = true -> -149 <= e <= 104 /\ Z.pos m < 16777216.
Proof.
  simpl. unfold bounded, canonical_mantissa, fexp, SpecFloat.emin.
  intros [Hc He]%andb_true_iff. apply Z.eqb_eq in Hc. apply Z.leb_le in He.
  destruct (below_digits (Z.pos m)) as [_ Hlt]; [lia|].
  assert (2 ^ Zdigits2 (Z.pos m) <= 2 ^ 24) by (apply Z.pow_le_mono_r; cbn [Zdigits2]; lia).
  change (2 ^ 24) with 16777216 in *. lia.
Qed.

Lemma rounds_self (f : spec_float) : is_fin f = true -> rounds (fval f) 1 f.
Proof. intros Hf. split; [done|]. intros. lia. Qed.

Lemma add_rounds (a b : spec_float) :
  is_fin a = true -> is_fin b = true -> Z.abs (fval a + fval b) <= pw 127 ->
  rounds (fval a + fval b) 1 (f32_add a b).
Proof.
  intros Ha Hb Hmax.
  destruct a as [sa| | |sa ma ea], b as [sb| | |sb mb eb]; try done.
  - destruct sa, sb; by apply (rounds_self (S754_zero _)).
  - by apply (rounds_self (S754_finite sb mb eb)).
  - change (fval (S754_zero sb)) with 0. rewrite Z.add_0_r. by apply rounds_self.
  - unfold f32_add. cbn [SFadd]. set (ez := Z.min ea eb).
    apply fin_exponent in Ha, Hb.
    assert (Hv : fval (S754_finite sa ma ea) + fval (S754_finite sb mb eb) =
      (cond_Zopp sa (Z.pos (fst (shl_align ma ea ez))) +
       cond_Zopp sb (Z.pos (fst (shl_align mb eb ez)))) * pw ez).
    { rewrite Z.mul_add_distr_r. unfold cond_Zopp.
      pose proof (align_value ma ea ez ltac:(lia)). pose proof (align_value mb eb ez ltac:(lia)).
      destruct sa, sb; cbn [fval mag]; lia. }
    rewrite Hv in *. apply normalize_rounds; [lia|].
    pose proof (pw_pos ez ltac:(lia)). rewrite Z.abs_mul in Hmax. by rewrite (Z.abs_eq (pw ez)) in Hmax by lia.
Qed.

Lemma sub_rounds (a b : spec_float) :
  is_fin a = true -> is_fin b = true -> Z.abs (fval a - fval b) <= pw 127 ->
  rounds (fval a - fval b) 1 (f32_sub a b).
Proof.
  intros Ha Hb Hmax.
  destruct a as [sa| | |sa ma ea], b as [sb| | |sb mb eb]; try done.
  - destruct sa, sb; by apply (rounds_self (S754_zero _)).
  - replace (fval _ - fval _) with (fval (S754_finite (negb sb) mb eb)) by (destruct sb; cbn [negb fval mag]; lia).
    by apply rounds_self.
  - change (fval (S754_zero sb)) with 0. rewrite Z.sub_0_r. by apply rounds_self.
  - unfold f32_sub. cbn [SFsub]. set (ez := Z.min ea eb).
    apply fin_exponent in Ha, Hb.
    assert (Hv : fval (S754_finite sa ma ea) - fval (S754_finite sb mb eb) =
      (cond_Zopp sa (Z.pos (fst (shl_align ma ea ez))) -
       cond_Zopp sb (Z.pos (fst (shl_align mb eb ez)))) * pw ez).
    { rewrite Z.mul_sub_distr_r. unfold cond_Zopp.
      pose proof (align_value ma ea ez ltac:(lia)). pose proof (align_value mb eb ez ltac:(lia)).
      destruct sa, sb; cbn [fval mag]; lia. }
    rewrite Hv in *. apply normalize_rounds; [lia|].
    pose proof (pw_pos ez ltac:(lia)). rewrite Z.abs_mul in Hmax. by rewrite (Z.abs_eq (pw ez)) in Hmax by lia.
Qed.

Lemma digits_mul (a b : positive) :
  Z.pos (digits2_pos a) + Z.pos (digits2_pos b) - 1 <= Z.pos (digits2_pos (a * b)).
Proof.
  destruct (below_digits (Z.pos (a * b))) as [_ Hlt]; [lia|]. cbn [Zdigits2] in Hlt.
  pose proof (above_digits (Z.pos a) ltac:(lia)). pose proof (above_digits (Z.pos b) ltac:(lia)).
  cbn [Zdigits2] in *.
  assert (2 ^ (Z.pos (digits2_pos a) + Z.pos (digits2_pos b) - 2) < 2 ^ Z.pos (digits2_pos (a * b))).
  { replace (_ - 2) with (Z.pos (digits2_pos a) - 1 + (Z.pos (digits2_pos b) - 1)) by lia.
    rewrite Z.pow_add_r by lia.
    assert (0 < 2 ^ (Z.pos (digits2_pos a) - 1)) by (apply Z.pow_pos_nonneg; lia).
    assert (0 < 2 ^ (Z.pos (digits2_pos b) - 1)) by (apply Z.pow_pos_nonneg; lia). nia. }
  apply Z.pow_lt_mono_r_iff in H1; lia.
Qed.

Lemma mul_rounds (a b : spec_float) :
  is_fin a = true -> is_fin b = true -> Z.abs (fval a * fval b) <= pw 127 * pw 0 ->
  rounds (fval a * fval b) (pw 0) (f32_mul a b).
Proof.
  intros Ha Hb Hmax. pose proof (pw_pos 0 ltac:(lia)) as H0.
  assert (Hzero : forall s, rounds 0 (pw 0) (S754_zero s)).
  { intros s. split; [done|]. intros g _. cbn [fval mag]. nia. }
  destruct a as [sa| | |sa ma ea], b as [sb| | |sb mb eb]; try done.
  - exact (Hzero _).
  - exact (Hzero _).
  - change (fval (S754_zero sb)) with 0. rewrite Z.mul_0_r. exact (Hzero _).
  - pose proof (fin_exponent _ _ _ Ha). pose proof (fin_exponent _ _ _ Hb).
    assert (Hv : fval (S754_finite sa ma ea) * fval (S754_finite sb mb eb) =
      if xorb sa sb then - (Z.pos (ma * mb) * pw (ea + eb) * pw 0) else Z.pos (ma * mb) * pw (ea + eb) * pw 0).
    { rewrite <- Z.mul_assoc, <- pw_prod, Pos2Z.inj_mul by lia.
      destruct sa, sb; cbn [xorb fval mag]; ring. }
    rewrite Hv in *. pose proof (pw_pos (ea + eb) ltac:(lia)). unfold f32_mul. cbn [SFmul].
    assert (Hcan : ea + eb <= fexp 24 128 (Zdigits2 (Z.pos (ma * mb)) + (ea + eb))).
    { cbn [Zdigits2]. pose proof (digits_mul ma mb) as Hd. clear - Ha Hb Hd. simpl in Ha, Hb.
      unfold bounded, canonical_mantissa, fexp, SpecFloat.emin in *.
      apply andb_true_iff in Ha as [Ha _], Hb as [Hb _]. apply Z.eqb_eq in Ha, Hb. lia. }
    destruct (round_aux_rounds (xorb sa sb) (Z.pos (ma * mb)) (ea + eb) loc_Exact
                (Z.pos (ma * mb) * pw (ea + eb) * pw 0) (pw 0)) as [Hr Hbd];
      [lia|lia|done|done|by left|destruct (xorb sa sb); lia|].
    apply rounds_signed; [lia|done|done|done].
Qed.

Lemma new_location_exact (b r : Z) : new_location b r = loc_Exact <-> r = 0.
Proof.
  unfold new_location, new_location_even, new_location_odd.
  destruct (Z.even b), (Z.eqb_spec r 0); by split.
Qed.

(** A quotient by a positive [float]. *)
Lemma div_rounds (a b : spec_float) :
  is_fin a = true -> is_fin b = true -> 0 <= fval a -> 0 < fval b ->
  fval a * pw 0 <= pw 127 * fval b ->
  rounds (fval a * pw 0) (fval b) (f32_div a b).
Proof.
  intros Ha Hb Ha0 Hb0 Hmax. pose proof (pw_pos 0 ltac:(lia)) as Hp0.
  destruct b as [| | |[] mb eb]; try (simpl in Hb0; lia); try done.
  { pose proof (fin_exponent _ _ _ Hb). pose proof (pw_pos eb ltac:(lia)). cbn [fval mag] in Hb0. nia. }
  destruct a as [sa| | |[] ma ea]; try done.
  { split; [done|]. intros g _. cbn [f32_div SFdiv fval mag]. cbn [fval mag] in Hb0. nia. }
  { pose proof (fin_exponent _ _ _ Ha). pose proof (pw_pos ea ltac:(lia)). cbn [fval mag] in Ha0. nia. }
  pose proof (fin_exponent _ _ _ Ha) as [Hea _]. pose proof (fin_exponent _ _ _ Hb) as [Heb _].
  cbn [fval mag] in *. unfold f32_div. cbn [SFdiv]. rewrite xorb_false_l.
  unfold SFdiv_core_binary. cbv zeta.
  set (f := fexp 24 128 _). set (e' := Z.min f (ea - eb)).
  assert (Hf : -149 <= f) by (unfold f, fexp, SpecFloat.emin; lia).
  set (m' := match ea - eb - e' with 0 => Z.pos ma | Z.pos _ => Z.shiftl (Z.pos ma) (ea - eb - e') | Z.neg _ => 0 end).
  assert (Hm' : m' = Z.pos ma * 2 ^ (ea - eb - e')).
  { unfold m'. assert (0 <= ea - eb - e') by lia. destruct (ea - eb - e') eqn:Hs; [lia| |lia].
    by rewrite <- Hs, Z.shiftl_mul_pow2 by lia. }
  assert (Hpp : 0 < 2 ^ (ea - eb - e')) by (apply Z.pow_pos_nonneg; lia).
  pose proof (Z_div_mod m' (Z.pos mb) ltac:(lia)) as Hdm.
  destruct (Z.div_eucl m' (Z.pos mb)) as [q r]. destruct Hdm as [Hq Hr].
  assert (Hq0 : 0 <= q) by nia.
  pose proof (pw_pos e' ltac:(lia)) as Hpe. pose proof (pw_pos eb ltac:(lia)) as Hpb.
  assert (Hval : Z.pos ma * pw ea * pw 0 = m' * pw e' * pw eb).
  { rewrite Hm'. replace ea with (eb + e' + (ea - eb - e')) at 1 by lia.
    rewrite pw_shift by lia. transitivity (Z.pos ma * 2 ^ (ea - eb - e') * (pw (eb + e') * pw 0)); [ring|].
    rewrite <- pw_prod by lia. ring. }
  rewrite Hval in *. set (w := pw e' * pw eb). assert (0 < w) by (unfold w; nia).
  assert (Hcan : e' <= fexp 24 128 (Zdigits2 q + e')).
  { destruct (Z.le_gt_cases f (-149)) as [|Hbig]; [unfold fexp, SpecFloat.emin; lia|].
    set (D := Z.pos (digits2_pos ma) + ea - (Z.pos (digits2_pos mb) + eb)).
    assert (HfD : f = D - 24).
    { unfold f, D, fexp, SpecFloat.emin in *. cbn [Zdigits2] in *. lia. }
    assert (Hge : 2 ^ (D - 1 - e') <= q).
    { pose proof (above_digits (Z.pos ma) ltac:(lia)) as Hda.
      destruct (below_digits (Z.pos mb) ltac:(lia)) as [_ Hdb]. cbn [Zdigits2] in *.
      assert (Hlow : 2 ^ (D - 1 - e') * 2 ^ Z.pos (digits2_pos mb) <= m').
      { rewrite Hm', <- Z.pow_add_r by lia.
        replace (D - 1 - e' + Z.pos (digits2_pos mb)) with (Z.pos (digits2_pos ma) - 1 + (ea - eb - e'))
          by (unfold D; lia).
        rewrite Z.pow_add_r by lia. nia. }
      assert (0 < 2 ^ (D - 1 - e')) by (apply Z.pow_pos_nonneg; lia).
      set (X := 2 ^ (D - 1 - e')) in *. assert (X * Z.pos mb < Z.pos mb * (q + 1)) by nia. nia. }
    unfold fexp, SpecFloat.emin. destruct (below_digits q Hq0) as [Hd0 Hd].
    assert (2 ^ (D - 1 - e') < 2 ^ Zdigits2 q) as Hlt by lia.
    apply Z.pow_lt_mono_r_iff in Hlt; lia. }
  replace (m' * pw e' * pw eb) with (m' * w) in * by (unfold w; ring).
  destruct (round_aux_rounds false q e' (new_location (Z.pos mb) r) (m' * w) (Z.pos mb * pw eb)) as [Hres Hbd];
    [done|lia|done|lia| |done|].
  - replace (q * pw e' * (Z.pos mb * pw eb)) with (q * Z.pos mb * w) by (unfold w; ring).
    unfold enclosed. rewrite new_location_exact.
    replace (q * pw e' * (Z.pos mb * pw eb)) with (q * Z.pos mb * w) by (unfold w; ring).
    replace ((q + 1) * pw e' * (Z.pos mb * pw eb)) with ((q + 1) * Z.pos mb * w) by (unfold w; ring).
    destruct (Z.eq_dec r 0) as [->|]; [left|right]; (split; [done|]); nia.
  - apply (rounds_signed false); [nia|lia|done|done].
Qed.

(** ** Conversions and comparisons *)

Lemma fval_of_Z (z : Z) : f32_exact z -> is_fin (f32_of_Z z) = true /\ fval (f32_of_Z z) = z * pw 0.
Proof.
  intros Hz. destruct (f32_of_Z_cases z Hz) as [[-> ->]|(s & m & k & Hd & Hk & -> & Hm)]; [done|].
  split.
  - simpl. unfold bounded, canonical_mantissa, fexp, SpecFloat.emin. rewrite Hd.
    apply andb_true_iff. rewrite Z.eqb_eq, Z.leb_le. lia.
  - assert (H : Z.pos m * pw (- k) = (if s then - z else z) * pw 0).
    { rewrite <- Hm. replace 0 with (- k + k) at 1 by lia. rewrite pw_shift by lia. ring. }
    destruct s; cbn [fval mag]; lia.
Qed.

Lemma trunc_fval (f : spec_float) :
  is_fin f = true -> f32_trunc f = Some (Z.quot (fval f) (pw 0)).
Proof.
  intros Hf. destruct f as [s| | |s m e]; try done.
  pose proof (fin_exponent _ _ _ Hf) as [He _]. pose proof (pw_pos 0 ltac:(lia)).
  rewrite f32_trunc_finite.
  assert (H0 : f32_trunc_abs (Z.pos m) e = Z.quot (Z.pos m * pw e) (pw 0)).
  { unfold f32_trunc_abs. pose proof (pw_pos e ltac:(lia)). rewrite Z.quot_div_nonneg by lia.
    destruct (Z.leb_spec 0 e).
    - change e with (0 + e) at 2. rewrite pw_shift, Z.mul_assoc, Z.div_mul by lia. done.
    - assert (0 < 2 ^ (- e)) by (apply Z.pow_pos_nonneg; lia).
      assert (Hp0 : pw 0 = 2 ^ (- e) * pw e) by (rewrite <- pw_shift by lia; f_equal; lia).
      rewrite Hp0. by rewrite Z.div_mul_cancel_r by lia. }
  destruct s; cbn [fval mag]; rewrite H0; [|done]. by rewrite Z.quot_opp_l by lia.
Qed.

Lemma canonical_order (s1 s2 : bool) (m1 m2 : positive) (e1 e2 : Z) :
  is_fin (S754_finite s1 m1 e1) = true -> is_fin (S754_finite s2 m2 e2) = true -> e1 < e2 ->
  Z.pos m1 * pw e1 < Z.pos m2 * pw e2.
Proof.
  intros H1 H2 He. pose proof (fin_exponent _ _ _ H1) as [? Hm1]. pose proof (fin_exponent _ _ _ H2) as [? Hm2].
  assert (Hge : 8388608 <= Z.pos m2).
  { simpl in H2. unfold bounded, canonical_mantissa, fexp, SpecFloat.emin in H2.
    apply andb_true_iff in H2 as [H2 _]. apply Z.eqb_eq in H2.
    pose proof (above_digits (Z.pos m2) ltac:(lia)) as Ha. cbn [Zdigits2] in Ha.
    assert (Z.pos (digits2_pos m2) = 24) as Hd; [|rewrite Hd in Ha; exact Ha].
    assert (Zdigits2 (Z.pos m2) <= 24) by (apply digits_le; lia). cbn [Zdigits2] in *. lia. }
  pose proof (pw_pos e1 ltac:(lia)).
  replace e2 with (e1 + 1 + (e2 - e1 - 1)) by lia. rewrite pw_shift, (pw_shift e1 1) by lia.
  assert (0 < 2 ^ (e2 - e1 - 1)) by (apply Z.pow_pos_nonneg; lia). change (2 ^ 1) with 2.
  apply Z.lt_le_trans with (8388608 * (1 * (2 * pw e1))); [nia|].
  apply Z.mul_le_mono_nonneg; [lia..|]. apply Z.mul_le_mono_nonneg_r; lia.
Qed.

Lemma compare_fval (f g : spec_float) :
  is_fin f = true -> is_fin g = true -> SFcompare f g = Some (fval f ?= fval g).
Proof.
  assert (Hpos : forall s m e, is_fin (S754_finite s m e) = true -> 0 < Z.pos m * pw e).
  { intros s m e H. apply fin_exponent in H as [? _]. pose proof (pw_pos e ltac:(lia)). nia. }
  intros Hf Hg. destruct f as [s1| | |s1 m1 e1], g as [s2| | |s2 m2 e2]; try done.
  - pose proof (Hpos _ _ _ Hg). destruct s2; cbn [SFcompare fval mag]; f_equal; symmetry;
      [apply Z.compare_gt_iff|apply Z.compare_lt_iff]; lia.
  - pose proof (Hpos _ _ _ Hf). destruct s1; cbn [SFcompare fval mag]; f_equal; symmetry;
      [apply Z.compare_lt_iff|apply Z.compare_gt_iff]; lia.
  - pose proof (Hpos _ _ _ Hg) as P2. pose proof (Hpos _ _ _ Hf) as P1.
    assert (Hmag : (Z.pos m1 * pw e1 ?= Z.pos m2 * pw e2) =
      match e1 ?= e2 with Eq => Pos.compare m1 m2 | c => c end).
    { destruct (Z.compare_spec e1 e2) as [->|Hlt|Hgt].
      - pose proof (fin_exponent _ _ _ Hg) as [? _].
        rewrite !(Z.mul_comm _ (pw e2)), <- Zmult_compare_compat_l by (apply Z.lt_gt, pw_pos; lia). done.
      - apply Z.compare_lt_iff. by eapply canonical_order.
      - apply Z.compare_gt_iff. by eapply canonical_order. }
    destruct s1, s2; cbn [SFcompare fval mag]; f_equal; [|symmetry..|].
    + rewrite Z.compare_opp, (Z.compare_antisym (Z.pos m1 * pw e1)), Hmag. by destruct (e1 ?= e2).
    + apply Z.compare_lt_iff. lia.
    + apply Z.compare_gt_iff. lia.
    + rewrite Hmag. by destruct (e1 ?= e2).
Qed.

Lemma ltb_fval (f g : spec_float) :
  is_fin f = true -> is_fin g = true -> SFltb f g = (fval f <? fval g).
Proof. intros Hf Hg. unfold SFltb, Z.ltb. by rewrite compare_fval. Qed.

Lemma leb_fval (f g : spec_float) :
  is_fin f = true -> is_fin g = true -> SFleb f g = (fval f <=? fval g).
Proof. intros Hf Hg. unfold SFleb, Z.leb. rewrite compare_fval by done. by destruct (_ ?= _). Qed.

(** ** Exact values, and quotients of either sign *)

(** [z * 2^e] is a [float]. *)
Lemma exact_float (z e : Z) :
  f32_exact z -> -100 <= e <= 100 -> exists g, is_fin g = true /\ fval g = z * pw e.
Proof.
  intros Hz He. destruct (f32_of_Z_cases z Hz) as [[-> _]|(s & m & k & Hd & Hk & _ & Hm)]; [by exists float_zero|].
  exists (S754_finite s m (e - k)). split.
  - simpl. unfold bounded, canonical_mantissa, fexp, SpecFloat.emin. rewrite Hd.
    apply andb_true_iff. rewrite Z.eqb_eq, Z.leb_le. lia.
  - assert (H : Z.pos m * pw (e - k) = (if s then - z else z) * pw e).
    { rewrite <- Hm. replace e with (e - k + k) at 2 by lia. rewrite pw_shift by lia. ring. }
    destruct s; cbn [fval mag]; lia.
Qed.

Lemma rounds_to_exact (P Q : Z) (r : spec_float) (z e : Z) :
  rounds P Q r -> f32_exact z -> -100 <= e <= 100 -> P = z * pw e * Q -> fval r = z * pw e.
Proof.
  intros Hr Hz He HP. destruct (exact_float z e Hz He) as (g & Hg & Hv).
  rewrite (rounds_exact _ _ _ g Hr Hg); [done|]. by rewrite Hv.
Qed.

Lemma round_aux_opp (s : bool) (m e : Z) (l : location) :
  binary_round_aux 24 128 (negb s) m e l = SFopp (binary_round_aux 24 128 s m e l).
Proof.
  unfold binary_round_aux. destruct (shr_fexp 24 128 m e l) as [r e1].
  destruct (shr_fexp 24 128 _ e1 loc_Exact) as [r2 e2]. destruct (shr_m r2) as [|p|p]; [done| |done].
  by destruct (e2 <=? 128 - 24).
Qed.

Lemma div_opp (a b : spec_float) : is_fin a = true -> 0 < fval b -> f32_div (SFopp a) b = SFopp (f32_div a b).
Proof.
  intros Ha Hb. destruct a as [sa| | |sa ma ea]; [|done|done|].
  - destruct b as [sb|sb| |sb mb eb]; [simpl in Hb; lia|simpl in Hb; lia|simpl in Hb; lia|]. by destruct sa, sb.
  - destruct b as [sb|sb| |sb mb eb]; [simpl in Hb; lia|simpl in Hb; lia|simpl in Hb; lia|].
    unfold f32_div. cbn [SFopp SFdiv]. destruct (SFdiv_core_binary 24 128 _ _ _ _) as [[mz ez] lz].
    replace (xorb (negb sa) sb) with (negb (xorb sa sb)) by (by destruct sa, sb). apply round_aux_opp.
Qed.

Lemma fval_opp (f : spec_float) : fval (SFopp f) = - fval f.
Proof. destruct f as [| | |[] m e]; cbn [SFopp negb fval mag]; lia. Qed.

Lemma is_fin_opp (f : spec_float) : is_fin (SFopp f) = is_fin f.
Proof. by destruct f. Qed.

Lemma rounds_opp (P Q : Z) (r : spec_float) : rounds P Q r -> rounds (- P) Q (SFopp r).
Proof.
  intros [Hr H]. split; [by rewrite is_fin_opp|]. intros g Hg. destruct (H (SFopp g)) as [H1 H2]; [by rewrite is_fin_opp|].
  rewrite fval_opp in *. split; intros Hle; [apply Z.opp_le_mono in Hle|]; lia.
Qed.

Lemma div_rounds_signed (a b : spec_float) :
  is_fin a = true -> is_fin b = true -> 0 < fval b -> Z.abs (fval a) * pw 0 <= pw 127 * fval b ->
  rounds (fval a * pw 0) (fval b) (f32_div a b).
Proof.
  intros Ha Hb Hb0 Hmax. destruct (Z.le_gt_cases 0 (fval a)) as [Hp|Hn].
  - apply div_rounds; try done. lia.
  - assert (Hopp : f32_div a b = SFopp (f32_div (SFopp a) b)).
    { rewrite div_opp by done. by destruct (f32_div a b) as [| | |[] ? ?]; cbn; rewrite ?negb_involutive. }
    rewrite Hopp. replace (fval a * pw 0) with (- (fval (SFopp a) * pw 0)) by (rewrite fval_opp; ring).
    apply rounds_opp, div_rounds; rewrite ?is_fin_opp, ?fval_opp; try done; lia.
Qed.
