(* ===== verification/Types.v ===== *)
(** * Shared enumerations and stream ids (common/cras_types.h) *)
From S2P Require Import Prelude.
#[local] Open Scope Z_scope.

Definition NO_DEVICE : Z := 0.

(** [enum CRAS_STREAM_DIRECTION]. *)
Definition CRAS_STREAM_OUTPUT : Z := 0.
Definition CRAS_STREAM_INPUT : Z := 1.
Definition CRAS_STREAM_UNDEFINED : Z := 2.
Definition CRAS_STREAM_POST_MIX_PRE_DSP : Z := 3.
Definition CRAS_NUM_DIRECTIONS : Z := 4.

Definition cras_stream_direction_mask (dir : Z) : Z :=
  if (0 <=? dir) && (dir <? CRAS_NUM_DIRECTIONS) then Z.shiftl 1 dir else - EINVAL.

(** [enum CRAS_INPUT_STREAM_FLAG]. *)
Definition BULK_AUDIO_OK : Z := 1.
Definition USE_DEV_TIMING : Z := 2.
Definition HOTWORD_STREAM : Z := Z.lor BULK_AUDIO_OK USE_DEV_TIMING.
Definition TRIGGER_ONLY : Z := 4.
Definition SERVER_ONLY : Z := 8.

(** [flags & f] as a condition. *)
Definition has_flag (flags f : Z) : bool := negb (Z.land flags f =? 0).

Definition cras_stream_uses_output_hw (dir : Z) : bool := dir =? CRAS_STREAM_OUTPUT.
Definition cras_stream_uses_input_hw (dir : Z) : bool := dir =? CRAS_STREAM_INPUT.
Definition cras_stream_has_input (dir : Z) : bool := negb (dir =? CRAS_STREAM_OUTPUT).
Definition cras_stream_is_loopback (dir : Z) : bool := dir =? CRAS_STREAM_POST_MIX_PRE_DSP.

(** [enum CRAS_STREAM_TYPE]. *)
Definition CRAS_STREAM_TYPE_DEFAULT : Z := 0.
Definition CRAS_STREAM_NUM_TYPES : Z := 6.

(** The parameters are [uint16_t]: what is passed is truncated. *)
Definition cras_get_stream_id (client_id stream_id : Z) : Z :=
  u32 (Z.lor (Z.shiftl (Z.land (u16 client_id) 65535) 16) (Z.land (u16 stream_id) 65535)).

Definition cras_valid_stream_id (stream_id client_id : Z) : bool :=
  Z.lxor (Z.shiftr stream_id 16) (u16 client_id) =? 0.
