(* ===== verification/DList.v ===== *)
(** * Doubly linked lists (common/utlist.h)

    The server keeps its timers, streams and devices in intrusive lists.  A
    list is the sequence of its elements with their addresses; following a
    pointer to an element that is no longer linked, or deleting one, is
    undefined: [None]. *)
From S2P Require Import Prelude.

Definition dlist (A : Type) : Type := list (Z * A).

Section DList.
Context {A : Type}.
Implicit Types (l : dlist A) (p : Z) (x : A).

Definition addrs l : list Z := l.*1.

Definition dl_append l p x : dlist A := l ++ [(p, x)].
Definition dl_prepend l p x : dlist A := (p, x) :: l.

(** The pointer to the first element; [None] is [NULL]. *)
Definition dl_head l : option Z := fst <$> head l.

Fixpoint dl_find l p : option A :=
  match l with
  | [] => None
  | (q, x) :: l => if q =? p then Some x else dl_find l p
  end.

(** [el->next]. *)
Fixpoint dl_next l p : option (option Z) :=
  match l with
  | [] => None
  | (q, _) :: l => if q =? p then Some (dl_head l) else dl_next l p
  end.

Fixpoint dl_delete l p : option (dlist A) :=
  match l with
  | [] => None
  | (q, x) :: l => if q =? p then Some l else ((q, x) ::.) <$> dl_delete l p
  end.

(** A store through the pointer. *)
Fixpoint dl_update l p (f : A -> A) : option (dlist A) :=
  match l with
  | [] => None
  | (q, x) :: l => if q =? p then Some ((q, f x) :: l) else ((q, x) ::.) <$> dl_update l p f
  end.

(** [DL_SEARCH]: the first element the comparison accepts. *)
Definition dl_search l (f : A -> bool) : option (Z * A) :=
  snd <$> list_find (fun e => f e.2 = true) l.

(** [DL_FOREACH]: the next pointer is read before the body runs. *)
Fixpoint dl_foreach {S : Type} (get : S -> dlist A) (body : Z -> A -> S -> option S)
    (fuel : nat) (cur : option Z) (s : S) : option S :=
  match cur with
  | None => Some s
  | Some p =>
      match fuel with
      | O => None
      | Datatypes.S fuel =>
          x ← dl_find (get s) p;
          nxt ← dl_next (get s) p;
          s ← body p x s;
          dl_foreach get body fuel nxt s
      end
  end.

(** ** Lists without a repeated address *)

Lemma addrs_app l1 l2 : addrs (l1 ++ l2) = addrs l1 ++ addrs l2.
Proof. apply fmap_app. Qed.

Lemma NoDup_middle l1 p x l2 :
  NoDup (addrs (l1 ++ (p, x) :: l2)) -> (p ∉ addrs l1) /\ (p ∉ addrs l2) /\ NoDup (addrs (l1 ++ l2)).
Proof.
  rewrite !addrs_app. simpl. rewrite !NoDup_app, NoDup_cons. intros (H1 & H2 & H3 & H4).
  split_and!; [|done|done| |done].
  - intros Hp. apply (H2 p Hp). by left.
  - intros q Hq Hq2. apply (H2 q Hq). by right.
Qed.

Lemma dl_find_app l1 p x l2 : p ∉ addrs l1 -> dl_find (l1 ++ (p, x) :: l2) p = Some x.
Proof.
  induction l1 as [|[q y] l1 IH]; simpl; [by rewrite Z.eqb_refl|].
  rewrite not_elem_of_cons. intros [Hne Hp]. rewrite (proj2 (Z.eqb_neq q p)) by done. auto.
Qed.

Lemma dl_find_elem l p x : dl_find l p = Some x -> (p, x) ∈ l.
Proof.
  induction l as [|[q y] l IH]; simpl; [done|]. destruct (Z.eqb_spec q p) as [->|]; [by intros [= ->]; left|].
  intros Hx. right. auto.
Qed.

Lemma dl_find_address l p x : dl_find l p = Some x -> p ∈ addrs l.
Proof. intros Hx%dl_find_elem. apply list_elem_of_fmap. by exists (p, x). Qed.

Lemma addrs_update l l' p f : dl_update l p f = Some l' -> addrs l' = addrs l.
Proof.
  revert l'. induction l as [|[q x] l IH]; intros l'; simpl; [done|]. destruct (q =? p); [by intros [= <-]|].
  destruct (dl_update l p f) as [l1|]; [|done]. intros [= <-]. simpl. f_equal. by apply IH.
Qed.

Lemma dl_find_update l l' p f q :
  dl_update l p f = Some l' -> dl_find l' q = if q =? p then f <$> dl_find l p else dl_find l q.
Proof.
  revert l'. induction l as [|[k x] l IH]; intros l'; simpl; [done|].
  destruct (Z.eqb_spec k p) as [->|Hne].
  - intros [= <-]. simpl. rewrite (Z.eqb_sym p q). by destruct (q =? p).
  - destruct (dl_update l p f) as [l1|]; [|done]. intros [= <-]. simpl. rewrite (IH l1 eq_refl).
    destruct (Z.eqb_spec k q) as [->|]; [|done]. by rewrite (proj2 (Z.eqb_neq q p)).
Qed.

Lemma dl_next_app l1 p x l2 : p ∉ addrs l1 -> dl_next (l1 ++ (p, x) :: l2) p = Some (dl_head l2).
Proof.
  induction l1 as [|[q y] l1 IH]; simpl; [by rewrite Z.eqb_refl|].
  rewrite not_elem_of_cons. intros [Hne Hp]. rewrite (proj2 (Z.eqb_neq q p)) by done. auto.
Qed.

Lemma dl_delete_app l1 p x l2 : p ∉ addrs l1 -> dl_delete (l1 ++ (p, x) :: l2) p = Some (l1 ++ l2).
Proof.
  induction l1 as [|[q y] l1 IH]; simpl; [by rewrite Z.eqb_refl|].
  rewrite not_elem_of_cons. intros [Hne Hp]. rewrite (proj2 (Z.eqb_neq q p)) by done.
  by rewrite IH.
Qed.

Lemma dl_update_app l1 p x l2 f :
  p ∉ addrs l1 -> dl_update (l1 ++ (p, x) :: l2) p f = Some (l1 ++ (p, f x) :: l2).
Proof.
  induction l1 as [|[q y] l1 IH]; simpl; [by rewrite Z.eqb_refl|].
  rewrite not_elem_of_cons. intros [Hne Hp]. rewrite (proj2 (Z.eqb_neq q p)) by done.
  by rewrite IH.
Qed.

Lemma addrs_middle l p : p ∈ addrs l -> exists l1 x l2, l = l1 ++ (p, x) :: l2 /\ p ∉ addrs l1.
Proof.
  induction l as [|[q y] l IH]; simpl; [by intros ?%not_elem_of_nil|].
  destruct (decide (p = q)) as [->|Hne].
  - intros _. exists [], y, l. split; [done|]. apply not_elem_of_nil.
  - intros [?|Hin]%elem_of_cons; [done|]. destruct (IH Hin) as (l1 & x & l2 & -> & Hl1).
    exists ((q, y) :: l1), x, l2. split; [done|]. by apply not_elem_of_cons.
Qed.

Lemma dl_delete_in l p : p ∈ addrs l -> is_Some (dl_delete l p).
Proof. intros (l1 & x & l2 & -> & Hp)%addrs_middle. rewrite dl_delete_app by done. eauto. Qed.

Lemma filter_others {B} `{EqDecision B} (f : Z * A -> B) (l : list (Z * A)) (x : B) :
  x ∉ f <$> l -> filter (fun e => f e <> x) l = l.
Proof.
  induction l as [|e l IH]; intros Hx; [done|]. rewrite fmap_cons in Hx. apply not_elem_of_cons in Hx as [He Hx].
  rewrite filter_cons. destruct (decide _) as [|Hn]; [by rewrite IH|by destruct Hn].
Qed.

Lemma dl_delete_filter (l l' : list (Z * A)) p : NoDup (addrs l) -> dl_delete l p = Some l' -> l' = filter (fun e : Z * A => e.1 <> p) l.
Proof.
  revert l'. induction l as [|[q x] l IH]; intros l' Hnd Hl; [done|]. apply NoDup_cons in Hnd as [Hq Hnd].
  rewrite filter_cons. simpl in *. destruct (Z.eqb_spec q p) as [->|Hne].
  - injection Hl as <-. destruct (decide _) as [Hn|_]; [done|]. symmetry. by apply (filter_others fst).
  - apply fmap_Some in Hl as (l1 & Hl & ->). destruct (decide _) as [_|Hn]; [|done]. by rewrite (IH l1).
Qed.

Lemma dl_search_None l f : dl_search l f = None <-> Forall (fun e => f e.2 = false) l.
Proof.
  unfold dl_search. rewrite fmap_None, list_find_None.
  apply Forall_proper; [|done]. intros e. by rewrite not_true_iff_false.
Qed.

Lemma dl_search_Some l f p x :
  dl_search l f = Some (p, x) <->
  exists l1 l2, l = l1 ++ (p, x) :: l2 /\ f x = true /\ Forall (fun e => f e.2 = false) l1.
Proof.
  unfold dl_search. rewrite fmap_Some. split.
  - intros ([i e] & Hf & He'). simpl in He'. subst e. apply list_find_Some in Hf as (Hi & He & Hb).
    exists (take i l), (drop (S i) l). split_and!; [by rewrite take_drop_middle|done|].
    apply Forall_forall. intros y (j & Hj)%list_elem_of_lookup.
    apply lookup_take_Some in Hj as [Hj Hlt]. apply not_true_iff_false. exact (Hb j y Hj Hlt).
  - intros (l1 & l2 & -> & Hx & Hl1). exists (length l1, (p, x)). split; [|done].
    apply list_find_Some. split_and!; [by rewrite list_lookup_middle|done|].
    intros j y Hj Hlt. rewrite lookup_app_l in Hj by done.
    rewrite Forall_lookup in Hl1. by rewrite (Hl1 j y Hj).
Qed.

(** The rule for a loop whose body may unlink the current element: the list is
    what was visited and kept, followed by what is to come. *)
Lemma dl_foreach_spec {S : Type} (get : S -> dlist A) (body : Z -> A -> S -> option S)
    (I : dlist A -> dlist A -> S -> Prop) :
  (forall kept p x todo s, I kept ((p, x) :: todo) s -> get s = kept ++ (p, x) :: todo ->
     NoDup (addrs (get s)) ->
     exists s' kept', body p x s = Some s' /\ get s' = kept' ++ todo /\
       NoDup (addrs (get s')) /\ I kept' todo s') ->
  forall todo kept s fuel, I kept todo s -> get s = kept ++ todo -> NoDup (addrs (get s)) ->
    (length todo <= fuel)%nat ->
    exists s' kept', dl_foreach get body fuel (dl_head todo) s = Some s' /\
      get s' = kept' /\ NoDup (addrs (get s')) /\ I kept' [] s'.
Proof.
  intros Hbody todo. induction todo as [|[p x] todo IH]; intros kept s fuel HI Hg Hnd Hf.
  { rewrite app_nil_r in Hg. exists s, kept. by destruct fuel. }
  destruct fuel as [|fuel]; [simpl in Hf; lia|]. simpl.
  pose proof Hnd as Hnd'. rewrite Hg in Hnd'. apply NoDup_middle in Hnd' as (Hp & _ & _).
  rewrite Hg, dl_find_app, dl_next_app by done. simpl.
  destruct (Hbody kept p x todo s HI Hg Hnd) as (s' & kept' & -> & Hg' & Hnd' & HI'). simpl.
  apply (IH kept' s'); [done|done|done|simpl in Hf; lia].
Qed.
End DList.

Arguments dlist : clear implicits.
