(* ===== verification/Timespec.v ===== *)
(** * Time arithmetic (common/cras_util.h)

    [struct timespec] with the conversions between frame counts and time that
    every schedule of the server is computed with.  [time_t] and [long] are
    64-bit signed: their overflow is undefined in C, so they are plain
    integers here; the [uint64_t], [unsigned] and [size_t] computations wrap. *)
From S2P Require Import Prelude.

Record timespec : Type := Timespec { tv_sec : Z; tv_nsec : Z }.

#[export] Instance timespec_eq_dec : EqDecision timespec.
Proof. solve_decision. Defined.

Definition cras_frames_at_rate (orig_rate orig_frames act_rate : Z) : option Z :=
  udiv (u64 (u64 (u64 (orig_frames * act_rate) + orig_rate) - 1)) orig_rate.

Definition cras_frames_to_time (frames rate : Z) : option timespec :=
  sec ← udiv frames rate;
  frames' ← urem frames rate;
  nsec ← udiv (u64 (frames' * 1000000000)) rate;
  Some (Timespec sec nsec).

Definition cras_time_to_frames (t : timespec) (rate : Z) : Z :=
  u64 (u64 (u64 (tv_nsec t) * rate) / 1000000000 + u64 (rate * tv_sec t)).

Definition cras_frames_to_ms (frames rate : Z) : option Z :=
  udiv (u32 (1000 * frames)) rate.

Definition subtract_timespecs (fin beg : timespec) : timespec :=
  let sec := tv_sec fin - tv_sec beg in
  let nsec := tv_nsec fin - tv_nsec beg in
  if (sec >? 0) && (nsec <? 0) then Timespec (sec - 1) (nsec + 1000000000)
  else if (sec <? 0) && (nsec >? 0) then Timespec (sec + 1) (nsec - 1000000000)
  else Timespec sec nsec.

(** The carry loop of [add_timespecs], with the fuel its callers need. *)
Definition add_carry (fuel : nat) (a : timespec) : option timespec :=
  cwhile (fun a => tv_nsec a >=? 1000000000)
         (fun a => Some (Timespec (tv_sec a + 1) (tv_nsec a - 1000000000)))
         fuel a.

Definition add_timespecs (a b : timespec) : option timespec :=
  let a' := Timespec (tv_sec a + tv_sec b) (tv_nsec a + tv_nsec b) in
  add_carry (S (Z.to_nat (tv_nsec a' / 1000000000 + 1))) a'.

Definition timespec_after (a b : timespec) : bool :=
  (tv_sec a >? tv_sec b) || ((tv_sec a =? tv_sec b) && (tv_nsec a >? tv_nsec b)).

Definition timespec_to_ms (ts : timespec) : Z :=
  u32 (tv_sec ts * 1000 + Z.quot (tv_nsec ts + 999999) 1000000).

Definition ms_to_timespec (milliseconds : Z) : timespec :=
  Timespec (Z.quot milliseconds 1000) (Z.rem milliseconds 1000 * 1000000).

(** Both predicates take a pointer; [None] is [NULL]. *)
Definition timespec_is_zero (ts : option timespec) : bool :=
  match ts with
  | Some t => (tv_sec t =? 0) && (tv_nsec t =? 0)
  | None => false
  end.

Definition timespec_is_nonzero (ts : option timespec) : bool :=
  match ts with
  | Some t => negb (tv_sec t =? 0) || ((tv_sec t =? 0) && negb (tv_nsec t =? 0))
  | None => false
  end.

(** [now] is what [clock_gettime] returned. *)
Definition cras_frames_since_time (now beg : timespec) (rate : Z) : Z :=
  if negb (timespec_after now beg) then 0
  else cras_time_to_frames (subtract_timespecs now beg) rate.

Definition cras_frames_until_time (now fin : timespec) (rate : Z) : Z :=
  if negb (timespec_after fin now) then 0
  else cras_time_to_frames (subtract_timespecs fin now) rate.

(** ** Specification: a timespec is a number of nanoseconds *)

Definition ns (t : timespec) : Z := tv_sec t * 1000000000 + tv_nsec t.

(** The times [clock_gettime] produces, and the durations between them. *)
Definition normalised (t : timespec) : Prop := 0 <= tv_nsec t < 1000000000.

(** Both fields of one sign and less than a second of nanoseconds. *)
Definition same_sign (t : timespec) : Prop :=
  (0 <= tv_sec t /\ 0 <= tv_nsec t < 1000000000) \/
  (tv_sec t <= 0 /\ -1000000000 < tv_nsec t <= 0).

Lemma subtract_timespecs_ns fin beg : ns (subtract_timespecs fin beg) = ns fin - ns beg.
Proof.
  destruct fin as [s1 n1], beg as [s2 n2]. unfold subtract_timespecs, ns; simpl.
  zcases; simpl; lia.
Qed.

Lemma subtract_timespecs_same_sign fin beg :
  normalised fin -> normalised beg -> same_sign (subtract_timespecs fin beg).
Proof.
  destruct fin as [s1 n1], beg as [s2 n2].
  unfold subtract_timespecs, normalised, same_sign; simpl. intros.
  zcases; simpl; lia.
Qed.

Lemma timespec_after_ns a b :
  normalised a -> normalised b -> timespec_after a b = (ns b <? ns a).
Proof.
  destruct a as [s1 n1], b as [s2 n2].
  unfold timespec_after, normalised, ns; simpl. intros. zcases; simpl; lia.
Qed.

Lemma add_carry_spec fuel a :
  (Z.to_nat (tv_nsec a / 1000000000 + 1) < fuel)%nat ->
  exists r, add_carry fuel a = Some r /\ ns r = ns a /\ tv_nsec r < 1000000000 /\
            (0 <= tv_nsec a -> normalised r).
Proof.
  intros Hfuel.
  destruct (cwhile_spec (fun a => tv_nsec a >=? 1000000000)
    (fun a => Some (Timespec (tv_sec a + 1) (tv_nsec a - 1000000000)))
    (fun r => ns r = ns a /\ (0 <= tv_nsec a -> 0 <= tv_nsec r))
    (fun r => Z.to_nat (tv_nsec r / 1000000000 + 1))) with (fuel := fuel) (s := a)
    as (r & Hr & [Hns Hpos] & Hc); [|done|done|].
  - intros r [Hns Hpos] Hc. apply Z.geb_le in Hc.
    eexists; split; [done|]. unfold ns in *; simpl. split; [split; lia|].
    replace (tv_nsec r - 1000000000) with (tv_nsec r + (-1) * 1000000000) by lia.
    rewrite Z.div_add by lia. pose proof (Z.div_le_lower_bound (tv_nsec r) 1000000000 1). lia.
  - exists r. rewrite Z.geb_leb, Z.leb_gt in Hc. unfold normalised. auto with lia.
Qed.

(** [add_timespecs] ends, and adds. *)
Lemma add_timespecs_spec a b :
  exists r, add_timespecs a b = Some r /\ ns r = ns a + ns b /\ tv_nsec r < 1000000000 /\
            (normalised a -> normalised b -> normalised r).
Proof.
  destruct (add_carry_spec (S (Z.to_nat ((tv_nsec a + tv_nsec b) / 1000000000 + 1)))
    (Timespec (tv_sec a + tv_sec b) (tv_nsec a + tv_nsec b))) as (r & Hr & Hns & Hlt & Hnorm).
  { simpl. lia. }
  exists r. unfold add_timespecs, ns, normalised in *; simpl in *.
  split_and!; [done|lia|lia|intuition lia].
Qed.

(** Two normalised times of one [ns] are equal. *)
Lemma ns_inj a b : normalised a -> normalised b -> ns a = ns b -> a = b.
Proof.
  destruct a as [s1 n1], b as [s2 n2]. unfold normalised, ns; simpl. intros.
  assert (s1 = s2) by lia. f_equal; lia.
Qed.

(** The duration between two clock readings, in order, is normalised. *)
Lemma subtract_timespecs_normalised fin beg :
  normalised fin -> normalised beg -> ns beg <= ns fin ->
  normalised (subtract_timespecs fin beg) /\ 0 <= tv_sec (subtract_timespecs fin beg).
Proof.
  intros Hf Hb Hle. pose proof (subtract_timespecs_same_sign _ _ Hf Hb) as Hs.
  pose proof (subtract_timespecs_ns fin beg) as Hns.
  unfold same_sign, normalised, ns in *. lia.
Qed.

(** Adding to a time the duration measured from it gives the later
    time back, and [timespec_after] orders readings as their nanoseconds. *)
Theorem add_subtract_timespecs (beg fin : timespec) :
  normalised beg -> normalised fin -> timespec_after fin beg = true ->
  add_timespecs beg (subtract_timespecs fin beg) = Some fin /\
  timespec_after beg fin = false.
Proof.
  intros Hb Hf Ha. rewrite timespec_after_ns in Ha |- * by done.
  apply Z.ltb_lt in Ha. split; [|apply Z.ltb_ge; lia].
  destruct (subtract_timespecs_normalised fin beg) as [Hd _]; [done..|lia|].
  destruct (add_timespecs_spec beg (subtract_timespecs fin beg)) as (r & -> & Hns & _ & Hr).
  f_equal. apply ns_inj; [auto..|]. rewrite Hns, subtract_timespecs_ns. lia.
Qed.

Lemma add_subtract_timespecs_witness :
  add_timespecs (Timespec 3 900000000) (subtract_timespecs (Timespec 5 100000000) (Timespec 3 900000000))
    = Some (Timespec 5 100000000) /\
  timespec_after (Timespec 3 900000000) (Timespec 5 100000000) = false.
Proof. apply add_subtract_timespecs; [split; simpl; lia|split; simpl; lia|reflexivity]. Defined.

Lemma cras_frames_to_time_spec frames rate :
  is_u32 frames -> is_u32 rate -> 0 < rate ->
  cras_frames_to_time frames rate =
    Some (Timespec (frames / rate) (frames mod rate * 1000000000 / rate)) /\
  normalised (Timespec (frames / rate) (frames mod rate * 1000000000 / rate)).
Proof.
  unfold is_u32. intros Hf Hr Hpos. unfold cras_frames_to_time.
  rewrite (udiv_Some frames), (urem_Some frames) by lia; simpl.
  pose proof (Z.mod_pos_bound frames rate Hpos).
  rewrite udiv_Some by lia. unwrap. split; [done|].
  unfold normalised; simpl. split; [apply Z.div_pos; lia|].
  apply Z.div_lt_upper_bound; lia.
Qed.

Lemma cras_time_to_frames_small t rate :
  is_u32 rate -> normalised t -> 0 <= tv_sec t < 4294967296 ->
  cras_time_to_frames t rate = tv_nsec t * rate / 1000000000 + rate * tv_sec t.
Proof.
  destruct t as [s n]. unfold is_u32, normalised, cras_time_to_frames; simpl. intros Hr Hn Hs.
  assert (0 <= n * rate < 1000000000 * 4294967296) by nia.
  assert (0 <= rate * s <= 4294967295 * 4294967295) by nia.
  assert (0 <= n * rate / 1000000000 < 4294967296).
  { split; [apply Z.div_pos; lia|apply Z.div_lt_upper_bound; lia]. }
  unwrap. done.
Qed.

(** Turning a frame count into a time and back loses at most one
    frame, and none when the rate (at most 1 GHz)
    divides a second of nanoseconds. *)
Theorem frames_time_roundtrip (frames rate : Z) :
  is_u32 frames -> 0 < rate <= 1000000000 ->
  exists t, cras_frames_to_time frames rate = Some t /\ normalised t /\
    frames - 1 <= cras_time_to_frames t rate <= frames /\
    (1000000000 mod rate = 0 -> cras_time_to_frames t rate = frames).
Proof.
  intros Hf [Hpos Hmax]. assert (is_u32 rate) as Hr by (unfold is_u32; lia).
  destruct (cras_frames_to_time_spec frames rate) as [-> Hn]; [done..|].
  eexists; split; [done|]. split; [done|].
  assert (0 <= frames / rate < 4294967296).
  { unfold is_u32 in *. split; [apply Z.div_pos; lia|apply Z.div_lt_upper_bound; nia]. }
  rewrite cras_time_to_frames_small by (simpl; done). simpl.
  pose proof (Z.div_mod frames rate ltac:(lia)) as Hdm.
  pose proof (Z.mod_pos_bound frames rate Hpos) as Hb.
  set (f := frames mod rate) in *. set (q := frames / rate) in *. clearbody f q.
  pose proof (Z.div_mod (f * 1000000000) rate ltac:(lia)).
  pose proof (Z.mod_pos_bound (f * 1000000000) rate Hpos).
  set (n := f * 1000000000 / rate) in *. set (m := (f * 1000000000) mod rate) in *.
  assert (n * rate = f * 1000000000 - m) as Hnr by lia.
  split.
  - assert (f - 1 <= n * rate / 1000000000 <= f); [|lia]. unfold is_u32 in *.
    split; [apply Z.div_le_lower_bound; lia|].
    apply Z.lt_succ_r, Z.div_lt_upper_bound; lia.
  - intros Hdiv. assert (m = 0) as Hm.
    { unfold m. rewrite Z.mul_mod, Hdiv, Z.mul_0_r, Z.mod_0_l; lia. }
    rewrite Hnr, Hm, Z.sub_0_r, Z.div_mul by lia. lia.
Qed.

Lemma frames_time_roundtrip_witness :
  exists t, cras_frames_to_time 1000 44100 = Some t /\ normalised t /\
    1000 - 1 <= cras_time_to_frames t 44100 <= 1000 /\
    (1000000000 mod 44100 = 0 -> cras_time_to_frames t 44100 = 1000).
Proof. apply frames_time_roundtrip; unfold is_u32; lia. Defined.

Lemma timespec_to_ms_ceil t :
  normalised t -> 0 <= tv_sec t -> ns t <= 4294967295 * 1000000 ->
  timespec_to_ms t = (ns t + 999999) / 1000000.
Proof.
  destruct t as [s n]. unfold normalised, timespec_to_ms, ns; simpl. intros Hn Hs Hlt.
  rewrite Z.quot_div_nonneg by lia.
  replace (s * 1000000000 + n + 999999) with (n + 999999 + (s * 1000) * 1000000) by lia.
  rewrite Z.div_add by lia.
  assert (0 <= (n + 999999) / 1000000) by (apply Z.div_pos; lia).
  assert ((n + 999999) / 1000000 + s * 1000 < 4294967296).
  { rewrite <- Z.div_add by lia. apply Z.div_lt_upper_bound; lia. }
  unwrap. lia.
Qed.

(** [timespec_to_ms] rounds up to the millisecond, and inverts
    [ms_to_timespec] on every millisecond count an [unsigned] can hold. *)
Theorem ms_timespec_roundtrip :
  (forall ms, is_u32 ms -> timespec_to_ms (ms_to_timespec ms) = ms) /\
  (forall t, normalised t -> 0 <= tv_sec t -> ns t <= 4294967295 * 1000000 ->
     (timespec_to_ms t - 1) * 1000000 < ns t <= timespec_to_ms t * 1000000).
Proof.
  split.
  - intros ms Hms. unfold ms_to_timespec, is_u32 in *.
    rewrite Z.quot_div_nonneg, Z.rem_mod_nonneg by lia.
    pose proof (Z.div_mod ms 1000 ltac:(lia)). pose proof (Z.mod_pos_bound ms 1000 ltac:(lia)).
    rewrite timespec_to_ms_ceil; unfold normalised, ns; simpl; [|lia..].
    replace (ms / 1000 * 1000000000 + ms mod 1000 * 1000000 + 999999)
      with (999999 + ms * 1000000) by lia.
    rewrite Z.div_add by lia. done.
  - intros t Hn Hs Hlt. rewrite timespec_to_ms_ceil by done.
    pose proof (Z.div_mod (ns t + 999999) 1000000 ltac:(lia)).
    pose proof (Z.mod_pos_bound (ns t + 999999) 1000000 ltac:(lia)). lia.
Qed.

Lemma ms_timespec_roundtrip_witness :
  timespec_to_ms (ms_to_timespec 1500) = 1500 /\ timespec_to_ms (Timespec 1 500000001) * 1000000 >= 1500000001.
Proof.
  split; [apply (proj1 ms_timespec_roundtrip); unfold is_u32; lia|].
  pose proof (proj2 ms_timespec_roundtrip (Timespec 1 500000001)) as H.
  unfold normalised, ns in H; simpl in H. lia.
Defined.

(** The frames elapsed since a clock reading are the floor of the
    elapsed time times the rate, at most one frame short, and are zero before it. *)
Theorem frames_since_time_bound (now beg : timespec) (rate : Z) :
  normalised now -> normalised beg -> is_u32 rate ->
  ns now - ns beg < 4294967295 * 1000000000 ->
  let n := cras_frames_since_time now beg rate in
  (ns now <= ns beg -> n = 0) /\
  (ns beg <= ns now -> n * 1000000000 <= (ns now - ns beg) * rate < (n + 1) * 1000000000).
Proof.
  intros Hn Hb Hr Hlt n. unfold n, cras_frames_since_time.
  rewrite timespec_after_ns by done. destruct (Z.ltb_spec (ns beg) (ns now)) as [Ha|Ha]; simpl.
  2:{ split; [done|]. intros. replace (ns now - ns beg) with 0 by lia. lia. }
  split; [lia|]. intros _.
  pose proof (subtract_timespecs_ns now beg) as Hns.
  destruct (subtract_timespecs_normalised now beg) as [Hd Hs]; [done..|lia|].
  rewrite <- Hns. set (d := subtract_timespecs now beg) in *.
  rewrite cras_time_to_frames_small; [|done..|unfold ns, normalised in *; lia].
  pose proof (Z.div_mod (tv_nsec d * rate) 1000000000 ltac:(lia)).
  pose proof (Z.mod_pos_bound (tv_nsec d * rate) 1000000000 ltac:(lia)).
  unfold ns at 1 2. nia.
Qed.

Lemma frames_since_time_bound_witness :
  let n := cras_frames_since_time (Timespec 7 500000000) (Timespec 6 0) 48000 in
  (ns (Timespec 7 500000000) <= ns (Timespec 6 0) -> n = 0) /\
  (ns (Timespec 6 0) <= ns (Timespec 7 500000000) ->
   n * 1000000000 <= (ns (Timespec 7 500000000) - ns (Timespec 6 0)) * 48000 < (n + 1) * 1000000000).
Proof.
  apply frames_since_time_bound; unfold normalised, is_u32, ns; simpl; lia.
Defined.
