(* ===== verification/Timers.v ===== *)
(** * Timers (server/cras_tm.c) and polled intervals
      (server/polled_interval_checker.c)

    The main loop sleeps until the next timer and then runs the callbacks of
    the expired ones.  A callback may create timers and cancel others while
    the loop stands on its own timer. *)
From S2P Require Import Prelude DList Timespec.

(** [cb] and [cb_data] are the callback and the argument it gets. *)
Record cras_timer : Type := Timer { tm_ts : timespec; tm_cb : Z; tm_data : Z }.

(** [struct cras_tm]: the list of the armed timers. *)
Definition cras_tm : Type := dlist cras_timer.

(** [ms] is unsigned, multiplied as a [long]. *)
Definition add_ms_ts (ts : timespec) (ms : Z) : timespec :=
  let '(ts, ms) :=
    if ms >=? 1000 then (Timespec (tv_sec ts + ms / 1000) (tv_nsec ts), ms mod 1000) else (ts, ms) in
  let ts := Timespec (tv_sec ts) (tv_nsec ts + ms * 1000000) in
  if tv_nsec ts >=? 1000000000
  then Timespec (tv_sec ts + Z.quot (tv_nsec ts) 1000000000) (Z.rem (tv_nsec ts) 1000000000)
  else ts.

Definition timespec_sooner (a b : timespec) : bool :=
  (tv_sec a <? tv_sec b) || ((tv_sec a =? tv_sec b) && (tv_nsec a <=? tv_nsec b)).

(** [mem] is what [calloc] returned, [now] what the clock reads. *)
Definition cras_tm_create_timer (tm : cras_tm) (mem : option Z) (now : timespec) (ms cb data : Z)
  : option Z * cras_tm :=
  match mem with
  | None => (None, tm)
  | Some t => (Some t, dl_append tm t (Timer (add_ms_ts now ms) cb data))
  end.

Definition cras_tm_cancel_timer (tm : cras_tm) (t : Z) : option cras_tm := dl_delete tm t.

Definition cras_tm_init : cras_tm := [].

Definition cras_tm_deinit (tm : cras_tm) : option cras_tm :=
  dl_foreach id (fun t _ tm => dl_delete tm t) (length tm) (dl_head tm) tm.

(** The deadline the loop over the list ends with. *)
Definition next_deadline (first : cras_timer) (tm : cras_tm) : timespec :=
  foldl (fun min e => if timespec_sooner (tm_ts e.2) min then tm_ts e.2 else min) (tm_ts first) tm.

Definition cras_tm_get_next_timeout (tm : cras_tm) (now ts : timespec) : Z * timespec :=
  match tm with
  | [] => (0, ts)
  | (_, first) :: _ =>
      let min := next_deadline first tm in
      if timespec_sooner min now then (1, Timespec 0 0) else (1, subtract_timespecs min now)
  end.

(** ** The callback loop *)
Section Callbacks.
(** The rest of the program, and what a callback does to it and to the list. *)
Context {W : Type} (run_cb : Z -> Z -> Z -> W -> cras_tm -> option (W * cras_tm)).

(** The loop reads [t->next] again after a callback.  The addresses of the
    timers whose callbacks ran are returned in order. *)
Fixpoint call_loop (fuel : nat) (now : timespec) (t : option Z) (w : W) (tm : cras_tm)
  : option (W * cras_tm * list Z) :=
  match t with
  | None => Some (w, tm, [])
  | Some p =>
      match fuel with
      | O => None
      | S fuel =>
          timer ← dl_find tm p;
          next ← dl_next tm p;
          if timespec_sooner (tm_ts timer) now then
            '(w, tm) ← run_cb (tm_cb timer) p (tm_data timer) w tm;
            next ← dl_next tm p;
            tm ← cras_tm_cancel_timer tm p;
            '(w, tm, fired) ← call_loop fuel now next w tm;
            Some (w, tm, p :: fired)
          else call_loop fuel now next w tm
      end
  end.

Definition cras_tm_call_callbacks (fuel : nat) (now : timespec) (w : W) (tm : cras_tm)
  : option (W * cras_tm * list Z) :=
  call_loop fuel now (dl_head tm) w tm.
End Callbacks.

(** ** Polled intervals

    [now] is the module's clock, set by [pic_update_current_time]. *)
Record polled_interval : Type := PolledInterval { last_interval_start_ts : timespec; interval_sec : Z }.

Definition get_sec_since_last_active (now last_active_ts : timespec) : Z :=
  s32 (tv_sec (subtract_timespecs now last_active_ts)).

Definition pic_polled_interval_create (now : timespec) (sec : Z) : polled_interval :=
  PolledInterval now sec.

Definition pic_interval_elapsed (now : timespec) (pi : polled_interval) : bool :=
  get_sec_since_last_active now (last_interval_start_ts pi) >=? interval_sec pi.

Definition pic_interval_reset (now : timespec) (pi : polled_interval) : polled_interval :=
  PolledInterval now (interval_sec pi).

(** ** Deadlines *)

Lemma add_ms_ts_ns (ts : timespec) (ms : Z) :
  normalised ts -> is_u32 ms ->
  ns (add_ms_ts ts ms) = ns ts + ms * 1000000 /\ normalised (add_ms_ts ts ms).
Proof.
  destruct ts as [s n]. unfold normalised, is_u32, add_ms_ts, ns. simpl. intros Hn Hms.
  pose proof (Z.div_mod ms 1000 ltac:(lia)). pose proof (Z.mod_pos_bound ms 1000 ltac:(lia)).
  destruct (ms >=? 1000) eqn:Hc; simpl;
    destruct (_ >=? 1000000000) eqn:Hc2; simpl;
    rewrite ?Z.quot_div_nonneg, ?Z.rem_mod_nonneg by lia;
    Z.to_euclidean_division_equations; lia.
Qed.

Lemma timespec_sooner_ns (a b : timespec) :
  normalised a -> normalised b -> timespec_sooner a b = (ns a <=? ns b).
Proof.
  destruct a as [s1 n1], b as [s2 n2]. unfold timespec_sooner, normalised, ns; simpl. intros.
  zcases; simpl; lia.
Qed.

Definition timers_normalised (tm : cras_tm) : Prop := Forall (fun e => normalised (tm_ts e.2)) tm.

Lemma next_deadline_least (first : cras_timer) (tm : cras_tm) :
  normalised (tm_ts first) -> timers_normalised tm ->
  normalised (next_deadline first tm) /\ ns (next_deadline first tm) <= ns (tm_ts first) /\
  Forall (fun e => ns (next_deadline first tm) <= ns (tm_ts e.2)) tm /\
  (next_deadline first tm = tm_ts first \/
   exists p t, (p, t) ∈ tm /\ next_deadline first tm = tm_ts t).
Proof.
  unfold next_deadline. generalize (tm_ts first) as m. intros m Hm Htm. revert m Hm.
  induction Htm as [|[p t] tm Ht Htm IH]; intros m Hm; simpl in *; [auto with lia|].
  rewrite timespec_sooner_ns by done. destruct (Z.leb_spec (ns (tm_ts t)) (ns m)).
  - destruct (IH (tm_ts t) Ht) as (Hn & Hle & Hall & Hor). split_and!; [done|lia| |].
    + constructor; [simpl; lia|done].
    + right. destruct Hor as [->|(q & u & Hin & ->)].
      * exists p, t. split; [by left|done].
      * exists q, u. split; [by right|done].
  - destruct (IH m Hm) as (Hn & Hle & Hall & Hor). split_and!; [done|lia| |].
    + constructor; [simpl; lia|done].
    + destruct Hor as [->|(q & u & Hin & ->)]; [by left|right].
      exists q, u. split; [by right|done].
Qed.

(** The timeout the main loop sleeps is the time to the earliest
    deadline, nothing when one is already due; after sleeping exactly that
    long some timer is due, and no earlier than that when none was due yet. *)
Theorem next_timeout_earliest (tm : cras_tm) (now ts : timespec) :
  timers_normalised tm -> normalised now ->
  (tm = [] -> cras_tm_get_next_timeout tm now ts = (0, ts)) /\
  (tm <> [] -> exists d wake, cras_tm_get_next_timeout tm now ts = (1, d) /\
     normalised d /\ 0 <= tv_sec d /\ add_timespecs now d = Some wake /\
     Exists (fun e => timespec_sooner (tm_ts e.2) wake = true) tm /\
     (ns d <> 0 -> forall t, normalised t -> ns t < ns wake ->
        Forall (fun e => timespec_sooner (tm_ts e.2) t = false) tm)).
Proof.
  intros Htm Hnow. split; [by intros ->|]. destruct tm as [|[p first] tm]; [done|]. intros _.
  assert (Hf : normalised (tm_ts first)) by (by inversion Htm).
  unfold cras_tm_get_next_timeout.
  destruct (next_deadline_least first ((p, first) :: tm) Hf Htm) as (Hn & _ & Hall & Hex).
  set (m := next_deadline first ((p, first) :: tm)) in *. clearbody m.
  assert (Hdue : forall wake, normalised wake -> ns m <= ns wake ->
    Exists (fun e => timespec_sooner (tm_ts e.2) wake = true) ((p, first) :: tm)).
  { intros wake Hw Hle. apply Exists_exists.
    destruct Hex as [Heq|(q & u & Hin & Heq)]; [exists (p, first)|exists (q, u)]; simpl;
      (split; [by (left || done)|]); rewrite <- Heq, timespec_sooner_ns by done; lia. }
  rewrite timespec_sooner_ns by done. destruct (Z.leb_spec (ns m) (ns now)) as [Hle|Hlt].
  - destruct (add_timespecs_spec now (Timespec 0 0)) as (wake & Ha & Hns & _ & Hw).
    exists (Timespec 0 0), wake. unfold normalised at 1; simpl.
    split_and!; try done. apply Hdue; [by apply Hw|]. rewrite Hns. unfold ns at 3; simpl; lia.
  - destruct (subtract_timespecs_normalised m now) as [Hd Hs]; [done..|lia|].
    destruct (add_timespecs_spec now (subtract_timespecs m now)) as (wake & Ha & Hns & _ & Hw).
    rewrite subtract_timespecs_ns in Hns. specialize (Hw Hnow Hd).
    exists (subtract_timespecs m now), wake.
    split; [done|]. split; [done|]. split; [done|]. split; [done|].
    split; [apply Hdue; [done|lia]|]. intros _ t Ht Hlt'.
    rewrite Forall_forall in Hall |- *. intros e He. specialize (Hall e He).
    unfold timers_normalised in Htm. rewrite Forall_forall in Htm.
    rewrite timespec_sooner_ns by auto. lia.
Qed.

Lemma next_timeout_earliest_witness :
  exists d wake, cras_tm_get_next_timeout [(1, Timer (Timespec 7 0) 0 0); (2, Timer (Timespec 5 4) 0 0)]
      (Timespec 4 900000000) (Timespec 0 0) = (1, d) /\
    add_timespecs (Timespec 4 900000000) d = Some wake /\ wake = Timespec 5 4.
Proof.
  destruct (proj2 (next_timeout_earliest
    [(1, Timer (Timespec 7 0) 0 0); (2, Timer (Timespec 5 4) 0 0)]
    (Timespec 4 900000000) (Timespec 0 0)
    ltac:(repeat (apply Forall_cons; split); [split; simpl; lia..|apply Forall_nil; done])
    ltac:(split; simpl; lia)) ltac:(done))
    as (d & wake & Hd & _ & _ & Hw & _).
  exists d, wake. split; [exact Hd|]. split; [exact Hw|].
  vm_compute in Hd. injection Hd as <-. vm_compute in Hw. by injection Hw as <-.
Defined.

(** ** Running the expired timers *)

Definition expired (now : timespec) (e : Z * cras_timer) : bool := timespec_sooner (tm_ts e.2) now.

Section CallbackLoop.
Context {W : Type} (run_cb : Z -> Z -> Z -> W -> cras_tm -> option (W * cras_tm)).
(** The timers a callback cancels. *)
Context (cancels : Z -> Z -> Z -> W -> cras_tm -> list Z).
Context (now : timespec).

(** A callback may cancel any timer but its own, and create timers that are
    due after the loop's reading of the clock. *)
Definition callback_ok : Prop :=
  forall cb p data w (tm : list (Z * cras_timer)), NoDup (addrs tm) -> p ∈ addrs tm ->
    exists w' created,
      let gone := cancels cb p data w tm in
      let tm' := filter (fun e : Z * cras_timer => e.1 ∉ gone) tm ++ created in
      run_cb cb p data w tm = Some (w', tm') /\ (p ∉ gone) /\ NoDup (addrs tm') /\
      Forall (fun e => expired now e = false) created.

Lemma filter_split (gone : list Z) (l1 : list (Z * cras_timer)) (p : Z) (t : cras_timer) (l2 : list (Z * cras_timer)) :
  p ∉ gone ->
  filter (fun e : Z * cras_timer => e.1 ∉ gone) (l1 ++ (p, t) :: l2) =
  filter (fun e : Z * cras_timer => e.1 ∉ gone) l1 ++ (p, t) :: filter (fun e : Z * cras_timer => e.1 ∉ gone) l2.
Proof. intros Hp. rewrite filter_app, filter_cons. by rewrite decide_True. Qed.

Lemma unexpired_filter {P : Z * cras_timer -> Prop} `{!forall e, Decision (P e)} (l : list (Z * cras_timer)) :
  Forall (fun e => expired now e = false) l -> Forall (fun e => expired now e = false) (filter P l).
Proof. rewrite !Forall_forall. intros Hl e [_ He]%list_elem_of_filter. auto. Qed.

Lemma filter_nothing (gone : list Z) (l : list (Z * cras_timer)) :
  gone = [] -> filter (fun e : Z * cras_timer => e.1 ∉ gone) l = l.
Proof.
  intros ->. induction l as [|e l IH]; [done|].
  rewrite filter_cons, decide_True by (apply not_elem_of_nil). by rewrite IH.
Qed.

Definition due (l : list (Z * cras_timer)) : list (Z * cras_timer) := filter (fun e => expired now e = true) l.
Definition waiting (l : list (Z * cras_timer)) : list (Z * cras_timer) := filter (fun e => expired now e = false) l.

Lemma due_unexpired (l : list (Z * cras_timer)) : Forall (fun e => expired now e = false) l -> due l = [].
Proof. induction 1 as [|e l He _ IH]; [done|]. unfold due. rewrite filter_cons. by rewrite He. Qed.

Lemma waiting_unexpired (l : list (Z * cras_timer)) : Forall (fun e => expired now e = false) l -> waiting l = l.
Proof.
  induction 1 as [|e l He _ IH]; [done|]. unfold waiting in *. rewrite filter_cons.
  rewrite decide_True by done. by rewrite IH.
Qed.

Lemma due_filter_sublist {P : Z * cras_timer -> Prop} `{!forall e, Decision (P e)} (l : list (Z * cras_timer)) :
  due (filter P l) `sublist_of` due l.
Proof.
  induction l as [|e l IH]; [done|]. unfold due in *. rewrite (filter_cons P).
  destruct (decide (P e)); rewrite !filter_cons; repeat case_decide; by constructor || done.
Qed.

(** What the loop leaves: it stands on the first of [todo], [kept] is behind. *)
Lemma call_loop_spec (Hok : callback_ok) :
  forall n (todo kept : list (Z * cras_timer)) w, length (due todo) = n -> NoDup (addrs (kept ++ todo)) ->
    Forall (fun e => expired now e = false) kept ->
    exists fuel w' tm' fired,
      call_loop run_cb fuel now (dl_head todo) w (kept ++ todo) = Some (w', tm', fired) /\
      Forall (fun e => expired now e = false) tm' /\ NoDup (addrs tm') /\
      fired `sublist_of` addrs (due todo) /\
      ((forall cb p data w tm, cancels cb p data w tm = []) ->
        fired = addrs (due todo) /\ exists created, tm' = kept ++ waiting todo ++ created).
Proof.
  induction n as [n IHn] using lt_wf_ind. intros todo.
  induction todo as [|[p t] todo IH]; intros kept w Hlen Hnd Hkept.
  { exists 0%nat, w, kept, []. rewrite app_nil_r in *. split_and!; try done. intros _.
    split; [done|]. exists []. by rewrite !app_nil_r. }
  pose proof Hnd as (Hp & Hp' & Hnd')%NoDup_middle.
  destruct (expired now (p, t)) eqn:He.
  - destruct (Hok (tm_cb t) p (tm_data t) w (kept ++ (p, t) :: todo)) as (w1 & cr & Hrun & Hself & Hnd1 & Hcr).
    { done. } { rewrite addrs_app. simpl. apply elem_of_app. right. by left. }
    set (gone := cancels (tm_cb t) p (tm_data t) w (kept ++ (p, t) :: todo)) in *.
    rewrite filter_split, <- app_assoc in Hrun, Hnd1 by done. simpl in Hrun, Hnd1.
    pose proof Hnd1 as (Hq & Hq' & Hnd2)%NoDup_middle.
    set (keep := fun e : Z * cras_timer => e.1 ∉ gone) in *.
    assert (Hdue : due ((p, t) :: todo) = (p, t) :: due todo).
    { unfold due. rewrite filter_cons. by rewrite decide_True. }
    assert (Hdue' : due (filter keep todo ++ cr) = due (filter keep todo)).
    { unfold due. rewrite filter_app. fold (due cr). by rewrite (due_unexpired cr Hcr), app_nil_r. }
    destruct (IHn (length (due (filter keep todo ++ cr)))) with (todo := filter keep todo ++ cr)
        (kept := filter keep kept) (w := w1) as (fuel & w' & tm' & fired & Hrec & Hun & Hnd3 & Hsub & Hex).
    + rewrite <- Hlen, Hdue, Hdue'. simpl. apply Nat.lt_succ_r, sublist_length, due_filter_sublist.
    + done.
    + done.
    + by apply unexpired_filter.
    + exists (S fuel), w', tm', (p :: fired). split_and!; [|done|done| |].
      * simpl. rewrite dl_find_app, dl_next_app by done. simpl.
        unfold expired in He. simpl in He. rewrite He, Hrun. simpl.
        rewrite dl_next_app by done. simpl. unfold cras_tm_cancel_timer.
        rewrite dl_delete_app by done. simpl. by rewrite Hrec.
      * rewrite Hdue. simpl. constructor. etrans; [exact Hsub|]. rewrite Hdue'.
        apply fmap_sublist, due_filter_sublist.
      * intros Hno. destruct (Hex Hno) as [-> (cr' & ->)].
        assert (Hkeep : forall l : list (Z * cras_timer), filter keep l = l).
        { intros l. apply filter_nothing, Hno. }
        rewrite Hdue', Hdue, !Hkeep. split; [done|]. exists (cr ++ cr').
        unfold waiting. rewrite filter_app, filter_cons, decide_False by (by rewrite He).
        fold (waiting cr). by rewrite (waiting_unexpired cr Hcr), <- !app_assoc.
  - assert (Hdue : due ((p, t) :: todo) = due todo).
    { unfold due. rewrite filter_cons. by rewrite decide_False by (by rewrite He). }
    rewrite Hdue in Hlen |- *.
    destruct (IH (kept ++ [(p, t)]) w Hlen) as (fuel & w' & tm' & fired & Hrec & Hun & Hnd3 & Hsub & Hex).
    + by rewrite <- app_assoc.
    + apply Forall_app. split; [done|]. by repeat constructor.
    + exists (S fuel), w', tm', fired. split_and!; [|done|done|done|].
      * simpl. rewrite dl_find_app, dl_next_app by done. simpl.
        unfold expired in He. simpl in He. rewrite He. by rewrite <- app_assoc in Hrec.
      * intros Hno. destruct (Hex Hno) as [-> (cr' & ->)]. split; [done|]. exists cr'.
        unfold waiting. rewrite filter_cons, decide_True by done. by rewrite <- !app_assoc.
Qed.
End CallbackLoop.

(** Claim C23: one pass over the timers ends, never touches a timer that has been
    freed, leaves no timer that was due, and runs each due timer at most once
    in the order of the list; when the callbacks cancel nothing it runs exactly
    the due ones and keeps exactly the others, followed by the new ones.
    Callbacks may cancel other timers, the next one of the list included. *)
Theorem callbacks_run_expired {W : Type}
    (run_cb : Z -> Z -> Z -> W -> cras_tm -> option (W * cras_tm))
    (cancels : Z -> Z -> Z -> W -> cras_tm -> list Z)
    (now : timespec) (w : W) (tm : cras_tm) :
  callback_ok run_cb cancels now -> NoDup (addrs tm) ->
  exists fuel w' tm' fired,
    cras_tm_call_callbacks run_cb fuel now w tm = Some (w', tm', fired) /\
    Forall (fun e => expired now e = false) tm' /\ NoDup (addrs tm') /\
    fired `sublist_of` addrs (due now tm) /\
    ((forall cb p data w tm, cancels cb p data w tm = []) ->
      fired = addrs (due now tm) /\ exists created, tm' = waiting now tm ++ created).
Proof.
  intros Hok Hnd.
  destruct (call_loop_spec run_cb cancels now Hok (length (due now tm)) tm [] w)
    as (fuel & w' & tm' & fired & H); [done|done|by constructor|].
  by exists fuel, w', tm', fired.
Qed.

(** A callback that cancels the timer its data names. *)
Definition cancelling_cb (cb p data : Z) (w : Z) (tm : cras_tm) : list Z :=
  if (cb =? 1) && negb (data =? p) then [data] else [].

Definition run_cancelling (cb p data : Z) (w : Z) (tm : cras_tm) : option (Z * cras_tm) :=
  Some (w + 1, filter (fun e : Z * cras_timer => e.1 ∉ cancelling_cb cb p data w tm)
                 (tm : list (Z * cras_timer)) ++ []).

Lemma run_cancelling_ok (now : timespec) : callback_ok run_cancelling cancelling_cb now.
Proof.
  intros cb p data w tm Hnd Hp. exists (w + 1), []. split_and!; [done| | |done].
  - unfold cancelling_cb. destruct (cb =? 1); simpl; [|apply not_elem_of_nil].
    destruct (Z.eqb_spec data p); simpl; [apply not_elem_of_nil|].
    rewrite list_elem_of_singleton. congruence.
  - rewrite app_nil_r. unfold addrs in *.
    eapply sublist_NoDup; [exact Hnd|]. apply fmap_sublist, sublist_filter.
Qed.

Definition four_timers : cras_tm :=
  [(10, Timer (Timespec 5 0) 1 20); (20, Timer (Timespec 4 0) 2 0); (30, Timer (Timespec 9 0) 2 0);
   (40, Timer (Timespec 5 1) 2 0)].

Lemma callbacks_run_expired_witness :
  exists fuel w' tm' fired,
    cras_tm_call_callbacks run_cancelling fuel (Timespec 5 2) 0 four_timers = Some (w', tm', fired) /\
    fired `sublist_of` [10; 20; 40] /\
    cras_tm_call_callbacks run_cancelling 4 (Timespec 5 2) 0 four_timers =
      Some (2, [(30, Timer (Timespec 9 0) 2 0)], [10; 40]).
Proof.
  destruct (callbacks_run_expired run_cancelling cancelling_cb (Timespec 5 2) 0 four_timers)
    as (fuel & w' & tm' & fired & Hrun & _ & _ & Hsub & _).
  - apply run_cancelling_ok.
  - apply (bool_decide_unpack _). by vm_compute.
  - exists fuel, w', tm', fired. split; [exact Hrun|]. split; [exact Hsub|]. by vm_compute.
Defined.

(** An interval has elapsed when its seconds, rounded down, have. *)
Lemma interval_elapsed_seconds (now : timespec) (pi : polled_interval) :
  normalised now -> normalised (last_interval_start_ts pi) ->
  ns (last_interval_start_ts pi) <= ns now ->
  tv_sec now - tv_sec (last_interval_start_ts pi) < 2147483648 ->
  pic_interval_elapsed now pi = true <->
  interval_sec pi * 1000000000 <= ns now - ns (last_interval_start_ts pi).
Proof.
  intros Hn Hl Hle Hlt. unfold pic_interval_elapsed, get_sec_since_last_active.
  pose proof (subtract_timespecs_ns now (last_interval_start_ts pi)) as Hns.
  destruct (subtract_timespecs_normalised now (last_interval_start_ts pi)) as [Hd Hs]; [done..|].
  unfold normalised in *. unfold ns in *.
  rewrite s32_small by lia. lia.
Qed.

Lemma deinit_empties (tm : cras_tm) : NoDup (addrs tm) -> cras_tm_deinit tm = Some [].
Proof.
  intros Hnd. unfold cras_tm_deinit.
  destruct (dl_foreach_spec id (fun t (_ : cras_timer) tm => dl_delete tm t) (fun kept _ _ => kept = []))
    with (todo := tm) (kept := @nil (Z * cras_timer)) (s := tm) (fuel := length tm)
    as (s' & kept' & -> & Hs & _ & ->); [|done|done|done|done|f_equal; exact Hs].
  intros kept p x todo s -> Hg Hn. unfold id in *. subst s. exists todo, [].
  simpl in *. rewrite Z.eqb_refl. apply NoDup_cons in Hn as [_ Hn]. done.
Qed.
