(* ===== verification/ByteBuffer.v ===== *)
(** * The circular byte buffer (common/byte_buffer.h)

    [struct byte_buffer] with its operations, and the proof that it is a
    bounded FIFO of bytes: the abstraction [contents] reads the ring. *)
From S2P Require Import Prelude.

Record byte_buffer : Type := ByteBuffer {
  write_idx : Z;
  read_idx : Z;
  level : Z;
  max_size : Z;
  used_size : Z;
  bytes : list Z
}.

(** [calloc_ok] is whether [calloc] found the memory; [None] is [NULL]. *)
Definition byte_buffer_create (calloc_ok : bool) (buffer_size_bytes : Z) : option byte_buffer :=
  if negb calloc_ok then None
  else Some {| write_idx := 0; read_idx := 0; level := 0;
               max_size := u32 buffer_size_bytes;
               used_size := u32 buffer_size_bytes;
               bytes := replicate (Z.to_nat buffer_size_bytes) 0 |}.

Definition byte_buffer_set_used_size (buf : byte_buffer) (used : Z) : byte_buffer :=
  {| write_idx := write_idx buf; read_idx := read_idx buf; level := level buf;
     max_size := max_size buf; used_size := u32 (cmin used (max_size buf));
     bytes := bytes buf |}.

Definition buf_writable (buf : byte_buffer) : Z :=
  if level buf >=? used_size buf then 0
  else if write_idx buf <? read_idx buf then u32 (read_idx buf - write_idx buf)
  else u32 (used_size buf - write_idx buf).

Definition buf_readable (buf : byte_buffer) : Z :=
  if level buf =? 0 then 0
  else if read_idx buf <? write_idx buf then u32 (write_idx buf - read_idx buf)
  else u32 (used_size buf - read_idx buf).

Definition set_ring (buf : byte_buffer) (w r l : Z) : byte_buffer :=
  {| write_idx := w; read_idx := r; level := l;
     max_size := max_size buf; used_size := used_size buf; bytes := bytes buf |}.

Definition buf_adjust_readable (buf : byte_buffer) (readable : Z) : option byte_buffer :=
  let l := u32 (cmin readable (used_size buf)) in
  w ← urem (u32 (read_idx buf + l)) (used_size buf);
  Some (set_ring buf w (read_idx buf) l).

Definition buf_queued (buf : byte_buffer) : Z := level buf.

Definition buf_available (buf : byte_buffer) : Z := u32 (used_size buf - level buf).

(** Pointers into [bytes] are offsets. *)
Definition buf_read_pointer (buf : byte_buffer) : Z := read_idx buf.

Definition buf_read_pointer_size (buf : byte_buffer) : Z * Z :=
  (buf_read_pointer buf, buf_readable buf).

Definition buf_increment_read (buf : byte_buffer) (inc : Z) : option byte_buffer :=
  let inc := cmin inc (level buf) in
  r ← urem (u32 (read_idx buf + inc)) (used_size buf);
  Some (set_ring buf (write_idx buf) r (u32 (level buf - inc))).

Definition buf_write_pointer (buf : byte_buffer) : Z := write_idx buf.

Definition buf_write_pointer_size (buf : byte_buffer) : Z * Z :=
  (buf_write_pointer buf, buf_writable buf).

Definition buf_increment_write (buf : byte_buffer) (inc : Z) : option byte_buffer :=
  w ← urem (u32 (write_idx buf + inc)) (used_size buf);
  Some (set_ring buf w (read_idx buf)
          (if u64 (level buf + inc) <? used_size buf then u32 (level buf + inc)
           else used_size buf)).

Definition buf_reset (buf : byte_buffer) : byte_buffer := set_ring buf 0 0 0.

(** What a user does between [buf_write_pointer_size] and
    [buf_increment_write]: it copies [data] to the write pointer. *)
Definition buf_copy_in (buf : byte_buffer) (data : list Z) : option byte_buffer :=
  m ← mem_write (bytes buf) (buf_write_pointer buf) data;
  Some {| write_idx := write_idx buf; read_idx := read_idx buf; level := level buf;
          max_size := max_size buf; used_size := used_size buf; bytes := m |}.

(** ** The FIFO *)

(** The ring is well formed: it holds at most 2 GiB (so that an index plus a
    level does not wrap), both indices are in range, the write index is [level]
    bytes after the read index. *)
Record ring_ok (buf : byte_buffer) : Prop := {
  wf_used : 0 < used_size buf <= max_size buf;
  wf_max : max_size buf <= 2147483648;
  wf_bytes : max_size buf <= Z.of_nat (length (bytes buf));
  wf_level : 0 <= level buf <= used_size buf;
  wf_read : 0 <= read_idx buf < used_size buf;
  wf_write : write_idx buf = (read_idx buf + level buf) mod used_size buf
}.

Definition contents (buf : byte_buffer) : list Z :=
  (fun j : nat => zget (bytes buf) ((read_idx buf + Z.of_nat j) mod used_size buf))
    <$> seq 0 (Z.to_nat (level buf)).

Lemma mod_wrap_once a n : 0 < n -> 0 <= a < 2 * n -> a mod n = if a <? n then a else a - n.
Proof.
  intros Hn Ha. destruct (Z.ltb_spec a n); [apply Z.mod_small; lia|].
  symmetry. apply (Z.mod_unique a n 1 (a - n)); lia.
Qed.

(** The two positions of the write index. *)
Lemma wf_write_cases buf :
  ring_ok buf ->
  write_idx buf = if read_idx buf + level buf <? used_size buf then read_idx buf + level buf
                  else read_idx buf + level buf - used_size buf.
Proof. intros []. rewrite wf_write0. apply mod_wrap_once; lia. Qed.

Lemma length_contents buf : ring_ok buf -> Z.of_nat (length (contents buf)) = level buf.
Proof. intros []. unfold contents. rewrite length_fmap, length_seq. lia. Qed.

Lemma buf_writable_bounds buf :
  ring_ok buf ->
  0 <= buf_writable buf <= buf_available buf /\
  write_idx buf + buf_writable buf <= used_size buf /\
  (0 < buf_available buf -> 0 < buf_writable buf).
Proof.
  intros Hwf. pose proof (wf_write_cases buf Hwf) as Hw. destruct Hwf.
  unfold buf_writable, buf_available. zcases; revert Hw; zcases; intros; unwrap; lia.
Qed.

Lemma buf_readable_bounds buf :
  ring_ok buf ->
  0 <= buf_readable buf <= level buf /\
  read_idx buf + buf_readable buf <= used_size buf /\
  (0 < level buf -> 0 < buf_readable buf).
Proof.
  intros Hwf. pose proof (wf_write_cases buf Hwf) as Hw. destruct Hwf.
  unfold buf_readable. zcases; revert Hw; zcases; intros; unwrap; lia.
Qed.

Lemma buf_increment_read_spec buf inc :
  ring_ok buf -> 0 <= inc ->
  exists buf', buf_increment_read buf inc = Some buf' /\ ring_ok buf' /\
    contents buf' = drop (Z.to_nat inc) (contents buf).
Proof.
  intros [] Hinc. unfold buf_increment_read. rewrite cmin_min.
  set (k := Z.min inc (level buf)). assert (0 <= k <= level buf) by lia.
  unwrap. rewrite urem_Some by lia. simpl. eexists; split; [done|].
  pose proof (Z.mod_pos_bound (read_idx buf + k) (used_size buf) ltac:(lia)).
  split.
  - split; simpl; try lia. rewrite wf_write0, Zplus_mod_idemp_l. f_equal. lia.
  - transitivity (drop (Z.to_nat k) (contents buf)).
    + unfold contents. rewrite drop_fmap_seq by lia. simpl.
      replace (Z.to_nat (level buf - k)) with (Z.to_nat (level buf) - Z.to_nat k)%nat by lia.
      apply fmap_seq_ext. intros j _. rewrite Zplus_mod_idemp_l. do 2 f_equal. lia.
    + destruct (Z.le_gt_cases inc (level buf)); [f_equal; lia|].
      rewrite !drop_ge; [done|..]; unfold contents; rewrite length_fmap, length_seq; lia.
Qed.

Lemma buf_copy_in_spec buf data :
  ring_ok buf -> Z.of_nat (length data) <= buf_writable buf ->
  exists m, buf_copy_in buf data =
    Some {| write_idx := write_idx buf; read_idx := read_idx buf; level := level buf;
            max_size := max_size buf; used_size := used_size buf; bytes := m |} /\
    m = list_inserts (Z.to_nat (write_idx buf)) data (bytes buf).
Proof.
  intros Hwf Hd. pose proof (buf_writable_bounds buf Hwf). destruct Hwf.
  pose proof (Z.mod_pos_bound (read_idx buf + level buf) (used_size buf) ltac:(lia)).
  unfold buf_copy_in, buf_write_pointer. rewrite mem_write_Some by lia. by eexists.
Qed.

(** Ring positions of distinct queue indices are distinct: the bytes at the
    write pointer are none of the queued ones. *)
Lemma ring_pos_free buf j n :
  ring_ok buf -> n <= buf_writable buf -> 0 <= j < level buf ->
  let p := (read_idx buf + j) mod used_size buf in
  0 <= p < used_size buf /\ (p < write_idx buf \/ write_idx buf + n <= p).
Proof.
  intros Hwf Hn Hj p. pose proof (wf_write_cases buf Hwf) as Hw.
  pose proof (buf_writable_bounds buf Hwf) as (_ & Hb & _). destruct Hwf.
  split; [apply Z.mod_pos_bound; lia|].
  unfold p. rewrite mod_wrap_once by lia.
  unfold buf_writable in Hn. revert Hn Hw. zcases; intros; try lia;
    revert Hn; unwrap; intros; lia.
Qed.

Lemma ring_pos_new buf j n :
  ring_ok buf -> n <= buf_writable buf -> 0 <= j < n ->
  (read_idx buf + (level buf + j)) mod used_size buf = write_idx buf + j.
Proof.
  intros Hwf Hn Hj. pose proof (buf_writable_bounds buf Hwf) as (_ & Hb & _). destruct Hwf.
  rewrite Z.add_assoc, <- Zplus_mod_idemp_l, <- wf_write0.
  pose proof (Z.mod_pos_bound (read_idx buf + level buf) (used_size buf) ltac:(lia)).
  apply Z.mod_small. lia.
Qed.

Lemma buf_write_spec buf data :
  ring_ok buf -> Z.of_nat (length data) <= buf_writable buf ->
  exists buf1 buf2, buf_copy_in buf data = Some buf1 /\
    buf_increment_write buf1 (Z.of_nat (length data)) = Some buf2 /\
    ring_ok buf2 /\ contents buf2 = contents buf ++ data.
Proof.
  intros Hwf Hd. destruct (buf_copy_in_spec buf data Hwf Hd) as (m & -> & Hm).
  pose proof (buf_writable_bounds buf Hwf) as (Hav & Hend & _).
  unfold buf_available in Hav. remember (Z.of_nat (length data)) as n eqn:Hn.
  eexists; eexists; split; [done|]. pose proof Hwf as [].
  pose proof (Z.mod_pos_bound (read_idx buf + level buf) (used_size buf) ltac:(lia)).
  rewrite u32_small in Hav by lia.
  unfold buf_increment_write; simpl. unwrap. rewrite urem_Some by lia; simpl.
  assert ((if level buf + n <? used_size buf then level buf + n else used_size buf)
          = level buf + n) as -> by (zcases; lia).
  split; [done|]. split.
  - split; simpl; try lia.
    + rewrite Hm, length_inserts. lia.
    + rewrite wf_write0, Zplus_mod_idemp_l. f_equal. lia.
  - unfold contents; simpl.
    replace (Z.to_nat (level buf + n)) with (Z.to_nat (level buf) + length data)%nat by lia.
    rewrite seq_app, fmap_app. f_equal.
    + apply fmap_seq_ext. intros j Hj. rewrite Hm.
      destruct (ring_pos_free buf (Z.of_nat j) n) as [Hp Hf]; [done|lia..|].
      apply zget_inserts_out; lia.
    + rewrite fmap_seq_shift. etransitivity; [|apply fmap_zget_seq].
      apply fmap_seq_ext. intros j Hj. rewrite Hm.
      replace (Z.of_nat (0 + Z.to_nat (level buf) + j)) with (level buf + Z.of_nat j) by lia.
      rewrite (ring_pos_new buf (Z.of_nat j) n) by (done || lia).
      rewrite zget_inserts_in by lia. f_equal. lia.
Qed.

Lemma byte_buffer_create_wf size :
  0 < size <= 2147483648 ->
  exists buf, byte_buffer_create true size = Some buf /\ ring_ok buf /\
              contents buf = [] /\ buf_available buf = size.
Proof.
  intros Hs. eexists; split; [done|]. unfold buf_available; simpl. unwrap.
  split; [|split; [done|lia]]. split; simpl; try lia.
  - rewrite length_replicate. lia.
  - by rewrite Z.mod_small by lia.
Qed.

Lemma buf_adjust_readable_wf buf n :
  ring_ok buf -> 0 <= n ->
  exists buf', buf_adjust_readable buf n = Some buf' /\ ring_ok buf' /\
    (n <= level buf -> contents buf' = take (Z.to_nat n) (contents buf)).
Proof.
  intros [] Hn. unfold buf_adjust_readable. rewrite cmin_min.
  set (k := Z.min n (used_size buf)). assert (0 <= k <= used_size buf) by lia.
  unwrap. rewrite urem_Some by lia. simpl. eexists; split; [done|]. split.
  - split; simpl; try lia.
  - intros Hle. unfold contents; simpl. rewrite <- fmap_take.
    f_equal. apply list_eq. intros i.
    rewrite lookup_take. case_decide.
    + by rewrite !lookup_seq_lt by lia.
    + by rewrite lookup_seq_ge by lia.
Qed.

(** Claim C19: the byte buffer is a bounded FIFO.  A new buffer is empty; what is
    copied to the write pointer and committed is appended; what is released at
    the read pointer is dropped from the front; the ring stays well formed. *)
Theorem byte_buffer_fifo :
  (forall size, 0 < size <= 2147483648 ->
     exists buf, byte_buffer_create true size = Some buf /\ ring_ok buf /\
                 contents buf = [] /\ buf_available buf = size) /\
  (forall buf data, ring_ok buf -> Z.of_nat (length data) <= buf_writable buf ->
     exists buf1 buf2, buf_copy_in buf data = Some buf1 /\
       buf_increment_write buf1 (Z.of_nat (length data)) = Some buf2 /\
       ring_ok buf2 /\ contents buf2 = contents buf ++ data) /\
  (forall buf n, ring_ok buf -> 0 <= n ->
     exists buf', buf_increment_read buf n = Some buf' /\ ring_ok buf' /\
                  contents buf' = drop (Z.to_nat n) (contents buf)).
Proof.
  split_and!; [apply byte_buffer_create_wf|apply buf_write_spec|apply buf_increment_read_spec].
Qed.

Lemma byte_buffer_fifo_witness :
  exists buf buf1 buf2 buf', byte_buffer_create true 4 = Some buf /\
    buf_copy_in buf [7; 8; 9] = Some buf1 /\ buf_increment_write buf1 3 = Some buf2 /\
    buf_increment_read buf2 2 = Some buf' /\ contents buf' = [9].
Proof.
  destruct byte_buffer_fifo as (Hc & Hw & Hr).
  destruct (Hc 4) as (buf & Hb & Hwf & He & _); [lia|].
  destruct (Hw buf [7; 8; 9]) as (buf1 & buf2 & H1 & H2 & Hwf2 & Hc2).
  { exact Hwf. }
  { injection Hb as <-. vm_compute. discriminate. }
  destruct (Hr buf2 2) as (buf' & H3 & _ & Hc3); [exact Hwf2|lia|].
  exists buf, buf1, buf2, buf'. split_and!; [exact Hb|exact H1|exact H2|exact H3|].
  rewrite Hc3, Hc2, He. reflexivity.
Defined.

(** The bytes between the read pointer and the readable size are the oldest
    bytes of the queue. *)
Lemma buf_read_region buf :
  ring_ok buf ->
  mem_read (bytes buf) (buf_read_pointer buf) (buf_readable buf) =
    Some (take (Z.to_nat (buf_readable buf)) (contents buf)).
Proof.
  intros Hwf. pose proof (buf_readable_bounds buf Hwf) as (Hr & He & _). destruct Hwf.
  unfold buf_read_pointer. rewrite mem_read_Some by lia. f_equal.
  apply list_eq. intros i. rewrite !lookup_take. case_decide as Hi; [|done].
  unfold contents. rewrite list_lookup_fmap, lookup_seq_lt by lia. simpl.
  rewrite lookup_drop, list_lookup_lookup_total_lt by lia. unfold zget. f_equal.
  rewrite Z.mod_small by lia. f_equal. lia.
Qed.

(** The windows the buffer hands out lie inside its memory, neither is
    larger than what is queued or free, they are empty only when nothing is,
    and the readable window holds the oldest queued bytes. *)
Theorem byte_buffer_windows (buf : byte_buffer) :
  ring_ok buf ->
  let '(r, readable) := buf_read_pointer_size buf in
  let '(w, writable) := buf_write_pointer_size buf in
  mem_read (bytes buf) r readable = Some (take (Z.to_nat readable) (contents buf)) /\
  0 <= readable <= buf_queued buf /\ (0 < buf_queued buf -> 0 < readable) /\
  0 <= w /\ w + writable <= Z.of_nat (length (bytes buf)) /\
  0 <= writable <= buf_available buf /\ (0 < buf_available buf -> 0 < writable) /\
  buf_queued buf + buf_available buf = used_size buf.
Proof.
  intros Hwf. simpl. pose proof (buf_readable_bounds buf Hwf). unfold buf_queued.
  pose proof (buf_writable_bounds buf Hwf).
  rewrite buf_read_region by done. pose proof (wf_write_cases buf Hwf). destruct Hwf.
  assert (buf_available buf = used_size buf - level buf) by (apply u32_small; lia).
  pose proof (Z.mod_pos_bound (read_idx buf + level buf) (used_size buf) ltac:(lia)).
  unfold buf_write_pointer. split_and!; try done; lia.
Qed.

Lemma byte_buffer_windows_witness :
  let buf := ByteBuffer 1 3 2 4 4 [5; 6; 7; 8] in
  mem_read (bytes buf) 3 1 = Some (take 1 (contents buf)).
Proof.
  assert (ring_ok (ByteBuffer 1 3 2 4 4 [5; 6; 7; 8])) as H by (split; simpl; lia || reflexivity).
  exact (proj1 (byte_buffer_windows _ H)).
Defined.

(** A release of more than is queued empties the buffer, and a shrink of the
    readable size with [buf_adjust_readable] keeps the oldest bytes. *)
Lemma buf_reset_wf buf : ring_ok buf -> ring_ok (buf_reset buf) /\ contents (buf_reset buf) = [].
Proof. intros []. split; [|done]. split; simpl; try lia. by rewrite Z.mod_small by lia. Qed.

Lemma byte_buffer_set_used_size_wf buf n :
  ring_ok buf -> level buf = 0 -> read_idx buf = 0 -> 0 < n ->
  ring_ok (byte_buffer_set_used_size buf n) /\
  used_size (byte_buffer_set_used_size buf n) = Z.min n (max_size buf) /\
  contents (byte_buffer_set_used_size buf n) = [].
Proof.
  intros [] Hl Hr Hn. unfold byte_buffer_set_used_size, contents; simpl.
  rewrite cmin_min. unwrap. rewrite Hl. split; [|done].
  split; simpl; try lia. rewrite wf_write0, Hl, Hr, !Z.mod_small by lia. done.
Qed.
