(* ===== verification/BufferShare.v ===== *)
(** * Sharing one stream buffer between devices (server/buffer_share.c)

    [struct buffer_share] keeps one [struct id_offset] per attached device in
    an array that grows by doubling and whose slots are reused.  Its contract
    is a finite map from device ids to an offset and a data pointer. *)
From S2P Require Import Prelude.

Record id_offset : Type := IdOffset {
  io_used : Z;
  io_id : Z;
  io_offset : Z;
  io_data : Z
}.

Record buffer_share : Type := BufferShare {
  buf_sz : Z;
  id_sz : Z;
  wr_idx : list id_offset
}.

Definition INITIAL_ID_SIZE : Z := 3.

(** The array the loops run over. *)
Definition slots (mix : buffer_share) : list id_offset :=
  take (Z.to_nat (id_sz mix)) (wr_idx mix).

Definition set_slot (mix : buffer_share) (i : nat) (o : id_offset) : buffer_share :=
  {| buf_sz := buf_sz mix; id_sz := id_sz mix; wr_idx := <[i := o]> (wr_idx mix) |}.

(** The searches return the index of the slot they point to. *)
Definition find_unused (mix : buffer_share) : option (nat * id_offset) :=
  list_find (fun o => io_used o = 0) (slots mix).

Definition find_id (mix : buffer_share) (id : Z) : option (nat * id_offset) :=
  list_find (fun o => io_used o <> 0 /\ id = io_id o) (slots mix).

(** [fresh] is what [realloc] left in the new memory. *)
Definition alloc_more_ids (fresh : nat -> id_offset) (mix : buffer_share) : buffer_share :=
  let new_size := u32 (id_sz mix * 2) in
  {| buf_sz := buf_sz mix;
     id_sz := new_size;
     wr_idx := take (Z.to_nat new_size) (wr_idx mix) ++
       ((fun i => IdOffset 0 (io_id (fresh i)) (io_offset (fresh i)) (io_data (fresh i)))
          <$> seq (Z.to_nat (id_sz mix)) (Z.to_nat (new_size - id_sz mix))) |}.

Definition buffer_share_create (sz : Z) : buffer_share :=
  {| buf_sz := sz;
     id_sz := INITIAL_ID_SIZE;
     wr_idx := replicate (Z.to_nat INITIAL_ID_SIZE) (IdOffset 0 0 0 0) |}.

(** Returns the error code and the buffer; [None] is a use of [NULL]. *)
Definition buffer_share_add_id (fresh : nat -> id_offset) (mix : buffer_share)
    (id dat : Z) : option (Z * buffer_share) :=
  match find_id mix id with
  | Some _ => Some (- EEXIST, mix)
  | None =>
    let mix := match find_unused mix with
               | Some _ => mix
               | None => alloc_more_ids fresh mix
               end in
    '(i, _) ← find_unused mix;
    Some (0, set_slot mix i (IdOffset 1 id 0 dat))
  end.

Definition buffer_share_rm_id (mix : buffer_share) (id : Z) : Z * buffer_share :=
  match find_id mix id with
  | None => (- ENOENT, mix)
  | Some (i, o) => (0, set_slot mix i (IdOffset 0 (io_id o) (io_offset o) 0))
  end.

(** The first slot with the id is updated, used or not. *)
Definition buffer_share_offset_update (mix : buffer_share) (id delta : Z) : Z * buffer_share :=
  match list_find (fun o => id = io_id o) (slots mix) with
  | Some (i, o) =>
    (0, set_slot mix i (IdOffset (io_used o) (io_id o) (u32 (io_offset o + delta)) (io_data o)))
  | None => (0, mix)
  end.

Definition min_written (mix : buffer_share) : Z :=
  foldl (fun m o => if io_used o =? 0 then m else cmin m (io_offset o))
        (u32 (buf_sz mix + 1)) (slots mix).

Definition sub_offset (m : Z) (o : id_offset) : id_offset :=
  IdOffset (io_used o) (io_id o) (u32 (io_offset o - m)) (io_data o).

Definition buffer_share_get_new_write_point (mix : buffer_share) : Z * buffer_share :=
  let m := min_written mix in
  let mix' := {| buf_sz := buf_sz mix; id_sz := id_sz mix;
                 wr_idx := (sub_offset m <$> slots mix) ++
                           drop (Z.to_nat (id_sz mix)) (wr_idx mix) |} in
  (if m >? buf_sz mix then 0 else m, mix').

Definition get_id_offset (mix : buffer_share) (id : Z) : option id_offset :=
  snd <$> list_find (fun o => io_used o <> 0 /\ io_id o = id) (slots mix).

Definition buffer_share_id_offset (mix : buffer_share) (id : Z) : Z :=
  match get_id_offset mix id with Some o => io_offset o | None => 0 end.

(** [0] is [NULL]. *)
Definition buffer_share_get_data (mix : buffer_share) (id : Z) : Z :=
  match get_id_offset mix id with Some o => io_data o | None => 0 end.

(** ** The representation invariant *)

Record share_ok (mix : buffer_share) : Prop := {
  wf_size : id_sz mix = Z.of_nat (length (wr_idx mix));
  wf_pos : 0 < id_sz mix < 4294967296;
  wf_range : 0 <= buf_sz mix < 4294967295;
  wf_offset : forall i o, wr_idx mix !! i = Some o -> io_used o <> 0 -> is_u32 (io_offset o);
  (** No slot before a used one carries its id, not even a stale one: this is
      why [buffer_share_offset_update] may ignore [used]. *)
  wf_first : forall i j oi oj, (i < j)%nat -> wr_idx mix !! i = Some oi ->
    wr_idx mix !! j = Some oj -> io_used oj <> 0 -> io_id oi <> io_id oj
}.

(** ** The contract: a map from device ids to offset and data *)

Definition entry (o : id_offset) : option (Z * (Z * Z)) :=
  if io_used o =? 0 then None else Some (io_id o, (io_offset o, io_data o)).

Definition share (mix : buffer_share) : gmap Z (Z * Z) :=
  list_to_map (omap entry (wr_idx mix)).

Lemma slots_all mix : share_ok mix -> slots mix = wr_idx mix.
Proof. intros []. unfold slots. apply take_ge. lia. Qed.

Lemma list_to_map_lookup (l : list id_offset) x :
  (list_to_map (omap entry l) : gmap Z (Z * Z)) !! x =
    (fun p => (io_offset p.2, io_data p.2)) <$> list_find (fun o => io_used o <> 0 /\ io_id o = x) l.
Proof.
  induction l as [|o l IH]; [done|]. cbn [omap list_omap list_find].
  unfold entry at 1. destruct (Z.eqb_spec (io_used o) 0) as [Hu|Hu]; simpl.
  - case_decide; [tauto|]. change (list_omap _ _ entry l) with (omap entry l).
    rewrite IH. by destruct (list_find _ l) as [[]|].
  - change (list_omap _ _ entry l) with (omap entry l).
    destruct (decide (io_id o = x)) as [->|Hne].
    + rewrite lookup_insert_eq. by case_decide; [|tauto].
    + rewrite lookup_insert_ne by done. case_decide; [tauto|].
      rewrite IH. by destruct (list_find _ l) as [[]|].
Qed.

(** Lookups in the map are the searches of the code. *)
Lemma share_lookup mix x :
  share_ok mix -> share mix !! x = (fun o => (io_offset o, io_data o)) <$> get_id_offset mix x.
Proof.
  intros Hwf. unfold share, get_id_offset. rewrite slots_all, list_to_map_lookup by done.
  by destruct (list_find _ _) as [[]|].
Qed.

(** A device id is mapped exactly when some used slot carries it. *)
Lemma share_Some mix x v :
  share_ok mix ->
  share mix !! x = Some v <->
  exists i o, wr_idx mix !! i = Some o /\ io_used o <> 0 /\ io_id o = x /\ (io_offset o, io_data o) = v.
Proof.
  intros Hwf. unfold share. rewrite list_to_map_lookup, fmap_Some. split.
  - intros ([i o] & (Hi & [Hu Hx] & _)%list_find_Some & ->). by exists i, o.
  - intros (i & o & Hi & Hu & Hx & <-). exists (i, o). split; [|done].
    apply list_find_Some. split_and!; [done..|].
    intros j y Hj Hlt [Hu' Hx']. destruct Hwf. eapply (wf_first0 j i y o); [lia|done..|congruence].
Qed.

Lemma find_id_None mix id :
  share_ok mix -> find_id mix id = None <-> share mix !! id = None.
Proof.
  intros Hwf. unfold find_id. rewrite share_lookup, fmap_None by done.
  unfold get_id_offset. rewrite fmap_None, !list_find_None.
  by rewrite !Forall_forall; split; intros H o Ho [Hu Hx]; apply (H o Ho).
Qed.

Lemma find_id_Some mix id i o :
  share_ok mix -> find_id mix id = Some (i, o) ->
  wr_idx mix !! i = Some o /\ io_used o <> 0 /\ io_id o = id /\
  share mix !! id = Some (io_offset o, io_data o).
Proof.
  intros Hwf Hf. unfold find_id in Hf. rewrite slots_all in Hf by done.
  apply list_find_Some in Hf as (Hi & [Hu Hx] & _).
  split_and!; [done..|]. apply share_Some; [done|]. by exists i, o.
Qed.

(** ** Writing one slot *)

Lemma set_slot_wf mix i o' :
  share_ok mix -> (io_used o' <> 0 -> is_u32 (io_offset o')) ->
  (forall j oj, wr_idx mix !! j = Some oj -> (j < i)%nat -> io_used o' <> 0 -> io_id oj <> io_id o') ->
  (forall j oj, wr_idx mix !! j = Some oj -> (i < j)%nat -> io_used oj <> 0 -> io_id o' <> io_id oj) ->
  share_ok (set_slot mix i o').
Proof.
  intros [] Ho Hlt Hgt. split; simpl; try done.
  - by rewrite length_insert.
  - intros j o [(-> & <- & _)|[_ Hj]]%list_lookup_insert_Some; eauto.
  - intros j k oj ok Hjk [(-> & <- & _)|[_ Hj]]%list_lookup_insert_Some
      [(<- & <- & _)|[_ Hk]]%list_lookup_insert_Some; eauto; lia.
Qed.

(** A used slot written over an unused one, or over one with the same id. *)
Lemma set_slot_insert mix i o o' :
  share_ok mix -> share_ok (set_slot mix i o') -> wr_idx mix !! i = Some o -> io_used o' <> 0 ->
  io_used o = 0 /\ share mix !! io_id o' = None \/ io_used o <> 0 /\ io_id o = io_id o' ->
  share (set_slot mix i o') = <[io_id o' := (io_offset o', io_data o')]> (share mix).
Proof.
  intros Hwf Hwf' Hi Hu Ho. apply map_eq. intros x. apply option_eq. intros v.
  rewrite share_Some by done. rewrite lookup_insert_Some, share_Some by done. simpl. split.
  - intros (j & oj & [(-> & <- & _)|[Hne Hj]]%list_lookup_insert_Some & Huj & Hx & Hv);
      [by left|right]. split; [|by exists j, oj].
    destruct Ho as [[_ Hn]|[Huo Heq]].
    + intros <-. apply eq_None_not_Some in Hn. apply Hn. exists v. apply share_Some; [done|].
      by exists j, oj.
    + subst x. rewrite <- Heq. destruct Hwf.
      destruct (Nat.lt_total i j) as [Hlt|[?|Hlt]]; [|done|].
      * by apply (wf_first0 i j o oj).
      * intros Heq'. by apply (wf_first0 j i oj o).
  - intros [[<- <-]|(Hne & j & oj & Hj & Huj & Hx & Hv)].
    + exists i, o'. rewrite list_lookup_insert_eq by (by eapply lookup_lt_Some). done.
    + exists j, oj. split; [|done]. rewrite list_lookup_insert_ne; [done|].
      intros ->. assert (o = oj) as -> by congruence. destruct Ho as [[??]|[_ Heq]]; congruence.
Qed.

(** An unused slot written over a used one. *)
Lemma set_slot_delete mix i o o' :
  share_ok mix -> share_ok (set_slot mix i o') -> wr_idx mix !! i = Some o -> io_used o <> 0 ->
  io_used o' = 0 -> share (set_slot mix i o') = delete (io_id o) (share mix).
Proof.
  intros Hwf Hwf' Hi Hu Hu'. apply map_eq. intros x. apply option_eq. intros v.
  rewrite share_Some by done. rewrite lookup_delete_Some, share_Some by done. simpl. split.
  - intros (j & oj & [(-> & <- & _)|[Hne Hj]]%list_lookup_insert_Some & Huj & Hx & Hv); [done|].
    split; [|by exists j, oj]. subst x. destruct Hwf.
    destruct (Nat.lt_total i j) as [Hlt|[?|Hlt]]; [|done|].
    + by apply (wf_first0 i j o oj).
    + intros Heq. by apply (wf_first0 j i oj o).
  - intros (Hne & j & oj & Hj & Huj & Hx & Hv). exists j, oj. split; [|done].
    rewrite list_lookup_insert_ne; [done|]. intros ->. congruence.
Qed.

(** An unused slot written over an unused one is invisible. *)
Lemma set_slot_unused mix i o o' :
  share_ok mix -> share_ok (set_slot mix i o') -> wr_idx mix !! i = Some o -> io_used o = 0 ->
  io_used o' = 0 -> share (set_slot mix i o') = share mix.
Proof.
  intros Hwf Hwf' Hi Hu Hu'. apply map_eq. intros x. apply option_eq. intros v.
  rewrite !share_Some by done. simpl. split.
  - intros (j & oj & [(-> & <- & _)|[Hne Hj]]%list_lookup_insert_Some & Huj & Hx & Hv); [done|].
    by exists j, oj.
  - intros (j & oj & Hj & Huj & Hx & Hv). exists j, oj. split; [|done].
    rewrite list_lookup_insert_ne; [done|]. intros ->. congruence.
Qed.

(** ** The operations *)

Lemma buffer_share_create_spec sz :
  0 <= sz < 4294967295 ->
  share_ok (buffer_share_create sz) /\ share (buffer_share_create sz) = ∅ /\
  buf_sz (buffer_share_create sz) = sz.
Proof.
  intros Hsz. split_and!; [|done|done]. split; simpl; try done.
  - intros [|[|[|]]] o; simpl; intros; by simplify_eq/=.
  - intros i [|[|[|]]] oi oj; simpl; intros ??; intros; simplify_eq/=.
Qed.

Lemma alloc_more_ids_spec fresh mix :
  share_ok mix -> id_sz mix < 2147483648 ->
  share_ok (alloc_more_ids fresh mix) /\ share (alloc_more_ids fresh mix) = share mix /\
  id_sz (alloc_more_ids fresh mix) = 2 * id_sz mix /\
  exists o, wr_idx (alloc_more_ids fresh mix) !! Z.to_nat (id_sz mix) = Some o /\ io_used o = 0.
Proof.
  intros Hwf Hlt. pose proof Hwf as [].
  set (blank := fun i => IdOffset 0 (io_id (fresh i)) (io_offset (fresh i)) (io_data (fresh i))).
  assert (wr_idx (alloc_more_ids fresh mix) =
    wr_idx mix ++ (blank <$> seq (Z.to_nat (id_sz mix)) (Z.to_nat (id_sz mix)))) as Hwr.
  { simpl. unwrap. f_equal; [apply take_ge; lia|]. do 2 f_equal. lia. }
  assert (forall j o, wr_idx (alloc_more_ids fresh mix) !! j = Some o -> io_used o <> 0 ->
            wr_idx mix !! j = Some o) as Hold.
  { intros j o Hj Hu. rewrite Hwr in Hj. apply lookup_app_Some in Hj as [?|[_ Hj]]; [done|].
    rewrite list_lookup_fmap in Hj. destruct (seq _ _ !! _); simplify_eq/=. }
  assert (share_ok (alloc_more_ids fresh mix)) as Hwf'.
  { split; try done.
    - rewrite Hwr, length_app, length_fmap, length_seq. simpl. unwrap. lia.
    - simpl. unwrap. lia.
    - eauto.
    - intros i j oi oj Hij Hi Hj Hu. apply Hold in Hj; [|done].
      pose proof (lookup_lt_Some _ _ _ Hj). rewrite Hwr, lookup_app_l in Hi by lia. eauto. }
  split_and!; [done| | |].
  - apply map_eq. intros x. apply option_eq. intros v. rewrite !share_Some by done.
    split; intros (j & o & Hj & Hu & ?); exists j, o.
    + split; [by apply Hold|done].
    + split; [|done]. rewrite Hwr. by apply lookup_app_l_Some.
  - simpl. unwrap. lia.
  - exists (blank (Z.to_nat (id_sz mix))). split; [|done].
    rewrite Hwr, lookup_app_r by lia.
    rewrite list_lookup_fmap, lookup_seq_lt by lia. simpl. do 2 f_equal. lia.
Qed.

(** Filling the first unused slot of an array where the id is not in use. *)
Lemma fill_unused_spec mix i o id dat :
  share_ok mix -> find_unused mix = Some (i, o) -> share mix !! id = None ->
  share_ok (set_slot mix i (IdOffset 1 id 0 dat)) /\
  share (set_slot mix i (IdOffset 1 id 0 dat)) = <[id := (0, dat)]> (share mix).
Proof.
  intros Hwf Hf Hn. unfold find_unused in Hf. rewrite slots_all in Hf by done.
  apply list_find_Some in Hf as (Hi & Hu & Hbefore).
  assert (forall j oj, wr_idx mix !! j = Some oj -> io_used oj <> 0 -> io_id oj <> id) as Hfree.
  { intros j oj Hj Huj <-. apply eq_None_not_Some in Hn. apply Hn.
    eexists. apply share_Some; [done|]. by exists j, oj. }
  assert (share_ok (set_slot mix i (IdOffset 1 id 0 dat))) as Hwf'.
  { apply set_slot_wf; [done|by unfold is_u32; simpl; lia|..].
    - intros j oj Hj Hlt _. simpl. eapply Hfree; [done|]. by eapply Hbefore.
    - intros j oj Hj _ Huj. simpl. apply not_eq_sym. by eapply Hfree. }
  split; [done|]. by apply (set_slot_insert mix i o (IdOffset 1 id 0 dat)); auto.
Qed.

Lemma find_unused_Some mix i o :
  share_ok mix -> wr_idx mix !! i = Some o -> io_used o = 0 -> is_Some (find_unused mix).
Proof.
  intros Hwf Hi Hu. unfold find_unused. rewrite slots_all by done.
  destruct (list_find _ _) as [?|] eqn:Hf; [done|].
  apply list_find_None in Hf. rewrite Forall_lookup in Hf. by destruct (Hf i o Hi).
Qed.

Lemma buffer_share_add_id_spec fresh mix id dat :
  share_ok mix -> id_sz mix < 2147483648 ->
  (share mix !! id <> None -> buffer_share_add_id fresh mix id dat = Some (- EEXIST, mix)) /\
  (share mix !! id = None -> exists mix', buffer_share_add_id fresh mix id dat = Some (0, mix') /\
     share_ok mix' /\ share mix' = <[id := (0, dat)]> (share mix) /\ buf_sz mix' = buf_sz mix).
Proof.
  intros Hwf Hlt. unfold buffer_share_add_id. split; intros Hid.
  { destruct (find_id mix id) eqn:Hf; [done|]. by apply find_id_None in Hf. }
  pose proof Hid as Hid'. apply find_id_None in Hid as ->; [|done].
  destruct (find_unused mix) as [[i o]|] eqn:Hf.
  - rewrite Hf. simpl. destruct (fill_unused_spec mix i o id dat) as [??]; [done..|].
    by eexists.
  - destruct (alloc_more_ids_spec fresh mix) as (Hwf' & Hsh & _ & o & Ho & Hu); [done..|].
    destruct (find_unused_Some _ _ _ Hwf' Ho Hu) as [[i oi] Hi]. rewrite Hi. simpl.
    destruct (fill_unused_spec _ i oi id dat Hwf' Hi) as [??]; [by rewrite Hsh|].
    rewrite <- Hsh. by eexists.
Qed.

(** A table without a free slot has a device in each. *)
Lemma full_table_size mix :
  share_ok mix -> find_unused mix = None -> id_sz mix = Z.of_nat (size (share mix)).
Proof.
  intros Hwf Hf. unfold find_unused in Hf. rewrite slots_all in Hf by done. apply list_find_None in Hf.
  pose proof Hwf as []. unfold share.
  assert (Hall : omap entry (wr_idx mix) = (fun o => (io_id o, (io_offset o, io_data o))) <$> wr_idx mix).
  { clear -Hf. induction Hf as [|o l Ho _ IH]; [done|]. csimpl.
    unfold entry at 1. destruct (Z.eqb_spec (io_used o) 0); [done|]. by f_equal. }
  rewrite Hall, map_size_list_to_map; [by rewrite length_fmap|].
  rewrite <- list_fmap_compose. apply NoDup_alt. intros i j y Hi Hj.
  rewrite list_lookup_fmap in Hi, Hj. apply fmap_Some in Hi as (oi & Hi & ->). apply fmap_Some in Hj as (oj & Hj & Heq).
  simpl in Heq. rewrite Forall_lookup in Hf.
  destruct (Nat.lt_total i j) as [Hlt|[?|Hlt]]; [|done|].
  - destruct (wf_first0 i j oi oj Hlt Hi Hj); [|done]. intros Hu. by apply (Hf j oj Hj).
  - destruct (wf_first0 j i oj oi Hlt Hj Hi); [|done]. intros Hu. by apply (Hf i oi Hi).
Qed.

(** A table grows only when it is full. *)
Lemma add_id_room fresh mix id dat rc mix' :
  share_ok mix -> id_sz mix < 2147483648 -> buffer_share_add_id fresh mix id dat = Some (rc, mix') ->
  id_sz mix' = id_sz mix \/ id_sz mix' = 2 * id_sz mix /\ id_sz mix = Z.of_nat (size (share mix)).
Proof.
  intros Hwf Hlt. unfold buffer_share_add_id. destruct (find_id mix id); [intros [= <- <-]; by left|].
  destruct (find_unused mix) as [[i o]|] eqn:Hf.
  - rewrite Hf. intros [= <- <-]. by left.
  - pose proof (alloc_more_ids_spec fresh mix Hwf Hlt) as (_ & _ & Hsz & _).
    destruct (find_unused (alloc_more_ids fresh mix)) as [[i o]|]; [|done]. intros [= <- <-].
    right. split; [exact Hsz|by apply full_table_size].
Qed.

Lemma buffer_share_rm_id_spec mix id :
  share_ok mix ->
  let '(rc, mix') := buffer_share_rm_id mix id in
  rc = (if decide (share mix !! id = None) then - ENOENT else 0) /\
  share_ok mix' /\ share mix' = delete id (share mix) /\ buf_sz mix' = buf_sz mix /\
  id_sz mix' = id_sz mix.
Proof.
  intros Hwf. unfold buffer_share_rm_id. destruct (find_id mix id) as [[i o]|] eqn:Hf.
  - apply find_id_Some in Hf as (Hi & Hu & <- & Hs); [|done].
    rewrite decide_False by (by rewrite Hs).
    assert (share_ok (set_slot mix i (IdOffset 0 (io_id o) (io_offset o) 0))) as Hwf'.
    { apply set_slot_wf; [done|done|done|]. simpl. intros j oj Hj Hlt Huj. destruct Hwf. eauto. }
    split_and!; [done|done| |done|done]. by apply (set_slot_delete mix i o).
  - apply find_id_None in Hf; [|done]. rewrite decide_True by done.
    split_and!; [done|done| |done|done]. by rewrite delete_id.
Qed.

Lemma buffer_share_offset_update_spec mix id delta :
  share_ok mix ->
  let '(rc, mix') := buffer_share_offset_update mix id delta in
  rc = 0 /\ share_ok mix' /\
  share mix' = alter (fun v => (u32 (v.1 + delta), v.2)) id (share mix) /\
  buf_sz mix' = buf_sz mix /\ id_sz mix' = id_sz mix.
Proof.
  intros Hwf. unfold buffer_share_offset_update. rewrite slots_all by done.
  destruct (list_find _ _) as [[i o]|] eqn:Hf.
  - apply list_find_Some in Hf as (Hi & -> & Hbefore).
    set (o' := IdOffset (io_used o) (io_id o) (u32 (io_offset o + delta)) (io_data o)).
    assert (share_ok (set_slot mix i o')) as Hwf'.
    { pose proof Hwf as []. apply set_slot_wf; simpl; eauto with cras. }
    split_and!; [done|done| |done|done].
    destruct (decide (io_used o = 0)) as [Hu|Hu].
    + rewrite (set_slot_unused mix i o o') by done. symmetry. apply alter_id'.
      destruct (share mix !! io_id o) as [v|] eqn:Hs; [|done].
      apply share_Some in Hs as (j & oj & Hj & Huj & Hx & _); [|done].
      destruct (Nat.lt_total i j) as [Hlt|[->|Hlt]]; [|congruence|].
      * pose proof Hwf as []. by destruct (wf_first0 i j o oj).
      * by destruct (Hbefore j oj Hj Hlt).
    + rewrite (set_slot_insert mix i o o') by auto.
      assert (share mix !! io_id o = Some (io_offset o, io_data o)) as Hs.
      { apply share_Some; [done|]. by exists i, o. }
      apply map_eq. intros x. rewrite lookup_insert, lookup_alter. simpl.
      case_decide; [|done]. subst x. by rewrite Hs.
  - split_and!; [done|done| |done|done]. symmetry. apply alter_id'.
    destruct (share mix !! id) as [v|] eqn:Hs; [|done].
    apply share_Some in Hs as (j & oj & Hj & Huj & Hx & _); [|done].
    apply list_find_None in Hf. rewrite Forall_lookup in Hf. by destruct (Hf j oj Hj).
Qed.

(** The least offset of a used slot, or one more than the buffer size. *)
Lemma min_written_spec mix :
  share_ok mix ->
  min_written mix <= buf_sz mix + 1 /\ 0 <= min_written mix /\
  (forall i o, wr_idx mix !! i = Some o -> io_used o <> 0 -> min_written mix <= io_offset o) /\
  (min_written mix = buf_sz mix + 1 \/
   exists i o, wr_idx mix !! i = Some o /\ io_used o <> 0 /\ io_offset o = min_written mix).
Proof.
  intros Hwf. unfold min_written. rewrite slots_all by done.
  destruct Hwf. rewrite u32_small by lia. clear wf_first0 wf_size0 wf_pos0.
  revert wf_offset0. generalize (wr_idx mix). intros l.
  induction l as [|o l IH] using rev_ind; intros Hoff; simpl.
  { split_and!; [lia|lia|intros i o Ho; by rewrite lookup_nil in Ho|by left]. }
  rewrite foldl_snoc. set (m := foldl _ _ l) in *.
  destruct IH as (Hle & Hpos & Hmin & Hex).
  { intros i o' Hi. apply (Hoff i). by apply lookup_app_l_Some. }
  assert (forall i o', (l ++ [o]) !! i = Some o' -> l !! i = Some o' \/ o' = o) as Hcase.
  { intros i o' [?|[_ Hi]]%lookup_app_Some; [by left|right].
    destruct (i - length l)%nat; simplify_eq/=. done. }
  assert ((l ++ [o]) !! length l = Some o) as Hlast.
  { rewrite lookup_app_r, Nat.sub_diag by lia. done. }
  destruct (Z.eqb_spec (io_used o) 0) as [Hu|Hu].
  - split_and!; [done|done| |].
    + intros i o' [Hi| ->]%Hcase Hu'; [eauto|done].
    + destruct Hex as [?|(i & o' & Hi & ?)]; [by left|right]. exists i, o'.
      split; [|done]. by apply lookup_app_l_Some.
  - rewrite cmin_min. pose proof (Hoff _ _ Hlast Hu) as []. split_and!; [lia|lia| |].
    + intros i o' [Hi| ->]%Hcase Hu'; [|lia]. pose proof (Hmin _ _ Hi Hu'). lia.
    + destruct (Z.min_spec m (io_offset o)) as [[_ ->]|[_ ->]]; [|right; by exists (length l), o].
      destruct Hex as [?|(i & o' & Hi & ?)]; [by left|right]. exists i, o'.
      split; [|done]. by apply lookup_app_l_Some.
Qed.

Lemma get_new_write_point_spec mix :
  share_ok mix ->
  let '(n, mix') := buffer_share_get_new_write_point mix in
  n = (if min_written mix >? buf_sz mix then 0 else min_written mix) /\
  share_ok mix' /\
  share mix' = (fun v => (v.1 - min_written mix, v.2)) <$> share mix /\
  buf_sz mix' = buf_sz mix /\ id_sz mix' = id_sz mix.
Proof.
  intros Hwf. unfold buffer_share_get_new_write_point. rewrite slots_all by done.
  pose proof (min_written_spec mix Hwf) as (_ & Hpos & Hmin & _). pose proof Hwf as [].
  rewrite drop_ge, app_nil_r by lia. set (m := min_written mix) in *.
  set (mix' := BufferShare _ _ _).
  assert (forall i o, wr_idx mix !! i = Some o -> io_used o <> 0 ->
            sub_offset m o = IdOffset (io_used o) (io_id o) (io_offset o - m) (io_data o)) as Hsub.
  { intros i o Hi Hu. unfold sub_offset. pose proof (Hmin i o Hi Hu).
    pose proof (wf_offset0 i o Hi Hu) as []. by unwrap. }
  assert (forall i o', wr_idx mix' !! i = Some o' ->
            exists o, wr_idx mix !! i = Some o /\ o' = sub_offset m o) as Hback.
  { intros i o'. simpl. rewrite list_lookup_fmap. intros (o & Hi & ->)%fmap_Some. by exists o. }
  assert (share_ok mix') as Hwf'.
  { split; simpl; try done.
    - by rewrite length_fmap.
    - intros i o' (o & Hi & ->)%Hback _. simpl. auto with cras.
    - intros i j oi oj Hij (oi' & Hi & ->)%Hback (oj' & Hj & ->)%Hback. simpl. eauto. }
  split_and!; [done|done| |done|done].
  apply map_eq. intros x. apply option_eq. intros v.
  rewrite lookup_fmap, fmap_Some, share_Some by done. split.
  - intros (i & o' & (o & Hi & ->)%Hback & Hu & Hx & <-). simpl in *.
    exists (io_offset o, io_data o). split; [apply share_Some; [done|]; by exists i, o|].
    pose proof (Hmin i o Hi Hu). pose proof (wf_offset0 i o Hi Hu) as []. simpl. by unwrap.
  - intros (w & (i & o & Hi & Hu & Hx & <-)%share_Some & ->); [|done]. simpl.
    exists i, (sub_offset m o). simpl. rewrite list_lookup_fmap, Hi. simpl.
    pose proof (Hmin i o Hi Hu). pose proof (wf_offset0 i o Hi Hu) as [].
    split_and!; [done..|]. by unwrap.
Qed.

(** ** The interface the stream layer is verified against *)

(** A table of users of one shared buffer: its operations, the finite map it
    stands for, and the laws that tie the two. *)
Class OffsetTable (T : Type) : Type := {
  ot_ok : T -> Prop;
  ot_users : T -> gmap Z (Z * Z);
  ot_limit : T -> Z;
  ot_room : T -> Prop;
  ot_add : (nat -> id_offset) -> T -> Z -> Z -> option (Z * T);
  ot_rm : T -> Z -> Z * T;
  ot_update : T -> Z -> Z -> Z * T;
  ot_write_point : T -> Z * T;
  ot_offset : T -> Z -> Z;
  ot_data : T -> Z -> Z;
  ot_add_old fresh t id d : ot_ok t -> ot_room t -> ot_users t !! id <> None ->
    ot_add fresh t id d = Some (- EEXIST, t);
  ot_add_new fresh t id d : ot_ok t -> ot_room t -> ot_users t !! id = None ->
    exists t', ot_add fresh t id d = Some (0, t') /\ ot_ok t' /\
      ot_users t' = <[id := (0, d)]> (ot_users t) /\ ot_limit t' = ot_limit t;
  ot_rm_law t id : ot_ok t -> let '(rc, t') := ot_rm t id in
    rc = (if decide (ot_users t !! id = None) then - ENOENT else 0) /\
    ot_ok t' /\ ot_users t' = delete id (ot_users t) /\ ot_limit t' = ot_limit t;
  ot_update_law t id n : ot_ok t -> let '(rc, t') := ot_update t id n in
    rc = 0 /\ ot_ok t' /\
    ot_users t' = alter (fun v => (u32 (v.1 + n), v.2)) id (ot_users t) /\
    ot_limit t' = ot_limit t;
  (** The write point is the least offset; it is taken off every offset. *)
  ot_write_point_law t : ot_ok t ->
    (forall id v, ot_users t !! id = Some v -> v.1 <= ot_limit t) ->
    let '(n, t') := ot_write_point t in
    ot_ok t' /\ ot_limit t' = ot_limit t /\
    (ot_users t = ∅ -> n = 0 /\ ot_users t' = ∅) /\
    (ot_users t <> ∅ -> (exists id d, ot_users t !! id = Some (n, d)) /\
       (forall id v, ot_users t !! id = Some v -> n <= v.1) /\
       ot_users t' = (fun v => (v.1 - n, v.2)) <$> ot_users t);
  ot_offset_law t id : ot_ok t ->
    ot_offset t id = match ot_users t !! id with Some v => v.1 | None => 0 end;
  ot_data_law t id : ot_ok t ->
    ot_data t id = match ot_users t !! id with Some v => v.2 | None => 0 end;
  ot_range t id v : ot_ok t -> ot_users t !! id = Some v -> is_u32 v.1
}.

Lemma write_point_least mix :
  share_ok mix -> (forall id v, share mix !! id = Some v -> v.1 <= buf_sz mix) ->
  let '(n, mix') := buffer_share_get_new_write_point mix in
  share_ok mix' /\ buf_sz mix' = buf_sz mix /\
  (share mix = ∅ -> n = 0 /\ share mix' = ∅) /\
  (share mix <> ∅ -> (exists id d, share mix !! id = Some (n, d)) /\
     (forall id v, share mix !! id = Some v -> n <= v.1) /\
     share mix' = (fun v => (v.1 - n, v.2)) <$> share mix).
Proof.
  intros Hwf Hle. pose proof (get_new_write_point_spec mix Hwf) as Hspec.
  destruct (buffer_share_get_new_write_point mix) as [n mix'].
  destruct Hspec as (-> & Hwf' & Hsh & Hsz & _).
  pose proof (min_written_spec mix Hwf) as (Hb & _ & Hmin & Hex).
  split_and!; [done|done| |].
  - intros He. rewrite Hsh, He, fmap_empty. split; [|done].
    destruct Hex as [->|(i & o & Hi & Hu & _)]; [zcases; [done|lia]|exfalso].
    assert (share mix !! io_id o = Some (io_offset o, io_data o)) as Hs.
    { apply share_Some; [done|]. by exists i, o. }
    by rewrite He in Hs.
  - intros Hne. apply map_choose in Hne as (x & v & Hv).
    pose proof Hv as (i & o & Hi & Hu & Hx & Ho)%share_Some; [|done].
    assert (min_written mix <= buf_sz mix) as Hm.
    { pose proof (Hmin i o Hi Hu). pose proof (Hle x v Hv). subst v; simpl in *; lia. }
    rewrite Z.gtb_ltb. destruct (Z.ltb_spec (buf_sz mix) (min_written mix)); [lia|].
    split_and!; [| |done].
    + destruct Hex as [?|(j & oj & Hj & Huj & Heq)]; [lia|].
      exists (io_id oj), (io_data oj). apply share_Some; [done|]. exists j, oj.
      by rewrite <- Heq.
    + intros y w (j & oj & Hj & Huj & _ & <-)%share_Some; [|done]. eauto.
Qed.

#[export, refine] Instance buffer_share_table : OffsetTable buffer_share := {|
  ot_ok := share_ok;
  ot_users := share;
  ot_limit := buf_sz;
  ot_room := fun mix => id_sz mix < 2147483648;
  ot_add := buffer_share_add_id;
  ot_rm := buffer_share_rm_id;
  ot_update := buffer_share_offset_update;
  ot_write_point := buffer_share_get_new_write_point;
  ot_offset := buffer_share_id_offset;
  ot_data := buffer_share_get_data
|}.
Proof.
  - intros. by apply buffer_share_add_id_spec.
  - intros. by apply buffer_share_add_id_spec.
  - intros t id Hwf. pose proof (buffer_share_rm_id_spec t id Hwf) as H.
    destruct (buffer_share_rm_id t id). naive_solver.
  - intros t id n Hwf. pose proof (buffer_share_offset_update_spec t id n Hwf) as H.
    destruct (buffer_share_offset_update t id n). naive_solver.
  - apply write_point_least.
  - intros t id Hwf. rewrite share_lookup by done. unfold buffer_share_id_offset.
    by destruct (get_id_offset t id).
  - intros t id Hwf. rewrite share_lookup by done. unfold buffer_share_get_data.
    by destruct (get_id_offset t id).
  - intros t id v Hwf (i & o & Hi & Hu & _ & <-)%share_Some; [|done].
    simpl. destruct Hwf. eauto.
Defined.

(** Claim C12: the slot array implements a map.  Adding an id that is in the map
    fails and changes nothing; adding a new one, growing the array if it is
    full, maps it to offset 0; removing deletes, and reports an id that was
    not there. *)
Theorem buffer_share_refines_map (fresh : nat -> id_offset) (mix : buffer_share) (id dat : Z) :
  share_ok mix -> id_sz mix < 2147483648 ->
  (share mix !! id <> None -> buffer_share_add_id fresh mix id dat = Some (- EEXIST, mix)) /\
  (share mix !! id = None -> exists mix', buffer_share_add_id fresh mix id dat = Some (0, mix') /\
     share_ok mix' /\ share mix' = <[id := (0, dat)]> (share mix)) /\
  (let '(rc, mix') := buffer_share_rm_id mix id in
   rc = (if decide (share mix !! id = None) then - ENOENT else 0) /\
   share_ok mix' /\ share mix' = delete id (share mix)) /\
  buffer_share_id_offset mix id = match share mix !! id with Some v => v.1 | None => 0 end /\
  buffer_share_get_data mix id = match share mix !! id with Some v => v.2 | None => 0 end.
Proof.
  intros Hwf Hlt. pose proof (buffer_share_add_id_spec fresh mix id dat Hwf Hlt) as [? Hadd].
  pose proof (buffer_share_rm_id_spec mix id Hwf) as Hrm.
  destruct (buffer_share_rm_id mix id).
  split; [done|]. split; [naive_solver|]. split; [naive_solver|].
  split; [exact (ot_offset_law mix id Hwf)|exact (ot_data_law mix id Hwf)].
Qed.

Definition share_example : buffer_share :=
  {| buf_sz := 480; id_sz := 3;
     wr_idx := [IdOffset 1 7 10 70; IdOffset 0 8 20 0; IdOffset 1 9 30 90] |}.

Lemma share_example_wf : share_ok share_example.
Proof.
  split; simpl; try lia.
  - intros [|[|[|]]] o ? ?; simplify_eq/=; unfold is_u32; lia.
  - intros [|[|[|]]] [|[|[|]]] oi oj ? ? ? ?; simplify_eq/=; lia.
Qed.

Lemma buffer_share_refines_map_witness :
  buffer_share_add_id (fun _ => IdOffset 1 5 6 7) share_example 9 1
    = Some (- EEXIST, share_example) /\
  exists mix', buffer_share_add_id (fun _ => IdOffset 1 5 6 7) share_example 8 1 = Some (0, mix') /\
     share_ok mix' /\ share mix' = <[8 := (0, 1)]> (share share_example).
Proof.
  split.
  - apply (buffer_share_refines_map (fun _ => IdOffset 1 5 6 7) share_example 9 1);
      [apply share_example_wf|reflexivity|by vm_compute].
  - apply (buffer_share_refines_map (fun _ => IdOffset 1 5 6 7) share_example 8 1);
      [apply share_example_wf|reflexivity|by vm_compute].
Defined.

(** Although [buffer_share_offset_update] takes the first slot with
    the id whether it is in use or not, it advances exactly the live entry of
    the id, and nothing when the id is not shared. *)
Theorem offset_update_hits_live (mix : buffer_share) (id delta : Z) :
  share_ok mix ->
  let '(rc, mix') := buffer_share_offset_update mix id delta in
  rc = 0 /\ share_ok mix' /\
  share mix' = alter (fun v => (u32 (v.1 + delta), v.2)) id (share mix).
Proof.
  intros Hwf. pose proof (buffer_share_offset_update_spec mix id delta Hwf) as H.
  destruct (buffer_share_offset_update mix id delta). naive_solver.
Qed.

Lemma offset_update_hits_live_witness :
  (let '(rc, mix') := buffer_share_offset_update share_example 9 5 in
   rc = 0 /\ share_ok mix' /\
   share mix' = alter (fun v => (u32 (v.1 + 5), v.2)) 9 (share share_example)) /\
  share (buffer_share_offset_update share_example 9 5).2 !! 9 = Some (35, 90).
Proof.
  split; [|by vm_compute].
  exact (offset_update_hits_live share_example 9 5 share_example_wf).
Defined.

(** The new write point is the least offset of the devices, zero when
    there are none, and is taken off every device's offset. *)
Theorem write_point_is_least (mix : buffer_share) :
  share_ok mix -> (forall id v, share mix !! id = Some v -> v.1 <= buf_sz mix) ->
  let '(n, mix') := buffer_share_get_new_write_point mix in
  share_ok mix' /\
  (share mix = ∅ -> n = 0 /\ share mix' = ∅) /\
  (share mix <> ∅ -> (exists id d, share mix !! id = Some (n, d)) /\
     (forall id v, share mix !! id = Some v -> n <= v.1) /\
     share mix' = (fun v => (v.1 - n, v.2)) <$> share mix).
Proof.
  intros Hwf Hle. pose proof (write_point_least mix Hwf Hle) as H.
  destruct (buffer_share_get_new_write_point mix). naive_solver.
Qed.

Lemma write_point_is_least_witness :
  (let '(n, mix') := buffer_share_get_new_write_point share_example in
   share mix' = (fun v => (v.1 - n, v.2)) <$> share share_example) /\
  (buffer_share_get_new_write_point share_example).1 = 10.
Proof.
  split; [|by vm_compute].
  refine (proj2 (proj2 (proj2 (proj2 (write_point_is_least share_example share_example_wf _)) _))).
  - intros id v (i & o & Hi & Hu & _ & <-)%share_Some; [|apply share_example_wf].
    destruct i as [|[|[|]]]; simplify_eq/=; lia.
  - by vm_compute.
Defined.
