(* ===== verification/Shm.v ===== *)
(** * The audio shared memory (common/cras_shm.h)

    One stream is exchanged between a client and the server through two shared
    regions: a header, which both sides write, and the samples, a pair of
    buffers used in turn.  [cras_audio_shm] keeps a private copy of the size
    configuration; everything read from the header is checked against it.

    Pointers into the samples are offsets.  [None] is undefined behaviour: a
    division by zero, or an access outside the mapped samples. *)
From S2P Require Import Prelude Float32 Timespec.
#[local] Open Scope Z_scope.

Definition CRAS_NUM_SHM_BUFFERS : Z := 2.
Definition CRAS_SHM_BUFFERS_MASK : Z := CRAS_NUM_SHM_BUFFERS - 1.

(** An array of [CRAS_NUM_SHM_BUFFERS] elements, indexed after masking. *)
Record buf2 (A : Type) : Type := Buf2 { buf_a : A; buf_b : A }.
Arguments Buf2 {A} _ _.
Arguments buf_a {A} _.
Arguments buf_b {A} _.

Definition sel {A} (i : Z) (b : buf2 A) : A := if i =? 0 then buf_a b else buf_b b.
Definition upd {A} (i : Z) (v : A) (b : buf2 A) : buf2 A :=
  if i =? 0 then Buf2 v (buf_b b) else Buf2 (buf_a b) v.

Record cras_audio_shm_config : Type := ShmConfig { used_size : Z; frame_bytes : Z }.

Record cras_audio_shm_header : Type := ShmHeader {
  h_config : cras_audio_shm_config;
  read_buf_idx : Z;
  write_buf_idx : Z;
  read_offset : buf2 Z;
  write_offset : buf2 Z;
  write_in_progress : buf2 Z;
  volume_scaler : spec_float;
  mute : Z;
  callback_pending : Z;
  num_overruns : Z;
  ts : timespec;
  buffer_offset : buf2 Z
}.

(** [samples_length] is [samples_info.length], the size of the mapping. *)
Record cras_audio_shm : Type := AudioShm {
  config : cras_audio_shm_config;
  header : cras_audio_shm_header;
  samples_length : Z;
  samples : list Z
}.

(** ** Assignments to one field of the shared state *)

Definition with_header (shm : cras_audio_shm)
    (f : cras_audio_shm_header -> cras_audio_shm_header) : cras_audio_shm :=
  {| config := config shm; header := f (header shm);
     samples_length := samples_length shm; samples := samples shm |}.

Definition with_samples (shm : cras_audio_shm) (m : list Z) : cras_audio_shm :=
  {| config := config shm; header := header shm;
     samples_length := samples_length shm; samples := m |}.

Definition with_config (shm : cras_audio_shm) (c : cras_audio_shm_config) : cras_audio_shm :=
  {| config := c; header := header shm;
     samples_length := samples_length shm; samples := samples shm |}.

Definition set_offsets (ro wo : buf2 Z) (h : cras_audio_shm_header) : cras_audio_shm_header :=
  {| h_config := h_config h; read_buf_idx := read_buf_idx h; write_buf_idx := write_buf_idx h;
     read_offset := ro; write_offset := wo; write_in_progress := write_in_progress h;
     volume_scaler := volume_scaler h; mute := mute h; callback_pending := callback_pending h;
     num_overruns := num_overruns h; ts := ts h; buffer_offset := buffer_offset h |}.

Definition set_read_buf_idx (i : Z) (h : cras_audio_shm_header) : cras_audio_shm_header :=
  {| h_config := h_config h; read_buf_idx := i; write_buf_idx := write_buf_idx h;
     read_offset := read_offset h; write_offset := write_offset h;
     write_in_progress := write_in_progress h;
     volume_scaler := volume_scaler h; mute := mute h; callback_pending := callback_pending h;
     num_overruns := num_overruns h; ts := ts h; buffer_offset := buffer_offset h |}.

(** [write_buf_idx] and [write_in_progress], the writer's state. *)
Definition set_writer (i : Z) (wip : buf2 Z) (h : cras_audio_shm_header) : cras_audio_shm_header :=
  {| h_config := h_config h; read_buf_idx := read_buf_idx h; write_buf_idx := i;
     read_offset := read_offset h; write_offset := write_offset h; write_in_progress := wip;
     volume_scaler := volume_scaler h; mute := mute h; callback_pending := callback_pending h;
     num_overruns := num_overruns h; ts := ts h; buffer_offset := buffer_offset h |}.

(** The scalar controls: volume, mute, pending callback, overruns, time. *)
Definition set_controls (v : spec_float) (m p n : Z) (t : timespec)
    (h : cras_audio_shm_header) : cras_audio_shm_header :=
  {| h_config := h_config h; read_buf_idx := read_buf_idx h; write_buf_idx := write_buf_idx h;
     read_offset := read_offset h; write_offset := write_offset h;
     write_in_progress := write_in_progress h;
     volume_scaler := v; mute := m; callback_pending := p;
     num_overruns := n; ts := t; buffer_offset := buffer_offset h |}.

Definition set_geometry (c : cras_audio_shm_config) (bo : buf2 Z)
    (h : cras_audio_shm_header) : cras_audio_shm_header :=
  {| h_config := c; read_buf_idx := read_buf_idx h; write_buf_idx := write_buf_idx h;
     read_offset := read_offset h; write_offset := write_offset h;
     write_in_progress := write_in_progress h;
     volume_scaler := volume_scaler h; mute := mute h; callback_pending := callback_pending h;
     num_overruns := num_overruns h; ts := ts h; buffer_offset := bo |}.

(** ** The functions of the header file *)

Definition cras_shm_calculate_samples_size (used : Z) : Z := u32 (used * CRAS_NUM_SHM_BUFFERS).

Definition cras_shm_get_checked_buffer_offset (shm : cras_audio_shm) (buf_idx : Z) : Z :=
  let boff := u32 (sel buf_idx (buffer_offset (header shm))) in
  u32 (cmin boff (samples_length shm)).

Definition cras_shm_buff_for_idx (shm : cras_audio_shm) (idx : Z) : Z :=
  let idx := Z.land idx CRAS_SHM_BUFFERS_MASK in
  cras_shm_get_checked_buffer_offset shm idx.

Definition cras_shm_get_checked_read_offset (shm : cras_audio_shm) (buf_idx : Z) : Z :=
  let boff := cras_shm_get_checked_buffer_offset shm buf_idx in
  let roff := sel buf_idx (read_offset (header shm)) in
  if roff >? used_size (config shm) then 0
  else if u32 (boff + roff) >? samples_length shm then 0
  else roff.

Definition cras_shm_get_checked_write_offset (shm : cras_audio_shm) (buf_idx : Z) : Z :=
  let woff := sel buf_idx (write_offset (header shm)) in
  let boff := cras_shm_get_checked_buffer_offset shm buf_idx in
  let woff := cmin woff (used_size (config shm)) in
  if u32 (boff + woff) >? samples_length shm then u32 (samples_length shm - boff)
  else woff.

Definition cras_shm_get_curr_read_frames (shm : cras_audio_shm) : option Z :=
  let buf_idx := Z.land (read_buf_idx (header shm)) CRAS_SHM_BUFFERS_MASK in
  let roff := cras_shm_get_checked_read_offset shm buf_idx in
  let woff := cras_shm_get_checked_write_offset shm buf_idx in
  if roff >? woff then Some 0
  else udiv (u32 (woff - roff)) (frame_bytes (config shm)).

Definition cras_shm_get_read_buffer_base (shm : cras_audio_shm) : Z :=
  let i := Z.land (read_buf_idx (header shm)) CRAS_SHM_BUFFERS_MASK in
  cras_shm_buff_for_idx shm i.

Definition cras_shm_get_write_buffer_base (shm : cras_audio_shm) : Z :=
  let i := Z.land (write_buf_idx (header shm)) CRAS_SHM_BUFFERS_MASK in
  cras_shm_buff_for_idx shm i.

(** The pointer returned, and what is stored in [*frames]. *)
Definition cras_shm_get_writeable_frames (shm : cras_audio_shm) (limit_frames : Z)
    : option (Z * Z) :=
  let buf_idx := Z.land (write_buf_idx (header shm)) CRAS_SHM_BUFFERS_MASK in
  let woff := cras_shm_get_checked_write_offset shm buf_idx in
  written ← udiv woff (frame_bytes (config shm));
  let frames := if limit_frames >=? written then u32 (limit_frames - written) else 0 in
  Some (cras_shm_buff_for_idx shm buf_idx + woff, frames).

(** The pointer ([None] for [NULL]) and what is stored in [*frames]. *)
Definition cras_shm_get_readable_frames (shm : cras_audio_shm) (off : Z)
    : option (option Z * Z) :=
  let buf_idx := Z.land (read_buf_idx (header shm)) CRAS_SHM_BUFFERS_MASK in
  let roff := cras_shm_get_checked_read_offset shm buf_idx in
  let woff := cras_shm_get_checked_write_offset shm buf_idx in
  let final := u32 (u64 (roff + u64 (off * frame_bytes (config shm)))) in
  let '(buf_idx, final, woff) :=
    if final >=? woff then
      let buf_idx := Z.land (u32 (buf_idx + 1)) CRAS_SHM_BUFFERS_MASK in
      (buf_idx, u32 (final - woff), cras_shm_get_checked_write_offset shm buf_idx)
    else (buf_idx, final, woff) in
  if final >=? woff then Some (None, 0)
  else
    frames ← udiv (u32 (woff - final)) (frame_bytes (config shm));
    Some (Some (cras_shm_buff_for_idx shm buf_idx + final), frames).

(** Bytes queued in buffer [i], in the loop of [cras_shm_get_bytes_queued]. *)
Definition bytes_in_buffer (shm : cras_audio_shm) (i : Z) : Z :=
  let roff := cmin (sel i (read_offset (header shm))) (used_size (config shm)) in
  let woff := cmin (sel i (write_offset (header shm))) (used_size (config shm)) in
  if woff >? roff then u32 (woff - roff) else 0.

Definition cras_shm_get_bytes_queued (shm : cras_audio_shm) : Z :=
  foldl (fun total i => u64 (total + bytes_in_buffer shm i)) 0 [0; 1].

Definition cras_shm_get_frames (shm : cras_audio_shm) : option Z :=
  let bytes := cras_shm_get_bytes_queued shm in
  r ← urem bytes (frame_bytes (config shm));
  if negb (r =? 0) then Some (- EIO)
  else s32 <$> udiv bytes (frame_bytes (config shm)).

Definition cras_shm_get_frames_in_curr_buffer (shm : cras_audio_shm) : option Z :=
  let buf_idx := Z.land (read_buf_idx (header shm)) CRAS_SHM_BUFFERS_MASK in
  let roff := cmin (sel buf_idx (read_offset (header shm))) (used_size (config shm)) in
  let woff := cmin (sel buf_idx (write_offset (header shm))) (used_size (config shm)) in
  if woff <=? roff then Some 0
  else udiv (u32 (woff - roff)) (frame_bytes (config shm)).

Definition cras_shm_is_buffer_available (shm : cras_audio_shm) : bool :=
  let buf_idx := Z.land (write_buf_idx (header shm)) CRAS_SHM_BUFFERS_MASK in
  sel buf_idx (write_offset (header shm)) =? 0.

Definition cras_shm_get_num_writeable (shm : cras_audio_shm) : option Z :=
  if negb (cras_shm_is_buffer_available shm) then Some 0
  else udiv (used_size (config shm)) (frame_bytes (config shm)).

(** Returns the overrun flag. *)
Definition cras_shm_check_write_overrun (shm : cras_audio_shm)
    : option (Z * cras_audio_shm) :=
  let i := Z.land (write_buf_idx (header shm)) CRAS_SHM_BUFFERS_MASK in
  let h := header shm in
  if sel i (write_in_progress h) =? 0 then
    let used := used_size (config shm) in
    let over := negb (sel i (write_offset h) =? 0) in
    m ← mem_write (samples shm) (cras_shm_buff_for_idx shm i) (replicate (Z.to_nat used) 0);
    let n := if over then u32 (num_overruns h + 1) else num_overruns h in
    let shm := with_header (with_samples shm m) (fun h =>
      set_controls (volume_scaler h) (mute h) (callback_pending h) n (ts h)
        (set_writer (write_buf_idx h) (upd i 1 (write_in_progress h))
          (set_offsets (read_offset h) (upd i 0 (write_offset h)) h))) in
    Some (c_bool over, shm)
  else Some (0, shm).

Definition cras_shm_buffer_written (shm : cras_audio_shm) (frames : Z) : cras_audio_shm :=
  let i := Z.land (write_buf_idx (header shm)) CRAS_SHM_BUFFERS_MASK in
  if frames =? 0 then shm
  else with_header shm (fun h =>
    set_offsets (upd i 0 (read_offset h))
      (upd i (u32 (sel i (write_offset h) + u64 (frames * frame_bytes (config shm))))
         (write_offset h)) h).

Definition cras_shm_frames_written (shm : cras_audio_shm) : option Z :=
  let i := Z.land (write_buf_idx (header shm)) CRAS_SHM_BUFFERS_MASK in
  udiv (sel i (write_offset (header shm))) (frame_bytes (config shm)).

Definition cras_shm_buffer_write_complete (shm : cras_audio_shm) : cras_audio_shm :=
  let i := Z.land (write_buf_idx (header shm)) CRAS_SHM_BUFFERS_MASK in
  with_header shm (fun h =>
    set_writer (Z.land (i + 1) CRAS_SHM_BUFFERS_MASK) (upd i 0 (write_in_progress h)) h).

Definition cras_shm_buffer_written_start (shm : cras_audio_shm) (frames : Z) : cras_audio_shm :=
  let i := Z.land (write_buf_idx (header shm)) CRAS_SHM_BUFFERS_MASK in
  cras_shm_buffer_write_complete
    (with_header shm (fun h =>
       set_offsets (upd i 0 (read_offset h))
         (upd i (u32 (u64 (frames * frame_bytes (config shm)))) (write_offset h)) h)).

Definition cras_shm_buffer_read (shm : cras_audio_shm) (frames : Z) : cras_audio_shm :=
  let i := Z.land (read_buf_idx (header shm)) CRAS_SHM_BUFFERS_MASK in
  if frames =? 0 then shm
  else with_header shm (fun h =>
    let ro := upd i (u32 (sel i (read_offset h) + u64 (frames * frame_bytes (config shm))))
                (read_offset h) in
    let wo := write_offset h in
    if sel i ro >=? sel i wo then
      let remainder := u32 (sel i ro - sel i wo) in
      let ro := upd i 0 ro in
      let wo := upd i 0 wo in
      let i := Z.land (i + 1) CRAS_SHM_BUFFERS_MASK in
      if remainder <? sel i wo then
        set_read_buf_idx i (set_offsets (upd i remainder ro) wo h)
      else if negb (remainder =? 0) then
        set_read_buf_idx (Z.land (i + 1) CRAS_SHM_BUFFERS_MASK)
          (set_offsets ro (upd i 0 wo) h)
      else set_read_buf_idx i (set_offsets ro wo h)
    else set_offsets ro wo h).

Definition cras_shm_buffer_read_current (shm : cras_audio_shm) (frames : Z) : cras_audio_shm :=
  let i := Z.land (read_buf_idx (header shm)) CRAS_SHM_BUFFERS_MASK in
  with_header shm (fun h =>
    let ro := upd i (u32 (sel i (read_offset h) + u64 (frames * frame_bytes (config shm))))
                (read_offset h) in
    let wo := write_offset h in
    if sel i ro >=? sel i wo then
      set_read_buf_idx (Z.land (i + 1) CRAS_SHM_BUFFERS_MASK)
        (set_offsets (upd i 0 ro) (upd i 0 wo) h)
    else set_offsets ro wo h).

(** The comparisons with [0.0] and [1.0] are made in [double], which holds
    every [float] exactly. *)
Definition cras_shm_set_volume_scaler (shm : cras_audio_shm) (v : spec_float) : cras_audio_shm :=
  let v := if SFltb float_zero v then v else float_zero in
  let v := if SFltb v float_one then v else float_one in
  with_header shm (fun h =>
    set_controls v (mute h) (callback_pending h) (num_overruns h) (ts h) h).

Definition cras_shm_get_volume_scaler (shm : cras_audio_shm) : spec_float :=
  volume_scaler (header shm).

Definition cras_shm_set_mute (shm : cras_audio_shm) (m : Z) : cras_audio_shm :=
  with_header shm (fun h =>
    set_controls (volume_scaler h) (c_bool (negb (m =? 0))) (callback_pending h)
      (num_overruns h) (ts h) h).

Definition cras_shm_get_mute (shm : cras_audio_shm) : Z := u64 (mute (header shm)).

Definition cras_shm_set_frame_bytes (shm : cras_audio_shm) (fb : Z) : cras_audio_shm :=
  let shm := with_config shm (ShmConfig (used_size (config shm)) fb) in
  with_header shm (fun h =>
    set_geometry (ShmConfig (used_size (h_config h)) fb) (buffer_offset h) h).

Definition cras_shm_set_callback_pending (shm : cras_audio_shm) (pending : Z) : cras_audio_shm :=
  with_header shm (fun h =>
    set_controls (volume_scaler h) (mute h) (c_bool (negb (pending =? 0)))
      (num_overruns h) (ts h) h).

Definition cras_shm_callback_pending (shm : cras_audio_shm) : Z := callback_pending (header shm).

Definition cras_shm_set_buffer_offset (shm : cras_audio_shm) (buf_idx off : Z) : cras_audio_shm :=
  with_header shm (fun h =>
    set_geometry (h_config h) (upd buf_idx off (buffer_offset h)) h).

Definition cras_shm_set_used_size (shm : cras_audio_shm) (used : Z) : cras_audio_shm :=
  let shm := with_config shm (ShmConfig used (frame_bytes (config shm))) in
  let shm := with_header shm (fun h =>
    set_geometry (ShmConfig used (frame_bytes (h_config h))) (buffer_offset h) h) in
  foldl (fun shm i => cras_shm_set_buffer_offset shm i (u32 (i * used))) shm [0; 1].

Definition cras_shm_used_frames (shm : cras_audio_shm) : option Z :=
  udiv (used_size (config shm)) (frame_bytes (config shm)).

Definition cras_shm_samples_size (shm : cras_audio_shm) : Z := samples_length shm.

Definition cras_shm_num_overruns (shm : cras_audio_shm) : Z := num_overruns (header shm).

Definition cras_shm_copy_shared_config (shm : cras_audio_shm) : cras_audio_shm :=
  with_config shm (h_config (header shm)).

(** ** Indices and arrays *)

Definition is_idx (i : Z) : Prop := i = 0 \/ i = 1.

Lemma mask_mod i : Z.land i CRAS_SHM_BUFFERS_MASK = i mod 2.
Proof. change CRAS_SHM_BUFFERS_MASK with (Z.ones 1). by rewrite Z.land_ones. Qed.

Lemma mask_idx i : is_idx (Z.land i CRAS_SHM_BUFFERS_MASK).
Proof. rewrite mask_mod. unfold is_idx. pose proof (Z.mod_pos_bound i 2). lia. Qed.

Lemma mask_id i : is_idx i -> Z.land i CRAS_SHM_BUFFERS_MASK = i.
Proof. by intros [-> | ->]. Qed.

Lemma mask_next i : is_idx i -> Z.land (i + 1) CRAS_SHM_BUFFERS_MASK = 1 - i.
Proof. by intros [-> | ->]. Qed.

Lemma mask_next_u32 i : is_idx i -> Z.land (u32 (i + 1)) CRAS_SHM_BUFFERS_MASK = 1 - i.
Proof. by intros [-> | ->]. Qed.

Lemma idx_other i : is_idx i -> is_idx (1 - i).
Proof. intros [-> | ->]; unfold is_idx; lia. Qed.

Lemma sel_upd {A} i (v : A) b : sel i (upd i v b) = v.
Proof. unfold sel, upd. by destruct (Z.eqb_spec i 0). Qed.

Lemma sel_upd_other {A} i (v : A) b : is_idx i -> sel (1 - i) (upd i v b) = sel (1 - i) b.
Proof. by intros [-> | ->]. Qed.

Lemma sel_upd_this {A} i (v : A) b : is_idx i -> sel i (upd (1 - i) v b) = sel i b.
Proof. by intros [-> | ->]. Qed.

#[export] Hint Resolve mask_idx idx_other : cras.

(** ** What the server may trust

    The private configuration and the mapped length are the server's own. *)
Record shm_sane (shm : cras_audio_shm) : Prop := {
  sane_frame : 0 < frame_bytes (config shm) < 4294967296;
  sane_used : 0 <= used_size (config shm);
  sane_length : 0 <= samples_length shm;
  sane_sum : samples_length shm + used_size (config shm) < 4294967296;
  sane_samples : Z.of_nat (length (samples shm)) = samples_length shm
}.

(** The header is whatever a client wrote: only the field widths are known. *)
Definition header_typed (h : cras_audio_shm_header) : Prop :=
  forall i, is_u32 (sel i (read_offset h)) /\ is_u32 (sel i (write_offset h)) /\
            is_u64 (sel i (buffer_offset h)).

Section Untrusted.
Context (shm : cras_audio_shm) (Hsane : shm_sane shm) (Hh : header_typed (header shm)).

Lemma checked_buffer_offset_range i :
  0 <= cras_shm_get_checked_buffer_offset shm i <= samples_length shm.
Proof.
  destruct Hsane. unfold cras_shm_get_checked_buffer_offset.
  pose proof (u32_range (sel i (buffer_offset (header shm)))) as []. rewrite cmin_min. unwrap. lia.
Qed.

Lemma checked_read_offset_range i :
  0 <= cras_shm_get_checked_read_offset shm i <= used_size (config shm) /\
  cras_shm_get_checked_buffer_offset shm i + cras_shm_get_checked_read_offset shm i
    <= samples_length shm.
Proof.
  pose proof (checked_buffer_offset_range i) as Hb. destruct (Hh i) as ([] & _).
  destruct Hsane. unfold cras_shm_get_checked_read_offset.
  set (b := cras_shm_get_checked_buffer_offset shm i) in *. clearbody b.
  zcases; try lia. rewrite u32_small in * by lia. lia.
Qed.

Lemma checked_write_offset_range i :
  0 <= cras_shm_get_checked_write_offset shm i <= used_size (config shm) /\
  cras_shm_get_checked_buffer_offset shm i + cras_shm_get_checked_write_offset shm i
    <= samples_length shm.
Proof.
  pose proof (checked_buffer_offset_range i) as Hb. destruct (Hh i) as (_ & [] & _).
  destruct Hsane. unfold cras_shm_get_checked_write_offset. rewrite cmin_min.
  set (b := cras_shm_get_checked_buffer_offset shm i) in *. clearbody b.
  set (w := Z.min _ _). assert (0 <= w <= used_size (config shm)) by lia. clearbody w.
  unwrap. zcases; lia.
Qed.

Lemma buff_for_idx_checked i :
  is_idx i -> cras_shm_buff_for_idx shm i = cras_shm_get_checked_buffer_offset shm i.
Proof. intros Hi. unfold cras_shm_buff_for_idx. by rewrite mask_id. Qed.

(** The end of a window of whole frames below a checked write offset. *)
Lemma frames_window i final :
  is_idx i -> 0 <= final < cras_shm_get_checked_write_offset shm i ->
  let n := (cras_shm_get_checked_write_offset shm i - final) / frame_bytes (config shm) in
  let p := cras_shm_buff_for_idx shm i + final in
  0 <= n /\ 0 <= p /\ p + n * frame_bytes (config shm) <= samples_length shm.
Proof.
  intros Hi Hf n p. unfold p. rewrite buff_for_idx_checked by done.
  pose proof (checked_write_offset_range i). pose proof (checked_buffer_offset_range i).
  destruct Hsane. unfold n. set (fb := frame_bytes (config shm)) in *.
  set (w := cras_shm_get_checked_write_offset shm i) in *.
  pose proof (Z.div_pos (w - final) fb). pose proof (Z.mul_div_le (w - final) fb). lia.
Qed.

(** Claim C2: whatever the header holds, the readable window handed out lies
    inside the mapped samples, and asking for it never divides by zero. *)
Theorem readable_frames_safe (off : Z) :
  is_u64 off ->
  exists p n, cras_shm_get_readable_frames shm off = Some (p, n) /\
    match p with
    | None => n = 0
    | Some p => exists bytes, 0 <= n /\
        mem_read (samples shm) p (n * frame_bytes (config shm)) = Some bytes
    end.
Proof.
  intros Hoff. unfold cras_shm_get_readable_frames.
  set (i := Z.land (read_buf_idx (header shm)) CRAS_SHM_BUFFERS_MASK).
  assert (is_idx i) as Hi by apply mask_idx. clearbody i.
  set (final := u32 (u64 _)). pose proof (u32_range (u64
    (cras_shm_get_checked_read_offset shm i + u64 (off * frame_bytes (config shm))))) as Hfin.
  fold final in Hfin. clearbody final. unfold is_u32 in Hfin.
  pose proof (checked_write_offset_range i). pose proof (checked_write_offset_range (1 - i)).
  rewrite !mask_next_u32 by done.
  destruct Hsane. rewrite !Z.geb_leb.
  assert (forall j f, is_idx j -> 0 <= f < cras_shm_get_checked_write_offset shm j ->
    exists p n, (frames ← udiv (u32 (cras_shm_get_checked_write_offset shm j - f))
                            (frame_bytes (config shm));
                 Some (Some (cras_shm_buff_for_idx shm j + f), frames)) = Some (p, n) /\
      match p with
      | None => n = 0
      | Some p => exists bytes, 0 <= n /\
          mem_read (samples shm) p (n * frame_bytes (config shm)) = Some bytes
      end) as Hwin.
  { intros j f Hj Hf. pose proof (checked_write_offset_range j).
    pose proof (frames_window j f Hj Hf) as (Hn & Hp & He).
    rewrite udiv_Some by lia. simpl. unwrap. eexists; eexists; split; [done|].
    simpl. eexists; split; [done|]. apply mem_read_Some; [done| |lia]. nia. }
  destruct (Z.leb_spec (cras_shm_get_checked_write_offset shm i) final); cbn beta iota.
  - rewrite Z.geb_leb, (u32_small (final - _)) by lia.
    destruct (Z.leb_spec (cras_shm_get_checked_write_offset shm (1 - i))
               (final - cras_shm_get_checked_write_offset shm i)).
    + by exists None, 0.
    + apply Hwin; [by apply idx_other|lia].
  - rewrite Z.geb_leb.
    destruct (Z.leb_spec (cras_shm_get_checked_write_offset shm i) final); [lia|].
    apply Hwin; [done|lia].
Qed.
End Untrusted.

Definition hostile_shm : cras_audio_shm :=
  {| config := ShmConfig 8 4;
     header := {| h_config := ShmConfig 99 0; read_buf_idx := 7; write_buf_idx := 5;
                  read_offset := Buf2 3 6; write_offset := Buf2 4294967295 4294967295;
                  write_in_progress := Buf2 0 0; volume_scaler := S754_nan; mute := 9;
                  callback_pending := 1; num_overruns := 4294967295; ts := Timespec 0 0;
                  buffer_offset := Buf2 0 12 |};
     samples_length := 16; samples := replicate 16 1 |}.

Lemma hostile_shm_sane : shm_sane hostile_shm /\ header_typed (header hostile_shm).
Proof.
  split; [split; simpl; lia|].
  intros i. unfold sel; simpl. destruct (i =? 0); unfold is_u32, is_u64; lia.
Qed.

Lemma readable_frames_safe_witness :
  exists p n, cras_shm_get_readable_frames hostile_shm 1 = Some (p, n) /\
    match p with
    | None => n = 0
    | Some p => exists bytes, 0 <= n /\
        mem_read (samples hostile_shm) p (n * frame_bytes (config hostile_shm)) = Some bytes
    end.
Proof.
  apply (readable_frames_safe hostile_shm (proj1 hostile_shm_sane) (proj2 hostile_shm_sane) 1).
  unfold is_u64. lia.
Defined.

(** [cras_shm_check_write_overrun] starts a write in the current
    buffer: it does nothing while one is in progress, otherwise it clears the
    buffer, empties it and counts an overrun if it held unread data; but it
    clears [used_size] bytes from a buffer offset that is only known to lie in
    the samples, and leaves them when the offset is less than [used_size] from
    their end. *)
Theorem check_write_overrun_spec (shm : cras_audio_shm) :
  shm_sane shm -> header_typed (header shm) ->
  let h := header shm in
  let i := Z.land (write_buf_idx h) CRAS_SHM_BUFFERS_MASK in
  let boff := cras_shm_get_checked_buffer_offset shm i in
  (sel i (write_in_progress h) <> 0 -> cras_shm_check_write_overrun shm = Some (0, shm)) /\
  (sel i (write_in_progress h) = 0 -> boff + used_size (config shm) <= samples_length shm ->
   exists shm', cras_shm_check_write_overrun shm =
       Some (c_bool (negb (sel i (write_offset h) =? 0)), shm') /\
     sel i (write_offset (header shm')) = 0 /\
     sel i (write_in_progress (header shm')) = 1 /\
     num_overruns (header shm') =
       (if sel i (write_offset h) =? 0 then num_overruns h else u32 (num_overruns h + 1)) /\
     slice (samples shm') boff (boff + used_size (config shm)) =
       replicate (Z.to_nat (used_size (config shm))) 0 /\
     (forall a b, 0 <= a <= b -> b <= boff \/ boff + used_size (config shm) <= a ->
        slice (samples shm') a b = slice (samples shm) a b) /\
     (forall j, is_idx j -> j <> i ->
        sel j (write_offset (header shm')) = sel j (write_offset h))) /\
  (sel i (write_in_progress h) = 0 -> samples_length shm < boff + used_size (config shm) ->
   cras_shm_check_write_overrun shm = None).
Proof.
  intros Hsane Hh h i boff. assert (is_idx i) as Hi by apply mask_idx.
  pose proof (checked_buffer_offset_range shm Hsane i) as Hb. fold boff in Hb.
  destruct Hsane. unfold cras_shm_check_write_overrun. fold h. fold i.
  rewrite buff_for_idx_checked by done. fold boff.
  split_and!.
  - intros Hp. by destruct (Z.eqb_spec (sel i (write_in_progress h)) 0).
  - intros -> Hfit. simpl. rewrite mem_write_Some by (rewrite ?length_replicate; lia).
    simpl. eexists; split; [done|]. simpl. rewrite !sel_upd.
    split; [done|]. split; [done|].
    split; [by destruct (sel i (write_offset h) =? 0)|].
    split.
    + rewrite <- (Z2Nat.id (used_size (config shm))) at 2 by lia.
      rewrite <- (length_replicate (Z.to_nat (used_size (config shm))) 0) at 2.
      apply slice_inserts_in; rewrite ?length_replicate; lia.
    + split.
      * intros a b Hab Hd. apply slice_inserts_out; rewrite ?length_replicate; lia.
      * intros j Hj Hne. destruct Hi as [Hi|Hi], Hj as [Hj|Hj]; rewrite Hi, Hj in *; done.
  - intros -> Hout. simpl. unfold mem_write. rewrite length_replicate.
    zcases; try lia; done.
Qed.

Lemma check_write_overrun_spec_witness :
  cras_shm_check_write_overrun hostile_shm = None /\
  exists shm', cras_shm_check_write_overrun
      (with_header hostile_shm (set_writer 0 (Buf2 0 0))) = Some (1, shm').
Proof.
  split.
  - apply (check_write_overrun_spec hostile_shm (proj1 hostile_shm_sane) (proj2 hostile_shm_sane));
      [reflexivity|vm_compute; reflexivity].
  - by eexists; vm_compute.
Defined.

(** ** The two buffers as one queue

    With both sides honest, the samples written and not yet read are those of
    the read buffer followed by those of the other one. *)

(** The unread bytes of buffer [i]. *)
Definition unread (shm : cras_audio_shm) (i : Z) : list Z :=
  let base := sel i (buffer_offset (header shm)) in
  slice (samples shm) (base + sel i (read_offset (header shm)))
                      (base + sel i (write_offset (header shm))).

Definition queued (shm : cras_audio_shm) : list Z :=
  let r := read_buf_idx (header shm) in unread shm r ++ unread shm (1 - r).

(** The geometry the server sets up: two disjoint buffers in the samples. *)
Record geometry_ok (shm : cras_audio_shm) : Prop := {
  geo_frame : 0 < frame_bytes (config shm) <= used_size (config shm);
  geo_length : samples_length shm < 2147483648;
  geo_samples : Z.of_nat (length (samples shm)) = samples_length shm;
  geo_offset : forall i, is_idx i ->
    0 <= sel i (buffer_offset (header shm)) /\
    sel i (buffer_offset (header shm)) + used_size (config shm) <= samples_length shm;
  geo_disjoint :
    sel 0 (buffer_offset (header shm)) + used_size (config shm) <= sel 1 (buffer_offset (header shm)) \/
    sel 1 (buffer_offset (header shm)) + used_size (config shm) <= sel 0 (buffer_offset (header shm))
}.

(** The state of the hand-over between the reader at buffer [r] and the
    writer: the offsets are whole frames, only the read buffer is partly
    read, and the writer is at the first empty buffer after [r], or at [r]
    itself when there is none or everything has been read. *)
Record handover_ok (shm : cras_audio_shm) : Prop := {
  ho_idx : is_idx (read_buf_idx (header shm)) /\ is_idx (write_buf_idx (header shm));
  ho_range : forall i, is_idx i ->
    0 <= sel i (read_offset (header shm)) <= sel i (write_offset (header shm)) /\
    sel i (write_offset (header shm)) <= used_size (config shm);
  ho_frames : forall i, is_idx i ->
    sel i (read_offset (header shm)) mod frame_bytes (config shm) = 0 /\
    sel i (write_offset (header shm)) mod frame_bytes (config shm) = 0;
  ho_other : sel (1 - read_buf_idx (header shm)) (read_offset (header shm)) = 0;
  ho_live : sel (read_buf_idx (header shm)) (write_offset (header shm)) <> 0 ->
    sel (read_buf_idx (header shm)) (read_offset (header shm))
      < sel (read_buf_idx (header shm)) (write_offset (header shm));
  ho_writer :
    let wo := write_offset (header shm) in
    let r := read_buf_idx (header shm) in
    (sel r wo = 0 -> sel (1 - r) wo = 0) /\
    (write_buf_idx (header shm) =
       if negb (sel r wo =? 0) && (sel (1 - r) wo =? 0) then 1 - r else r)
}.

Definition shm_ok (shm : cras_audio_shm) : Prop := geometry_ok shm /\ handover_ok shm.

Section Queue.
Context (shm : cras_audio_shm) (Hok : shm_ok shm).
#[local] Abbreviation h := (header shm).
#[local] Abbreviation r := (read_buf_idx (header shm)).
#[local] Abbreviation fb := (frame_bytes (config shm)).
#[local] Abbreviation used := (used_size (config shm)).

Lemma used_twice : 2 * used <= samples_length shm.
Proof.
  destruct Hok as [[] _]. 
  pose proof (geo_offset0 0 (or_introl eq_refl)). pose proof (geo_offset0 1 (or_intror eq_refl)).
  destruct geo_disjoint0; lia.
Qed.

Lemma shm_ok_sane : shm_sane shm.
Proof.
  pose proof used_twice. destruct Hok as [[] _]. split; lia.
Qed.

Lemma shm_ok_typed : header_typed h.
Proof.
  pose proof used_twice. destruct Hok as [[] []]. intros i.
  assert (sel i (read_offset (header shm)) = sel (if i =? 0 then 0 else 1) (read_offset (header shm)) /\
    sel i (write_offset (header shm)) = sel (if i =? 0 then 0 else 1) (write_offset (header shm)) /\
    sel i (buffer_offset (header shm)) = sel (if i =? 0 then 0 else 1) (buffer_offset (header shm)))
    as (-> & -> & ->) by (unfold sel; by destruct (i =? 0)).
  assert (is_idx (if i =? 0 then 0 else 1)) as Hi by (unfold is_idx; destruct (i =? 0); lia).
  specialize (geo_offset0 _ Hi). specialize (ho_range0 _ Hi). unfold is_u32, is_u64. lia.
Qed.

Lemma checked_buffer_offset_ok i :
  is_idx i -> cras_shm_get_checked_buffer_offset shm i = sel i (buffer_offset h).
Proof.
  intros Hi. pose proof used_twice. destruct Hok as [[] _]. specialize (geo_offset0 i Hi). 
  unfold cras_shm_get_checked_buffer_offset. rewrite cmin_min. unwrap. lia.
Qed.

Lemma checked_read_offset_ok i :
  is_idx i -> cras_shm_get_checked_read_offset shm i = sel i (read_offset h).
Proof.
  intros Hi. pose proof used_twice. unfold cras_shm_get_checked_read_offset.
  rewrite checked_buffer_offset_ok by done. destruct Hok as [[] []].
  specialize (geo_offset0 i Hi). specialize (ho_range0 i Hi). unwrap. zcases; lia.
Qed.

Lemma checked_write_offset_ok i :
  is_idx i -> cras_shm_get_checked_write_offset shm i = sel i (write_offset h).
Proof.
  intros Hi. pose proof used_twice. unfold cras_shm_get_checked_write_offset.
  rewrite checked_buffer_offset_ok, cmin_min by done. destruct Hok as [[] []].
  specialize (geo_offset0 i Hi). specialize (ho_range0 i Hi).
  rewrite Z.min_l by lia. unwrap. zcases; lia.
Qed.

Lemma unread_length i :
  is_idx i ->
  Z.of_nat (length (unread shm i)) = sel i (write_offset h) - sel i (read_offset h).
Proof.
  intros Hi. destruct Hok as [[] []].
  specialize (geo_offset0 i Hi). specialize (ho_range0 i Hi).
  unfold unread. rewrite slice_length; lia.
Qed.

Lemma r_idx : is_idx r.
Proof. by destruct Hok as [_ [[] _ _ _ _ _]]. Qed.

Lemma queued_length :
  Z.of_nat (length (queued shm)) =
    sel r (write_offset h) - sel r (read_offset h) + sel (1 - r) (write_offset h).
Proof.
  unfold queued. rewrite length_app, Nat2Z.inj_add.
  rewrite !unread_length by (auto using r_idx with cras).
  destruct Hok as [_ []]. lia.
Qed.

Lemma queued_frames : Z.of_nat (length (queued shm)) mod fb = 0.
Proof.
  rewrite queued_length. pose proof r_idx as Hr. pose proof (idx_other r Hr) as Ho.
  destruct Hok as [[] []]. 
  apply Z.mod_divide; [lia|].
  pose proof (ho_frames0 r Hr) as [?%Z.mod_divide ?%Z.mod_divide]; [|lia..].
  pose proof (ho_frames0 _ Ho) as [_ ?%Z.mod_divide]; [|lia].
  apply Z.divide_add_r; [apply Z.divide_sub_r|]; done.
Qed.

Lemma bytes_in_buffer_ok i :
  is_idx i -> bytes_in_buffer shm i = sel i (write_offset h) - sel i (read_offset h).
Proof.
  intros Hi. pose proof used_twice. destruct Hok as [[] []].
  specialize (ho_range0 i Hi). unfold bytes_in_buffer.
  rewrite !cmin_min, !Z.min_l by lia. zcases; unwrap; lia.
Qed.

Lemma bytes_queued_ok : cras_shm_get_bytes_queued shm = Z.of_nat (length (queued shm)).
Proof.
  rewrite queued_length. unfold cras_shm_get_bytes_queued. simpl.
  rewrite !bytes_in_buffer_ok by (unfold is_idx; lia).
  pose proof used_twice. pose proof r_idx as Hr. destruct Hok as [[] []].
  pose proof (ho_range0 0 (or_introl eq_refl)). pose proof (ho_range0 1 (or_intror eq_refl)).
  unwrap. destruct Hr as [Hr|Hr]; rewrite Hr in *;
    change (1 - 0) with 1 in *; change (1 - 1) with 0 in *; lia.
Qed.

Lemma get_frames_ok :
  cras_shm_get_frames shm = Some (Z.of_nat (length (queued shm)) / fb).
Proof.
  unfold cras_shm_get_frames. rewrite bytes_queued_ok.
  pose proof queued_frames as Hq. pose proof queued_length as Hl.
  pose proof used_twice. pose proof r_idx as Hr. pose proof (idx_other r Hr) as Ho.
  destruct Hok as [[] []].
  pose proof (ho_range0 r Hr). pose proof (ho_range0 _ Ho).
  rewrite urem_Some, Hq by lia. simpl. rewrite udiv_Some by lia. simpl. f_equal.
  apply s32_small. set (q := Z.of_nat (length (queued shm))) in *.
  assert (0 <= q / fb <= q); [|lia].
  split; [apply Z.div_pos; lia|apply Z.div_le_upper_bound; nia].
Qed.
End Queue.

(** ** The operations on the queue *)

(** What a writer does with [data]: it copies it to the base of the current
    write buffer and hands it over. *)
Definition shm_produce (shm : cras_audio_shm) (data : list Z) : option cras_audio_shm :=
  m ← mem_write (samples shm) (cras_shm_get_write_buffer_base shm) data;
  frames ← udiv (Z.of_nat (length data)) (frame_bytes (config shm));
  Some (cras_shm_buffer_written_start (with_samples shm m) frames).

(** Two unread parts of a state whose offsets were replaced. *)
Lemma queued_eq shm rd ro wo :
  is_idx rd ->
  queued (with_header shm (fun h => set_read_buf_idx rd (set_offsets ro wo h))) =
    (let base i := sel i (buffer_offset (header shm)) in
     slice (samples shm) (base rd + sel rd ro) (base rd + sel rd wo) ++
     slice (samples shm) (base (1 - rd) + sel (1 - rd) ro) (base (1 - rd) + sel (1 - rd) wo)).
Proof. done. Qed.

Section Produce.
Context (shm : cras_audio_shm) (Hok : shm_ok shm) (d : list Z).
Context (Havail : cras_shm_is_buffer_available shm = true).
Context (Hlen : 0 < Z.of_nat (length d) <= used_size (config shm)).
Context (Hwhole : Z.of_nat (length d) mod frame_bytes (config shm) = 0).

#[local] Abbreviation w := (write_buf_idx (header shm)).
#[local] Abbreviation r := (read_buf_idx (header shm)).
#[local] Abbreviation base i := (sel i (buffer_offset (header shm))).

Lemma produce_idx : is_idx w /\ is_idx r /\ sel w (write_offset (header shm)) = 0.
Proof.
  pose proof Hok as [_ [[Hr Hw] _ _ _ _ _]]. split; [done|]. split; [done|].
  unfold cras_shm_is_buffer_available in Havail. rewrite mask_id in Havail by done.
  by apply Z.eqb_eq.
Qed.

Lemma produce_shape :
  shm_produce shm d = Some (with_header
    (with_samples shm (list_inserts (Z.to_nat (base w)) d (samples shm)))
    (fun h => set_writer (1 - w) (upd w 0 (write_in_progress h))
      (set_offsets (upd w 0 (read_offset h))
        (upd w (Z.of_nat (length d)) (write_offset h)) h))).
Proof.
  destruct produce_idx as (Hw & Hr & _). pose proof (used_twice shm Hok).
  unfold shm_produce, cras_shm_get_write_buffer_base.
  rewrite mask_id by done. unfold cras_shm_buff_for_idx. rewrite mask_id by done.
  rewrite checked_buffer_offset_ok by done. pose proof Hok as [[] _].
  pose proof (geo_offset0 w Hw).
  rewrite mem_write_Some by lia. simpl. rewrite udiv_Some by lia. simpl. f_equal.
  unfold cras_shm_buffer_written_start, cras_shm_buffer_write_complete; simpl.
  rewrite mask_id, mask_next by done.
  assert (Z.of_nat (length d) / frame_bytes (config shm) * frame_bytes (config shm)
          = Z.of_nat (length d)) as ->.
  { pose proof (Z.div_mod (Z.of_nat (length d)) (frame_bytes (config shm))). lia. }
  by unwrap.
Qed.

Lemma produce_spec :
  exists shm', shm_produce shm d = Some shm' /\ shm_ok shm' /\ queued shm' = queued shm ++ d.
Proof.
  rewrite produce_shape. eexists; split; [done|].
  destruct produce_idx as (Hw & Hr & H0). pose proof (used_twice shm Hok).
  pose proof Hok as [[] []]. pose proof (geo_offset0 w Hw). pose proof (geo_offset0 _ (idx_other _ Hw)).
  pose proof (ho_range0 w Hw). pose proof (ho_range0 _ (idx_other _ Hw)).
  destruct ho_writer0 as [Hempty Hwr].
  assert (w = r /\ sel (1 - r) (write_offset (header shm)) = 0 \/
          w = 1 - r /\ sel r (write_offset (header shm)) <> 0) as Hcase.
  { revert Hwr. destruct (Z.eqb_spec (sel r (write_offset (header shm))) 0); simpl; [auto|].
    destruct (Z.eqb_spec (sel (1 - r) (write_offset (header shm))) 0); simpl; [auto|].
    intros Hwr. rewrite Hwr in H0. lia. }
  split; [split|].
  - split; simpl; try done; try lia. by rewrite length_inserts.
  - split; simpl.
    + auto with cras.
    + intros i Hi. destruct (decide (i = w)) as [->|Hne]; [rewrite !sel_upd; lia|].
      assert (i = 1 - w) as -> by (unfold is_idx in *; lia).
      rewrite !sel_upd_other by done. lia.
    + intros i Hi. destruct (decide (i = w)) as [->|Hne]; [by rewrite !sel_upd, Z.mod_0_l by lia|].
      assert (i = 1 - w) as -> by (unfold is_idx in *; lia).
      rewrite !sel_upd_other by done. auto with cras.
    + destruct Hcase as [[-> _]|[-> _]]; [by rewrite sel_upd_other|by rewrite sel_upd].
    + destruct Hcase as [[-> _]|[-> _]]; [rewrite !sel_upd; lia|].
      rewrite !sel_upd_this by done. done.
    + destruct Hcase as [[Heq Ho]|[Heq Hne]]; rewrite Heq.
      * rewrite !sel_upd, sel_upd_other, Ho by done. split; [lia|].
        destruct (Z.eqb_spec (Z.of_nat (length d)) 0); [lia|done].
      * rewrite !sel_upd, sel_upd_this by done. split; [lia|].
        destruct (Z.eqb_spec (sel r (write_offset (header shm))) 0); [done|]. simpl.
        destruct (Z.eqb_spec (Z.of_nat (length d)) 0); [lia|]. simpl. lia.
  - unfold queued, unread; simpl. destruct Hcase as [[Heq Ho]|[Heq Hne]]; rewrite Heq in *.
    + rewrite !sel_upd, !sel_upd_other, Ho, ho_other0, Z.add_0_r, !slice_nil, app_nil_r by done.
      assert (sel r (read_offset (header shm)) = 0) as -> by lia.
      rewrite H0, Z.add_0_r, slice_nil. cbn [app]. apply slice_inserts_in; lia.
    + rewrite !sel_upd, !sel_upd_this, ho_other0, H0, Z.add_0_r, slice_nil, app_nil_r by done.
      f_equal; [|apply slice_inserts_in; lia].
      pose proof (geo_offset0 r Hr). pose proof (ho_range0 r Hr).
      apply slice_inserts_out; [lia|lia|].
      destruct Hr as [Hr|Hr]; rewrite Hr in *; change (1 - 0) with 1 in *;
        change (1 - 1) with 0 in *; lia.
Qed.
End Produce.

Section Consume.
Context (shm : cras_audio_shm) (Hok : shm_ok shm) (n : Z).
#[local] Abbreviation r := (read_buf_idx (header shm)).
#[local] Abbreviation base i := (sel i (buffer_offset (header shm))).
#[local] Abbreviation ro i := (sel i (read_offset (header shm))).
#[local] Abbreviation wo i := (sel i (write_offset (header shm))).
#[local] Abbreviation bytes := (n * frame_bytes (config shm)).
Context (Hn : 0 <= n) (Hle : bytes <= Z.of_nat (length (queued shm))).

Lemma bytes_mod : bytes mod frame_bytes (config shm) = 0.
Proof. destruct Hok as [[] _]. apply Z.mod_mul. lia. Qed.

(** The three ways a read ends: inside the read buffer, inside the other
    one, or at the end of the queue. *)
Lemma consume_shape :
  cras_shm_buffer_read shm n = with_header shm (fun h =>
    if n =? 0 then h
    else if ro r + bytes <? wo r then
      set_read_buf_idx r (set_offsets (upd r (ro r + bytes) (read_offset h)) (write_offset h) h)
    else if ro r + bytes - wo r <? wo (1 - r) then
      set_read_buf_idx (1 - r)
        (set_offsets (upd (1 - r) (ro r + bytes - wo r) (upd r 0 (read_offset h)))
           (upd r 0 (write_offset h)) h)
    else if ro r + bytes - wo r =? 0 then
      set_read_buf_idx (1 - r)
        (set_offsets (upd r 0 (read_offset h)) (upd r 0 (write_offset h)) h)
    else
      set_read_buf_idx r
        (set_offsets (upd r 0 (read_offset h)) (upd (1 - r) 0 (upd r 0 (write_offset h))) h)).
Proof.
  unfold cras_shm_buffer_read. pose proof (r_idx shm Hok) as Hr.
  rewrite mask_id, mask_next by done.
  destruct (Z.eqb_spec n 0) as [->|Hn0]; [by destruct shm|].
  pose proof (queued_length shm Hok) as Hql. rewrite Hql in Hle.
  pose proof (used_twice shm Hok). pose proof Hok as [[] []].
  pose proof (ho_range0 r Hr). pose proof (ho_range0 _ (idx_other r Hr)).
  assert (0 <= bytes) by nia.
  unfold with_header. f_equal. cbv beta zeta.
  rewrite (u64_small (n * _)), (u32_small (ro r + bytes)) by lia.
  rewrite !sel_upd, Z.geb_leb.
  destruct (Z.ltb_spec (ro r + bytes) (wo r)) as [Hin|Hin].
  { destruct (Z.leb_spec (wo r) (ro r + bytes)); [lia|]. by destruct (header shm). }
  destruct (Z.leb_spec (wo r) (ro r + bytes)); [|lia].
  rewrite sel_upd_other, u32_small by (done || lia).
  assert (forall v, upd r 0 (upd r v (read_offset (header shm)))
                    = upd r 0 (read_offset (header shm))) as Hupd.
  { intros v. unfold upd. by destruct (r =? 0). }
  rewrite !Hupd. destruct (Z.ltb_spec (ro r + bytes - wo r) (wo (1 - r))); [done|].
  destruct (Z.eqb_spec (ro r + bytes - wo r) 0); simpl; [done|].
  rewrite mask_next by (by apply idx_other). by replace (1 - (1 - r)) with r by lia.
Qed.

(** A read that stays in the read buffer. *)
Lemma consume_inside :
  0 < bytes -> ro r + bytes < wo r ->
  let shm' := with_header shm (fun h => set_read_buf_idx r
    (set_offsets (upd r (ro r + bytes) (read_offset h)) (write_offset h) h)) in
  shm_ok shm' /\ queued shm' = drop (Z.to_nat bytes) (queued shm).
Proof.
  intros Hb Hin shm'. pose proof (r_idx shm Hok) as Hr. pose proof (unread_length shm Hok r Hr) as Hl.
  pose proof bytes_mod as Hbm. pose proof Hok as [[] []].
  pose proof (ho_range0 r Hr). pose proof (ho_frames0 r Hr) as [Hfr Hfw].
  pose proof (geo_offset0 r Hr).
  split; [split|].
  - by split.
  - split; simpl; [done| | | | |].
    + intros i Hi. destruct (decide (i = r)) as [->|Hne]; [rewrite !sel_upd; lia|].
      assert (i = 1 - r) as -> by (unfold is_idx in *; lia).
      rewrite !sel_upd_other by done. auto with cras.
    + intros i Hi. destruct (decide (i = r)) as [->|Hne].
      * rewrite sel_upd, Zplus_mod, Hfr, Hbm. by rewrite Z.mod_0_l by lia.
      * assert (i = 1 - r) as -> by (unfold is_idx in *; lia).
        rewrite !sel_upd_other by done. auto with cras.
    + by rewrite sel_upd_other.
    + by rewrite sel_upd.
    + done.
  - unfold shm', queued, unread; simpl. rewrite sel_upd, sel_upd_other by done.
    rewrite drop_app_le by (unfold unread in Hl; lia). f_equal.
    rewrite slice_drop by lia. f_equal. lia.
Qed.

(** A read of the rest of the read buffer and of [k] bytes of the other. *)
Lemma consume_across k :
  wo r <> 0 -> bytes = wo r - ro r + k -> 0 <= k -> k < wo (1 - r) \/ k = 0 ->
  let shm' := with_header shm (fun h => set_read_buf_idx (1 - r)
    (set_offsets (upd (1 - r) k (upd r 0 (read_offset h))) (upd r 0 (write_offset h)) h)) in
  shm_ok shm' /\ queued shm' = drop (Z.to_nat bytes) (queued shm).
Proof.
  intros Hwr0 Hb Hk Hlt shm'. pose proof (r_idx shm Hok) as Hr. pose proof (idx_other r Hr) as Ho.
  pose proof (unread_length shm Hok r Hr) as Hl.
  pose proof bytes_mod as Hbm. pose proof Hok as [[] []].
  pose proof (ho_range0 r Hr). pose proof (ho_frames0 r Hr) as [Hfr Hfw].
  pose proof (ho_range0 _ Ho). pose proof (geo_offset0 r Hr). pose proof (geo_offset0 _ Ho).
  assert (k mod frame_bytes (config shm) = 0) as Hkm.
  { replace k with (bytes - (wo r - ro r)) by lia.
    rewrite Zminus_mod, Hbm, (Zminus_mod (wo r)), Hfw, Hfr. by rewrite !Z.mod_0_l by lia. }
  assert (forall i, is_idx i -> i <> 1 - r -> i = r) as Hidx by (unfold is_idx in *; lia).
  split; [split|].
  - by split.
  - split; simpl.
    + tauto.
    + intros i Hi. destruct (decide (i = 1 - r)) as [->|Hne].
      * rewrite sel_upd, sel_upd_other by done. lia.
      * rewrite (Hidx i Hi Hne), sel_upd_this, !sel_upd by done. lia.
    + intros i Hi. destruct (decide (i = 1 - r)) as [->|Hne].
      * rewrite sel_upd, sel_upd_other by done. split; [done|by apply ho_frames0].
      * rewrite (Hidx i Hi Hne), sel_upd_this, !sel_upd by done. by rewrite Z.mod_0_l by lia.
    + replace (1 - (1 - r)) with r by lia. by rewrite sel_upd_this, sel_upd.
    + rewrite sel_upd, sel_upd_other by done. lia.
    + destruct ho_writer0 as [Hempty Hwr].
      replace (1 - (1 - r)) with r by lia. rewrite sel_upd, sel_upd_other by done.
      split; [done|]. rewrite Hwr. rewrite Z.eqb_refl, andb_true_r.
      destruct (Z.eqb_spec (wo r) 0) as [He|He]; simpl; [done|].
      destruct (Z.eqb_spec (wo (1 - r)) 0); simpl; lia.
  - unfold shm', queued, unread; simpl. replace (1 - (1 - r)) with r by lia.
    rewrite sel_upd_this, !sel_upd, sel_upd_other by done.
    rewrite Z.add_0_r, slice_nil, app_nil_r.
    replace (Z.to_nat bytes) with (length (unread shm r) + Z.to_nat k)%nat by lia.
    unfold unread. rewrite drop_app_add.
    rewrite slice_drop by lia. f_equal. lia.
Qed.

(** A read of everything that ends in the other buffer. *)
Lemma consume_all :
  bytes = wo r - ro r + wo (1 - r) -> 0 < wo (1 - r) ->
  let shm' := with_header shm (fun h => set_read_buf_idx r
    (set_offsets (upd r 0 (read_offset h)) (upd (1 - r) 0 (upd r 0 (write_offset h))) h)) in
  shm_ok shm' /\ queued shm' = drop (Z.to_nat bytes) (queued shm).
Proof.
  intros Hb Hpos shm'. pose proof (r_idx shm Hok) as Hr. pose proof (idx_other r Hr) as Ho.
  pose proof (queued_length shm Hok) as Hl.
  pose proof Hok as [[] []].
  assert (forall i, is_idx i -> i <> 1 - r -> i = r) as Hidx by (unfold is_idx in *; lia).
  split; [split|].
  - by split.
  - split; simpl.
    + tauto.
    + intros i Hi. destruct (decide (i = 1 - r)) as [->|Hne].
      * rewrite sel_upd, sel_upd_other, ho_other0 by done. lia.
      * rewrite (Hidx i Hi Hne), sel_upd_this, !sel_upd by done. lia.
    + intros i Hi. destruct (decide (i = 1 - r)) as [->|Hne].
      * rewrite sel_upd, sel_upd_other, ho_other0 by done. by rewrite Z.mod_0_l by lia.
      * rewrite (Hidx i Hi Hne), sel_upd_this, !sel_upd by done. by rewrite Z.mod_0_l by lia.
    + by rewrite sel_upd_other.
    + by rewrite sel_upd_this, sel_upd.
    + rewrite sel_upd_this, !sel_upd by done. split; [done|]. simpl.
      destruct ho_writer0 as [Hempty ->].
      destruct (Z.eqb_spec (wo r) 0) as [He|He]; simpl; [done|].
      destruct (Z.eqb_spec (wo (1 - r)) 0); [lia|done].
  - rewrite drop_ge by lia. unfold shm', queued, unread; simpl.
    rewrite sel_upd_this, !sel_upd, sel_upd_other, ho_other0 by done.
    by rewrite Z.add_0_r, slice_nil, Z.add_0_r, slice_nil.
Qed.

Lemma consume_spec :
  shm_ok (cras_shm_buffer_read shm n) /\
  queued (cras_shm_buffer_read shm n) = drop (Z.to_nat bytes) (queued shm).
Proof.
  rewrite consume_shape. pose proof (queued_length shm Hok) as Hl.
  pose proof (r_idx shm Hok) as Hr. pose proof (idx_other r Hr) as Ho.
  pose proof Hok as [[] []]. pose proof (ho_range0 r Hr). pose proof (ho_range0 _ Ho).
  destruct (Z.eqb_spec n 0) as [Hn0|Hn0].
  { rewrite Hn0. rewrite Z.mul_0_l, drop_0. by destruct shm. }
  assert (0 < bytes) by nia.
  assert (wo r <> 0) by (destruct ho_writer0 as [Hempty _]; intros Hz; specialize (Hempty Hz); lia).
  destruct (Z.ltb_spec (ro r + bytes) (wo r)); [by apply consume_inside|].
  destruct (Z.ltb_spec (ro r + bytes - wo r) (wo (1 - r))).
  { apply consume_across; lia. }
  destruct (Z.eqb_spec (ro r + bytes - wo r) 0) as [Hk|Hk].
  - assert (upd (1 - r) 0 (upd r 0 (read_offset (header shm))) = upd r 0 (read_offset (header shm))) as Hu.
    { destruct Hr as [Hr|Hr]; rewrite Hr in *; revert ho_other0; unfold sel, upd; simpl; by intros ->. }
    pose proof (consume_across 0) as Hc.
    unfold with_header in Hc; cbv beta zeta in Hc; rewrite Hu in Hc. apply Hc; lia.
  - apply consume_all; lia.
Qed.
End Consume.

(** The whole frames up to a write offset. *)
Lemma whole_frames a b fb :
  0 < fb -> a mod fb = 0 -> b mod fb = 0 -> a < b -> 0 < (b - a) / fb /\ (b - a) / fb * fb = b - a.
Proof.
  intros Hfb Ha Hb Hlt.
  assert ((b - a) mod fb = 0) as Hm by (rewrite Zminus_mod, Ha, Hb; by apply Z.mod_0_l; lia).
  pose proof (Z.div_mod (b - a) fb ltac:(lia)). split; [|lia]. nia.
Qed.

(** The readable window at frame [off] of the queue. *)
Lemma readable_frames_ok shm off :
  shm_ok shm -> 0 <= off -> off * frame_bytes (config shm) < Z.of_nat (length (queued shm)) ->
  exists p n, cras_shm_get_readable_frames shm off = Some (Some p, n) /\ 0 < n /\
    mem_read (samples shm) p (n * frame_bytes (config shm)) =
      Some (take (Z.to_nat (n * frame_bytes (config shm)))
              (drop (Z.to_nat (off * frame_bytes (config shm))) (queued shm))).
Proof.
  intros Hok Hoff Hlt. unfold cras_shm_get_readable_frames.
  pose proof (r_idx shm Hok) as Hr. pose proof (idx_other _ Hr) as Ho.
  rewrite mask_id, mask_next_u32, checked_read_offset_ok, !checked_write_offset_ok by done.
  pose proof (queued_length shm Hok) as Hql. rewrite Hql in Hlt.
  pose proof (unread_length shm Hok _ Hr) as Hul.
  pose proof (used_twice shm Hok). pose proof Hok as [[] []].
  set (r := read_buf_idx (header shm)) in *. set (fb := frame_bytes (config shm)) in *.
  pose proof (ho_range0 r Hr). pose proof (ho_range0 _ Ho).
  pose proof (ho_frames0 r Hr) as [Hfr Hfw]. pose proof (ho_frames0 _ Ho) as [_ Hfo].
  pose proof (geo_offset0 r Hr). pose proof (geo_offset0 _ Ho).
  assert (0 <= off * fb) by nia. set (k := off * fb) in *.
  assert (k mod fb = 0) as Hk by (apply Z.mod_mul; lia). clearbody k.
  set (ro := sel r (read_offset (header shm))) in *.
  set (wo := sel r (write_offset (header shm))) in *.
  set (wo' := sel (1 - r) (write_offset (header shm))) in *.
  rewrite (u64_small k), (u64_small (ro + k)), (u32_small (ro + k)) by lia. rewrite !Z.geb_leb.
  assert ((ro + k) mod fb = 0) as Hrk by (rewrite Zplus_mod, Hfr, Hk; by apply Z.mod_0_l; lia).
  destruct (Z.leb_spec wo (ro + k)) as [Hge|Hlt']; cbn beta iota; rewrite Z.geb_leb.
  - rewrite (u32_small (ro + k - wo)) by lia.
    destruct (Z.leb_spec wo' (ro + k - wo)); [lia|].
    assert ((ro + k - wo) mod fb = 0) by (rewrite Zminus_mod, Hrk, Hfw; by apply Z.mod_0_l; lia).
    destruct (whole_frames (ro + k - wo) wo' fb) as [Hn Hnf]; [lia|done..|].
    rewrite udiv_Some by lia. simpl. rewrite (u32_small (wo' - _)) by lia.
    eexists; eexists; split; [done|]. split; [done|]. rewrite Hnf.
    unfold cras_shm_buff_for_idx. rewrite mask_id, checked_buffer_offset_ok by done.
    rewrite mem_read_slice by lia. f_equal.
    replace (Z.to_nat k) with (length (unread shm r) + Z.to_nat (ro + k - wo))%nat by lia.
    unfold queued. fold r. rewrite drop_app_add. unfold unread.
    rewrite ho_other0, Z.add_0_r. fold wo'. rewrite slice_drop by lia.
    rewrite take_slice_all by lia.
    f_equal; lia.
  - destruct (Z.leb_spec wo (ro + k)); [lia|].
    destruct (whole_frames (ro + k) wo fb) as [Hn Hnf]; [lia|done..|].
    rewrite udiv_Some by lia. simpl. rewrite (u32_small (wo - _)) by lia.
    eexists; eexists; split; [done|]. split; [done|]. rewrite Hnf.
    unfold cras_shm_buff_for_idx. rewrite mask_id, checked_buffer_offset_ok by done.
    rewrite mem_read_slice by lia. f_equal.
    unfold queued. fold r. rewrite drop_app_le by lia.
    rewrite take_app_le by (rewrite length_drop; lia).
    unfold unread. fold ro wo. rewrite slice_drop by lia.
    rewrite take_slice_all by lia.
    f_equal; lia.
Qed.

(** Claim C1: with both sides honest the pair of buffers is one FIFO of frames.
    Handing over a written buffer appends its bytes, reading [n] frames drops
    them from the front even across the two buffers, and the frame count the
    server computes is exactly that of the queue. *)
Theorem shm_is_fifo (shm : cras_audio_shm) :
  shm_ok shm ->
  (forall d, cras_shm_is_buffer_available shm = true ->
     0 < Z.of_nat (length d) <= used_size (config shm) ->
     Z.of_nat (length d) mod frame_bytes (config shm) = 0 ->
     exists shm', shm_produce shm d = Some shm' /\ shm_ok shm' /\ queued shm' = queued shm ++ d) /\
  (forall n, 0 <= n -> n * frame_bytes (config shm) <= Z.of_nat (length (queued shm)) ->
     shm_ok (cras_shm_buffer_read shm n) /\
     queued (cras_shm_buffer_read shm n) =
       drop (Z.to_nat (n * frame_bytes (config shm))) (queued shm)) /\
  cras_shm_get_frames shm = Some (Z.of_nat (length (queued shm)) / frame_bytes (config shm)) /\
  Z.of_nat (length (queued shm)) mod frame_bytes (config shm) = 0.
Proof.
  intros Hok. split_and!.
  - intros d Ha Hl Hw. by apply produce_spec.
  - intros n Hn Hle. by apply consume_spec.
  - by apply get_frames_ok.
  - by apply queued_frames.
Qed.

Definition fresh_shm : cras_audio_shm :=
  {| config := ShmConfig 8 4;
     header := {| h_config := ShmConfig 8 4; read_buf_idx := 0; write_buf_idx := 0;
                  read_offset := Buf2 0 0; write_offset := Buf2 0 0;
                  write_in_progress := Buf2 0 0; volume_scaler := float_one; mute := 0;
                  callback_pending := 0; num_overruns := 0; ts := Timespec 0 0;
                  buffer_offset := Buf2 0 8 |};
     samples_length := 16; samples := replicate 16 0 |}.

Lemma fresh_shm_ok : shm_ok fresh_shm.
Proof.
  split; split; try (intros i [-> | ->]); unfold is_idx, sel; simpl; try done; lia.
Qed.

Lemma shm_is_fifo_witness :
  exists shm1 shm2, shm_produce fresh_shm [1; 2; 3; 4; 5; 6; 7; 8] = Some shm1 /\
    shm_produce shm1 [9; 10; 11; 12] = Some shm2 /\
    queued (cras_shm_buffer_read shm2 2) = [9; 10; 11; 12].
Proof.
  destruct (proj1 (shm_is_fifo fresh_shm fresh_shm_ok) [1; 2; 3; 4; 5; 6; 7; 8])
    as (shm1 & H1 & Hok1 & Hq1); [reflexivity|simpl; lia|reflexivity|].
  exists shm1. pose proof H1 as E. vm_compute in E. injection E as E.
  destruct (proj1 (shm_is_fifo shm1 Hok1) [9; 10; 11; 12]) as (shm2 & H2 & Hok2 & Hq2);
    [by subst shm1|by subst shm1; simpl; lia|by subst shm1|].
  exists shm2. split; [exact H1|]. split; [exact H2|].
  destruct (shm_is_fifo shm2 Hok2) as (_ & Hr & _ & _).
  assert (frame_bytes (config shm2) = 4) as Hfb.
  { clear -H2 E. subst shm1. vm_compute in H2. by injection H2 as <-. }
  assert (queued shm2 = [1; 2; 3; 4; 5; 6; 7; 8; 9; 10; 11; 12]) as Hq.
  { rewrite Hq2, Hq1. reflexivity. }
  rewrite (proj2 (Hr 2 ltac:(lia) ltac:(rewrite Hfb, Hq; simpl; lia))), Hfb, Hq. reflexivity.
Defined.

(** The window [cras_shm_get_readable_frames] returns at frame [off]
    is never empty while frames remain, and holds the queue's frames from
    [off] on, wherever the boundary between the two buffers falls. *)
Theorem readable_frames_content (shm : cras_audio_shm) (off : Z) :
  shm_ok shm -> 0 <= off -> off * frame_bytes (config shm) < Z.of_nat (length (queued shm)) ->
  exists p n, cras_shm_get_readable_frames shm off = Some (Some p, n) /\ 0 < n /\
    mem_read (samples shm) p (n * frame_bytes (config shm)) =
      Some (take (Z.to_nat (n * frame_bytes (config shm)))
              (drop (Z.to_nat (off * frame_bytes (config shm))) (queued shm))).
Proof. apply readable_frames_ok. Qed.

Definition busy_shm : cras_audio_shm :=
  with_header (with_samples fresh_shm [1; 2; 3; 4; 5; 6; 7; 8; 9; 10; 11; 12; 0; 0; 0; 0])
    (set_offsets (Buf2 4 0) (Buf2 8 4)).

Lemma busy_shm_ok : shm_ok busy_shm.
Proof.
  split; split; try (intros i [-> | ->]); unfold is_idx, sel; simpl; try done; lia.
Qed.

Lemma readable_frames_content_witness :
  exists p n, cras_shm_get_readable_frames busy_shm 1 = Some (Some p, n) /\ 0 < n /\
    mem_read (samples busy_shm) p (n * 4) = Some (take (Z.to_nat (n * 4)) [9; 10; 11; 12]).
Proof.
  exact (readable_frames_content busy_shm 1 busy_shm_ok ltac:(lia) ltac:(vm_compute; reflexivity)).
Defined.

(** The stored stream volume is a number from 0.0 to 1.0 for every
    [float] a client may send, infinities and NaN included. *)
Theorem volume_scaler_range (shm : cras_audio_shm) (v : spec_float) :
  let v' := cras_shm_get_volume_scaler (cras_shm_set_volume_scaler shm v) in
  SFleb float_zero v' = true /\ SFleb v' float_one = true /\
  (SFltb float_zero v = true -> SFltb v float_one = true -> v' = v).
Proof.
  unfold cras_shm_get_volume_scaler, cras_shm_set_volume_scaler; simpl.
  split_and!.
  - destruct (SFltb float_zero v) eqn:Hv; simpl; [|done].
    destruct (SFltb v float_one); [|done].
    destruct v as [[]|[]| |[]]; done.
  - destruct (SFltb float_zero v) eqn:Hv; simpl; [|done].
    destruct (SFltb v float_one) eqn:Hl; [|done].
    revert Hl. unfold SFltb, SFleb. by destruct (SFcompare v float_one) as [[]|].
  - by intros -> ->.
Qed.

Lemma volume_scaler_range_witness :
  cras_shm_get_volume_scaler
    (cras_shm_set_volume_scaler fresh_shm (S754_finite false 8388608 (-24)))
  = S754_finite false 8388608 (-24).
Proof. apply (volume_scaler_range fresh_shm (S754_finite false 8388608 (-24))); reflexivity. Defined.
