(* ===== verification/Utf8.v ===== *)
(** * UTF-8 validation (server/cras_utf8.c)

    [valid_utf8_string] is the check every string that leaves for D-Bus goes
    through when the D-Bus library's own is not built in.  It is compared
    here with UTF-8 itself: the encodings of Unicode scalar values. *)
From S2P Require Import Prelude.

Record u8range : Type := U8range { rmin : Z; rmax : Z }.

Definition kUTF8ByteOrderMask : list Z := [239; 187; 191].

Definition kUTF8TwoByteSeq : list u8range :=
  [U8range 194 223; U8range 128 191; U8range 0 0].
Definition kUTF8ByteSeqE0 : list u8range :=
  [U8range 224 224; U8range 160 191; U8range 128 191; U8range 0 0].
Definition kUTF8ByteSeqE1EC : list u8range :=
  [U8range 225 236; U8range 128 191; U8range 128 191; U8range 0 0].
Definition kUTF8ByteSeqED : list u8range :=
  [U8range 237 237; U8range 128 159; U8range 128 191; U8range 0 0].
Definition kUTF8ByteSeqEEEF : list u8range :=
  [U8range 238 239; U8range 128 191; U8range 128 191; U8range 0 0].
Definition kUTF8ByteSeqF0 : list u8range :=
  [U8range 240 240; U8range 144 191; U8range 128 191; U8range 128 191; U8range 0 0].
Definition kUTF8ByteSeqF1F3 : list u8range :=
  [U8range 241 243; U8range 128 191; U8range 128 191; U8range 128 191; U8range 0 0].
Definition kUTF8ByteSeqF4 : list u8range :=
  [U8range 244 244; U8range 128 143; U8range 128 191; U8range 128 191; U8range 0 0].
Definition kUTF8NullRange : list u8range := [U8range 0 0].

Definition kUTF8Sequences : list (list u8range) :=
  [kUTF8TwoByteSeq; kUTF8ByteSeqE0; kUTF8ByteSeqE1EC; kUTF8ByteSeqED; kUTF8ByteSeqEEEF;
   kUTF8ByteSeqF0; kUTF8ByteSeqF1F3; kUTF8ByteSeqF4; kUTF8NullRange].

Definition in_range (byte : Z) (r : u8range) : bool := (byte >=? rmin r) && (byte <=? rmax r).

(** The inner [while]: the sequence the byte starts, or the null range that
    ends the table.  [None] is a read past the table. *)
Fixpoint find_sequence (byte : Z) (seqs : list (list u8range)) : option (list u8range) :=
  match seqs with
  | (r :: rs) :: seqs' =>
    if negb (rmin r =? 0) then
      if in_range byte r then Some (r :: rs) else find_sequence byte seqs'
    else Some (r :: rs)
  | _ => None
  end.

(** The byte at a position of a NUL-terminated string. *)
Definition byte_at (s : list Z) (pos : nat) : Z := default 0 (s !! pos).

(** The variables of the outer [while]; [range] is [None] for [NULL], else the
    ranges from the one pointed to. *)
Record scanner : Type := Scanner {
  bom_chars : nat;
  pos : nat;
  range : option (list u8range)
}.

(** One turn of the outer [while]: [inl] leaves for the label [error] with
    [ret] and [pos], [inr] continues. *)
Definition utf8_step (s : list Z) (st : scanner) : option ((Z * nat) + scanner) :=
  let byte := byte_at s (pos st) in
  let pos' := S (pos st) in
  min ← match range st with
        | None => Some 0
        | Some rs => rmin <$> head rs
        end;
  if byte =? 0 then Some (inl (if negb (min =? 0) then 0 else 1, pos'))
  else if min =? 0 then
    if byte <? 128 then Some (inr (Scanner (bom_chars st) pos' (range st)))
    else if (bom_chars st <? length kUTF8ByteOrderMask)%nat then
      if byte =? byte_at kUTF8ByteOrderMask (bom_chars st)
      then Some (inr (Scanner (S (bom_chars st)) pos' (range st)))
      else Some (inr (Scanner (length kUTF8ByteOrderMask) 0 (range st)))
    else
      seq ← find_sequence byte kUTF8Sequences;
      r ← head seq;
      if rmin r =? 0 then Some (inl (0, pos'))
      else Some (inr (Scanner (bom_chars st) pos' (Some (tail seq))))
  else
    rs ← range st;
    r ← head rs;
    if in_range byte r then Some (inr (Scanner (bom_chars st) pos' (Some (tail rs))))
    else Some (inl (0, pos')).

Fixpoint utf8_loop (fuel : nat) (s : list Z) (st : scanner) : option (Z * nat) :=
  match fuel with
  | O => None
  | S fuel =>
    next ← utf8_step s st;
    match next with
    | inl res => Some res
    | inr st => utf8_loop fuel s st
    end
  end.

(** One pass to a rewind, at most, and one pass over the string and its NUL. *)
Definition utf8_fuel (s : list Z) : nat := 2 * length s + 2.

(** The return value and [*bad_pos]; the argument is [None] for [NULL]. *)
Definition valid_utf8_string (string : option (list Z)) : option (Z * Z) :=
  match string with
  | None => Some (0, u64 (-1))
  | Some s =>
    '(ret, pos) ← utf8_loop (utf8_fuel s) s (Scanner 0 0 None);
    Some (ret, u64 (Z.of_nat pos - 1))
  end.

(** The build without D-Bus. *)
Definition is_utf8_string (string : option (list Z)) : option Z :=
  fst <$> valid_utf8_string string.

(** ** UTF-8 *)

(** The scalar values a NUL-terminated string can hold. *)
Definition scalar (c : Z) : Prop := 0 < c <= 1114111 /\ ~ (55296 <= c <= 57343).

Definition encode (c : Z) : list Z :=
  if c <? 128 then [c]
  else if c <? 2048 then [192 + c / 64; 128 + c mod 64]
  else if c <? 65536 then [224 + c / 4096; 128 + (c / 64) mod 64; 128 + c mod 64]
  else [240 + c / 262144; 128 + (c / 4096) mod 64; 128 + (c / 64) mod 64; 128 + c mod 64].

Definition utf8 (s : list Z) : Prop :=
  exists cs, Forall scalar cs /\ s = concat (encode <$> cs).

Definition is_string (s : list Z) : Prop := Forall (fun b => 0 < b < 256) s.

(** ** The automaton behind the loop, without the byte order mark *)

Fixpoint utf8_ok (pending : list u8range) (s : list Z) : bool :=
  match s, pending with
  | _, [] => false
  | [], r :: _ => rmin r =? 0
  | b :: s', r :: rs =>
    if rmin r =? 0 then
      if b <? 128 then utf8_ok pending s'
      else match find_sequence b kUTF8Sequences with
           | Some (r' :: rs') => if rmin r' =? 0 then false else utf8_ok rs' s'
           | _ => false
           end
    else if in_range b r then utf8_ok rs s' else false
  end.

Definition starts_in (b : Z) : list u8range :=
  if b <? 194 then kUTF8NullRange
  else if b <=? 223 then kUTF8TwoByteSeq
  else if b <=? 224 then kUTF8ByteSeqE0
  else if b <=? 236 then kUTF8ByteSeqE1EC
  else if b <=? 237 then kUTF8ByteSeqED
  else if b <=? 239 then kUTF8ByteSeqEEEF
  else if b <=? 240 then kUTF8ByteSeqF0
  else if b <=? 243 then kUTF8ByteSeqF1F3
  else if b <=? 244 then kUTF8ByteSeqF4
  else kUTF8NullRange.

Lemma find_sequence_starts b : find_sequence b kUTF8Sequences = Some (starts_in b).
Proof.
  unfold starts_in. zcases; unfold find_sequence, kUTF8Sequences, in_range; simpl;
    zdecide; reflexivity.
Qed.

Arguments find_sequence : simpl never.

(** ** The automaton recognises the encodings *)

Lemma encode_1 c : 0 < c < 128 -> encode c = [c].
Proof. intros. unfold encode. by zdecide. Qed.

Lemma encode_2 a b : 2 <= a < 32 -> 0 <= b < 64 -> encode (64 * a + b) = [192 + a; 128 + b].
Proof.
  intros. unfold encode. zdecide. f_equal; [|f_equal].
  - rewrite <- (Z.div_unique (64 * a + b) 64 a b); lia.
  - rewrite <- (Z.mod_unique (64 * a + b) 64 a b); lia.
Qed.

Lemma div_64 c : c / 4096 = c / 64 / 64 /\ c / 262144 = c / 64 / 64 / 64.
Proof. rewrite !Z.div_div by lia. done. Qed.

Lemma digits_3 a b c :
  0 <= b < 64 -> 0 <= c < 64 ->
  (4096 * a + 64 * b + c) mod 64 = c /\ (4096 * a + 64 * b + c) / 64 = 64 * a + b /\
  (64 * a + b) mod 64 = b /\ (64 * a + b) / 64 = a.
Proof.
  intros. split_and!.
  - symmetry. apply (Z.mod_unique _ 64 (64 * a + b) c); lia.
  - symmetry. apply (Z.div_unique _ 64 (64 * a + b) c); lia.
  - symmetry. apply (Z.mod_unique _ 64 a b); lia.
  - symmetry. apply (Z.div_unique _ 64 a b); lia.
Qed.

Lemma encode_3 a b c :
  0 <= a < 16 -> 0 <= b < 64 -> 0 <= c < 64 -> 2048 <= 4096 * a + 64 * b + c ->
  encode (4096 * a + 64 * b + c) = [224 + a; 128 + b; 128 + c].
Proof.
  intros. unfold encode. zdecide. rewrite (proj1 (div_64 _)).
  destruct (digits_3 a b c) as (-> & -> & -> & ->); done.
Qed.

Lemma encode_4 a b c d :
  0 <= a < 5 -> 0 <= b < 64 -> 0 <= c < 64 -> 0 <= d < 64 ->
  65536 <= 262144 * a + 4096 * b + 64 * c + d ->
  encode (262144 * a + 4096 * b + 64 * c + d) = [240 + a; 128 + b; 128 + c; 128 + d].
Proof.
  intros. unfold encode. zdecide. rewrite (proj1 (div_64 _)), (proj2 (div_64 _)).
  replace (262144 * a + 4096 * b + 64 * c + d) with (4096 * (64 * a + b) + 64 * c + d) by lia.
  destruct (digits_3 (64 * a + b) c d) as (-> & -> & -> & ->); [done..|].
  replace ((64 * a + b) mod 64) with b by (apply (Z.mod_unique _ 64 a b); lia).
  by replace ((64 * a + b) / 64) with a by (apply (Z.div_unique _ 64 a b); lia).
Qed.

(** The four shapes of a scalar value. *)
Inductive shape : Z -> Prop :=
| shape_1 c : 0 < c < 128 -> shape c
| shape_2 a b : 2 <= a < 32 -> 0 <= b < 64 -> shape (64 * a + b)
| shape_3 a b c : 0 <= a < 16 -> 0 <= b < 64 -> 0 <= c < 64 ->
    2048 <= 4096 * a + 64 * b + c -> ~ (a = 13 /\ 32 <= b) -> shape (4096 * a + 64 * b + c)
| shape_4 a b c d : 0 <= a < 5 -> 0 <= b < 64 -> 0 <= c < 64 -> 0 <= d < 64 ->
    16 <= 64 * a + b < 272 -> shape (262144 * a + 4096 * b + 64 * c + d).

Lemma scalar_shape c : scalar c <-> shape c.
Proof.
  unfold scalar. split.
  - intros [Hc Hs].
    pose proof (Z.div_mod c 64 ltac:(lia)). pose proof (Z.mod_pos_bound c 64 ltac:(lia)).
    pose proof (Z.div_mod (c / 64) 64 ltac:(lia)). pose proof (Z.mod_pos_bound (c / 64) 64 ltac:(lia)).
    pose proof (Z.div_mod (c / 64 / 64) 64 ltac:(lia)).
    pose proof (Z.mod_pos_bound (c / 64 / 64) 64 ltac:(lia)).
    destruct (Z.lt_ge_cases c 128); [apply shape_1; lia|].
    destruct (Z.lt_ge_cases c 2048).
    { replace c with (64 * (c / 64) + c mod 64) by lia. apply shape_2; lia. }
    destruct (Z.lt_ge_cases c 65536).
    { replace c with (4096 * (c / 64 / 64) + 64 * ((c / 64) mod 64) + c mod 64) by lia.
      apply shape_3; lia. }
    replace c with (262144 * (c / 64 / 64 / 64) + 4096 * ((c / 64 / 64) mod 64)
      + 64 * ((c / 64) mod 64) + c mod 64) by lia.
    apply shape_4; lia.
  - destruct 1; lia.
Qed.

Lemma utf8_ok_lead b s :
  128 <= b -> utf8_ok kUTF8NullRange (b :: s) =
    match starts_in b with
    | r :: rs => if rmin r =? 0 then false else utf8_ok rs s
    | [] => false
    end.
Proof. intros Hb. simpl. zdecide. by rewrite find_sequence_starts. Qed.

Lemma utf8_ok_encode c s :
  scalar c -> utf8_ok kUTF8NullRange (encode c ++ s) = utf8_ok kUTF8NullRange s.
Proof.
  intros Hc%scalar_shape. destruct Hc as [c Hc|a b Ha Hb|a b c Ha Hb Hc Hlo Hsur|a b c d Ha Hb Hc Hd Hr].
  - rewrite encode_1 by done. simpl. by zdecide.
  - rewrite encode_2 by done. cbn [app]. rewrite utf8_ok_lead by lia.
    unfold starts_in. zdecide. simpl. unfold in_range; simpl. by zdecide.
  - rewrite encode_3 by done. cbn [app]. rewrite utf8_ok_lead by lia.
    unfold starts_in. zcases; try lia; simpl; unfold in_range; simpl; by zdecide.
  - rewrite encode_4 by (done || lia). cbn [app]. rewrite utf8_ok_lead by lia.
    unfold starts_in. zcases; try lia; simpl; unfold in_range; simpl; by zdecide.
Qed.

Lemma utf8_ok_concat cs s :
  Forall scalar cs -> utf8_ok kUTF8NullRange (concat (encode <$> cs) ++ s) = utf8_ok kUTF8NullRange s.
Proof.
  induction 1 as [|c cs Hc _ IH]; [done|].
  rewrite fmap_cons. simpl. rewrite <- app_assoc, utf8_ok_encode by done. done.
Qed.

(** What one pending range requires of the string. *)
Lemma utf8_ok_pending lo hi rs s :
  lo <> 0 -> utf8_ok (U8range lo hi :: rs) s = true ->
  exists b s', s = b :: s' /\ lo <= b <= hi /\ utf8_ok rs s' = true.
Proof.
  intros Hlo. destruct s as [|b s']; simpl.
  { by destruct (Z.eqb_spec lo 0). }
  destruct (Z.eqb_spec lo 0); [done|]. unfold in_range; simpl.
  rewrite Z.geb_leb. destruct (Z.leb_spec lo b), (Z.leb_spec b hi); simpl; try done.
  intros Hok. by exists b, s'.
Qed.

Lemma utf8_cons c s : scalar c -> utf8 s -> utf8 (encode c ++ s).
Proof. intros Hc (cs & Hcs & ->). exists (c :: cs). split; [by constructor|done]. Qed.

Ltac pending H :=
  apply utf8_ok_pending in H as (?b & ?s & -> & ?Hb & H); [|done].

(** A string that starts with the encoding of a scalar value. *)
Lemma utf8_encoded c l s : shape c -> encode c = l -> utf8 s -> utf8 (l ++ s).
Proof. intros Hc <-. apply utf8_cons. by apply scalar_shape. Qed.

Lemma utf8_row_2 b0 b1 s :
  194 <= b0 <= 223 -> 128 <= b1 <= 191 -> utf8 s -> utf8 (b0 :: b1 :: s).
Proof.
  intros H0 H1. apply (utf8_encoded (64 * (b0 - 192) + (b1 - 128)) [b0; b1]);
    [apply shape_2; lia|rewrite encode_2 by lia; repeat f_equal; lia].
Qed.

Lemma utf8_row_3 b0 b1 b2 s :
  224 <= b0 <= 239 -> 128 <= b1 <= 191 -> 128 <= b2 <= 191 ->
  (b0 = 224 -> 160 <= b1) -> (b0 = 237 -> b1 <= 159) -> utf8 s -> utf8 (b0 :: b1 :: b2 :: s).
Proof.
  intros H0 H1 H2 He Hs.
  apply (utf8_encoded (4096 * (b0 - 224) + 64 * (b1 - 128) + (b2 - 128)) [b0; b1; b2]);
    [apply shape_3; lia|rewrite encode_3 by lia; repeat f_equal; lia].
Qed.

Lemma utf8_row_4 b0 b1 b2 b3 s :
  240 <= b0 <= 244 -> 128 <= b1 <= 191 -> 128 <= b2 <= 191 -> 128 <= b3 <= 191 ->
  (b0 = 240 -> 144 <= b1) -> (b0 = 244 -> b1 <= 143) -> utf8 s ->
  utf8 (b0 :: b1 :: b2 :: b3 :: s).
Proof.
  intros H0 H1 H2 H3 Hf Hl.
  apply (utf8_encoded (262144 * (b0 - 240) + 4096 * (b1 - 128) + 64 * (b2 - 128) + (b3 - 128))
           [b0; b1; b2; b3]);
    [apply shape_4; lia|rewrite encode_4 by lia; repeat f_equal; lia].
Qed.

Lemma utf8_ok_sound_length n : forall s,
  (length s < n)%nat -> is_string s -> utf8_ok kUTF8NullRange s = true -> utf8 s.
Proof.
  induction n as [|n IH]; [lia|]. intros [|b s] Hlen Hs Hok; [by exists []|].
  simpl in Hlen. destruct (Z.lt_ge_cases b 128) as [Hlt|Hge].
  { simpl in Hok. revert Hok. zdecide. intros Hok. apply Forall_cons in Hs as [Hb Hs].
    apply (utf8_encoded b [b]); [apply shape_1; lia|apply encode_1; lia|].
    apply IH; [lia|done|done]. }
  rewrite utf8_ok_lead in Hok by done.
  assert (forall l s', s = l ++ s' -> utf8_ok kUTF8NullRange s' = true -> utf8 s') as Hrec.
  { intros l s' -> Hs'. rewrite length_app in Hlen. apply IH; [lia| |done].
    by apply Forall_cons, proj2, Forall_app, proj2 in Hs. }
  unfold starts_in in Hok. revert Hok. zcases; simpl; intros Hok; try done; repeat pending Hok.
  - apply utf8_row_2; [lia..|]. by eapply (Hrec [_]).
  - apply utf8_row_3; [lia..|]. by eapply (Hrec [_; _]).
  - apply utf8_row_3; [lia..|]. by eapply (Hrec [_; _]).
  - apply utf8_row_3; [lia..|]. by eapply (Hrec [_; _]).
  - apply utf8_row_3; [lia..|]. by eapply (Hrec [_; _]).
  - apply utf8_row_4; [lia..|]. by eapply (Hrec [_; _; _]).
  - apply utf8_row_4; [lia..|]. by eapply (Hrec [_; _; _]).
  - apply utf8_row_4; [lia..|]. by eapply (Hrec [_; _; _]).
Qed.

(** The strict automaton accepts exactly UTF-8. *)
Lemma utf8_ok_iff s : is_string s -> utf8_ok kUTF8NullRange s = true <-> utf8 s.
Proof.
  intros Hs. split.
  - by apply (utf8_ok_sound_length (S (length s))); [lia|].
  - intros (cs & Hcs & ->). pose proof (utf8_ok_concat cs [] Hcs) as H.
    by rewrite app_nil_r in H.
Qed.

(** ** The loop is the automaton, after a byte order mark *)

(** What the loop does before three bytes of the mark, or a byte that differs
    from it, are found among the bytes that are not ASCII. *)
Inductive bom_result : Type :=
| BomEnd                      (** the string ended first *)
| BomSkip (rest : list Z)     (** the mark was read *)
| NoBom.                      (** start again, without a mark *)

Fixpoint bom_phase (k : nat) (s : list Z) : bom_result :=
  match s with
  | [] => BomEnd
  | b :: s' =>
    if b <? 128 then bom_phase k s'
    else if b =? byte_at kUTF8ByteOrderMask k then
      if (k <? 2)%nat then bom_phase (S k) s' else BomSkip s'
    else NoBom
  end.

Definition utf8_result (s : list Z) : bool :=
  match bom_phase 0 s with
  | BomEnd => true
  | BomSkip rest => utf8_ok kUTF8NullRange rest
  | NoBom => utf8_ok kUTF8NullRange s
  end.

Fixpoint terminated (p : list u8range) : Prop :=
  match p with [] => False | r :: rs => rmin r = 0 \/ terminated rs end.

Lemma starts_in_terminated b : exists r rs, starts_in b = r :: rs /\ (rmin r = 0 \/ terminated rs).
Proof. unfold starts_in. zcases; simpl; eexists; eexists; (split; [reflexivity|]); simpl; tauto. Qed.

Section Loop.
Context (s0 : list Z) (Hs0 : is_string s0).

Lemma byte_at_drop pos b s :
  drop pos s0 = b :: s -> byte_at s0 pos = b /\ 0 < b < 256 /\ drop (S pos) s0 = s /\
  (pos < length s0)%nat.
Proof.
  intros Hd. assert (s0 !! pos = Some b) as Hb.
  { rewrite <- (Nat.add_0_r pos), <- lookup_drop, Hd. done. }
  unfold byte_at. rewrite Hb. split; [done|]. split.
  - by eapply (Forall_lookup_1 _ _ _ _ Hs0).
  - split; [|by eapply lookup_lt_Some].
    replace (S pos) with (pos + 1)%nat by lia. by rewrite <- drop_drop, Hd.
Qed.

Lemma byte_at_end pos : drop pos s0 = [] -> byte_at s0 pos = 0.
Proof.
  intros Hd. unfold byte_at. rewrite lookup_ge_None_2; [done|].
  apply (f_equal length) in Hd. rewrite length_drop in Hd. simpl in Hd. lia.
Qed.

Lemma loop_strict s : forall pos rng p fuel,
  drop pos s0 = s -> (pos <= length s0)%nat -> terminated p ->
  rng = Some p \/ rng = None /\ p = kUTF8NullRange ->
  (length s < fuel)%nat ->
  exists pos', utf8_loop fuel s0 (Scanner 3 pos rng) = Some (c_bool (utf8_ok p s), pos') /\
               (pos < pos' <= S (length s0))%nat.
Proof.
  induction s as [|b s IH]; intros pos rng p fuel Hd Hpos Hp Hrng Hfuel;
    (destruct fuel as [|fuel]; [simpl in Hfuel; lia|]); destruct p as [|r rs]; try done.
  - assert ((match rng with None => Some 0 | Some rs => rmin <$> head rs end) = Some (rmin r)) as Hm
      by (by destruct Hrng as [-> |[-> [= -> ->]]]).
    simpl. unfold utf8_step. simpl. rewrite Hm, byte_at_end by done. simpl.
    exists (S pos). split; [|lia]. by destruct (rmin r =? 0).
  - apply byte_at_drop in Hd as (Hb & Hbr & Hd & Hlt).
    assert ((match rng with None => Some 0 | Some rs => rmin <$> head rs end) = Some (rmin r)) as Hm
      by (by destruct Hrng as [-> |[-> [= -> ->]]]).
    simpl in Hfuel. cbn [utf8_loop]. unfold utf8_step. cbn [Utf8.pos range bom_chars].
    rewrite Hm, Hb. cbn [mbind option_bind]. replace (b =? 0) with false by (symmetry; apply Z.eqb_neq; lia).
    cbn [utf8_ok]. destruct (Z.eqb_spec (rmin r) 0) as [Hr|Hr].
    + destruct (Z.ltb_spec b 128).
      { simpl. destruct (IH (S pos) rng (r :: rs) fuel) as (pos' & -> & ?); [done|lia|done|done|lia|].
        exists pos'. split; [done|lia]. }
      simpl. rewrite find_sequence_starts. simpl.
      destruct (starts_in_terminated b) as (r' & rs' & -> & Ht). simpl.
      destruct (Z.eqb_spec (rmin r') 0).
      { exists (S pos). split; [done|lia]. }
      simpl. destruct (IH (S pos) (Some rs') rs' fuel) as (pos' & -> & ?);
        [done|lia|tauto|by left|lia|]. exists pos'. split; [done|lia].
    + destruct Hrng as [-> |[-> [= -> ->]]]; [|done]. simpl.
      destruct (in_range b r).
      2:{ exists (S pos). split; [done|lia]. }
      destruct Hp as [?|Hp]; [done|]. simpl.
      destruct (IH (S pos) (Some rs) rs fuel) as (pos' & -> & ?);
        [done|lia|done|by left|lia|]. exists pos'. split; [done|lia].
Qed.

Lemma loop_bom s : forall pos k fuel,
  drop pos s0 = s -> (pos <= length s0)%nat -> (k < 3)%nat ->
  (length s + length s0 + 2 <= fuel)%nat ->
  exists pos', utf8_loop fuel s0 (Scanner k pos None) =
    Some (c_bool match bom_phase k s with
                 | BomEnd => true
                 | BomSkip rest => utf8_ok kUTF8NullRange rest
                 | NoBom => utf8_ok kUTF8NullRange s0
                 end, pos') /\ (0 < pos' <= S (length s0))%nat.
Proof.
  induction s as [|b s IH]; intros pos k fuel Hd Hpos Hk Hfuel;
    (destruct fuel as [|fuel]; [simpl in Hfuel; lia|]).
  - simpl. unfold utf8_step. simpl. rewrite byte_at_end by done. simpl.
    exists (S pos). split; [done|lia].
  - apply byte_at_drop in Hd as (Hb & Hbr & Hd & Hlt). simpl in Hfuel.
    cbn [utf8_loop]. unfold utf8_step. cbn [Utf8.pos range bom_chars].
    rewrite Hb. cbn [mbind option_bind]. replace (b =? 0) with false by (symmetry; apply Z.eqb_neq; lia).
    cbn [bom_phase Z.eqb]. destruct (Z.ltb_spec b 128); [apply IH; [done|lia..]|].
    change (length kUTF8ByteOrderMask) with 3%nat.
    rewrite (proj2 (Nat.ltb_lt k 3)) by done.
    destruct (Z.eqb_spec b (byte_at kUTF8ByteOrderMask k)) as [Heq|Hne].
    + destruct (Nat.ltb_spec k 2).
      { apply IH; [done|lia..]. }
      replace k with 2%nat by lia. simpl.
      destruct (loop_strict s (S pos) None kUTF8NullRange fuel) as (pos' & -> & ?);
        [done|lia|by left|by right|lia|]. exists pos'. split; [done|lia].
    + simpl. destruct (loop_strict s0 0 None kUTF8NullRange fuel) as (pos' & -> & ?);
        [done|lia|by left|by right|lia|]. exists pos'. split; [done|lia].
Qed.
End Loop.

(** The loop ends, with the automaton's verdict and a position in the string. *)
Lemma valid_utf8_string_eq s :
  is_string s -> Z.of_nat (length s) < 18446744073709551615 ->
  exists bad, valid_utf8_string (Some s) = Some (c_bool (utf8_result s), bad) /\
              0 <= bad <= Z.of_nat (length s).
Proof.
  intros Hs Hlen. unfold valid_utf8_string.
  destruct (loop_bom s Hs s 0 0 (utf8_fuel s)) as (pos' & -> & Hpos);
    [done|lia|lia|unfold utf8_fuel; lia|].
  simpl. unfold utf8_result. eexists. split; [done|].
  rewrite u64_small by lia. lia.
Qed.

(** ** The verdict *)

(** The first byte that is not ASCII. *)
Definition first_wide (s : list Z) : option Z := head (filter (fun b => 128 <= b) s).

Lemma first_wide_cons b s : first_wide (b :: s) = if b <? 128 then first_wide s else Some b.
Proof.
  unfold first_wide. rewrite filter_cons. case_decide; destruct (Z.ltb_spec b 128); done || lia.
Qed.

Lemma utf8_ok_ascii b s :
  b < 128 -> utf8_ok kUTF8NullRange (b :: s) = utf8_ok kUTF8NullRange s.
Proof. intros. simpl. by zdecide. Qed.

Lemma bom_skip_ok s rest :
  utf8_ok kUTF8NullRange s = true -> bom_phase 0 s = BomSkip rest ->
  utf8_ok kUTF8NullRange rest = true.
Proof.
  induction s as [|b s IH]; [done|]. intros Hok. cbn [bom_phase].
  destruct (Z.ltb_spec b 128); [rewrite utf8_ok_ascii in Hok by done; by apply IH|].
  rewrite utf8_ok_lead in Hok by done.
  change (byte_at kUTF8ByteOrderMask 0) with 239.
  destruct (Z.eqb_spec b 239) as [->|]; [|done]. simpl in Hok. repeat pending Hok.
  simpl. zdecide. change (byte_at kUTF8ByteOrderMask 1) with 187.
  change (byte_at kUTF8ByteOrderMask 2) with 191.
  repeat case_match; try done. by intros [= <-].
Qed.

Lemma utf8_result_complete s : is_string s -> utf8 s -> utf8_result s = true.
Proof.
  intros Hs Hu%utf8_ok_iff; [|done]. unfold utf8_result.
  destruct (bom_phase 0 s) eqn:Hb; [done|by eapply bom_skip_ok|done].
Qed.

Lemma utf8_result_sound s :
  first_wide s <> Some 239 -> utf8_result s = utf8_ok kUTF8NullRange s.
Proof.
  intros Hf. unfold utf8_result.
  assert (bom_phase 0 s = NoBom \/ bom_phase 0 s = BomEnd /\ utf8_ok kUTF8NullRange s = true)
    as [-> |[-> ->]]; [|done|done].
  revert Hf. induction s as [|b s IH]; [by right|].
  rewrite first_wide_cons. cbn [bom_phase].
  destruct (Z.ltb_spec b 128) as [Hlt|Hge].
  - rewrite (utf8_ok_ascii b s) by done. exact IH.
  - intros Hne. left. change (byte_at kUTF8ByteOrderMask 0) with 239.
    by destruct (Z.eqb_spec b 239) as [->|].
Qed.

(** The validator ends on every C string, reports a position inside
    it, and accepts every well-formed UTF-8 string, with or without a byte
    order mark. *)
Theorem valid_utf8_string_complete (s : list Z) :
  is_string s -> Z.of_nat (length s) < 18446744073709551615 ->
  exists ret bad, valid_utf8_string (Some s) = Some (ret, bad) /\
    (ret = 0 \/ ret = 1) /\ 0 <= bad <= Z.of_nat (length s) /\
    (utf8 s -> ret = 1).
Proof.
  intros Hs Hlen. destruct (valid_utf8_string_eq s Hs Hlen) as (bad & -> & Hbad).
  eexists; eexists; split; [done|]. split; [destruct (utf8_result s); simpl; lia|].
  split; [done|]. intros Hu. by rewrite utf8_result_complete.
Qed.

Lemma valid_utf8_string_complete_witness :
  exists ret bad, valid_utf8_string (Some [239; 187; 191; 65; 226; 130; 172]) = Some (ret, bad) /\
    (ret = 0 \/ ret = 1) /\ 0 <= bad <= 7 /\ (utf8 [239; 187; 191; 65; 226; 130; 172] -> ret = 1).
Proof.
  apply (valid_utf8_string_complete [239; 187; 191; 65; 226; 130; 172]); [|simpl; lia].
  unfold is_string. repeat constructor; lia.
Defined.

(** Claim C24: on a string whose first byte that is not ASCII is not 0xEF, the
    first byte of the mark, the validator accepts exactly UTF-8. *)
Theorem valid_utf8_string_sound (s : list Z) :
  is_string s -> Z.of_nat (length s) < 18446744073709551615 -> first_wide s <> Some 239 ->
  (exists bad, valid_utf8_string (Some s) = Some (1, bad)) <-> utf8 s.
Proof.
  intros Hs Hlen Hf. destruct (valid_utf8_string_eq s Hs Hlen) as (bad & -> & _).
  rewrite utf8_result_sound by done. rewrite <- utf8_ok_iff by done.
  destruct (utf8_ok kUTF8NullRange s); simpl; split; try done.
  - intros _. by exists bad.
  - by intros [? ?].
Qed.

Lemma valid_utf8_string_sound_witness :
  (exists bad, valid_utf8_string (Some [65; 194; 169]) = Some (1, bad)) <-> utf8 [65; 194; 169].
Proof.
  apply valid_utf8_string_sound; [unfold is_string; repeat constructor; lia|simpl; lia|done].
Defined.

Lemma bom_phase_ascii k s t :
  Forall (fun b => b < 128) s -> bom_phase k (s ++ t) = bom_phase k t.
Proof.
  induction 1 as [|b s Hb _ IH]; [done|]. simpl. by zdecide.
Qed.

(** A byte 0xEF followed only by ASCII is accepted, although it is no
    UTF-8: the loop takes it for the start of a byte order mark and never
    asks for the rest. *)
Theorem partial_mark_accepted (s t : list Z) :
  is_string (s ++ 239 :: t) -> Z.of_nat (length (s ++ 239 :: t)) < 18446744073709551615 ->
  Forall (fun b => b < 128) s -> Forall (fun b => b < 128) t ->
  (exists bad, valid_utf8_string (Some (s ++ 239 :: t)) = Some (1, bad)) /\
  ~ utf8 (s ++ 239 :: t).
Proof.
  intros Hs Hlen Has Hat. split.
  - destruct (valid_utf8_string_eq _ Hs Hlen) as (bad & -> & _). exists bad.
    unfold utf8_result. rewrite bom_phase_ascii by done. simpl.
    rewrite <- (app_nil_r t). by rewrite bom_phase_ascii.
  - rewrite <- utf8_ok_iff by done. clear Hs Hlen. induction Has as [|b s Hb _ IH].
    + cbn [app]. rewrite utf8_ok_lead by lia. simpl. destruct t as [|b t]; [done|]. simpl.
      apply Forall_cons in Hat as [Hb _]. unfold in_range; simpl. by zdecide.
    + cbn [app]. by rewrite utf8_ok_ascii.
Qed.

Lemma partial_mark_accepted_witness :
  (exists bad, valid_utf8_string (Some ([65] ++ 239 :: [66])) = Some (1, bad)) /\
  ~ utf8 ([65] ++ 239 :: [66]).
Proof.
  apply partial_mark_accepted; [unfold is_string| | |]; simpl; repeat constructor; lia.
Defined.
