(* ===== verification/AudioFormat.v ===== *)
(** * Audio formats (common/cras_audio_format.c and .h)

    The format record of a stream or a device, its packing for the wire, and
    the channel matrix that maps one channel layout to another.  The sample
    width comes from ALSA: [pcm_library] is what the code takes from it. *)
From S2P Require Import Prelude Arrays Float32.
#[local] Open Scope Z_scope.

(** ALSA: [snd_pcm_format_physical_width] in bits, or a negative error, and
    the one format code the repository names without giving its value. *)
Class pcm_library : Type := {
  snd_pcm_format_physical_width : Z -> Z;
  SND_PCM_FORMAT_S24_3LE : Z;
}.

Definition SND_PCM_FORMAT_UNKNOWN : Z := -1.
Definition SND_PCM_FORMAT_U8 : Z := 1.
Definition SND_PCM_FORMAT_S16_LE : Z := 2.
Definition SND_PCM_FORMAT_S24_LE : Z := 6.
Definition SND_PCM_FORMAT_S32_LE : Z := 10.

(** The documented widths of the formats the server converts. *)
Class pcm_documented {P : pcm_library} : Prop := {
  width_u8 : snd_pcm_format_physical_width SND_PCM_FORMAT_U8 = 8;
  width_s16 : snd_pcm_format_physical_width SND_PCM_FORMAT_S16_LE = 16;
  width_s24_3 : snd_pcm_format_physical_width SND_PCM_FORMAT_S24_3LE = 24;
  width_s24 : snd_pcm_format_physical_width SND_PCM_FORMAT_S24_LE = 32;
  width_s32 : snd_pcm_format_physical_width SND_PCM_FORMAT_S32_LE = 32;
  s24_3_other : SND_PCM_FORMAT_S24_3LE ∉
    [SND_PCM_FORMAT_U8; SND_PCM_FORMAT_S16_LE; SND_PCM_FORMAT_S24_LE; SND_PCM_FORMAT_S32_LE];
}.
Arguments pcm_documented : clear implicits.

(** A library with those widths, for the concrete examples. *)
Definition alsa_example : pcm_library := {|
  snd_pcm_format_physical_width f :=
    if f =? 1 then 8 else if f =? 2 then 16 else if f =? 32 then 24
    else if (f =? 6) || (f =? 10) then 32 else - EINVAL;
  SND_PCM_FORMAT_S24_3LE := 32 |}.

Lemma alsa_example_documented : pcm_documented alsa_example.
Proof. split; try done. by apply (bool_decide_unpack _); vm_compute. Qed.

(** [enum CRAS_CHANNEL]. *)
Definition CRAS_CH_FL : Z := 0.
Definition CRAS_CH_FR : Z := 1.
Definition CRAS_CH_RL : Z := 2.
Definition CRAS_CH_RR : Z := 3.
Definition CRAS_CH_FC : Z := 4.
Definition CRAS_CH_LFE : Z := 5.
Definition CRAS_CH_SL : Z := 6.
Definition CRAS_CH_SR : Z := 7.
Definition CRAS_CH_RC : Z := 8.
Definition CRAS_CH_FLC : Z := 9.
Definition CRAS_CH_FRC : Z := 10.
Definition CRAS_CH_MAX : Z := 11.

Record cras_audio_format : Type := AudioFormat {
  format : Z;
  frame_rate : Z;
  num_channels : Z;
  channel_layout : list Z;   (* [CRAS_CH_MAX] values of type [int8_t] *)
}.

Record cras_audio_format_packed : Type := PackedFormat {
  p_format : Z;
  p_frame_rate : Z;
  p_num_channels : Z;
  p_channel_layout : list Z;
}.

Definition pack_cras_audio_format (src : cras_audio_format) : cras_audio_format_packed :=
  PackedFormat (s32 (format src)) (u32 (frame_rate src)) (u32 (num_channels src))
    (channel_layout src).

Definition unpack_cras_audio_format (src : cras_audio_format_packed) : cras_audio_format :=
  AudioFormat (p_format src) (p_frame_rate src) (p_num_channels src) (p_channel_layout src).

(** [num_channels] is cast to [int] before the layout is compared with it. *)
Definition layout_pos (fmt : cras_audio_format) (ch : Z) : Z := zget (channel_layout fmt) ch.

Definition layout_in_range (fmt : cras_audio_format) (v : Z) : bool :=
  negb (v >=? s32 (num_channels fmt)).

Definition cras_get_format_bytes {P : pcm_library} (fmt : cras_audio_format) : Z :=
  let bytes := Z.quot (snd_pcm_format_physical_width (format fmt)) 8 in
  u64 (u64 bytes * num_channels fmt).

Definition default_layout (n : Z) : list Z :=
  (fun i => if Z.of_nat i <? n then Z.of_nat i else -1) <$> seq 0 (Z.to_nat CRAS_CH_MAX).

Definition cras_audio_format_set_default_channel_layout (fmt : cras_audio_format)
  : cras_audio_format :=
  AudioFormat (format fmt) (frame_rate fmt) (num_channels fmt) (default_layout (num_channels fmt)).

Definition cras_audio_format_create (calloc_ok : bool) (fm rate channels : Z)
  : option cras_audio_format :=
  if calloc_ok then Some (AudioFormat fm rate channels (default_layout channels)) else None.

Definition cras_audio_format_set_channel_layout (fmt : cras_audio_format) (layout : list Z)
  : Z * cras_audio_format :=
  if forallb (layout_in_range fmt) layout
  then (0, AudioFormat (format fmt) (frame_rate fmt) (num_channels fmt) layout)
  else (- EINVAL, fmt).

Definition cras_audio_format_valid (fmt : cras_audio_format) : bool :=
  forallb (layout_in_range fmt) (channel_layout fmt).

(** ** The channel conversion matrix *)

(** [channel_alt[x]]: the channels [x] may be mapped to instead. *)
Definition channel_alt (x y : Z) : bool :=
  ((x =? CRAS_CH_RL) && (y =? CRAS_CH_SL)) || ((x =? CRAS_CH_RR) && (y =? CRAS_CH_SR)) ||
  ((x =? CRAS_CH_SL) && (y =? CRAS_CH_RL)) || ((x =? CRAS_CH_SR) && (y =? CRAS_CH_RR)).

Definition matrix : Type := list (list spec_float).

Definition cras_channel_conv_matrix_alloc (alloc_ok : bool) (in_ch out_ch : Z) : option matrix :=
  if alloc_ok then Some (replicate (Z.to_nat out_ch) (replicate (Z.to_nat in_ch) float_zero))
  else None.

(** Freeing the rows dereferences the array of rows. *)
Definition cras_channel_conv_matrix_destroy (p : option matrix) (out_ch : Z) : option unit :=
  match p with Some _ => Some () | None => if out_ch =? 0 then Some () else None end.

(** [mtx[o][i] = v], a null dereference when the allocation failed. *)
Definition mtx_set (mtx : option matrix) (o i : Z) (v : spec_float) : option (option matrix) :=
  m ← mtx; row ← ld m o; row ← st row i v; Some <$> st m o row.

(** The first channel [alt] to which channel [ch] of the input may go. *)
Fixpoint find_alt (fuel : nat) (alt : Z) (i o : cras_audio_format) (ch : Z) : option Z :=
  match fuel with
  | O => None
  | S fuel =>
      if channel_alt ch alt && (layout_pos i alt =? -1) && negb (layout_pos o alt =? -1)
      then Some alt else find_alt fuel (alt + 1) i o ch
  end.

(** The body of the loop over the channels: [inr] goes on with the matrix,
    [inl] is the jump to [fail]. *)
Definition conv_matrix_channel (i o : cras_audio_format) (ch : Z) (mtx : option matrix)
  : option (option matrix + option matrix) :=
  if (layout_pos i ch =? -1) && (layout_pos o ch =? -1) then Some (inr mtx)
  else if negb (layout_pos i ch =? -1) && negb (layout_pos o ch =? -1) then
    inr <$> mtx_set mtx (layout_pos o ch) (layout_pos i ch) float_one
  else if negb (layout_pos i ch =? -1) then
    match find_alt (Z.to_nat CRAS_CH_MAX) 0 i o ch with
    | Some alt => inr <$> mtx_set mtx (layout_pos o alt) (layout_pos i ch) float_one
    | None => Some (inl mtx)
    end
  else Some (inr mtx).

Fixpoint conv_matrix_loop (chs : list Z) (i o : cras_audio_format) (mtx : option matrix)
  : option (option matrix + option matrix) :=
  match chs with
  | [] => Some (inr mtx)
  | ch :: chs =>
      r ← conv_matrix_channel i o ch mtx;
      match r with inl mtx => Some (inl mtx) | inr mtx => conv_matrix_loop chs i o mtx end
  end.

Definition CHANNELS : list Z := Z.of_nat <$> seq 0 (Z.to_nat CRAS_CH_MAX).

(** [None]: undefined behaviour; [Some None]: the [NULL] result.  The code does
    not test the allocation. *)
Definition cras_channel_conv_matrix_create (alloc_ok : bool) (i o : cras_audio_format)
  : option (option matrix) :=
  if forallb (fun ch => layout_in_range i (layout_pos i ch) && layout_in_range o (layout_pos o ch))
       CHANNELS
  then
    r ← conv_matrix_loop CHANNELS i o
          (cras_channel_conv_matrix_alloc alloc_ok (num_channels i) (num_channels o));
    match r with
    | inr mtx => Some mtx
    | inl mtx => _ ← cras_channel_conv_matrix_destroy mtx (num_channels o); Some None
    end
  else Some None.

(** ** Layouts *)

(** A layout as documented: each channel has a position below the channel
    count, or [-1]. *)
Definition layout_ok (fmt : cras_audio_format) : Prop :=
  0 <= num_channels fmt < 2147483648 /\
  length (channel_layout fmt) = 11%nat /\
  Forall (fun v => -1 <= v < num_channels fmt) (channel_layout fmt).

Lemma layout_pos_ok (fmt : cras_audio_format) (ch : Z) :
  layout_ok fmt -> 0 <= ch < CRAS_CH_MAX -> -1 <= layout_pos fmt ch < num_channels fmt.
Proof.
  intros (_ & Hl & Hall) Hch. unfold layout_pos, zget.
  rewrite Forall_lookup in Hall. eapply Hall.
  apply list_lookup_lookup_total_lt. unfold CRAS_CH_MAX in Hch. lia.
Qed.

Lemma channel_range (ch : Z) : ch ∈ CHANNELS <-> 0 <= ch < CRAS_CH_MAX.
Proof.
  unfold CHANNELS, CRAS_CH_MAX. rewrite list_elem_of_fmap. split.
  - intros (k & -> & Hk%elem_of_seq). lia.
  - intros. exists (Z.to_nat ch). rewrite elem_of_seq. lia.
Qed.

Lemma default_layout_ok fm rate n :
  0 <= n < 2147483648 -> layout_ok (AudioFormat fm rate n (default_layout n)).
Proof.
  intros Hn. split_and!; simpl; [lia..|]. apply Forall_fmap, Forall_forall. simpl.
  intros k _. zcases; lia.
Qed.

Lemma layout_ok_valid (fmt : cras_audio_format) :
  layout_ok fmt -> cras_audio_format_valid fmt = true.
Proof.
  intros (Hn & _ & Hall). apply forallb_forall. intros v Hv%list_elem_of_In.
  rewrite Forall_forall in Hall. specialize (Hall v Hv).
  unfold layout_in_range. rewrite s32_small by lia. by zdecide.
Qed.

(** ** What the conversion matrix maps *)

(** Where the code sends the input channel [ch]: its own position in the output,
    or else that of the side or rear channel that may stand for it. *)
Definition target (i o : cras_audio_format) (ch : Z) : option Z :=
  if negb (layout_pos o ch =? -1) then Some (layout_pos o ch)
  else layout_pos o <$> find_alt (Z.to_nat CRAS_CH_MAX) 0 i o ch.

Definition entry (m : matrix) (o i : Z) : option spec_float := row ← ld m o; ld row i.

Definition matrix_dims (m : matrix) (o i : Z) : Prop :=
  Z.of_nat (length m) = o /\ Forall (fun row => Z.of_nat (length row) = i) m.

Lemma mtx_set_spec (m : matrix) (no ni o i : Z) (v : spec_float) :
  matrix_dims m no ni -> 0 <= o < no -> 0 <= i < ni ->
  exists m', mtx_set (Some m) o i v = Some (Some m') /\ matrix_dims m' no ni /\
    forall a b, entry m' a b = if (a =? o) && (b =? i) then Some v else entry m a b.
Proof.
  intros [Hm Hrows] Ho Hi. unfold mtx_set; simpl.
  destruct (lookup_lt_is_Some_2 m (Z.to_nat o)) as [row Hrow]; [lia|].
  assert (Hlen : Z.of_nat (length row) = ni) by exact (Forall_lookup_1 _ _ _ _ Hrows Hrow).
  replace (ld m o) with (Some row) by (unfold ld; by zdecide). simpl.
  rewrite st_Some by lia. simpl. rewrite st_Some by lia. simpl. eexists. split_and!; [done| |].
  - split; [by rewrite length_insert|]. apply Forall_insert; [done|]. by rewrite length_insert.
  - intros a b. unfold entry, ld. destruct (Z.leb_spec 0 a); simpl.
    2:{ destruct (Z.eqb_spec a o); [lia|done]. }
    destruct (Z.eqb_spec a o) as [->|Hne]; simpl.
    2:{ rewrite list_lookup_insert_ne by lia. done. }
    rewrite list_lookup_insert_eq by lia. rewrite Hrow. simpl.
    destruct (Z.leb_spec 0 b); simpl; [|by destruct (Z.eqb_spec b i); [lia|]].
    destruct (Z.eqb_spec b i) as [->|Hne]; simpl.
    + apply list_lookup_insert_eq. lia.
    + apply list_lookup_insert_ne. lia.
Qed.

Lemma find_alt_spec (n : nat) (a : Z) (i o : cras_audio_format) (ch alt : Z) :
  find_alt n a i o ch = Some alt ->
  a <= alt < a + Z.of_nat n /\ channel_alt ch alt = true /\
  layout_pos i alt = -1 /\ layout_pos o alt <> -1.
Proof.
  revert a. induction n as [|n IH]; intros a; simpl; [done|].
  destruct (channel_alt ch a && _ && _) eqn:Hc.
  - intros [= ->]. rewrite !andb_true_iff, negb_true_iff in Hc. destruct Hc as [[? ?] ?].
    split_and!; [lia | lia | done | lia..].
  - intros (? & ? & ? & ?)%IH. split_and!; [lia | lia | done..].
Qed.

#[local] Arguments find_alt : simpl never.
#[local] Arguments Z.to_nat : simpl never.

Section Matrix.
Context (i o : cras_audio_format) (Hi : layout_ok i) (Ho : layout_ok o).

(** The entry of the matrix after the channels [chs]: one where a channel of
    the input is sent, zero elsewhere. *)
Definition mapped (chs : list Z) (a b : Z) : Prop :=
  exists ch, ch ∈ chs /\ layout_pos i ch = b /\ b <> -1 /\ target i o ch = Some a.

Definition matrix_maps (chs : list Z) (m : matrix) : Prop :=
  matrix_dims m (num_channels o) (num_channels i) /\
  forall a b, 0 <= a < num_channels o -> 0 <= b < num_channels i ->
    entry m a b = Some float_one /\ mapped chs a b \/
    entry m a b = Some float_zero /\ ~ mapped chs a b.

Lemma target_range (ch a : Z) :
  0 <= ch < CRAS_CH_MAX -> target i o ch = Some a -> 0 <= a < num_channels o.
Proof.
  intros Hch. unfold target. destruct (Z.eqb_spec (layout_pos o ch) (-1)); simpl.
  - destruct (find_alt (Z.to_nat CRAS_CH_MAX) 0 i o ch) as [alt|] eqn:Hf; simpl; [|done]. intros [= <-].
    apply find_alt_spec in Hf. pose proof (layout_pos_ok o alt Ho). unfold CRAS_CH_MAX in *. lia.
  - intros [= <-]. pose proof (layout_pos_ok o ch Ho Hch). lia.
Qed.

Lemma alloc_maps : matrix_maps [] (replicate (Z.to_nat (num_channels o))
                     (replicate (Z.to_nat (num_channels i)) float_zero)).
Proof.
  destruct Hi as [Hni _], Ho as [Hno _]. split.
  - split; [rewrite length_replicate; lia|]. apply Forall_replicate. rewrite length_replicate. lia.
  - intros a b Ha Hb. right. split; [|by intros (ch & ?%elem_of_nil & _)].
    unfold entry, ld. zdecide. rewrite lookup_replicate_2 by lia. simpl.
    by rewrite lookup_replicate_2 by lia.
Qed.

Lemma mapped_app (chs : list Z) (ch a b : Z) :
  mapped (chs ++ [ch]) a b <->
  mapped chs a b \/ (layout_pos i ch = b /\ b <> -1 /\ target i o ch = Some a).
Proof.
  unfold mapped. split.
  - intros (c & [?| ->%list_elem_of_singleton]%elem_of_app & ?); eauto.
  - intros [(c & ? & ?)|?]; [exists c|exists ch]; set_solver.
Qed.

(** One channel: sent to its target, skipped when the input has not got it, and
    a failure exactly when the output has no place for it. *)
Lemma conv_matrix_channel_spec (chs : list Z) (ch : Z) (m : matrix) :
  matrix_maps chs m -> 0 <= ch < CRAS_CH_MAX ->
  match conv_matrix_channel i o ch (Some m) with
  | Some (inr (Some m')) =>
      matrix_maps (chs ++ [ch]) m' /\ (layout_pos i ch <> -1 -> target i o ch <> None)
  | Some (inl (Some _)) => layout_pos i ch <> -1 /\ target i o ch = None
  | _ => False
  end.
Proof.
  intros [Hd Hm] Hch. pose proof (layout_pos_ok i ch Hi Hch). unfold conv_matrix_channel.
  destruct (Z.eqb_spec (layout_pos i ch) (-1)) as [Hnone|Hsome]; simpl.
  { assert (matrix_maps (chs ++ [ch]) m) 
      by (split; [done|]; intros x y Hx Hy; rewrite mapped_app;
          destruct (Hm x y Hx Hy) as [[? ?]|[? ?]]; [left|right]; naive_solver congruence).
    destruct (layout_pos o ch =? -1); simpl; done. }
  assert (Hset : forall a, target i o ch = Some a ->
    match (inr <$> mtx_set (Some m) a (layout_pos i ch) float_one
             : option (option matrix + option matrix)) with
    | Some (inr (Some m')) =>
        matrix_maps (chs ++ [ch]) m' /\ (layout_pos i ch <> -1 -> target i o ch <> None)
    | Some (inl (Some _)) => layout_pos i ch <> -1 /\ target i o ch = None
    | _ => False
    end).
  { intros a Ha. pose proof (target_range ch a Hch Ha).
    destruct (mtx_set_spec m _ _ a (layout_pos i ch) float_one Hd) as (m' & -> & Hd' & He); [lia..|].
    simpl. split; [split; [done|]|by rewrite Ha]. intros x y Hx Hy. rewrite He, mapped_app.
    destruct (Z.eqb_spec x a) as [->|]; simpl; [|destruct (Hm x y Hx Hy); naive_solver].
    destruct (Z.eqb_spec y (layout_pos i ch)) as [->|]; simpl; [naive_solver|].
    destruct (Hm a y Hx Hy); naive_solver. }
  unfold target in Hset |- *. destruct (Z.eqb_spec (layout_pos o ch) (-1)); simpl in *; [|by apply Hset].
  destruct (find_alt (Z.to_nat CRAS_CH_MAX) 0 i o ch) as [alt|]; simpl in *; [by apply Hset|done].
Qed.

Lemma conv_matrix_loop_spec (rest done : list Z) (m : matrix) :
  CHANNELS = done ++ rest -> matrix_maps done m ->
  match conv_matrix_loop rest i o (Some m) with
  | Some (inr (Some m')) =>
      matrix_maps CHANNELS m' /\ forall ch, ch ∈ rest -> layout_pos i ch <> -1 -> target i o ch <> None
  | Some (inl (Some _)) => exists ch, ch ∈ rest /\ layout_pos i ch <> -1 /\ target i o ch = None
  | _ => False
  end.
Proof.
  revert done m. induction rest as [|ch rest IH]; intros done m Hall Hm; simpl.
  { rewrite app_nil_r in Hall. subst done. split; [done|]. by intros ? ?%elem_of_nil. }
  assert (Hch : 0 <= ch < CRAS_CH_MAX) by (apply channel_range; rewrite Hall; set_solver).
  pose proof (conv_matrix_channel_spec done ch m Hm Hch) as Hc.
  destruct (conv_matrix_channel _ _ _ _) as [[[]|[m'|]]|]; simpl; try done.
  - exists ch. set_solver.
  - destruct Hc as [Hm' Ht]. specialize (IH (done ++ [ch]) m').
    rewrite <- app_assoc in IH. specialize (IH Hall Hm').
    destruct (conv_matrix_loop _ _ _ _) as [[[]|[]]|]; try done; [set_solver|].
    destruct IH as [? IH]. split; [done|]. intros c [->|?]%elem_of_cons; auto.
Qed.
End Matrix.

Lemma conv_matrix_spec (i o : cras_audio_format) :
  layout_ok i -> layout_ok o ->
  match cras_channel_conv_matrix_create true i o with
  | Some (Some m) =>
      matrix_maps i o CHANNELS m /\
      forall ch, 0 <= ch < CRAS_CH_MAX -> layout_pos i ch <> -1 -> target i o ch <> None
  | Some None => exists ch, 0 <= ch < CRAS_CH_MAX /\ layout_pos i ch <> -1 /\ target i o ch = None
  | None => False
  end.
Proof.
  intros Hi Ho. unfold cras_channel_conv_matrix_create.
  replace (forallb _ _) with true.
  2:{ symmetry. apply forallb_forall. intros ch Hch%list_elem_of_In%channel_range.
      pose proof (layout_pos_ok i ch Hi Hch). pose proof (layout_pos_ok o ch Ho Hch).
      unfold layout_in_range. destruct Hi as [? _], Ho as [? _].
      rewrite !s32_small by lia. by zdecide. }
  pose proof (conv_matrix_loop_spec i o Hi Ho CHANNELS [] _ eq_refl (alloc_maps i o Hi Ho)) as Hl.
  unfold cras_channel_conv_matrix_alloc.
  destruct (conv_matrix_loop _ _ _ _) as [[[]|[]]|]; simpl; try done.
  - destruct Hl as (ch & Hch%channel_range & ?). by exists ch.
  - destruct Hl as [? Hl]. split; [done|]. intros ch Hch. apply Hl. by apply channel_range.
Qed.

(** Between two documented layouts [cras_channel_conv_matrix_create]
    is defined, and gives up exactly when some channel of the input has no place
    in the output.  The matrix it returns has a one where a channel of the input
    meets its target, its own place or its side/rear alternative, and zeros
    elsewhere. *)
Theorem conv_matrix_maps_channels (i o : cras_audio_format) :
  layout_ok i -> layout_ok o ->
  match cras_channel_conv_matrix_create true i o with
  | Some (Some m) =>
      matrix_maps i o CHANNELS m /\
      forall ch, 0 <= ch < CRAS_CH_MAX -> layout_pos i ch <> -1 -> target i o ch <> None
  | Some None => exists ch, 0 <= ch < CRAS_CH_MAX /\ layout_pos i ch <> -1 /\ target i o ch = None
  | None => False
  end.
Proof. apply conv_matrix_spec. Qed.

Definition surround_51 : cras_audio_format :=
  AudioFormat SND_PCM_FORMAT_S16_LE 48000 6 [0; 1; 2; 3; 4; 5; -1; -1; -1; -1; -1].
Definition side_51 : cras_audio_format :=
  AudioFormat SND_PCM_FORMAT_S16_LE 48000 6 [1; 0; -1; -1; 2; 3; 4; 5; -1; -1; -1].

Lemma layout_examples : layout_ok surround_51 /\ layout_ok side_51.
Proof. split; (split_and!; simpl; [lia..|repeat constructor; lia]). Qed.

Lemma conv_matrix_maps_channels_witness :
  exists m, cras_channel_conv_matrix_create true surround_51 side_51 = Some (Some m) /\
    matrix_maps surround_51 side_51 CHANNELS m /\ entry m 4 2 = Some float_one.
Proof.
  pose proof (conv_matrix_maps_channels surround_51 side_51
                (proj1 layout_examples) (proj2 layout_examples)) as H.
  assert (exists m, cras_channel_conv_matrix_create true surround_51 side_51 = Some (Some m) /\
            entry m 4 2 = Some float_one) as (m & E & He)
    by (eexists; split; vm_compute; reflexivity).
  exists m. rewrite E in H. split_and!; [done|apply H|done].
Defined.

(** The check of a client's layout lets a position below [-1] through:
    the format is valid, and the conversion matrix is then written outside its
    rows. *)
Theorem negative_position_accepted (f fm rate n v : Z) :
  0 < n < 2147483648 -> -128 <= v < -1 ->
  let fmt := AudioFormat fm rate n (replicate 11 v) in
  cras_audio_format_valid fmt = true /\
  fst (cras_audio_format_set_channel_layout (AudioFormat f rate n (default_layout n))
         (channel_layout fmt)) = 0 /\
  cras_channel_conv_matrix_create true fmt fmt = None.
Proof.
  intros Hn Hv fmt.
  assert (Hr : forall g, num_channels g = n -> layout_in_range g v = true).
  { intros g Hg. unfold layout_in_range. rewrite Hg, s32_small by lia. by zdecide. }
  assert (Hp : forall ch, 0 <= ch < CRAS_CH_MAX -> layout_pos fmt ch = v).
  { intros ch Hch. unfold layout_pos, zget. apply lookup_total_replicate_2.
    unfold CRAS_CH_MAX in Hch. lia. }
  split_and!.
  - unfold cras_audio_format_valid, fmt. simpl. by rewrite !Hr by done.
  - unfold cras_audio_format_set_channel_layout, fmt. simpl. by rewrite !Hr by done.
  - unfold cras_channel_conv_matrix_create.
    replace (forallb _ _) with true.
    2:{ symmetry. apply forallb_forall. intros ch Hch%list_elem_of_In%channel_range.
        by rewrite Hp, Hr by done. }
    enough (H : forall m, conv_matrix_channel fmt fmt 0 m = None).
    { change CHANNELS with (0 :: (Z.of_nat <$> seq 1 10)). cbn [conv_matrix_loop].
      by rewrite H. }
    intros m. unfold conv_matrix_channel. rewrite Hp by done. zdecide. cbn [negb andb].
    unfold mtx_set. destruct m as [m|]; simpl; [|done]. unfold ld. by zdecide.
Qed.

Lemma negative_position_accepted_witness :
  cras_channel_conv_matrix_create true (AudioFormat 2 48000 6 (replicate 11 (-2)))
    (AudioFormat 2 48000 6 (replicate 11 (-2))) = None.
Proof. by apply (negative_position_accepted 2 2 48000 6 (-2)). Defined.
