(* ===== verification/FmtConvOps.v ===== *)
(** * Sample format and channel converters (server/cras_fmt_conv_ops.c)

    The inner loops of the format converter.  An array of 16 bit samples is
    listed as [int16_t], of 32 bit samples as [int32_t], whatever pointer type
    the loop uses; 8 bit samples and packed 24 bit samples are bytes.  The host
    is little endian, as [htole16] being the identity says. *)
From S2P Require Import Prelude Arrays Float32 AudioFormat.
#[local] Open Scope Z_scope.

Definition SHRT_MIN : Z := -32768.
Definition SHRT_MAX : Z := 32767.

Definition s16_add_and_clip (a b : Z) : Z :=
  let a := s16 a in
  let b := s16 b in
  let sum := cmax (a + b) SHRT_MIN in
  s16 (cmin sum SHRT_MAX).

(** ** Sample formats *)

(** The loop of a converter that maps one sample to one sample. *)
Definition convert_samples (f : Z -> Z) (inp : list Z) (in_samples : Z) (out : list Z)
  : option (list Z) :=
  for_n in_samples (fun i out => x ← ld inp i; st out i (f x)) out.

Definition convert_u8_to_s16le : list Z -> Z -> list Z -> option (list Z) :=
  convert_samples (fun x => s16 (Z.shiftl (u16 (x - 128)) 8)).

Definition convert_s243le_to_s16le (inp : list Z) (in_samples : Z) (out : list Z)
  : option (list Z) :=
  for_n in_samples (fun i out =>
    lo ← ld inp (3 * i + 1); hi ← ld inp (3 * i + 2); st out i (s16 (lo + 256 * hi))) out.

Definition convert_s24le_to_s16le : list Z -> Z -> list Z -> option (list Z) :=
  convert_samples (fun x => s16 (Z.shiftr (Z.land x 16777215) 8)).

Definition convert_s32le_to_s16le : list Z -> Z -> list Z -> option (list Z) :=
  convert_samples (fun x => s16 (Z.shiftr x 16)).

Definition convert_s16le_to_u8 : list Z -> Z -> list Z -> option (list Z) :=
  convert_samples (fun x => u8 (u8 (Z.shiftr x 8) + 128)).

Definition convert_s16le_to_s243le (inp : list Z) (in_samples : Z) (out : list Z)
  : option (list Z) :=
  for_n in_samples (fun i out =>
    out ← st out (3 * i) 0;
    x ← ld inp i;
    out ← st out (3 * i + 1) (u8 x);
    st out (3 * i + 2) (u8 (Z.shiftr x 8))) out.

Definition convert_s16le_to_s24le : list Z -> Z -> list Z -> option (list Z) :=
  convert_samples (fun x => s32 (u32 (Z.shiftl (u32 x) 8))).

Definition convert_s16le_to_s32le : list Z -> Z -> list Z -> option (list Z) :=
  convert_samples (fun x => s32 (u32 (Z.shiftl (u32 x) 16))).

(** ** Channels *)

(** [(size_t)-1], the value of a channel position that is not set. *)
Definition NO_CH : Z := 18446744073709551615.

(** The index [k * i + c], computed in [size_t]. *)
Definition idx (k i c : Z) : Z := u64 (k * i + c).

(** [memset(out, 0, bytes)] on 16 bit samples; an odd last byte is the low half
    of a sample. *)
Definition memset_s16 (out : list Z) (bytes : Z) : option (list Z) :=
  if bytes <=? 2 * Z.of_nat (length out) then
    let out := zeroed (Z.to_nat (bytes / 2)) out in
    if Z.odd bytes then x ← ld out (bytes / 2); st out (bytes / 2) (s16 (256 * (u16 x / 256)))
    else Some out
  else None.

Definition s16_mono_to_stereo (inp : list Z) (in_frames : Z) (out : list Z)
  : option (Z * list Z) :=
  out ← for_n in_frames (fun i out =>
    x ← ld inp i;
    out ← st out (idx 2 i 0) x;
    st out (idx 2 i 1) x) out;
  Some (in_frames, out).

Definition s16_stereo_to_mono (inp : list Z) (in_frames : Z) (out : list Z)
  : option (Z * list Z) :=
  out ← for_n in_frames (fun i out =>
    l ← ld inp (idx 2 i 0);
    r ← ld inp (idx 2 i 1);
    st out i (s16_add_and_clip l r)) out;
  Some (in_frames, out).

Definition s16_mono_to_51 (left right center : Z) (inp : list Z) (in_frames : Z) (out : list Z)
  : option (Z * list Z) :=
  out ← memset_s16 out (u64 (2 * 6 * in_frames));
  out ←
    (if negb (center =? NO_CH) then
       for_n in_frames (fun i out => x ← ld inp i; st out (idx 6 i center) x) out
     else if negb (left =? NO_CH) && negb (right =? NO_CH) then
       for_n in_frames (fun i out =>
         x ← ld inp i;
         out ← st out (idx 6 i right) (Z.quot x 2);
         st out (idx 6 i left) (Z.quot x 2)) out
     else for_n in_frames (fun i out => x ← ld inp i; st out (idx 6 i 0) x) out);
  Some (in_frames, out).

Definition s16_stereo_to_51 (left right center : Z) (inp : list Z) (in_frames : Z) (out : list Z)
  : option (Z * list Z) :=
  out ← memset_s16 out (u64 (2 * 6 * in_frames));
  out ←
    (if negb (left =? NO_CH) && negb (right =? NO_CH) then
       for_n in_frames (fun i out =>
         l ← ld inp (idx 2 i 0);
         out ← st out (idx 6 i left) l;
         r ← ld inp (idx 2 i 1);
         st out (idx 6 i right) r) out
     else if negb (center =? NO_CH) then
       for_n in_frames (fun i out =>
         l ← ld inp (idx 2 i 0);
         r ← ld inp (idx 2 i 1);
         st out (idx 6 i center) (s16_add_and_clip l r)) out
     else
       for_n in_frames (fun i out =>
         l ← ld inp (idx 2 i 0);
         out ← st out (idx 6 i 0) l;
         r ← ld inp (idx 2 i 1);
         st out (idx 6 i 1) r) out);
  Some (in_frames, out).

(** [half_center] is an [unsigned int]; the call converts it back to 16 bits. *)
Definition s16_51_to_stereo (inp : list Z) (in_frames : Z) (out : list Z)
  : option (Z * list Z) :=
  out ← for_n in_frames (fun i out =>
    c ← ld inp (idx 6 i 4);
    let half_center := u32 (Z.quot c 2) in
    l ← ld inp (idx 6 i 0);
    out ← st out (idx 2 i 0) (s16_add_and_clip l half_center);
    r ← ld inp (idx 6 i 1);
    st out (idx 2 i 1) (s16_add_and_clip r half_center)) out;
  Some (in_frames, out).

Definition s16_stereo_to_quad (front_left front_right rear_left rear_right : Z)
    (inp : list Z) (in_frames : Z) (out : list Z) : option (Z * list Z) :=
  let quad fl fr rl rr :=
    for_n in_frames (fun i out =>
      l ← ld inp (idx 2 i 0);
      out ← st out (idx 4 i fl) l;
      r ← ld inp (idx 2 i 1);
      out ← st out (idx 4 i fr) r;
      out ← st out (idx 4 i rl) l;
      st out (idx 4 i rr) r) out in
  out ←
    (if negb (front_left =? NO_CH) && negb (front_right =? NO_CH) &&
        negb (rear_left =? NO_CH) && negb (rear_right =? NO_CH)
     then quad front_left front_right rear_left rear_right
     else quad 0 1 2 3);
  Some (in_frames, out).

Definition s16_quad_to_stereo (front_left front_right rear_left rear_right : Z)
    (inp : list Z) (in_frames : Z) (out : list Z) : option (Z * list Z) :=
  let '(front_left, front_right, rear_left, rear_right) :=
    if (front_left =? NO_CH) || (front_right =? NO_CH) ||
       (rear_left =? NO_CH) || (rear_right =? NO_CH)
    then (0, 1, 2, 3) else (front_left, front_right, rear_left, rear_right) in
  out ← for_n in_frames (fun i out =>
    fl ← ld inp (idx 4 i front_left);
    rl ← ld inp (idx 4 i rear_left);
    out ← st out (idx 2 i 0) (s16_add_and_clip fl (Z.quot rl 4));
    fr ← ld inp (idx 4 i front_right);
    rr ← ld inp (idx 4 i rear_right);
    st out (idx 2 i 1) (s16_add_and_clip fr (Z.quot rr 4))) out;
  Some (in_frames, out).

(** The sample is divided in [size_t], where a negative one is huge. *)
Definition mix_term (old x num_in_ch : Z) : option Z :=
  q ← udiv (u64 x) num_in_ch; Some (s16 (u64 (u64 old + q))).

Definition s16_default_all_to_all {P : pcm_library} (out_fmt : cras_audio_format)
    (num_in_ch num_out_ch : Z) (inp : list Z) (in_frames : Z) (out : list Z)
  : option (Z * list Z) :=
  out ← memset_s16 out (u64 (in_frames * cras_get_format_bytes out_fmt));
  out ← for_n num_out_ch (fun out_ch out =>
    for_n num_in_ch (fun in_ch out =>
      for_n in_frames (fun i out =>
        x ← ld inp (u64 (in_ch + i * num_in_ch));
        old ← ld out (u64 (out_ch + i * num_out_ch));
        v ← mix_term old x num_in_ch;
        st out (u64 (out_ch + i * num_out_ch)) v) out) out) out;
  Some (in_frames, out).

(** [buf] is the sample at [base]; the sum goes back to [int] at every step. *)
Definition s16_multiply_buf_with_coef (coef : list spec_float) (inp : list Z) (base size : Z)
  : option Z :=
  sum ← for_n size (fun i sum =>
    c ← ld coef i;
    x ← ld inp (base + i);
    f32_to_s32 (f32_add (f32_of_Z sum) (f32_mul c (f32_of_Z x)))) 0;
  let sum := cmax sum (-32768) in
  let sum := cmin sum 32767 in
  Some (s16 sum).

Definition s16_convert_channels (ch_conv_mtx : matrix) (num_in_ch num_out_ch : Z)
    (inp : list Z) (in_frames : Z) (out : list Z) : option (Z * list Z) :=
  r ← for_n in_frames (fun fr '((in_idx, out_idx), out) =>
    out ← for_n num_out_ch (fun i out =>
      row ← ld ch_conv_mtx i;
      v ← s16_multiply_buf_with_coef row inp in_idx num_in_ch;
      st out (u32 (out_idx + i)) v) out;
    Some ((u32 (in_idx + num_in_ch), u32 (out_idx + num_out_ch)), out)) ((0, 0), out);
  Some (in_frames, r.2).

(** ** One sample *)

Definition clip (z : Z) : Z := Z.max SHRT_MIN (Z.min SHRT_MAX z).

Lemma add_and_clip_spec a b : s16_add_and_clip a b = clip (s16 a + s16 b).
Proof.
  unfold s16_add_and_clip, clip, SHRT_MIN, SHRT_MAX. rewrite cmin_min, cmax_max.
  pose proof (s16_range a). pose proof (s16_range b). unfold is_s16 in *.
  rewrite s16_small; lia.
Qed.

Lemma add_and_clip_s16 a b :
  is_s16 a -> is_s16 b -> s16_add_and_clip a b = clip (a + b).
Proof. intros. by rewrite add_and_clip_spec, !s16_small. Qed.

Lemma half_center_s16 c : is_s16 c -> s16 (u32 (Z.quot c 2)) = Z.quot c 2.
Proof.
  unfold is_s16, s16, u32. intros Hc. Z.to_euclidean_division_equations. lia.
Qed.

Lemma u8_to_s16_value x : is_u8 x -> s16 (Z.shiftl (u16 (x - 128)) 8) = 256 * (x - 128).
Proof.
  unfold is_u8. intros. rewrite Z.shiftl_mul_pow2 by lia. change (2 ^ 8) with 256. wrap_lia.
Qed.

Lemma s16_to_u8_value x : is_s16 x -> u8 (u8 (Z.shiftr x 8) + 128) = x / 256 + 128.
Proof. intros. rewrite Z.shiftr_div_pow2 by lia. change (2 ^ 8) with 256. wrap_lia. Qed.

Lemma s16_to_s24_value x : is_s16 x -> s32 (u32 (Z.shiftl (u32 x) 8)) = 256 * x.
Proof. intros. rewrite Z.shiftl_mul_pow2 by lia. change (2 ^ 8) with 256. wrap_lia. Qed.

Lemma s16_to_s32_value x : is_s16 x -> s32 (u32 (Z.shiftl (u32 x) 16)) = 65536 * x.
Proof. intros. rewrite Z.shiftl_mul_pow2 by lia. change (2 ^ 16) with 65536. wrap_lia. Qed.

Lemma s24_to_s16_value x :
  s16 (Z.shiftr (Z.land x 16777215) 8) = s16 (x / 256).
Proof.
  change 16777215 with (Z.ones 24). rewrite Z.land_ones by lia.
  rewrite Z.shiftr_div_pow2 by lia. change (2 ^ 24) with 16777216. change (2 ^ 8) with 256.
  wrap_lia.
Qed.

Lemma s32_to_s16_value x : is_s32 x -> s16 (Z.shiftr x 16) = x / 65536.
Proof. intros. rewrite Z.shiftr_div_pow2 by lia. change (2 ^ 16) with 65536. wrap_lia. Qed.

Lemma bytes_to_s16_value x : is_s16 x -> s16 (u8 x + 256 * u8 (Z.shiftr x 8)) = x.
Proof. intros. rewrite Z.shiftr_div_pow2 by lia. change (2 ^ 8) with 256. wrap_lia. Qed.

(** ** A buffer of samples *)

Lemma convert_samples_spec (f : Z -> Z) (inp out : list Z) (n : nat) :
  (n <= length inp)%nat -> (n <= length out)%nat ->
  convert_samples f inp (Z.of_nat n) out = Some ((f <$> take n inp) ++ drop n out).
Proof.
  intros Hi Ho. unfold convert_samples, for_n. rewrite Nat2Z.id.
  rewrite <- (take_drop n out) at 1.
  rewrite <- (app_nil_l (take n out ++ _)).
  assert (Hl : length (take n out) = n) by (rewrite length_take; lia).
  rewrite <- Hl at 1.
  rewrite (for_fill (fun j => f (zget inp (Z.of_nat j)))).
  - rewrite Hl. simpl. do 2 f_equal. rewrite <- (fmap_zget_seq (take n inp)).
    rewrite length_take, Nat.min_l by lia. rewrite <- list_fmap_compose. apply fmap_seq_ext.
    intros j Hj. unfold compose, zget. rewrite Nat2Z.id, lookup_total_take, decide_True by lia. done.
  - intros i m Hlt. rewrite ld_total by lia. simpl. done.
Qed.

Lemma convert_s243le_to_s16le_spec (inp out : list Z) (n : nat) :
  (3 * n <= length inp)%nat -> (n <= length out)%nat ->
  convert_s243le_to_s16le inp (Z.of_nat n) out
  = Some (((fun i => s16 (zget inp (3 * Z.of_nat i + 1) + 256 * zget inp (3 * Z.of_nat i + 2)))
             <$> seq 0 n) ++ drop n out).
Proof.
  intros Hi Ho. unfold convert_s243le_to_s16le, for_n. rewrite Nat2Z.id.
  assert (Hl : length (take n out) = n) by (rewrite length_take; lia).
  rewrite <- (take_drop n out) at 1. rewrite <- (app_nil_l (take n out ++ _)).
  rewrite <- Hl at 1.
  rewrite (for_fill (fun i => s16 (zget inp (3 * Z.of_nat i + 1) + 256 * zget inp (3 * Z.of_nat i + 2)))).
  - by rewrite Hl.
  - intros i m Hlt. rewrite !ld_total by lia. simpl. done.
Qed.

(** One step of a loop body, and the writes to the frame it treats. *)
Ltac bind := cbn [mbind option_bind].

Lemma st_frame {A} (k i : nat) (p b s : list A) (c : Z) (v : A) :
  length p = (k * i)%nat -> length b = k -> 0 <= c < Z.of_nat k ->
  st (p ++ b ++ s) (Z.of_nat k * Z.of_nat i + c) v = Some (p ++ <[Z.to_nat c := v]> b ++ s).
Proof. intros. rewrite st_middle by lia. do 4 f_equal. lia. Qed.

Lemma convert_s16le_to_s243le_spec (inp out : list Z) (n : nat) :
  (n <= length inp)%nat -> (3 * n <= length out)%nat ->
  convert_s16le_to_s243le inp (Z.of_nat n) out
  = Some (frames 3 n (fun i _ => let x := zget inp (Z.of_nat i) in [0; u8 x; u8 (Z.shiftr x 8)]) out).
Proof.
  intros Hi Ho. unfold convert_s16le_to_s243le, for_n. rewrite Nat2Z.id.
  apply for_frames; [done| |done]. intros i p b s Hlt Hp Hb.
  destruct b as [|b0 [|b1 [|b2 [|]]]]; try done.
  assert (E : forall b c v, length b = 3%nat -> 0 <= c < 3 ->
    st (p ++ b ++ s) (3 * Z.of_nat i + c) v = Some (p ++ <[Z.to_nat c := v]> b ++ s))
    by (intros; by apply (st_frame 3)).
  rewrite <- (Z.add_0_r (3 * Z.of_nat i)) at 1.
  rewrite E by (done || lia). bind. rewrite ld_total by lia. bind.
  rewrite E by (done || lia). bind. by rewrite E by (done || lia).
Qed.

(** Sixteen bit samples survive the wider formats.  Converting to 32
    bits, to 24 bits in 32 or to packed 24 bits and back returns every sample;
    an 8 bit sample survives 16 bits; and converting to 8 bits keeps the high
    byte. *)
Theorem sample_formats_roundtrip (xs tmp out : list Z) :
  Forall is_s16 xs -> length out = length xs ->
  let n := Z.of_nat (length xs) in
  (length tmp = length xs ->
     (t ← convert_s16le_to_s32le xs n tmp; convert_s32le_to_s16le t n out) = Some xs /\
     (t ← convert_s16le_to_s24le xs n tmp; convert_s24le_to_s16le t n out) = Some xs /\
     (t ← convert_s16le_to_u8 xs n tmp; convert_u8_to_s16le t n out)
       = Some ((fun x => 256 * (x / 256)) <$> xs) /\
     (Forall is_u8 xs ->
        (t ← convert_u8_to_s16le xs n tmp; convert_s16le_to_u8 t n out) = Some xs)) /\
  (length tmp = (3 * length xs)%nat ->
     (t ← convert_s16le_to_s243le xs n tmp; convert_s243le_to_s16le t n out) = Some xs).
Proof.
  intros Hxs Hout n. split.
  - intros Htmp.
    assert (Hconv : forall P f g h, (forall x, P x -> g (f x) = h x) -> Forall P xs ->
      (t ← convert_samples f xs n tmp; convert_samples g t n out) = Some (h <$> xs)).
    { intros P f g h Hgf HP. unfold n. rewrite convert_samples_spec by lia. simpl.
      rewrite drop_ge, app_nil_r, take_ge by lia.
      rewrite convert_samples_spec by (rewrite ?length_fmap; lia).
      rewrite drop_ge, app_nil_r, take_ge by (rewrite ?length_fmap; lia). f_equal.
      rewrite <- list_fmap_compose. apply Forall_fmap_ext_1. by eapply Forall_impl. }
    replace (Some xs) with (Some (id <$> xs)) by (by rewrite list_fmap_id).
    split_and!.
    + apply (Hconv is_s16); [|done]. intros x Hx. unfold compose, id.
      rewrite s16_to_s32_value by done. rewrite s32_to_s16_value by wrap_lia. wrap_lia.
    + apply (Hconv is_s16); [|done]. intros x Hx. unfold compose, id.
      rewrite s16_to_s24_value by done. rewrite s24_to_s16_value.
      replace (256 * x / 256) with x by wrap_lia. by apply s16_small.
    + apply (Hconv is_s16); [|done]. intros x Hx. unfold compose.
      rewrite s16_to_u8_value by done. rewrite u8_to_s16_value by wrap_lia. lia.
    + intros Hu. apply (Hconv is_u8); [|done]. intros x Hx. unfold compose, id.
      rewrite u8_to_s16_value by done. rewrite s16_to_u8_value by wrap_lia. wrap_lia.
  - intros Htmp. unfold n. rewrite convert_s16le_to_s243le_spec by lia. simpl.
    set (g := fun i (_ : list Z) => _).
    assert (Hg : forall i b, length b = 3%nat -> length (g i b) = 3%nat) by done.
    rewrite convert_s243le_to_s16le_spec by (rewrite ?(frames_length 3) by (done || lia); lia).
    rewrite drop_ge, app_nil_r by lia. f_equal.
    rewrite <- (fmap_zget_seq xs) at 2. apply fmap_seq_ext. intros j Hj.
    assert (Hz : forall c, 0 <= c < 3 ->
      zget (frames 3 (length xs) g tmp) (3 * Z.of_nat j + c) = g j [] !!! Z.to_nat c).
    { intros c Hc. unfold zget. apply list_lookup_total_correct.
      replace (Z.to_nat (3 * Z.of_nat j + c)) with (3 * j + Z.to_nat c)%nat by lia.
      rewrite (frames_lookup 3 _ g Hg) by lia. unfold g.
      assert (c = 0 \/ c = 1 \/ c = 2) as [->|[->| ->]] by lia; done. }
    rewrite !Hz by lia. unfold g. simpl.
    apply bytes_to_s16_value. rewrite Forall_lookup in Hxs. eapply Hxs.
    apply list_lookup_lookup_total_lt. unfold zget. lia.
Qed.

Lemma sample_formats_roundtrip_witness :
  (t ← convert_s16le_to_s243le [-32768; -1; 0; 32767] 4 (replicate 12 7);
   convert_s243le_to_s16le t 4 (replicate 4 9)) = Some [-32768; -1; 0; 32767].
Proof.
  apply (sample_formats_roundtrip [-32768; -1; 0; 32767] (replicate 12 7) (replicate 4 9));
    [repeat constructor; unfold is_s16; lia | done | done].
Defined.

(** ** Frames *)

(** An array the address space holds. *)
Definition fits (m : list Z) : Prop := Z.of_nat (length m) < 18446744073709551616.

(** A channel position: not set, or one of the [k] samples of a frame. *)
Definition position (k c : Z) : Prop := c = NO_CH \/ 0 <= c < k.

Lemma st_idx (k i : nat) (kz c v : Z) (p b s : list Z) :
  kz = Z.of_nat k -> length p = (k * i)%nat -> length b = k -> 0 <= c < kz ->
  Z.of_nat (k * S i) < 18446744073709551616 ->
  st (p ++ b ++ s) (idx kz (Z.of_nat i) c) v = Some (p ++ <[Z.to_nat c := v]> b ++ s).
Proof. intros -> ????. unfold idx. rewrite u64_small by nia. by apply st_frame. Qed.

Lemma ld_idx (k i n : nat) (kz c : Z) (inp : list Z) :
  kz = Z.of_nat k -> 0 <= c < kz -> (i < n)%nat -> (k * n <= length inp)%nat -> fits inp ->
  ld inp (idx kz (Z.of_nat i) c) = Some (zget inp (kz * Z.of_nat i + c)).
Proof.
  intros -> ????. unfold idx, fits in *. rewrite u64_small by nia. apply ld_total. nia.
Qed.

Lemma memset_s16_even (out : list Z) (n : nat) :
  (n <= length out)%nat -> fits out -> Z.of_nat (length out) < 9223372036854775808 ->
  memset_s16 out (u64 (2 * Z.of_nat n)) = Some (zeroed n out).
Proof.
  intros Hn _ Hf. unfold memset_s16. rewrite u64_small by lia. zdecide.
  rewrite Z.odd_mul. simpl. replace (2 * Z.of_nat n / 2) with (Z.of_nat n) by (rewrite Z.mul_comm, Z.div_mul; lia).
  by rewrite Nat2Z.id.
Qed.

Ltac frame_side :=
  solve [ done | by rewrite ?length_insert | unfold fits in *; lia | unfold fits in *; nia ].

Lemma set_position (k c : Z) : position k c -> c <> NO_CH -> 0 <= c < k.
Proof. by intros [?|?]. Qed.

(** Turns the positions that are set into bounds. *)
Ltac set_positions :=
  repeat match goal with
  | Hp : position ?k ?c, Hn : ?c <> NO_CH |- _ =>
      pose proof (set_position k c Hp Hn); clear Hp
  end.

(** Runs the stores of a loop body on its frame of [k] samples. *)
Ltac frame_stores k := bind; repeat (rewrite (st_idx k) by frame_side; bind); done.

(** A loop over a cleared array, given what a pass does to its frame. *)
Ltac zeroed_frames g :=
  match goal with n : nat |- _ =>
    rewrite (for_frames_zeroed 6 n g); [bind; done | intros; by rewrite ?length_insert | | done]
  end.

Section Channels.
Context (inp out : list Z) (n : nat).
Hypotheses (Hinp : fits inp) (Hout : Z.of_nat (length out) < 9223372036854775808).

(** Sample [c] of the [i]-th input frame of [k] samples. *)
Definition smp (k : Z) (i : nat) (c : Z) : Z := zget inp (k * Z.of_nat i + c).

Lemma mono_to_stereo_frames :
  (n <= length inp)%nat -> (2 * n <= length out)%nat ->
  s16_mono_to_stereo inp (Z.of_nat n) out =
  Some (Z.of_nat n, frames 2 n (fun i _ => [smp 1 i 0; smp 1 i 0]) out).
Proof.
  intros Hi Ho. unfold s16_mono_to_stereo, for_n. rewrite Nat2Z.id.
  rewrite (for_frames 2 n (fun i _ => [smp 1 i 0; smp 1 i 0])); [done|done| |done].
  intros i p b s Hlt Hp Hb. destruct b as [|b0 [|b1 [|]]]; try done.
  rewrite ld_total by lia. bind.
  rewrite (st_idx 2) by frame_side. bind. rewrite (st_idx 2) by frame_side.
  unfold smp. do 3 f_equal. simpl. repeat f_equal; lia.
Qed.

Definition half (z : Z) : Z := Z.quot z 2.
Definition silence51 : list Z := replicate 6 0.

(** A frame of 5.1 made from one sample, and from two. *)
Definition mono_51_frame (left right center x : Z) : list Z :=
  if negb (center =? NO_CH) then <[Z.to_nat center := x]> silence51
  else if negb (left =? NO_CH) && negb (right =? NO_CH)
  then <[Z.to_nat left := half x]> (<[Z.to_nat right := half x]> silence51)
  else <[0%nat := x]> silence51.

Definition stereo_51_frame (left right center l r : Z) : list Z :=
  if negb (left =? NO_CH) && negb (right =? NO_CH)
  then <[Z.to_nat right := r]> (<[Z.to_nat left := l]> silence51)
  else if negb (center =? NO_CH) then <[Z.to_nat center := s16_add_and_clip l r]> silence51
  else [l; r; 0; 0; 0; 0].

Lemma mono_to_51_frames (left right center : Z) :
  (n <= length inp)%nat -> (6 * n <= length out)%nat ->
  position 6 left -> position 6 right -> position 6 center ->
  s16_mono_to_51 left right center inp (Z.of_nat n) out =
  Some (Z.of_nat n, frames 6 n (fun i _ => mono_51_frame left right center (smp 1 i 0)) out).
Proof.
  intros Hi Ho Hl Hr Hc. unfold s16_mono_to_51, mono_51_frame, silence51, for_n.
  replace (2 * 6 * Z.of_nat n) with (2 * Z.of_nat (6 * n)) by lia.
  rewrite memset_s16_even by (done || unfold fits; lia). bind. rewrite Nat2Z.id.
  assert (Hsmp : forall i, zget inp (Z.of_nat i) = smp 1 i 0) by (intros; unfold smp; f_equal; lia).
  destruct (Z.eqb_spec center NO_CH) as [|Hcc]; cbn [negb];
    [destruct (Z.eqb_spec left NO_CH), (Z.eqb_spec right NO_CH); cbn [negb andb]|]; set_positions.
  4: zeroed_frames (fun (i : nat) (f : list Z) =>
       <[Z.to_nat left := half (smp 1 i 0)]> (<[Z.to_nat right := half (smp 1 i 0)]> f)).
  1-3: zeroed_frames (fun (i : nat) (f : list Z) => <[0%nat := smp 1 i 0]> f).
  5: zeroed_frames (fun (i : nat) (f : list Z) => <[Z.to_nat center := smp 1 i 0]> f).
  all: intros i p b s Hlt Hp Hb; rewrite ld_total by lia; bind; rewrite Hsmp; frame_stores 6%nat.
Qed.

Lemma stereo_to_51_frames (left right center : Z) :
  (2 * n <= length inp)%nat -> (6 * n <= length out)%nat ->
  position 6 left -> position 6 right -> position 6 center ->
  s16_stereo_to_51 left right center inp (Z.of_nat n) out =
  Some (Z.of_nat n,
        frames 6 n (fun i _ => stereo_51_frame left right center (smp 2 i 0) (smp 2 i 1)) out).
Proof.
  intros Hi Ho Hl Hr Hc. unfold s16_stereo_to_51, stereo_51_frame, silence51, for_n.
  replace (2 * 6 * Z.of_nat n) with (2 * Z.of_nat (6 * n)) by lia.
  rewrite memset_s16_even by (done || unfold fits; lia). bind. rewrite Nat2Z.id.
  assert (Hld : forall i c, (i < n)%nat -> 0 <= c < 2 ->
    ld inp (idx 2 (Z.of_nat i) c) = Some (smp 2 i c)) by (intros; by apply (ld_idx 2 i n)).
  destruct (Z.eqb_spec left NO_CH), (Z.eqb_spec right NO_CH); cbn [negb andb];
    try match goal with |- context [center =? NO_CH] =>
          destruct (Z.eqb_spec center NO_CH); cbn [negb] end; set_positions.
  7: zeroed_frames (fun (i : nat) (f : list Z) =>
       <[Z.to_nat right := smp 2 i 1]> (<[Z.to_nat left := smp 2 i 0]> f)).
  1,3,5: zeroed_frames (fun (i : nat) (f : list Z) => <[1%nat := smp 2 i 1]> (<[0%nat := smp 2 i 0]> f)).
  4-6: zeroed_frames (fun (i : nat) (f : list Z) =>
       <[Z.to_nat center := s16_add_and_clip (smp 2 i 0) (smp 2 i 1)]> f).
  all: intros i p b s Hlt Hp Hb; rewrite !Hld by lia; bind; rewrite ?Hld by lia; frame_stores 6%nat.
Qed.

(** A quad frame: every sample of the old frame is replaced when the four
    positions are distinct. *)
Definition quad_frame (fl fr rl rr l r : Z) (f : list Z) : list Z :=
  <[Z.to_nat rr := r]> (<[Z.to_nat rl := l]> (<[Z.to_nat fr := r]> (<[Z.to_nat fl := l]> f))).

Definition stereo_quad_frame (fl fr rl rr l r : Z) (f : list Z) : list Z :=
  if negb (fl =? NO_CH) && negb (fr =? NO_CH) && negb (rl =? NO_CH) && negb (rr =? NO_CH)
  then quad_frame fl fr rl rr l r f else [l; r; l; r].

Lemma stereo_to_quad_frames (fl fr rl rr : Z) :
  (2 * n <= length inp)%nat -> (4 * n <= length out)%nat ->
  position 4 fl -> position 4 fr -> position 4 rl -> position 4 rr ->
  s16_stereo_to_quad fl fr rl rr inp (Z.of_nat n) out =
  Some (Z.of_nat n,
        frames 4 n (fun i f => stereo_quad_frame fl fr rl rr (smp 2 i 0) (smp 2 i 1) f) out).
Proof.
  intros Hi Ho Hfl Hfr Hrl Hrr. unfold s16_stereo_to_quad, stereo_quad_frame, for_n.
  rewrite Nat2Z.id.
  assert (Hld : forall i c, (i < n)%nat -> 0 <= c < 2 ->
    ld inp (idx 2 (Z.of_nat i) c) = Some (smp 2 i c)) by (intros; by apply (ld_idx 2 i n)).
  assert (Hquad : forall a b c d, 0 <= a < 4 -> 0 <= b < 4 -> 0 <= c < 4 -> 0 <= d < 4 ->
    for_loop n 0 (fun i out => l ← ld inp (idx 2 i 0); out ← st out (idx 4 i a) l;
       r ← ld inp (idx 2 i 1); out ← st out (idx 4 i b) r; out ← st out (idx 4 i c) l;
       st out (idx 4 i d) r) out
    = Some (frames 4 n (fun i f => quad_frame a b c d (smp 2 i 0) (smp 2 i 1) f) out)).
  { intros a b c d Ha Hb Hc Hd. apply for_frames; [intros; unfold quad_frame; by rewrite !length_insert| |done].
    intros i p f s Hlt Hp Hf. rewrite Hld by lia. bind. rewrite Hld by lia.
    unfold quad_frame. frame_stores 4%nat. }
  destruct (Z.eqb_spec fl NO_CH), (Z.eqb_spec fr NO_CH), (Z.eqb_spec rl NO_CH), (Z.eqb_spec rr NO_CH);
    cbn [negb andb]; set_positions; rewrite Hquad by done; bind; try done.
  all: do 2 f_equal; apply frames_ext; [|done]; intros i Hlt.
  all: assert (Hlen : length (take 4 (drop (4 * i) out)) = 4%nat)
         by (rewrite length_take, length_drop; lia).
  all: by destruct (take 4 (drop (4 * i) out)) as [|? [|? [|? [|? [|]]]]].
Qed.

(** Down to stereo and mono: the sums are clipped, not wrapped. *)
Hypothesis Hs16 : Forall is_s16 inp.

Lemma smp_s16 (k : nat) (i : nat) (c : Z) :
  (i < n)%nat -> (k * n <= length inp)%nat -> 0 <= c < Z.of_nat k -> is_s16 (smp (Z.of_nat k) i c).
Proof.
  intros Hlt Hk Hc. unfold smp, zget. rewrite Forall_lookup in Hs16. eapply Hs16.
  apply list_lookup_lookup_total_lt. nia.
Qed.

Lemma stereo_to_mono_frames :
  (2 * n <= length inp)%nat -> (n <= length out)%nat ->
  s16_stereo_to_mono inp (Z.of_nat n) out =
  Some (Z.of_nat n, frames 1 n (fun i _ => [clip (smp 2 i 0 + smp 2 i 1)]) out).
Proof.
  intros Hi Ho. unfold s16_stereo_to_mono, for_n. rewrite Nat2Z.id.
  rewrite (for_frames 1 n (fun i _ => [clip (smp 2 i 0 + smp 2 i 1)])); [done|done| |lia].
  intros i p b s Hlt Hp Hb. rewrite !(ld_idx 2 i n) by frame_side. bind.
  pose proof (smp_s16 2 i) as Hr. change (Z.of_nat 2) with 2 in Hr.
  fold (smp 2 i 0) (smp 2 i 1). rewrite add_and_clip_s16 by (apply Hr; lia).
  destruct b as [|b0 [|]]; try done.
  pose proof (st_frame 1 i p [b0] s 0 (clip (smp 2 i 0 + smp 2 i 1)) Hp eq_refl ltac:(lia)) as E.
  replace (Z.of_nat 1 * Z.of_nat i + 0) with (Z.of_nat i) in E by lia. exact E.
Qed.

Lemma s16_51_to_stereo_frames :
  (6 * n <= length inp)%nat -> (2 * n <= length out)%nat ->
  s16_51_to_stereo inp (Z.of_nat n) out =
  Some (Z.of_nat n, frames 2 n (fun i _ =>
    [clip (smp 6 i 0 + half (smp 6 i 4)); clip (smp 6 i 1 + half (smp 6 i 4))]) out).
Proof.
  intros Hi Ho. unfold s16_51_to_stereo, for_n. rewrite Nat2Z.id.
  rewrite (for_frames 2 n (fun i _ =>
    [clip (smp 6 i 0 + half (smp 6 i 4)); clip (smp 6 i 1 + half (smp 6 i 4))])); [done|done| |lia].
  intros i p b s Hlt Hp Hb. destruct b as [|b0 [|b1 [|]]]; try done.
  pose proof (smp_s16 6 i) as Hr. change (Z.of_nat 6) with 6 in Hr.
  rewrite !(ld_idx 6 i n) by frame_side. bind. fold (smp 6 i 0) (smp 6 i 1) (smp 6 i 4).
  rewrite !add_and_clip_spec, half_center_s16 by (apply Hr; lia).
  rewrite !s16_small by (apply Hr; lia). frame_stores 2%nat.
Qed.

Definition quad_stereo_frame (fl fr rl rr : Z) (i : nat) : list Z :=
  [clip (smp 4 i fl + Z.quot (smp 4 i rl) 4); clip (smp 4 i fr + Z.quot (smp 4 i rr) 4)].

Lemma quad_to_stereo_frames (fl fr rl rr : Z) :
  (4 * n <= length inp)%nat -> (2 * n <= length out)%nat ->
  position 4 fl -> position 4 fr -> position 4 rl -> position 4 rr ->
  s16_quad_to_stereo fl fr rl rr inp (Z.of_nat n) out =
  Some (Z.of_nat n, frames 2 n (fun i _ =>
    if (fl =? NO_CH) || (fr =? NO_CH) || (rl =? NO_CH) || (rr =? NO_CH)
    then quad_stereo_frame 0 1 2 3 i else quad_stereo_frame fl fr rl rr i) out).
Proof.
  intros Hi Ho Hfl Hfr Hrl Hrr. unfold s16_quad_to_stereo, for_n. rewrite Nat2Z.id.
  assert (Hquad : forall a b c d, 0 <= a < 4 -> 0 <= b < 4 -> 0 <= c < 4 -> 0 <= d < 4 ->
    for_loop n 0 (fun i out => fl ← ld inp (idx 4 i a); rl ← ld inp (idx 4 i c);
       out ← st out (idx 2 i 0) (s16_add_and_clip fl (Z.quot rl 4));
       fr ← ld inp (idx 4 i b); rr ← ld inp (idx 4 i d);
       st out (idx 2 i 1) (s16_add_and_clip fr (Z.quot rr 4))) out
    = Some (frames 2 n (fun i _ => quad_stereo_frame a b c d i) out)).
  { intros a b c d Ha Hb Hc Hd. apply for_frames; [done| |done].
    intros i p f s Hlt Hp Hf. destruct f as [|f0 [|f1 [|]]]; try done.
    pose proof (smp_s16 4 i) as Hr. change (Z.of_nat 4) with 4 in Hr.
    assert (Hq : forall c, 0 <= c < 4 -> is_s16 (Z.quot (smp 4 i c) 4)).
    { intros e He. specialize (Hr e Hlt ltac:(lia) He). unfold is_s16 in *. wrap_lia. }
    rewrite !(ld_idx 4 i n) by frame_side. bind.
    fold (smp 4 i a) (smp 4 i b) (smp 4 i c) (smp 4 i d).
    rewrite !add_and_clip_s16 by (auto with lia). frame_stores 2%nat. }
  destruct (Z.eqb_spec fl NO_CH), (Z.eqb_spec fr NO_CH), (Z.eqb_spec rl NO_CH), (Z.eqb_spec rr NO_CH);
    cbn [orb]; set_positions; by rewrite Hquad.
Qed.
End Channels.

(** The converters to more channels fill whole frames.  A mono sample
    goes to both stereo channels, to the front center of 5.1 or halved to its
    front pair; a stereo pair goes to the front pair of 5.1 or mixed to its
    center, and to both pairs of a quad frame; every other 5.1 channel is silent,
    and nothing beyond the frames is written. *)
Theorem upmix_frames (inp out : list Z) (n : nat) (left right center fl fr rl rr : Z) :
  fits inp -> Z.of_nat (length out) < 9223372036854775808 ->
  position 6 left -> position 6 right -> position 6 center ->
  position 4 fl -> position 4 fr -> position 4 rl -> position 4 rr ->
  let s := smp inp in
  ((n <= length inp)%nat -> (2 * n <= length out)%nat ->
   s16_mono_to_stereo inp (Z.of_nat n) out =
   Some (Z.of_nat n, frames 2 n (fun i _ => [s 1 i 0; s 1 i 0]) out)) /\
  ((n <= length inp)%nat -> (6 * n <= length out)%nat ->
   s16_mono_to_51 left right center inp (Z.of_nat n) out =
   Some (Z.of_nat n, frames 6 n (fun i _ => mono_51_frame left right center (s 1 i 0)) out)) /\
  ((2 * n <= length inp)%nat -> (6 * n <= length out)%nat ->
   s16_stereo_to_51 left right center inp (Z.of_nat n) out =
   Some (Z.of_nat n, frames 6 n (fun i _ => stereo_51_frame left right center (s 2 i 0) (s 2 i 1)) out)) /\
  ((2 * n <= length inp)%nat -> (4 * n <= length out)%nat ->
   s16_stereo_to_quad fl fr rl rr inp (Z.of_nat n) out =
   Some (Z.of_nat n, frames 4 n (fun i f => stereo_quad_frame fl fr rl rr (s 2 i 0) (s 2 i 1) f) out)).
Proof.
  intros Hi Ho ??????? s. split_and!; intros.
  - by apply mono_to_stereo_frames.
  - by apply mono_to_51_frames.
  - by apply stereo_to_51_frames.
  - by apply stereo_to_quad_frames.
Qed.

Lemma upmix_frames_witness :
  s16_stereo_to_51 0 1 4 [10; -20; 30; -40] 2 (replicate 13 7)
  = Some (2, [10; -20; 0; 0; 0; 0; 30; -40; 0; 0; 0; 0; 7]).
Proof.
  pose proof (upmix_frames [10; -20; 30; -40] (replicate 13 7) 2 0 1 4 0 1 2 3) as H.
  apply H; unfold fits, position; simpl; lia.
Defined.

(** The converters to fewer channels add and clip.  Mono is the sum of
    a stereo pair; stereo takes half of the 5.1 center, or a quarter of the rear
    channels, on each side; a sum outside 16 bits becomes the nearest bound and
    never wraps. *)
Theorem downmix_frames (inp out : list Z) (n : nat) (fl fr rl rr : Z) :
  fits inp -> Z.of_nat (length out) < 9223372036854775808 -> Forall is_s16 inp ->
  position 4 fl -> position 4 fr -> position 4 rl -> position 4 rr ->
  let s := smp inp in
  ((2 * n <= length inp)%nat -> (n <= length out)%nat ->
   s16_stereo_to_mono inp (Z.of_nat n) out =
   Some (Z.of_nat n, frames 1 n (fun i _ => [clip (s 2 i 0 + s 2 i 1)]) out)) /\
  ((6 * n <= length inp)%nat -> (2 * n <= length out)%nat ->
   s16_51_to_stereo inp (Z.of_nat n) out =
   Some (Z.of_nat n, frames 2 n (fun i _ =>
     [clip (s 6 i 0 + half (s 6 i 4)); clip (s 6 i 1 + half (s 6 i 4))]) out)) /\
  ((4 * n <= length inp)%nat -> (2 * n <= length out)%nat ->
   s16_quad_to_stereo fl fr rl rr inp (Z.of_nat n) out =
   Some (Z.of_nat n, frames 2 n (fun i _ =>
     if (fl =? NO_CH) || (fr =? NO_CH) || (rl =? NO_CH) || (rr =? NO_CH)
     then quad_stereo_frame inp 0 1 2 3 i else quad_stereo_frame inp fl fr rl rr i) out)).
Proof.
  intros Hi Ho Hs ???? s. split_and!; intros.
  - by apply stereo_to_mono_frames.
  - by apply s16_51_to_stereo_frames.
  - by apply quad_to_stereo_frames.
Qed.

Lemma downmix_frames_witness :
  s16_51_to_stereo [100; 32767; 5; 5; 601; 5] 1 [9; 9; 9] = Some (1, [400; 32767; 9]).
Proof.
  pose proof (downmix_frames [100; 32767; 5; 5; 601; 5] [9; 9; 9] 1 0 1 2 3) as H.
  apply H; unfold fits, position; simpl; [lia | lia | repeat constructor; unfold is_s16; lia | lia..].
Defined.

(** ** The default mixer *)

(** What the mixer accumulates from the samples [xs] of one input frame. *)
Definition mixed (num_in_ch : Z) (xs : list Z) : Z :=
  foldl (fun acc x => s16 (u64 (u64 acc + u64 x / num_in_ch))) 0 xs.

Definition frame_of (inp : list Z) (k : nat) (i : nat) : list Z :=
  (fun c => smp inp (Z.of_nat k) i (Z.of_nat c)) <$> seq 0 k.

Section AllToAll.
Context {P : pcm_library} (inp out : list Z) (n n_in n_out : nat).
Hypotheses (Hinp : fits inp) (Hout : Z.of_nat (length out) < 9223372036854775808).
Hypotheses (Hi : (n_in * n <= length inp)%nat) (Ho : (n_out * n <= length out)%nat).
Hypothesis Hn_in : (0 < n_in)%nat.

(** One pass: input channel [ic] added to output channel [oc] of every frame. *)
Definition mix_pass (oc ic i : nat) (b : list Z) : list Z :=
  <[oc := s16 (u64 (u64 (b !!! oc) + u64 (smp inp (Z.of_nat n_in) i (Z.of_nat ic)) / Z.of_nat n_in))]> b.

Lemma mix_pass_loop (oc ic : nat) (m : list Z) :
  (oc < n_out)%nat -> (ic < n_in)%nat -> length m = length out ->
  for_loop n 0 (fun i out =>
    x ← ld inp (u64 (Z.of_nat ic + i * Z.of_nat n_in));
    old ← ld out (u64 (Z.of_nat oc + i * Z.of_nat n_out));
    v ← mix_term old x (Z.of_nat n_in);
    st out (u64 (Z.of_nat oc + i * Z.of_nat n_out)) v) m
  = Some (frames n_out n (mix_pass oc ic) m).
Proof.
  intros Hoc Hic Hm. apply for_frames; [intros; unfold mix_pass; by rewrite length_insert| |lia].
  intros i p b s Hlt Hp Hb. unfold fits in Hinp.
  rewrite (Z.add_comm (Z.of_nat ic)), (Z.mul_comm (Z.of_nat i) (Z.of_nat n_in)).
  rewrite (Z.add_comm (Z.of_nat oc)), (Z.mul_comm (Z.of_nat i) (Z.of_nat n_out)).
  assert (Hin : (n_in * i + ic < n_in * n)%nat) by nia.
  assert (Hon : (n_out * i + oc < n_out * n)%nat) by nia.
  rewrite !u64_small by lia. rewrite (ld_total inp) by lia. bind.
  rewrite ld_middle by lia.
  replace (Z.to_nat _) with oc by lia.
  rewrite (list_lookup_lookup_total_lt b oc) by lia. bind.
  unfold mix_term. rewrite udiv_Some by lia. bind.
  rewrite st_frame by (done || lia). by rewrite Nat2Z.id.
Qed.

Lemma mix_pass_length (oc ic i : nat) (b : list Z) :
  length b = n_out -> length (mix_pass oc ic i b) = n_out.
Proof. intros <-. apply length_insert. Qed.

Definition mix_row (oc i : nat) (b : list Z) : list Z :=
  foldl (fun b ic => mix_pass oc ic i b) b (seq 0 n_in).

Lemma mix_row_insert (oc i : nat) (b : list Z) :
  (oc < length b)%nat ->
  mix_row oc i b
  = <[oc := foldl (fun acc x => s16 (u64 (u64 acc + u64 x / Z.of_nat n_in)))
              (b !!! oc) (frame_of inp n_in i)]> b.
Proof.
  intros Hoc. unfold mix_row, frame_of. generalize (seq 0 n_in) as cs. intros cs. revert b Hoc.
  induction cs as [|c cs IH]; intros b Hoc; simpl.
  { symmetry. apply list_insert_id. by apply list_lookup_lookup_total_lt. }
  rewrite IH by (unfold mix_pass; by rewrite length_insert). unfold mix_pass.
  rewrite list_insert_insert_eq, list_lookup_total_insert_eq by done. done.
Qed.

Lemma mix_rows (i : nat) :
  foldl (fun b oc => mix_row oc i b) (replicate n_out 0) (seq 0 n_out)
  = replicate n_out (mixed (Z.of_nat n_in) (frame_of inp n_in i)).
Proof.
  set (v := mixed _ _).
  enough (H : forall j, (j <= n_out)%nat ->
    foldl (fun b oc => mix_row oc i b) (replicate n_out 0) (seq 0 j)
    = replicate j v ++ replicate (n_out - j) 0).
  { rewrite (H n_out) by lia. by rewrite Nat.sub_diag, app_nil_r. }
  induction j as [|j IH]; intros Hj; [by rewrite Nat.sub_0_r|].
  rewrite seq_S, foldl_app, IH by lia. simpl.
  rewrite mix_row_insert by (rewrite length_app, !length_replicate; lia).
  rewrite insert_app_r_alt by (rewrite length_replicate; lia).
  rewrite length_replicate, Nat.sub_diag, lookup_total_app_r by (rewrite length_replicate; lia).
  rewrite length_replicate, Nat.sub_diag.
  replace (n_out - j)%nat with (S (n_out - S j)) by lia. simpl.
  change (foldl _ 0 _) with v.
  change (v :: replicate j v ++ ?r) with (replicate (S j) v ++ r).
  by rewrite replicate_S_end, <- app_assoc.
Qed.

(** The three loops over a cleared array. *)
Lemma all_to_all_loops :
  for_n (Z.of_nat n_out) (fun out_ch out =>
    for_n (Z.of_nat n_in) (fun in_ch out =>
      for_n (Z.of_nat n) (fun i out =>
        x ← ld inp (u64 (in_ch + i * Z.of_nat n_in));
        old ← ld out (u64 (out_ch + i * Z.of_nat n_out));
        v ← mix_term old x (Z.of_nat n_in);
        st out (u64 (out_ch + i * Z.of_nat n_out)) v) out) out) (zeroed (n_out * n) out)
  = Some (frames n_out n
      (fun i _ => replicate n_out (mixed (Z.of_nat n_in) (frame_of inp n_in i))) out).
Proof.
  assert (Hz : length (zeroed (n_out * n) out) = length out) by (apply zeroed_length; lia).
  assert (Hrow : forall oc i b, length b = n_out -> length (mix_row oc i b) = n_out).
  { intros oc i b. unfold mix_row. generalize (seq 0 n_in) as cs. intros cs. revert b.
    induction cs as [|c cs IH]; intros b Hb; simpl; [done|]. apply IH. by apply mix_pass_length. }
  unfold for_n at 1. rewrite Nat2Z.id.
  rewrite (for_loop_frames n_out n n_out mix_row); [|done| |lia].
  - rewrite frames_zeroed by lia. f_equal. apply frames_ext; [|done]. intros i Hlt. apply mix_rows.
  - intros oc m Hoc Hm. unfold for_n at 1. rewrite Nat2Z.id.
    rewrite (for_loop_frames n_out n n_in (mix_pass oc)); [done|intros; by apply mix_pass_length| |lia].
    intros ic m' Hic Hm'. unfold for_n. rewrite Nat2Z.id. apply mix_pass_loop; lia.
Qed.
End AllToAll.

(** The share of a sample, when the division is the intended one. *)
Lemma mix_share (num_in_ch x acc : Z) (k : nat) :
  is_s16 x -> is_s16 acc -> 0 < num_in_ch <= 65536 ->
  0 <= x \/ (num_in_ch = 2 ^ Z.of_nat k /\ (k <= 16)%nat) ->
  s16 (u64 (u64 acc + u64 x / num_in_ch)) = s16 (acc + x / num_in_ch).
Proof.
  intros Hx Ha Hn Hcase.
  assert (Hmod : forall a b, (a - b) mod 65536 = 0 -> s16 (u64 a) = s16 b) by (intros; wrap_lia).
  apply Hmod.
  assert (Hacc : (u64 acc - acc) mod 65536 = 0) by (clear - Ha; wrap_lia).
  assert (Hdiv : (u64 x / num_in_ch - x / num_in_ch) mod 65536 = 0).
  { destruct (Z.le_gt_cases 0 x) as [H0|H0].
    { rewrite u64_small by (unfold is_s16 in *; lia). by rewrite Z.sub_diag. }
    destruct Hcase as [?|[-> Hk]]; [lia|].
    replace (u64 x) with (x + 2 ^ (48 - Z.of_nat k) * 65536 * 2 ^ Z.of_nat k).
    2:{ rewrite <- Z.mul_assoc, (Z.mul_comm 65536), Z.mul_assoc, <- Z.pow_add_r by lia.
        replace (48 - Z.of_nat k + Z.of_nat k) with 48 by lia.
        change (2 ^ 48 * 65536) with 18446744073709551616.
        unfold u64, is_s16 in *. rewrite <- (Z.mod_add x 1) by lia. rewrite Z.mod_small; lia. }
    rewrite Z.div_add by lia.
    replace (x / 2 ^ Z.of_nat k + 2 ^ (48 - Z.of_nat k) * 65536 - x / 2 ^ Z.of_nat k)
      with (2 ^ (48 - Z.of_nat k) * 65536) by lia.
    by apply Z.mod_mul. }
  replace (u64 acc + u64 x / num_in_ch - (acc + x / num_in_ch))
    with ((u64 acc - acc) + (u64 x / num_in_ch - x / num_in_ch)) by lia.
  rewrite Z.add_mod, Hacc, Hdiv by lia. done.
Qed.

(** The sum of the shares [x / num_in_ch] of a frame's samples. *)
Definition shares (num_in_ch : Z) (xs : list Z) : Z :=
  foldr (fun x acc => x / num_in_ch + acc) 0 xs.

(** Samples the mixer divides as intended. *)
Definition divides_well (n_in : nat) (x : Z) : Prop :=
  is_s16 x /\ (0 <= x \/ exists k, n_in = (2 ^ k)%nat /\ (k <= 15)%nat).

Lemma share_bounds (n_in : nat) (x : Z) :
  (0 < n_in)%nat -> divides_well n_in x ->
  - (32768 / Z.of_nat n_in) <= x / Z.of_nat n_in <= 32767 / Z.of_nat n_in.
Proof.
  intros Hn [[Hl Hu] Hd]. split; [|apply Z.div_le_mono; lia].
  destruct Hd as [H0|(k & -> & Hk)].
  { pose proof (Z.div_pos 32768 (Z.of_nat n_in)). pose proof (Z.div_pos x (Z.of_nat n_in)). lia. }
  rewrite Nat2Z.inj_pow in *. change (Z.of_nat 2) with 2.
  set (d := 2 ^ Z.of_nat k). assert (Hd : 32768 = 2 ^ (15 - Z.of_nat k) * d).
  { unfold d. rewrite <- Z.pow_add_r by lia. by replace (15 - Z.of_nat k + Z.of_nat k) with 15 by lia. }
  assert (0 < d) by (apply Z.pow_pos_nonneg; lia).
  assert (E : 32768 / d = 2 ^ (15 - Z.of_nat k)) by (rewrite Hd; apply Z.div_mul; lia).
  rewrite E. apply Z.div_le_lower_bound; lia.
Qed.

Lemma mixed_shares (n_in : nat) (xs : list Z) :
  0 < Z.of_nat n_in <= 65536 -> length xs = n_in -> Forall (divides_well n_in) xs ->
  mixed (Z.of_nat n_in) xs = shares (Z.of_nat n_in) xs.
Proof.
  intros Hn Hlen Hxs. unfold mixed.
  set (N := Z.of_nat n_in). set (lo := 32768 / N). set (hi := 32767 / N).
  assert (Hlo : N * lo <= 32768) by (unfold lo, N; apply Z.mul_div_le; lia).
  assert (Hhi : N * hi <= 32767) by (unfold hi, N; apply Z.mul_div_le; lia).
  assert (0 <= lo) by (apply Z.div_pos; lia). assert (0 <= hi) by (apply Z.div_pos; lia).
  enough (H' : forall acc, - (N - Z.of_nat (length xs)) * lo <= acc <= (N - Z.of_nat (length xs)) * hi ->
    foldl (fun acc x => s16 (u64 (u64 acc + u64 x / N))) acc xs = acc + shares N xs).
  { rewrite H'; [done|]. rewrite Hlen. unfold N. nia. }
  assert (Hle : (length xs <= n_in)%nat) by lia. clear Hlen.
  induction Hxs as [|x xs Hx Hxs IH]; intros acc Hacc; simpl; [lia|]. simpl in Hle, Hacc.
  pose proof (share_bounds n_in x ltac:(lia) Hx) as Hb. fold N lo hi in Hb.
  assert (Hnext : - (N - Z.of_nat (length xs)) * lo <= acc + x / N <= (N - Z.of_nat (length xs)) * hi) by nia.
  assert (Hacc16 : is_s16 acc) by (unfold is_s16; nia).
  assert (Hsum16 : is_s16 (acc + x / N)) by (unfold is_s16; nia).
  destruct Hx as [Hx16 Hd].
  assert (Hstep : s16 (u64 (u64 acc + u64 x / N)) = acc + x / N).
  { destruct Hd as [Hpos|(k & Hk & Hk')].
    - rewrite (mix_share N x acc 0); [by apply s16_small|done|done|lia|by left].
    - rewrite (mix_share N x acc k); [by apply s16_small|done|done|lia|right].
      split; [|lia]. unfold N. rewrite Hk, Nat2Z.inj_pow. done. }
  rewrite Hstep, IH by (done || lia). lia.
Qed.

(** The default mixer averages.  With 16 bit output samples, every
    channel of an output frame is the sum of the input samples each divided by
    the channel count, provided the samples are not negative or the channel
    count is a power of two. *)
Theorem default_mixer_averages {P : pcm_library} (out_fmt : cras_audio_format)
    (inp out : list Z) (n n_in n_out : nat) :
  pcm_documented P -> format out_fmt = SND_PCM_FORMAT_S16_LE ->
  num_channels out_fmt = Z.of_nat n_out -> Z.of_nat n_out < 4294967296 ->
  fits inp -> Z.of_nat (length out) < 9223372036854775808 ->
  (n_in * n <= length inp)%nat -> (n_out * n <= length out)%nat -> 0 < Z.of_nat n_in <= 65536 ->
  Forall (divides_well n_in) inp ->
  s16_default_all_to_all out_fmt (Z.of_nat n_in) (Z.of_nat n_out) inp (Z.of_nat n) out
  = Some (Z.of_nat n, frames n_out n (fun i _ =>
      replicate n_out (shares (Z.of_nat n_in) (frame_of inp n_in i))) out).
Proof.
  intros HP Hf Hc Hsm Hinp Hout Hi Ho Hn Hall. unfold s16_default_all_to_all.
  assert (Hb : cras_get_format_bytes out_fmt = 2 * Z.of_nat n_out).
  { unfold cras_get_format_bytes. rewrite Hf, Hc, width_s16. change (u64 (16 ÷ 8)) with 2.
    apply u64_small. lia. }
  rewrite Hb. replace (Z.of_nat n * (2 * Z.of_nat n_out)) with (2 * Z.of_nat (n_out * n)) by lia.
  rewrite memset_s16_even by (done || unfold fits; lia). bind.
  rewrite all_to_all_loops by (done || lia). bind. do 2 f_equal.
  apply frames_ext; [|done]. intros i Hlt. f_equal. apply mixed_shares; [done| |].
  - unfold frame_of. by rewrite length_fmap, length_seq.
  - apply Forall_fmap, Forall_forall. intros c Hc'%elem_of_seq. unfold compose, smp, zget.
    rewrite Forall_lookup in Hall. eapply Hall. apply list_lookup_lookup_total_lt. nia.
Qed.

Lemma default_mixer_averages_witness :
  let P := alsa_example in
  s16_default_all_to_all (AudioFormat SND_PCM_FORMAT_S16_LE 48000 2 []) 3 2
    [30; 60; 91; 3; 3; 5] 2 [7; 7; 7; 7; 7]
  = Some (2, [60; 60; 3; 3; 7]).
Proof.
  intros P.
  apply (default_mixer_averages (P := alsa_example) (AudioFormat SND_PCM_FORMAT_S16_LE 48000 2 [])
           [30; 60; 91; 3; 3; 5] [7; 7; 7; 7; 7] 2 3 2 alsa_example_documented);
    unfold fits; simpl; try done; try lia.
  repeat constructor; unfold is_s16; lia.
Defined.

(** The two faults of the default mixer.  With three input channels a
    negative sample becomes a loud positive one, because the division is made in
    [size_t]; and with 8 bit output the array is only half cleared, so that old
    samples are mixed into silence. *)
Theorem default_mixer_faults {P : pcm_library} (rate x a b : Z) :
  pcm_documented P -> -32768 <= x < 0 -> is_s16 a -> is_s16 b ->
  s16_default_all_to_all (AudioFormat SND_PCM_FORMAT_S16_LE rate 1 []) 3 1 [x; 0; 0] 1 [a]
    = Some (1, [21845 + (x + 1) / 3]) /\
  10922 <= 21845 + (x + 1) / 3 /\
  s16_default_all_to_all (AudioFormat SND_PCM_FORMAT_U8 rate 2 []) 3 2 [0; 0; 0] 1 [a; b]
    = Some (1, [0; b]).
Proof.
  intros HP Hx Ha Hb. split_and!.
  - unfold s16_default_all_to_all, cras_get_format_bytes; simpl.
    rewrite width_s16. unfold ld, st, mix_term; simpl. do 3 f_equal.
    replace (u64 x / 3) with (6148914691236517205 + (x + 1) / 3) by wrap_lia.
    rewrite <- (u64_small 0) at 1 by lia. wrap_lia.
  - wrap_lia.
  - unfold s16_default_all_to_all, cras_get_format_bytes; simpl.
    rewrite width_u8. unfold ld, st, mix_term; simpl. do 4 f_equal. clear - Hb. wrap_lia.
Qed.

Lemma default_mixer_faults_witness :
  let P := alsa_example in
  s16_default_all_to_all (AudioFormat SND_PCM_FORMAT_S16_LE 48000 1 []) 3 1 [-1; 0; 0] 1 [0]
  = Some (1, [21845]).
Proof.
  intros P. apply (default_mixer_faults (P := alsa_example) 48000 (-1) 0 0 alsa_example_documented);
    unfold is_s16; lia.
Defined.

(** ** Remapping channels *)

(** A coefficient row with a one at [p] and zeros elsewhere; all zeros when [p]
    is outside. *)
Definition one_hot (row : list spec_float) (size p : Z) : Prop :=
  forall j, 0 <= j < size -> ld row j = Some (if j =? p then float_one else float_zero).

Lemma s16_exact (z : Z) : is_s16 z -> f32_exact z.
Proof. unfold is_s16, f32_exact. lia. Qed.

Lemma zget_s16 (inp : list Z) (j : Z) :
  Forall is_s16 inp -> 0 <= j < Z.of_nat (length inp) -> is_s16 (zget inp j).
Proof.
  intros Hs Hj. rewrite Forall_lookup in Hs. eapply Hs. apply list_lookup_lookup_total_lt. lia.
Qed.

Lemma multiply_one_hot (row : list spec_float) (inp : list Z) (base p : Z) (size : nat) :
  one_hot row (Z.of_nat size) p -> Forall is_s16 inp ->
  0 <= base -> base + Z.of_nat size <= Z.of_nat (length inp) ->
  s16_multiply_buf_with_coef row inp base (Z.of_nat size)
  = Some (if (0 <=? p) && (p <? Z.of_nat size) then zget inp (base + p) else 0).
Proof.
  intros Hrow Hs Hb Hl. unfold s16_multiply_buf_with_coef, for_n. rewrite Nat2Z.id.
  set (acc j := if (0 <=? p) && (p <? Z.of_nat j) then zget inp (base + p) else 0).
  assert (Hacc : forall j, (j <= size)%nat -> is_s16 (acc j)).
  { intros j Hj. unfold acc. zcases; simpl; try (unfold is_s16; lia). apply zget_s16; [done|lia]. }
  destruct (for_loop_inv (fun j sum => sum = acc j) size 0 (fun i sum =>
      c ← ld row i; x ← ld inp (base + i);
      f32_to_s32 (f32_add (f32_of_Z sum) (f32_mul c (f32_of_Z x)))) 0) as (s & -> & ->).
  - unfold acc. destruct (Z.leb_spec 0 p), (Z.ltb_spec p (Z.of_nat 0)); simpl; (done || lia).
  - intros j ? Hj ->. eexists. split; [|done].
    rewrite Hrow by lia. bind. rewrite (ld_total inp) by lia. bind.
    assert (Hx : is_s16 (zget inp (base + Z.of_nat j))) by (apply zget_s16; [done|lia]).
    assert (Hj' : is_s16 (acc j)) by (apply Hacc; lia).
    destruct (Z.eqb_spec (Z.of_nat j) p) as [<-|Hne].
    + assert (acc j = 0) as -> by (unfold acc; by zdecide; rewrite andb_false_r).
      rewrite f32_mul_one, f32_zero_add, f32_to_s32_of_Z by (by apply s16_exact).
      unfold acc. by zdecide.
    + rewrite f32_add_zero_mul, f32_to_s32_of_Z by (by apply s16_exact).
      f_equal. unfold acc. destruct (Z.leb_spec 0 p); simpl; [|done]. zcases; (done || lia).
  - bind. rewrite Nat.add_0_l. fold (acc size). assert (Ha := Hacc size (le_n _)). unfold is_s16 in Ha.
    rewrite cmin_min, cmax_max, s16_small by lia. f_equal. lia.
Qed.

Lemma convert_channels_frames (mtx : matrix) (inp out : list Z) (n n_in n_out : nat)
    (v : nat -> nat -> Z) :
  (forall f a, (f < n)%nat -> (a < n_out)%nat -> exists row, ld mtx (Z.of_nat a) = Some row /\
     s16_multiply_buf_with_coef row inp (Z.of_nat (n_in * f)) (Z.of_nat n_in) = Some (v f a)) ->
  Z.of_nat (n_in * n) < 4294967296 -> Z.of_nat (n_out * n) < 4294967296 ->
  (n_out * n <= length out)%nat ->
  s16_convert_channels mtx (Z.of_nat n_in) (Z.of_nat n_out) inp (Z.of_nat n) out
  = Some (Z.of_nat n, frames n_out n (fun f _ => v f <$> seq 0 n_out) out).
Proof.
  intros Hv Hin Hout Hlen. unfold s16_convert_channels, for_n at 1. rewrite Nat2Z.id.
  set (idx j := (Z.of_nat (n_in * j), Z.of_nat (n_out * j))).
  replace (0, 0, out) with (idx 0%nat, out) by (unfold idx; by rewrite !Nat.mul_0_r).
  rewrite (for_loop_indices idx _
    (fun f out => for_n (Z.of_nat n_out) (fun i out =>
       row ← ld mtx i; v ← s16_multiply_buf_with_coef row inp (Z.of_nat n_in * f) (Z.of_nat n_in);
       st out (u32 (Z.of_nat n_out * f + i)) v) out)).
  - rewrite (for_frames n_out n (fun f _ => v f <$> seq 0 n_out)); [done| | |done].
    + intros. by rewrite length_fmap, length_seq.
    + intros f p b s Hf Hp Hb. unfold for_n. rewrite Nat2Z.id, <- Hb. apply for_fill.
      intros a m Ha. destruct (Hv f a) as (row & -> & Hr); [done|lia|]. bind.
      replace (Z.of_nat n_in * Z.of_nat f) with (Z.of_nat (n_in * f)) by lia. rewrite Hr. bind.
      rewrite Hp, Hb. f_equal. assert (n_out * f + a < n_out * n)%nat by nia.
      rewrite u32_small by lia. lia.
  - intros f t Hf. unfold idx. simpl in Hf.
    replace (Z.of_nat n_in * Z.of_nat f) with (Z.of_nat (n_in * f)) by lia.
    replace (Z.of_nat n_out * Z.of_nat f) with (Z.of_nat (n_out * f)) by lia.
    destruct (for_n _ _ t); [|done]. bind. simpl. do 3 f_equal.
    + assert (n_in * S f <= n_in * n)%nat by nia. rewrite u32_small; lia.
    + assert (n_out * S f <= n_out * n)%nat by nia. rewrite u32_small; lia.
Qed.

(** No two channels of a layout share a position. *)
Definition distinct_positions (fmt : cras_audio_format) : Prop :=
  forall c d, 0 <= c < CRAS_CH_MAX -> 0 <= d < CRAS_CH_MAX ->
    layout_pos fmt c <> -1 -> layout_pos fmt c = layout_pos fmt d -> c = d.

Lemma find_alt_in_range (i o : cras_audio_format) (ch alt : Z) :
  find_alt (Z.to_nat CRAS_CH_MAX) 0 i o ch = Some alt ->
  0 <= alt < CRAS_CH_MAX /\ channel_alt ch alt = true /\
  layout_pos i alt = -1 /\ layout_pos o alt <> -1.
Proof. intros (? & ?)%find_alt_spec. split; [|done]. unfold CRAS_CH_MAX in *. lia. Qed.

Lemma channel_alt_functional (c d alt : Z) :
  channel_alt c alt = true -> channel_alt d alt = true -> c = d.
Proof.
  unfold channel_alt, CRAS_CH_RL, CRAS_CH_SL, CRAS_CH_RR, CRAS_CH_SR. intros Hc Hd. lia.
Qed.

(** The channel of the output that takes the place of channel [ch]. *)
Lemma target_channel (i o : cras_audio_format) (ch a : Z) :
  0 <= ch < CRAS_CH_MAX -> target i o ch = Some a ->
  exists x, 0 <= x < CRAS_CH_MAX /\ layout_pos o x = a /\ layout_pos o x <> -1 /\
    (x = ch \/ (channel_alt ch x = true /\ layout_pos i x = -1)).
Proof.
  intros Hch. unfold target. destruct (Z.eqb_spec (layout_pos o ch) (-1)) as [He|He]; cbn [negb].
  - destruct (find_alt _ _ _ _ _) as [alt|] eqn:Hf; [|done]. intros [= <-].
    apply find_alt_in_range in Hf as (? & ? & ? & ?). exists alt.
    split_and!; try (done || lia). by right.
  - intros [= <-]. exists ch. split_and!; (done || lia || by left).
Qed.

Lemma mapped_unique (i o : cras_audio_format) (a b c : Z) :
  distinct_positions o -> mapped i o CHANNELS a b -> mapped i o CHANNELS a c -> b = c.
Proof.
  intros Ho (x & Hx%channel_range & <- & Hxs & Hxt) (y & Hy%channel_range & <- & Hys & Hyt).
  destruct (target_channel _ _ _ _ Hx Hxt) as (x' & Hx' & Hxa & Hxn & Hxc).
  destruct (target_channel _ _ _ _ Hy Hyt) as (y' & Hy' & Hya & Hyn & Hyc).
  assert (x' = y') as <- by (apply Ho; congruence).
  destruct Hxc as [->|[Hxc Hxo]], Hyc as [Hyc|[Hyc Hyo]]; try congruence.
  by rewrite (channel_alt_functional x y x').
Qed.

Lemma bounded_case (P Q : Z -> Prop) (n : nat) :
  (forall b, 0 <= b < Z.of_nat n -> P b \/ Q b) ->
  (exists b, 0 <= b < Z.of_nat n /\ P b) \/ (forall b, 0 <= b < Z.of_nat n -> Q b).
Proof.
  induction n as [|n IH]; intros Hn; [right; lia|].
  destruct IH as [(b & ? & ?)|Hq]; [intros; apply Hn; lia|left; exists b; split; [lia|done]|].
  destruct (Hn (Z.of_nat n)) as [Hp|Hl]; [lia|left; exists (Z.of_nat n); split; [lia|done]|].
  right. intros b Hb. destruct (decide (b = Z.of_nat n)) as [->|]; [done|]. apply Hq. lia.
Qed.

(** A row of the conversion matrix selects the one input position mapped to it. *)
Lemma matrix_row (i o : cras_audio_format) (m : matrix) (a : Z) :
  layout_ok i -> layout_ok o -> distinct_positions o -> matrix_maps i o CHANNELS m ->
  0 <= a < num_channels o ->
  exists row p, ld m a = Some row /\ one_hot row (num_channels i) p /\
    (forall b, 0 <= b < num_channels i -> mapped i o CHANNELS a b <-> b = p).
Proof.
  intros Hi Ho Hd [[Hlen _] Hm] Ha.
  assert (exists row, ld m a = Some row) as [row Hrow].
  { unfold ld. zdecide. apply lookup_lt_is_Some_2. lia. }
  assert (He : forall b, entry m a b = ld row b) by (intros b; unfold entry; by rewrite Hrow).
  destruct (proj1 Hi) as [Hn _].
  destruct (bounded_case (fun b => mapped i o CHANNELS a b) (fun b => ~ mapped i o CHANNELS a b)
              (Z.to_nat (num_channels i))) as [(p & Hp & Hpm)|Hnone].
  { intros b Hb. destruct (Hm a b Ha) as [[_ ?]|[_ ?]]; [lia|by left|by right]. }
  - exists row, p. split_and!; [done| |].
    + intros b Hb. rewrite <- He. destruct (Z.eqb_spec b p) as [->|Hne].
      * by destruct (Hm a p Ha Hb) as [[? _]|[_ []]].
      * destruct (Hm a b Ha Hb) as [[_ Hb']|[? _]]; [|done]. destruct Hne. by eapply mapped_unique.
    + intros b Hb. split; [|by intros ->]. intros Hb'. by eapply mapped_unique.
  - exists row, (-1). split_and!; [done| |].
    + intros b Hb. rewrite <- He. zdecide.
      destruct (Hm a b Ha Hb) as [[? Hb']|[? Hb']]; [|done]. by apply Hnone in Hb'; [|lia].
    + intros b Hb. split; [|lia]. intros Hb'. by apply Hnone in Hb'; [|lia].
Qed.

(** Remapping moves samples unchanged.  With the matrix of two
    documented layouts without repeated positions, every sample of an input
    channel arrives bit for bit at the target of its channel in the same frame,
    and output positions no channel is mapped to are silent. *)
Theorem channel_remap (i o : cras_audio_format) (m : matrix) (inp out : list Z) (n : nat) :
  layout_ok i -> layout_ok o -> distinct_positions o ->
  cras_channel_conv_matrix_create true i o = Some (Some m) ->
  Forall is_s16 inp ->
  let n_in := num_channels i in let n_out := num_channels o in
  n_in * Z.of_nat n < 4294967296 -> n_out * Z.of_nat n < 4294967296 ->
  n_in * Z.of_nat n <= Z.of_nat (length inp) -> n_out * Z.of_nat n <= Z.of_nat (length out) ->
  exists out', s16_convert_channels m n_in n_out inp (Z.of_nat n) out = Some (Z.of_nat n, out') /\
    length out' = length out /\
    (forall f ch a, 0 <= f < Z.of_nat n -> 0 <= ch < CRAS_CH_MAX -> layout_pos i ch <> -1 ->
       target i o ch = Some a -> ld out' (n_out * f + a) = ld inp (n_in * f + layout_pos i ch)) /\
    (forall f a, 0 <= f < Z.of_nat n -> 0 <= a < n_out ->
       (forall ch, 0 <= ch < CRAS_CH_MAX -> layout_pos i ch <> -1 -> target i o ch <> Some a) ->
       ld out' (n_out * f + a) = Some 0).
Proof.
  intros Hi Ho Hd Hcreate Hs n_in n_out Hn_in Hn_out Hinp Hout.
  assert (Hm : matrix_maps i o CHANNELS m).
  { pose proof (conv_matrix_loop_spec i o Hi Ho CHANNELS [] _ eq_refl (alloc_maps i o Hi Ho)) as Hl.
    unfold cras_channel_conv_matrix_create, cras_channel_conv_matrix_alloc in Hcreate.
    destruct (forallb _ _); [|done].
    destruct (conv_matrix_loop _ _ _ _) as [[[]|[]]|]; simpl in Hcreate; try done.
    injection Hcreate as ->. apply Hl. }
  destruct (proj1 Hi) as [Hni _], (proj1 Ho) as [Hno _]. fold n_in in Hni. fold n_out in Hno.
  set (v := fun f a => default 0 (row ← ld m (Z.of_nat a);
              s16_multiply_buf_with_coef row inp (Z.of_nat (Z.to_nat n_in * f)) (Z.of_nat (Z.to_nat n_in)))).
  assert (Hrow : forall f a, (f < n)%nat -> (a < Z.to_nat n_out)%nat -> exists row p,
      ld m (Z.of_nat a) = Some row /\
      s16_multiply_buf_with_coef row inp (Z.of_nat (Z.to_nat n_in * f)) (Z.of_nat (Z.to_nat n_in))
        = Some (v f a) /\
      v f a = (if (0 <=? p) && (p <? n_in) then zget inp (n_in * Z.of_nat f + p) else 0) /\
      (forall b, 0 <= b < n_in -> mapped i o CHANNELS (Z.of_nat a) b <-> b = p)).
  { intros f a Hf Ha. destruct (matrix_row i o m (Z.of_nat a) Hi Ho Hd Hm) as (row & p & Hr & Hp & Hu).
    { fold n_out. lia. }
    assert (Hmul := multiply_one_hot row inp (Z.of_nat (Z.to_nat n_in * f)) p (Z.to_nat n_in)).
    rewrite Z2Nat.id in Hmul by lia. specialize (Hmul Hp Hs ltac:(lia) ltac:(nia)).
    exists row, p. unfold v. rewrite Hr. bind. rewrite Z2Nat.id by lia. rewrite Hmul.
    split_and!; [done|done| |done]. simpl.
    replace (Z.of_nat (Z.to_nat n_in * f)) with (n_in * Z.of_nat f) by lia. done. }
  eexists. split.
  { rewrite <- (Z2Nat.id n_in) at 1 by lia. rewrite <- (Z2Nat.id n_out) at 1 by lia.
    apply (convert_channels_frames m inp out n (Z.to_nat n_in) (Z.to_nat n_out) v); [|nia..].
    intros f a Hf Ha. destruct (Hrow f a Hf Ha) as (row & p & ? & ? & _). eauto. }
  assert (Hg : forall f (b : list Z), length b = Z.to_nat n_out ->
     length (v f <$> seq 0 (Z.to_nat n_out)) = Z.to_nat n_out)
    by (intros; by rewrite length_fmap, length_seq).
  assert (Hlk : forall f a, 0 <= f < Z.of_nat n -> 0 <= a < n_out ->
    ld (frames (Z.to_nat n_out) n (fun f _ => v f <$> seq 0 (Z.to_nat n_out)) out) (n_out * f + a)
    = Some (v (Z.to_nat f) (Z.to_nat a))).
  { intros f a Hf Ha. unfold ld. zdecide.
    replace (Z.to_nat (n_out * f + a)) with (Z.to_nat n_out * Z.to_nat f + Z.to_nat a)%nat
      by (rewrite Z2Nat.inj_add, Z2Nat.inj_mul by nia; done).
    rewrite (frames_lookup _ _ _ Hg) by nia.
    rewrite list_lookup_fmap, lookup_seq_lt by lia. done. }
  split_and!; [apply frames_length; [done|nia]| |].
  - intros f ch a Hf Hch Hset Ht. pose proof (target_range i o Ho ch a Hch Ht) as Ha.
    rewrite Hlk by done. destruct (Hrow (Z.to_nat f) (Z.to_nat a)) as (row & p & _ & _ & -> & Hu); [lia..|].
    pose proof (layout_pos_ok i ch Hi Hch) as Hpos. fold n_in in Hpos.
    assert (layout_pos i ch = p) as <-.
    { apply Hu; [lia|]. exists ch. rewrite Z2Nat.id by lia. split_and!; [by apply channel_range|done..]. }
    rewrite (ld_total inp) by nia. zdecide. simpl. rewrite Z2Nat.id by lia. done.
  - intros f a Hf Ha Hno'. rewrite Hlk by done.
    destruct (Hrow (Z.to_nat f) (Z.to_nat a)) as (row & p & _ & _ & -> & Hu); [lia..|].
    destruct ((0 <=? p) && (p <? n_in)) eqn:Hp; [|done].
    assert (mapped i o CHANNELS (Z.of_nat (Z.to_nat a)) p) as (ch & Hch%channel_range & ? & ? & Ht)
      by (apply Hu; [lia|done]).
    rewrite Z2Nat.id in Ht by lia. exfalso. apply (Hno' ch); [done|congruence|done].
Qed.

Lemma side_51_distinct : distinct_positions side_51.
Proof.
  assert (H : forallb (fun c => forallb (fun d => (layout_pos side_51 c =? -1) ||
      negb (layout_pos side_51 c =? layout_pos side_51 d) || (c =? d)) CHANNELS) CHANNELS = true)
    by reflexivity.
  intros c d Hc%channel_range Hd%channel_range Hset Heq.
  rewrite forallb_forall in H. specialize (H c (proj1 (list_elem_of_In _ _) Hc)).
  rewrite forallb_forall in H. specialize (H d (proj1 (list_elem_of_In _ _) Hd)).
  rewrite Heq, Z.eqb_refl in H. rewrite Heq in Hset. lia.
Qed.

Lemma channel_remap_witness :
  exists m out', cras_channel_conv_matrix_create true surround_51 side_51 = Some (Some m) /\
    s16_convert_channels m 6 6 [1; 2; 3; 4; 5; -6] 1 (replicate 6 9) = Some (1, out') /\
    length out' = 6%nat.
Proof.
  destruct (cras_channel_conv_matrix_create true surround_51 side_51) as [[m|]|] eqn:E;
    [|vm_compute in E; discriminate..].
  destruct (channel_remap surround_51 side_51 m [1; 2; 3; 4; 5; -6] (replicate 6 9) 1) as (out' & H & Hl & _);
    [apply layout_examples | apply layout_examples | | done | | simpl; lia..|].
  - apply side_51_distinct.
  - repeat constructor; unfold is_s16; lia.
  - exists m, out'. done.
Defined.
