(* ===== verification/Mix.v ===== *)
(** * The mixer (server/cras_mix_ops.c, server/cras_mix.c)

    Adds and scales buffers of samples.  A buffer is a region of bytes and a
    pointer is an offset into it, because the strided loops walk one channel
    of an interleaved buffer; a codec says how a sample lies in the bytes.
    The build without the SIMD variants is modelled: they are the same C code
    compiled for other instruction sets.  [int] loop counters are unbounded. *)
From S2P Require Import Prelude Arrays Float32 AudioFormat.
#[local] Open Scope Z_scope.

(** ** Samples in memory *)

(** [width] bytes hold one sample; what is stored is read back up to [norm]. *)
Class Codec : Type := {
  width : Z;
  decode : list Z -> Z;
  encode : Z -> list Z;
  stores : Z -> Prop;
  norm : Z -> Z;
  width_pos : 0 < width;
  encode_width v : Z.of_nat (length (encode v)) = width;
  decode_encode v : stores v -> decode (encode v) = norm v;
  decode_stores bs : stores (decode bs);
  norm_decode bs : norm (decode bs) = decode bs;
  decode_zeros : decode (replicate (Z.to_nat width) 0) = 0
}.

Definition le (bs : list Z) : Z := foldr (fun b r => b + 256 * r) 0 bs.

#[refine] Instance codec_s16 : Codec := {|
  width := 2;
  decode bs := s16 (le bs);
  encode v := [u8 v; u8 (Z.shiftr v 8)];
  stores := is_s16;
  norm v := v
|}.
Proof.
  - lia.
  - done.
  - intros v Hv. simpl. rewrite Z.shiftr_div_pow2 by lia. change (2 ^ 8) with 256. wrap_lia.
  - intros. apply s16_range.
  - done.
  - done.
Defined.

(** Also the container of 24 bit samples. *)
#[refine] Instance codec_s32 : Codec := {|
  width := 4;
  decode bs := s32 (le bs);
  encode v := [u8 v; u8 (Z.shiftr v 8); u8 (Z.shiftr v 16); u8 (Z.shiftr v 24)];
  stores := is_s32;
  norm v := v
|}.
Proof.
  - lia.
  - done.
  - intros v Hv. simpl. rewrite !Z.shiftr_div_pow2 by lia.
    change (2 ^ 8) with 256. change (2 ^ 16) with 65536. change (2 ^ 24) with 16777216. wrap_lia.
  - intros bs. wrap_lia.
  - done.
  - done.
Defined.

(** [convert_single_s243le_to_s32le] and back: the three bytes are the high
    ones of a 32 bit sample. *)
#[refine] Instance codec_s243 : Codec := {|
  width := 3;
  decode bs := s32 (256 * le bs);
  encode v := [u8 (Z.shiftr v 8); u8 (Z.shiftr v 16); u8 (Z.shiftr v 24)];
  stores := is_s32;
  norm v := v - v mod 256
|}.
Proof.
  - lia.
  - done.
  - intros v Hv. simpl. rewrite !Z.shiftr_div_pow2 by lia.
    change (2 ^ 8) with 256. change (2 ^ 16) with 65536. change (2 ^ 24) with 16777216. wrap_lia.
  - intros bs. wrap_lia.
  - intros bs. wrap_lia.
  - done.
Defined.

Definition rd (C : Codec) (m : list Z) (off : Z) : option Z := decode <$> mem_read m off width.
Definition wr (C : Codec) (m : list Z) (off v : Z) : option (list Z) := mem_write m off (encode v).

(** [for (i = 0; i < n; i++)] rewriting the sample at [dst + i * stride]. *)
Definition update_samples (C : Codec) (n dst stride : Z) (f : Z -> Z -> option Z) (m : list Z)
  : option (list Z) :=
  for_n n (fun i m =>
    a ← rd C m (dst + i * stride); v ← f i a; wr C m (dst + i * stride) v) m.

Definition memset0 (m : list Z) (off bytes : Z) : option (list Z) :=
  mem_write m off (replicate (Z.to_nat bytes) 0).

Definition memcpy (dm : list Z) (d : Z) (sm : list Z) (s bytes : Z) : option (list Z) :=
  data ← mem_read sm s bytes; mem_write dm d data.

(** ** Volumes *)

Definition MAX_VOLUME_TO_SCALE : spec_float := f64_ratio 9999999 10000000.
Definition MIN_VOLUME_TO_SCALE : spec_float := f64_ratio 1 10000000.

Definition above_max (vol : spec_float) : bool := SFltb MAX_VOLUME_TO_SCALE (f64_of_f32 vol).
Definition below_min (vol : spec_float) : bool := SFltb (f64_of_f32 vol) MIN_VOLUME_TO_SCALE.

Definition need_to_scale (scaler : spec_float) : bool :=
  SFltb (f64_of_f32 scaler) (f64_ratio 99 100) || SFltb (f64_ratio 101 100) (f64_of_f32 scaler).

(** [(int)x * scaler] truncated to the sample's type. *)
Definition mul_s16 (v : Z) (scaler : spec_float) : option Z := f32_to_s16 (f32_mul (f32_of_Z v) scaler).
Definition mul_s32 (v : Z) (scaler : spec_float) : option Z := f32_to_s32 (f32_mul (f32_of_Z v) scaler).
Definition mul_s64 (v : Z) (scaler : spec_float) : option Z := f32_to_s64 (f32_mul (f32_of_Z v) scaler).

(** Addition of [int]s: an overflow is undefined. *)
Definition add_int (a b : Z) : option Z :=
  if (-2147483648 <=? a + b) && (a + b <=? 2147483647) then Some (a + b) else None.

Definition clip (lo hi sum : Z) : Z := if sum >? hi then hi else if sum <? lo then lo else sum.
Definition clip_s16 : Z -> Z := clip (-32768) 32767.
Definition clip_s24 : Z -> Z := clip (-8388608) 8388607.
Definition clip_s32 : Z -> Z := clip (-2147483648) 2147483647.

(** The loop of the four [scale_buffer_inc] functions: [i], [scaler], buffer. *)
Definition applied (scaler increment target : spec_float) : spec_float :=
  if (SFltb target scaler && SFltb float_zero increment)
     || (SFltb scaler target && SFltb increment float_zero)
  then target else scaler.

Definition scale_sample (scale : Z -> spec_float -> option Z) (v : Z) (scaler : spec_float)
  : option Z :=
  if above_max scaler then Some v else if below_min scaler then Some 0 else scale v scaler.

Definition scale_inc_loop (C : Codec) (scale : Z -> spec_float -> option Z) (fuel : nat)
    (buffer count : Z) (increment target : spec_float) (step : Z)
  : Z * spec_float * list Z -> option (Z * spec_float * list Z) :=
  cwhile (fun '(i, _, _) => u32 (i + step) <=? count)
    (fun '(i, scaler, m) =>
       m ← update_samples C step (buffer + i * width) width
             (fun _ v => scale_sample scale v (applied scaler increment target)) m;
       Some (i + Z.max step 0, f32_add scaler increment, m))
    fuel.

Definition scale_buffer_inc (C : Codec) (scale : Z -> spec_float -> option Z)
    (m : list Z) (buffer count : Z) (scaler increment target : spec_float) (step : Z)
  : option (list Z) :=
  if below_min scaler && SFltb increment float_zero then memset0 m buffer (count * width) else
  '(_, _, m) ← scale_inc_loop C scale (S (Z.to_nat count)) buffer count increment target step
                 (0, scaler, m);
  Some m.

Definition scale_buffer_by (C : Codec) (scale : Z -> spec_float -> option Z)
    (m : list Z) (buffer count : Z) (scaler : spec_float) : option (list Z) :=
  if above_max scaler then Some m
  else if below_min scaler then memset0 m buffer (count * width)
  else update_samples C count buffer width (fun _ v => scale v scaler) m.

(** ** Signed 16 bit *)

Definition cras_mix_add_clip_s16_le (dm : list Z) (dst : Z) (sm : list Z) (src count : Z)
  : option (list Z) :=
  update_samples codec_s16 count dst 2 (fun i a =>
    b ← rd codec_s16 sm (src + i * 2); Some (clip_s16 (a + b))) dm.

Definition scale_add_clip_s16_le (dm : list Z) (dst : Z) (sm : list Z) (src count : Z)
    (vol : spec_float) : option (list Z) :=
  if above_max vol then cras_mix_add_clip_s16_le dm dst sm src count else
  update_samples codec_s16 count dst 2 (fun i a =>
    b ← rd codec_s16 sm (src + i * 2); b ← mul_s16 b vol; Some (clip_s16 (a + b))) dm.

Definition copy_scaled_s16_le (dm : list Z) (dst : Z) (sm : list Z) (src count : Z)
    (vol : spec_float) : option (list Z) :=
  if above_max vol then memcpy dm dst sm src (count * 2) else
  update_samples codec_s16 count dst 2 (fun i _ =>
    b ← rd codec_s16 sm (src + i * 2); mul_s16 b vol) dm.

Definition cras_scale_buffer_inc_s16_le := scale_buffer_inc codec_s16 mul_s16.
Definition cras_scale_buffer_s16_le := scale_buffer_by codec_s16 mul_s16.

Definition cras_mix_add_s16_le (dm : list Z) (dst : Z) (sm : list Z) (src count index mute : Z)
    (mix_vol : spec_float) : option (list Z) :=
  if negb (mute =? 0) || below_min mix_vol then
    if index =? 0 then memset0 dm dst (count * 2) else Some dm
  else if index =? 0 then copy_scaled_s16_le dm dst sm src count mix_vol
  else scale_add_clip_s16_le dm dst sm src count mix_vol.

(** The three loops of the source differ in the constant strides only. *)
Definition cras_mix_add_scale_stride_s16_le (dm : list Z) (dst : Z) (sm : list Z) (src : Z)
    (dst_stride src_stride count : Z) (scaler : spec_float) : option (list Z) :=
  update_samples codec_s16 count dst dst_stride (fun i a =>
    b ← rd codec_s16 sm (src + i * src_stride);
    sum ← (if need_to_scale scaler
           then f32_to_s32 (f32_add (f32_of_Z a) (f32_mul (f32_of_Z b) scaler))
           else Some (a + b));
    Some (clip_s16 sum)) dm.

(** ** Signed 24 bit in 32 bits *)

Definition scale_s24_le (value : Z) (scaler : spec_float) : option Z :=
  let value := s32 (u32 (Z.shiftl (Z.land value 16777215) 8)) in
  value ← mul_s32 value scaler;
  Some (Z.land (Z.shiftr value 8) 16777215).

Definition cras_mix_add_clip_s24_le (dm : list Z) (dst : Z) (sm : list Z) (src count : Z)
  : option (list Z) :=
  update_samples codec_s32 count dst 4 (fun i a =>
    b ← rd codec_s32 sm (src + i * 4); sum ← add_int a b; Some (clip_s24 sum)) dm.

Definition scale_add_clip_s24_le (dm : list Z) (dst : Z) (sm : list Z) (src count : Z)
    (vol : spec_float) : option (list Z) :=
  if above_max vol then cras_mix_add_clip_s24_le dm dst sm src count else
  update_samples codec_s32 count dst 4 (fun i a =>
    b ← rd codec_s32 sm (src + i * 4); b ← mul_s32 b vol; sum ← add_int a b;
    Some (clip_s24 sum)) dm.

Definition copy_scaled_s24_le (dm : list Z) (dst : Z) (sm : list Z) (src count : Z)
    (vol : spec_float) : option (list Z) :=
  if above_max vol then memcpy dm dst sm src (count * 4) else
  update_samples codec_s32 count dst 4 (fun i _ =>
    b ← rd codec_s32 sm (src + i * 4); scale_s24_le b vol) dm.

Definition cras_scale_buffer_inc_s24_le := scale_buffer_inc codec_s32 scale_s24_le.
Definition cras_scale_buffer_s24_le := scale_buffer_by codec_s32 scale_s24_le.

Definition cras_mix_add_s24_le (dm : list Z) (dst : Z) (sm : list Z) (src count index mute : Z)
    (mix_vol : spec_float) : option (list Z) :=
  if negb (mute =? 0) || below_min mix_vol then
    if index =? 0 then memset0 dm dst (count * 4) else Some dm
  else if index =? 0 then copy_scaled_s24_le dm dst sm src count mix_vol
  else scale_add_clip_s24_le dm dst sm src count mix_vol.

Definition cras_mix_add_scale_stride_s24_le (dm : list Z) (dst : Z) (sm : list Z) (src : Z)
    (dst_stride src_stride count : Z) (scaler : spec_float) : option (list Z) :=
  update_samples codec_s32 count dst dst_stride (fun i a =>
    b ← rd codec_s32 sm (src + i * src_stride);
    b ← (if need_to_scale scaler then scale_s24_le b scaler else Some b);
    sum ← add_int a b;
    Some (clip_s24 sum)) dm.

(** ** Signed 32 bit *)

Definition cras_mix_add_clip_s32_le (dm : list Z) (dst : Z) (sm : list Z) (src count : Z)
  : option (list Z) :=
  update_samples codec_s32 count dst 4 (fun i a =>
    b ← rd codec_s32 sm (src + i * 4); Some (clip_s32 (a + b))) dm.

Definition scale_add_clip_s32_le (dm : list Z) (dst : Z) (sm : list Z) (src count : Z)
    (vol : spec_float) : option (list Z) :=
  if above_max vol then cras_mix_add_clip_s32_le dm dst sm src count else
  update_samples codec_s32 count dst 4 (fun i a =>
    b ← rd codec_s32 sm (src + i * 4); b ← mul_s64 b vol; Some (clip_s32 (a + b))) dm.

Definition copy_scaled_s32_le (dm : list Z) (dst : Z) (sm : list Z) (src count : Z)
    (vol : spec_float) : option (list Z) :=
  if above_max vol then memcpy dm dst sm src (count * 4) else
  update_samples codec_s32 count dst 4 (fun i _ =>
    b ← rd codec_s32 sm (src + i * 4); mul_s32 b vol) dm.

Definition cras_scale_buffer_inc_s32_le := scale_buffer_inc codec_s32 mul_s32.
Definition cras_scale_buffer_s32_le := scale_buffer_by codec_s32 mul_s32.

Definition cras_mix_add_s32_le (dm : list Z) (dst : Z) (sm : list Z) (src count index mute : Z)
    (mix_vol : spec_float) : option (list Z) :=
  if negb (mute =? 0) || below_min mix_vol then
    if index =? 0 then memset0 dm dst (count * 4) else Some dm
  else if index =? 0 then copy_scaled_s32_le dm dst sm src count mix_vol
  else scale_add_clip_s32_le dm dst sm src count mix_vol.

(** [sum] is 64 bits wide, but the unscaled addition is of two [int32_t]. *)
Definition cras_mix_add_scale_stride_s32_le (dm : list Z) (dst : Z) (sm : list Z) (src : Z)
    (dst_stride src_stride count : Z) (scaler : spec_float) : option (list Z) :=
  update_samples codec_s32 count dst dst_stride (fun i a =>
    b ← rd codec_s32 sm (src + i * src_stride);
    sum ← (if need_to_scale scaler
           then f32_to_s64 (f32_add (f32_of_Z a) (f32_mul (f32_of_Z b) scaler))
           else add_int a b);
    Some (clip_s32 sum)) dm.

(** ** Signed 24 bit in three bytes *)

Definition cras_mix_add_clip_s24_3le (dm : list Z) (dst : Z) (sm : list Z) (src count : Z)
  : option (list Z) :=
  update_samples codec_s243 count dst 3 (fun i a =>
    b ← rd codec_s243 sm (src + i * 3); Some (clip_s32 (a + b))) dm.

Definition scale_add_clip_s24_3le (dm : list Z) (dst : Z) (sm : list Z) (src count : Z)
    (vol : spec_float) : option (list Z) :=
  if above_max vol then cras_mix_add_clip_s24_3le dm dst sm src count else
  update_samples codec_s243 count dst 3 (fun i a =>
    b ← rd codec_s243 sm (src + i * 3); b ← mul_s64 b vol; Some (clip_s32 (a + b))) dm.

Definition copy_scaled_s24_3le (dm : list Z) (dst : Z) (sm : list Z) (src count : Z)
    (vol : spec_float) : option (list Z) :=
  if above_max vol then memcpy dm dst sm src (count * 3) else
  update_samples codec_s243 count dst 3 (fun i _ =>
    b ← rd codec_s243 sm (src + i * 3); mul_s32 b vol) dm.

Definition cras_scale_buffer_inc_s24_3le := scale_buffer_inc codec_s243 mul_s32.
Definition cras_scale_buffer_s24_3le := scale_buffer_by codec_s243 mul_s32.

Definition cras_mix_add_s24_3le (dm : list Z) (dst : Z) (sm : list Z) (src count index mute : Z)
    (mix_vol : spec_float) : option (list Z) :=
  if negb (mute =? 0) || below_min mix_vol then
    if index =? 0 then memset0 dm dst (count * 3) else Some dm
  else if index =? 0 then copy_scaled_s24_3le dm dst sm src count mix_vol
  else scale_add_clip_s24_3le dm dst sm src count mix_vol.

Definition cras_mix_add_scale_stride_s24_3le (dm : list Z) (dst : Z) (sm : list Z) (src : Z)
    (dst_stride src_stride count : Z) (scaler : spec_float) : option (list Z) :=
  update_samples codec_s243 count dst dst_stride (fun i a =>
    b ← rd codec_s243 sm (src + i * src_stride);
    sum ← (if need_to_scale scaler
           then f32_to_s64 (f32_add (f32_of_Z a) (f32_mul (f32_of_Z b) scaler))
           else Some (a + b));
    Some (clip_s32 sum)) dm.

(** ** Any format; an unknown one does nothing *)

Section AnyFormat.
Context {P : pcm_library}.

Definition scale_buffer_increment (fmt : Z) (m : list Z) (buff count : Z)
    (scaler increment target : spec_float) (step : Z) : option (list Z) :=
  if fmt =? SND_PCM_FORMAT_S16_LE then
    cras_scale_buffer_inc_s16_le m buff count scaler increment target step
  else if fmt =? SND_PCM_FORMAT_S24_LE then
    cras_scale_buffer_inc_s24_le m buff count scaler increment target step
  else if fmt =? SND_PCM_FORMAT_S32_LE then
    cras_scale_buffer_inc_s32_le m buff count scaler increment target step
  else if fmt =? SND_PCM_FORMAT_S24_3LE then
    cras_scale_buffer_inc_s24_3le m buff count scaler increment target step
  else Some m.

Definition scale_buffer (fmt : Z) (m : list Z) (buff count : Z) (scaler : spec_float)
  : option (list Z) :=
  if fmt =? SND_PCM_FORMAT_S16_LE then cras_scale_buffer_s16_le m buff count scaler
  else if fmt =? SND_PCM_FORMAT_S24_LE then cras_scale_buffer_s24_le m buff count scaler
  else if fmt =? SND_PCM_FORMAT_S32_LE then cras_scale_buffer_s32_le m buff count scaler
  else if fmt =? SND_PCM_FORMAT_S24_3LE then cras_scale_buffer_s24_3le m buff count scaler
  else Some m.

Definition mix_add (fmt : Z) (dm : list Z) (dst : Z) (sm : list Z) (src count index mute : Z)
    (mix_vol : spec_float) : option (list Z) :=
  if fmt =? SND_PCM_FORMAT_S16_LE then cras_mix_add_s16_le dm dst sm src count index mute mix_vol
  else if fmt =? SND_PCM_FORMAT_S24_LE then
    cras_mix_add_s24_le dm dst sm src count index mute mix_vol
  else if fmt =? SND_PCM_FORMAT_S32_LE then
    cras_mix_add_s32_le dm dst sm src count index mute mix_vol
  else if fmt =? SND_PCM_FORMAT_S24_3LE then
    cras_mix_add_s24_3le dm dst sm src count index mute mix_vol
  else Some dm.

Definition mix_add_scale_stride (fmt : Z) (dm : list Z) (dst : Z) (sm : list Z)
    (src count dst_stride src_stride : Z) (scaler : spec_float) : option (list Z) :=
  if fmt =? SND_PCM_FORMAT_S16_LE then
    cras_mix_add_scale_stride_s16_le dm dst sm src dst_stride src_stride count scaler
  else if fmt =? SND_PCM_FORMAT_S24_LE then
    cras_mix_add_scale_stride_s24_le dm dst sm src dst_stride src_stride count scaler
  else if fmt =? SND_PCM_FORMAT_S32_LE then
    cras_mix_add_scale_stride_s32_le dm dst sm src dst_stride src_stride count scaler
  else if fmt =? SND_PCM_FORMAT_S24_3LE then
    cras_mix_add_scale_stride_s24_3le dm dst sm src dst_stride src_stride count scaler
  else Some dm.

Definition mix_mute_buffer (m : list Z) (dst frame_bytes count : Z) : option (Z * list Z) :=
  m ← memset0 m dst (u64 (count * frame_bytes)); Some (count, m).

(** cras_mix.c: the number of samples of [frame] frames is an [unsigned int]. *)
Definition cras_scale_buffer_increment (fmt : Z) (m : list Z) (buff frame : Z)
    (scaler increment target : spec_float) (channel : Z) : option (list Z) :=
  scale_buffer_increment fmt m buff (u32 (frame * channel)) scaler increment target channel.
End AnyFormat.

(** ** Reading and writing samples *)
Section Samples.
Context (C : Codec).

Definition fits (m : list Z) (off : Z) : Prop := 0 <= off /\ off + width <= Z.of_nat (length m).

Lemma rd_slice (m : list Z) (off : Z) :
  fits m off -> rd C m off = Some (decode (slice m off (off + width))).
Proof.
  intros [? ?]. pose proof width_pos. unfold rd. by rewrite mem_read_slice by lia.
Qed.

Lemma wr_fits (m : list Z) (off v : Z) :
  fits m off -> wr C m off v = Some (list_inserts (Z.to_nat off) (encode v) m).
Proof. intros [? ?]. unfold wr. rewrite mem_write_Some; rewrite ?encode_width; lia || done. Qed.

Lemma rd_wr_same (m : list Z) (off v : Z) :
  fits m off -> stores v -> rd C (list_inserts (Z.to_nat off) (encode v) m) off = Some (norm v).
Proof.
  intros [? ?] Hv. pose proof width_pos. pose proof (encode_width v).
  rewrite rd_slice by (split; rewrite ?length_inserts; lia).
  rewrite <- (encode_width v), slice_inserts_in by lia. by rewrite decode_encode.
Qed.

Lemma rd_wr_other (m : list Z) (off off' v : Z) :
  fits m off -> fits m off' -> off + width <= off' \/ off' + width <= off ->
  rd C (list_inserts (Z.to_nat off) (encode v) m) off' = rd C m off'.
Proof.
  intros [? ?] [? ?] Hdis. pose proof width_pos. pose proof (encode_width v).
  rewrite !rd_slice by (split; rewrite ?length_inserts; lia).
  rewrite slice_inserts_out; [done|lia..].
Qed.

Lemma bytes_wr_other (m : list Z) (off v : Z) (j : nat) :
  fits m off -> Z.of_nat j < off \/ off + width <= Z.of_nat j ->
  list_inserts (Z.to_nat off) (encode v) m !! j = m !! j.
Proof.
  intros [? ?] Hj. pose proof (encode_width v).
  destruct Hj; [apply list_lookup_inserts_lt|apply list_lookup_inserts_ge]; lia.
Qed.

(** What a loop over samples leaves: the new samples, and every other byte as
    it was. *)
Record rewritten (n dst stride : Z) (val : Z -> Z) (m m' : list Z) : Prop := {
  rw_length : length m' = length m;
  rw_samples : forall i, 0 <= i < n -> rd C m' (dst + i * stride) = Some (norm (val i));
  rw_bytes : forall j : nat,
    (forall i, 0 <= i < n -> Z.of_nat j < dst + i * stride \/ dst + i * stride + width <= Z.of_nat j) ->
    m' !! j = m !! j
}.

Lemma update_samples_spec (n dst stride : Z) (f : Z -> Z -> option Z) (val : Z -> Z) (m : list Z) :
  0 <= n -> width <= stride -> (forall i, 0 <= i < n -> fits m (dst + i * stride)) ->
  (forall i, 0 <= i < n -> exists a, rd C m (dst + i * stride) = Some a /\
     f i a = Some (val i) /\ stores (val i)) ->
  exists m', update_samples C n dst stride f m = Some m' /\ rewritten n dst stride val m m'.
Proof.
  intros Hn Hs Hfit Hf. unfold update_samples, for_n. pose proof width_pos as Hw.
  destruct (for_loop_inv (fun (k : nat) m' => rewritten (Z.of_nat k) dst stride val m m' /\
      forall i, Z.of_nat k <= i < n -> rd C m' (dst + i * stride) = rd C m (dst + i * stride))
    (Z.to_nat n) 0 (fun i m => a ← rd C m (dst + i * stride); v ← f i a; wr C m (dst + i * stride) v) m)
    as (m' & Hm' & Hr & _).
  - split; [|done]. split; [done|lia|done].
  - intros k m1 Hk [[Hlen Hsam Hby] Hrest].
    destruct (Hf (Z.of_nat k)) as (a & Ha & Hv & Hst); [lia|].
    rewrite Hrest, Ha by lia. cbn [mbind option_bind]. rewrite Hv. cbn [mbind option_bind].
    assert (Hfm : forall i, 0 <= i < n -> fits m1 (dst + i * stride)).
    { intros i Hi. unfold fits. rewrite Hlen. by apply Hfit. }
    rewrite wr_fits by (apply Hfm; lia). eexists. split; [done|]. split.
    + split.
      * by rewrite length_inserts.
      * intros i Hi. destruct (decide (i = Z.of_nat k)) as [->|Hne].
        { apply rd_wr_same; [apply Hfm; lia|done]. }
        rewrite rd_wr_other; [apply Hsam; lia|apply Hfm; lia..|nia].
      * intros j Hj. rewrite bytes_wr_other; [apply Hby; intros; apply Hj; lia|apply Hfm; lia|].
        apply (Hj (Z.of_nat k)). lia.
    + intros i Hi. rewrite rd_wr_other; [apply Hrest; lia|apply Hfm; lia..|nia].
  - exists m'. split; [done|]. by rewrite Nat.add_0_l, Z2Nat.id in Hr by lia.
Qed.

(** [n] samples in a row from [off] on. *)
Definition samples_fit (m : list Z) (off n : Z) : Prop :=
  0 <= off /\ 0 <= n /\ off + n * width <= Z.of_nat (length m).

Lemma samples_fit_one (m : list Z) (off n i : Z) :
  samples_fit m off n -> 0 <= i < n -> fits m (off + i * width).
Proof. intros (? & ? & ?) Hi. pose proof width_pos. split; nia. Qed.

Lemma memset0_samples (m : list Z) (off n : Z) :
  samples_fit m off n ->
  exists m', memset0 m off (n * width) = Some m' /\ length m' = length m /\
    (forall i, 0 <= i < n -> rd C m' (off + i * width) = Some 0) /\
    (forall j : nat, Z.of_nat j < off \/ off + n * width <= Z.of_nat j -> m' !! j = m !! j).
Proof.
  intros (? & ? & ?). pose proof decode_zeros as Hz. pose proof width_pos as Hw. unfold memset0.
  assert (Hl : Z.of_nat (length (replicate (Z.to_nat (n * width)) 0)) = n * width)
    by (rewrite length_replicate; nia).
  rewrite mem_write_Some by lia. eexists. split; [done|]. split_and!.
  - by rewrite length_inserts.
  - intros i Hi. rewrite rd_slice by (split; rewrite ?length_inserts; nia).
    enough (Heq : slice (list_inserts (Z.to_nat off) (replicate (Z.to_nat (n * width)) 0) m)
              (off + i * width) (off + i * width + width) = replicate (Z.to_nat width) 0)
      by (by rewrite Heq, Hz).
    unfold slice. replace (off + i * width + width - (off + i * width)) with width by lia.
    apply list_eq. intros k. rewrite lookup_take. case_decide as Hk.
    + rewrite lookup_drop, list_lookup_inserts by (rewrite ?length_replicate; nia).
      rewrite !lookup_replicate_2; [done|lia|nia].
    + symmetry. apply lookup_ge_None. rewrite length_replicate. lia.
  - intros j Hj. destruct Hj; [apply list_lookup_inserts_lt|apply list_lookup_inserts_ge]; lia.
Qed.

Lemma memcpy_samples (dm : list Z) (dst : Z) (sm : list Z) (src n : Z) :
  samples_fit dm dst n -> samples_fit sm src n ->
  exists m', memcpy dm dst sm src (n * width) = Some m' /\ length m' = length dm /\
    (forall i, 0 <= i < n -> rd C m' (dst + i * width) = rd C sm (src + i * width)) /\
    (forall j : nat, Z.of_nat j < dst \/ dst + n * width <= Z.of_nat j -> m' !! j = dm !! j).
Proof.
  intros (? & ? & ?) (? & ? & ?). pose proof width_pos as Hw. unfold memcpy.
  rewrite mem_read_slice by nia. cbn [mbind option_bind].
  assert (Hl : Z.of_nat (length (slice sm src (src + n * width))) = n * width)
    by (rewrite slice_length; nia).
  rewrite mem_write_Some by lia. eexists. split; [done|]. split_and!.
  - by rewrite length_inserts.
  - intros i Hi. rewrite !rd_slice by (split; rewrite ?length_inserts; nia).
    do 2 f_equal. unfold slice at 1 3.
    replace (dst + i * width + width - (dst + i * width)) with width by lia.
    replace (src + i * width + width - (src + i * width)) with width by lia.
    apply list_eq. intros k. rewrite !lookup_take. case_decide as Hk; [|done].
    rewrite !lookup_drop, list_lookup_inserts by nia. unfold slice.
    rewrite lookup_take, decide_True, lookup_drop by nia. f_equal. nia.
  - intros j Hj. destruct Hj; [apply list_lookup_inserts_lt|apply list_lookup_inserts_ge]; lia.
Qed.
End Samples.

(** ** What mixing does to one sample

    [a] is in the buffer and [b] comes from the stream: the first stream sets
    the buffer, the others are added; a muted one counts as silence. *)
Definition mixed (set : Z -> spec_float -> option Z) (add : Z -> Z -> option Z)
    (add_scaled : Z -> Z -> spec_float -> option Z) (index mute : Z) (vol : spec_float) (a b : Z)
  : option Z :=
  if negb (mute =? 0) || below_min vol then Some (if index =? 0 then 0 else a)
  else if index =? 0 then (if above_max vol then Some b else set b vol)
  else if above_max vol then add a b else add_scaled a b vol.

Definition mixed_s16 : Z -> Z -> spec_float -> Z -> Z -> option Z :=
  mixed mul_s16 (fun a b => Some (clip_s16 (a + b)))
        (fun a b vol => b ← mul_s16 b vol; Some (clip_s16 (a + b))).
Definition mixed_s24 : Z -> Z -> spec_float -> Z -> Z -> option Z :=
  mixed scale_s24_le (fun a b => clip_s24 <$> add_int a b)
        (fun a b vol => b ← mul_s32 b vol; clip_s24 <$> add_int a b).
Definition mixed_s32 : Z -> Z -> spec_float -> Z -> Z -> option Z :=
  mixed mul_s32 (fun a b => Some (clip_s32 (a + b)))
        (fun a b vol => b ← mul_s64 b vol; Some (clip_s32 (a + b))).

(** How the samples of a format lie in memory and mix; packed 24 bit samples
    mix as the high bytes of 32 bit ones. *)
Inductive mix_format {P : pcm_library} (fmt : Z)
  : Codec -> (Z -> Z -> spec_float -> Z -> Z -> option Z) -> Prop :=
| MixS16 : fmt = SND_PCM_FORMAT_S16_LE -> mix_format fmt codec_s16 mixed_s16
| MixS24 : fmt = SND_PCM_FORMAT_S24_LE -> mix_format fmt codec_s32 mixed_s24
| MixS32 : fmt = SND_PCM_FORMAT_S32_LE -> mix_format fmt codec_s32 mixed_s32
| MixS243 : fmt = SND_PCM_FORMAT_S24_3LE -> mix_format fmt codec_s243 mixed_s32.

Lemma clip_range (lo hi x : Z) : lo <= hi -> lo <= clip lo hi x <= hi.
Proof. intros. unfold clip. zcases; lia. Qed.

Lemma clip_s16_range (x : Z) : is_s16 (clip_s16 x).
Proof. pose proof (clip_range (-32768) 32767 x ltac:(lia)). unfold is_s16, clip_s16. lia. Qed.

Lemma clip_s32_range (x : Z) : is_s32 (clip_s32 x).
Proof.
  pose proof (clip_range (-2147483648) 2147483647 x ltac:(lia)). unfold is_s32, clip_s32. lia.
Qed.

Lemma f32_to_s32_range (f : spec_float) (v : Z) : f32_to_s32 f = Some v -> is_s32 v.
Proof.
  unfold f32_to_s32. destruct (f32_trunc f) as [z|]; simpl; [|done].
  destruct (_ && _) eqn:E; [|done]. intros [= <-]. unfold is_s32. lia.
Qed.

Lemma f32_to_s16_range (f : spec_float) (v : Z) : f32_to_s16 f = Some v -> is_s16 v.
Proof.
  unfold f32_to_s16. destruct (f32_trunc f) as [z|]; simpl; [|done].
  destruct (_ && _) eqn:E; [|done]. intros [= <-]. unfold is_s16. lia.
Qed.

Lemma scale_s24_range (v w : Z) (s : spec_float) : scale_s24_le v s = Some w -> 0 <= w < 16777216.
Proof.
  unfold scale_s24_le. destruct (mul_s32 _ s); simpl; [|done]. intros [= <-].
  change 16777215 with (Z.ones 24). rewrite Z.land_ones by lia. apply Z.mod_pos_bound. lia.
Qed.

Lemma mixed_cases set add adds index mute vol a b v :
  mixed set add adds index mute vol a b = Some v ->
  v = 0 \/ v = a \/ v = b \/ set b vol = Some v \/ add a b = Some v \/ adds a b vol = Some v.
Proof.
  unfold mixed. destruct (_ || _); [intros [= <-]; destruct (index =? 0); auto 10|].
  destruct (index =? 0), (above_max vol); auto 10. intros [= <-]. auto 10.
Qed.

Lemma clipped_s24 (a b v : Z) : clip_s24 <$> add_int a b = Some v -> is_s32 v.
Proof.
  intros (z & _ & ->)%fmap_Some. pose proof (clip_range (-8388608) 8388607 z ltac:(lia)).
  unfold clip_s24, is_s32. lia.
Qed.

(** A mixed sample is a sample of the format. *)
Lemma mixed_stores {P : pcm_library} (fmt : Z) (C : Codec) R index mute vol a b v :
  mix_format fmt C R -> R index mute vol a b = Some v -> stores a -> stores b -> stores v.
Proof.
  intros Hf. destruct Hf; simpl; intros HR Ha Hb;
    apply mixed_cases in HR as [->|[->|[->|[HR|[HR|HR]]]]]; try done.
  - by eapply f32_to_s16_range.
  - injection HR as <-. apply clip_s16_range.
  - apply bind_Some in HR as (z & _ & [= <-]). apply clip_s16_range.
  - apply scale_s24_range in HR. unfold is_s32. lia.
  - by eapply clipped_s24.
  - apply bind_Some in HR as (z & _ & HR). by eapply clipped_s24.
  - by eapply f32_to_s32_range.
  - injection HR as <-. apply clip_s32_range.
  - apply bind_Some in HR as (z & _ & [= <-]). apply clip_s32_range.
  - by eapply f32_to_s32_range.
  - injection HR as <-. apply clip_s32_range.
  - apply bind_Some in HR as (z & _ & [= <-]). apply clip_s32_range.
Qed.

Definition mix_add_by (C : Codec) (set : Z -> spec_float -> option Z) (add : Z -> Z -> option Z)
    (add_scaled : Z -> Z -> spec_float -> option Z)
    (dm : list Z) (dst : Z) (sm : list Z) (src count index mute : Z) (vol : spec_float)
  : option (list Z) :=
  let each f := update_samples C count dst width (fun i a => b ← rd C sm (src + i * width); f a b) dm in
  if negb (mute =? 0) || below_min vol then
    if index =? 0 then memset0 dm dst (count * width) else Some dm
  else if index =? 0 then
    if above_max vol then memcpy dm dst sm src (count * width) else each (fun _ b => set b vol)
  else if above_max vol then each add else each (fun a b => add_scaled a b vol).

(** The new samples of a buffer, and every other byte as it was. *)
Definition mixed_into (C : Codec) (value : Z -> Z -> option Z) (dm : list Z) (dst : Z)
    (sm : list Z) (src count : Z) (dm' : list Z) : Prop :=
  length dm' = length dm /\
  (forall i, 0 <= i < count ->
     rd C dm' (dst + i * width) =
     (a ← rd C dm (dst + i * width); b ← rd C sm (src + i * width); norm <$> value a b)) /\
  (forall j : nat, Z.of_nat j < dst \/ dst + count * width <= Z.of_nat j -> dm' !! j = dm !! j).

Section MixAddBy.
Context (C : Codec) (dm : list Z) (dst : Z) (sm : list Z) (src count : Z).
Hypothesis dst_fits : samples_fit C dm dst count.
Hypothesis src_fits : samples_fit C sm src count.

Lemma rd_sample (m : list Z) (off n i : Z) :
  samples_fit C m off n -> 0 <= i < n ->
  exists bs, rd C m (off + i * width) = Some (decode bs).
Proof. intros Hm Hi. eexists. apply rd_slice. by eapply samples_fit_one. Qed.

Lemma each_spec (f : Z -> Z -> option Z) :
  (forall a b v, f a b = Some v -> stores a -> stores b -> stores v) ->
  (forall i, 0 <= i < count ->
     is_Some (a ← rd C dm (dst + i * width); b ← rd C sm (src + i * width); f a b)) ->
  exists dm', update_samples C count dst width
      (fun i a => b ← rd C sm (src + i * width); f a b) dm = Some dm' /\
    mixed_into C f dm dst sm src count dm'.
Proof.
  intros Hst Hdef. pose proof width_pos as Hw.
  set (val i := default 0 (a ← rd C dm (dst + i * width); b ← rd C sm (src + i * width); f a b)).
  assert (Hval : forall i, 0 <= i < count -> exists a b, rd C dm (dst + i * width) = Some a /\
    rd C sm (src + i * width) = Some b /\ f a b = Some (val i) /\ stores (val i)).
  { intros i Hi. destruct (Hdef i Hi) as [v Hv].
    destruct (rd_sample dm dst count i dst_fits Hi) as [ba Ha].
    destruct (rd_sample sm src count i src_fits Hi) as [bb Hb].
    unfold val. rewrite Ha, Hb in Hv |- *. simpl in Hv |- *. exists (decode ba), (decode bb).
    rewrite Hv. simpl. split_and!; try done. eapply Hst; [exact Hv|apply decode_stores..]. }
  destruct (update_samples_spec C count dst width
    (fun i a => b ← rd C sm (src + i * width); f a b) val dm) as (dm' & Hup & [Hl Hs Hb]).
  - by destruct dst_fits as (_ & ? & _).
  - lia.
  - intros i Hi. by eapply samples_fit_one.
  - intros i Hi. destruct (Hval i Hi) as (a & b & Ha & Hb & Hf & Hs).
    exists a. rewrite Hb. done.
  - exists dm'. split; [done|]. split; [done|]. split.
    + intros i Hi. destruct (Hval i Hi) as (a & b & -> & -> & Hf & _). simpl.
      rewrite Hf. by apply Hs.
    + intros j Hj. apply Hb. intros i Hi. destruct Hj; [left|right]; nia.
Qed.

Lemma mix_add_by_spec set add add_scaled index mute vol :
  (forall a b v, mixed set add add_scaled index mute vol a b = Some v ->
     stores a -> stores b -> stores v) ->
  (forall i, 0 <= i < count -> is_Some (a ← rd C dm (dst + i * width);
     b ← rd C sm (src + i * width); mixed set add add_scaled index mute vol a b)) ->
  exists dm', mix_add_by C set add add_scaled dm dst sm src count index mute vol = Some dm' /\
    mixed_into C (mixed set add add_scaled index mute vol) dm dst sm src count dm'.
Proof.
  intros Hst Hdef. unfold mix_add_by, mixed in *.
  destruct (_ || _) eqn:Hmute; [destruct (index =? 0)|destruct (index =? 0), (above_max vol)].
  - destruct (memset0_samples C dm dst count dst_fits) as (dm' & -> & Hl & Hs & Hb).
    exists dm'. split; [done|]. split; [done|]. split; [|done]. intros i Hi. rewrite Hs by done.
    destruct (rd_sample dm dst count i dst_fits Hi) as [ba ->].
    destruct (rd_sample sm src count i src_fits Hi) as [bb ->]. simpl.
    pose proof (norm_decode (replicate (Z.to_nat width) 0)) as Hz. rewrite decode_zeros in Hz.
    by rewrite Hz.
  - exists dm. split; [done|]. split; [done|]. split; [|done]. intros i Hi.
    destruct (rd_sample dm dst count i dst_fits Hi) as [ba ->].
    destruct (rd_sample sm src count i src_fits Hi) as [bb ->]. simpl. by rewrite norm_decode.
  - destruct (memcpy_samples C dm dst sm src count dst_fits src_fits) as (dm' & -> & Hl & Hs & Hb).
    exists dm'. split; [done|]. split; [done|]. split; [|done]. intros i Hi. rewrite Hs by done.
    destruct (rd_sample dm dst count i dst_fits Hi) as [ba ->].
    destruct (rd_sample sm src count i src_fits Hi) as [bb ->]. simpl. by rewrite norm_decode.
  - apply (each_spec (fun _ b => set b vol)); [done|done].
  - apply each_spec; [done|done].
  - apply (each_spec (fun a b => add_scaled a b vol)); [done|done].
Qed.
End MixAddBy.

(** A sample depends on its own bytes only. *)
Lemma rd_ext (C : Codec) (m m' : list Z) (off : Z) :
  length m' = length m -> 0 <= off ->
  (forall j : nat, off <= Z.of_nat j < off + width -> m' !! j = m !! j) -> rd C m' off = rd C m off.
Proof.
  intros Hl Hoff Hj. pose proof width_pos. unfold rd, mem_read. rewrite Hl.
  destruct (_ && _); [|done].
  replace (take (Z.to_nat width) (drop (Z.to_nat off) m'))
    with (take (Z.to_nat width) (drop (Z.to_nat off) m)); [done|].
  apply list_eq. intros i. rewrite !lookup_take. destruct (decide _); [|done]. rewrite !lookup_drop.
  symmetry. apply Hj. lia.
Qed.

(** Two runs of mixing in a row are one. *)
Lemma mixed_into_app (C : Codec) (value : Z -> Z -> option Z) (dm q m1 sm m2 : list Z)
    (qs src c1 c2 : Z) :
  0 <= c1 -> 0 <= c2 ->
  mixed_into C value dm 0 q qs c1 m1 -> mixed_into C value m1 (c1 * width) sm src c2 m2 ->
  (forall i, 0 <= i < c2 -> rd C sm (src + i * width) = rd C q (qs + (c1 + i) * width)) ->
  mixed_into C value dm 0 q qs (c1 + c2) m2.
Proof.
  intros H1 H2 (L1 & S1 & B1) (L2 & S2 & B2) Hq. pose proof width_pos as Hw. split; [lia|]. split.
  - intros i Hi. destruct (Z.lt_ge_cases i c1) as [Hlt|Hge].
    + rewrite (rd_ext C m1 m2); [apply S1; lia|lia|lia|]. intros j Hj. apply B2. left. nia.
    + pose proof (S2 (i - c1) ltac:(lia)) as H. rewrite Hq in H by lia.
      replace (c1 * width + (i - c1) * width) with (0 + i * width) in H by lia.
      rewrite H. replace (c1 + (i - c1)) with i by lia.
      rewrite (rd_ext C dm m1 (0 + i * width)); [done|lia|lia|]. intros j Hj. apply B1. right. nia.
  - intros j Hj. rewrite B2, B1; [done|lia|]. destruct Hj; [left; lia|right; lia].
Qed.

Lemma mixed_into_nil (C : Codec) (value : Z -> Z -> option Z) (dm q : list Z) (dst qs : Z) :
  mixed_into C value dm dst q qs 0 dm.
Proof. split; [done|]. split; [lia|done]. Qed.

(** A sample of what was read from memory is that sample of the memory. *)
Lemma rd_of_read (C : Codec) (m bs : list Z) (p len off : Z) :
  mem_read m p len = Some bs -> 0 <= off -> off + width <= len -> rd C m (p + off) = rd C bs off.
Proof.
  unfold mem_read. intros Hr Hoff Hlen. pose proof width_pos. revert Hr.
  destruct (_ && _) eqn:Hb; [|done]. intros [= <-]. unfold rd, mem_read.
  rewrite length_take, length_drop. rewrite !andb_true_iff, !Z.leb_le in Hb.
  zdecide. cbn [andb]. rewrite skipn_firstn_comm, take_take, drop_drop.
  replace (Z.to_nat width `min` (Z.to_nat len - Z.to_nat off))%nat with (Z.to_nat width) by lia.
  by replace (Z.to_nat (p + off)) with (Z.to_nat p + Z.to_nat off)%nat by lia.
Qed.

Lemma rd_window (C : Codec) (m : list Z) (a len off : Z) :
  0 <= a -> 0 <= off -> off + width <= len -> a + off + width <= Z.of_nat (length m) ->
  rd C (take (Z.to_nat len) (drop (Z.to_nat a) m)) off = rd C m (a + off).
Proof.
  intros Ha Hoff Hlen Hm. pose proof width_pos. unfold rd, mem_read.
  rewrite length_take, length_drop. zdecide. cbn [andb].
  rewrite skipn_firstn_comm, take_take, drop_drop.
  replace (Z.to_nat width `min` (Z.to_nat len - Z.to_nat off))%nat with (Z.to_nat width) by lia.
  by replace (Z.to_nat (a + off)) with (Z.to_nat a + Z.to_nat off)%nat by lia.
Qed.

Lemma mix_add_ok {P : pcm_library} (fmt : Z) (C : Codec) R
    (dm : list Z) (dst : Z) (sm : list Z) (src count index mute : Z) (vol : spec_float) :
  pcm_documented P -> mix_format fmt C R ->
  samples_fit C dm dst count -> samples_fit C sm src count ->
  (forall i, 0 <= i < count -> is_Some (a ← rd C dm (dst + i * width);
     b ← rd C sm (src + i * width); R index mute vol a b)) ->
  exists dm', mix_add fmt dm dst sm src count index mute vol = Some dm' /\
    mixed_into C (R index mute vol) dm dst sm src count dm'.
Proof.
  intros HP Hf Hd Hs Hdef.
  assert (Hst : forall a b v, R index mute vol a b = Some v -> stores a -> stores b -> stores v)
    by (intros a b v; by apply (mixed_stores fmt)).
  pose proof s24_3_other as Hne. unfold mix_add.
  destruct Hf as [-> | -> | -> | ->]; try (apply (mix_add_by_spec _ dm dst sm src count Hd Hs); done).
  rewrite !not_elem_of_cons in Hne. destruct Hne as (_ & H16 & H24 & H32 & _).
  rewrite !(proj2 (Z.eqb_neq _ _)) by done. rewrite Z.eqb_refl.
  apply (mix_add_by_spec _ dm dst sm src count Hd Hs); done.
Qed.

(** Mixing a buffer writes, for every format, exactly the mixed value
    of each sample (silence, copy, scaled copy, or the sum clipped to the
    format), and no other byte, whenever each of these values is defined. *)
Theorem mix_add_samples {P : pcm_library} (fmt : Z) (C : Codec) R
    (dm : list Z) (dst : Z) (sm : list Z) (src count index mute : Z) (vol : spec_float) :
  pcm_documented P -> mix_format fmt C R ->
  samples_fit C dm dst count -> samples_fit C sm src count ->
  (forall i, 0 <= i < count -> is_Some (a ← rd C dm (dst + i * width);
     b ← rd C sm (src + i * width); R index mute vol a b)) ->
  exists dm', mix_add fmt dm dst sm src count index mute vol = Some dm' /\
    mixed_into C (R index mute vol) dm dst sm src count dm'.
Proof. apply mix_add_ok. Qed.

(** ** Volumes from 0 to 1 *)

Lemma mul_s16_volume (b : Z) (vol : spec_float) :
  volume vol -> is_s16 b -> is_Some (mul_s16 b vol).
Proof.
  unfold is_s16. intros Hv Hb.
  destruct (scaled_bound b (Z.abs b) 0 vol Hv) as (w & Hw & Ha & Hp & Hn); [lia..|].
  unfold mul_s16, f32_to_s16. rewrite Hw. simpl. rewrite Z.mul_1_r in Ha. zdecide. by eexists.
Qed.

(** What [float] holds of an [int] sample. *)
Definition float_sample (b : Z) : Prop := is_s32 b /\ (b <= 2147483520 \/ b mod 256 = 0).

Lemma mul_s32_volume (b : Z) (vol : spec_float) :
  volume vol -> float_sample b -> is_Some (mul_s32 b vol).
Proof.
  unfold float_sample, is_s32. intros Hv [Hb Hf].
  assert (Hle : b <= 2147483520) by (destruct Hf; [done|]; Z.to_euclidean_division_equations; lia).
  unfold mul_s32, f32_to_s32. destruct (Z.leb_spec 0 b).
  - destruct (scaled_bound b 16777215 7 vol Hv) as (w & -> & Ha & Hp & Hn); [lia..|].
    simpl. change (16777215 * 2 ^ 7) with 2147483520 in Ha. zdecide. by eexists.
  - destruct (scaled_bound b 8388608 8 vol Hv) as (w & -> & Ha & Hp & Hn); [lia..|].
    simpl. change (8388608 * 2 ^ 8) with 2147483648 in Ha. zdecide. by eexists.
Qed.

Lemma mul_s64_volume (b : Z) (vol : spec_float) :
  volume vol -> is_s32 b -> is_Some (mul_s64 b vol).
Proof.
  unfold is_s32. intros Hv Hb. unfold mul_s64, f32_to_s64.
  destruct (scaled_bound b 8388608 8 vol Hv) as (w & -> & Ha & Hp & Hn); [lia..|].
  simpl. change (8388608 * 2 ^ 8) with 2147483648 in Ha. zdecide. by eexists.
Qed.

Lemma mixed_s16_defined index mute vol a b :
  volume vol -> is_s16 b -> is_Some (mixed_s16 index mute vol a b).
Proof.
  intros Hv Hb. destruct (mul_s16_volume b vol Hv Hb) as [w Hw]. unfold mixed_s16, mixed.
  rewrite Hw. destruct (_ || _), (index =? 0), (above_max vol); by eexists.
Qed.

Lemma mixed_s32_defined index mute vol a b :
  volume vol -> is_s32 b -> (index = 0 -> float_sample b) -> is_Some (mixed_s32 index mute vol a b).
Proof.
  intros Hv Hb Hf. destruct (mul_s64_volume b vol Hv Hb) as [w Hw]. unfold mixed_s32, mixed.
  rewrite Hw. destruct (_ || _); [by eexists|]. destruct (Z.eqb_spec index 0) as [Hi|Hi].
  - destruct (mul_s32_volume b vol Hv (Hf Hi)) as [w' ->]. destruct (above_max vol); by eexists.
  - destruct (above_max vol); by eexists.
Qed.

Lemma rd_decode (C : Codec) (m : list Z) (off v : Z) :
  rd C m off = Some v -> exists bs, v = decode bs.
Proof. unfold rd. intros (bs & _ & ->)%fmap_Some. by exists bs. Qed.

Lemma mix_add_volume_ok {P : pcm_library} (fmt : Z) (C : Codec) R
    (dm : list Z) (dst : Z) (sm : list Z) (src count index mute : Z) (vol : spec_float) :
  pcm_documented P -> mix_format fmt C R -> fmt <> SND_PCM_FORMAT_S24_LE -> volume vol ->
  samples_fit C dm dst count -> samples_fit C sm src count ->
  (fmt = SND_PCM_FORMAT_S32_LE -> index = 0 -> forall i b, 0 <= i < count ->
     rd C sm (src + i * width) = Some b -> b <= 2147483520) ->
  exists dm', mix_add fmt dm dst sm src count index mute vol = Some dm' /\
    mixed_into C (R index mute vol) dm dst sm src count dm'.
Proof.
  intros HP Hf Hn24 Hv Hd Hs H32.
  apply mix_add_ok; [done..|]. intros i Hi.
  destruct (rd_sample C dm dst count i Hd Hi) as [ba ->].
  destruct (rd_sample C sm src count i Hs Hi) as [bb Hb]. rewrite Hb. simpl.
  pose proof (decode_stores bb) as Hbs.
  destruct Hf as [-> | -> | -> | ->]; [| done | |].
  - by apply mixed_s16_defined.
  - apply mixed_s32_defined; [done|done|]. intros Hidx. split; [done|].
    left. by apply (H32 eq_refl Hidx i).
  - apply mixed_s32_defined; [done|done|]. intros _. split; [done|]. right.
    pose proof (norm_decode bb) as Hnorm. simpl in Hnorm |- *. lia.
Qed.


Definition half : spec_float := S754_finite false 8388608 (-24).


Lemma mix_add_samples_witness :
  exists dm', mix_add (P := alsa_example) SND_PCM_FORMAT_S24_LE [0; 0; 0; 0] 0 [16; 39; 0; 0] 0 1 0 0 half = Some dm' /\
    mixed_into codec_s32 (mixed_s24 0 0 half) [0; 0; 0; 0] 0 [16; 39; 0; 0] 0 1 dm' /\
    rd codec_s32 dm' 0 = Some 5000.
Proof.
  destruct (mix_add_samples (P := alsa_example) SND_PCM_FORMAT_S24_LE codec_s32 mixed_s24
    [0; 0; 0; 0] 0 [16; 39; 0; 0] 0 1 0 0 half) as (dm' & Hm & Hi).
  - apply alsa_example_documented.
  - by constructor.
  - unfold samples_fit; simpl; lia.
  - unfold samples_fit; simpl; lia.
  - intros i Hi. assert (i = 0) as -> by lia. vm_compute. by eexists.
  - exists dm'. split; [exact Hm|]. split; [exact Hi|].
    vm_compute in Hm. injection Hm as <-. by vm_compute.
Defined.

(** ** Strided buffers *)

Definition strided_s16 (scaler : spec_float) (a b : Z) : option Z :=
  clip_s16 <$> (if need_to_scale scaler
                then f32_to_s32 (f32_add (f32_of_Z a) (f32_mul (f32_of_Z b) scaler))
                else Some (a + b)).
Definition strided_s24 (scaler : spec_float) (a b : Z) : option Z :=
  b ← (if need_to_scale scaler then scale_s24_le b scaler else Some b); clip_s24 <$> add_int a b.
Definition strided_s32 (scaler : spec_float) (a b : Z) : option Z :=
  clip_s32 <$> (if need_to_scale scaler
                then f32_to_s64 (f32_add (f32_of_Z a) (f32_mul (f32_of_Z b) scaler))
                else add_int a b).
Definition strided_s243 (scaler : spec_float) (a b : Z) : option Z :=
  clip_s32 <$> (if need_to_scale scaler
                then f32_to_s64 (f32_add (f32_of_Z a) (f32_mul (f32_of_Z b) scaler))
                else Some (a + b)).

Inductive stride_format {P : pcm_library} (fmt : Z) : Codec -> (spec_float -> Z -> Z -> option Z) -> Prop :=
| StrideS16 : fmt = SND_PCM_FORMAT_S16_LE -> stride_format fmt codec_s16 strided_s16
| StrideS24 : fmt = SND_PCM_FORMAT_S24_LE -> stride_format fmt codec_s32 strided_s24
| StrideS32 : fmt = SND_PCM_FORMAT_S32_LE -> stride_format fmt codec_s32 strided_s32
| StrideS243 : fmt = SND_PCM_FORMAT_S24_3LE -> stride_format fmt codec_s243 strided_s243.

Lemma strided_stores {P : pcm_library} (fmt : Z) (C : Codec) R scaler a b v :
  stride_format fmt C R -> R scaler a b = Some v -> stores v.
Proof.
  intros Hf. destruct Hf; simpl.
  - intros (z & _ & ->)%fmap_Some. apply clip_s16_range.
  - intros (z & _ & HR)%bind_Some. by eapply clipped_s24.
  - intros (z & _ & ->)%fmap_Some. apply clip_s32_range.
  - intros (z & _ & ->)%fmap_Some. apply clip_s32_range.
Qed.

(** The strided samples of a buffer lie inside it. *)
Definition stride_fits (C : Codec) (m : list Z) (off n stride : Z) : Prop :=
  forall i, 0 <= i < n -> fits C m (off + i * stride).

Definition strided_value (C : Codec) (f : Z -> Z -> option Z) (dm : list Z) (dst ds : Z)
    (sm : list Z) (src ss i : Z) : option Z :=
  a ← rd C dm (dst + i * ds); b ← rd C sm (src + i * ss); f a b.

(** [strided_into] is [mixed_into] with the two strides. *)
Definition strided_into (C : Codec) (f : Z -> Z -> option Z) (dm : list Z) (dst ds : Z)
    (sm : list Z) (src ss count : Z) (dm' : list Z) : Prop :=
  length dm' = length dm /\
  (forall i, 0 <= i < count ->
     rd C dm' (dst + i * ds) = norm <$> strided_value C f dm dst ds sm src ss i) /\
  (forall j : nat, (forall i, 0 <= i < count ->
     Z.of_nat j < dst + i * ds \/ dst + i * ds + width <= Z.of_nat j) -> dm' !! j = dm !! j).

Lemma strided_spec (C : Codec) (f : Z -> Z -> option Z) (dm : list Z) (dst ds : Z)
    (sm : list Z) (src ss count : Z) :
  0 <= count -> width <= ds -> stride_fits C dm dst count ds ->
  (forall a b v, f a b = Some v -> stores v) ->
  (forall i, 0 <= i < count -> is_Some (strided_value C f dm dst ds sm src ss i)) ->
  exists dm', update_samples C count dst ds (fun i a => b ← rd C sm (src + i * ss); f a b) dm = Some dm' /\
    strided_into C f dm dst ds sm src ss count dm'.
Proof.
  intros Hc Hw Hfit Hst Hdef.
  set (val i := default 0 (strided_value C f dm dst ds sm src ss i)).
  destruct (update_samples_spec C count dst ds (fun i a => b ← rd C sm (src + i * ss); f a b) val dm)
    as (dm' & Hup & [Hl Hs Hb]); [done|done|done| |].
  - intros i Hi. destruct (Hdef i Hi) as [v Hv]. unfold val. rewrite Hv.
    apply bind_Some in Hv as (a & Ha & Hv). exists a. split; [done|]. split; [done|].
    apply bind_Some in Hv as (b & Hb & Hv). by apply (Hst a b).
  - exists dm'. split; [done|]. split; [done|]. split; [|done].
    intros i Hi. rewrite Hs by done. destruct (Hdef i Hi) as [v Hv]. unfold val. by rewrite Hv.
Qed.

Lemma mix_add_scale_stride_ok {P : pcm_library} (fmt : Z) (C : Codec) R (dm : list Z) (dst : Z)
    (sm : list Z) (src count ds ss : Z) (scaler : spec_float) :
  pcm_documented P -> stride_format fmt C R ->
  0 <= count -> width <= ds -> stride_fits C dm dst count ds ->
  (forall i, 0 <= i < count -> is_Some (strided_value C (R scaler) dm dst ds sm src ss i)) ->
  exists dm', mix_add_scale_stride fmt dm dst sm src count ds ss scaler = Some dm' /\
    strided_into C (R scaler) dm dst ds sm src ss count dm'.
Proof.
  intros HP Hf Hc Hw Hfit Hdef.
  destruct (strided_spec C (R scaler) dm dst ds sm src ss count) as (dm' & Hup & Hinto);
    [done|done|done| |done|].
  { intros a b v. by apply (strided_stores fmt). }
  exists dm'. split; [|done]. pose proof s24_3_other as Hne.
  destruct Hf as [-> | -> | -> | ->]; [exact Hup..|].
  unfold mix_add_scale_stride.
  rewrite !not_elem_of_cons in Hne. destruct Hne as (_ & H16 & H24 & H32 & _).
  rewrite !(proj2 (Z.eqb_neq _ _)) by done. rewrite Z.eqb_refl. exact Hup.
Qed.

Definition bytes_of (C : Codec) (vs : list Z) : list Z := concat (encode <$> vs).

(** Three places where the 24 and 32 bit loops do not do what the
    others do.  Scaling a 24 bit sample never gives a negative number, so a
    negative sample turned down to a half becomes the loudest positive one in
    the strided mix, and a silent second stream does the same to a scaled first
    one; and the strided 32 bit sum overflows before it is clipped. *)
Theorem scaled_mix_defects :
  (forall v s w, scale_s24_le v s = Some w -> 0 <= w) /\
  (dm ← cras_mix_add_scale_stride_s24_le (bytes_of codec_s32 [0]) 0 (bytes_of codec_s32 [-1000]) 0
          4 4 1 half; rd codec_s32 dm 0) = Some 8388607 /\
  (dm ← cras_mix_add_s24_le (bytes_of codec_s32 [0]) 0 (bytes_of codec_s32 [-1000]) 0 1 0 0 half;
   dm ← cras_mix_add_s24_le dm 0 (bytes_of codec_s32 [0]) 0 1 1 0 float_one; rd codec_s32 dm 0)
    = Some 8388607 /\
  (dm ← cras_mix_add_clip_s32_le (bytes_of codec_s32 [1500000000]) 0
          (bytes_of codec_s32 [1500000000]) 0 1; rd codec_s32 dm 0) = Some 2147483647 /\
  cras_mix_add_scale_stride_s32_le (bytes_of codec_s32 [1500000000]) 0
    (bytes_of codec_s32 [1500000000]) 0 4 4 1 float_one = None.
Proof.
  split; [intros v s w Hw; apply scale_s24_range in Hw; lia|].
  split_and!; vm_compute; reflexivity.
Qed.

Lemma scaled_mix_defects_witness : 0 <= 16776716.
Proof. apply (proj1 scaled_mix_defects (-1000) half). vm_compute. reflexivity. Defined.

(** ** Volume ramps *)

(** The scaler of frame [k]: [increment] is added once per frame. *)
Fixpoint scaler_at (scaler increment : spec_float) (k : nat) : spec_float :=
  match k with O => scaler | S k => f32_add (scaler_at scaler increment k) increment end.

Definition ramp_value (C : Codec) (scale : Z -> spec_float -> option Z) (m : list Z)
    (buffer step : Z) (scaler increment target : spec_float) (i : Z) : option Z :=
  a ← rd C m (buffer + i * width);
  scale_sample scale a (applied (scaler_at scaler increment (Z.to_nat (i / step))) increment target).

Lemma rd_same (C : Codec) (m m' : list Z) (off : Z) :
  length m' = length m -> fits C m off ->
  (forall j : nat, off <= Z.of_nat j < off + width -> m' !! j = m !! j) ->
  rd C m' off = rd C m off.
Proof.
  intros Hl [? ?] Hj. rewrite !rd_slice by (split; lia). do 2 f_equal. unfold slice.
  apply list_eq. intros y. rewrite !lookup_take. case_decide; [|done].
  rewrite !lookup_drop. apply Hj. lia.
Qed.

Section Ramp.
Context (C : Codec) (scale : Z -> spec_float -> option Z) (m : list Z).
Context (buffer count : Z) (scaler increment target : spec_float) (step : Z).
Hypothesis step_pos : 0 < step < 2147483648.
Hypothesis count_small : count < 2147483648.
Hypothesis buffer_fits : samples_fit C m buffer count.
Hypothesis scale_stores : forall v s w, scale v s = Some w -> stores w.
#[local] Notation value := (ramp_value C scale m buffer step scaler increment target).
Hypothesis ramp_defined : forall i, 0 <= i < step * (count / step) -> is_Some (value i).

(** Before each frame: the frames before it are done, the rest is untouched. *)
Definition ramp_inv : Z * spec_float * list Z -> Prop := fun '(i, s, m') =>
  exists k : nat, i = Z.of_nat k * step /\ i <= count /\
    s = scaler_at scaler increment k /\ length m' = length m /\
    (forall x, 0 <= x < i -> rd C m' (buffer + x * width) = norm <$> value x) /\
    (forall j : nat, Z.of_nat j < buffer \/ buffer + i * width <= Z.of_nat j -> m' !! j = m !! j).

Lemma ramp_whole (k : nat) :
  Z.of_nat k * step + step <= count -> Z.of_nat k * step + step <= step * (count / step).
Proof.
  intros Hle. replace (Z.of_nat k * step + step) with (step * (Z.of_nat k + 1)) in * by lia.
  apply Z.mul_le_mono_nonneg_l; [lia|]. apply Z.div_le_lower_bound; lia.
Qed.

Lemma ramp_value_stores (x v : Z) : value x = Some v -> stores v.
Proof.
  intros (a & Ha & Hv)%bind_Some. unfold scale_sample in Hv. destruct (above_max _).
  { injection Hv as <-. destruct (rd_decode C _ _ _ Ha) as [bs ->]. apply decode_stores. }
  destruct (below_min _); [|by eapply scale_stores].
  injection Hv as <-. rewrite <- decode_zeros. apply decode_stores.
Qed.

Lemma ramp_step (i : Z) (s : spec_float) (m1 : list Z) :
  ramp_inv (i, s, m1) -> i + step <= count ->
  exists m2, update_samples C step (buffer + i * width) width
      (fun _ v => scale_sample scale v (applied s increment target)) m1 = Some m2 /\
    ramp_inv (i + step, f32_add s increment, m2).
Proof.
  intros (k & Hi & Hle & Hs & Hl & Hdone & Hby) Hroom. pose proof width_pos as Hw.
  pose proof buffer_fits as (Hb & Hc & Hlen).
  pose proof (ramp_whole k) as Hrange. rewrite <- Hi in Hrange. specialize (Hrange Hroom).
  assert (Hfit : forall x, 0 <= x < count -> fits C m1 (buffer + x * width)).
  { intros x Hx. unfold fits. rewrite Hl. nia. }
  set (val x := default 0 (value (i + x))).
  destruct (update_samples_spec C step (buffer + i * width) width
    (fun _ v => scale_sample scale v (applied s increment target)) val m1)
    as (m2 & -> & [Hl2 Hs2 Hb2]).
  - lia.
  - lia.
  - intros x Hx. rewrite <- Z.add_assoc, <- Z.mul_add_distr_r. apply Hfit. lia.
  - intros x Hx. rewrite <- Z.add_assoc, <- Z.mul_add_distr_r.
    destruct (ramp_defined (i + x)) as [v Hv]; [lia|]. unfold val. rewrite Hv. simpl.
    pose proof (ramp_value_stores _ _ Hv) as Hst. apply bind_Some in Hv as (a & Ha & Hv).
    exists a. split; [rewrite <- Ha; apply rd_same; [done|split; nia|intros; apply Hby; right; nia]|].
    split; [|done]. rewrite Hi, Z.div_add_l, Z.div_small, Z.add_0_r, Nat2Z.id in Hv by lia.
    by rewrite Hs.
  - exists m2. split; [done|]. exists (S k). split_and!; [lia|lia|by rewrite Hs|lia| |].
    + intros x Hx. destruct (Z.lt_ge_cases x i) as [Hlt|Hge].
      * rewrite <- Hdone by lia. apply rd_same; [done|apply Hfit; lia|].
        intros j Hj. apply Hb2. intros z Hz. left. nia.
      * destruct (ramp_defined x) as [v Hv]; [lia|].
        replace (buffer + x * width) with (buffer + i * width + (x - i) * width) by lia.
        rewrite Hs2 by lia. unfold val. replace (i + (x - i)) with x by lia. by rewrite Hv.
    + intros j Hj. rewrite <- Hby by (destruct Hj; [by left|right; nia]).
      apply Hb2. intros z Hz. destruct Hj; [left; nia|right; nia].
Qed.

Lemma scale_inc_loop_spec :
  exists k s m', scale_inc_loop C scale (S (Z.to_nat count)) buffer count increment target step
      (0, scaler, m) = Some (k, s, m') /\ k = step * (count / step) /\ ramp_inv (k, s, m').
Proof.
  pose proof buffer_fits as (Hb & Hc & Hlen).
  destruct (cwhile_spec (fun '(i, _, _) => u32 (i + step) <=? count)
    (fun '(i, scaler, m) =>
       m ← update_samples C step (buffer + i * width) width
             (fun _ v => scale_sample scale v (applied scaler increment target)) m;
       Some (i + Z.max step 0, f32_add scaler increment, m))
    ramp_inv (fun '(i, _, _) => Z.to_nat (count - i))) with (fuel := S (Z.to_nat count))
    (s := (0, scaler, m)) as ([[i s] m'] & Hrun & Hinv & Hend).
  - intros [[i s] m1] Hinv Hcond. pose proof Hinv as (k & Hi & Hle & _).
    rewrite u32_small in Hcond by nia. apply Z.leb_le in Hcond.
    destruct (ramp_step i s m1 Hinv Hcond) as (m2 & -> & Hinv2). simpl.
    rewrite Z.max_l by lia. eexists. split; [done|]. split; [done|lia].
  - exists 0%nat. split_and!; try done; lia.
  - lia.
  - pose proof Hinv as (k & Hi & Hle & _). rewrite u32_small in Hend by nia.
    apply Z.leb_gt in Hend. exists i, s, m'. split; [exact Hrun|]. split; [|done].
    subst i. rewrite Z.mul_comm. f_equal. apply Z.div_unique with (count - Z.of_nat k * step); lia.
Qed.
End Ramp.

(** The scaling of each format. *)
Inductive scale_format {P : pcm_library} (fmt : Z) : Codec -> (Z -> spec_float -> option Z) -> Prop :=
| ScaleS16 : fmt = SND_PCM_FORMAT_S16_LE -> scale_format fmt codec_s16 mul_s16
| ScaleS24 : fmt = SND_PCM_FORMAT_S24_LE -> scale_format fmt codec_s32 scale_s24_le
| ScaleS32 : fmt = SND_PCM_FORMAT_S32_LE -> scale_format fmt codec_s32 mul_s32
| ScaleS243 : fmt = SND_PCM_FORMAT_S24_3LE -> scale_format fmt codec_s243 mul_s32.

Lemma scale_format_stores {P : pcm_library} (fmt : Z) (C : Codec) scale v s w :
  scale_format fmt C scale -> scale v s = Some w -> stores w.
Proof.
  intros Hf. destruct Hf; simpl; intros Hw; try by eapply f32_to_s32_range.
  - by eapply f32_to_s16_range.
  - apply scale_s24_range in Hw. unfold is_s32. lia.
Qed.

(** A volume ramp ends, scales every whole frame of the buffer by the
    scaler of the frame, which moves by [increment] from one frame to the next
    and never passes [target], and touches nothing else; a ramp down from
    silence clears the buffer. *)
Theorem ramp_scales_frames {P : pcm_library} (fmt : Z) (C : Codec) scale (m : list Z)
    (buffer frames channels : Z) (scaler increment target : spec_float) :
  pcm_documented P -> scale_format fmt C scale -> 0 < channels < 2147483648 -> 0 <= frames ->
  frames * channels < 2147483648 -> samples_fit C m buffer (frames * channels) ->
  (forall i, 0 <= i < frames * channels ->
     is_Some (ramp_value C scale m buffer channels scaler increment target i)) ->
  (exists m', cras_scale_buffer_increment fmt m buffer frames scaler increment target channels = Some m' /\
    length m' = length m /\
    (forall i, 0 <= i < frames * channels -> rd C m' (buffer + i * width) =
       if below_min scaler && SFltb increment float_zero then Some 0
       else norm <$> ramp_value C scale m buffer channels scaler increment target i) /\
    (forall j : nat, Z.of_nat j < buffer \/ buffer + frames * channels * width <= Z.of_nat j ->
       m' !! j = m !! j)) /\
  (forall s, SFltb float_zero increment = true -> SFltb target target = false ->
     SFltb target (applied s increment target) = false).
Proof.
  intros HP Hf Hch Hfr Hsmall Hfit Hdef. split.
  2:{ intros s Hinc Htt. unfold applied. rewrite Hinc, andb_true_r.
      destruct (SFltb target s) eqn:Hts; simpl; [done|]. by destruct (_ && _). }
  assert (Hrun : exists m', scale_buffer_inc C scale m buffer (frames * channels) scaler increment target
      channels = Some m' /\ length m' = length m /\
    (forall i, 0 <= i < frames * channels -> rd C m' (buffer + i * width) =
       if below_min scaler && SFltb increment float_zero then Some 0
       else norm <$> ramp_value C scale m buffer channels scaler increment target i) /\
    (forall j : nat, Z.of_nat j < buffer \/ buffer + frames * channels * width <= Z.of_nat j ->
       m' !! j = m !! j)).
  { unfold scale_buffer_inc. destruct (_ && _); [by apply memset0_samples|].
    assert (Hq : channels * (frames * channels / channels) = frames * channels)
      by (rewrite Z.div_mul by lia; lia).
    destruct (scale_inc_loop_spec C scale m buffer (frames * channels) scaler increment target channels)
      as (k & s & m' & -> & Hk & (n & _ & _ & _ & Hl & Hs & Hb)); [done|lia|done| | |].
    { intros v s w. by apply (scale_format_stores fmt). }
    { by rewrite Hq. }
    rewrite Hk, Hq in *. exists m'. split_and!; done. }
  pose proof s24_3_other as Hne. unfold cras_scale_buffer_increment.
  rewrite u32_small by nia. unfold scale_buffer_increment.
  destruct Hf as [-> | -> | -> | ->]; [exact Hrun..|].
  rewrite !not_elem_of_cons in Hne. destruct Hne as (_ & H16 & H24 & H32 & _).
  rewrite !(proj2 (Z.eqb_neq _ _)) by done. rewrite Z.eqb_refl. exact Hrun.
Qed.

Lemma ramp_scales_frames_witness :
  exists m', cras_scale_buffer_increment (P := alsa_example) SND_PCM_FORMAT_S16_LE
      (bytes_of codec_s16 [1000; -1000; 1000; -1000]) 0 2 half half float_one 2 = Some m' /\
    rd codec_s16 m' 0 = Some 500 /\ rd codec_s16 m' 6 = Some (-1000).
Proof.
  destruct (ramp_scales_frames (P := alsa_example) SND_PCM_FORMAT_S16_LE codec_s16 mul_s16
    (bytes_of codec_s16 [1000; -1000; 1000; -1000]) 0 2 2 half half float_one)
    as ((m' & Hm & _ & Hs & _) & _).
  - apply alsa_example_documented.
  - by constructor.
  - lia.
  - lia.
  - lia.
  - unfold samples_fit; simpl; lia.
  - intros i Hi. assert (i = 0 \/ i = 1 \/ i = 2 \/ i = 3) as [->|[->|[->| ->]]] by lia;
      vm_compute; by eexists.
  - exists m'. split; [exact Hm|]. split; [apply (Hs 0); lia|apply (Hs 3); lia].
Defined.
