(* ===== verification/Ramp.v ===== *)
(** * Volume ramps (server/cras_ramp.c and .h)

    A ramp moves the scaler of a device's output from one value to another
    over a number of frames.  The function to call at its end is an argument
    type: an operation that ends the ramp returns the call to make, which is
    the last thing the operation does.  Overflow of the counts, [int]s, is
    undefined: [None]. *)
From S2P Require Import Prelude Float32 Rounding Mix.
#[local] Open Scope Z_scope.

Inductive CRAS_RAMP_ACTION_TYPE : Type :=
| CRAS_RAMP_ACTION_NONE
| CRAS_RAMP_ACTION_PARTIAL
| CRAS_RAMP_ACTION_INVALID.

#[export] Instance ramp_action_type_eq_dec : EqDecision CRAS_RAMP_ACTION_TYPE.
Proof. solve_decision. Defined.

Record cras_ramp_action : Type := RampAction {
  ra_type : CRAS_RAMP_ACTION_TYPE;
  ra_scaler : spec_float;
  ra_increment : spec_float;
  ra_target : spec_float
}.

Section Ramps.
Context {CB : Type}.

(** [rp_cb] is [cb] with its [cb_data]; [None] is [NULL]. *)
Record cras_ramp : Type := Ramp {
  rp_active : bool;
  rp_ramped_frames : Z;
  rp_duration_frames : Z;
  rp_increment : spec_float;
  rp_start_scaler : spec_float;
  rp_target : spec_float;
  rp_cb : option CB
}.

(** The call and its data stay what they were. *)
Definition cras_ramp_reset (ramp : cras_ramp) : Z * cras_ramp :=
  (0, Ramp false 0 0 float_zero float_one float_one (rp_cb ramp)).

(** [malloc] gave [fresh], or nothing. *)
Definition cras_ramp_create (fresh : option cras_ramp) : option cras_ramp :=
  ramp ← fresh; Some (snd (cras_ramp_reset ramp)).

Definition cras_ramp_get_current_action (ramp : cras_ramp) : cras_ramp_action :=
  if rp_ramped_frames ramp <? 0 then RampAction CRAS_RAMP_ACTION_INVALID float_one float_zero float_one
  else if rp_active ramp then
    RampAction CRAS_RAMP_ACTION_PARTIAL
      (f32_add (rp_start_scaler ramp) (f32_mul (f32_of_Z (rp_ramped_frames ramp)) (rp_increment ramp)))
      (rp_increment ramp) (rp_target ramp)
  else RampAction CRAS_RAMP_ACTION_NONE float_one float_zero float_one.

Definition cras_ramp_start (ramp : option cras_ramp) (mute_ramp : bool) (from to : spec_float)
    (duration_frames : Z) (cb : option CB) : Z * option cras_ramp :=
  match ramp with
  | None => (- EINVAL, None)
  | Some r =>
      if SFeqb from to && negb (SFeqb from float_zero) then (0, Some r) else
      let action := cras_ramp_get_current_action r in
      match ra_type action with
      | CRAS_RAMP_ACTION_INVALID => (- EINVAL, Some r)
      | t =>
          let start :=
            match t with
            | CRAS_RAMP_ACTION_NONE => from
            | _ => if mute_ramp then ra_scaler action else f32_mul (ra_scaler action) from
            end in
          (0, Some {| rp_active := true; rp_ramped_frames := 0; rp_duration_frames := duration_frames;
                      rp_increment := f32_div (f32_sub to start) (f32_of_Z duration_frames);
                      rp_start_scaler := start; rp_target := to; rp_cb := cb |})
      end
  end.

Definition cras_mute_ramp_start (ramp : option cras_ramp) := cras_ramp_start ramp true.
Definition cras_volume_ramp_start (ramp : option cras_ramp) := cras_ramp_start ramp false.

(** The result, the ramp and the call to make. *)
Definition cras_ramp_update_ramped_frames (ramp : cras_ramp) (num_frames : Z)
  : option (Z * cras_ramp * option CB) :=
  if negb (rp_active ramp) then Some (- EINVAL, ramp, None) else
  n ← add_int (rp_ramped_frames ramp) num_frames;
  let over := rp_duration_frames ramp <=? n in
  Some (0, Ramp (negb over) n (rp_duration_frames ramp) (rp_increment ramp) (rp_start_scaler ramp)
             (rp_target ramp) (rp_cb ramp),
        if over then rp_cb ramp else None).

(** ** What a ramp does *)

(** Successive updates, and the calls they make. *)
Fixpoint updates (ramp : cras_ramp) (ns : list Z) : option (cras_ramp * list CB) :=
  match ns with
  | [] => Some (ramp, [])
  | n :: ns =>
      '(_, ramp, c) ← cras_ramp_update_ramped_frames ramp n;
      '(ramp, cs) ← updates ramp ns;
      Some (ramp, option_list c ++ cs)
  end.

Definition total (ns : list Z) : Z := foldr Z.add 0 ns.

Lemma total_app ns ms : total (ns ++ ms) = total ns + total ms.
Proof. induction ns as [|n ns IH]; simpl; [done|]. rewrite IH. lia. Qed.

Lemma total_nonneg ns : Forall (fun n => 0 <= n) ns -> 0 <= total ns.
Proof. induction 1; simpl; lia. Qed.

Lemma inactive_updates (ramp : cras_ramp) (ns : list Z) :
  rp_active ramp = false -> updates ramp ns = Some (ramp, []).
Proof.
  intros Ha. induction ns as [|n ns IH]; simpl; [done|].
  unfold cras_ramp_update_ramped_frames. rewrite Ha. simpl. by rewrite IH.
Qed.

Lemma update_spec (ramp : cras_ramp) (n : Z) :
  rp_active ramp = true -> 0 <= rp_ramped_frames ramp -> 0 <= n ->
  rp_ramped_frames ramp + n < 2147483648 ->
  exists ramp', cras_ramp_update_ramped_frames ramp n =
    Some (0, ramp', if rp_active ramp' then None else rp_cb ramp) /\
  rp_ramped_frames ramp' = rp_ramped_frames ramp + n /\
  rp_active ramp' = (rp_ramped_frames ramp + n <? rp_duration_frames ramp) /\
  rp_duration_frames ramp' = rp_duration_frames ramp /\ rp_cb ramp' = rp_cb ramp /\
  rp_start_scaler ramp' = rp_start_scaler ramp /\ rp_increment ramp' = rp_increment ramp.
Proof.
  intros Ha Hr Hn Hs. unfold cras_ramp_update_ramped_frames, add_int. rewrite Ha. simpl.
  rewrite (proj2 (Z.leb_le _ _)), (proj2 (Z.leb_le _ _)) by lia.
  simpl. exists (Ramp (negb (rp_duration_frames ramp <=? rp_ramped_frames ramp + n))
    (rp_ramped_frames ramp + n) (rp_duration_frames ramp) (rp_increment ramp) (rp_start_scaler ramp)
    (rp_target ramp) (rp_cb ramp)).
  split; [simpl; by destruct (_ <=? _)|]. split; [done|]. split; [|done]. simpl. destruct (Z.leb_spec (rp_duration_frames ramp) (rp_ramped_frames ramp + n));
    simpl; symmetry; [apply Z.ltb_ge|apply Z.ltb_lt]; lia.
Qed.

(** While the updates stay below the duration the ramp goes on and makes no
    call. *)
Lemma updates_below (ns : list Z) (ramp : cras_ramp) :
  rp_active ramp = true -> 0 <= rp_ramped_frames ramp -> Forall (fun n => 0 <= n) ns ->
  rp_ramped_frames ramp + total ns < rp_duration_frames ramp <= 2147483647 ->
  exists ramp', updates ramp ns = Some (ramp', []) /\ rp_active ramp' = true /\
    rp_ramped_frames ramp' = rp_ramped_frames ramp + total ns /\
    rp_duration_frames ramp' = rp_duration_frames ramp /\ rp_cb ramp' = rp_cb ramp /\
    rp_start_scaler ramp' = rp_start_scaler ramp /\ rp_increment ramp' = rp_increment ramp.
Proof.
  revert ramp. induction ns as [|n ns IH]; intros ramp Ha Hr Hns Hlt; simpl in *.
  { exists ramp. split_and!; try done. lia. }
  apply Forall_cons in Hns as [Hn Hns]. pose proof (total_nonneg _ Hns).
  destruct (update_spec ramp n) as (r1 & -> & Hr1 & Ha1 & Hd1 & Hc1 & Hs1 & Hi1); [done|lia..|].
  rewrite (proj2 (Z.ltb_lt _ _)) in Ha1 by lia. rewrite Ha1. simpl.
  destruct (IH r1) as (r2 & -> & H2 & Hr2 & Hd2 & Hc2 & Hs2 & Hi2); [done|lia|done|lia|].
  exists r2. simpl. split_and!; try congruence. lia.
Qed.

Lemma action_NONE (ramp : cras_ramp) :
  rp_active ramp = false -> 0 <= rp_ramped_frames ramp ->
  cras_ramp_get_current_action ramp = RampAction CRAS_RAMP_ACTION_NONE float_one float_zero float_one.
Proof.
  intros Ha Hr. unfold cras_ramp_get_current_action.
  by rewrite (proj2 (Z.ltb_ge _ _)), Ha by lia.
Qed.

Lemma action_PARTIAL (ramp : cras_ramp) :
  rp_active ramp = true -> 0 <= rp_ramped_frames ramp ->
  ra_type (cras_ramp_get_current_action ramp) = CRAS_RAMP_ACTION_PARTIAL.
Proof.
  intros Ha Hr. unfold cras_ramp_get_current_action.
  by rewrite (proj2 (Z.ltb_ge _ _)), Ha by lia.
Qed.

(** Adding no increments changes nothing. *)
Lemma no_increments (s i : spec_float) :
  is_fin s = true -> is_fin i = true -> fval (f32_add s (f32_mul (f32_of_Z 0) i)) = fval s.
Proof.
  intros Hs Hi. destruct i as [si| | |si mi ei]; try done.
  all: destruct s as [ss| | |ss ms es]; try done; by destruct ss, si.
Qed.

End Ramps.
#[global] Arguments cras_ramp : clear implicits.

(** A ramp up over 100 frames, interrupted halfway by a ramp to silence. *)
Definition half_way : cras_ramp nat :=
  match updates (default (Ramp false 0 0 float_zero float_one float_one None)
      (snd (cras_mute_ramp_start (Some (Ramp false 0 0 float_zero float_one float_one None))
              float_zero float_one 128 None))) [32; 32] with
  | Some (r, _) => r
  | None => Ramp false 0 0 float_zero float_one float_one None
  end.

