(* ===== verification/AudioArea.v ===== *)
(** * Audio areas (server/cras_audio_area.c and .h)

    An area describes a window of interleaved samples: for every channel its
    first sample, the distance between its samples, and which of the channels
    of [enum CRAS_CHANNEL] it carries.  Buffer pointers are offsets. *)
From S2P Require Import Prelude Arrays Float32 AudioFormat Mix.
#[local] Open Scope Z_scope.

Record cras_channel_area : Type := ChannelArea { ch_set : Z; step_bytes : Z; buf : Z }.

Record cras_audio_area : Type := AudioArea {
  frames : Z;
  area_channels : Z;
  channels : list cras_channel_area
}.

Definition channel_area_set_channel (ca : cras_channel_area) (channel : Z) : cras_channel_area :=
  ChannelArea (Z.lor (ch_set ca) (Z.shiftl 1 channel)) (step_bytes ca) (buf ca).

Definition cras_audio_area_create (n : Z) : cras_audio_area :=
  AudioArea 0 (u32 n) (replicate (Z.to_nat n) (ChannelArea 0 0 0)).

(** A mono area stands for both front channels; otherwise position [i] of the
    layout is area channel [i].  [None] is an access past the channels. *)
Definition config_channel (fmt : cras_audio_format) (i : Z) (ca : cras_channel_area)
  : cras_channel_area :=
  foldl (fun ca ch => if u32 (layout_pos fmt ch) =? i then channel_area_set_channel ca ch else ca)
        (ChannelArea 0 (step_bytes ca) (buf ca)) CHANNELS.

Definition cras_audio_area_config_channels (area : cras_audio_area) (fmt : cras_audio_format)
  : option cras_audio_area :=
  chs ←
    (if (num_channels fmt =? 1) &&
        ((layout_pos fmt CRAS_CH_FC =? 0) || (layout_pos fmt CRAS_CH_FL =? 0))
     then
       ca ← ld (channels area) 0;
       let ca := channel_area_set_channel ca CRAS_CH_FL in
       let ca := channel_area_set_channel ca CRAS_CH_FR in
       st (channels area) 0 ca
     else
       for_n (num_channels fmt) (fun i chs =>
         ca ← ld chs i; st chs i (config_channel fmt i ca)) (channels area));
  Some (AudioArea (frames area) (area_channels area) chs).

Definition cras_audio_area_config_buf_pointers {P : pcm_library} (area : cras_audio_area)
    (fmt : cras_audio_format) (base_buffer : Z) : option cras_audio_area :=
  let sample_size := Z.quot (snd_pcm_format_physical_width (format fmt)) 8 in
  chs ← for_n (area_channels area) (fun i chs =>
    ca ← ld chs i;
    st chs i (ChannelArea (ch_set ca) (u32 (cras_get_format_bytes fmt))
                          (base_buffer + i * sample_size))) (channels area);
  Some (AudioArea (frames area) (area_channels area) chs).

(** The channels of the two areas lie in the memories [dm] and [sm]. *)
Definition copy_channel {P : pcm_library} (fmt ncopy dst_offset src_offset : Z)
    (scaler : spec_float) (sm : list Z) (sc dc : cras_channel_area) (dm : list Z)
  : option (list Z) :=
  if Z.land (ch_set sc) (ch_set dc) =? 0 then Some dm else
  let schan := buf sc + u32 (src_offset * step_bytes sc) in
  let dchan := buf dc + u32 (dst_offset * step_bytes dc) in
  mix_add_scale_stride fmt dm dchan sm schan ncopy (step_bytes dc) (step_bytes sc) scaler.

Definition cras_audio_area_copy {P : pcm_library} (dst : cras_audio_area) (dst_offset : Z)
    (dst_fmt : cras_audio_format) (src : cras_audio_area) (src_offset : Z) (scaler : spec_float)
    (dm sm : list Z) : option (Z * list Z) :=
  let ncopy := cmin (u32 (frames src - src_offset)) (u32 (frames dst - dst_offset)) in
  dm ← for_n (area_channels src) (fun src_idx dm =>
    for_n (area_channels dst) (fun dst_idx dm =>
      sc ← ld (channels src) src_idx;
      dc ← ld (channels dst) dst_idx;
      copy_channel (format dst_fmt) ncopy dst_offset src_offset scaler sm sc dc dm) dm) dm;
  Some (ncopy, dm).

(** ** The areas are in range *)

(** An area with room for the channels of a format. *)
Definition area_ok (area : cras_audio_area) : Prop :=
  area_channels area = Z.of_nat (length (channels area)).

Lemma cras_audio_area_create_ok (n : Z) :
  0 <= n < 4294967296 -> area_ok (cras_audio_area_create n).
Proof.
  intros Hn. unfold area_ok, cras_audio_area_create. simpl.
  rewrite u32_small, length_replicate by lia. lia.
Qed.

(** A loop that rewrites one element per pass is defined on a long enough array. *)
Lemma for_update_length {A} (n : nat) (f : Z -> A -> A) (l : list A) :
  (n <= length l)%nat ->
  exists l', for_loop n 0 (fun i l => x ← ld l i; st l i (f i x)) l = Some l' /\
    length l' = length l /\
    forall j x, l !! j = Some x ->
      l' !! j = Some (if (j <? n)%nat then f (Z.of_nat j) x else x).
Proof.
  intros Hn.
  destruct (for_loop_inv (fun i l' => length l' = length l /\
      forall j x, l !! j = Some x -> l' !! j = Some (if (j <? i)%nat then f (Z.of_nat j) x else x))
    n 0 (fun i l => x ← ld l i; st l i (f i x)) l) as (l' & Hl' & Hlen & Hlk).
  - split; [done|]. intros j x Hx. by destruct (Nat.ltb_spec j 0); [lia|].
  - intros i m Hi [Hlen Hlk]. destruct (lookup_lt_is_Some_2 l i) as [x Hx]; [lia|].
    pose proof (Hlk i x Hx) as Hm. rewrite (proj2 (Nat.ltb_ge i i)) in Hm by lia.
    rewrite (ld_Some m i x Hm). simpl. rewrite st_Some by lia. eexists. split; [done|].
    rewrite Nat2Z.id. split; [by rewrite length_insert|]. intros j y Hy.
    destruct (decide (i = j)) as [->|Hne].
    + rewrite list_lookup_insert_eq by lia. assert (x = y) as -> by congruence.
      by rewrite (proj2 (Nat.ltb_lt j (S j))) by lia.
    + rewrite list_lookup_insert_ne by done. rewrite (Hlk j y Hy). do 2 f_equal.
      destruct (Nat.ltb_spec j i), (Nat.ltb_spec j (S i)); lia || done.
  - exists l'. done.
Qed.

Lemma config_channels_ok (area : cras_audio_area) (fmt : cras_audio_format) :
  area_ok area -> 0 <= num_channels fmt <= area_channels area ->
  exists area', cras_audio_area_config_channels area fmt = Some area' /\
    area_ok area' /\ frames area' = frames area /\ area_channels area' = area_channels area.
Proof.
  intros Ha Hn. unfold area_ok in *. unfold cras_audio_area_config_channels.
  destruct (_ && _) eqn:Hmono.
  - assert (Hc : num_channels fmt = 1) by lia.
    rewrite Hc in Hn. destruct (channels area) as [|ca cs] eqn:Hch; [simpl in *; lia|].
    simpl. eexists. split; [done|]. simpl. done.
  - destruct (for_update_length (Z.to_nat (num_channels fmt)) (config_channel fmt) (channels area))
      as (l & Hl & Hlen & _); [lia|].
    unfold for_n. rewrite Hl. simpl. eexists. split; [done|]. simpl. by rewrite Hlen.
Qed.

Lemma config_buf_pointers_ok {P : pcm_library} (area : cras_audio_area) (fmt : cras_audio_format)
    (base : Z) :
  area_ok area ->
  exists area', cras_audio_area_config_buf_pointers area fmt base = Some area' /\
    area_ok area' /\ frames area' = frames area /\ area_channels area' = area_channels area /\
    forall i ca, channels area !! i = Some ca -> channels area' !! i =
      Some (ChannelArea (ch_set ca) (u32 (cras_get_format_bytes fmt))
              (base + Z.of_nat i * Z.quot (snd_pcm_format_physical_width (format fmt)) 8)).
Proof.
  intros Ha. unfold area_ok in *. unfold cras_audio_area_config_buf_pointers, for_n.
  destruct (for_update_length (Z.to_nat (area_channels area))
    (fun i ca => ChannelArea (ch_set ca) (u32 (cras_get_format_bytes fmt))
       (base + i * Z.quot (snd_pcm_format_physical_width (format fmt)) 8)) (channels area))
    as (l & Hl & Hlen & Hlk); [lia|].
  rewrite Hl. simpl. eexists. split; [done|]. simpl. split_and!; [by rewrite Hlen|done|done|].
  intros i ca Hca. rewrite (Hlk i ca Hca). apply lookup_lt_Some in Hca.
  by rewrite (proj2 (Nat.ltb_lt _ _)) by lia.
Qed.

(** ** Copying between areas *)

(** The sample of a channel in frame [i] of a copy that starts at frame [off]. *)
Definition sample_at (ca : cras_channel_area) (off i : Z) : Z :=
  buf ca + u32 (off * step_bytes ca) + i * step_bytes ca.

Definition carries (sc dc : cras_channel_area) : bool := negb (Z.land (ch_set sc) (ch_set dc) =? 0).

(** What the 16 bit samples of destination channel [dc] become: each source
    channel it shares a position with is added and clipped, in order. *)
Definition copied (sm : list Z) (src : list cras_channel_area) (src_offset i : Z)
    (dc : cras_channel_area) (a : Z) : Z :=
  foldl (fun a sc => if carries sc dc
                     then clip_s16 (a + default 0 (rd codec_s16 sm (sample_at sc src_offset i)))
                     else a) a src.

Section Copy.
Context {P : pcm_library} (HP : pcm_documented P).
Context (dst src : cras_audio_area) (dst_offset src_offset n : Z) (scaler : spec_float).
Context (dm0 sm : list Z).
Hypothesis unity : need_to_scale scaler = false.
Hypothesis n_pos : 0 <= n.

Definition row_fits (m : list Z) (off : Z) (ca : cras_channel_area) : Prop :=
  forall i, 0 <= i < n -> fits codec_s16 m (sample_at ca off i).

Hypothesis dst_fits : Forall (fun dc => 2 <= step_bytes dc /\ row_fits dm0 dst_offset dc) (channels dst).
Hypothesis src_fits : Forall (row_fits sm src_offset) (channels src).
Hypothesis dst_apart : forall d d' dc dc' i i', channels dst !! d = Some dc ->
  channels dst !! d' = Some dc' -> d <> d' -> 0 <= i < n -> 0 <= i' < n ->
  sample_at dc dst_offset i + 2 <= sample_at dc' dst_offset i' \/
  sample_at dc' dst_offset i' + 2 <= sample_at dc dst_offset i.

(** The samples of the destination channels, and nothing else changed. *)
Definition dst_view (v : nat -> Z -> Z) (dm : list Z) : Prop :=
  length dm = length dm0 /\
  (forall d dc i, channels dst !! d = Some dc -> 0 <= i < n ->
     rd codec_s16 dm (sample_at dc dst_offset i) = Some (v d i)) /\
  (forall j : nat, (forall d dc i, channels dst !! d = Some dc -> 0 <= i < n ->
     Z.of_nat j < sample_at dc dst_offset i \/ sample_at dc dst_offset i + 2 <= Z.of_nat j) ->
   dm !! j = dm0 !! j).

Definition row (sc : cras_channel_area) (v : nat -> Z -> Z) (d : nat) (i : Z) : Z :=
  match channels dst !! d with
  | Some dc => if carries sc dc
               then clip_s16 (v d i + default 0 (rd codec_s16 sm (sample_at sc src_offset i)))
               else v d i
  | None => v d i
  end.

Lemma dst_view_ext (v w : nat -> Z -> Z) (dm : list Z) :
  (forall d i, v d i = w d i) -> dst_view v dm -> dst_view w dm.
Proof. intros Hvw (Hl & Hv & Hb). split_and!; [done| |done]. intros. rewrite <- Hvw. eauto. Qed.

Lemma copy_channel_view (v : nat -> Z -> Z) (dm : list Z) (sc dc : cras_channel_area) (k : nat) :
  dst_view (fun d i => if (d <? k)%nat then row sc v d i else v d i) dm ->
  sc ∈ channels src -> channels dst !! k = Some dc ->
  exists dm', copy_channel SND_PCM_FORMAT_S16_LE n dst_offset src_offset scaler sm sc dc dm = Some dm' /\
    dst_view (fun d i => if (d <? S k)%nat then row sc v d i else v d i) dm'.
Proof.
  intros (Hl & Hv & Hb) Hsc Hdc. rewrite Forall_forall in src_fits. rewrite Forall_lookup in dst_fits.
  destruct (dst_fits k dc Hdc) as [Hstep Hfit]. specialize (src_fits sc Hsc).
  assert (Hdm : stride_fits codec_s16 dm (buf dc + u32 (dst_offset * step_bytes dc)) n (step_bytes dc)).
  { intros i Hi. unfold fits. rewrite Hl. by apply Hfit. }
  unfold copy_channel. fold (carries sc dc). unfold carries in *.
  destruct (Z.eqb_spec (Z.land (ch_set sc) (ch_set dc)) 0) as [Hz|Hz].
  - exists dm. split; [done|]. eapply dst_view_ext; [|exact (conj Hl (conj Hv Hb))].
    intros d i. simpl. destruct (Nat.ltb_spec d k), (Nat.ltb_spec d (S k)); try lia; try done.
    assert (d = k) as -> by lia. unfold row. rewrite Hdc. unfold carries. by rewrite Hz.
  - destruct (mix_add_scale_stride_ok SND_PCM_FORMAT_S16_LE codec_s16 strided_s16 dm
      (buf dc + u32 (dst_offset * step_bytes dc)) sm (buf sc + u32 (src_offset * step_bytes sc)) n
      (step_bytes dc) (step_bytes sc) scaler) as (dm' & -> & Hl' & Hs & Hb').
    { done. } { by constructor. } { done. } { done. } { done. }
    { intros i Hi. unfold strided_value. rewrite (rd_slice _ dm) by (by apply Hdm).
      rewrite (rd_slice _ sm) by (by apply src_fits). unfold strided_s16. rewrite unity. by eexists. }
    exists dm'. split; [done|]. split_and!; [lia| |].
    + intros d dc' i Hd Hi. destruct (decide (d = k)) as [->|Hne].
      * assert (dc' = dc) as -> by congruence. unfold sample_at at 1. rewrite Hs by done.
        unfold strided_value. rewrite (proj2 (Nat.ltb_lt k (S k))) by lia.
        pose proof (Hv k dc i Hdc Hi) as Hvk. rewrite (proj2 (Nat.ltb_ge k k)) in Hvk by lia.
        unfold sample_at in Hvk. rewrite Hvk. unfold row. rewrite Hdc. unfold carries.
        rewrite (proj2 (Z.eqb_neq _ _)) by done. unfold sample_at.
        rewrite (rd_slice _ sm) by (by apply src_fits). simpl. unfold strided_s16. by rewrite unity.
      * rewrite (rd_same codec_s16 dm dm'); [| lia | | ].
        { rewrite (Hv d dc' i Hd Hi). f_equal.
          destruct (Nat.ltb_spec d k), (Nat.ltb_spec d (S k)); try lia; done. }
        { unfold fits. rewrite Hl. by apply (dst_fits d dc' Hd). }
        intros j Hj. apply Hb'. intros i' Hi'.
        destruct (dst_apart d k dc' dc i i' Hd Hdc Hne Hi Hi') as [Ha|Ha];
          unfold sample_at in Ha, Hj; simpl in *; lia.
    + intros j Hj. rewrite <- Hb by done. apply Hb'. intros i Hi. by apply (Hj k dc i).
Qed.

Lemma copy_row_view (v : nat -> Z -> Z) (dm : list Z) (sc : cras_channel_area) :
  area_ok dst -> dst_view v dm -> sc ∈ channels src ->
  exists dm', for_n (area_channels dst) (fun dst_idx dm =>
      dc ← ld (channels dst) dst_idx;
      copy_channel SND_PCM_FORMAT_S16_LE n dst_offset src_offset scaler sm sc dc dm) dm = Some dm' /\
    dst_view (row sc v) dm'.
Proof.
  intros Hok Hv Hsc. unfold for_n. rewrite Hok, Nat2Z.id.
  destruct (for_loop_inv (fun k dm => dst_view (fun d i => if (d <? k)%nat then row sc v d i else v d i) dm)
    (length (channels dst)) 0 (fun dst_idx dm => dc ← ld (channels dst) dst_idx;
      copy_channel SND_PCM_FORMAT_S16_LE n dst_offset src_offset scaler sm sc dc dm) dm)
    as (dm' & Hr & Hv').
  - done.
  - intros k m Hk Hm. destruct (lookup_lt_is_Some_2 (channels dst) k) as [dc Hdc]; [lia|].
    rewrite (ld_Some _ _ _ Hdc). simpl. by apply copy_channel_view.
  - exists dm'. split; [done|]. eapply dst_view_ext; [|exact Hv']. intros d i. simpl.
    destruct (Nat.ltb_spec d (length (channels dst))); [done|].
    unfold row. by rewrite lookup_ge_None_2 by done.
Qed.

Lemma copy_rows_view (v : nat -> Z -> Z) :
  area_ok dst -> area_ok src -> dst_view v dm0 ->
  exists dm', for_n (area_channels src) (fun src_idx dm =>
      for_n (area_channels dst) (fun dst_idx dm =>
        sc ← ld (channels src) src_idx; dc ← ld (channels dst) dst_idx;
        copy_channel SND_PCM_FORMAT_S16_LE n dst_offset src_offset scaler sm sc dc dm) dm) dm0
      = Some dm' /\
    dst_view (fun d i => match channels dst !! d with
                         | Some dc => copied sm (channels src) src_offset i dc (v d i)
                         | None => v d i end) dm'.
Proof.
  intros Hd Hs Hv. unfold for_n at 1. rewrite Hs, Nat2Z.id.
  destruct (for_loop_inv (fun k dm => dst_view (fun d i => match channels dst !! d with
      | Some dc => copied sm (take k (channels src)) src_offset i dc (v d i)
      | None => v d i end) dm) (length (channels src)) 0 (fun src_idx dm =>
      for_n (area_channels dst) (fun dst_idx dm =>
        sc ← ld (channels src) src_idx; dc ← ld (channels dst) dst_idx;
        copy_channel SND_PCM_FORMAT_S16_LE n dst_offset src_offset scaler sm sc dc dm) dm) dm0)
    as (dm' & Hr & Hv').
  - eapply dst_view_ext; [|exact Hv]. intros d i. by destruct (channels dst !! d).
  - intros k m Hk Hm. destruct (lookup_lt_is_Some_2 (channels src) k) as [sc Hsc]; [lia|].
    destruct (copy_row_view _ m sc Hd Hm) as (m' & Hm' & Hv'); [by eapply list_elem_of_lookup_2|].
    exists m'. split.
    { rewrite <- Hm'. unfold for_n. apply for_loop_ext. intros i t _.
      by rewrite (ld_Some _ _ _ Hsc). }
    eapply dst_view_ext; [|exact Hv']. intros d i. unfold row.
    destruct (channels dst !! d) as [dc|]; [|done]. unfold copied.
    by rewrite (take_S_r _ _ _ Hsc), foldl_app.
  - exists dm'. split; [done|]. rewrite Nat.add_0_l, firstn_all in Hv'. done.
Qed.
End Copy.


