(* ===== verification/LinearResampler.v ===== *)
(** * The linear resampler (server/linear_resampler.c)

    Interpolates between neighbouring frames to follow a device whose clock is
    a little off.  Offsets accumulate over the calls, reduced by whole periods
    of a hundred seconds.  Positions are [float]s; converting one to an
    unsigned index is undefined when it does not fit, as is storing a sample
    out of the range of [int16_t]. *)
From S2P Require Import Prelude Arrays Float32 Rounding AudioFormat Mix.
#[local] Open Scope Z_scope.

Record linear_resampler : Type := LinearResampler {
  lr_num_channels : Z;
  lr_format_bytes : Z;
  lr_src_offset : Z;
  lr_dst_offset : Z;
  lr_to_times_100 : Z;
  lr_from_times_100 : Z;
  lr_f : spec_float
}.

Definition set_offsets (src dst : Z) (lr : linear_resampler) : linear_resampler :=
  {| lr_num_channels := lr_num_channels lr; lr_format_bytes := lr_format_bytes lr;
     lr_src_offset := src; lr_dst_offset := dst; lr_to_times_100 := lr_to_times_100 lr;
     lr_from_times_100 := lr_from_times_100 lr; lr_f := lr_f lr |}.

Definition linear_resampler_set_rates (lr : linear_resampler) (from to : spec_float)
  : option linear_resampler :=
  to100 ← f32_to_u32 (f32_mul to (f32_of_Z 100));
  from100 ← f32_to_u32 (f32_mul from (f32_of_Z 100));
  Some {| lr_num_channels := lr_num_channels lr; lr_format_bytes := lr_format_bytes lr;
          lr_src_offset := 0; lr_dst_offset := 0; lr_to_times_100 := to100;
          lr_from_times_100 := from100; lr_f := f32_div to from |}.

(** The inner [None] is [NULL]. *)
Definition linear_resampler_create (calloc_ok : bool) (num_channels format_bytes : Z)
    (src_rate dst_rate : spec_float) : option (option linear_resampler) :=
  if calloc_ok
  then Some <$> linear_resampler_set_rates
         (LinearResampler num_channels format_bytes 0 0 0 0 float_zero) src_rate dst_rate
  else Some None.

Definition linear_resampler_out_frames_to_in (lr : linear_resampler) (frames : Z) : option Z :=
  if frames =? 0 then Some 0 else
  let in_frames := f32_div (f32_of_Z (u32 (lr_dst_offset lr + frames))) (lr_f lr) in
  if SFltb (f32_of_Z (lr_src_offset lr)) in_frames
  then n ← f32_to_u32 (f32_sub in_frames (f32_of_Z (lr_src_offset lr))); Some (u32 (1 + n))
  else Some 1.

Definition linear_resampler_in_frames_to_out (lr : linear_resampler) (frames : Z) : option Z :=
  if frames =? 0 then Some 0 else
  let out_frames := f32_mul (lr_f lr) (f32_of_Z (u32 (lr_src_offset lr + frames - 1))) in
  if SFltb (f32_of_Z (lr_dst_offset lr)) out_frames
  then n ← f32_to_u32 (f32_sub out_frames (f32_of_Z (lr_dst_offset lr))); Some (u32 (1 + n))
  else Some 1.

Definition linear_resampler_needed (lr : linear_resampler) : bool :=
  negb (lr_from_times_100 lr =? lr_to_times_100 lr).

(** [src_pos] for the output frame [dst_idx]. *)
Definition src_pos (lr : linear_resampler) (dst_idx : Z) : spec_float :=
  let p := f32_div (f32_of_Z (u32 (lr_dst_offset lr + dst_idx))) (lr_f lr) in
  if SFltb (f32_of_Z (lr_src_offset lr)) p then f32_sub p (f32_of_Z (lr_src_offset lr))
  else float_zero.

(** [in[ch] + (src_pos - src_idx) * (in[num_channels + ch] - in[ch])]. *)
Definition interpolate (pos : spec_float) (src_idx a b : Z) : option Z :=
  f32_to_s16 (f32_add (f32_of_Z a) (f32_mul (f32_sub pos (f32_of_Z src_idx)) (f32_of_Z (b - a)))).

(** One output frame. *)
Definition resample_frame (lr : linear_resampler) (sm : list Z) (src_frames : Z)
    (pos : spec_float) (src_idx dst_idx : Z) (dm : list Z) : option (list Z) :=
  let inp := u32 (src_idx * lr_format_bytes lr) in
  let out := u32 (dst_idx * lr_format_bytes lr) in
  for_n (lr_num_channels lr) (fun ch dm =>
    a ← rd codec_s16 sm (inp + ch * 2);
    if src_idx =? u32 (src_frames - 1) then wr codec_s16 dm (out + ch * 2) a else
    b ← rd codec_s16 sm (inp + u32 (lr_num_channels lr + ch) * 2);
    v ← interpolate pos src_idx a b;
    wr codec_s16 dm (out + ch * 2) v) dm.

(** The loop over output frames: the state is [src_idx], [dst_idx] and the
    output; it ends with a [break]. *)
Fixpoint resample_loop (fuel : nat) (lr : linear_resampler) (sm : list Z)
    (src_frames dst_frames src_idx dst_idx : Z) (dm : list Z) : option (Z * Z * list Z) :=
  match fuel with
  | O => None
  | S fuel =>
      if negb (dst_idx <=? dst_frames) then Some (src_idx, dst_idx, dm) else
      let pos := src_pos lr dst_idx in
      src_idx ← f32_to_u32 pos;
      let past := SFltb (f32_of_Z (u32 (src_frames - 1))) pos in
      if past || (dst_idx >=? dst_frames)
      then Some (if past then u32 (src_frames - 1) else src_idx, dst_idx, dm)
      else
        dm ← resample_frame lr sm src_frames pos src_idx dst_idx dm;
        resample_loop fuel lr sm src_frames dst_frames src_idx (u32 (dst_idx + 1)) dm
  end.

(** The offsets are reduced together, while both exceed a period. *)
Definition reduce_offsets (lr : linear_resampler) : option linear_resampler :=
  cwhile (fun lr => (lr_src_offset lr >? lr_from_times_100 lr) && (lr_dst_offset lr >? lr_to_times_100 lr))
    (fun lr => Some (set_offsets (u32 (lr_src_offset lr - lr_from_times_100 lr))
                                 (u32 (lr_dst_offset lr - lr_to_times_100 lr)) lr))
    (S (Z.to_nat (lr_src_offset lr + lr_dst_offset lr))) lr.

(** Returns the frames produced, the frames consumed ([*src_frames]), the
    output and the resampler. *)
Definition linear_resampler_resample (lr : linear_resampler) (sm : list Z) (src_frames : Z)
    (dm : list Z) (dst_frames : Z) : option (Z * Z * list Z * linear_resampler) :=
  if (dst_frames =? 0) || (src_frames =? 0) then Some (0, 0, dm, lr) else
  '(src_idx, dst_idx, dm) ←
    resample_loop (S (Z.to_nat dst_frames)) lr sm src_frames dst_frames 0 0 dm;
  let src_frames := u32 (src_idx + 1) in
  lr ← reduce_offsets (set_offsets (u32 (lr_src_offset lr + src_frames))
                                   (u32 (lr_dst_offset lr + dst_idx)) lr);
  Some (dst_idx, src_frames, dm, lr).

(** ** Interpolation stays between the neighbours *)

Lemma pw0_pos : 0 < pw 0.
Proof. by apply pw_pos. Qed.

Lemma big_bound (x : Z) : x < 2 ^ 120 -> x * pw 0 <= pw 127.
Proof.
  intros Hx. change 127 with (0 + 127). rewrite pw_shift by lia. pose proof pw0_pos.
  assert (2 ^ 120 <= 2 ^ 127) by (by apply Z.pow_le_mono_r). nia.
Qed.

Lemma trunc_between (lo x hi : Z) : lo * pw 0 <= x <= hi * pw 0 -> lo <= Z.quot x (pw 0) <= hi.
Proof.
  intros Hx. pose proof pw0_pos. rewrite <- (Z.quot_mul lo (pw 0)) at 1 by lia.
  rewrite <- (Z.quot_mul hi (pw 0)) by lia. split; apply Z.quot_le_mono; lia.
Qed.

Lemma float_one_fval : is_fin float_one = true /\ fval float_one = pw 0.
Proof.
  split; [done|]. unfold float_one. cbn [fval mag]. change 0 with (-23 + 23). rewrite pw_shift by lia.
  by change (2 ^ 23) with 8388608.
Qed.

(** The part of a position after the point. *)
Lemma fraction_range (pos : spec_float) (idx : Z) :
  is_fin pos = true -> 0 <= fval pos -> f32_trunc pos = Some idx -> idx < 16777216 ->
  let frac := f32_sub pos (f32_of_Z idx) in is_fin frac = true /\ 0 <= fval frac <= pw 0.
Proof.
  intros Hf Hp Ht Hi. pose proof pw0_pos as H0.
  rewrite trunc_fval in Ht by done. injection Ht as Ht. rewrite Z.quot_div_nonneg in Ht by lia.
  assert (Hidx : 0 <= idx) by (subst idx; apply Z.div_pos; lia).
  destruct (fval_of_Z idx) as [Hif Hiv]; [unfold f32_exact; lia|].
  destruct float_one_fval as [H1f H1v].
  assert (Hfrac : 0 <= fval pos - idx * pw 0 < pw 0).
  { subst idx. pose proof (Z.div_mod (fval pos) (pw 0) ltac:(lia)).
    pose proof (Z.mod_pos_bound (fval pos) (pw 0) H0). lia. }
  pose proof (big_bound 1 ltac:(done)) as Hbig.
  destruct (sub_rounds pos (f32_of_Z idx) Hf Hif) as [Hff Hfb]; [rewrite Hiv; lia|].
  rewrite Hiv in *. split; [done|].
  destruct (Hfb float_zero eq_refl) as [_ Hf0]. destruct (Hfb float_one H1f) as [Hf1 _].
  change (fval float_zero) with 0 in *. rewrite H1v in *. lia.
Qed.

Lemma product_between (frac : spec_float) (d : Z) :
  is_fin frac = true -> 0 <= fval frac <= pw 0 -> -65536 <= d <= 65536 ->
  let t := f32_mul frac (f32_of_Z d) in
  is_fin t = true /\ Z.min 0 (d * pw 0) <= fval t <= Z.max 0 (d * pw 0).
Proof.
  intros Hff HF Hd. pose proof pw0_pos as H0. pose proof (big_bound 65536 ltac:(done)) as Hbig.
  destruct (fval_of_Z d) as [Hdf Hdv]; [unfold f32_exact; lia|].
  destruct (mul_rounds frac (f32_of_Z d) Hff Hdf) as [Htf Htb].
  { rewrite Hdv, Z.abs_mul, (Z.abs_eq (fval frac)), Z.abs_mul, (Z.abs_eq (pw 0)) by lia.
    assert (Z.abs d * pw 0 <= pw 127) by (apply Z.le_trans with (65536 * pw 0); nia). nia. }
  rewrite Hdv in *. split; [done|].
  destruct (Htb float_zero eq_refl) as [Hz1 Hz2]. destruct (Htb (f32_of_Z d) Hdf) as [Hd1 Hd2].
  change (fval float_zero) with 0 in *. rewrite Hdv in *. destruct (Z.le_gt_cases 0 d).
  - assert (0 <= d * pw 0) by nia. assert (0 <= fval frac * (d * pw 0) <= d * pw 0 * pw 0) by nia. lia.
  - assert (d * pw 0 <= 0) by nia. assert (d * pw 0 * pw 0 <= fval frac * (d * pw 0) <= 0) by nia. lia.
Qed.

Lemma interpolate_between (pos : spec_float) (idx a b : Z) :
  is_fin pos = true -> 0 <= fval pos -> f32_trunc pos = Some idx -> idx < 16777216 ->
  is_s16 a -> is_s16 b ->
  exists v, interpolate pos idx a b = Some v /\ Z.min a b <= v <= Z.max a b.
Proof.
  intros Hf Hp Ht Hi Ha Hb. pose proof pw0_pos as H0. unfold is_s16 in *.
  destruct (fraction_range pos idx Hf Hp Ht Hi) as [Hff HF].
  destruct (product_between _ (b - a) Hff HF) as [Htf HT]; [lia|].
  destruct (fval_of_Z a) as [Haf Hav]; [unfold f32_exact; lia|].
  destruct (fval_of_Z b) as [Hbf Hbv]; [unfold f32_exact; lia|].
  pose proof (big_bound 65536 ltac:(done)) as Hbig. unfold interpolate.
  set (t := f32_mul _ _) in *.
  destruct (add_rounds (f32_of_Z a) t Haf Htf) as [Hrf Hrb]; [rewrite Hav; nia|].
  set (r := f32_add (f32_of_Z a) t) in *. rewrite Hav in *.
  destruct (Hrb (f32_of_Z a) Haf) as [Ha1 Ha2]. destruct (Hrb (f32_of_Z b) Hbf) as [Hb1 Hb2].
  rewrite Hav, Hbv in *.
  assert (HR : Z.min a b * pw 0 <= fval r <= Z.max a b * pw 0).
  { destruct (Z.le_gt_cases a b);
      [rewrite Z.min_l, Z.max_r by lia|rewrite Z.min_r, Z.max_l by lia]; nia. }
  exists (Z.quot (fval r) (pw 0)).
  assert (HQ : Z.min a b <= Z.quot (fval r) (pw 0) <= Z.max a b).
  { by apply trunc_between. }
  split; [|done]. unfold f32_to_s16. rewrite trunc_fval by done. cbn [mbind option_bind]. by zdecide.
Qed.

(** ** Positions fit their types *)

(** The frames counted in a period at the highest rate stay below [2 ^ 25]. *)
Definition float_2_25 : spec_float := S754_finite false 8388608 2.
Definition float_2_31 : spec_float := S754_finite false 8388608 8.
(** One sixty-fourth: rates that differ by more are not resampled linearly. *)
Definition float_2_m6 : spec_float := S754_finite false 8388608 (-29).

Lemma float_powers :
  fval float_2_25 = 33554432 * pw 0 /\ fval float_2_31 = 2147483648 * pw 0 /\
  fval float_2_m6 * 64 = pw 0.
Proof.
  pose proof (pw_shift 0 2 ltac:(lia) ltac:(lia)) as H2.
  pose proof (pw_shift 0 8 ltac:(lia) ltac:(lia)) as H8.
  pose proof (pw_shift (-29) 29 ltac:(lia) ltac:(lia)) as H29.
  change (2 ^ 2) with 4 in H2. change (2 ^ 8) with 256 in H8. change (2 ^ 29) with 536870912 in H29.
  change (0 + 2) with 2 in H2. change (0 + 8) with 8 in H8. change (-29 + 29) with 0 in H29.
  unfold float_2_25, float_2_31, float_2_m6. cbn [fval mag]. rewrite H2, H8. split_and!; [lia..|].
  rewrite H29. lia.
Qed.

Lemma of_Z_nonneg (z : Z) :
  0 <= z < 4294967296 -> is_fin (f32_of_Z z) = true /\ 0 <= fval (f32_of_Z z).
Proof.
  intros Hz. pose proof pw0_pos.
  destruct (of_Z_rounds z) as [Hf Hb]; [rewrite Z.abs_eq by lia; apply big_bound; lia|].
  split; [done|]. destruct (Hb float_zero eq_refl) as [_ Hl]. apply Hl. cbn [fval mag float_zero]. nia.
Qed.

Definition usable_factor (f : spec_float) : Prop :=
  is_fin f = true /\ fval float_2_m6 <= fval f.

Lemma src_pos_ok (lr : linear_resampler) (i : Z) :
  usable_factor (lr_f lr) -> is_u32 (lr_src_offset lr) ->
  0 <= lr_dst_offset lr + i <= 33554432 ->
  let pos := src_pos lr i in is_fin pos = true /\ 0 <= fval pos <= 2147483648 * pw 0.
Proof.
  intros [Hff Hfv] Hs Hd. pose proof pw0_pos as H0. destruct float_powers as (P25 & P31 & Pm6).
  set (d := lr_dst_offset lr + i) in *. unfold src_pos. fold d. rewrite u32_small by lia.
  destruct (of_Z_nonneg d ltac:(lia)) as [Hxf Hx0].
  assert (Hx : fval (f32_of_Z d) <= 33554432 * pw 0).
  { destruct (of_Z_rounds d) as [_ Hb]; [rewrite Z.abs_eq by lia; apply big_bound; lia|].
    rewrite <- P25. apply (Hb float_2_25 eq_refl). rewrite P25. nia. }
  destruct (div_rounds (f32_of_Z d) (lr_f lr)) as [Hpf Hpb]; [done|done|done|lia| |].
  { pose proof (big_bound 2147483648 ltac:(done)). nia. }
  set (p := f32_div _ _) in *.
  assert (Hp : 0 <= fval p <= 2147483648 * pw 0).
  { destruct (Hpb float_zero eq_refl) as [_ Hl]. destruct (Hpb float_2_31 eq_refl) as [Hu _].
    change (fval float_zero) with 0 in *. rewrite P31 in Hu. split; [apply Hl; nia|apply Hu; nia]. }
  destruct (of_Z_nonneg (lr_src_offset lr) Hs) as [Hsf Hs0].
  rewrite ltb_fval by done. destruct (Z.ltb_spec (fval (f32_of_Z (lr_src_offset lr))) (fval p)) as [Hlt|Hge].
  - destruct (sub_rounds p (f32_of_Z (lr_src_offset lr)) Hpf Hsf) as [Hrf Hrb].
    { pose proof (big_bound 2147483648 ltac:(done)). lia. }
    split; [done|]. destruct (Hrb float_zero eq_refl) as [_ Hl]. destruct (Hrb p Hpf) as [Hu _].
    change (fval float_zero) with 0 in *. lia.
  - split; [done|]. cbn [fval mag float_zero]. lia.
Qed.

(** ** Frames written in a row *)

Lemma writes_spec (C : Codec) (n dst : Z) (f : Z -> option Z) (val : Z -> Z) (m : list Z) :
  samples_fit C m dst n -> (forall i, 0 <= i < n -> f i = Some (val i) /\ stores (val i)) ->
  exists m', for_n n (fun i m => v ← f i; wr C m (dst + i * width) v) m = Some m' /\
    rewritten C n dst width val m m'.
Proof.
  intros Hfit Hf. pose proof Hfit as (? & Hn & ?). pose proof width_pos as Hw. unfold for_n.
  destruct (for_loop_inv (fun (k : nat) m' => rewritten C (Z.of_nat k) dst width val m m')
    (Z.to_nat n) 0 (fun i m => v ← f i; wr C m (dst + i * width) v) m) as (m' & Hm' & Hr).
  - split; [done|lia|done].
  - intros k m1 Hk [Hlen Hsam Hby]. destruct (Hf (Z.of_nat k)) as [Hv Hst]; [lia|].
    rewrite Hv. cbn [mbind option_bind].
    assert (Hfm : forall i, 0 <= i < n -> fits C m1 (dst + i * width)).
    { intros i Hi. unfold fits. rewrite Hlen. by eapply samples_fit_one. }
    rewrite wr_fits by (apply Hfm; lia). eexists. split; [done|]. split.
    + by rewrite length_inserts.
    + intros i Hi. destruct (decide (i = Z.of_nat k)) as [->|Hne].
      { apply rd_wr_same; [apply Hfm; lia|done]. }
      rewrite rd_wr_other; [apply Hsam; lia|apply Hfm; lia..|nia].
    + intros j Hj. rewrite bytes_wr_other; [apply Hby; intros; apply Hj; lia|apply Hfm; lia|].
      apply (Hj (Z.of_nat k)). lia.
  - exists m'. split; [done|]. by rewrite Nat.add_0_l, Z2Nat.id in Hr by lia.
Qed.

(** ** One call of the resampler *)
Section Resample.
Context (lr : linear_resampler) (sm : list Z) (src_frames dst_frames : Z).
#[local] Abbreviation nc := (lr_num_channels lr).

(** A resampler of 16 bit frames, with buffers of the sizes announced. *)
Hypothesis channels_pos : 0 < nc.
Hypothesis sixteen_bits : lr_format_bytes lr = nc * 2.
Hypothesis factor : usable_factor (lr_f lr).
Hypothesis src_offset_u32 : is_u32 (lr_src_offset lr).
Hypothesis dst_offset_pos : 0 <= lr_dst_offset lr.
Hypothesis offset_small : lr_dst_offset lr + dst_frames <= 33554432.
Hypothesis src_frames_small : 0 < src_frames <= 16777216.
Hypothesis dst_frames_pos : 0 < dst_frames.
Hypothesis src_size : src_frames * (nc * 2) <= Z.of_nat (length sm).
Hypothesis src_bytes : Z.of_nat (length sm) < 4294967296.

Definition sample (m : list Z) (i ch : Z) : option Z := rd codec_s16 m ((i * nc + ch) * 2).

(** A sample of the output next to the input frame [k] and its successor. *)
Definition between (k ch v : Z) : Prop :=
  0 <= k < src_frames /\ exists a b, sample sm k ch = Some a /\
    sample sm (Z.min (k + 1) (src_frames - 1)) ch = Some b /\ Z.min a b <= v <= Z.max a b.

Lemma sample_defined (i ch : Z) :
  0 <= i < src_frames -> 0 <= ch < nc -> exists a, sample sm i ch = Some a /\ is_s16 a.
Proof.
  intros Hi Hch. unfold sample. rewrite rd_slice by (unfold fits; simpl width; nia).
  eexists. split; [done|]. apply s16_range.
Qed.

(** The position of output frame [i], when the loop goes on. *)
Lemma position_ok (i : Z) :
  0 <= i <= dst_frames ->
  let pos := src_pos lr i in
  exists k, f32_to_u32 pos = Some k /\ 0 <= k /\ f32_trunc pos = Some k /\
    is_fin pos = true /\ 0 <= fval pos /\
    (SFltb (f32_of_Z (u32 (src_frames - 1))) pos = false -> k < src_frames).
Proof.
  intros Hi pos. pose proof pw0_pos as H0.
  destruct (src_pos_ok lr i factor src_offset_u32) as [Hf Hv]; [lia|]. fold pos in Hf, Hv.
  exists (Z.quot (fval pos) (pw 0)).
  assert (Hk : 0 <= Z.quot (fval pos) (pw 0) <= 2147483648).
  { rewrite Z.quot_div_nonneg by lia. split; [apply Z.div_pos; lia|].
    apply Z.div_le_upper_bound; lia. }
  unfold f32_to_u32. rewrite trunc_fval by done. cbn [mbind option_bind]. split_and!; try done; try lia.
  { by zdecide. }
  rewrite u32_small by lia. destruct (fval_of_Z (src_frames - 1)) as [Hnf Hnv]; [unfold f32_exact; lia|].
  rewrite ltb_fval, Hnv by done. intros Hle%Z.ltb_ge. rewrite Z.quot_div_nonneg by lia.
  apply Z.div_lt_upper_bound; lia.
Qed.

Lemma resample_frame_spec (i k : Z) (dm : list Z) :
  0 <= i < dst_frames -> f32_trunc (src_pos lr i) = Some k -> 0 <= k < src_frames ->
  is_fin (src_pos lr i) = true -> 0 <= fval (src_pos lr i) ->
  dst_frames * (nc * 2) <= Z.of_nat (length dm) < 4294967296 ->
  exists dm' val, resample_frame lr sm src_frames (src_pos lr i) k i dm = Some dm' /\
    rewritten codec_s16 nc (i * nc * 2) 2 val dm dm' /\
    forall ch, 0 <= ch < nc -> between k ch (val ch).
Proof.
  intros Hi Hk Hkr Hf Hv Hdm.
  set (f := fun ch => a ← sample sm k ch;
    if k =? src_frames - 1 then Some a else
    b ← sample sm (k + 1) ch; interpolate (src_pos lr i) k a b).
  assert (Hval : forall ch, 0 <= ch < nc -> exists v, f ch = Some v /\ is_s16 v /\ between k ch v).
  { intros ch Hch. unfold f, between. destruct (sample_defined k ch Hkr Hch) as (a & Ha & Har).
    rewrite Ha. cbn [mbind option_bind]. destruct (Z.eqb_spec k (src_frames - 1)) as [->|Hne].
    - exists a. split_and!; [done|done|lia|lia|]. exists a, a.
      replace (Z.min _ _) with (src_frames - 1) by lia. split_and!; [done|done|lia|lia].
    - destruct (sample_defined (k + 1) ch ltac:(lia) Hch) as (b & Hb & Hbr). rewrite Hb.
      cbn [mbind option_bind].
      destruct (interpolate_between (src_pos lr i) k a b) as (v & Hiv & Hbet); try done; [lia|].
      exists v. split_and!; [done|unfold is_s16 in *; lia|lia|lia|].
      exists a, b. replace (Z.min (k + 1) _) with (k + 1) by lia. done. }
  destruct (writes_spec codec_s16 nc (i * nc * 2) f (fun ch => default 0 (f ch)) dm) as (dm' & Hdm' & Hrw).
  - unfold samples_fit. simpl width. nia.
  - intros ch Hch. destruct (Hval ch Hch) as (v & -> & Hvr & _). done.
  - exists dm', (fun ch => default 0 (f ch)). split_and!; [|done|].
    + rewrite <- Hdm'. unfold resample_frame, for_n. apply for_loop_ext. intros c m Hc.
      rewrite sixteen_bits, !(u32_small (_ * (nc * 2))), (u32_small (nc + _)), (u32_small (src_frames - 1)) by nia.
      unfold f, sample. simpl width.
      replace (k * (nc * 2) + Z.of_nat c * 2) with ((k * nc + Z.of_nat c) * 2) by ring.
      replace (k * (nc * 2) + (nc + Z.of_nat c) * 2) with (((k + 1) * nc + Z.of_nat c) * 2) by ring.
      replace (i * (nc * 2) + Z.of_nat c * 2) with (i * nc * 2 + Z.of_nat c * 2) by ring.
      destruct (rd _ sm ((k * nc + _) * 2)); cbn [mbind option_bind]; [|done].
      destruct (k =? src_frames - 1); [done|]. by destruct (rd _ sm (((k + 1) * nc + _) * 2)).
    + intros ch Hch. by destruct (Hval ch Hch) as (v & -> & _ & ?).
Qed.

(** The output after [n] frames. *)
Definition produced (n : Z) (dm0 dm : list Z) : Prop :=
  length dm = length dm0 /\
  (forall i ch, 0 <= i < n -> 0 <= ch < nc -> exists k v, sample dm i ch = Some v /\ between k ch v) /\
  (forall j : nat, n * (nc * 2) <= Z.of_nat j -> dm !! j = dm0 !! j).

Lemma produced_step (i k : Z) (dm0 dm dm' : list Z) (val : Z -> Z) :
  0 <= i < dst_frames -> dst_frames * (nc * 2) <= Z.of_nat (length dm0) -> produced i dm0 dm ->
  rewritten codec_s16 nc (i * nc * 2) 2 val dm dm' ->
  (forall ch, 0 <= ch < nc -> between k ch (val ch)) -> produced (i + 1) dm0 dm'.
Proof.
  intros Hi Hl (L1 & S1 & B1) [L2 S2 B2] Hbet. split_and!.
  - by rewrite L2.
  - intros x ch Hx Hch. destruct (Z.eq_dec x i) as [->|Hne].
    + exists k, (val ch). split; [|by apply Hbet]. unfold sample.
      replace ((i * nc + ch) * 2) with (i * nc * 2 + ch * 2) by ring. by rewrite S2.
    + destruct (S1 x ch ltac:(lia) Hch) as (k' & v & Hs & Hb). exists k', v. split; [|done].
      rewrite <- Hs. unfold sample. apply rd_same; [done|unfold fits; simpl width; rewrite L1; nia|].
      intros j Hj. apply B2. simpl width in *. intros c Hc. nia.
  - intros j Hj. rewrite B2, B1; [done|nia|]. intros c Hc. simpl width. right. nia.
Qed.

Lemma resample_loop_spec (dm0 : list Z) :
  dst_frames * (nc * 2) <= Z.of_nat (length dm0) < 4294967296 ->
  forall (fuel : nat) (src_idx i : Z) (dm : list Z),
  0 <= i <= dst_frames -> (Z.to_nat (dst_frames - i) < fuel)%nat -> produced i dm0 dm ->
  exists k n dm', resample_loop fuel lr sm src_frames dst_frames src_idx i dm = Some (k, n, dm') /\
    0 <= k < src_frames /\ 0 <= n <= dst_frames /\ produced n dm0 dm'.
Proof.
  intros Hdm. induction fuel as [|fuel IH]; intros src_idx i dm Hi Hfuel Hdone; [lia|].
  cbn [resample_loop]. zdecide. cbn [negb].
  destruct (position_ok i Hi) as (k & -> & Hk0 & Ht & Hf & Hv & Hlt). cbn [mbind option_bind].
  destruct (SFltb _ _) eqn:Hpast; cbn [orb].
  { exists (src_frames - 1), i, dm. rewrite u32_small by lia. split_and!; [done|lia..|done]. }
  specialize (Hlt eq_refl). destruct (Z.leb_spec dst_frames i) as [Hend|Hgo].
  { exists k, i, dm. split_and!; [done|lia..|done]. }
  destruct (resample_frame_spec i k dm) as (dm' & val & -> & Hrw & Hbet); try done; [lia..| |].
  { destruct Hdone as [-> _]. done. }
  cbn [mbind option_bind]. rewrite u32_small by lia. apply IH; [lia..|].
  eapply produced_step; [|lia|done..]. lia.
Qed.

End Resample.

Lemma reduce_offsets_spec (r : linear_resampler) :
  is_u32 (lr_src_offset r) -> is_u32 (lr_dst_offset r) ->
  0 < lr_from_times_100 r -> 0 < lr_to_times_100 r ->
  exists r', reduce_offsets r = Some r' /\ exists n, 0 <= n /\
    r' = set_offsets (lr_src_offset r - n * lr_from_times_100 r)
           (lr_dst_offset r - n * lr_to_times_100 r) r /\
    is_u32 (lr_src_offset r') /\ is_u32 (lr_dst_offset r') /\
    (lr_src_offset r' <= lr_from_times_100 r \/ lr_dst_offset r' <= lr_to_times_100 r).
Proof.
  intros Hs Hd Hfr Hto. unfold reduce_offsets, is_u32 in *.
  destruct (cwhile_spec
    (fun q => (lr_src_offset q >? lr_from_times_100 q) && (lr_dst_offset q >? lr_to_times_100 q))
    (fun q => Some (set_offsets (u32 (lr_src_offset q - lr_from_times_100 q))
                                (u32 (lr_dst_offset q - lr_to_times_100 q)) q))
    (fun q => 0 <= lr_src_offset q < 4294967296 /\ 0 <= lr_dst_offset q < 4294967296 /\ exists n, 0 <= n /\
       q = set_offsets (lr_src_offset r - n * lr_from_times_100 r)
             (lr_dst_offset r - n * lr_to_times_100 r) r)
    (fun q => Z.to_nat (lr_src_offset q + lr_dst_offset q)))
    with (fuel := S (Z.to_nat (lr_src_offset r + lr_dst_offset r))) (s := r)
    as (r' & -> & (Hs' & Hd' & n & Hn & Hr') & Hc).
  - intros q (Hqs & Hqd & n & Hn & Hq) [Hc1 Hc2]%andb_true_iff.
    assert (lr_from_times_100 q = lr_from_times_100 r) as Ef by by subst q.
    assert (lr_to_times_100 q = lr_to_times_100 r) as Et by by subst q.
    rewrite Ef, Et in *. eexists. split; [done|]. rewrite !u32_small by lia. cbn [lr_src_offset lr_dst_offset set_offsets].
    split; [|lia]. split_and!; [lia..|]. exists (n + 1). split; [lia|]. subst q.
    unfold set_offsets. cbn. f_equal; lia.
  - split; [done|]. split; [done|]. exists 0. split; [done|]. destruct r. unfold set_offsets. cbn. f_equal; lia.
  - lia.
  - exists r'. split; [done|]. exists n. split_and!; try done; try lia.
    assert (lr_from_times_100 r' = lr_from_times_100 r) as Ef by by subst r'.
    assert (lr_to_times_100 r' = lr_to_times_100 r) as Et by by subst r'.
    rewrite Ef, Et in Hc. apply andb_false_iff in Hc. lia.
Qed.

(** A resampler of 16 bit frames whose rates are set, before a call for
    [dst_frames]. *)
Record rates_set (lr : linear_resampler) (dst_frames : Z) : Prop := {
  rs_channels : 0 < lr_num_channels lr;
  rs_frame : lr_format_bytes lr = lr_num_channels lr * 2;
  rs_factor : usable_factor (lr_f lr);
  rs_from : 0 < lr_from_times_100 lr;
  rs_to : 0 < lr_to_times_100 lr;
  rs_src : is_u32 (lr_src_offset lr);
  rs_dst : 0 <= lr_dst_offset lr;
  rs_room : lr_dst_offset lr + dst_frames <= 33554432
}.

Lemma resample_ok (lr : linear_resampler) (sm dm : list Z) (src_frames dst_frames : Z) :
  let frame_bytes := lr_num_channels lr * 2 in
  rates_set lr dst_frames -> 0 < src_frames <= 16777216 -> 0 < dst_frames ->
  src_frames * frame_bytes <= Z.of_nat (length sm) < 4294967296 ->
  dst_frames * frame_bytes <= Z.of_nat (length dm) < 4294967296 ->
  exists n c dm' lr', linear_resampler_resample lr sm src_frames dm dst_frames = Some (n, c, dm', lr') /\
    0 <= n <= dst_frames /\ 1 <= c <= src_frames /\ produced lr sm src_frames n dm dm' /\
    exists k, 0 <= k /\
      lr' = set_offsets (u32 (lr_src_offset lr + c) - k * lr_from_times_100 lr)
              (lr_dst_offset lr + n - k * lr_to_times_100 lr) lr /\
      is_u32 (lr_src_offset lr') /\ is_u32 (lr_dst_offset lr').
Proof.
  intros fb [Hc Hfb Hf Hfr Hto Hs Hd Hroom] Hsf Hdf Hsm Hdm. unfold linear_resampler_resample.
  zdecide. cbn [orb].
  destruct (resample_loop_spec lr sm src_frames dst_frames) with
    (dm0 := dm) (fuel := S (Z.to_nat dst_frames)) (src_idx := 0) (i := 0) (dm := dm)
    as (k & n & dm' & -> & Hk & Hn & Hp); try done; try lia.
  { split_and!; [done|lia|done]. }
  cbn [mbind option_bind]. rewrite (u32_small (k + 1)), (u32_small (lr_dst_offset lr + n)) by lia.
  destruct (reduce_offsets_spec
    (set_offsets (u32 (lr_src_offset lr + (k + 1))) (lr_dst_offset lr + n) lr))
    as (lr' & -> & q & Hq & Hlr & Hs' & Hd' & _); try done.
  { apply u32_range. }
  { unfold is_u32. cbn. lia. }
  exists n, (k + 1), dm', lr'. split_and!; try done; try lia. exists q. split_and!; try done.
Qed.


(** Stereo at 48 kHz for a device that runs at 96 kHz: twice the frames. *)
Definition lr_example : linear_resampler :=
  default (LinearResampler 0 0 0 0 0 0 float_zero)
    (linear_resampler_set_rates (LinearResampler 2 4 0 0 0 0 float_zero) (f32_of_Z 48000) (f32_of_Z 96000)).
Definition frames_example : list Z := bytes_of codec_s16 [0; 0; 100; -100; 200; -201].

