(* ===== verification/FmtConv.v ===== *)
(** * The format converter (server/cras_fmt_conv.c)

    Turns the frames of one format into another: sample format to 16 bits,
    channels, sample rate (the Speex resampler), the linear resampler before or
    after, and 16 bits to the sample format.  Each step reads one buffer and
    writes the next, the last one writes the caller's.  Buffers are bytes; a
    step that works on wider samples goes through the codec of its samples. *)
From S2P Require Import Prelude Arrays Float32 Rounding Types Timespec AudioFormat FmtConvOps Mix LinearResampler.
#[local] Open Scope Z_scope.

(** ** The Speex resampler

    A library: it is created for a channel count and two rates, and a call
    turns at most [in_len] frames into at most [out_len] of them. *)
Class speex_library : Type := {
  SpeexResamplerState : Type;
  speex_resampler_init : Z -> Z -> Z -> Z -> option SpeexResamplerState;
  speex_resampler_process : SpeexResamplerState -> list Z -> Z -> list Z -> Z ->
    SpeexResamplerState * Z * Z * list Z
}.

(** Its manual: [in_len] and [out_len] return the frames processed and written,
    and the output buffer is not outgrown. *)
Definition speex_documented (L : speex_library) : Prop :=
  forall st inp n out m, 0 <= n -> 0 <= m ->
  let '(_, c, p, out') := speex_resampler_process st inp n out m in
  0 <= c <= n /\ 0 <= p <= m /\ length out' = length out /\ Forall is_s16 out'.

Definition SPEEX_QUALITY_LEVEL : Z := 4.
Definition MAX_NUM_CONVERTERS : Z := 5.
Definition STEREO_L : Z := 0.
Definition STEREO_R : Z := 1.

(** [sample_format_converter_t] and [channel_converter_t] point to one of these. *)
Inductive sample_format_converter : Type :=
  | U8_TO_S16LE | S24LE_TO_S16LE | S32LE_TO_S16LE | S243LE_TO_S16LE
  | S16LE_TO_U8 | S16LE_TO_S24LE | S16LE_TO_S32LE | S16LE_TO_S243LE.

Inductive channel_converter : Type :=
  | MONO_TO_STEREO | STEREO_TO_MONO | MONO_TO_51 | STEREO_TO_51 | _51_TO_STEREO
  | STEREO_TO_QUAD | QUAD_TO_STEREO | DEFAULT_ALL_TO_ALL | CONVERT_CHANNELS.

(** ** Samples seen in bytes *)

(** The whole samples in a region, and the region with its first samples replaced. *)
Definition view (C : Codec) (m : list Z) : list Z :=
  (fun i => decode (slice m (Z.of_nat i * width) (Z.of_nat i * width + width)))
    <$> seq 0 (Z.to_nat (Z.of_nat (length m) / width)).

Definition put (C : Codec) (m vs : list Z) : list Z :=
  concat (encode <$> vs) ++ drop (length (concat (encode <$> vs))) m.

(** A step on 16 bit samples. *)
Definition on_s16 {A} (op : list Z -> list Z -> option (A * list Z)) (src dst : list Z)
  : option (A * list Z) :=
  '(x, out) ← op (view codec_s16 src) (view codec_s16 dst); Some (x, put codec_s16 dst out).

Definition run_format_converter (f : sample_format_converter) (samples : Z) (src dst : list Z)
  : option (list Z) :=
  let s16 := view codec_s16 in let s32 := view codec_s32 in
  match f with
  | U8_TO_S16LE => put codec_s16 dst <$> convert_u8_to_s16le src samples (s16 dst)
  | S24LE_TO_S16LE => put codec_s16 dst <$> convert_s24le_to_s16le (s32 src) samples (s16 dst)
  | S32LE_TO_S16LE => put codec_s16 dst <$> convert_s32le_to_s16le (s32 src) samples (s16 dst)
  | S243LE_TO_S16LE => put codec_s16 dst <$> convert_s243le_to_s16le src samples (s16 dst)
  | S16LE_TO_U8 => convert_s16le_to_u8 (s16 src) samples dst
  | S16LE_TO_S24LE => put codec_s32 dst <$> convert_s16le_to_s24le (s16 src) samples (s32 dst)
  | S16LE_TO_S32LE => put codec_s32 dst <$> convert_s16le_to_s32le (s16 src) samples (s32 dst)
  | S16LE_TO_S243LE => convert_s16le_to_s243le (s16 src) samples dst
  end.

Section Converter.
Context {P : pcm_library} {L : speex_library}.

(** ** The converter and its creation *)

Record cras_fmt_conv : Type := FmtConv {
  fc_speex_state : option SpeexResamplerState;
  fc_channel_converter : option channel_converter;
  fc_ch_conv_mtx : option matrix;
  fc_in_format_converter : option sample_format_converter;
  fc_out_format_converter : option sample_format_converter;
  fc_resampler : linear_resampler;
  fc_in_fmt : cras_audio_format;
  fc_out_fmt : cras_audio_format;
  fc_tmp_bufs : list (list Z);
  fc_tmp_buf_frames : Z;
  fc_pre_linear_resample : Z;
  fc_num_converters : Z
}.

Definition is_channel_layout_equal (a b : cras_audio_format) : bool :=
  forallb (fun ch => layout_pos a ch =? layout_pos b ch) CHANNELS.

(** [buf[i] /= sum] of the squares, when that is not zero. *)
Definition normalize_buf (buf : list spec_float) (size : Z) : option (list spec_float) :=
  squre_sum ← for_n size (fun i sum => x ← ld buf i; Some (f32_add sum (f32_mul x x))) float_zero;
  if SFeqb squre_sum float_zero then Some buf else
  for_n size (fun i buf => x ← ld buf i; st buf i (f32_div x squre_sum)) buf.

Definition f32_decimal (n d : Z) : spec_float := f32_of_f64 (f64_ratio n d).

Definition surround51_to_stereo_downmix_mtx (mtx : option matrix) (layout : Z -> Z)
  : option (option matrix) :=
  let set o ch v mtx := mtx_set mtx o (layout ch) v in
  let is_set ch := negb (layout ch =? -1) in
  mtx ← (if is_set CRAS_CH_FC then
           mtx ← set STEREO_L CRAS_CH_FC (f32_decimal 707 1000) mtx;
           set STEREO_R CRAS_CH_FC (f32_decimal 707 1000) mtx else Some mtx);
  mtx ← (if is_set CRAS_CH_FL && is_set CRAS_CH_FR then
           mtx ← set STEREO_L CRAS_CH_FL float_one mtx;
           set STEREO_R CRAS_CH_FR float_one mtx else Some mtx);
  mtx ← (if is_set CRAS_CH_SL && is_set CRAS_CH_SR then
           mtx ← set STEREO_L CRAS_CH_SL float_one mtx;
           set STEREO_R CRAS_CH_SR float_one mtx else Some mtx);
  mtx ← (if is_set CRAS_CH_RL && is_set CRAS_CH_RR then
           mtx ← set STEREO_L CRAS_CH_RL (f32_decimal 866 1000) mtx;
           mtx ← set STEREO_R CRAS_CH_RL (f32_decimal 5 10) mtx;
           mtx ← set STEREO_R CRAS_CH_RR (f32_decimal 866 1000) mtx;
           set STEREO_L CRAS_CH_RR (f32_decimal 5 10) mtx else Some mtx);
  mtx ← (if is_set CRAS_CH_LFE then
           mtx ← set STEREO_L CRAS_CH_LFE (f32_decimal 707 1000) mtx;
           set STEREO_R CRAS_CH_LFE (f32_decimal 707 1000) mtx else Some mtx);
  m ← (mtx : option matrix);
  l ← ld (m : matrix) STEREO_L; l ← normalize_buf l 6; m ← st m STEREO_L l;
  r ← ld m STEREO_R; r ← normalize_buf r 6; m ← st m STEREO_R r;
  Some (Some m).

Definition is_supported_format (fmt : cras_audio_format) : bool :=
  (format fmt =? SND_PCM_FORMAT_U8) || (format fmt =? SND_PCM_FORMAT_S16_LE) ||
  (format fmt =? SND_PCM_FORMAT_S24_3LE) || (format fmt =? SND_PCM_FORMAT_S24_LE) ||
  (format fmt =? SND_PCM_FORMAT_S32_LE).

Definition choose_in_converter (fmt : Z) : option sample_format_converter :=
  if fmt =? SND_PCM_FORMAT_U8 then Some U8_TO_S16LE
  else if fmt =? SND_PCM_FORMAT_S24_LE then Some S24LE_TO_S16LE
  else if fmt =? SND_PCM_FORMAT_S32_LE then Some S32LE_TO_S16LE
  else if fmt =? SND_PCM_FORMAT_S24_3LE then Some S243LE_TO_S16LE
  else None.

Definition choose_out_converter (fmt : Z) : option sample_format_converter :=
  if fmt =? SND_PCM_FORMAT_U8 then Some S16LE_TO_U8
  else if fmt =? SND_PCM_FORMAT_S24_LE then Some S16LE_TO_S24LE
  else if fmt =? SND_PCM_FORMAT_S32_LE then Some S16LE_TO_S32LE
  else if fmt =? SND_PCM_FORMAT_S24_3LE then Some S16LE_TO_S243LE
  else None.

(** The channel step: which converter, if any, and its matrix; the outer
    [None] is undefined, an inner one the failure that makes the creation
    return [NULL]. *)
Definition choose_channel_converter (mtx_ok : bool) (i o : cras_audio_format)
  : option (option (option channel_converter * option matrix)) :=
  let ci := num_channels i in let co := num_channels o in
  let plain c := Some (Some (Some c, None)) in
  if negb (ci =? co) then
    if (ci =? 1) && (co =? 2) then plain MONO_TO_STEREO
    else if (ci =? 1) && (co =? 6) then plain MONO_TO_51
    else if (ci =? 2) && (co =? 1) then plain STEREO_TO_MONO
    else if (ci =? 2) && (co =? 4) then plain STEREO_TO_QUAD
    else if (ci =? 4) && (co =? 2) then plain QUAD_TO_STEREO
    else if (ci =? 2) && (co =? 6) then plain STEREO_TO_51
    else if (ci =? 6) && (co =? 2) then
      if existsb (fun ch => negb (layout_pos i ch =? -1)) CHANNELS then
        match cras_channel_conv_matrix_alloc mtx_ok ci co with
        | None => Some None
        | Some m =>
            m ← surround51_to_stereo_downmix_mtx (Some m) (layout_pos i);
            Some (Some (Some CONVERT_CHANNELS, m))
        end
      else plain _51_TO_STEREO
    else plain DEFAULT_ALL_TO_ALL
  else if (ci >? 2) && negb (is_channel_layout_equal i o) then
    m ← cras_channel_conv_matrix_create mtx_ok i o;
    match m with
    | None => Some None
    | Some m => Some (Some (Some CONVERT_CHANNELS, Some m))
    end
  else Some (Some (None, None)).

(** What the memory allocator answers: the converter, the matrix, the linear
    resampler, and the [i]-th temporary buffer with what is in it. *)
Record conv_env : Type := ConvEnv {
  env_calloc : bool;
  env_matrix : bool;
  env_resampler : bool;
  env_malloc : Z -> Z -> option (list Z)
}.

(** Frees the parts; [*convp] becomes [NULL]. *)
Definition cras_fmt_conv_destroy (mtx : option matrix) (o : cras_audio_format)
  : option (option cras_fmt_conv) :=
  _ ← (match mtx with
       | Some _ => cras_channel_conv_matrix_destroy mtx (num_channels o)
       | None => Some ()
       end);
  Some None.

Fixpoint alloc_tmp_bufs (env : conv_env) (n : nat) (i size : Z) : option (list (list Z)) :=
  match n with
  | O => Some []
  | S n => m ← env_malloc env i size; ms ← alloc_tmp_bufs env n (i + 1) size; Some (m :: ms)
  end.

Definition cras_fmt_conv_create (env : conv_env) (i o : cras_audio_format)
    (max_frames pre_linear_resample : Z) : option (option cras_fmt_conv) :=
  if negb (env_calloc env) then Some None else
  if negb (is_supported_format i) then cras_fmt_conv_destroy None o else
  if negb (is_supported_format o) then cras_fmt_conv_destroy None o else
  let conv_in := negb (format i =? SND_PCM_FORMAT_S16_LE) in
  let conv_out := negb (format o =? SND_PCM_FORMAT_S16_LE) in
  ch ← choose_channel_converter (env_matrix env) i o;
  match ch with
  | None => cras_fmt_conv_destroy None o
  | Some (channel, mtx) =>
    let src := negb (frame_rate i =? frame_rate o) in
    let speex := if src then
      speex_resampler_init (num_channels o) (frame_rate i) (frame_rate o) SPEEX_QUALITY_LEVEL
      else None in
    if src && negb (bool_decide (is_Some speex)) then cras_fmt_conv_destroy mtx o else
    lr ← linear_resampler_create (env_resampler env) (u32 (num_channels o))
           (u32 (cras_get_format_bytes o)) (f32_of_Z (frame_rate o)) (f32_of_Z (frame_rate o));
    match lr with
    | None => cras_fmt_conv_destroy mtx o
    | Some lr =>
      let num_converters := c_bool conv_in + c_bool conv_out +
        c_bool (bool_decide (is_Some channel)) + c_bool src + 1 in
      let size := u64 (u64 (max_frames * 4) * cmax (num_channels i) (num_channels o)) in
      match alloc_tmp_bufs env (Z.to_nat (num_converters - 1)) 0 size with
      | None => cras_fmt_conv_destroy mtx o
      | Some bufs =>
        if num_converters >? MAX_NUM_CONVERTERS then None else
        Some (Some {|
          fc_speex_state := speex; fc_channel_converter := channel; fc_ch_conv_mtx := mtx;
          fc_in_format_converter := if conv_in then choose_in_converter (format i) else None;
          fc_out_format_converter := if conv_out then choose_out_converter (format o) else None;
          fc_resampler := lr; fc_in_fmt := i; fc_out_fmt := o; fc_tmp_bufs := bufs;
          fc_tmp_buf_frames := max_frames; fc_pre_linear_resample := pre_linear_resample;
          fc_num_converters := num_converters |})
      end
    end
  end.

(** The converter for channel remixing: a matrix and one frame of scratch. *)
Definition cras_channel_remix_conv_create (env : conv_env) (num_ch : Z) (coefficient : list spec_float)
  : option (option cras_fmt_conv) :=
  if negb (env_calloc env) then Some None else
  let mtx := cras_channel_conv_matrix_alloc (env_matrix env) num_ch num_ch in
  mtx ← for_n num_ch (fun out_ch mtx =>
          for_n num_ch (fun in_ch mtx =>
            c ← ld coefficient (u32 (in_ch + out_ch * num_ch));
            mtx_set mtx out_ch in_ch c) mtx) mtx;
  let fmt := AudioFormat 0 0 num_ch (replicate (Z.to_nat CRAS_CH_MAX) 0) in
  Some (Some {|
    fc_speex_state := None; fc_channel_converter := None; fc_ch_conv_mtx := mtx;
    fc_in_format_converter := None; fc_out_format_converter := None;
    fc_resampler := LinearResampler 0 0 0 0 0 0 float_zero;
    fc_in_fmt := fmt; fc_out_fmt := fmt;
    fc_tmp_bufs := [default [] (env_malloc env 0 (u32 (4 * num_ch)))];
    fc_tmp_buf_frames := 0; fc_pre_linear_resample := 0; fc_num_converters := 1 |}).

(** On 16 bit samples: [tmp] is the scratch frame, [buf] starts at sample [base]. *)
Definition remix_frame (mtx : matrix) (n base : Z) (s : list Z * list Z) : option (list Z * list Z) :=
  let '(tmp, buf) := s in
  tmp ← for_n n (fun ch tmp =>
          row ← ld mtx ch; v ← s16_multiply_buf_with_coef row buf base n; st tmp ch v) tmp;
  buf ← for_n n (fun ch buf => v ← ld tmp ch; st buf (base + ch) v) buf;
  Some (tmp, buf).

(** Returns the buffer, as 16 bit samples, and the scratch frame. *)
Definition cras_channel_remix_convert (conv : cras_fmt_conv) (fmt : cras_audio_format)
    (tmp in_buf : list Z) (nframes : Z) : option (list Z * list Z) :=
  if negb (format fmt =? SND_PCM_FORMAT_S16_LE) then Some (tmp, in_buf)
  else if negb (num_channels fmt =? num_channels (fc_in_fmt conv)) then Some (tmp, in_buf)
  else
    let n := num_channels (fc_in_fmt conv) in
    for_n nframes (fun fr s => mtx ← fc_ch_conv_mtx conv; remix_frame mtx n (fr * n) s) (tmp, in_buf).

(** ** Frame counts

    [None] as converter is [NULL]: the formats are equal. *)

Definition cras_fmt_conv_in_frames_to_out (conv : option cras_fmt_conv) (in_frames : Z) : option Z :=
  match conv with
  | None => Some in_frames
  | Some conv =>
      n ← (if negb (fc_pre_linear_resample conv =? 0)
           then linear_resampler_in_frames_to_out (fc_resampler conv) (u32 in_frames) else Some in_frames);
      n ← cras_frames_at_rate (frame_rate (fc_in_fmt conv)) n (frame_rate (fc_out_fmt conv));
      if fc_pre_linear_resample conv =? 0
      then linear_resampler_in_frames_to_out (fc_resampler conv) (u32 n) else Some n
  end.

Definition cras_fmt_conv_out_frames_to_in (conv : option cras_fmt_conv) (out_frames : Z) : option Z :=
  match conv with
  | None => Some out_frames
  | Some conv =>
      n ← (if fc_pre_linear_resample conv =? 0
           then linear_resampler_out_frames_to_in (fc_resampler conv) (u32 out_frames) else Some out_frames);
      n ← cras_frames_at_rate (frame_rate (fc_out_fmt conv)) n (frame_rate (fc_in_fmt conv));
      if negb (fc_pre_linear_resample conv =? 0)
      then linear_resampler_out_frames_to_in (fc_resampler conv) (u32 n) else Some n
  end.

Definition set_resampler (lr : linear_resampler) (c : cras_fmt_conv) : cras_fmt_conv :=
  {| fc_speex_state := fc_speex_state c; fc_channel_converter := fc_channel_converter c;
     fc_ch_conv_mtx := fc_ch_conv_mtx c; fc_in_format_converter := fc_in_format_converter c;
     fc_out_format_converter := fc_out_format_converter c; fc_resampler := lr;
     fc_in_fmt := fc_in_fmt c; fc_out_fmt := fc_out_fmt c; fc_tmp_bufs := fc_tmp_bufs c;
     fc_tmp_buf_frames := fc_tmp_buf_frames c;
     fc_pre_linear_resample := fc_pre_linear_resample c; fc_num_converters := fc_num_converters c |}.

Definition set_run (sp : option SpeexResamplerState) (bufs : list (list Z)) (c : cras_fmt_conv)
  : cras_fmt_conv :=
  {| fc_speex_state := sp; fc_channel_converter := fc_channel_converter c;
     fc_ch_conv_mtx := fc_ch_conv_mtx c; fc_in_format_converter := fc_in_format_converter c;
     fc_out_format_converter := fc_out_format_converter c; fc_resampler := fc_resampler c;
     fc_in_fmt := fc_in_fmt c; fc_out_fmt := fc_out_fmt c; fc_tmp_bufs := bufs;
     fc_tmp_buf_frames := fc_tmp_buf_frames c;
     fc_pre_linear_resample := fc_pre_linear_resample c; fc_num_converters := fc_num_converters c |}.

Definition cras_fmt_conv_set_linear_resample_rates (conv : cras_fmt_conv) (from to : spec_float)
  : option cras_fmt_conv :=
  lr ← linear_resampler_set_rates (fc_resampler conv) from to; Some (set_resampler lr conv).

Definition cras_fmt_conversion_needed (conv : cras_fmt_conv) : bool :=
  linear_resampler_needed (fc_resampler conv) || (fc_num_converters conv >? 1).

(** ** The chain of buffers

    [buffers[used]] is the caller's output, [buffers[0]] its input and the
    others the temporaries, [NULL] (empty) where none was allocated. *)
Record chain : Type := Chain {
  ch_in : list Z;
  ch_out : list Z;
  ch_tmps : list (list Z);
  ch_used : nat;
  ch_idx : nat
}.

Definition buffer (c : chain) (k : nat) : list Z :=
  if decide (k = ch_used c) then ch_out c
  else match k with O => ch_in c | S i => default [] (ch_tmps c !! i) end.

Definition set_buffer (c : chain) (k : nat) (m : list Z) : chain :=
  if decide (k = ch_used c) then Chain (ch_in c) m (ch_tmps c) (ch_used c) (ch_idx c)
  else match k with
       | O => Chain m (ch_out c) (ch_tmps c) (ch_used c) (ch_idx c)
       | S i => Chain (ch_in c) (ch_out c) (<[i := m]> (ch_tmps c)) (ch_used c) (ch_idx c)
       end.

(** One step: from [buffers[buf_idx]] to [buffers[buf_idx + 1]]. *)
Definition step {A} (op : list Z -> list Z -> option (A * list Z)) (c : chain) : option (A * chain) :=
  '(x, m) ← op (buffer c (ch_idx c)) (buffer c (S (ch_idx c)));
  let c := set_buffer c (S (ch_idx c)) m in
  Some (x, Chain (ch_in c) (ch_out c) (ch_tmps c) (ch_used c) (S (ch_idx c))).

Definition run_channel_converter (conv : cras_fmt_conv) (c : channel_converter) (in_frames : Z)
    (inp out : list Z) : option (Z * list Z) :=
  let pos fmt ch := u64 (layout_pos fmt ch) in
  let i := fc_in_fmt conv in let o := fc_out_fmt conv in
  match c with
  | MONO_TO_STEREO => s16_mono_to_stereo inp in_frames out
  | STEREO_TO_MONO => s16_stereo_to_mono inp in_frames out
  | MONO_TO_51 => s16_mono_to_51 (pos o CRAS_CH_FL) (pos o CRAS_CH_FR) (pos o CRAS_CH_FC) inp in_frames out
  | STEREO_TO_51 => s16_stereo_to_51 (pos o CRAS_CH_FL) (pos o CRAS_CH_FR) (pos o CRAS_CH_FC) inp in_frames out
  | _51_TO_STEREO => s16_51_to_stereo inp in_frames out
  | STEREO_TO_QUAD => s16_stereo_to_quad (pos o CRAS_CH_FL) (pos o CRAS_CH_FR) (pos o CRAS_CH_RL)
                        (pos o CRAS_CH_RR) inp in_frames out
  | QUAD_TO_STEREO => s16_quad_to_stereo (pos i CRAS_CH_FL) (pos i CRAS_CH_FR) (pos i CRAS_CH_RL)
                        (pos i CRAS_CH_RR) inp in_frames out
  | DEFAULT_ALL_TO_ALL => s16_default_all_to_all o (num_channels i) (num_channels o) inp in_frames out
  | CONVERT_CHANNELS =>
      mtx ← fc_ch_conv_mtx conv;
      s16_convert_channels mtx (num_channels i) (num_channels o) inp in_frames out
  end.

(** [speex_resampler_process_interleaved_int] is given [n] frames and room for
    [m]: both must be there. *)
Definition run_speex (st : SpeexResamplerState) (channels n m : Z) (inp out : list Z)
  : option (SpeexResamplerState * Z * Z * list Z) :=
  if (n * channels <=? Z.of_nat (length inp)) && (m * channels <=? Z.of_nat (length out))
  then Some (speex_resampler_process st inp n out m) else None.

(** The counters of a call and the changing parts of the converter. *)
Record counts : Type := Counts {
  k_fr_in : Z; k_fr_out : Z; k_linear_resample_fr : Z;
  k_speex : option SpeexResamplerState; k_resampler : linear_resampler
}.

Definition pre_linear_step (conv : cras_fmt_conv) (out_frames : Z) (k : counts) (c : chain)
  : option (counts * chain) :=
  resample_limit ←
    (match fc_speex_state conv with
     | Some _ =>
         l ← udiv (u64 (u32 out_frames * frame_rate (fc_in_fmt conv))) (frame_rate (fc_out_fmt conv));
         Some (if u32 l =? 0 then 1 else u32 l)
     | None => Some (u32 out_frames)
     end);
  let resample_limit := u32 (cmin resample_limit (fc_tmp_buf_frames conv)) in
  '((n, fr, lr), c) ← step (fun src dst =>
       '(n, fr, dst, lr) ← linear_resampler_resample (k_resampler k) src (k_fr_in k) dst resample_limit;
       Some ((n, fr, lr), dst)) c;
  Some (Counts n (k_fr_out k) fr (k_speex k) lr, c).

Definition in_format_step (conv : cras_fmt_conv) (k : counts) (c : chain) : option (counts * chain) :=
  f ← fc_in_format_converter conv;
  '(_, c) ← step (fun src dst =>
       dst ← run_format_converter f (u64 (k_fr_in k * num_channels (fc_in_fmt conv))) src dst;
       Some ((), dst)) c;
  Some (k, c).

Definition channel_step (conv : cras_fmt_conv) (f : channel_converter) (k : counts) (c : chain)
  : option (counts * chain) :=
  '(_, c) ← step (on_s16 (run_channel_converter conv f (k_fr_in k))) c; Some (k, c).

Definition src_step (conv : cras_fmt_conv) (post : bool) (out_frames : Z) (sp : SpeexResamplerState)
    (k : counts) (c : chain) : option (counts * chain) :=
  out_limit ← (if post then linear_resampler_out_frames_to_in (k_resampler k) (u32 out_frames)
               else Some (u32 out_frames));
  fr_out ← cras_frames_at_rate (frame_rate (fc_in_fmt conv)) (k_fr_in k) (frame_rate (fc_out_fmt conv));
  let fr_out := cmin (u32 fr_out) out_limit in
  '((sp, fr_in, fr_out), c) ← step (on_s16 (fun inp out =>
       '(sp, n, m, out) ← run_speex sp (num_channels (fc_out_fmt conv)) (k_fr_in k) fr_out inp out;
       Some ((sp, n, m), out))) c;
  Some (Counts fr_in fr_out (k_linear_resample_fr k) (Some sp) (k_resampler k), c).

Definition post_linear_step (conv : cras_fmt_conv) (out_frames : Z) (k : counts) (c : chain)
  : option (counts * chain) :=
  let resample_limit := u32 (cmin (fc_tmp_buf_frames conv) out_frames) in
  '((n, fr, lr), c) ← step (fun src dst =>
       '(n, fr, dst, lr) ← linear_resampler_resample (k_resampler k) src (k_fr_out k) dst resample_limit;
       Some ((n, fr, lr), dst)) c;
  Some (Counts (k_fr_in k) n fr (k_speex k) lr, c).

Definition out_format_step (conv : cras_fmt_conv) (k : counts) (c : chain) : option (counts * chain) :=
  f ← fc_out_format_converter conv;
  '(_, c) ← step (fun src dst =>
       dst ← run_format_converter f (u64 (k_fr_out k * num_channels (fc_out_fmt conv))) src dst;
       Some ((), dst)) c;
  Some (k, c).

Definition when (b : bool) (f : counts -> chain -> option (counts * chain)) (kc : counts * chain)
  : option (counts * chain) := if b then f kc.1 kc.2 else Some kc.

(** The steps, on the counters and the chain. *)
Definition convert_chain (conv : cras_fmt_conv) (in_buf out_buf : list Z) (in_frames out_frames : Z)
  : option (counts * chain) :=
  let needed := linear_resampler_needed (fc_resampler conv) in
  let pre := needed && negb (fc_pre_linear_resample conv =? 0) in
  let post := needed && (fc_pre_linear_resample conv =? 0) in
  let fr_in := match fc_speex_state conv with
               | None => u32 (cmin in_frames out_frames) | Some _ => in_frames end in
  let used := u32 (fc_num_converters conv - c_bool (negb needed)) in
  let c := Chain in_buf out_buf (fc_tmp_bufs conv) (Z.to_nat used) 0 in
  kc ← when pre (pre_linear_step conv out_frames)
         (Counts fr_in fr_in 0 (fc_speex_state conv) (fc_resampler conv), c);
  kc ← when (negb (format (fc_in_fmt conv) =? SND_PCM_FORMAT_S16_LE)) (in_format_step conv) kc;
  kc ← match fc_channel_converter conv with
       | Some f => when true (channel_step conv f) kc | None => Some kc end;
  kc ← match fc_speex_state conv with
       | Some sp => when true (src_step conv post out_frames sp) kc | None => Some kc end;
  kc ← when post (post_linear_step conv out_frames) kc;
  when (negb (format (fc_out_fmt conv) =? SND_PCM_FORMAT_S16_LE)) (out_format_step conv) kc.

(** Returns the frames put in the output, [*in_frames], the output and the
    converter.  The assertions abort. *)
Definition cras_fmt_conv_convert_frames (conv : cras_fmt_conv) (in_buf out_buf : list Z)
    (in_frames out_frames : Z) : option (Z * Z * list Z * cras_fmt_conv) :=
  if in_frames >? fc_tmp_buf_frames conv then None else
  '(k, c) ← convert_chain conv in_buf out_buf in_frames out_frames;
  let pre := linear_resampler_needed (fc_resampler conv) && negb (fc_pre_linear_resample conv =? 0) in
  let used_in :=
    if pre then
      if bool_decide (is_Some (k_speex k)) && (k_fr_in k =? 0) then 0 else k_linear_resample_fr k
    else k_fr_in k in
  Some (k_fr_out k, used_in, ch_out c,
        set_resampler (k_resampler k) (set_run (k_speex k) (ch_tmps c) conv)).

Definition config_format_converter (env : conv_env) (dir : Z) (from to : cras_audio_format) (frames : Z)
  : option (Z * option cras_fmt_conv) :=
  let target := if dir =? CRAS_STREAM_INPUT
    then AudioFormat (format to) (frame_rate to) (num_channels from) (channel_layout from)
    else to in
  conv ← cras_fmt_conv_create env from target frames (c_bool (dir =? CRAS_STREAM_INPUT));
  Some (match conv with Some c => (0, Some c) | None => (- ENOMEM, None) end).
End Converter.

(** ** Every step is defined on buffers that are large enough *)

Lemma for_n_len {A} (n : Z) (body : Z -> list A -> option (list A)) (m : list A) :
  (forall i s, 0 <= i < n -> length s = length m ->
     exists s', body i s = Some s' /\ length s' = length s) ->
  exists m', for_n n body m = Some m' /\ length m' = length m.
Proof.
  intros Hb. unfold for_n.
  apply (for_loop_inv (fun _ s => length s = length m) (Z.to_nat n) 0 body m eq_refl).
  intros i s Hi Hs. destruct (Hb (Z.of_nat i) s) as (s' & ? & Hs'); [lia|done|].
  exists s'. split; [done|]. by rewrite Hs'.
Qed.

(** Runs the loads and stores of a loop body. *)
Ltac run_body :=
  repeat first [ rewrite ld_total by (rewrite ?length_insert; lia); bind
               | rewrite st_Some by (rewrite ?length_insert; lia); bind ];
  eexists; split; [reflexivity | by rewrite ?length_insert].

Lemma view_length (C : Codec) (m : list Z) :
  Z.of_nat (length (view C m)) = Z.of_nat (length m) / width.
Proof.
  unfold view. rewrite length_fmap, length_seq, Z2Nat.id; [done|].
  pose proof width_pos. apply Z.div_pos; lia.
Qed.

Lemma view_room (C : Codec) (m : list Z) (n : Z) :
  n * width <= Z.of_nat (length m) -> n <= Z.of_nat (length (view C m)).
Proof. intros Hn. rewrite view_length. pose proof width_pos. apply Z.div_le_lower_bound; lia. Qed.

Lemma view_s16 (m : list Z) : Forall is_s16 (view codec_s16 m).
Proof. apply Forall_fmap, Forall_true. intros i. apply s16_range. Qed.

Lemma put_length (C : Codec) (m vs : list Z) :
  Z.of_nat (length vs) = Z.of_nat (length m) / width -> length (put C m vs) = length m.
Proof.
  intros Hv. pose proof width_pos as Hw. unfold put. rewrite length_app, length_drop.
  assert (Hc : Z.of_nat (length (concat (encode <$> vs))) = Z.of_nat (length vs) * width).
  { clear Hv. induction vs as [|v vs IH]; [done|]. rewrite fmap_cons. cbn [concat length].
    rewrite length_app, Nat2Z.inj_add, IH, encode_width. lia. }
  pose proof (Z.mul_div_le (Z.of_nat (length m)) width Hw). nia.
Qed.

(** Bytes of the samples a converter reads and writes. *)
Definition in_width (f : sample_format_converter) : Z :=
  match f with
  | U8_TO_S16LE => 1 | S24LE_TO_S16LE | S32LE_TO_S16LE => 4 | S243LE_TO_S16LE => 3
  | _ => 2 end.
Definition out_width (f : sample_format_converter) : Z :=
  match f with
  | S16LE_TO_U8 => 1 | S16LE_TO_S24LE | S16LE_TO_S32LE => 4 | S16LE_TO_S243LE => 3
  | _ => 2 end.

Lemma convert_samples_ok (f : Z -> Z) (inp out : list Z) (n : Z) :
  n <= Z.of_nat (length inp) -> n <= Z.of_nat (length out) ->
  exists out', convert_samples f inp n out = Some out' /\ length out' = length out.
Proof. intros Hi Ho. apply for_n_len. intros i s Hn Hs. run_body. Qed.

Lemma run_format_converter_ok (f : sample_format_converter) (n : Z) (src dst : list Z) :
  n * in_width f <= Z.of_nat (length src) -> n * out_width f <= Z.of_nat (length dst) ->
  exists dst', run_format_converter f n src dst = Some dst' /\ length dst' = length dst.
Proof.
  intros Hs Hd.
  assert (Hput : forall (C : Codec) op, (exists v, op = Some v /\ length v = length (view C dst)) ->
    exists dst', put C dst <$> op = Some dst' /\ length dst' = length dst).
  { intros C op (v & -> & Hv). eexists. split; [done|]. apply put_length. by rewrite Hv, view_length. }
  destruct f; cbn [run_format_converter in_width out_width] in *;
    try (apply (Hput codec_s16)); try (apply (Hput codec_s32));
    try (apply convert_samples_ok; try (apply view_room; simpl width); lia).
  - unfold convert_s243le_to_s16le. pose proof (view_room codec_s16 dst n Hd). apply for_n_len.
    intros i s Hn Hl. run_body.
  - unfold convert_s16le_to_s243le. pose proof (view_room codec_s16 src n Hs). apply for_n_len.
    intros i s Hn Hl.
    rewrite st_Some by lia. bind. rewrite ld_total by lia. bind.
    rewrite st_Some by (rewrite length_insert; lia). bind.
    rewrite st_Some by (rewrite !length_insert; lia). bind.
    eexists. split; [done|]. by rewrite !length_insert.
Qed.

(** Coefficients of magnitude at most two: [1], [0] and the normalised ones. *)
Definition coef_small (c : spec_float) : bool :=
  is_fin c && SFleb (f32_of_Z (-2)) c && SFleb c (f32_of_Z 2).

Lemma multiply_small_step (c : spec_float) (sum x k : Z) :
  coef_small c = true -> is_s16 x -> 0 <= k <= 200 -> Z.abs sum <= k * 65536 ->
  exists v, f32_to_s32 (f32_add (f32_of_Z sum) (f32_mul c (f32_of_Z x))) = Some v /\
    Z.abs v <= (k + 1) * 65536.
Proof.
  intros Hc Hx Hk Hsum. unfold is_s16 in Hx. pose proof pw0_pos as H0.
  unfold coef_small in Hc. apply andb_true_iff in Hc as [[Hcf Hl]%andb_true_iff Hu].
  destruct (fval_of_Z 2) as [H2f H2v]; [done|]. destruct (fval_of_Z (-2)) as [Hm2f Hm2v]; [done|].
  rewrite leb_fval in Hl, Hu by done. apply Z.leb_le in Hl, Hu. rewrite Hm2v in Hl. rewrite H2v in Hu.
  destruct (fval_of_Z x) as [Hxf Hxv]; [unfold f32_exact; lia|].
  destruct (fval_of_Z sum) as [Hsf Hsv]; [unfold f32_exact; lia|].
  destruct (fval_of_Z 65536) as [Hbf Hbv]; [done|]. destruct (fval_of_Z (-65536)) as [Hnf Hnv]; [done|].
  assert (Hprod : Z.abs (fval c * (x * pw 0)) <= 65536 * pw 0 * pw 0).
  { rewrite !Z.abs_mul, (Z.abs_eq (pw 0)) by lia.
    assert (Z.abs (fval c) * Z.abs x <= 2 * pw 0 * 32768) by (apply Z.mul_le_mono_nonneg; lia). nia. }
  destruct (mul_rounds c (f32_of_Z x) Hcf Hxf) as [Htf Htb].
  { rewrite Hxv. pose proof (big_bound 65536 ltac:(done)). nia. }
  rewrite Hxv in Htb. set (t := f32_mul c (f32_of_Z x)) in *.
  assert (HT : Z.abs (fval t) <= 65536 * pw 0).
  { destruct (Htb _ Hbf) as [Hb1 _]. destruct (Htb _ Hnf) as [_ Hb2]. rewrite Hbv in Hb1. rewrite Hnv in Hb2. lia. }
  destruct (fval_of_Z ((k + 1) * 65536)) as [Hgf Hgv]; [unfold f32_exact; lia|].
  destruct (fval_of_Z (- ((k + 1) * 65536))) as [Hhf Hhv]; [unfold f32_exact; lia|].
  assert (Hsumb : Z.abs (sum * pw 0 + fval t) <= (k + 1) * 65536 * pw 0).
  { assert (Z.abs (sum * pw 0) <= k * 65536 * pw 0) by (rewrite Z.abs_mul, (Z.abs_eq (pw 0)) by lia; nia). lia. }
  destruct (add_rounds (f32_of_Z sum) t Hsf Htf) as [Hrf Hrb].
  { rewrite Hsv. pose proof (big_bound ((k + 1) * 65536)) as Hbig. specialize (Hbig ltac:(lia)). lia. }
  rewrite Hsv in Hrb. set (r := f32_add _ t) in *.
  assert (HR : - ((k + 1) * 65536) * pw 0 <= fval r <= (k + 1) * 65536 * pw 0).
  { destruct (Hrb _ Hgf) as [Hb1 _]. destruct (Hrb _ Hhf) as [_ Hb2]. rewrite Hgv in Hb1. rewrite Hhv in Hb2. lia. }
  exists (Z.quot (fval r) (pw 0)).
  assert (HQ : - ((k + 1) * 65536) <= Z.quot (fval r) (pw 0) <= (k + 1) * 65536).
  { by apply trunc_between. }
  split; [|lia]. unfold f32_to_s32. rewrite trunc_fval by done. bind. by zdecide.
Qed.

Lemma multiply_small (row : list spec_float) (inp : list Z) (base : Z) (size : nat) :
  forallb coef_small row = true -> (size <= length row)%nat -> (size <= 100)%nat -> Forall is_s16 inp ->
  0 <= base -> base + Z.of_nat size <= Z.of_nat (length inp) ->
  exists v, s16_multiply_buf_with_coef row inp base (Z.of_nat size) = Some v.
Proof.
  intros Hrow Hlen Hsz Hs Hb Hl. unfold s16_multiply_buf_with_coef, for_n. rewrite Nat2Z.id.
  destruct (for_loop_inv (fun k sum => Z.abs sum <= Z.of_nat k * 65536) size 0
    (fun i sum => c ← ld row i; x ← ld inp (base + i);
       f32_to_s32 (f32_add (f32_of_Z sum) (f32_mul c (f32_of_Z x)))) 0) as (v & -> & _).
  - done.
  - intros i sum Hi Hsum. destruct (lookup_lt_is_Some_2 row i) as [c Hc]; [lia|].
    rewrite (ld_Some _ _ _ Hc). bind. rewrite ld_total by lia. bind.
    replace (Z.of_nat (S i)) with (Z.of_nat i + 1) by lia.
    apply multiply_small_step; [|by apply zget_s16; [|lia]|lia|done].
    apply (forallb_forall coef_small row); [done|]. apply list_elem_of_In. by apply list_elem_of_lookup_2 in Hc.
  - bind. by eexists.
Qed.

Section Steps.
Context {P : pcm_library} {L : speex_library}.

(** What the choice of a channel converter promises. *)
Definition channel_ready (conv : cras_fmt_conv) (f : channel_converter) : Prop :=
  let ci := num_channels (fc_in_fmt conv) in let co := num_channels (fc_out_fmt conv) in
  match f with
  | MONO_TO_STEREO => ci = 1 /\ co = 2 | STEREO_TO_MONO => ci = 2 /\ co = 1
  | MONO_TO_51 => ci = 1 /\ co = 6 | STEREO_TO_51 => ci = 2 /\ co = 6
  | _51_TO_STEREO => ci = 6 /\ co = 2 | STEREO_TO_QUAD => ci = 2 /\ co = 4
  | QUAD_TO_STEREO => ci = 4 /\ co = 2 | DEFAULT_ALL_TO_ALL => True
  | CONVERT_CHANNELS => exists m, fc_ch_conv_mtx conv = Some m /\ matrix_dims m co ci /\
      Forall (fun row => forallb coef_small row = true) m
  end.

Lemma layout_position (fmt : cras_audio_format) (ch : Z) :
  layout_ok fmt -> 0 <= ch < CRAS_CH_MAX -> position (num_channels fmt) (u64 (layout_pos fmt ch)).
Proof.
  intros Hf Hch. pose proof (layout_pos_ok fmt ch Hf Hch) as Hp. destruct Hf as [? _].
  destruct (Z.eq_dec (layout_pos fmt ch) (-1)) as [->|]; [by left|right]. rewrite u64_small by lia. lia.
Qed.

Lemma mono_51_length l r c x : length (mono_51_frame l r c x) = 6%nat.
Proof. unfold mono_51_frame. repeat case_match; by rewrite ?length_insert. Qed.
Lemma stereo_51_length a b c x y : length (stereo_51_frame a b c x y) = 6%nat.
Proof. unfold stereo_51_frame. repeat case_match; by rewrite ?length_insert. Qed.
Lemma stereo_quad_length a b c d x y f : length f = 4%nat -> length (stereo_quad_frame a b c d x y f) = 4%nat.
Proof. intros Hf. unfold stereo_quad_frame, quad_frame. repeat case_match; by rewrite ?length_insert. Qed.

Lemma some_frames {A} (k n : nat) (g : nat -> list A -> list A) (m : list A) (r : Z) (op : option (Z * list A)) :
  op = Some (r, frames k n g m) -> (forall i b, length b = k -> length (g i b) = k) ->
  (k * n <= length m)%nat -> exists x out, op = Some (x, out) /\ length out = length m.
Proof. intros -> Hg Hm. eexists _, _. split; [done|]. by apply frames_length. Qed.

Lemma default_mixer_ok (o : cras_audio_format) (ci co n : Z) (inp out : list Z) :
  0 <= n -> 0 < ci -> 0 <= co -> n * ci <= Z.of_nat (length inp) -> n * co <= Z.of_nat (length out) ->
  Z.of_nat (length inp) < 4294967296 -> Z.of_nat (length out) < 4294967296 ->
  0 <= cras_get_format_bytes o -> n * cras_get_format_bytes o <= 2 * Z.of_nat (length out) ->
  exists x out', s16_default_all_to_all o ci co inp n out = Some (x, out') /\ length out' = length out.
Proof.
  intros Hn Hci Hco Hi Ho Hil Hol Hb0 Hb. unfold s16_default_all_to_all.
  rewrite u64_small by nia. set (bytes := n * cras_get_format_bytes o) in *.
  assert (Hms : exists m, memset_s16 out bytes = Some m /\ length m = length out).
  { unfold memset_s16. zdecide. assert (Hh : 0 <= bytes / 2) by (apply Z.div_pos; nia).
    assert (Hle : bytes / 2 <= Z.of_nat (length out)) by (apply Z.div_le_upper_bound; lia).
    assert (Hz : length (zeroed (Z.to_nat (bytes / 2)) out) = length out) by (apply zeroed_length; lia).
    destruct (Z.odd bytes) eqn:Hodd; [|by eexists].
    assert (bytes / 2 < Z.of_nat (length out)).
    { rewrite Zodd_mod in Hodd. apply Z.eqb_eq in Hodd. pose proof (Z.div_mod bytes 2 ltac:(lia)). lia. }
    rewrite ld_total by lia. bind. rewrite st_Some by lia. eexists. split; [done|]. by rewrite length_insert. }
  destruct Hms as (m & -> & Hm). bind.
  destruct (for_n_len co (fun out_ch out => for_n ci (fun in_ch out => for_n n (fun i out =>
     x ← ld inp (u64 (in_ch + i * ci)); old ← ld out (u64 (out_ch + i * co));
     v ← mix_term old x ci; st out (u64 (out_ch + i * co)) v) out) out) m) as (out' & -> & Hl).
  - intros a s1 Ha H1. apply for_n_len. intros b s2 Hb' H2. apply for_n_len. intros i s3 Hi' H3.
    assert (b + i * ci < n * ci) by nia. assert (a + i * co < n * co) by nia.
    rewrite !u64_small by nia. rewrite ld_total by nia. bind. rewrite ld_total by nia. bind.
    unfold mix_term. rewrite udiv_Some by lia. bind. rewrite st_Some by nia.
    eexists. split; [done|]. by rewrite length_insert.
  - bind. eexists _, _. split; [done|]. by rewrite Hl.
Qed.

Lemma run_channel_converter_ok (conv : cras_fmt_conv) (f : channel_converter) (n : Z) (inp out : list Z) :
  let i := fc_in_fmt conv in let o := fc_out_fmt conv in
  layout_ok i -> layout_ok o -> channel_ready conv f -> Forall is_s16 inp ->
  0 <= n -> 0 < num_channels i <= 100 ->
  n * num_channels i <= Z.of_nat (length inp) < 4294967296 ->
  n * num_channels o <= Z.of_nat (length out) < 4294967296 ->
  0 <= cras_get_format_bytes o -> n * cras_get_format_bytes o <= 2 * Z.of_nat (length out) ->
  exists x out', run_channel_converter conv f n inp out = Some (x, out') /\ length out' = length out.
Proof.
  intros i o Hi Ho Hf Hs Hn Hci Hinp Hout Hb0 Hb.
  pose proof (fun ch => layout_position i ch Hi) as Pi. pose proof (fun ch => layout_position o ch Ho) as Po.
  assert (Hfits : FmtConvOps.fits inp) by (unfold FmtConvOps.fits; lia).
  assert (Hol : Z.of_nat (length out) < 9223372036854775808) by lia.
  destruct f; cbn [run_channel_converter channel_ready] in *;
    try match type of Hf with _ = _ /\ _ => fold i o in Hf; destruct Hf as [Ei Eo]; rewrite Ei, Eo in * end;
    try (rewrite <- (Z2Nat.id n Hn)).
  - eapply some_frames; [apply mono_to_stereo_frames; lia|done|lia].
  - eapply some_frames; [apply stereo_to_mono_frames; done || lia|done|lia].
  - eapply some_frames; [apply mono_to_51_frames; (by apply Po) || lia || done|intros; apply mono_51_length|lia].
  - eapply some_frames; [apply stereo_to_51_frames; (by apply Po) || lia || done|intros; apply stereo_51_length|lia].
  - eapply some_frames; [apply s16_51_to_stereo_frames; lia || done|done|lia].
  - eapply some_frames; [apply stereo_to_quad_frames; (by apply Po) || lia || done|intros; by apply stereo_quad_length|lia].
  - eapply some_frames; [apply quad_to_stereo_frames; (by apply Pi) || lia || done| |lia].
    intros; by case_match.
  - rewrite Z2Nat.id by done. fold i o. destruct Ho as [? _]. apply default_mixer_ok; lia.
  - destruct Hf as (m & -> & [Hlen Hrows] & Hsmall). fold i o. fold i o in Hlen, Hrows. bind.
    assert (Hco : 0 <= num_channels o) by (destruct Ho as [? _]; lia).
    rewrite <- (Z2Nat.id (num_channels i)), <- (Z2Nat.id (num_channels o)) by lia.
    set (ci := Z.to_nat (num_channels i)). set (co := Z.to_nat (num_channels o)). set (k := Z.to_nat n).
    set (v := fun f a => default 0 (row ← ld m (Z.of_nat a);
      s16_multiply_buf_with_coef row inp (Z.of_nat (ci * f)) (Z.of_nat ci))).
    eapply some_frames; [apply (convert_channels_frames m inp out k ci co v)| |].
    + intros fr a Hfr Ha. destruct (lookup_lt_is_Some_2 m a) as [row Hrow]; [unfold co in *; lia|].
      exists row. unfold v. rewrite (ld_Some _ _ _ Hrow). bind. split; [done|].
      rewrite Forall_lookup in Hrows, Hsmall.
      destruct (multiply_small row inp (Z.of_nat (ci * fr)) ci) as (x & ->); [by eapply Hsmall| | |done|lia| |done].
      * specialize (Hrows _ _ Hrow). unfold ci. lia.
      * unfold ci. lia.
      * unfold ci, k in *. nia.
    + unfold ci, k. nia.
    + unfold co, k. nia.
    + unfold co, k. nia.
    + intros f b _. cbv beta. by rewrite length_fmap, length_seq.
    + unfold co, k. nia.
Qed.

(** ** The chain *)

(** [r] steps are to come; the [nt] temporaries have [cap] bytes, the output [lout]. *)
Record chain_ok (cap : Z) (nt : nat) (lout : Z) (c : chain) (r : nat) : Prop := {
  co_left : (ch_idx c + r = ch_used c)%nat;
  co_used : (ch_used c <= S nt)%nat;
  co_len : length (ch_tmps c) = nt;
  co_tmps : Forall (fun m : list Z => Z.of_nat (length m) = cap) (ch_tmps c);
  co_out : Z.of_nat (length (ch_out c)) = lout
}.

(** The size of what the next step writes. *)
Definition room (cap lout : Z) (r : nat) : Z := match r with O => lout | _ => cap end.

Lemma step_ok {A} (Q : A -> Prop) (op : list Z -> list Z -> option (A * list Z)) (cap : Z)
    (nt : nat) (lout : Z)
    (c : chain) (r : nat) :
  chain_ok cap nt lout c (S r) ->
  (forall d, Z.of_nat (length d) = room cap lout r ->
     exists x d', op (buffer c (ch_idx c)) d = Some (x, d') /\ length d' = length d /\ Q x) ->
  exists x c', step op c = Some (x, c') /\ Q x /\ chain_ok cap nt lout c' r /\
    Z.of_nat (length (buffer c' (ch_idx c'))) = room cap lout r.
Proof.
  intros [Hl Hu Hnt Ht Ho] Hop. unfold step.
  assert (Hdst : Z.of_nat (length (buffer c (S (ch_idx c)))) = room cap lout r).
  { unfold buffer, room. destruct r as [|r]; [by rewrite decide_True by lia|].
    rewrite decide_False by lia. destruct (lookup_lt_is_Some_2 (ch_tmps c) (ch_idx c)) as [m Hm]; [lia|].
    rewrite Hm. exact (Forall_lookup_1 _ _ _ _ Ht Hm). }
  destruct (Hop _ Hdst) as (x & d' & -> & Hd' & Hq). bind. exists x. eexists. split; [done|].
  split; [done|]. rewrite <- Hdst, <- Hd'. unfold set_buffer, buffer, room. destruct r as [|r].
  - rewrite decide_True by lia. cbn [ch_in ch_out ch_tmps ch_used ch_idx].
    rewrite decide_True by lia. split; [|done]. split; cbn; [lia|lia|done|done|]. by rewrite Hd', Hdst.
  - rewrite decide_False by lia. cbn [ch_in ch_out ch_tmps ch_used ch_idx]. rewrite decide_False by lia.
    rewrite list_lookup_insert_eq by lia. split; [|done].
    split; cbn; rewrite ?length_insert; [lia|lia|done| |done].
    apply Forall_insert; [done|]. by rewrite Hd', Hdst.
Qed.

Definition ready_converter (fmt : cras_audio_format) (f : option sample_format_converter)
    (into : bool) : Prop :=
  format fmt <> SND_PCM_FORMAT_S16_LE -> exists g, f = Some g /\
    cras_get_format_bytes fmt = (if into then in_width g else out_width g) * num_channels fmt /\
    (if into then out_width g else in_width g) = 2.

Definition conv_cap (conv : cras_fmt_conv) : Z :=
  fc_tmp_buf_frames conv * (4 * Z.max (num_channels (fc_in_fmt conv)) (num_channels (fc_out_fmt conv))).

Definition is_step {A} (o : option A) : nat := match o with Some _ => 1 | None => 0 end.
Definition format_step (fmt : cras_audio_format) : nat :=
  if format fmt =? SND_PCM_FORMAT_S16_LE then 0 else 1.
Definition steps (conv : cras_fmt_conv) : nat :=
  format_step (fc_in_fmt conv) + is_step (fc_channel_converter conv) + is_step (fc_speex_state conv) +
  format_step (fc_out_fmt conv).

(** A converter as it is created. *)
Record conv_ready (conv : cras_fmt_conv) : Prop := {
  cr_in : layout_ok (fc_in_fmt conv);
  cr_out : layout_ok (fc_out_fmt conv);
  cr_channels : 0 < num_channels (fc_in_fmt conv) <= 100 /\ 0 < num_channels (fc_out_fmt conv) <= 100;
  cr_in_bytes : cras_get_format_bytes (fc_in_fmt conv) <= 4 * num_channels (fc_in_fmt conv);
  cr_out_bytes : 0 <= cras_get_format_bytes (fc_out_fmt conv) <= 4 * num_channels (fc_out_fmt conv);
  cr_s16 : forall fmt, fmt = fc_in_fmt conv \/ fmt = fc_out_fmt conv ->
    format fmt = SND_PCM_FORMAT_S16_LE -> cras_get_format_bytes fmt = 2 * num_channels fmt;
  cr_in_converter : ready_converter (fc_in_fmt conv) (fc_in_format_converter conv) true;
  cr_out_converter : ready_converter (fc_out_fmt conv) (fc_out_format_converter conv) false;
  cr_channel : match fc_channel_converter conv with
    | Some f => channel_ready conv f
    | None => num_channels (fc_in_fmt conv) = num_channels (fc_out_fmt conv) end;
  cr_rate : 0 < frame_rate (fc_in_fmt conv);
  cr_num : fc_num_converters conv = Z.of_nat (steps conv) + 1;
  cr_bufs : length (fc_tmp_bufs conv) = steps conv;
  cr_caps : Forall (fun m : list Z => Z.of_nat (length m) = conv_cap conv) (fc_tmp_bufs conv);
  cr_frames : 0 <= fc_tmp_buf_frames conv /\ conv_cap conv < 4294967296
}.

(** ** One step at a time *)

Section OneStep.
Context (conv : cras_fmt_conv) (lout : Z).
Hypothesis ready : conv_ready conv.
Hypothesis lout_small : lout < 4294967296.
#[local] Abbreviation cap := (conv_cap conv).
#[local] Abbreviation nt := (steps conv).
#[local] Abbreviation ci := (num_channels (fc_in_fmt conv)).
#[local] Abbreviation co := (num_channels (fc_out_fmt conv)).

Definition readable (c : chain) (n : Z) : Prop := n <= Z.of_nat (length (buffer c (ch_idx c))) < 4294967296.

Lemma room_enough (n b : Z) (r : nat) :
  0 <= n <= fc_tmp_buf_frames conv -> 0 <= b <= 4 * Z.max ci co -> (r = 0%nat -> n * b <= lout) ->
  n * b <= room cap lout r.
Proof.
  intros Hn Hb Hl. destruct r as [|r]; [by apply Hl|]. cbn [room]. unfold conv_cap.
  apply Z.mul_le_mono_nonneg; lia.
Qed.

Lemma room_small (r : nat) : room cap lout r < 4294967296.
Proof. destruct ready. destruct r; cbn [room]; lia. Qed.

Lemma in_stage (k : counts) (c : chain) (r : nat) :
  chain_ok cap nt lout c (format_step (fc_in_fmt conv) + r) -> 0 <= k_fr_in k <= fc_tmp_buf_frames conv ->
  readable c (k_fr_in k * cras_get_format_bytes (fc_in_fmt conv)) ->
  k_fr_in k * (2 * ci) <= room cap lout r ->
  exists c', when (negb (format (fc_in_fmt conv) =? SND_PCM_FORMAT_S16_LE)) (in_format_step conv) (k, c)
      = Some (k, c') /\
    chain_ok cap nt lout c' r /\ readable c' (k_fr_in k * (2 * ci)).
Proof.
  intros Hc Hn Hr Hroom. pose proof ready as [].
  unfold format_step in Hc. destruct (Z.eqb_spec (format (fc_in_fmt conv)) SND_PCM_FORMAT_S16_LE) as [He|Hne].
  - exists c. split; [done|]. split; [done|]. rewrite (cr_s16 _ ready (fc_in_fmt conv)) in Hr by auto. done.
  - cbn [negb when fst snd]. unfold in_format_step.
    destruct (cr_in_converter0 Hne) as (g & -> & Hb & Hw). bind. rewrite Hb in Hr. unfold readable in Hr.
    destruct cr_frames0. rewrite u64_small by (unfold conv_cap in *; nia).
    destruct (step_ok (fun _ : unit => True) (fun src dst =>
       dst ← run_format_converter g (k_fr_in k * ci) src dst; Some ((), dst)) cap nt lout c r)
      as ([] & c' & -> & _ & Hc' & Hlen); [done| |].
    + intros d Hd. destruct (run_format_converter_ok g (k_fr_in k * ci) (buffer c (ch_idx c)) d)
        as (d' & -> & Hl); [lia|rewrite Hw; lia|]. bind. by exists (), d'.
    + bind. exists c'. split; [done|]. split; [done|]. unfold readable. rewrite Hlen. pose proof (room_small r). lia.
Qed.

Lemma channel_stage (k : counts) (c : chain) (r : nat) :
  chain_ok cap nt lout c (is_step (fc_channel_converter conv) + r) -> 0 <= k_fr_in k <= fc_tmp_buf_frames conv ->
  readable c (k_fr_in k * (2 * ci)) ->
  (r = 0%nat -> format (fc_out_fmt conv) = SND_PCM_FORMAT_S16_LE) ->
  k_fr_in k * (2 * co) <= room cap lout r ->
  exists c', match fc_channel_converter conv with
      | Some f => when true (channel_step conv f) (k, c) | None => Some (k, c) end = Some (k, c') /\
    chain_ok cap nt lout c' r /\ readable c' (k_fr_in k * (2 * co)).
Proof.
  intros Hc Hn Hr Hlast Hroom. pose proof ready as []. pose proof (room_small r) as Hrs.
  destruct (fc_channel_converter conv) as [f|] eqn:Ef; cbn [is_step] in Hc.
  2:{ exists c. split; [done|]. split; [done|]. by rewrite <- cr_channel0. }
  cbn [when fst snd]. unfold channel_step.
  destruct (step_ok (fun _ : Z => True) (on_s16 (run_channel_converter conv f (k_fr_in k))) cap nt lout c r)
    as (x & c' & -> & _ & Hc' & Hlen); [done| |].
  - intros d Hd. unfold on_s16.
    destruct (run_channel_converter_ok conv f (k_fr_in k) (view codec_s16 (buffer c (ch_idx c)))
                (view codec_s16 d)) as (y & d' & -> & Hl); try done; try lia.
    + apply view_s16.
    + split; [apply view_room; simpl width; unfold readable in Hr; lia|].
      rewrite view_length. simpl width. unfold readable in Hr. apply Z.div_lt_upper_bound; lia.
    + split; [apply view_room; simpl width; lia|].
      rewrite view_length. simpl width. apply Z.div_lt_upper_bound; lia.
    + rewrite view_length. simpl width. destruct r as [|r].
      * rewrite (cr_s16 _ ready (fc_out_fmt conv)) by auto.
        pose proof (Z.div_le_lower_bound (Z.of_nat (length d)) 2 (k_fr_in k * co)). lia.
      * cbn [room] in Hd. unfold conv_cap in Hd.
        assert (k_fr_in k * cras_get_format_bytes (fc_out_fmt conv) <= k_fr_in k * (4 * co)) by nia.
        assert (k_fr_in k * (2 * co) <= Z.of_nat (length d) / 2); [|nia].
        apply Z.div_le_lower_bound; [lia|]. rewrite Hd. nia.
    + bind. eexists _, _. split; [done|]. split; [|done]. apply put_length. by rewrite Hl, view_length.
  - bind. exists c'. split; [done|]. split; [done|]. unfold readable. lia.
Qed.

Lemma out_stage (k : counts) (c : chain) :
  chain_ok cap nt lout c (format_step (fc_out_fmt conv)) -> 0 <= k_fr_out k <= fc_tmp_buf_frames conv ->
  readable c (k_fr_out k * (2 * co)) ->
  (format (fc_out_fmt conv) <> SND_PCM_FORMAT_S16_LE ->
     k_fr_out k * cras_get_format_bytes (fc_out_fmt conv) <= lout) ->
  exists c', when (negb (format (fc_out_fmt conv) =? SND_PCM_FORMAT_S16_LE)) (out_format_step conv) (k, c)
      = Some (k, c') /\ chain_ok cap nt lout c' 0.
Proof.
  intros Hc Hn Hr Hroom. pose proof ready as []. unfold format_step in Hc.
  destruct (Z.eqb_spec (format (fc_out_fmt conv)) SND_PCM_FORMAT_S16_LE) as [He|Hne]; [by exists c|].
  cbn [negb when fst snd]. unfold out_format_step.
  destruct (cr_out_converter0 Hne) as (g & -> & Hb & Hw). bind. specialize (Hroom Hne). rewrite Hb in Hroom.
  unfold readable in Hr. destruct cr_frames0. rewrite u64_small by (unfold conv_cap in *; nia).
  destruct (step_ok (fun _ : unit => True) (fun src dst =>
     dst ← run_format_converter g (k_fr_out k * co) src dst; Some ((), dst)) cap nt lout c 0)
    as ([] & c' & -> & _ & Hc' & _); [done| |bind; by exists c'].
  intros d Hd. cbn [room] in Hd. destruct (run_format_converter_ok g (k_fr_out k * co) (buffer c (ch_idx c)) d)
    as (d' & -> & Hl); [rewrite Hw; lia|lia|]. bind. by exists (), d'.
Qed.

Lemma src_stage (k : counts) (c : chain) (r : nat) (out_frames : Z) :
  speex_documented L ->
  chain_ok cap nt lout c (is_step (fc_speex_state conv) + r) ->
  0 <= k_fr_in k <= fc_tmp_buf_frames conv -> 0 <= out_frames < 4294967296 ->
  readable c (k_fr_in k * (2 * co)) ->
  (fc_speex_state conv = None -> k_fr_out k = k_fr_in k /\ k_speex k = None) ->
  (fc_speex_state conv <> None -> out_frames * (2 * co) <= room cap lout r) ->
  exists k' c', match fc_speex_state conv with
      | Some sp => when true (src_step conv false out_frames sp) (k, c) | None => Some (k, c) end
      = Some (k', c') /\
    chain_ok cap nt lout c' r /\ readable c' (k_fr_out k' * (2 * co)) /\
    0 <= k_fr_in k' <= k_fr_in k /\ 0 <= k_fr_out k' /\
    (fc_speex_state conv = None -> k' = k) /\ (fc_speex_state conv <> None -> k_fr_out k' <= out_frames) /\
    k_resampler k' = k_resampler k /\ is_step (k_speex k') = is_step (fc_speex_state conv).
Proof.
  intros HL Hc Hn Ho Hr Hnone Hroom. pose proof ready as []. pose proof (room_small r) as Hrs.
  destruct (fc_speex_state conv) as [sp|] eqn:Esp; cbn [is_step] in Hc.
  2:{ destruct (Hnone eq_refl) as [E1 E2]. exists k, c. rewrite E1, E2. split_and!; done || lia. }
  specialize (Hroom ltac:(done)). cbn [when fst snd]. unfold src_step. bind.
  unfold cras_frames_at_rate. rewrite udiv_Some by lia. bind. rewrite (u32_small out_frames) by lia.
  set (fr_out := cmin (u32 _) out_frames).
  assert (Hfo : 0 <= fr_out <= out_frames).
  { unfold fr_out. rewrite cmin_min. pose proof (u32_range (u64 (u64 (u64 (k_fr_in k * frame_rate (fc_out_fmt conv)) +
      frame_rate (fc_in_fmt conv)) - 1) / frame_rate (fc_in_fmt conv))) as H. unfold is_u32 in H. lia. }
  unfold readable in Hr.
  destruct (step_ok (fun '(_, n, m) => 0 <= n <= k_fr_in k /\ 0 <= m <= fr_out)
    (on_s16 (fun inp out => '(sp, n, m, out) ← run_speex sp co (k_fr_in k) fr_out inp out;
       Some ((sp, n, m), out))) cap nt lout c r)
    as ([[sp' n] m] & c' & -> & [Hn' Hm'] & Hc' & Hlen); [done| |].
  - intros d Hd. unfold on_s16, run_speex.
    assert (H1 : k_fr_in k * co <= Z.of_nat (length (view codec_s16 (buffer c (ch_idx c))))).
    { apply view_room. simpl width. lia. }
    assert (H2 : fr_out * co <= Z.of_nat (length (view codec_s16 d))).
    { apply view_room. simpl width. nia. }
    zdecide. cbn [andb].
    pose proof (HL sp (view codec_s16 (buffer c (ch_idx c))) (k_fr_in k) (view codec_s16 d) fr_out
                  ltac:(lia) ltac:(lia)) as Hsp.
    destruct (speex_resampler_process _ _ _ _ _) as [[[sp'' n'] m'] out']. destruct Hsp as (? & ? & Hl & _).
    bind. eexists _, _. split; [done|]. split; [|lia]. apply put_length. by rewrite Hl, view_length.
  - bind. eexists _, c'. split; [done|]. cbn [k_fr_in k_fr_out k_resampler k_speex]. split_and!; try done; try lia.
    + unfold readable. rewrite Hlen. split; [|lia]. nia.
Qed.

Lemma convert_chain_ok (in_buf out_buf : list Z) (in_frames out_frames : Z) :
  speex_documented L -> linear_resampler_needed (fc_resampler conv) = false ->
  0 <= in_frames <= fc_tmp_buf_frames conv -> 0 <= out_frames <= fc_tmp_buf_frames conv ->
  in_frames * cras_get_format_bytes (fc_in_fmt conv) <= Z.of_nat (length in_buf) < 4294967296 ->
  out_frames * cras_get_format_bytes (fc_out_fmt conv) <= Z.of_nat (length out_buf) ->
  Z.of_nat (length out_buf) = lout ->
  exists k c, convert_chain conv in_buf out_buf in_frames out_frames = Some (k, c) /\
    chain_ok cap nt lout c 0 /\
    0 <= k_fr_in k <= in_frames /\ 0 <= k_fr_out k <= out_frames /\
    k_resampler k = fc_resampler conv /\ is_step (k_speex k) = is_step (fc_speex_state conv) /\
    (fc_speex_state conv = None -> k_fr_in k = Z.min in_frames out_frames /\ k_fr_out k = k_fr_in k).
Proof.
  intros HL Hneed Hin Hout Hib Hob Hlo. pose proof ready as [].
  unfold convert_chain. rewrite Hneed. cbn [andb negb c_bool].
  set (fr_in := match fc_speex_state conv with None => _ | Some _ => _ end).
  assert (Hfr : 0 <= fr_in <= in_frames /\
    (fc_speex_state conv = None -> fr_in = Z.min in_frames out_frames)).
  { destruct cr_frames0. unfold fr_in. destruct (fc_speex_state conv); [split; [lia|done]|].
    rewrite cmin_min, u32_small by (unfold conv_cap in *; nia). lia. }
  destruct Hfr as [Hfr Hmin].
  rewrite cr_num0, u32_small by (unfold steps, format_step, is_step; repeat case_match; lia).
  replace (Z.to_nat _) with (steps conv) by lia.
  set (c0 := Chain in_buf out_buf (fc_tmp_bufs conv) (steps conv) 0).
  set (k0 := Counts fr_in fr_in 0 (fc_speex_state conv) (fc_resampler conv)).
  assert (Hc0 : chain_ok cap nt lout c0 (format_step (fc_in_fmt conv) +
    (is_step (fc_channel_converter conv) + (is_step (fc_speex_state conv) + format_step (fc_out_fmt conv))))).
  { split; unfold c0; cbn; [unfold steps; lia|lia|done|done|done]. }
  assert (Hs16 : format_step (fc_out_fmt conv) = 0%nat -> cras_get_format_bytes (fc_out_fmt conv) = 2 * co).
  { intros H0. apply cr_s17; [by right|]. unfold format_step in H0.
    by destruct (Z.eqb_spec (format (fc_out_fmt conv)) SND_PCM_FORMAT_S16_LE). }
  assert (Hlast : (is_step (fc_speex_state conv) + format_step (fc_out_fmt conv))%nat = 0%nat ->
    fr_in <= out_frames /\ cras_get_format_bytes (fc_out_fmt conv) = 2 * co).
  { intros H0. split; [|apply Hs16; lia]. destruct (fc_speex_state conv); [done|]. rewrite Hmin by done. lia. }
  assert (Hnoch : is_step (fc_channel_converter conv) = 0%nat -> ci = co).
  { by destruct (fc_channel_converter conv). }
  change (when false ?f ?x) with (Some x). bind.
  destruct (in_stage k0 c0 _ Hc0) as (c1 & -> & Hc1 & Hr1).
  { cbn. lia. }
  { split; [|cbn; unfold buffer; case_decide; cbn; lia]. cbn. unfold buffer. cbn.
    case_decide as Hz; cbn; [|nia]. unfold steps in Hz. unfold format_step at 1 in Hz.
    destruct (Z.eqb_spec (format (fc_in_fmt conv)) SND_PCM_FORMAT_S16_LE) as [Hi|]; [|lia].
    rewrite (cr_s17 (fc_in_fmt conv)) by auto. rewrite Hnoch by lia.
    destruct Hlast as [Hle Hb]; [lia|]. rewrite Hb in Hob. nia. }
  { cbn. apply room_enough; [lia|lia|]. intros H0. rewrite Hnoch by lia. destruct Hlast as [Hle Hb]; [lia|].
    rewrite Hb in Hob. nia. }
  bind. destruct (channel_stage k0 c1 _ Hc1) as (c2 & -> & Hc2 & Hr2); [cbn; lia|done| | |].
  { intros H0. destruct (Z.eqb_spec (format (fc_out_fmt conv)) SND_PCM_FORMAT_S16_LE) as [|Hne]; [done|].
    exfalso. unfold format_step in H0. rewrite (proj2 (Z.eqb_neq _ _) Hne) in H0. lia. }
  { cbn. apply room_enough; [lia|lia|]. intros H0. destruct Hlast as [Hle Hb]; [lia|]. rewrite Hb in Hob. nia. }
  bind. destruct (src_stage k0 c2 _ out_frames HL Hc2) as
    (k3 & c3 & -> & Hc3 & Hr3 & Hin3 & Hout3 & Hsame & Hlim & Hres & Hsp); [cbn; lia| |done| | |].
  { destruct cr_frames0. unfold conv_cap in *. nia. }
  { intros Hn. cbn. by rewrite Hn. }
  { intros _. apply room_enough; [lia|lia|]. intros H0. rewrite <- (Hs16 H0). lia. }
  bind. change (when false ?f ?x) with (Some x). bind.
  assert (Hof : k_fr_out k3 <= out_frames).
  { destruct (fc_speex_state conv) eqn:E; [by apply Hlim|]. rewrite Hsame by done. cbn. rewrite Hmin by done. lia. }
  destruct (out_stage k3 c3 Hc3) as (c4 & -> & Hc4); [lia|done|intros _; nia|].
  exists k3, c4. split_and!; try done; try (cbn in *; lia). intros Hn. rewrite (Hsame Hn). cbn. by rewrite Hmin.
Qed.
End OneStep.

Lemma convert_frames_ok (conv : cras_fmt_conv) (in_buf out_buf : list Z) (in_frames out_frames : Z) :
  speex_documented L -> conv_ready conv -> linear_resampler_needed (fc_resampler conv) = false ->
  0 <= in_frames <= fc_tmp_buf_frames conv -> 0 <= out_frames <= fc_tmp_buf_frames conv ->
  in_frames * cras_get_format_bytes (fc_in_fmt conv) <= Z.of_nat (length in_buf) < 4294967296 ->
  out_frames * cras_get_format_bytes (fc_out_fmt conv) <= Z.of_nat (length out_buf) < 4294967296 ->
  exists n c out' conv',
    cras_fmt_conv_convert_frames conv in_buf out_buf in_frames out_frames = Some (n, c, out', conv') /\
    (exists k ch, convert_chain conv in_buf out_buf in_frames out_frames = Some (k, ch) /\
       ch_idx ch = ch_used ch) /\
    0 <= n <= out_frames /\ 0 <= c <= in_frames /\ length out' = length out_buf /\
    conv_ready conv' /\ (fc_speex_state conv = None -> n = Z.min in_frames out_frames /\ c = n).
Proof.
  intros HL Hc Hneed Hin Hout Hib Hob. unfold cras_fmt_conv_convert_frames. zdecide.
  destruct (convert_chain_ok conv (Z.of_nat (length out_buf)) Hc ltac:(lia) in_buf out_buf in_frames out_frames)
    as (k & ch & Hk & Hch & Hki & Hko & Hres & Hsp & Hmin); [done|done|lia|lia|lia|lia|done|].
  rewrite Hk. bind. rewrite Hneed. cbn [andb]. destruct Hch as [Hleft _ Hlen Hcap Hol].
  eexists _, _, _, _. split; [done|]. split_and!; try done; try lia.
  - exists k, ch. split; [done|]. lia.
  - rewrite Hres. destruct Hc. split; try done. cbn. rewrite cr_num0. unfold steps. cbn. by rewrite Hsp.
    + cbn. rewrite Hlen. unfold steps. cbn. by rewrite Hsp.
  - intros Hn. destruct (Hmin Hn). lia.
Qed.

(** ** The 5.1 downmix matrix has small coefficients *)

Definition mix_coefs : list spec_float :=
  [float_zero; float_one; f32_decimal 707 1000; f32_decimal 866 1000; f32_decimal 5 10].

(** A coefficient is at most twice its square, which is at most one. *)
Definition coef_square_ok (x : spec_float) : bool :=
  let q := f32_mul x x in
  is_fin x && is_fin q && (0 <=? fval x) && (0 <=? fval q) && (fval q <=? pw 0) &&
  (fval x <=? 2 * fval q) && coef_small x.

Lemma mix_coefs_ok (x : spec_float) : x ∈ mix_coefs -> coef_square_ok x = true.
Proof.
  intros Hx. assert (H : forallb coef_square_ok mix_coefs = true) by (by vm_compute).
  apply (forallb_forall coef_square_ok mix_coefs); [done|]. by apply list_elem_of_In.
Qed.

Lemma square_sum (buf : list spec_float) :
  length buf = 6%nat -> Forall (fun x => x ∈ mix_coefs) buf ->
  exists s, for_n 6 (fun i sum => x ← ld buf i; Some (f32_add sum (f32_mul x x))) float_zero = Some s /\
    is_fin s = true /\ 0 <= fval s /\ Forall (fun x => fval x <= 2 * fval s) buf.
Proof.
  intros Hlen Hbuf. pose proof pw0_pos as H0. unfold for_n.
  destruct (for_loop_inv (fun k s => is_fin s = true /\ 0 <= fval s <= Z.of_nat k * pw 0 /\
      Forall (fun x => fval x <= 2 * fval s) (take k buf)) (Z.to_nat 6) 0
    (fun i sum => x ← ld buf i; Some (f32_add sum (f32_mul x x))) float_zero) as (s & Hs & Hf & Hb & Hall).
  - split; [done|]. cbn. split; [lia|constructor].
  - intros k s Hk (Hf & Hb & Hall). destruct (lookup_lt_is_Some_2 buf k) as [x Hx]; [lia|].
    rewrite (ld_Some _ _ _ Hx). bind. eexists. split; [done|].
    pose proof (mix_coefs_ok x (Forall_lookup_1 _ _ _ _ Hbuf Hx)) as Hok. unfold coef_square_ok in Hok.
    rewrite !andb_true_iff, !Z.leb_le in Hok. destruct Hok as [[[[[[Hxf Hqf] Hx0] Hq0] Hq1] Hx2] _].
    set (q := f32_mul x x) in *.
    pose proof (big_bound (Z.of_nat k + 1) ltac:(lia)) as Hbig.
    destruct (add_rounds s q Hf Hqf) as [Hrf Hrb]; [lia|].
    destruct (Hrb _ Hf) as [_ Hge1]. destruct (Hrb _ Hqf) as [_ Hge2].
    destruct (fval_of_Z (Z.of_nat k + 1)) as [Hgf Hgv]; [unfold f32_exact; lia|].
    destruct (Hrb _ Hgf) as [Hle _]. rewrite Hgv in Hle.
    split; [done|]. split; [lia|]. rewrite (take_S_r _ _ _ Hx). apply Forall_app. split.
    + eapply Forall_impl; [exact Hall|]. intros y Hy. cbn in Hy. lia.
    + repeat constructor. lia.
  - exists s. split; [done|]. split; [done|]. split; [lia|].
    rewrite Nat.add_0_l, take_ge in Hall by (rewrite Hlen; lia). done.
Qed.

Lemma normalize_small (buf : list spec_float) :
  length buf = 6%nat -> Forall (fun x => x ∈ mix_coefs) buf ->
  exists buf', normalize_buf buf 6 = Some buf' /\ length buf' = 6%nat /\
    forallb coef_small buf' = true.
Proof.
  intros Hlen Hbuf. pose proof pw0_pos as H0. unfold normalize_buf.
  destruct (square_sum buf Hlen Hbuf) as (s & -> & Hf & Hs0 & Hall). bind.
  destruct (SFeqb s float_zero) eqn:Hz.
  { exists buf. split_and!; [done|done|]. apply forallb_forall. intros x Hx%list_elem_of_In.
    rewrite Forall_forall in Hbuf. specialize (Hbuf x Hx). apply mix_coefs_ok in Hbuf.
    unfold coef_square_ok in Hbuf. by apply andb_true_iff in Hbuf as [_ ?]. }
  assert (Hspos : 0 < fval s).
  { unfold SFeqb in Hz. rewrite compare_fval in Hz by done. change (fval float_zero) with 0 in Hz.
    destruct (Z.compare_spec (fval s) 0); [done|lia|lia]. }
  unfold for_n.
  destruct (for_loop_inv (fun k b => length b = 6%nat /\ forallb coef_small (take k b) = true /\
      drop k b = drop k buf) (Z.to_nat 6) 0 (fun i b => x ← ld b i; st b i (f32_div x s)) buf)
    as (b & Hb & Hbl & Hsm & _).
  - done.
  - intros k b Hk (Hbl & Hsm & Hrest).
    assert (Hbk : b !! k = buf !! k).
    { pose proof (f_equal (fun l => l !! 0%nat) Hrest) as H. rewrite !lookup_drop in H.
      by rewrite Nat.add_0_r in H. }
    destruct (lookup_lt_is_Some_2 buf k) as [x Hx]; [lia|]. rewrite Hx in Hbk.
    rewrite (ld_Some _ _ _ Hbk). bind. rewrite st_Some by lia. eexists. split; [done|].
    rewrite Nat2Z.id, length_insert. split; [done|]. split.
    + rewrite (take_S_r _ _ (f32_div x s)) by (by rewrite list_lookup_insert_eq by lia).
      rewrite take_insert_ge, forallb_app, Hsm by lia. cbn [forallb]. rewrite andb_true_r. cbn [andb].
      pose proof (Forall_lookup_1 _ _ _ _ Hall Hx) as Hx2. cbn in Hx2.
      pose proof (mix_coefs_ok x (Forall_lookup_1 _ _ _ _ Hbuf Hx)) as Hok. unfold coef_square_ok in Hok.
      rewrite !andb_true_iff, !Z.leb_le in Hok. destruct Hok as [[[[[[Hxf _] Hx0] _] _] _] _].
      destruct (div_rounds x s Hxf Hf Hx0 Hspos) as [Hdf Hdb].
      { pose proof (big_bound 2 ltac:(done)). nia. }
      destruct (fval_of_Z 2) as [H2f H2v]; [done|]. destruct (fval_of_Z (-2)) as [Hm2f Hm2v]; [done|].
      destruct (Hdb _ H2f) as [Hu _]. destruct (Hdb _ Hm2f) as [_ Hl]. rewrite H2v in Hu. rewrite Hm2v in Hl.
      unfold coef_small. rewrite Hdf, !leb_fval, H2v, Hm2v by done. cbn [andb].
      apply andb_true_iff. rewrite !Z.leb_le. split; [apply Hl; nia|apply Hu; nia].
    + rewrite drop_insert_lt by lia.
      pose proof (f_equal (drop 1) Hrest) as H. rewrite !drop_drop in H.
      by replace (k + 1)%nat with (S k) in H by lia.
  - rewrite Hb. exists b. split_and!; [done|done|]. by rewrite Nat.add_0_l, take_ge in Hsm by (rewrite Hbl; lia).
Qed.

Definition mtx_coefs (m : matrix) : Prop :=
  matrix_dims m 2 6 /\ Forall (fun row => Forall (fun x => x ∈ mix_coefs) row) m.

Lemma mtx_set_coefs (m : matrix) (o i : Z) (v : spec_float) :
  mtx_coefs m -> 0 <= o < 2 -> 0 <= i < 6 -> v ∈ mix_coefs ->
  exists m', mtx_set (Some m) o i v = Some (Some m') /\ mtx_coefs m'.
Proof.
  intros [[Hl Hd] Hm] Ho Hi Hv. unfold mtx_set. bind.
  destruct (lookup_lt_is_Some_2 m (Z.to_nat o)) as [row Hrow]; [lia|].
  replace o with (Z.of_nat (Z.to_nat o)) by lia. rewrite (ld_Some _ _ _ Hrow). bind.
  pose proof (Forall_lookup_1 _ _ _ _ Hd Hrow) as Hrl. cbn in Hrl.
  pose proof (Forall_lookup_1 _ _ _ _ Hm Hrow) as Hrm. cbn in Hrm.
  rewrite st_Some by lia. bind. rewrite st_Some by lia. eexists. split; [done|].
  split; [split|]; rewrite ?length_insert; [done|..].
  - apply Forall_insert; [done|]. by rewrite length_insert.
  - apply Forall_insert; [done|]. by apply Forall_insert.
Qed.

Lemma surround51_ok (m : matrix) (layout : Z -> Z) :
  mtx_coefs m -> (forall ch, 0 <= ch < CRAS_CH_MAX -> -1 <= layout ch < 6) ->
  exists m', surround51_to_stereo_downmix_mtx (Some m) layout = Some (Some m') /\
    matrix_dims m' 2 6 /\ Forall (fun row => forallb coef_small row = true) m'.
Proof.
  intros Hm Hlay. unfold surround51_to_stereo_downmix_mtx. cbv beta zeta.
  assert (Hset : forall m o ch v, mtx_coefs m -> 0 <= o < 2 -> 0 <= ch < CRAS_CH_MAX ->
    layout ch <> -1 -> v ∈ mix_coefs ->
    exists m', mtx_set (Some m) o (layout ch) v = Some (Some m') /\ mtx_coefs m').
  { intros m1 o ch v H1 Ho Hch Hne Hv. specialize (Hlay ch Hch). apply mtx_set_coefs; done || lia. }
  assert (Hpos : forall (b : bool) (f : option (option matrix)) m1, mtx_coefs m1 ->
    (b = true -> exists m', f = Some (Some m') /\ mtx_coefs m') ->
    exists m', (if b then f else Some (Some m1)) = Some (Some m') /\ mtx_coefs m').
  { intros [] f m1 H1 Hf; [by apply Hf|by exists m1]. }
  assert (Hc : float_one ∈ mix_coefs /\ f32_decimal 707 1000 ∈ mix_coefs /\
    f32_decimal 866 1000 ∈ mix_coefs /\ f32_decimal 5 10 ∈ mix_coefs) by (unfold mix_coefs; set_solver).
  destruct Hc as (C1 & C7 & C8 & C5).
  assert (Hset2 : forall m ch1 v1 ch2 v2, mtx_coefs m ->
    0 <= ch1 < CRAS_CH_MAX -> 0 <= ch2 < CRAS_CH_MAX -> layout ch1 <> -1 -> layout ch2 <> -1 ->
    v1 ∈ mix_coefs -> v2 ∈ mix_coefs ->
    exists m', (m1 ← mtx_set (Some m) STEREO_L (layout ch1) v1; mtx_set m1 STEREO_R (layout ch2) v2)
      = Some (Some m') /\ mtx_coefs m').
  { intros m0 ch1 v1 ch2 v2 H0 Hc1 Hc2 Hn1 Hn2 Hv1 Hv2. unfold STEREO_L, STEREO_R.
    destruct (Hset m0 0 ch1 v1 H0) as (m1 & -> & H1); [lia|done..|]. bind. by apply Hset; [|lia|..]. }
  match goal with |- context [if ?b then ?f else Some (Some m)] =>
    destruct (Hpos b f m Hm) as (m1 & -> & H1) end.
  { intros Hb%negb_true_iff%Z.eqb_neq. by apply Hset2. }
  bind. match goal with |- context [if ?b then ?f else Some (Some m1)] =>
    destruct (Hpos b f m1 H1) as (m2 & -> & H2) end.
  { intros [Ha%negb_true_iff%Z.eqb_neq Hb%negb_true_iff%Z.eqb_neq]%andb_true_iff. by apply Hset2. }
  bind. match goal with |- context [if ?b then ?f else Some (Some m2)] =>
    destruct (Hpos b f m2 H2) as (m3 & -> & H3) end.
  { intros [Ha%negb_true_iff%Z.eqb_neq Hb%negb_true_iff%Z.eqb_neq]%andb_true_iff. by apply Hset2. }
  bind. match goal with |- context [if ?b then ?f else Some (Some m3)] =>
    destruct (Hpos b f m3 H3) as (m4 & -> & H4) end.
  { intros [Ha%negb_true_iff%Z.eqb_neq Hb%negb_true_iff%Z.eqb_neq]%andb_true_iff. unfold STEREO_L, STEREO_R.
    destruct (Hset m3 0 CRAS_CH_RL (f32_decimal 866 1000)) as (n1 & -> & N1); [done|lia|done..|]. bind.
    destruct (Hset n1 1 CRAS_CH_RL (f32_decimal 5 10)) as (n2 & -> & N2); [done|lia|done..|]. bind.
    destruct (Hset n2 1 CRAS_CH_RR (f32_decimal 866 1000)) as (n3 & -> & N3); [done|lia|done..|]. bind.
    apply Hset; [done|lia|done..]. }
  bind. match goal with |- context [if ?b then ?f else Some (Some m4)] =>
    destruct (Hpos b f m4 H4) as (m5 & -> & H5) end.
  { intros Hb%negb_true_iff%Z.eqb_neq. by apply Hset2. }
  bind. destruct H5 as [[Hl Hd] Hall].
  destruct m5 as [|l [|r [|]]]; try (cbn in Hl; lia).
  apply Forall_cons in Hd as [Hdl Hd]. apply Forall_cons in Hd as [Hdr _].
  apply Forall_cons in Hall as [Hal Hall]. apply Forall_cons in Hall as [Har _].
  destruct (normalize_small l) as (l' & El & Hl' & Hsl); [lia|done|].
  destruct (normalize_small r) as (r' & Er & Hr' & Hsr); [lia|done|].
  change (ld [l; r] STEREO_L) with (Some l). bind. rewrite El. bind.
  change (st [l; r] STEREO_L l') with (Some [l'; r]). bind.
  change (ld [l'; r] STEREO_R) with (Some r). bind. rewrite Er. bind.
  exists [l'; r']. split; [done|]. split; [split; [done|]; repeat constructor; lia|]. by repeat constructor.
Qed.

(** ** What is created is ready *)

Lemma maps_small (i o : cras_audio_format) (m : matrix) :
  0 <= num_channels i -> matrix_maps i o CHANNELS m ->
  Forall (fun row => forallb coef_small row = true) m.
Proof.
  intros Hi [[Hl Hd] He]. apply Forall_lookup. intros a row Hrow. apply forallb_forall.
  intros x [b Hx]%list_elem_of_In%list_elem_of_lookup.
  pose proof (Forall_lookup_1 _ _ _ _ Hd Hrow) as Hrl. cbn in Hrl.
  apply lookup_lt_Some in Hrow as Ha. apply lookup_lt_Some in Hx as Hb.
  assert (Hent : entry m (Z.of_nat a) (Z.of_nat b) = Some x).
  { unfold entry. rewrite (ld_Some _ _ _ Hrow). cbn [mbind option_bind]. by apply ld_Some. }
  destruct (He (Z.of_nat a) (Z.of_nat b)) as [[E _]|[E _]]; [lia|lia|..];
    rewrite Hent in E; injection E as ->; by vm_compute.
Qed.

(** A choice that is right for the converter it is put into. *)
Definition choice_ok (i o : cras_audio_format)
    (r : option (option channel_converter * option matrix)) : Prop :=
  forall f mtx conv, r = Some (f, mtx) ->
    fc_in_fmt conv = i -> fc_out_fmt conv = o -> fc_ch_conv_mtx conv = mtx ->
    match f with Some f => channel_ready conv f | None => num_channels i = num_channels o end.

Lemma choice_matrix (i o : cras_audio_format) (m : matrix) :
  matrix_dims m (num_channels o) (num_channels i) ->
  Forall (fun row => forallb coef_small row = true) m ->
  choice_ok i o (Some (Some CONVERT_CHANNELS, Some m)).
Proof.
  intros Hd Hs f mtx conv [= <- <-] E1 E2 E3. exists m. by rewrite E1, E2.
Qed.

Lemma downmix_choice (i o : cras_audio_format) :
  layout_ok i -> num_channels i = 6 -> num_channels o = 2 ->
  exists m, surround51_to_stereo_downmix_mtx (Some (replicate 2 (replicate 6 float_zero))) (layout_pos i)
      = Some (Some m) /\ choice_ok i o (Some (Some CONVERT_CHANNELS, Some m)).
Proof.
  intros Hi Ei Eo.
  destruct (surround51_ok (replicate 2 (replicate 6 float_zero)) (layout_pos i)) as (m & Hm & Hd & Hs).
  - split; [split; [done|by repeat constructor]|].
    apply Forall_replicate, Forall_replicate. unfold mix_coefs. set_solver.
  - intros ch Hch. pose proof (layout_pos_ok i ch Hi Hch). lia.
  - exists m. split; [done|]. apply choice_matrix; [by rewrite Ei, Eo|done].
Qed.

Lemma choose_channel_ok (i o : cras_audio_format) :
  layout_ok i -> layout_ok o ->
  exists r, choose_channel_converter true i o = Some r /\ choice_ok i o r.
Proof.
  intros Hi Ho. unfold choose_channel_converter.
  destruct (Z.eqb_spec (num_channels i) (num_channels o)) as [Heq|Hne]; cbn [negb].
  - destruct (_ && negb _); [|eexists; split; [done|]; by intros f mtx conv [= <- <-]].
    pose proof (conv_matrix_spec i o Hi Ho) as Hspec.
    destruct (cras_channel_conv_matrix_create true i o) as [[m|]|];
      [|by eexists; split; [done|]; intros f mtx conv [=]|done].
    cbn [mbind option_bind]. eexists. split; [done|]. destruct Hspec as [Hm _].
    apply choice_matrix; [apply Hm|]. destruct Hi as [? _]. apply (maps_small i o); [lia|done].
  - destruct ((num_channels i =? 6) && (num_channels o =? 2)) eqn:E62.
    { apply andb_true_iff in E62 as [Ei%Z.eqb_eq Eo%Z.eqb_eq]. rewrite Ei, Eo. cbn [Z.eqb andb Pos.eqb].
      destruct (existsb _ _); [|eexists; split; [done|]; by intros f mtx conv [= <- <-] E1 E2 _; cbn; rewrite E1, E2].
      destruct (downmix_choice i o Hi Ei Eo) as (m & Hm & Hc).
      change (cras_channel_conv_matrix_alloc true 6 2) with (Some (replicate 2 (replicate 6 float_zero))).
      exists (Some (Some CONVERT_CHANNELS, Some m)). split; [|done].
      exact (f_equal (fun x => x ≫= (fun m => Some (Some (Some CONVERT_CHANNELS, m)))) Hm). }
    repeat case_match; eexists; (split; [done|]); intros f mtx conv [= <- <-] E1 E2 _; cbn;
      rewrite ?E1, ?E2; try done;
      match goal with H : (_ =? _) && (_ =? _) = true |- _ =>
        apply andb_true_iff in H as [?%Z.eqb_eq ?%Z.eqb_eq]; done end.
Qed.

(** Memory of the size that was asked for. *)
Definition env_good (env : conv_env) : Prop :=
  env_matrix env = true /\
  forall i size m, env_malloc env i size = Some m -> Z.of_nat (length m) = size.

Lemma alloc_tmp_bufs_ok (env : conv_env) (n : nat) (i size : Z) (bufs : list (list Z)) :
  env_good env -> alloc_tmp_bufs env n i size = Some bufs ->
  length bufs = n /\ Forall (fun m : list Z => Z.of_nat (length m) = size) bufs.
Proof.
  intros [_ Henv]. revert i bufs. induction n as [|n IH]; intros i bufs; cbn; [by intros [= <-]|].
  destruct (env_malloc env i size) as [m|] eqn:Hm; [|done]. cbn [mbind option_bind].
  destruct (alloc_tmp_bufs env n (i + 1) size) as [ms|] eqn:Hms; [|done]. cbn [mbind option_bind].
  intros [= <-]. destruct (IH _ _ Hms) as [<- Hall]. split; [done|]. constructor; [by eapply Henv|done].
Qed.

(** The rates are given as [float]s, and their hundredfold fits. *)
Lemma rate_times_100 (rate : Z) :
  0 < rate < 16777216 ->
  exists v, f32_to_u32 (f32_mul (f32_of_Z rate) (f32_of_Z 100)) = Some v.
Proof.
  intros Hr. pose proof pw0_pos as H0.
  destruct (fval_of_Z rate) as [Hf Hv]; [unfold f32_exact; lia|]. destruct (fval_of_Z 100) as [H1f H1v]; [done|].
  destruct (mul_rounds (f32_of_Z rate) (f32_of_Z 100) Hf H1f) as [Hrf Hrb].
  { rewrite Hv, H1v. pose proof (big_bound (rate * 100) ltac:(lia)). nia. }
  rewrite Hv, H1v in Hrb. destruct float_powers as (_ & H31 & _).
  destruct (Hrb float_2_31 eq_refl) as [Hu _]. destruct (Hrb float_zero eq_refl) as [_ Hl].
  change (fval float_zero) with 0 in Hl. rewrite H31 in Hu.
  unfold f32_to_u32. rewrite trunc_fval by done. cbn [mbind option_bind].
  assert (Hb : 0 <= Z.quot (fval (f32_mul (f32_of_Z rate) (f32_of_Z 100))) (pw 0) <= 2147483648).
  { apply trunc_between. split; [apply Hl; nia|apply Hu; nia]. }
  zdecide. by eexists.
Qed.

Lemma format_bytes_of (fmt : cras_audio_format) (w : Z) :
  snd_pcm_format_physical_width (format fmt) = 8 * w -> 0 <= w <= 4 -> 0 < num_channels fmt <= 100 ->
  cras_get_format_bytes fmt = w * num_channels fmt.
Proof.
  intros Hw Hb Hch. unfold cras_get_format_bytes. rewrite Hw, (Z.mul_comm 8 w), Z.quot_mul by lia.
  rewrite (u64_small w) by lia. apply u64_small. nia.
Qed.

Lemma supported_bytes (fmt : cras_audio_format) (into : bool) :
  pcm_documented P -> is_supported_format fmt = true -> 0 < num_channels fmt <= 100 ->
  0 <= cras_get_format_bytes fmt <= 4 * num_channels fmt /\
  (format fmt = SND_PCM_FORMAT_S16_LE -> cras_get_format_bytes fmt = 2 * num_channels fmt) /\
  ready_converter fmt (if negb (format fmt =? SND_PCM_FORMAT_S16_LE)
    then (if into then choose_in_converter else choose_out_converter) (format fmt) else None) into.
Proof.
  intros [W8 W16 W243 W24 W32 Hother] Hs Hch. unfold is_supported_format in Hs.
  rewrite !orb_true_iff, !Z.eqb_eq in Hs.
  assert (H243 : SND_PCM_FORMAT_S24_3LE <> 1 /\ SND_PCM_FORMAT_S24_3LE <> 2 /\ SND_PCM_FORMAT_S24_3LE <> 6 /\
    SND_PCM_FORMAT_S24_3LE <> 10).
  { unfold SND_PCM_FORMAT_U8, SND_PCM_FORMAT_S16_LE, SND_PCM_FORMAT_S24_LE, SND_PCM_FORMAT_S32_LE in Hother. set_solver. }
  unfold ready_converter, choose_in_converter, choose_out_converter.
  unfold SND_PCM_FORMAT_U8, SND_PCM_FORMAT_S16_LE, SND_PCM_FORMAT_S24_LE, SND_PCM_FORMAT_S32_LE in *.
  assert (Hw : forall w, snd_pcm_format_physical_width (format fmt) = 8 * w -> 0 <= w <= 4 ->
    cras_get_format_bytes fmt = w * num_channels fmt /\ 0 <= cras_get_format_bytes fmt <= 4 * num_channels fmt).
  { intros w H1 H2. rewrite (format_bytes_of fmt w) by done. split; [done|nia]. }
  destruct Hs as [[[[Hf | Hf] | Hf] | Hf] | Hf]; rewrite Hf in Hw |- *;
    first [ destruct (Hw 1 W8 ltac:(lia)) as [Eb Hb] | destruct (Hw 2 W16 ltac:(lia)) as [Eb Hb]
          | destruct (Hw 3 W243 ltac:(lia)) as [Eb Hb] | destruct (Hw 4 W24 ltac:(lia)) as [Eb Hb]
          | destruct (Hw 4 W32 ltac:(lia)) as [Eb Hb] ];
    (split; [done|]); (split; [intros; lia|]); intros Hne; try lia;
    destruct into; cbv beta; zdecide; cbn [negb]; eexists; (split; [done|]); cbn [in_width out_width]; lia.
Qed.

(** Created with equal rates: it resamples nothing. *)
Lemma resampler_created (calloc_ok : bool) (channels bytes rate : Z) :
  0 < rate < 16777216 ->
  exists r, linear_resampler_create calloc_ok channels bytes (f32_of_Z rate) (f32_of_Z rate) = Some r /\
    match r with Some lr => linear_resampler_needed lr = false | None => calloc_ok = false end.
Proof.
  intros Hr. unfold linear_resampler_create. destruct calloc_ok; [|by eexists].
  unfold linear_resampler_set_rates. destruct (rate_times_100 rate Hr) as [v ->]. bind.
  eexists. split; [done|]. unfold linear_resampler_needed. cbn. by rewrite Z.eqb_refl.
Qed.

(** What the creation is given. *)
Record creation_ok (env : conv_env) (i o : cras_audio_format) (max_frames : Z) : Prop := {
  ca_pcm : pcm_documented P;
  ca_env : env_good env;
  ca_in : layout_ok i;
  ca_out : layout_ok o;
  ca_channels : 0 < num_channels i <= 100 /\ 0 < num_channels o <= 100;
  ca_rates : 0 < frame_rate i < 16777216 /\ 0 < frame_rate o < 16777216;
  ca_frames : 0 <= max_frames /\
    max_frames * (4 * Z.max (num_channels i) (num_channels o)) < 4294967296
}.

Lemma tmp_size (i o : cras_audio_format) (max_frames : Z) :
  0 < num_channels i <= 100 -> 0 < num_channels o <= 100 -> 0 <= max_frames ->
  max_frames * (4 * Z.max (num_channels i) (num_channels o)) < 4294967296 ->
  u64 (u64 (max_frames * 4) * cmax (num_channels i) (num_channels o)) =
  max_frames * (4 * Z.max (num_channels i) (num_channels o)).
Proof. intros Hi Ho Hf Hm. rewrite cmax_max, (u64_small (max_frames * 4)) by nia. rewrite u64_small; nia. Qed.

(** Every converter that is returned is ready and made for what was asked. *)
Definition created (i o : cras_audio_format) (max_frames pre : Z) (conv : cras_fmt_conv) : Prop :=
  conv_ready conv /\ linear_resampler_needed (fc_resampler conv) = false /\
  fc_in_fmt conv = i /\ fc_out_fmt conv = o /\ fc_tmp_buf_frames conv = max_frames /\
  fc_pre_linear_resample conv = pre /\
  (fc_speex_state conv = None <-> frame_rate i = frame_rate o).

Lemma destroy_null (m : option matrix) (o : cras_audio_format) : cras_fmt_conv_destroy m o = Some None.
Proof. by destruct m. Qed.

Lemma created_ready (env : conv_env) (i o : cras_audio_format) (max_frames pre : Z) (conv : cras_fmt_conv) :
  creation_ok env i o max_frames ->
  is_supported_format i = true -> is_supported_format o = true ->
  fc_in_fmt conv = i -> fc_out_fmt conv = o ->
  fc_tmp_buf_frames conv = max_frames -> fc_pre_linear_resample conv = pre ->
  choice_ok i o (Some (fc_channel_converter conv, fc_ch_conv_mtx conv)) ->
  fc_in_format_converter conv =
    (if negb (format i =? SND_PCM_FORMAT_S16_LE) then choose_in_converter (format i) else None) ->
  fc_out_format_converter conv =
    (if negb (format o =? SND_PCM_FORMAT_S16_LE) then choose_out_converter (format o) else None) ->
  linear_resampler_needed (fc_resampler conv) = false ->
  is_step (fc_speex_state conv) = (if frame_rate i =? frame_rate o then 0%nat else 1%nat) ->
  fc_num_converters conv = Z.of_nat (steps conv) + 1 ->
  alloc_tmp_bufs env (Z.to_nat (fc_num_converters conv - 1)) 0
    (u64 (u64 (max_frames * 4) * cmax (num_channels i) (num_channels o))) = Some (fc_tmp_bufs conv) ->
  created i o max_frames pre conv.
Proof.
  intros [Hpcm Henv Hi Ho [Hci Hco] [Hri Hro] [Hf0 Hf]] Hsi Hso Ei Eo Et Ep Hch Ein Eout Hneed Hsp Hnum Hal.
  destruct (supported_bytes i true Hpcm Hsi Hci) as (Bi & Si & Ri).
  destruct (supported_bytes o false Hpcm Hso Hco) as (Bo & So & Ro).
  destruct (alloc_tmp_bufs_ok _ _ _ _ _ Henv Hal) as [Hlen Hall].
  assert (Hcap : conv_cap conv = max_frames * (4 * Z.max (num_channels i) (num_channels o))).
  { unfold conv_cap. by rewrite Et, Ei, Eo. }
  assert (Hspeex : fc_speex_state conv = None <-> frame_rate i = frame_rate o).
  { destruct (fc_speex_state conv), (Z.eqb_spec (frame_rate i) (frame_rate o)); cbn in Hsp; done || lia. }
  specialize (Hch _ _ conv eq_refl Ei Eo eq_refl).
  unfold created. split_and!; try done. split; rewrite ?Ei, ?Eo, ?Et; try done; try lia.
  - by intros fmt [-> | ->].
  - by rewrite Ein.
  - by rewrite Eout.
  - rewrite tmp_size in Hall by done. by rewrite Hcap.
Qed.

Lemma create_created (env : conv_env) (i o : cras_audio_format) (max_frames pre : Z) :
  creation_ok env i o max_frames ->
  exists r, cras_fmt_conv_create env i o max_frames pre = Some r /\
    match r with Some conv => created i o max_frames pre conv | None => True end.
Proof.
  intros Hc. pose proof Hc as [_ Henv Hi Ho _ [_ Hro] _]. unfold cras_fmt_conv_create.
  destruct (env_calloc env); cbn [negb]; [|by eexists].
  destruct (is_supported_format i) eqn:Hsi; cbn [negb]; [|by eexists].
  destruct (is_supported_format o) eqn:Hso; cbn [negb]; [|by eexists].
  destruct Henv as [Hm Henv]. rewrite Hm.
  destruct (choose_channel_ok i o Hi Ho) as (ch & -> & Hch). bind.
  destruct ch as [[channel mtx]|]; [|rewrite destroy_null; by eexists].
  set (speex := if negb (frame_rate i =? frame_rate o) then _ else _).
  destruct (negb (frame_rate i =? frame_rate o) && negb (bool_decide (is_Some speex))) eqn:Hsp;
    [rewrite destroy_null; by eexists|].
  destruct (resampler_created (env_resampler env) (u32 (num_channels o)) (u32 (cras_get_format_bytes o))
              (frame_rate o) Hro) as (lr & -> & Hlr). bind.
  destruct lr as [lr|]; [|rewrite destroy_null; by eexists].
  set (num := _ + 1). destruct (alloc_tmp_bufs env _ 0 _) as [bufs|] eqn:Hal; [|rewrite destroy_null; by eexists].
  assert (Hb : forall b, 0 <= c_bool b <= 1) by (by intros []).
  assert (Hn : num <= 5).
  { unfold num. assert (H4 : forall a b c d, c_bool a + c_bool b + c_bool c + c_bool d + 1 <= 5); [|apply H4].
    intros a b c d. pose proof (Hb a). pose proof (Hb b). pose proof (Hb c). pose proof (Hb d). lia. }
  unfold MAX_NUM_CONVERTERS. zdecide.
  eexists. split; [done|]. eapply created_ready; try done.
  - cbn. unfold speex in *. destruct (Z.eqb_spec (frame_rate i) (frame_rate o)); [done|]. cbn in Hsp.
    apply negb_false_iff, bool_decide_eq_true in Hsp as [x Hx]. cbn. by rewrite Hx.
  - change (num = Z.of_nat (format_step i + is_step channel + is_step speex + format_step o) + 1).
    assert (Hfmt : forall fmt, c_bool (negb (format fmt =? SND_PCM_FORMAT_S16_LE)) = Z.of_nat (format_step fmt)).
    { intros fmt. unfold format_step. by destruct (format fmt =? _). }
    assert (Hstep : forall {A} (x : option A), c_bool (bool_decide (is_Some x)) = Z.of_nat (is_step x)).
    { by intros A []. }
    assert (Hsrc : c_bool (negb (frame_rate i =? frame_rate o)) = Z.of_nat (is_step speex)).
    { rewrite <- Hstep. unfold speex in *. destruct (Z.eqb_spec (frame_rate i) (frame_rate o)); [done|].
      cbn [negb andb] in *. apply negb_false_iff in Hsp. by rewrite Hsp. }
    unfold num. rewrite !Hfmt, Hstep, Hsrc. lia.
Qed.
End Steps.

(** ** Creating and running a converter *)

(** Claim C25: for documented formats of at most a hundred channels
    [cras_fmt_conv_create] is defined, and returns [NULL] or a converter that
    is ready for those formats: its matrix has the dimensions and the small
    coefficients the channel step relies on, each temporary holds a full call
    in either channel count, the steps counted are the steps that run, the
    resampler is there exactly when the rates differ, and nothing is linearly
    resampled yet. *)
Theorem converter_created {P : pcm_library} {L : speex_library} (env : conv_env)
    (i o : cras_audio_format) (max_frames pre : Z) :
  creation_ok env i o max_frames ->
  exists r, cras_fmt_conv_create env i o max_frames pre = Some r /\
    match r with Some conv => created i o max_frames pre conv | None => True end.
Proof. apply create_created. Qed.


(** When the frames only pass through the linear resampler, before
    the other steps (a capture stream), the number returned is that of the
    frames offered, not the number [n] the resampler put in the output. *)
Theorem pre_resample_count {P : pcm_library} {L : speex_library} (conv : cras_fmt_conv)
    (in_buf out_buf : list Z) (in_frames out_frames n fr : Z) (out' : list Z) (lr' : linear_resampler) :
  fc_num_converters conv = 1 -> fc_channel_converter conv = None -> fc_speex_state conv = None ->
  format (fc_in_fmt conv) = SND_PCM_FORMAT_S16_LE -> format (fc_out_fmt conv) = SND_PCM_FORMAT_S16_LE ->
  linear_resampler_needed (fc_resampler conv) = true -> fc_pre_linear_resample conv <> 0 ->
  0 <= in_frames <= fc_tmp_buf_frames conv -> fc_tmp_buf_frames conv < 4294967296 ->
  0 <= out_frames < 4294967296 ->
  linear_resampler_resample (fc_resampler conv) in_buf (Z.min in_frames out_frames) out_buf
    (Z.min out_frames (fc_tmp_buf_frames conv)) = Some (n, fr, out', lr') ->
  exists conv', cras_fmt_conv_convert_frames conv in_buf out_buf in_frames out_frames =
    Some (Z.min in_frames out_frames, fr, out', conv').
Proof.
  intros Hnum Hch Hsp Hfi Hfo Hneed Hpre Hin Htmp Hout Hres.
  unfold cras_fmt_conv_convert_frames, convert_chain. zdecide.
  rewrite Hnum, Hch, Hsp, Hneed.
  rewrite cmin_min, (u32_small (Z.min in_frames out_frames)) by lia. cbn [andb negb when fst snd].
  unfold pre_linear_step. rewrite Hsp. bind. rewrite (u32_small out_frames), cmin_min, u32_small by lia.
  unfold step, buffer. cbn [ch_idx ch_used ch_out ch_in k_fr_in k_resampler].
  change (Z.to_nat (u32 (1 - c_bool false))) with 1%nat. cbn [decide].
  rewrite decide_False, decide_True by done. rewrite Hres. bind.
  unfold set_buffer. cbn [ch_idx ch_used ch_out]. rewrite decide_True by done. cbn [k_speex k_linear_resample_fr].
  by eexists.
Qed.

(** *** Examples *)

(** A resampler that processes what it can and writes silence. *)
#[local] Instance speex_example : speex_library := {|
  SpeexResamplerState := unit;
  speex_resampler_init _ _ _ _ := Some ();
  speex_resampler_process st inp n out m := (st, Z.min n m, Z.min n m, replicate (length out) 0)
|}.

Lemma speex_example_documented : speex_documented speex_example.
Proof.
  intros st inp n out m Hn Hm. cbn. rewrite length_replicate. split_and!; [lia..|done|].
  by apply Forall_replicate.
Qed.

#[local] Existing Instance alsa_example.

Definition mono_u8 : cras_audio_format :=
  AudioFormat SND_PCM_FORMAT_U8 44100 1 (default_layout 1).
Definition stereo_s16 (rate : Z) : cras_audio_format :=
  AudioFormat SND_PCM_FORMAT_S16_LE rate 2 (default_layout 2).
Definition env_example : conv_env :=
  ConvEnv true true true (fun _ size => if size <? 0 then None else Some (replicate (Z.to_nat size) 0)).

Lemma creation_example : creation_ok env_example mono_u8 (stereo_s16 48000) 8.
Proof.
  split; try (cbn; lia).
  - exact alsa_example_documented.
  - split; [done|]. intros i size m. cbn. destruct (Z.ltb_spec size 0); [done|]. intros [= <-].
    rewrite length_replicate. lia.
  - by apply default_layout_ok.
  - by apply default_layout_ok.
Qed.

Definition conv_example : option (option cras_fmt_conv) :=
  cras_fmt_conv_create env_example mono_u8 (stereo_s16 48000) 8 0.

(** Three steps and their two temporaries. *)
Lemma conv_example_value :
  exists conv, conv_example = Some (Some conv) /\ fc_num_converters conv = 4 /\
    fc_in_format_converter conv = Some U8_TO_S16LE /\ fc_channel_converter conv = Some MONO_TO_STEREO /\
    length (fc_tmp_bufs conv) = 3%nat.
Proof. eexists. split; [by vm_compute|]. done. Qed.

Lemma converter_created_witness :
  exists conv, conv_example = Some (Some conv) /\ created mono_u8 (stereo_s16 48000) 8 0 conv.
Proof.
  destruct (converter_created env_example mono_u8 (stereo_s16 48000) 8 0 creation_example) as (r & E & H).
  destruct conv_example_value as (conv & E' & _). unfold conv_example in *. rewrite E in E'.
  destruct r as [c|]; [|exact (False_ind _ (eq_ind (Some None)
    (fun x => match x with Some None => True | _ => False end) I _ E'))].
  exact (ex_intro _ c (conj E H)).
Defined.


(** A capture stream for a device whose clock runs at half the nominal rate:
    five frames are written and two of the three offered are reported. *)
Definition capture_example : cras_fmt_conv :=
  {| fc_speex_state := None; fc_channel_converter := None; fc_ch_conv_mtx := None;
     fc_in_format_converter := None; fc_out_format_converter := None;
     fc_resampler := lr_example; fc_in_fmt := stereo_s16 48000; fc_out_fmt := stereo_s16 48000;
     fc_tmp_bufs := []; fc_tmp_buf_frames := 8; fc_pre_linear_resample := 1; fc_num_converters := 1 |}.

Lemma capture_resamples :
  exists out' lr',
    linear_resampler_resample lr_example frames_example 3 (replicate 20 0) 5 = Some (5, 3, out', lr').
Proof. eexists _, _. by vm_compute. Qed.

Lemma pre_resample_count_witness :
  exists out' lr' conv',
    linear_resampler_resample lr_example frames_example 3 (replicate 20 0) 5 = Some (5, 3, out', lr') /\
    cras_fmt_conv_convert_frames capture_example frames_example (replicate 20 0) 3 5 = Some (3, 3, out', conv').
Proof.
  destruct capture_resamples as (out' & lr' & E). exists out', lr'.
  destruct (pre_resample_count capture_example frames_example (replicate 20 0) 3 5 5 3 out' lr'
    eq_refl eq_refl eq_refl eq_refl eq_refl) as [conv' Hc].
  - by vm_compute.
  - discriminate.
  - cbn; lia.
  - cbn; lia.
  - lia.
  - exact E.
  - exists conv'. split; [exact E|exact Hc].
Defined.
