(* ===== verification/Volume.v ===== *)
(** * Volume curves and software volume (server/cras_volume_curve.c,
    softvol_curve.c and .h)

    A curve gives the attenuation of a volume index, in hundredths of a
    decibel; the scalers of software volume come from a table, or are built
    from a device's curve.  [expf] is the C library's.  [long] and [size_t]
    have 64 bits: the stepped curve's subtraction wraps. *)
From S2P Require Import Prelude Float32 FmtConv.
#[local] Open Scope Z_scope.

Definition MAX_VOLUME : Z := 100.
Definition NUM_VOLUME_STEPS : Z := 101.

Record stepped_curve : Type := SteppedCurve { sc_max_vol : Z; sc_step : Z }.
Record explicit_curve : Type := ExplicitCurve { ec_dB_values : list Z }.

Definition get_dBFS_step (c : stepped_curve) (volume : Z) : Z :=
  s64 (sc_max_vol c - u64 (sc_step c * u64 (MAX_VOLUME - volume))).

Definition get_dBFS_explicit (c : explicit_curve) (volume : Z) : option Z :=
  ec_dB_values c !! Z.to_nat (cmin MAX_VOLUME (cmax 0 volume)).

(** A curve is its function, with its data. *)
Definition cras_volume_curve : Type := Z -> option Z.

Definition cras_volume_curve_create_simple_step (max_volume volume_step : Z) : cras_volume_curve :=
  fun volume => Some (get_dBFS_step (SteppedCurve max_volume volume_step) volume).
Definition cras_volume_curve_create_default : cras_volume_curve :=
  cras_volume_curve_create_simple_step 0 50.
Definition cras_volume_curve_create_explicit (dB_values : list Z) : cras_volume_curve :=
  get_dBFS_explicit (ExplicitCurve dB_values).

(** Millionths, as the table writes them. *)
Definition softvol_scalers : list spec_float :=
  (fun n => f32_decimal n 1000000) <$> [
    3162; 3350; 3548; 3758; 3981; 4217; 4467; 4732; 5012; 5309; 5623; 5957; 6310; 6683; 7079;
    7499; 7943; 8414; 8913; 9441; 10000; 10593; 11220; 11885; 12589; 13335; 14125; 14962; 15849;
    16788; 17783; 18836; 19953; 21135; 22387; 23714; 25119; 26607; 28184; 29854; 31623; 33497;
    35481; 37584; 39811; 42170; 44668; 47315; 50119; 53088; 56234; 59566; 63096; 66834; 70795;
    74989; 79433; 84140; 89125; 94406; 100000; 105925; 112202; 118850; 125893; 133352; 141254;
    149624; 158489; 167880; 177828; 188365; 199526; 211349; 223872; 237137; 251189; 266073;
    281838; 298538; 316228; 334965; 354813; 375837; 398107; 421697; 446684; 473151; 501187;
    530884; 562341; 595662; 630957; 668344; 707946; 749894; 794328; 841395; 891251; 944061;
    1000000
  ].

(** Reading outside the table is undefined. *)
Definition softvol_get_scaler (volume_index : Z) : option spec_float :=
  softvol_scalers !! Z.to_nat volume_index.

(** The C library's [expf]. *)
Class libm : Type := expf : spec_float -> spec_float.

Section Softvol.
Context {M : libm}.

(** [LOG_10 * dBFS / 2000] is computed in [double] and passed as [float]. *)
Definition convert_softvol_scaler_from_dB (dBFS : Z) : spec_float :=
  expf (f32_of_f64 (f64_div (f64_mul (f64_ratio 2302585 1000000) (f64_of_Z dBFS)) (f64_of_Z 2000))).

(** The limits of a scaler: 1.0, and 1e-7 against silence. *)
Definition clip_scaler (s : spec_float) : spec_float :=
  if SFltb (f64_of_Z 1) (f64_of_f32 s) then float_one
  else if SFltb (f64_of_f32 s) (f64_ratio 1 10000000) then f32_decimal 1 10000000
  else s.

Fixpoint build_scalers (curve : cras_volume_curve) (n : nat) (volume : Z) : option (list spec_float) :=
  match n with
  | O => Some []
  | S n =>
      dB ← curve volume;
      rest ← build_scalers curve n (volume + 1);
      Some (clip_scaler (convert_softvol_scaler_from_dB dB) :: rest)
  end.

(** The inner [None] is [NULL]: no curve, or no memory. *)
Definition softvol_build_from_curve (malloc_ok : bool) (curve : option cras_volume_curve)
  : option (option (list spec_float)) :=
  match curve with
  | None => Some None
  | Some c =>
      if malloc_ok then Some <$> build_scalers c (Z.to_nat NUM_VOLUME_STEPS) 0 else Some None
  end.
End Softvol.

(** ** Scalers of volumes *)

(** Neighbours of the table ascend. *)
Fixpoint ascending (l : list spec_float) : bool :=
  match l with
  | a :: l' => match l' with b :: _ => SFltb a b && ascending l' | [] => true end
  | [] => true
  end.

Definition positive_float (s : spec_float) : bool :=
  match s with S754_finite false _ _ => true | _ => false end.

Lemma softvol_table :
  length softvol_scalers = 101%nat /\ ascending softvol_scalers = true /\
  forallb positive_float softvol_scalers = true /\ last softvol_scalers = Some float_one.
Proof. vm_compute. done. Qed.

Lemma ascending_lookup (l : list spec_float) (v : nat) (a b : spec_float) :
  ascending l = true -> l !! v = Some a -> l !! S v = Some b -> SFltb a b = true.
Proof.
  revert v. induction l as [|x l IH]; intros v Hl Ha Hb; [done|]. destruct l as [|y l].
  { by destruct v. }
  apply andb_true_iff in Hl as [Hxy Hl]. destruct v as [|v].
  - injection Ha as <-. by injection Hb as <-.
  - by apply (IH v).
Qed.

Section Build.
Context {M : libm}.
Hypothesis expf_number : forall x, expf x <> S754_nan.

(** A scaler neither silences nor amplifies. *)
Definition scaler_in_range (s : spec_float) : Prop :=
  s <> S754_nan /\ SFltb (f64_of_Z 1) (f64_of_f32 s) = false /\
  SFltb (f64_of_f32 s) (f64_ratio 1 10000000) = false.

Lemma clip_scaler_range (s : spec_float) : s <> S754_nan -> scaler_in_range (clip_scaler s).
Proof.
  intros Hs. unfold clip_scaler, scaler_in_range.
  destruct (SFltb (f64_of_Z 1) (f64_of_f32 s)) eqn:H1; [vm_compute; split_and!; done|].
  destruct (SFltb (f64_of_f32 s) _) eqn:H2; [vm_compute; split_and!; done|done].
Qed.

Lemma build_scalers_range (curve : cras_volume_curve) (n : nat) (volume : Z) :
  (forall v, volume <= v < volume + Z.of_nat n -> is_Some (curve v)) ->
  exists l, build_scalers curve n volume = Some l /\ length l = n /\ Forall scaler_in_range l.
Proof.
  revert volume. induction n as [|n IH]; intros volume Hc; [by exists []|].
  destruct (Hc volume ltac:(lia)) as [dB HdB].
  destruct (IH (volume + 1)) as (l & Hl & Hlen & Hall); [intros v Hv; apply Hc; lia|].
  exists (clip_scaler (convert_softvol_scaler_from_dB dB) :: l). simpl. rewrite HdB. simpl.
  rewrite Hl. split_and!; [done|simpl; lia|]. constructor; [|done]. apply clip_scaler_range, expf_number.
Qed.

End Build.

(** A stand-in for [expf]: one over one minus the exponent. *)
#[local] Instance expf_example : libm := fun x =>
  match f32_div float_one (f32_sub float_one x) with S754_nan => float_one | s => s end.

