(* ===== verification/Rstream.v ===== *)
(** * Streams (server/cras_rstream.c and .h, server/cras_rstream_config.c)

    A stream of a client: its parameters, the audio shared memory, the offsets
    of the devices it is attached to, and the protocol of requests and replies
    on its socket.

    What the operating system answers is an argument: the results of the shared
    memory calls ([shm_env]), of [write] and [read] (a count, or a negative
    [errno]), the clock, and what [realloc] leaves in new memory ([fresh]).
    [rs_apm_list] is the handle of the audio processing list, which only the
    server's WebRTC wrapper looks into. *)
From S2P Require Import Prelude Arrays Float32 Types Timespec BufferShare Shm AudioFormat AudioArea.
#[local] Open Scope Z_scope.

Definition CRAS_MAX_BUFFER_TIME_IN_S : Z := 10.
Definition CRAS_MIN_BUFFER_TIME_IN_US : Z := 1000.

Record cras_rstream_config : Type := RstreamConfig {
  rc_stream_id : Z;
  rc_stream_type : Z;
  rc_client_type : Z;
  rc_direction : Z;
  rc_dev_idx : Z;
  rc_flags : Z;
  rc_effects : Z;
  rc_format : option cras_audio_format;
  rc_buffer_frames : Z;
  rc_cb_threshold : Z;
  rc_audio_fd : Z;
  rc_client_shm_fd : Z;
  rc_client_shm_size : Z;
  rc_buffer_offsets : buf2 Z;
  rc_client : Z
}.

(** The fds move into the configuration: the caller's are left at -1. *)
Definition cras_rstream_config_init (client stream_id stream_type client_type direction dev_idx
    flags effects : Z) (fmt : option cras_audio_format) (buffer_frames cb_threshold : Z)
    (audio_fd client_shm_fd client_shm_size : Z) (buffer_offsets : buf2 Z)
  : cras_rstream_config * (Z * Z) :=
  (RstreamConfig stream_id stream_type client_type direction dev_idx flags effects fmt
     buffer_frames cb_threshold audio_fd client_shm_fd client_shm_size
     (Buf2 (u32 (buf_a buffer_offsets)) (u32 (buf_b buffer_offsets))) client, (-1, -1)).

Record cras_connect_message : Type := ConnectMessage {
  cm_stream_id : Z;
  cm_stream_type : Z;
  cm_client_type : Z;
  cm_direction : Z;
  cm_dev_idx : Z;
  cm_flags : Z;
  cm_effects : Z;
  cm_buffer_frames : Z;
  cm_cb_threshold : Z;
  cm_format : cras_audio_format_packed;
  cm_client_shm_size : Z;
  cm_buffer_offsets : buf2 Z
}.

Definition cras_rstream_config_init_with_message (client : Z) (msg : cras_connect_message)
    (aud_fd client_shm_fd : Z) (remote_fmt : cras_audio_format)
  : cras_rstream_config * (Z * Z) :=
  cras_rstream_config_init client (cm_stream_id msg) (cm_stream_type msg) (cm_client_type msg)
    (cm_direction msg) (cm_dev_idx msg) (cm_flags msg) (cm_effects msg) (Some remote_fmt)
    (cm_buffer_frames msg) (cm_cb_threshold msg) aud_fd client_shm_fd (cm_client_shm_size msg)
    (cm_buffer_offsets msg).

(** The descriptors it closes. *)
Definition cras_rstream_config_cleanup (c : cras_rstream_config) : list Z :=
  filter (fun fd => 0 <= fd) [rc_audio_fd c; rc_client_shm_fd c].

Record master_dev_info : Type := MasterDev { md_dev_id : Z; md_dev_ptr : Z }.

Record cras_rstream : Type := Rstream {
  rs_stream_id : Z;
  rs_stream_type : Z;
  rs_client_type : Z;
  rs_direction : Z;
  rs_flags : Z;
  rs_fd : Z;
  rs_buffer_frames : Z;
  rs_cb_threshold : Z;
  rs_is_draining : Z;
  rs_master_dev : master_dev_info;
  rs_client : Z;
  rs_shm : cras_audio_shm;
  rs_audio_area : cras_audio_area;
  rs_format : cras_audio_format;
  rs_next_cb_ts : timespec;
  rs_sleep_interval_ts : timespec;
  rs_last_fetch_ts : timespec;
  rs_longest_fetch_interval : timespec;
  rs_start_ts : timespec;
  rs_first_missed_cb_ts : timespec;
  rs_buf_state : buffer_share;
  rs_apm_list : Z;
  rs_num_attached_devs : Z;
  rs_num_missed_cb : Z;
  rs_queued_frames : Z;
  rs_is_pinned : bool;
  rs_pinned_dev_idx : Z;
  rs_triggered : Z
}.

(** Assignments to one field. *)
Definition set_rs_is_draining (v : _) (s : cras_rstream) : cras_rstream :=
  Rstream (rs_stream_id s) (rs_stream_type s) (rs_client_type s) (rs_direction s) (rs_flags s)
    (rs_fd s) (rs_buffer_frames s) (rs_cb_threshold s) v (rs_master_dev s) (rs_client s) (rs_shm
    s) (rs_audio_area s) (rs_format s) (rs_next_cb_ts s) (rs_sleep_interval_ts s)
    (rs_last_fetch_ts s) (rs_longest_fetch_interval s) (rs_start_ts s) (rs_first_missed_cb_ts s)
    (rs_buf_state s) (rs_apm_list s) (rs_num_attached_devs s) (rs_num_missed_cb s)
    (rs_queued_frames s) (rs_is_pinned s) (rs_pinned_dev_idx s) (rs_triggered s).
Definition set_rs_master_dev (v : _) (s : cras_rstream) : cras_rstream :=
  Rstream (rs_stream_id s) (rs_stream_type s) (rs_client_type s) (rs_direction s) (rs_flags s)
    (rs_fd s) (rs_buffer_frames s) (rs_cb_threshold s) (rs_is_draining s) v (rs_client s)
    (rs_shm s) (rs_audio_area s) (rs_format s) (rs_next_cb_ts s) (rs_sleep_interval_ts s)
    (rs_last_fetch_ts s) (rs_longest_fetch_interval s) (rs_start_ts s) (rs_first_missed_cb_ts s)
    (rs_buf_state s) (rs_apm_list s) (rs_num_attached_devs s) (rs_num_missed_cb s)
    (rs_queued_frames s) (rs_is_pinned s) (rs_pinned_dev_idx s) (rs_triggered s).
Definition set_rs_shm (v : _) (s : cras_rstream) : cras_rstream :=
  Rstream (rs_stream_id s) (rs_stream_type s) (rs_client_type s) (rs_direction s) (rs_flags s)
    (rs_fd s) (rs_buffer_frames s) (rs_cb_threshold s) (rs_is_draining s) (rs_master_dev s)
    (rs_client s) v (rs_audio_area s) (rs_format s) (rs_next_cb_ts s) (rs_sleep_interval_ts s)
    (rs_last_fetch_ts s) (rs_longest_fetch_interval s) (rs_start_ts s) (rs_first_missed_cb_ts s)
    (rs_buf_state s) (rs_apm_list s) (rs_num_attached_devs s) (rs_num_missed_cb s)
    (rs_queued_frames s) (rs_is_pinned s) (rs_pinned_dev_idx s) (rs_triggered s).
Definition set_rs_audio_area (v : _) (s : cras_rstream) : cras_rstream :=
  Rstream (rs_stream_id s) (rs_stream_type s) (rs_client_type s) (rs_direction s) (rs_flags s)
    (rs_fd s) (rs_buffer_frames s) (rs_cb_threshold s) (rs_is_draining s) (rs_master_dev s)
    (rs_client s) (rs_shm s) v (rs_format s) (rs_next_cb_ts s) (rs_sleep_interval_ts s)
    (rs_last_fetch_ts s) (rs_longest_fetch_interval s) (rs_start_ts s) (rs_first_missed_cb_ts s)
    (rs_buf_state s) (rs_apm_list s) (rs_num_attached_devs s) (rs_num_missed_cb s)
    (rs_queued_frames s) (rs_is_pinned s) (rs_pinned_dev_idx s) (rs_triggered s).
Definition set_rs_format (v : _) (s : cras_rstream) : cras_rstream :=
  Rstream (rs_stream_id s) (rs_stream_type s) (rs_client_type s) (rs_direction s) (rs_flags s)
    (rs_fd s) (rs_buffer_frames s) (rs_cb_threshold s) (rs_is_draining s) (rs_master_dev s)
    (rs_client s) (rs_shm s) (rs_audio_area s) v (rs_next_cb_ts s) (rs_sleep_interval_ts s)
    (rs_last_fetch_ts s) (rs_longest_fetch_interval s) (rs_start_ts s) (rs_first_missed_cb_ts s)
    (rs_buf_state s) (rs_apm_list s) (rs_num_attached_devs s) (rs_num_missed_cb s)
    (rs_queued_frames s) (rs_is_pinned s) (rs_pinned_dev_idx s) (rs_triggered s).
Definition set_rs_next_cb_ts (v : _) (s : cras_rstream) : cras_rstream :=
  Rstream (rs_stream_id s) (rs_stream_type s) (rs_client_type s) (rs_direction s) (rs_flags s)
    (rs_fd s) (rs_buffer_frames s) (rs_cb_threshold s) (rs_is_draining s) (rs_master_dev s)
    (rs_client s) (rs_shm s) (rs_audio_area s) (rs_format s) v (rs_sleep_interval_ts s)
    (rs_last_fetch_ts s) (rs_longest_fetch_interval s) (rs_start_ts s) (rs_first_missed_cb_ts s)
    (rs_buf_state s) (rs_apm_list s) (rs_num_attached_devs s) (rs_num_missed_cb s)
    (rs_queued_frames s) (rs_is_pinned s) (rs_pinned_dev_idx s) (rs_triggered s).
Definition set_rs_sleep_interval_ts (v : _) (s : cras_rstream) : cras_rstream :=
  Rstream (rs_stream_id s) (rs_stream_type s) (rs_client_type s) (rs_direction s) (rs_flags s)
    (rs_fd s) (rs_buffer_frames s) (rs_cb_threshold s) (rs_is_draining s) (rs_master_dev s)
    (rs_client s) (rs_shm s) (rs_audio_area s) (rs_format s) (rs_next_cb_ts s) v
    (rs_last_fetch_ts s) (rs_longest_fetch_interval s) (rs_start_ts s) (rs_first_missed_cb_ts s)
    (rs_buf_state s) (rs_apm_list s) (rs_num_attached_devs s) (rs_num_missed_cb s)
    (rs_queued_frames s) (rs_is_pinned s) (rs_pinned_dev_idx s) (rs_triggered s).
Definition set_rs_last_fetch_ts (v : _) (s : cras_rstream) : cras_rstream :=
  Rstream (rs_stream_id s) (rs_stream_type s) (rs_client_type s) (rs_direction s) (rs_flags s)
    (rs_fd s) (rs_buffer_frames s) (rs_cb_threshold s) (rs_is_draining s) (rs_master_dev s)
    (rs_client s) (rs_shm s) (rs_audio_area s) (rs_format s) (rs_next_cb_ts s)
    (rs_sleep_interval_ts s) v (rs_longest_fetch_interval s) (rs_start_ts s)
    (rs_first_missed_cb_ts s) (rs_buf_state s) (rs_apm_list s) (rs_num_attached_devs s)
    (rs_num_missed_cb s) (rs_queued_frames s) (rs_is_pinned s) (rs_pinned_dev_idx s)
    (rs_triggered s).
Definition set_rs_longest_fetch_interval (v : _) (s : cras_rstream) : cras_rstream :=
  Rstream (rs_stream_id s) (rs_stream_type s) (rs_client_type s) (rs_direction s) (rs_flags s)
    (rs_fd s) (rs_buffer_frames s) (rs_cb_threshold s) (rs_is_draining s) (rs_master_dev s)
    (rs_client s) (rs_shm s) (rs_audio_area s) (rs_format s) (rs_next_cb_ts s)
    (rs_sleep_interval_ts s) (rs_last_fetch_ts s) v (rs_start_ts s) (rs_first_missed_cb_ts s)
    (rs_buf_state s) (rs_apm_list s) (rs_num_attached_devs s) (rs_num_missed_cb s)
    (rs_queued_frames s) (rs_is_pinned s) (rs_pinned_dev_idx s) (rs_triggered s).
Definition set_rs_first_missed_cb_ts (v : _) (s : cras_rstream) : cras_rstream :=
  Rstream (rs_stream_id s) (rs_stream_type s) (rs_client_type s) (rs_direction s) (rs_flags s)
    (rs_fd s) (rs_buffer_frames s) (rs_cb_threshold s) (rs_is_draining s) (rs_master_dev s)
    (rs_client s) (rs_shm s) (rs_audio_area s) (rs_format s) (rs_next_cb_ts s)
    (rs_sleep_interval_ts s) (rs_last_fetch_ts s) (rs_longest_fetch_interval s) (rs_start_ts s)
    v (rs_buf_state s) (rs_apm_list s) (rs_num_attached_devs s) (rs_num_missed_cb s)
    (rs_queued_frames s) (rs_is_pinned s) (rs_pinned_dev_idx s) (rs_triggered s).
Definition set_rs_buf_state (v : _) (s : cras_rstream) : cras_rstream :=
  Rstream (rs_stream_id s) (rs_stream_type s) (rs_client_type s) (rs_direction s) (rs_flags s)
    (rs_fd s) (rs_buffer_frames s) (rs_cb_threshold s) (rs_is_draining s) (rs_master_dev s)
    (rs_client s) (rs_shm s) (rs_audio_area s) (rs_format s) (rs_next_cb_ts s)
    (rs_sleep_interval_ts s) (rs_last_fetch_ts s) (rs_longest_fetch_interval s) (rs_start_ts s)
    (rs_first_missed_cb_ts s) v (rs_apm_list s) (rs_num_attached_devs s) (rs_num_missed_cb s)
    (rs_queued_frames s) (rs_is_pinned s) (rs_pinned_dev_idx s) (rs_triggered s).
Definition set_rs_num_attached_devs (v : _) (s : cras_rstream) : cras_rstream :=
  Rstream (rs_stream_id s) (rs_stream_type s) (rs_client_type s) (rs_direction s) (rs_flags s)
    (rs_fd s) (rs_buffer_frames s) (rs_cb_threshold s) (rs_is_draining s) (rs_master_dev s)
    (rs_client s) (rs_shm s) (rs_audio_area s) (rs_format s) (rs_next_cb_ts s)
    (rs_sleep_interval_ts s) (rs_last_fetch_ts s) (rs_longest_fetch_interval s) (rs_start_ts s)
    (rs_first_missed_cb_ts s) (rs_buf_state s) (rs_apm_list s) v (rs_num_missed_cb s)
    (rs_queued_frames s) (rs_is_pinned s) (rs_pinned_dev_idx s) (rs_triggered s).
Definition set_rs_num_missed_cb (v : _) (s : cras_rstream) : cras_rstream :=
  Rstream (rs_stream_id s) (rs_stream_type s) (rs_client_type s) (rs_direction s) (rs_flags s)
    (rs_fd s) (rs_buffer_frames s) (rs_cb_threshold s) (rs_is_draining s) (rs_master_dev s)
    (rs_client s) (rs_shm s) (rs_audio_area s) (rs_format s) (rs_next_cb_ts s)
    (rs_sleep_interval_ts s) (rs_last_fetch_ts s) (rs_longest_fetch_interval s) (rs_start_ts s)
    (rs_first_missed_cb_ts s) (rs_buf_state s) (rs_apm_list s) (rs_num_attached_devs s) v
    (rs_queued_frames s) (rs_is_pinned s) (rs_pinned_dev_idx s) (rs_triggered s).
Definition set_rs_queued_frames (v : _) (s : cras_rstream) : cras_rstream :=
  Rstream (rs_stream_id s) (rs_stream_type s) (rs_client_type s) (rs_direction s) (rs_flags s)
    (rs_fd s) (rs_buffer_frames s) (rs_cb_threshold s) (rs_is_draining s) (rs_master_dev s)
    (rs_client s) (rs_shm s) (rs_audio_area s) (rs_format s) (rs_next_cb_ts s)
    (rs_sleep_interval_ts s) (rs_last_fetch_ts s) (rs_longest_fetch_interval s) (rs_start_ts s)
    (rs_first_missed_cb_ts s) (rs_buf_state s) (rs_apm_list s) (rs_num_attached_devs s)
    (rs_num_missed_cb s) v (rs_is_pinned s) (rs_pinned_dev_idx s) (rs_triggered s).
Definition set_rs_triggered (v : _) (s : cras_rstream) : cras_rstream :=
  Rstream (rs_stream_id s) (rs_stream_type s) (rs_client_type s) (rs_direction s) (rs_flags s)
    (rs_fd s) (rs_buffer_frames s) (rs_cb_threshold s) (rs_is_draining s) (rs_master_dev s)
    (rs_client s) (rs_shm s) (rs_audio_area s) (rs_format s) (rs_next_cb_ts s)
    (rs_sleep_interval_ts s) (rs_last_fetch_ts s) (rs_longest_fetch_interval s) (rs_start_ts s)
    (rs_first_missed_cb_ts s) (rs_buf_state s) (rs_apm_list s) (rs_num_attached_devs s)
    (rs_num_missed_cb s) (rs_queued_frames s) (rs_is_pinned s) (rs_pinned_dev_idx s) v.

(** ** Creation *)

Definition cras_rstream_config_is_client_shm_stream (c : cras_rstream_config) : bool :=
  (rc_client_shm_fd c >=? 0) && (rc_client_shm_size c >? 0).

Definition buffer_meets_size_limit (buffer_size rate : Z) : bool :=
  (buffer_size <? u64 (CRAS_MAX_BUFFER_TIME_IN_S * rate)) &&
  (buffer_size >? u64 (CRAS_MIN_BUFFER_TIME_IN_US * rate) / 1000000).

(** The enumerations are unsigned, so that only their upper bounds are tests. *)
Definition verify_rstream_parameters (c : cras_rstream_config) (stream_out : bool) : Z :=
  if negb stream_out then - EINVAL else
  match rc_format c with
  | None => - EINVAL
  | Some fmt =>
      if (frame_rate fmt <? 4000) || (frame_rate fmt >? 192000) then - EINVAL
      else if negb (buffer_meets_size_limit (rc_buffer_frames c) (frame_rate fmt)) then - EINVAL
      else if negb (buffer_meets_size_limit (rc_cb_threshold c) (frame_rate fmt)) ||
              (rc_cb_threshold c >? rc_buffer_frames c) then - EINVAL
      else if (num_channels fmt <? 0) || (num_channels fmt >? CRAS_CH_MAX) then - EINVAL
      else if negb (format fmt =? SND_PCM_FORMAT_S16_LE) &&
              negb (format fmt =? SND_PCM_FORMAT_S32_LE) &&
              negb (format fmt =? SND_PCM_FORMAT_U8) &&
              negb (format fmt =? SND_PCM_FORMAT_S24_LE) then - EINVAL
      else if negb (rc_direction c =? CRAS_STREAM_OUTPUT) &&
              negb (rc_direction c =? CRAS_STREAM_INPUT) then - EINVAL
      else if (rc_stream_type c <? CRAS_STREAM_TYPE_DEFAULT) ||
              (rc_stream_type c >=? CRAS_STREAM_NUM_TYPES) then - EINVAL
      else if ((rc_client_shm_size c >? 0) && (rc_client_shm_fd c <? 0)) ||
              ((rc_client_shm_size c =? 0) && (rc_client_shm_fd c >=? 0)) then - EINVAL
      else if cras_rstream_config_is_client_shm_stream c &&
              ((buf_a (rc_buffer_offsets c) >? rc_client_shm_size c) ||
               (buf_b (rc_buffer_offsets c) >? rc_client_shm_size c)) then - EINVAL
      else 0
  end.

(** What the operating system does when the shared memory is set up: the
    results of [cras_shm_info_init] for the header and of the samples' setup,
    of mapping them, and what the client's memory holds. *)
Record shm_env : Type := ShmEnv {
  env_header_rc : Z;
  env_samples_rc : Z;
  env_map_rc : Z;
  env_client_memory : list Z
}.

(** [cras_audio_shm_create] on fresh regions: zeros, full volume. *)
Definition new_audio_shm (len : Z) (mem : list Z) : cras_audio_shm :=
  cras_shm_set_volume_scaler
    {| config := ShmConfig 0 0;
       header := {| h_config := ShmConfig 0 0; read_buf_idx := 0; write_buf_idx := 0;
                    read_offset := Buf2 0 0; write_offset := Buf2 0 0;
                    write_in_progress := Buf2 0 0; volume_scaler := float_zero; mute := 0;
                    callback_pending := 0; num_overruns := 0; ts := Timespec 0 0;
                    buffer_offset := Buf2 0 0 |};
       samples_length := len; samples := mem |} float_one.

(** [inl]: the error; [None]: undefined behaviour. *)
Definition setup_shm_area {P : pcm_library} (env : shm_env) (existing : option cras_audio_shm)
    (fmt : cras_audio_format) (buffer_frames : Z) (c : cras_rstream_config)
  : option (Z + cras_audio_shm * cras_audio_area) :=
  let client_shm_stream := cras_rstream_config_is_client_shm_stream c in
  match existing with
  | Some _ => Some (inl (- EEXIST))
  | None =>
      if negb (env_header_rc env =? 0) then Some (inl (env_header_rc env)) else
      let frame_bytes :=
        u32 (u64 (Z.quot (snd_pcm_format_physical_width (format fmt)) 8) * num_channels fmt) in
      let used_size := u32 (u64 (buffer_frames * frame_bytes)) in
      let '(len, mem) :=
        if client_shm_stream then (rc_client_shm_size c, env_client_memory env)
        else let n := cras_shm_calculate_samples_size used_size in
             (n, replicate (Z.to_nat n) 0) in
      if negb (env_samples_rc env =? 0) then Some (inl (env_samples_rc env)) else
      if negb (env_map_rc env =? 0) then Some (inl (env_map_rc env)) else
      let shm := new_audio_shm len mem in
      let shm := cras_shm_set_frame_bytes shm frame_bytes in
      let shm := cras_shm_set_used_size shm used_size in
      let shm :=
        if client_shm_stream then
          foldl (fun shm i => cras_shm_set_buffer_offset shm i (sel i (rc_buffer_offsets c)))
            shm [0; 1]
        else shm in
      area ← cras_audio_area_config_channels (cras_audio_area_create (s32 (num_channels fmt))) fmt;
      Some (inr (shm, area))
  end.

(** The configuration's socket moves into the stream. *)
Definition cras_rstream_create {P : pcm_library} (env : shm_env) (calloc_ok : bool)
    (apm_list : Z) (now : timespec) (c : cras_rstream_config) (stream_out : bool)
  : option (Z * cras_rstream_config * option cras_rstream) :=
  let rc := verify_rstream_parameters c stream_out in
  if rc <? 0 then Some (rc, c, None)
  else if negb calloc_ok then Some (- ENOMEM, c, None)
  else
    fmt ← rc_format c;
    r ← setup_shm_area env None fmt (rc_buffer_frames c) c;
    match r with
    | inl rc => Some (rc, c, None)
    | inr (shm, area) =>
        Some (0,
          RstreamConfig (rc_stream_id c) (rc_stream_type c) (rc_client_type c) (rc_direction c)
            (rc_dev_idx c) (rc_flags c) (rc_effects c) (rc_format c) (rc_buffer_frames c)
            (rc_cb_threshold c) (-1) (rc_client_shm_fd c) (rc_client_shm_size c)
            (rc_buffer_offsets c) (rc_client c),
          Some {| rs_stream_id := rc_stream_id c; rs_stream_type := rc_stream_type c;
                  rs_client_type := rc_client_type c; rs_direction := rc_direction c;
                  rs_flags := rc_flags c; rs_fd := rc_audio_fd c;
                  rs_buffer_frames := rc_buffer_frames c; rs_cb_threshold := rc_cb_threshold c;
                  rs_is_draining := 0; rs_master_dev := MasterDev NO_DEVICE 0;
                  rs_client := rc_client c; rs_shm := shm; rs_audio_area := area;
                  rs_format := fmt; rs_next_cb_ts := Timespec 0 0;
                  rs_sleep_interval_ts := Timespec 0 0; rs_last_fetch_ts := Timespec 0 0;
                  rs_longest_fetch_interval := Timespec 0 0; rs_start_ts := now;
                  rs_first_missed_cb_ts := Timespec 0 0;
                  rs_buf_state := buffer_share_create (u32 (rc_buffer_frames c));
                  rs_apm_list := if rc_direction c =? CRAS_STREAM_INPUT then apm_list else 0;
                  rs_num_attached_devs := 0; rs_num_missed_cb := 0; rs_queued_frames := 0;
                  rs_is_pinned := negb (rc_dev_idx c =? NO_DEVICE);
                  rs_pinned_dev_idx := rc_dev_idx c; rs_triggered := 0 |})
    end.

(** ** Accessors *)

Definition cras_rstream_get_max_write_frames (s : cras_rstream) : Z :=
  if has_flag (rs_flags s) BULK_AUDIO_OK then rs_buffer_frames s else rs_cb_threshold s.

Definition cras_rstream_get_buffer_frames (s : cras_rstream) : Z := rs_buffer_frames s.
Definition cras_rstream_get_cb_threshold (s : cras_rstream) : Z := rs_cb_threshold s.
Definition cras_rstream_set_format (s : cras_rstream) (fmt : cras_audio_format) : cras_rstream :=
  set_rs_format fmt s.
Definition cras_rstream_set_is_draining (s : cras_rstream) (d : Z) : cras_rstream :=
  set_rs_is_draining d s.
Definition cras_rstream_get_is_draining (s : cras_rstream) : Z := rs_is_draining s.
Definition cras_rstream_get_samples_shm_size (s : cras_rstream) : Z :=
  cras_shm_samples_size (rs_shm s).
Definition stream_uses_output (s : cras_rstream) : bool :=
  cras_stream_uses_output_hw (rs_direction s).
Definition stream_uses_input (s : cras_rstream) : bool :=
  cras_stream_uses_input_hw (rs_direction s).
Definition stream_is_server_only (s : cras_rstream) : bool := has_flag (rs_flags s) SERVER_ONLY.
Definition cras_rstream_dev_ptr (s : cras_rstream) (dev_id : Z) : Z :=
  buffer_share_get_data (rs_buf_state s) dev_id.
Definition cras_rstream_level (s : cras_rstream) : option Z :=
  u32 <$> cras_shm_frames_written (rs_shm s).
Definition cras_rstream_input_level_met (s : cras_rstream) : option bool :=
  n ← cras_shm_frames_written (rs_shm s); Some (n >=? rs_cb_threshold s).
Definition cras_rstream_get_volume_scaler (s : cras_rstream) : spec_float :=
  cras_shm_get_volume_scaler (rs_shm s).
Definition cras_rstream_get_readable_frames (s : cras_rstream) (offset : Z)
  : option (option Z * Z) := cras_shm_get_readable_frames (rs_shm s) offset.
Definition cras_rstream_get_mute (s : cras_rstream) : Z := s32 (cras_shm_get_mute (rs_shm s)).
Definition cras_rstream_is_pending_reply (s : cras_rstream) : Z :=
  cras_shm_callback_pending (rs_shm s).

(** ** Requests and replies *)

(** [enum CRAS_AUDIO_MESSAGE_ID] and [struct audio_message]. *)
Definition AUDIO_MESSAGE_REQUEST_DATA : Z := 0.
Definition AUDIO_MESSAGE_DATA_READY : Z := 1.
Definition AUDIO_MESSAGE_DATA_CAPTURED : Z := 2.

Record audio_message : Type := AudioMessage { am_id : Z; am_error : Z; am_frames : Z }.

Definition init_audio_message (id frames : Z) : audio_message := AudioMessage id 0 (u32 frames).

Definition set_pending_reply (s : cras_rstream) : cras_rstream :=
  set_rs_shm (cras_shm_set_callback_pending (rs_shm s) 1) s.

Definition clear_pending_reply (s : cras_rstream) : cras_rstream :=
  set_rs_shm (cras_shm_set_callback_pending (rs_shm s) 0) s.

(** What [read] returned, a count or a negative [errno], and the message. *)
Definition get_audio_request_reply (rd : Z * audio_message) : Z :=
  let '(rc, msg) := rd in
  if rc <? 0 then rc else if rc =? 0 then rc
  else if am_error msg <? 0 then am_error msg else rc.

Definition read_and_handle_client_message (s : cras_rstream) (rd : Z * audio_message)
  : Z * cras_rstream :=
  let msg := snd rd in
  let rc := get_audio_request_reply rd in
  if rc <=? 0 then (rc, clear_pending_reply s) else
  let s := if (rs_direction s =? CRAS_STREAM_INPUT) && (am_id msg =? AUDIO_MESSAGE_DATA_CAPTURED)
           then clear_pending_reply s else s in
  let s := if (rs_direction s =? CRAS_STREAM_OUTPUT) && (am_id msg =? AUDIO_MESSAGE_DATA_READY)
           then clear_pending_reply s else s in
  (rc, s).

(** Returns the messages written to the socket. *)
Definition cras_rstream_request_audio (s : cras_rstream) (now : timespec) (write_rc : Z)
  : Z * list audio_message * cras_rstream :=
  if negb (rs_direction s =? CRAS_STREAM_OUTPUT) then (0, [], s) else
  let s := set_rs_last_fetch_ts now s in
  let msg := init_audio_message AUDIO_MESSAGE_REQUEST_DATA (rs_cb_threshold s) in
  if write_rc <? 0 then (write_rc, [msg], s) else (write_rc, [msg], set_pending_reply s).

Definition cras_rstream_audio_ready (s : cras_rstream) (count write_rc : Z)
  : Z * list audio_message * cras_rstream :=
  let s := set_rs_shm (cras_shm_buffer_write_complete (rs_shm s)) s in
  if stream_is_server_only s then
    (0, [], set_rs_shm (cras_shm_buffer_read_current (rs_shm s) count) s)
  else
    let msg := init_audio_message AUDIO_MESSAGE_DATA_READY count in
    if write_rc <? 0 then (write_rc, [msg], s) else (write_rc, [msg], set_pending_reply s).

(** One turn of the flush: the result of [poll], whether it reported input,
    and what a [read] then returns. *)
Record poll_turn : Type := PollTurn { pt_rc : Z; pt_in : bool; pt_read : Z * audio_message }.

(** [None]: the turns run out before the loop ends. *)
Fixpoint flush_loop (s : cras_rstream) (turns : list poll_turn) : option cras_rstream :=
  match turns with
  | [] => None
  | t :: turns =>
      let '(err, s) := if pt_in t then read_and_handle_client_message s (pt_read t) else (pt_rc t, s) in
      if err >? 0 then flush_loop s turns else Some s
  end.

Definition cras_rstream_flush_old_audio_messages (s : cras_rstream) (turns : list poll_turn)
  : option cras_rstream :=
  if rs_fd s =? 0 then Some s
  else if stream_is_server_only s then Some s
  else flush_loop s turns.

Definition cras_rstream_record_fetch_interval (s : cras_rstream) (now : timespec) : cras_rstream :=
  if negb (tv_sec (rs_last_fetch_ts s) =? 0) || negb (tv_nsec (rs_last_fetch_ts s) =? 0) then
    let ts := subtract_timespecs now (rs_last_fetch_ts s) in
    if timespec_after ts (rs_longest_fetch_interval s) then set_rs_longest_fetch_interval ts s else s
  else s.

(** ** The devices of a stream *)

Definition cras_rstream_dev_attach (fresh : nat -> id_offset) (s : cras_rstream)
    (dev_id dev_ptr : Z) : option cras_rstream :=
  '(rc, bs) ← buffer_share_add_id fresh (rs_buf_state s) dev_id dev_ptr;
  let s := set_rs_buf_state bs s in
  let s := if rc =? 0 then set_rs_num_attached_devs (rs_num_attached_devs s + 1) s else s in
  Some (if md_dev_id (rs_master_dev s) =? NO_DEVICE
        then set_rs_master_dev (MasterDev (s32 dev_id) dev_ptr) s else s).

(** The first slot in use, in the order of the array. *)
Definition first_used (bs : buffer_share) : option (nat * id_offset) :=
  list_find (fun o => io_used o <> 0) (slots bs).

(** The master's id is an [int], compared with the [unsigned] argument. *)
Definition cras_rstream_dev_detach (s : cras_rstream) (dev_id : Z) : cras_rstream :=
  let '(rc, bs) := buffer_share_rm_id (rs_buf_state s) dev_id in
  let s := set_rs_buf_state bs s in
  let s := if rc =? 0 then set_rs_num_attached_devs (rs_num_attached_devs s - 1) s else s in
  if u32 (md_dev_id (rs_master_dev s)) =? dev_id then
    match first_used (rs_buf_state s) with
    | Some (_, o) => set_rs_master_dev (MasterDev (s32 (io_id o)) (io_data o)) s
    | None => set_rs_master_dev (MasterDev NO_DEVICE 0) s
    end
  else s.

Definition cras_rstream_dev_offset_update (s : cras_rstream) (frames dev_id : Z) : cras_rstream :=
  set_rs_buf_state (snd (buffer_share_offset_update (rs_buf_state s) dev_id frames)) s.

Definition cras_rstream_update_input_write_pointer (s : cras_rstream) : cras_rstream :=
  let '(nwritten, bs) := buffer_share_get_new_write_point (rs_buf_state s) in
  let s := set_rs_buf_state bs s in
  set_rs_shm (cras_shm_buffer_written (rs_shm s) nwritten) s.

Definition cras_rstream_update_output_read_pointer (s : cras_rstream) : cras_rstream :=
  let '(nwritten, bs) := buffer_share_get_new_write_point (rs_buf_state s) in
  let s := set_rs_buf_state bs s in
  set_rs_shm (cras_shm_buffer_read (rs_shm s) nwritten) s.

Definition cras_rstream_dev_offset (s : cras_rstream) (dev_id : Z) : Z :=
  buffer_share_id_offset (rs_buf_state s) dev_id.

(** [MIN] compares the [int] count with the [size_t] limit as [size_t]. *)
Definition cras_rstream_update_queued_frames (s : cras_rstream) : option cras_rstream :=
  n ← cras_shm_get_frames (rs_shm s);
  Some (set_rs_queued_frames (s32 (cmin (u64 n) (rs_buffer_frames s))) s).

Definition cras_rstream_playable_frames (s : cras_rstream) (dev_id : Z) : Z :=
  u32 (rs_queued_frames s - cras_rstream_dev_offset s dev_id).

(** ** The parameters that are accepted *)

Definition config_typed (c : cras_rstream_config) : Prop :=
  0 <= rc_client_shm_size c /\ 0 <= rc_buffer_frames c /\ 0 <= rc_cb_threshold c /\
  0 <= rc_direction c /\ 0 <= rc_stream_type c /\
  forall fmt, rc_format c = Some fmt -> 0 <= num_channels fmt.

(** The rules the comments state, and the formats in the list. *)
Record params_valid (c : cras_rstream_config) (fmt : cras_audio_format) : Prop := {
  pv_format : rc_format c = Some fmt;
  pv_rate : 4000 <= frame_rate fmt <= 192000;
  pv_cb : frame_rate fmt * 1000 / 1000000 < rc_cb_threshold c <= rc_buffer_frames c;
  pv_buffer : rc_buffer_frames c < 10 * frame_rate fmt;
  pv_channels : 0 <= num_channels fmt <= 11;
  pv_sample : format fmt ∈ [SND_PCM_FORMAT_S16_LE; SND_PCM_FORMAT_S32_LE; SND_PCM_FORMAT_U8;
                            SND_PCM_FORMAT_S24_LE];
  pv_direction : rc_direction c = CRAS_STREAM_OUTPUT \/ rc_direction c = CRAS_STREAM_INPUT;
  pv_type : 0 <= rc_stream_type c < 6;
  pv_shm : rc_client_shm_size c = 0 /\ rc_client_shm_fd c < 0 \/
           0 < rc_client_shm_size c /\ 0 <= rc_client_shm_fd c /\
           forall i, is_idx i -> sel i (rc_buffer_offsets c) <= rc_client_shm_size c
}.

Lemma size_limit_spec (n rate : Z) :
  4000 <= rate <= 192000 ->
  buffer_meets_size_limit n rate = true <-> rate * 1000 / 1000000 < n < 10 * rate.
Proof.
  intros Hr. unfold buffer_meets_size_limit, CRAS_MAX_BUFFER_TIME_IN_S, CRAS_MIN_BUFFER_TIME_IN_US.
  unwrap. rewrite (Z.mul_comm 1000). lia.
Qed.

Lemma sel_both (b : buf2 Z) (z : Z) :
  (forall i, is_idx i -> sel i b <= z) <-> buf_a b <= z /\ buf_b b <= z.
Proof.
  unfold is_idx, sel. split.
  - intros H. split; [apply (H 0); by left|apply (H 1); by right].
  - intros [? ?] i [->| ->]; done.
Qed.

Lemma check_passes (b : bool) (rest : Z) :
  (if b then - EINVAL else rest) = 0 <-> b = false /\ rest = 0.
Proof. destruct b; split; [done|by intros []|done|by intros []]. Qed.

Lemma verify_spec (c : cras_rstream_config) :
  config_typed c ->
  (verify_rstream_parameters c true = 0 <-> exists fmt, params_valid c fmt) /\
  (verify_rstream_parameters c true = 0 \/ verify_rstream_parameters c true = - EINVAL).
Proof.
  intros (Hs & Hb & Hc & Hd & Ht & Hn). unfold verify_rstream_parameters. cbn [negb].
  destruct (rc_format c) as [fmt|] eqn:Hf.
  2:{ split; [|by right]. split; [done|]. intros (fmt & []). congruence. }
  specialize (Hn fmt eq_refl). split.
  2:{ repeat match goal with |- context [if ?b then _ else _] => destruct b end; auto. }
  rewrite !check_passes, !orb_false_iff, !andb_false_iff, !negb_false_iff.
  unfold cras_rstream_config_is_client_shm_stream, CRAS_MAX_BUFFER_TIME_IN_S, CRAS_CH_MAX,
    CRAS_STREAM_NUM_TYPES, CRAS_STREAM_TYPE_DEFAULT, CRAS_STREAM_OUTPUT, CRAS_STREAM_INPUT.
  split.
  - intros ((Hr1 & Hr2) & Hbuf & (Hcb & Hcb') & (? & Hch) & Hfm & Hdir & (? & Hty) & Hsm & Hcl & _).
    apply size_limit_spec in Hbuf; [|lia]. apply size_limit_spec in Hcb; [|lia].
    exists fmt. split; try done; try (unfold CRAS_STREAM_OUTPUT, CRAS_STREAM_INPUT; lia).
    + rewrite !elem_of_cons. lia.
    + destruct Hsm as [Hsm1 Hsm2].
      destruct (Z.eq_dec (rc_client_shm_size c) 0); [left; lia|right].
      split_and!; [lia|lia|]. apply sel_both. lia.
  - intros (fmt' & [Hf' Hr [Hcb Hcb'] Hbuf Hch Hfm Hdir Hty Hsm]).
    assert (fmt' = fmt) as -> by congruence.
    rewrite !size_limit_spec by lia. rewrite !elem_of_cons, elem_of_nil in Hfm.
    unfold CRAS_STREAM_OUTPUT, CRAS_STREAM_INPUT in Hdir. rewrite sel_both in Hsm.
    split_and!; lia.
Qed.


Definition playback_config (client_fd client_size : Z) (channels : Z) (offs : buf2 Z)
  : cras_rstream_config :=
  {| rc_stream_id := 65537; rc_stream_type := 0; rc_client_type := 0;
     rc_direction := CRAS_STREAM_OUTPUT; rc_dev_idx := 0; rc_flags := 0; rc_effects := 0;
     rc_format := Some (AudioFormat SND_PCM_FORMAT_S16_LE 48000 channels (default_layout channels));
     rc_buffer_frames := 480; rc_cb_threshold := 240; rc_audio_fd := 5;
     rc_client_shm_fd := client_fd; rc_client_shm_size := client_size;
     rc_buffer_offsets := offs; rc_client := 1 |}.

Lemma playback_config_typed fd n ch offs :
  0 <= n -> 0 <= ch -> config_typed (playback_config fd n ch offs).
Proof. intros. split_and!; simpl; try (unfold CRAS_STREAM_OUTPUT; lia). by intros fmt [= <-]. Qed.


(** ** A new stream *)

Definition env_works (env : shm_env) : Prop :=
  env_header_rc env = 0 /\ env_samples_rc env = 0 /\ env_map_rc env = 0.

(** The bytes of a frame, of a buffer. *)
Definition bytes_per_frame {P : pcm_library} (fmt : cras_audio_format) : Z :=
  snd_pcm_format_physical_width (format fmt) / 8 * num_channels fmt.

Lemma valid_positive (c : cras_rstream_config) (fmt : cras_audio_format) :
  params_valid c fmt -> 4 < rc_cb_threshold c <= rc_buffer_frames c /\ rc_buffer_frames c < 1920000.
Proof.
  intros []. assert (4 <= frame_rate fmt * 1000 / 1000000) by (apply Z.div_le_lower_bound; lia). lia.
Qed.

Lemma width_of_valid {P : pcm_library} (c : cras_rstream_config) (fmt : cras_audio_format) :
  pcm_documented P -> params_valid c fmt ->
  8 <= snd_pcm_format_physical_width (format fmt) <= 32.
Proof.
  intros HP [_ _ _ _ _ Hfm _ _ _]. rewrite !elem_of_cons, elem_of_nil in Hfm.
  destruct Hfm as [->|[->|[->|[->|[]]]]]; rewrite ?width_s16, ?width_s32, ?width_u8, ?width_s24; lia.
Qed.

Lemma bytes_per_frame_bounds {P : pcm_library} (c : cras_rstream_config) (fmt : cras_audio_format) :
  pcm_documented P -> params_valid c fmt ->
  u32 (u64 (Z.quot (snd_pcm_format_physical_width (format fmt)) 8) * num_channels fmt)
    = bytes_per_frame fmt /\
  num_channels fmt <= bytes_per_frame fmt <= 44 /\
  u32 (u64 (rc_buffer_frames c * bytes_per_frame fmt)) = rc_buffer_frames c * bytes_per_frame fmt /\
  rc_buffer_frames c * bytes_per_frame fmt < 100000000.
Proof.
  intros HP Hv. pose proof (width_of_valid c fmt HP Hv) as Hw. pose proof (valid_positive c fmt Hv). destruct Hv.
  unfold bytes_per_frame. rewrite Z.quot_div_nonneg by lia.
  assert (1 <= snd_pcm_format_physical_width (format fmt) / 8 <= 4).
  { split; [apply Z.div_le_lower_bound|apply Z.div_le_upper_bound]; lia. }
  set (w := _ / 8) in *.
  assert (num_channels fmt <= w * num_channels fmt <= 44) by nia.
  assert (rc_buffer_frames c * (w * num_channels fmt) <= 1920000 * 44)
    by (apply Z.mul_le_mono_nonneg; lia).
  assert (0 <= rc_buffer_frames c * (w * num_channels fmt)) by (apply Z.mul_nonneg_nonneg; lia).
  unwrap. split_and!; lia.
Qed.


Definition quiet_env : shm_env := ShmEnv 0 0 0 [].


(** ** The devices a stream is attached to *)

(** The table is consistent, counts the devices, and the master is one of them,
    with its pointer; there is no master exactly when there is no device. *)
Record devs_ok (s : cras_rstream) : Prop := {
  do_share : share_ok (rs_buf_state s);
  do_ids : forall id v, share (rs_buf_state s) !! id = Some v -> 0 < id < 2147483648;
  do_count : rs_num_attached_devs s = Z.of_nat (size (share (rs_buf_state s)));
  do_master :
    match share (rs_buf_state s) !! md_dev_id (rs_master_dev s) with
    | Some v => v.2 = md_dev_ptr (rs_master_dev s)
    | None => md_dev_id (rs_master_dev s) = NO_DEVICE /\ share (rs_buf_state s) = ∅
    end
}.

Lemma first_used_spec (bs : buffer_share) :
  share_ok bs ->
  match first_used bs with
  | Some (_, o) => share bs !! io_id o = Some (io_offset o, io_data o)
  | None => share bs = ∅
  end.
Proof.
  intros Hok. unfold first_used. rewrite slots_all by done.
  destruct (list_find _ _) as [[i o]|] eqn:Hf.
  - apply list_find_Some in Hf as (Hi & Hu & _). apply share_Some; [done|]. by exists i, o.
  - apply list_find_None in Hf. apply map_empty. intros id.
    destruct (share bs !! id) as [v|] eqn:Hv; [|done].
    apply share_Some in Hv as (i & o & Hi & Hu & _); [|done].
    rewrite Forall_lookup in Hf. by destruct (Hf i o Hi).
Qed.

Lemma attach_devs_ok (fresh : nat -> id_offset) (s : cras_rstream) (id ptr : Z) :
  devs_ok s -> 0 < id < 2147483648 -> id_sz (rs_buf_state s) < 2147483648 ->
  exists s', cras_rstream_dev_attach fresh s id ptr = Some s' /\ devs_ok s' /\
    share (rs_buf_state s') =
      (match share (rs_buf_state s) !! id with
       | Some _ => share (rs_buf_state s)
       | None => <[id := (0, ptr)]> (share (rs_buf_state s)) end).
Proof.
  intros [Hs Hids Hc Hm] Hid Hroom. unfold cras_rstream_dev_attach.
  pose proof (ot_add_old (T := buffer_share) fresh (rs_buf_state s) id ptr Hs Hroom) as Hold.
  pose proof (ot_add_new (T := buffer_share) fresh (rs_buf_state s) id ptr Hs Hroom) as Hnew.
  simpl in Hold, Hnew.
  destruct (share (rs_buf_state s) !! id) as [w|] eqn:Hl.
  - rewrite Hold by done. simpl. eexists. split; [done|].
    destruct (share (rs_buf_state s) !! md_dev_id (rs_master_dev s)) as [v|] eqn:Hv.
    + pose proof (Hids _ _ Hv). unfold NO_DEVICE. zdecide. split; [|done].
      split; simpl; try done. by rewrite Hv.
    + destruct Hm as [_ Hm]. by rewrite Hm in Hl.
  - destruct Hnew as (bs & -> & Hok & Hsh & _); [done|]. simpl. eexists. split; [done|].
    assert (Hsz : Z.of_nat (size (share (rs_buf_state s))) + 1 = Z.of_nat (size (share bs))).
    { rewrite Hsh, map_size_insert_None by done. lia. }
    assert (Hids' : forall i v, share bs !! i = Some v -> 0 < i < 2147483648).
    { intros i v. rewrite Hsh. intros [[<- _]|[_ ?]]%lookup_insert_Some; [done|]. by eapply Hids. }
    destruct (share (rs_buf_state s) !! md_dev_id (rs_master_dev s)) as [v|] eqn:Hv.
    + pose proof (Hids _ _ Hv). unfold NO_DEVICE. zdecide. split; [|done].
      split; simpl; try done; [lia|]. rewrite Hsh, lookup_insert_ne, Hv by congruence. done.
    + destruct Hm as [-> _]. zdecide. split; [|done].
      split; simpl; try done; [lia|]. rewrite s32_small by lia. by rewrite Hsh, lookup_insert_eq.
Qed.

Lemma detach_devs_ok (s : cras_rstream) (id : Z) :
  devs_ok s -> 0 < id < 2147483648 ->
  devs_ok (cras_rstream_dev_detach s id) /\
  share (rs_buf_state (cras_rstream_dev_detach s id)) = delete id (share (rs_buf_state s)).
Proof.
  intros [Hs Hids Hc Hm] Hid. unfold cras_rstream_dev_detach.
  pose proof (ot_rm_law (T := buffer_share) (rs_buf_state s) id Hs) as Hrm. simpl in Hrm.
  destruct (buffer_share_rm_id (rs_buf_state s) id) as [rc bs].
  destruct Hrm as (Hrc & Hok & Hsh & _).
  assert (Hids' : forall i v, share bs !! i = Some v -> 0 < i < 2147483648).
  { intros i v. rewrite Hsh. intros [_ ?]%lookup_delete_Some. by eapply Hids. }
  assert (Hcnt : rs_num_attached_devs
     (if rc =? 0 then set_rs_num_attached_devs (rs_num_attached_devs (set_rs_buf_state bs s) - 1)
                        (set_rs_buf_state bs s) else set_rs_buf_state bs s)
     = Z.of_nat (size (share bs))).
  { rewrite Hsh, Hrc. destruct (share (rs_buf_state s) !! id) as [v|] eqn:Hv; simpl.
    - rewrite Hc, map_size_delete_Some by eauto.
      assert (size (share (rs_buf_state s)) <> 0)%nat by (apply map_size_ne_0_lookup; eauto). lia.
    - by rewrite delete_id. }
  set (s1 := if rc =? 0 then _ else _) in *.
  assert (Hbs : rs_buf_state s1 = bs) by (by unfold s1; destruct (rc =? 0)).
  assert (Hmd : rs_master_dev s1 = rs_master_dev s) by (by unfold s1; destruct (rc =? 0)).
  rewrite Hbs, Hmd. clearbody s1.
  assert (Hcmp : u32 (md_dev_id (rs_master_dev s)) = md_dev_id (rs_master_dev s)).
  { apply u32_small. destruct (share (rs_buf_state s) !! _) as [v|] eqn:Hv;
      [specialize (Hids _ _ Hv); lia|]. destruct Hm as [-> _]. done. }
  rewrite Hcmp. destruct (Z.eqb_spec (md_dev_id (rs_master_dev s)) id) as [He|Hne].
  - pose proof (first_used_spec bs Hok) as Hf. destruct (first_used bs) as [[i o]|]; simpl.
    + pose proof (Hids' _ _ Hf). rewrite Hbs. split; [|done].
      split; simpl; rewrite ?Hbs; try done. rewrite s32_small by lia. by rewrite Hf.
    + rewrite Hbs. split; [|done]. split; simpl; rewrite ?Hbs; try done. by rewrite Hf.
  - rewrite Hbs. split; [|done]. split; rewrite ?Hbs, ?Hmd; try done.
    rewrite Hsh, lookup_delete_ne by congruence.
    destruct (share (rs_buf_state s) !! _) as [v|]; [done|].
    destruct Hm as [? ->]. by rewrite delete_empty.
Qed.

(** Moving offsets keeps the devices. *)
Lemma devs_ok_offsets (s s' : cras_rstream) (f : Z -> Z) (P : Z -> bool) :
  devs_ok s -> share_ok (rs_buf_state s') ->
  (forall id, share (rs_buf_state s') !! id =
     (fun v => (if P id then f v.1 else v.1, v.2)) <$> share (rs_buf_state s) !! id) ->
  rs_num_attached_devs s' = rs_num_attached_devs s -> rs_master_dev s' = rs_master_dev s ->
  devs_ok s'.
Proof.
  intros [Hs Hids Hc Hm] Hok Hsh Hn Hmd.
  assert (Hdom : dom (share (rs_buf_state s')) = dom (share (rs_buf_state s))).
  { apply set_eq. intros id. rewrite !elem_of_dom, Hsh, fmap_is_Some. done. }
  split; [done| | |].
  - intros id v. rewrite Hsh. intros (w & Hw & _)%fmap_Some. by eapply Hids.
  - rewrite Hn, Hc, <- !size_dom. by rewrite Hdom.
  - rewrite Hmd, Hsh. destruct (share (rs_buf_state s) !! _) as [v|]; simpl; [done|].
    destruct Hm as [? Hm]. split; [done|]. rewrite Hm, dom_empty_L in Hdom.
    by apply dom_empty_inv_L.
Qed.

(** The devices of a stream, with their pointers. *)
Definition devices (s : cras_rstream) : gmap Z Z := snd <$> share (rs_buf_state s).

(** What changing a stream's offsets leaves alone. *)
Definition same_devices (s s' : cras_rstream) : Prop :=
  devs_ok s -> devs_ok s' /\ devices s' = devices s /\ id_sz (rs_buf_state s') = id_sz (rs_buf_state s).

Lemma offset_update_devices (s : cras_rstream) (n id : Z) : same_devices s (cras_rstream_dev_offset_update s n id).
Proof.
  intros Hd. pose proof (buffer_share_offset_update_spec (rs_buf_state s) id n (do_share s Hd)) as Hu.
  unfold cras_rstream_dev_offset_update, devices.
  destruct (buffer_share_offset_update _ _ _) as [rc bs]. destruct Hu as (_ & Hok & Hsh & _ & Hsz). split_and!; [|simpl|done].
  - apply (devs_ok_offsets s _ (fun o => u32 (o + n)) (fun i => i =? id) Hd); try done; simpl.
    intros i. rewrite Hsh. destruct (Z.eqb_spec i id) as [->|Hne].
    + by rewrite lookup_alter_eq.
    + rewrite lookup_alter_ne by congruence. by destruct (share _ !! i) as [[]|].
  - apply map_eq. intros i. rewrite Hsh, !lookup_fmap. destruct (decide (i = id)) as [->|Hne].
    + rewrite lookup_alter_eq. by destruct (share _ !! id).
    + by rewrite lookup_alter_ne.
Qed.

Lemma write_point_devices (s s' : cras_rstream) :
  rs_buf_state s' = snd (buffer_share_get_new_write_point (rs_buf_state s)) ->
  rs_num_attached_devs s' = rs_num_attached_devs s -> rs_master_dev s' = rs_master_dev s -> same_devices s s'.
Proof.
  intros Hb Hn Hm Hd. pose proof (get_new_write_point_spec (rs_buf_state s) (do_share s Hd)) as Hw.
  destruct (buffer_share_get_new_write_point _) as [n bs]. destruct Hw as (_ & Hok & Hsh & _ & Hsz). simpl in Hb.
  unfold devices. rewrite Hb. split_and!; [| |done].
  - apply (devs_ok_offsets s _ (fun o => o - min_written (rs_buf_state s)) (fun _ => true) Hd); rewrite ?Hb; try done.
    intros i. by rewrite Hsh, lookup_fmap.
  - apply map_eq. intros i. rewrite Hsh, !lookup_fmap. by destruct (share _ !! i).
Qed.

Lemma read_pointer_devices (s : cras_rstream) : same_devices s (cras_rstream_update_output_read_pointer s).
Proof.
  apply write_point_devices; unfold cras_rstream_update_output_read_pointer;
    by destruct (buffer_share_get_new_write_point _).
Qed.

Lemma write_pointer_devices (s : cras_rstream) : same_devices s (cras_rstream_update_input_write_pointer s).
Proof.
  apply write_point_devices; unfold cras_rstream_update_input_write_pointer;
    by destruct (buffer_share_get_new_write_point _).
Qed.

(** Claim C18: the master device of a stream is always one of the devices it is
    attached to.  Attaching, detaching, and moving the offsets keep the count of
    devices, and a master that is attached and carries its own pointer; the
    first device becomes the master, and when the master leaves another one
    takes over, until none is left. *)
Theorem master_device_attached (fresh : nat -> id_offset) (s : cras_rstream) (id ptr frames : Z) :
  devs_ok s -> 0 < id < 2147483648 -> id_sz (rs_buf_state s) < 2147483648 ->
  (exists s', cras_rstream_dev_attach fresh s id ptr = Some s' /\ devs_ok s' /\
     is_Some (share (rs_buf_state s') !! id)) /\
  devs_ok (cras_rstream_dev_detach s id) /\
  share (rs_buf_state (cras_rstream_dev_detach s id)) = delete id (share (rs_buf_state s)) /\
  devs_ok (cras_rstream_dev_offset_update s frames id) /\
  devs_ok (cras_rstream_update_output_read_pointer s) /\
  devs_ok (cras_rstream_update_input_write_pointer s).
Proof.
  intros Hd Hid Hroom. split_and!.
  - destruct (attach_devs_ok fresh s id ptr Hd Hid Hroom) as (s' & -> & Hok & Hsh).
    exists s'. split_and!; [done|done|]. rewrite Hsh.
    destruct (share _ !! id) eqn:He; [by rewrite He|by rewrite lookup_insert_eq].
  - by apply detach_devs_ok.
  - by apply detach_devs_ok.
  - by apply offset_update_devices.
  - by apply read_pointer_devices.
  - by apply write_pointer_devices.
Qed.

Lemma master_device_attached_witness :
  exists c' s s1, cras_rstream_create (P := alsa_example) quiet_env true 0 (Timespec 1 0)
      (playback_config (-1) 0 2 (Buf2 0 0)) true = Some (0, c', Some s) /\
    cras_rstream_dev_attach (fun _ => IdOffset 9 9 9 9) s 3 77 = Some s1 /\ devs_ok s1 /\
    rs_master_dev s1 = MasterDev 3 77 /\
    devs_ok (cras_rstream_dev_detach s1 3).
Proof.
  destruct (cras_rstream_create (P := alsa_example) quiet_env true 0 (Timespec 1 0)
    (playback_config (-1) 0 2 (Buf2 0 0)) true) as [[[rc c'] [s|]]|] eqn:E;
    vm_compute in E; try discriminate. injection E as Erc Ec Es. clear Ec.
  assert (Hs : devs_ok s).
  { subst s. destruct (buffer_share_create_spec 480) as (Hok & Hsh & _); [lia|].
    change (buffer_share_create 480) with
      (BufferShare 480 3 (replicate 3 (IdOffset 0 0 0 0))) in Hok, Hsh.
    split; simpl; rewrite ?Hsh; try done. }
  destruct (master_device_attached (fun _ => IdOffset 9 9 9 9) s 3 77 0 Hs) as ((s1 & H1 & Hok1 & _) & _);
    [lia|by subst s|].
  exists c', s, s1. split; [by subst|]. split; [done|]. split; [done|]. split.
  { subst s. vm_compute in H1. by injection H1 as <-. }
  apply (master_device_attached (fun _ => IdOffset 9 9 9 9) s1 3 77 0 Hok1); [lia|].
  subst s. vm_compute in H1. by injection H1 as <-.
Defined.

(** ** Reading and writing through the slowest device *)

(** What a playback device has still to play: the queue from its offset on. *)
Definition still_to_play (s : cras_rstream) (id : Z) : list Z :=
  drop (Z.to_nat (cras_rstream_dev_offset s id * frame_bytes (config (rs_shm s))))
       (queued (rs_shm s)).

(** No device is ahead of what is queued. *)
Definition offsets_in_queue (s : cras_rstream) : Prop :=
  forall id v, share (rs_buf_state s) !! id = Some v ->
    v.1 <= buf_sz (rs_buf_state s) /\
    v.1 * frame_bytes (config (rs_shm s)) <= Z.of_nat (length (queued (rs_shm s))).

Lemma buffer_read_config (shm : cras_audio_shm) (n : Z) :
  config (cras_shm_buffer_read shm n) = config shm.
Proof. unfold cras_shm_buffer_read. by destruct (n =? 0). Qed.

Lemma dev_offset_share (s : cras_rstream) (id : Z) :
  share_ok (rs_buf_state s) ->
  cras_rstream_dev_offset s id =
    match share (rs_buf_state s) !! id with Some v => v.1 | None => 0 end.
Proof. apply (@ot_offset_law _ buffer_share_table). Qed.

(** Claim C5: consuming what every device has played moves no device.  The read
    pointer advances to the slowest device, whose offset becomes zero; each
    device still has the same samples to play, in the same order, and none is
    ahead of the queue. *)
Theorem output_positions_kept (s : cras_rstream) :
  shm_ok (rs_shm s) -> share_ok (rs_buf_state s) -> offsets_in_queue s ->
  let s' := cras_rstream_update_output_read_pointer s in
  shm_ok (rs_shm s') /\ share_ok (rs_buf_state s') /\ offsets_in_queue s' /\
  dom (share (rs_buf_state s')) = dom (share (rs_buf_state s)) /\
  (forall id, id ∈ dom (share (rs_buf_state s)) -> still_to_play s' id = still_to_play s id) /\
  (share (rs_buf_state s) <> ∅ ->
     exists id, id ∈ dom (share (rs_buf_state s')) /\ cras_rstream_dev_offset s' id = 0) /\
  (share (rs_buf_state s) = ∅ -> queued (rs_shm s') = queued (rs_shm s)).
Proof.
  intros Hshm Hshare Hq. unfold cras_rstream_update_output_read_pointer.
  pose proof (@ot_write_point_law _ buffer_share_table (rs_buf_state s) Hshare) as Hw.
  cbv [ot_ok ot_limit ot_users ot_write_point buffer_share_table] in Hw.
  destruct (buffer_share_get_new_write_point (rs_buf_state s)) as [n bs].
  destruct Hw as (Hok & Hbz & Hempty & Hne).
  { intros id v Hv. apply (Hq id v Hv). }
  set (fb := frame_bytes (config (rs_shm s))) in *.
  assert (Hfb : 0 < fb) by (destruct Hshm as [[] _]; unfold fb; lia).
  assert (Hn : 0 <= n /\ n * fb <= Z.of_nat (length (queued (rs_shm s)))).
  { destruct (decide (share (rs_buf_state s) = ∅)) as [He|He].
    - destruct (Hempty He) as [-> _]. lia.
    - destruct (Hne He) as ((id & d & Hid) & _). split; [|by apply (Hq id (n, d))].
      destruct (@ot_range _ buffer_share_table (rs_buf_state s) id (n, d) Hshare Hid). done. }
  destruct Hn as [Hn0 Hn].
  assert (Hread : shm_ok (cras_shm_buffer_read (rs_shm s) n) /\
    queued (cras_shm_buffer_read (rs_shm s) n) = drop (Z.to_nat (n * fb)) (queued (rs_shm s)))
    by (by apply consume_spec).
  destruct Hread as [Hshm' Hqueue].
  set (s' := set_rs_shm _ _).
  assert (Hshm_s : rs_shm s' = cras_shm_buffer_read (rs_shm s) n) by done.
  assert (Hbs : rs_buf_state s' = bs) by done.
  assert (Hfb' : frame_bytes (config (rs_shm s')) = fb) by (by rewrite Hshm_s, buffer_read_config).
  assert (Hsh : forall id, share bs !! id = (fun v => (v.1 - n, v.2)) <$> share (rs_buf_state s) !! id).
  { intros id. destruct (decide (share (rs_buf_state s) = ∅)) as [He|He].
    - rewrite (proj2 (Hempty He)), He. done.
    - destruct (Hne He) as (_ & _ & ->). apply lookup_fmap. }
  assert (Hle : forall id v, share (rs_buf_state s) !! id = Some v -> n <= v.1).
  { intros id v Hv. destruct (decide (share (rs_buf_state s) = ∅)) as [He|He]; [by rewrite He in Hv|].
    by apply (Hne He) in Hv. }
  clearbody s'. rewrite Hbs. split; [by rewrite Hshm_s|]. split; [done|]. split.
  { intros id v. rewrite Hbs, Hsh, Hfb', Hshm_s, Hqueue, length_drop. intros (w & Hv & ->)%fmap_Some.
    specialize (Hle _ _ Hv). destruct (Hq _ _ Hv). fold fb in H0. simpl. rewrite Hbz. split; nia. }
  split.
  { apply set_eq. intros id. by rewrite !elem_of_dom, Hsh, fmap_is_Some. }
  split.
  { intros id [v Hv]%elem_of_dom. unfold still_to_play.
    rewrite !dev_offset_share, Hbs, Hsh, Hv, Hfb', Hshm_s, Hqueue, drop_drop by (by rewrite ?Hbs).
    simpl. fold fb. specialize (Hle _ _ Hv). f_equal. nia. }
  split.
  - intros He. destruct (Hne He) as ((id & d & Hid) & _ & _). exists id.
    rewrite elem_of_dom, dev_offset_share, Hbs, Hsh, Hid by (by rewrite Hbs). simpl. split; [done|lia].
  - intros He. rewrite Hshm_s, Hqueue. by destruct (Hempty He) as [-> _].
Qed.

(** A stream with two devices, two frames queued, and the devices at frames
    2 and 1. *)
Definition shared_stream : cras_rstream :=
  {| rs_stream_id := 65537; rs_stream_type := 0; rs_client_type := 0;
     rs_direction := CRAS_STREAM_OUTPUT; rs_flags := 0; rs_fd := 5; rs_buffer_frames := 2;
     rs_cb_threshold := 1; rs_is_draining := 0; rs_master_dev := MasterDev 7 70; rs_client := 1;
     rs_shm := busy_shm; rs_audio_area := cras_audio_area_create 2;
     rs_format := AudioFormat SND_PCM_FORMAT_S16_LE 48000 2 (default_layout 2);
     rs_next_cb_ts := Timespec 0 0; rs_sleep_interval_ts := Timespec 0 0;
     rs_last_fetch_ts := Timespec 0 0; rs_longest_fetch_interval := Timespec 0 0;
     rs_start_ts := Timespec 0 0; rs_first_missed_cb_ts := Timespec 0 0;
     rs_buf_state := {| buf_sz := 2; id_sz := 3;
        wr_idx := [IdOffset 1 7 2 70; IdOffset 0 8 20 0; IdOffset 1 9 1 90] |};
     rs_apm_list := 0; rs_num_attached_devs := 2; rs_num_missed_cb := 0; rs_queued_frames := 0;
     rs_is_pinned := false; rs_pinned_dev_idx := 0; rs_triggered := 0 |}.

Lemma shared_stream_share_ok : share_ok (rs_buf_state shared_stream).
Proof.
  split; simpl; try lia.
  - intros [|[|[|]]] o ? ?; simplify_eq/=; unfold is_u32; lia.
  - intros [|[|[|]]] [|[|[|]]] oi oj ? ? ? ?; simplify_eq/=; lia.
Qed.

Lemma output_positions_kept_witness :
  let s' := cras_rstream_update_output_read_pointer shared_stream in
  still_to_play shared_stream 9 = [9; 10; 11; 12] /\ still_to_play s' 9 = [9; 10; 11; 12] /\
  cras_rstream_dev_offset s' 7 = 1.
Proof.
  destruct (output_positions_kept shared_stream) as (_ & _ & _ & _ & Hkept & _).
  - apply busy_shm_ok.
  - apply shared_stream_share_ok.
  - intros id v (i & o & Hi & Hu & _ & <-)%share_Some; [|apply shared_stream_share_ok].
    destruct i as [|[|[|]]]; simplify_eq/=; change (length _) with 8%nat; lia.
  - split; [by vm_compute|]. split; [|by vm_compute].
    rewrite Hkept by (apply elem_of_dom; eexists; by vm_compute). by vm_compute.
Defined.

(** ** The exchange with the client *)



(** Draining the socket stops at the first turn that brings nothing
    or fails, consumes every message before it, and leaves the stream as it
    was except that a reply it waited for may no longer be awaited; only a
    client that never stops sending can keep it in the loop. *)
Theorem flush_consumes_messages (s : cras_rstream) (turns : list poll_turn) :
  let stops t := if pt_in t then get_audio_request_reply (pt_read t) <= 0 else pt_rc t <= 0 in
  (flush_loop s turns = None <-> Forall (fun t => ~ stops t) turns) /\
  (forall s', flush_loop s turns = Some s' ->
     s' = s \/ s' = set_rs_shm (cras_shm_set_callback_pending (rs_shm s) 0) s).
Proof.
  intros stops.
  assert (Hstep : forall s t, pt_in t = true ->
    let '(e, s') := read_and_handle_client_message s (pt_read t) in
    (e <= 0 <-> get_audio_request_reply (pt_read t) <= 0) /\ (s' = s \/ s' = clear_pending_reply s)).
  { clear. intros s t _. unfold read_and_handle_client_message.
    destruct (Z.leb_spec (get_audio_request_reply (pt_read t)) 0); [by split; [|right]|].
    split; [done|].
    repeat match goal with |- context [if ?b then clear_pending_reply _ else _] => destruct b end; auto. }
  revert s. induction turns as [|t turns IH]; intros s; simpl.
  { split; [by split|done]. }
  rewrite Forall_cons. specialize (Hstep s t).
  assert (Ht : stops t = if pt_in t then get_audio_request_reply (pt_read t) <= 0 else pt_rc t <= 0)
    by done.
  destruct (pt_in t).
  - destruct (read_and_handle_client_message s (pt_read t)) as [e s1].
    destruct (Hstep eq_refl) as [He Hs]. rewrite Ht, <- He.
    destruct (Z.gtb_spec e 0).
    + destruct (IH s1) as [IH1 IH2]. split; [rewrite IH1; split; [by split; [lia|]|tauto]|].
      intros s' [->| ->]%IH2; destruct Hs as [->| ->]; auto.
    + split; [split; [done|intros [? _]; lia]|]. intros s' [= <-]. done.
  - rewrite Ht. destruct (Z.gtb_spec (pt_rc t) 0).
    + destruct (IH s) as [IH1 IH2]. split; [rewrite IH1; split; [by split; [lia|]|tauto]|done].
    + split; [split; [done|intros [? _]; lia]|]. intros s' [= <-]. auto.
Qed.

Lemma flush_consumes_messages_witness :
  exists s', flush_loop shared_stream
    [PollTurn 1 true (16, AudioMessage AUDIO_MESSAGE_DATA_READY 0 240);
     PollTurn 0 false (0, AudioMessage 0 0 0)] = Some s' /\
    (s' = shared_stream \/
     s' = set_rs_shm (cras_shm_set_callback_pending (rs_shm shared_stream) 0) shared_stream).
Proof.
  eexists. split; [reflexivity|].
  by apply (flush_consumes_messages shared_stream
    [PollTurn 1 true (16, AudioMessage AUDIO_MESSAGE_DATA_READY 0 240);
     PollTurn 0 false (0, AudioMessage 0 0 0)]).
Defined.

(** ** What the checks let through *)

Definition client_shm_env : shm_env := ShmEnv 0 0 0 (replicate 64 0).

