(* ===== verification/StreamList.v ===== *)
(** * The list of streams (server/stream_list.c)

    Every client stream is on one list; a removed stream moves to a second one
    until its samples have played, which a timer polls for.  The server's
    actions on a stream (create, add to the audio thread, drain, destroy) are
    the callbacks the list is created with; they may also use the timers. *)
From S2P Require Import Prelude DList Timespec Timers Types Rstream.

(** The fields of the streams the list reads do not change after creation.
    [destroyed] is not in the code: the streams destroyed so far. *)
Record stream_list : Type := StreamList {
  streams : dlist cras_rstream;
  streams_to_delete : dlist cras_rstream;
  drain_timer : option Z;
  destroyed : list Z
}.

Definition set_streams (l : dlist cras_rstream) (s : stream_list) : stream_list :=
  StreamList l (streams_to_delete s) (drain_timer s) (destroyed s).
Definition set_to_delete (l : dlist cras_rstream) (s : stream_list) : stream_list :=
  StreamList (streams s) l (drain_timer s) (destroyed s).
Definition set_drain_timer (t : option Z) (s : stream_list) : stream_list :=
  StreamList (streams s) (streams_to_delete s) t (destroyed s).
Definition log_destroyed (p : Z) (s : stream_list) : stream_list :=
  StreamList (streams s) (streams_to_delete s) (drain_timer s) (destroyed s ++ [p]).

Definition stream_list_create : stream_list := StreamList [] [] None [].

(** Used for both lists: the rest of the program [W] and the armed timers. *)
Record sl_state (W : Type) : Type := SLState { sl : stream_list; sl_tm : cras_tm; sl_world : W }.
Arguments SLState {W}.
Arguments sl {W}.
Arguments sl_tm {W}.
Arguments sl_world {W}.

(** What a timer creation gets from the system: [calloc] and the clock. *)
Record tick : Type := Tick { tk_mem : option Z; tk_now : timespec }.

(** The callbacks of [stream_list_create]. *)
Record stream_callbacks (W : Type) : Type := StreamCallbacks {
  stream_added_cb : Z -> cras_rstream -> W * cras_tm -> Z * (W * cras_tm);
  stream_removed_cb : Z -> cras_rstream -> W * cras_tm -> Z * (W * cras_tm);
  stream_create_cb : cras_rstream_config -> W * cras_tm -> Z * option (Z * cras_rstream) * (W * cras_tm);
  stream_destroy_cb : Z -> cras_rstream -> W * cras_tm -> W * cras_tm
}.
Arguments stream_added_cb {W}.
Arguments stream_removed_cb {W}.
Arguments stream_create_cb {W}.
Arguments stream_destroy_cb {W}.

Section StreamList.
Context {W : Type} (cb : stream_callbacks W).
(** [delete_streams] and the list as a timer's callback and data. *)
Context (delete_streams_cb list_ptr : Z).

(** The body of the loop; the state carries [max_drain_delay]. *)
Definition delete_stream (p : Z) (rs : cras_rstream) (s : sl_state W * Z) : option (sl_state W * Z) :=
  let '(st, max_drain_delay) := s in
  let '(drain_delay, (w, tm)) := stream_removed_cb cb p rs (sl_world st, sl_tm st) in
  if negb (drain_delay =? 0)
  then Some (SLState (sl st) tm w, cmax max_drain_delay drain_delay)
  else
    l ← dl_delete (streams_to_delete (sl st)) p;
    let '(w, tm) := stream_destroy_cb cb p rs (w, tm) in
    Some (SLState (log_destroyed p (set_to_delete l (sl st))) tm w, max_drain_delay).

Definition delete_streams (tk : tick) (st : sl_state W) : option (sl_state W) :=
  '(st, max_drain_delay) ← dl_foreach (fun s => streams_to_delete (sl (fst s))) delete_stream
     (length (streams_to_delete (sl st))) (dl_head (streams_to_delete (sl st))) (st, 0);
  let st := SLState (set_drain_timer None (sl st)) (sl_tm st) (sl_world st) in
  if negb (max_drain_delay =? 0) then
    let '(t, tm) := cras_tm_create_timer (sl_tm st) (tk_mem tk) (tk_now tk)
                      (u32 (cmax max_drain_delay 10)) delete_streams_cb list_ptr in
    Some (SLState (set_drain_timer t (sl st)) tm (sl_world st))
  else Some st.

Definition stream_list_get (st : sl_state W) : dlist cras_rstream := streams (sl st).

(** On failure the created stream is unlinked again and destroyed. *)
Definition stream_list_add (c : cras_rstream_config) (st : sl_state W)
  : option (Z * option Z * sl_state W) :=
  let '(rc, r, (w, tm)) := stream_create_cb cb c (sl_world st, sl_tm st) in
  if negb (rc =? 0) then Some (rc, None, SLState (sl st) tm w) else
  '(p, rs) ← r;
  let l := set_streams (dl_append (streams (sl st)) p rs) (sl st) in
  let '(rc, (w, tm)) := stream_added_cb cb p rs (w, tm) in
  if negb (rc =? 0) then
    ss ← dl_delete (streams l) p;
    let '(w, tm) := stream_destroy_cb cb p rs (w, tm) in
    Some (rc, Some p, SLState (log_destroyed p (set_streams ss l)) tm w)
  else Some (rc, Some p, SLState l tm w).

Definition cancel_drain_timer (st : sl_state W) : option (sl_state W) :=
  match drain_timer (sl st) with
  | Some t =>
      tm ← cras_tm_cancel_timer (sl_tm st) t;
      Some (SLState (set_drain_timer None (sl st)) tm (sl_world st))
  | None => Some st
  end.

Definition move_to_delete (p : Z) (rs : cras_rstream) (st : sl_state W) : option (sl_state W) :=
  ss ← dl_delete (streams (sl st)) p;
  Some (SLState (set_to_delete (dl_append (streams_to_delete (sl st)) p rs) (set_streams ss (sl st)))
          (sl_tm st) (sl_world st)).

Definition stream_list_rm (tk : tick) (id : Z) (st : sl_state W) : option (Z * sl_state W) :=
  match dl_search (streams (sl st)) (fun rs => rs_stream_id rs =? id) with
  | None => Some (- EINVAL, st)
  | Some (p, rs) =>
      st ← move_to_delete p rs st;
      st ← cancel_drain_timer st;
      st ← delete_streams tk st;
      Some (0, st)
  end.

Definition stream_list_rm_all_client_streams (tk : tick) (rclient : Z) (st : sl_state W)
  : option (Z * sl_state W) :=
  st ← dl_foreach (fun st => streams (sl st))
    (fun p rs st => if rs_client rs =? rclient then move_to_delete p rs st else Some st)
    (length (streams (sl st))) (dl_head (streams (sl st))) st;
  st ← cancel_drain_timer st;
  st ← delete_streams tk st;
  Some (0, st).

Definition stream_list_has_pinned_stream (dev_idx : Z) (st : sl_state W) : bool :=
  existsb (fun e : Z * cras_rstream => rs_is_pinned e.2 && (rs_pinned_dev_idx e.2 =? dev_idx))
          (streams (sl st)).
End StreamList.

(** ** What a pass over the draining streams does *)
Section Specification.
Context {W : Type} (cb : stream_callbacks W).
Context (delete_streams_cb list_ptr : Z).
Implicit Types (st : sl_state W).

(** The streams that still drain, those destroyed, the delays reported. *)
Fixpoint drain_pass (l : dlist cras_rstream) (wt : W * cras_tm)
  : dlist cras_rstream * list Z * list Z * (W * cras_tm) :=
  match l with
  | [] => ([], [], [], wt)
  | (p, rs) :: l =>
      let '(d, wt) := stream_removed_cb cb p rs wt in
      if bool_decide (d = 0) then
        let '(kept, dead, delays, wt) := drain_pass l (stream_destroy_cb cb p rs wt) in
        (kept, p :: dead, delays, wt)
      else
        let '(kept, dead, delays, wt) := drain_pass l wt in
        ((p, rs) :: kept, dead, d :: delays, wt)
  end.

Lemma drain_pass_parts (l : dlist cras_rstream) wt kept dead delays wt' :
  drain_pass l wt = (kept, dead, delays, wt') ->
  addrs kept ++ dead ≡ₚ addrs l /\ kept `sublist_of` l /\ length delays = length kept /\
  Forall (fun d => d <> 0) delays.
Proof.
  revert wt kept dead delays wt'. induction l as [|[p rs] l IH]; intros wt kept dead delays wt'; simpl.
  { by intros [= <- <- <- _]. }
  destruct (stream_removed_cb cb p rs wt) as [d wt1]. case_bool_decide as Hd.
  - destruct (drain_pass l _) as [[[kept1 dead1] delays1] wt2] eqn:E.
    destruct (IH _ _ _ _ _ E) as (Hp & Hs & Hl & Hn). intros [= <- <- <- _]. split_and!; [|by apply sublist_cons|done|done].
    simpl. by rewrite <- Permutation_middle, Hp.
  - destruct (drain_pass l wt1) as [[[kept1 dead1] delays1] wt2] eqn:E.
    destruct (IH _ _ _ _ _ E) as (Hp & Hs & Hl & Hn). intros [= <- <- <- _]. simpl.
    split_and!; [by rewrite Hp|by constructor|by rewrite Hl|by constructor].
Qed.

Definition longest (delays : list Z) (m : Z) : Z := foldl Z.max m delays.

Lemma longest_spec (delays : list Z) (m : Z) :
  m <= longest delays m /\ (forall k, m < k -> (k <= longest delays m <-> Exists (fun d => k <= d) delays)).
Proof.
  unfold longest. revert m. induction delays as [|d ds IH]; intros m; simpl.
  { split; [lia|]. intros k Hk. rewrite Exists_nil. lia. }
  destruct (IH (Z.max m d)) as [Hle Hex]. split; [lia|]. intros k Hk. rewrite Exists_cons.
  destruct (Z.le_gt_cases k d); [split; [by left|lia]|]. rewrite Hex by lia.
  split; [by right|]. intros [?|?]; [lia|done].
Qed.

(** The loop of the code does the pass. *)
Lemma delete_loop_pass (todo kept : dlist cras_rstream) st m fuel :
  streams_to_delete (sl st) = kept ++ todo -> NoDup (addrs (kept ++ todo)) ->
  (length todo <= fuel)%nat ->
  let '(kept', dead, delays, (w, tm)) := drain_pass todo (sl_world st, sl_tm st) in
  dl_foreach (fun s => streams_to_delete (sl (fst s))) (delete_stream cb) fuel (dl_head todo) (st, m) =
    Some (SLState (StreamList (streams (sl st)) (kept ++ kept') (drain_timer (sl st))
                     (destroyed (sl st) ++ dead)) tm w, longest delays m).
Proof.
  revert kept st m fuel. induction todo as [|[p rs] todo IH]; intros kept st m fuel Hst Hnd Hf.
  { destruct st as [[ss td dt de] tm w]. simpl in *. subst td. rewrite !app_nil_r. by destruct fuel. }
  destruct fuel as [|fuel]; [simpl in Hf; lia|]. simpl in Hf.
  pose proof Hnd as (Hp & Hp' & Hnd')%NoDup_middle.
  simpl. rewrite Hst, dl_find_app, dl_next_app by done. simpl.
  destruct (stream_removed_cb cb p rs (sl_world st, sl_tm st)) as [d [w tm]] eqn:Hrm.
  case_bool_decide as Hd.
  - subst d. simpl. rewrite dl_delete_app by done. simpl.
    destruct (stream_destroy_cb cb p rs (w, tm)) as [w1 tm1].
    specialize (IH kept (SLState (log_destroyed p (set_to_delete (kept ++ todo) (sl st))) tm1 w1) m fuel).
    simpl in IH. destruct (drain_pass todo (w1, tm1)) as [[[kept' dead] delays] [w2 tm2]].
    cbn [mbind option_bind]. rewrite IH by (done || lia). by rewrite <- app_assoc.
  - rewrite (proj2 (Z.eqb_neq d 0)) by done. simpl.
    specialize (IH (kept ++ [(p, rs)]) (SLState (sl st) tm w) (cmax m d) fuel). simpl in IH.
    destruct (drain_pass todo (w, tm)) as [[[kept' dead] delays] [w2 tm2]].
    cbn [mbind option_bind]. rewrite IH; [|by rewrite <- app_assoc|by rewrite <- app_assoc|lia].
    rewrite <- app_assoc. by rewrite cmax_max.
Qed.

(** The timer after a pass with these delays. *)
Definition rearm (tk : tick) (delays : list Z) (tm : cras_tm) : option Z * cras_tm :=
  if bool_decide (longest delays 0 = 0) then (None, tm)
  else cras_tm_create_timer tm (tk_mem tk) (tk_now tk) (u32 (Z.max (longest delays 0) 10))
         delete_streams_cb list_ptr.

Lemma delete_streams_pass (tk : tick) st :
  NoDup (addrs (streams_to_delete (sl st))) ->
  let '(kept, dead, delays, (w, tm)) := drain_pass (streams_to_delete (sl st)) (sl_world st, sl_tm st) in
  delete_streams cb delete_streams_cb list_ptr tk st =
    Some (SLState (StreamList (streams (sl st)) kept (fst (rearm tk delays tm)) (destroyed (sl st) ++ dead))
            (snd (rearm tk delays tm)) w).
Proof.
  intros Hnd. pose proof (delete_loop_pass (streams_to_delete (sl st)) [] st 0
    (length (streams_to_delete (sl st))) eq_refl Hnd) as Hloop.
  destruct (drain_pass _ _) as [[[kept dead] delays] [w tm]].
  unfold delete_streams. rewrite Hloop by lia. simpl.
  unfold rearm. case_bool_decide as Hz; [by rewrite Hz|].
  rewrite (proj2 (Z.eqb_neq _ 0)) by done. simpl. rewrite cmax_max.
  by destruct (cras_tm_create_timer _ _ _ _ _ _).
Qed.
End Specification.

(** ** Removing streams *)
Section Removal.
Context {W : Type} (cb : stream_callbacks W).
Context (delete_streams_cb list_ptr : Z).
Implicit Types (st : sl_state W).

(** Every stream is linked once, and an armed drain timer is on the list of
    timers. *)
Definition sl_ok st : Prop :=
  NoDup (addrs (streams (sl st)) ++ addrs (streams_to_delete (sl st))) /\
  match drain_timer (sl st) with Some t => t ∈ addrs (sl_tm st) | None => True end.

(** The streams the list is responsible for, and those it has destroyed. *)
Definition all_streams st : list Z :=
  addrs (streams (sl st)) ++ addrs (streams_to_delete (sl st)) ++ destroyed (sl st).

Lemma cancel_then_pass (tk : tick) st :
  sl_ok st ->
  exists st', (st ← cancel_drain_timer st; delete_streams cb delete_streams_cb list_ptr tk st) = Some st' /\
    streams (sl st') = streams (sl st) /\ all_streams st' ≡ₚ all_streams st /\
    streams_to_delete (sl st') `sublist_of` streams_to_delete (sl st).
Proof.
  intros [Hnd Ht]. apply NoDup_app in Hnd as (_ & _ & Hnd).
  assert (Hc : exists tm, cancel_drain_timer st =
      Some (SLState (set_drain_timer None (sl st)) tm (sl_world st))).
  { unfold cancel_drain_timer. destruct (drain_timer (sl st)) as [t|] eqn:Hd.
    - destruct (dl_delete_in (sl_tm st) t Ht) as [tm Htm].
      exists tm. unfold cras_tm_cancel_timer. by rewrite Htm.
    - exists (sl_tm st). destruct st as [[] ? ?]. simpl in *. by subst. }
  destruct Hc as [tm ->]. cbn [mbind option_bind].
  pose proof (delete_streams_pass cb delete_streams_cb list_ptr tk
    (SLState (set_drain_timer None (sl st)) tm (sl_world st)) Hnd) as Hpass. simpl in Hpass.
  destruct (drain_pass cb (streams_to_delete (sl st)) (sl_world st, tm))
    as [[[kept dead] delays] [w tm']] eqn:E.
  destruct (drain_pass_parts _ _ _ _ _ _ _ E) as (Hp & Hs & _).
  rewrite Hpass. eexists. split; [done|]. unfold all_streams. simpl. split_and!; [done| |done].
  rewrite <- Hp, <- app_assoc. by rewrite (Permutation_app_comm dead).
Qed.

Lemma move_ok l1 p rs l2 st :
  streams (sl st) = l1 ++ (p, rs) :: l2 -> sl_ok st ->
  exists st', move_to_delete p rs st = Some st' /\ sl_ok st' /\
    streams (sl st') = l1 ++ l2 /\ streams_to_delete (sl st') = streams_to_delete (sl st) ++ [(p, rs)] /\
    all_streams st' ≡ₚ all_streams st.
Proof.
  intros Hs [Hnd Ht]. unfold move_to_delete.
  assert (Hp : p ∉ addrs l1).
  { rewrite Hs in Hnd. apply NoDup_app in Hnd as [Hnd _]. apply NoDup_middle in Hnd; tauto. }
  rewrite Hs, dl_delete_app by done. cbn [mbind option_bind].
  assert (Hperm : addrs (l1 ++ l2) ++ addrs (streams_to_delete (sl st) ++ [(p, rs)])
    ≡ₚ addrs (streams (sl st)) ++ addrs (streams_to_delete (sl st))).
  { rewrite Hs, !addrs_app. simpl. solve_Permutation. }
  eexists. split; [done|]. unfold sl_ok, all_streams. simpl. unfold dl_append.
  split_and!; [|done|done|done|].
  - by rewrite Hperm.
  - by rewrite !app_assoc, Hperm.
Qed.

Lemma move_client_ok (rclient : Z) st :
  sl_ok st ->
  exists st', dl_foreach (fun st => streams (sl st))
      (fun p rs st => if rs_client rs =? rclient then move_to_delete p rs st else Some st)
      (length (streams (sl st))) (dl_head (streams (sl st))) st = Some st' /\
    sl_ok st' /\ all_streams st' ≡ₚ all_streams st /\
    streams (sl st') =
      filter (fun e : Z * cras_rstream => rs_client e.2 <> rclient) (streams (sl st) : list _).
Proof.
  intros Hok.
  destruct (dl_foreach_spec (fun st : sl_state W => streams (sl st))
    (fun p rs st => if rs_client rs =? rclient then move_to_delete p rs st else Some st)
    (fun kept todo st' => sl_ok st' /\ all_streams st' ≡ₚ all_streams st /\
       exists seen, streams (sl st) = seen ++ todo /\
         kept = filter (fun e : Z * cras_rstream => rs_client e.2 <> rclient) (seen : list _)))
    with (todo := streams (sl st)) (kept := @nil (Z * cras_rstream)) (s := st)
         (fuel := length (streams (sl st))) as (st' & kept & Hr & Hk & _ & Hok' & Hall & seen & Hseen & Hkept).
  - intros kept p rs todo s (Hs & Ha & seen & Hseen & Hkept) Hg Hnd.
    assert (Hsn : streams (sl st) = (seen ++ [(p, rs)]) ++ todo) by (by rewrite <- app_assoc).
    destruct (Z.eqb_spec (rs_client rs) rclient) as [Hc|Hc].
    + destruct (move_ok kept p rs todo s Hg Hs) as (s' & Hm & Hs' & Hst & _ & Ha').
      exists s', kept. split; [done|]. split; [done|]. split.
      { rewrite Hst. rewrite Hg in Hnd. apply NoDup_middle in Hnd; tauto. }
      split; [done|]. split; [by rewrite Ha'|]. exists (seen ++ [(p, rs)]). split; [done|].
      rewrite filter_app, filter_cons, decide_False by (simpl; tauto). by rewrite app_nil_r.
    + exists s, (kept ++ [(p, rs)]). split; [done|]. split; [by rewrite <- app_assoc|].
      split; [done|]. split; [done|]. split; [done|]. exists (seen ++ [(p, rs)]). split; [done|].
      rewrite filter_app, filter_cons, decide_True by done. by rewrite Hkept.
  - split; [done|]. split; [done|]. exists []. by split.
  - done.
  - destruct Hok as [Hnd _]. apply NoDup_app in Hnd; tauto.
  - done.
  - exists st'. rewrite app_nil_r in Hseen. subst seen. rewrite Hk, Hkept. done.
Qed.
End Removal.

(** Claim C22: removing streams loses none and destroys none twice.  Whatever
    the callbacks answer, every stream is afterwards still on the list, waiting
    to drain, or destroyed; removing by id takes the first stream with the id,
    or fails and changes nothing; removing a client takes exactly the client's
    streams and keeps the order of the others. *)
Theorem removal_conserves_streams {W : Type} (cb : stream_callbacks W) (dcb lptr : Z)
    (tk : tick) (id rclient : Z) (st : sl_state W) :
  sl_ok st ->
  match dl_search (streams (sl st)) (fun rs => rs_stream_id rs =? id) with
  | None => stream_list_rm cb dcb lptr tk id st = Some (- EINVAL, st) /\
      Forall (fun e => rs_stream_id e.2 <> id) (streams (sl st))
  | Some (p, rs) => exists st' l1 l2, stream_list_rm cb dcb lptr tk id st = Some (0, st') /\
      rs_stream_id rs = id /\ streams (sl st) = l1 ++ (p, rs) :: l2 /\
      streams (sl st') = l1 ++ l2 /\ all_streams st' ≡ₚ all_streams st /\
      streams_to_delete (sl st') `sublist_of` streams_to_delete (sl st) ++ [(p, rs)]
  end /\
  exists st', stream_list_rm_all_client_streams cb dcb lptr tk rclient st = Some (0, st') /\
    streams (sl st') =
      filter (fun e : Z * cras_rstream => rs_client e.2 <> rclient) (streams (sl st) : list _) /\
    all_streams st' ≡ₚ all_streams st.
Proof.
  intros Hok. split.
  - unfold stream_list_rm. destruct (dl_search _ _) as [[p rs]|] eqn:Hs.
    + apply dl_search_Some in Hs as (l1 & l2 & Hl & Hid & _). apply Z.eqb_eq in Hid.
      destruct (move_ok l1 p rs l2 st Hl Hok) as (st1 & -> & Hok1 & Hs1 & Hd1 & Ha1).
      destruct (cancel_then_pass cb dcb lptr tk st1 Hok1) as (st2 & Hr & Hs2 & Ha2 & Hd2).
      exists st2, l1, l2. cbn [mbind option_bind] in *.
      destruct (cancel_drain_timer st1) as [st3|]; [|done]. cbn [mbind option_bind] in *.
      rewrite Hr. split_and!; try done; [by rewrite Hs2|by rewrite Ha2|by rewrite <- Hd1].
    + apply dl_search_None in Hs. split; [done|]. eapply Forall_impl; [exact Hs|].
      intros e He. by apply Z.eqb_neq.
  - unfold stream_list_rm_all_client_streams.
    destruct (move_client_ok rclient st Hok) as (st1 & -> & Hok1 & Ha1 & Hs1).
    destruct (cancel_then_pass cb dcb lptr tk st1 Hok1) as (st2 & Hr & Hs2 & Ha2 & Hd2).
    exists st2. cbn [mbind option_bind] in *.
    destruct (cancel_drain_timer st1) as [st3|]; [|done]. cbn [mbind option_bind] in *.
    rewrite Hr. split_and!; [done|by rewrite Hs2|by rewrite Ha2].
Qed.

(** A pass over the draining streams asks each of them once, destroys
    those with nothing left, and arms the drain timer exactly when one of the
    others reported a positive time: it then waits for the longest of the times
    reported and at least 10 ms.  A stream that reported an error keeps
    waiting, but by itself arms no timer. *)
Theorem drain_timer_law {W : Type} (cb : stream_callbacks W) (dcb lptr t : Z) (now : timespec)
    (st : sl_state W) :
  NoDup (addrs (streams_to_delete (sl st))) ->
  exists st' kept dead delays w tm,
    drain_pass cb (streams_to_delete (sl st)) (sl_world st, sl_tm st) = (kept, dead, delays, (w, tm)) /\
    delete_streams cb dcb lptr (Tick (Some t) now) st = Some st' /\
    streams_to_delete (sl st') = kept /\ destroyed (sl st') = destroyed (sl st) ++ dead /\
    length delays = length kept /\ addrs kept ++ dead ≡ₚ addrs (streams_to_delete (sl st)) /\
    (drain_timer (sl st') = Some t <-> Exists (fun d => 0 < d) delays) /\
    (drain_timer (sl st') = None <-> Forall (fun d => d < 0) delays) /\
    (Exists (fun d => 0 < d) delays -> Forall (fun d => d < 4294967296) delays ->
       exists ms, sl_tm st' = tm ++ [(t, Timer (add_ms_ts now ms) dcb lptr)] /\ 10 <= ms /\
         Forall (fun d => d <= ms) delays /\ (ms = 10 \/ ms ∈ delays)).
Proof.
  intros Hnd. pose proof (delete_streams_pass cb dcb lptr (Tick (Some t) now) st Hnd) as Hpass.
  destruct (drain_pass cb _ _) as [[[kept dead] delays] [w tm]] eqn:E.
  destruct (drain_pass_parts _ _ _ _ _ _ _ E) as (Hp & _ & Hl & Hnz).
  eexists _, kept, dead, delays, w, tm. split; [done|]. split; [exact Hpass|]. simpl.
  destruct (longest_spec delays 0) as [Hge Hex].
  assert (Hpos : Exists (fun d => 0 < d) delays <-> 0 < longest delays 0).
  { transitivity (Exists (fun d => 1 <= d) delays); [|rewrite <- (Hex 1); lia].
    rewrite !Exists_exists. split; intros (d & Hd & ?); exists d; (split; [done|lia]). }
  assert (Hneg : Forall (fun d => d < 0) delays <-> ~ Exists (fun d => 0 < d) delays).
  { rewrite <- Forall_Exists_neg. rewrite !Forall_forall in *.
    split; intros H d Hd; specialize (H d Hd); specialize (Hnz d Hd); simpl in *; lia. }
  split_and!; try done; unfold rearm; case_bool_decide as Hz; simpl.
  - split; [done|]. intros ?%Hpos. lia.
  - split; [|done]. intros _. apply Hpos. lia.
  - split; [|done]. intros _. rewrite Hneg, Hpos. lia.
  - split; [done|]. rewrite Hneg, Hpos. lia.
  - intros ?%Hpos. lia.
  - intros _ Hlt. exists (u32 (Z.max (longest delays 0) 10)).
    assert (Hin : longest delays 0 ∈ delays).
    { clear -Hz. unfold longest in *. revert Hz.
      assert (H : forall m, foldl Z.max m delays = m \/ foldl Z.max m delays ∈ delays).
      { induction delays as [|d ds IH]; intros m; simpl; [by left|].
        destruct (IH (Z.max m d)) as [->|?]; [|right; by right].
        destruct (Z.max_spec m d) as [[? ->]|[? ->]]; [right; by left|by left]. }
      destruct (H 0); [done|]. done. }
    assert (Hb : longest delays 0 < 4294967296) by (by apply (proj1 (Forall_forall _ _) Hlt)).
    rewrite u32_small by lia. split_and!; [done|lia| |].
    + apply Forall_forall. intros d Hd. destruct (Z.le_gt_cases d 0); [lia|].
      assert (d <= longest delays 0); [|lia]. apply Hex; [done|]. apply Exists_exists. by exists d.
    + destruct (Z.max_spec (longest delays 0) 10) as [[? ->]|[? ->]]; [by left|by right].
Qed.

(** ** An example: three streams, one draining *)

Definition stream_of (id client : Z) : cras_rstream :=
  let s := shared_stream in
  Rstream id (rs_stream_type s) (rs_client_type s) (rs_direction s) (rs_flags s) (rs_fd s)
    (rs_buffer_frames s) (rs_cb_threshold s) (rs_is_draining s) (rs_master_dev s) client (rs_shm s)
    (rs_audio_area s) (rs_format s) (rs_next_cb_ts s) (rs_sleep_interval_ts s)
    (rs_last_fetch_ts s) (rs_longest_fetch_interval s) (rs_start_ts s) (rs_first_missed_cb_ts s)
    (rs_buf_state s) (rs_apm_list s) (rs_num_attached_devs s) (rs_num_missed_cb s)
    (rs_queued_frames s) (rs_is_pinned s) (rs_pinned_dev_idx s) (rs_triggered s).

(** The stream at address 2 has 40 ms to play, the one at 3 reports an error. *)
Definition example_callbacks : stream_callbacks Z :=
  {| stream_added_cb := fun _ _ wt => (0, wt);
     stream_removed_cb := fun p _ wt => (if p =? 2 then 40 else if p =? 3 then -5 else 0, wt);
     stream_create_cb := fun _ wt => (- ENOMEM, None, wt);
     stream_destroy_cb := fun _ _ '(w, tm) => (w + 1, tm) |}.

Definition example_state : sl_state Z :=
  SLState (StreamList [(1, stream_of 65537 1); (2, stream_of 131073 2); (3, stream_of 65538 1)]
             [(4, stream_of 65539 1)] (Some 90) [])
          [(90, Timer (Timespec 3 0) 7 8)] 0.

Lemma example_state_ok : sl_ok example_state.
Proof. split; [by apply (bool_decide_unpack _); vm_compute|simpl; by left]. Qed.

Lemma removal_conserves_streams_witness :
  exists st', stream_list_rm_all_client_streams example_callbacks 7 8
      (Tick (Some 91) (Timespec 1 0)) 1 example_state = Some (0, st') /\
    addrs (streams (sl st')) = [2] /\ all_streams st' ≡ₚ [1; 2; 3; 4].
Proof.
  destruct (removal_conserves_streams example_callbacks 7 8 (Tick (Some 91) (Timespec 1 0)) 65537 1
    example_state example_state_ok) as (_ & st' & Hr & Hs & Ha).
  exists st'. split; [exact Hr|]. split; [by rewrite Hs|]. rewrite Ha. vm_compute. solve_Permutation.
Defined.

Lemma drain_timer_law_witness :
  exists st', delete_streams example_callbacks 7 8 (Tick (Some 91) (Timespec 1 0))
      (SLState (StreamList [] [(3, stream_of 1 1); (2, stream_of 2 2)] None []) [] 0) = Some st' /\
    drain_timer (sl st') = Some 91 /\ sl_tm st' = [(91, Timer (Timespec 1 40000000) 7 8)].
Proof.
  destruct (drain_timer_law example_callbacks 7 8 91 (Timespec 1 0)
    (SLState (StreamList [] [(3, stream_of 1 1); (2, stream_of 2 2)] None []) [] 0))
    as (st' & kept & dead & delays & w & tm & E & Hr & _ & _ & _ & _ & Ht & _ & Hms).
  - by apply (bool_decide_unpack _); vm_compute.
  - exists st'. vm_compute in E. injection E as <- <- <- <- <-. split; [exact Hr|].
    split; [apply Ht; right; by left|].
    vm_compute in Hr. injection Hr as <-. by vm_compute.
Defined.
