(* ===== verification/DevStream.v ===== *)
(** * Device streams (server/dev_stream.c and .h)

    A stream attached to a device: the converter between their formats, the
    buffer for converted capture data, mixing playback data into the device's
    buffer, copying captured data to the stream, and the schedule of the
    stream's callbacks.

    A [dev_stream] points to its stream, which the devices share: an operation
    takes the stream and returns it.  The clock, what [write] answers and what
    the allocators give are arguments.  A loop has fuel: [None] is undefined
    behaviour, an abort, or a loop that runs on. *)
From S2P Require Import Prelude Arrays Float32 Rounding Types Timespec ByteBuffer BufferShare Shm AudioFormat.
From S2P Require Import Mix AudioArea LinearResampler FmtConv Rstream.
#[local] Open Scope Z_scope.

Definition coarse_rate_adjust_step : Z := 3.
Definition capture_callback_fuzz_ts : timespec := Timespec 0 1000000.

Definition max_frames_for_conversion (stream_frames stream_rate device_rate : Z) : option Z :=
  n ← cras_frames_at_rate stream_rate stream_frames device_rate;
  Some (u32 (cmax stream_frames n + 1)).

Section DevStream.
Context {P : pcm_library} {L : speex_library}.

Record dev_stream : Type := DevStream {
  ds_dev_id : Z;
  ds_conv : option cras_fmt_conv;
  ds_conv_buffer : byte_buffer;
  ds_conv_area : cras_audio_area;
  ds_conv_buffer_size_frames : Z;
  ds_dev_rate : Z;
  ds_is_running : bool
}.

Definition set_ds_conv (c : option cras_fmt_conv) (b : byte_buffer) (d : dev_stream) : dev_stream :=
  DevStream (ds_dev_id d) c b (ds_conv_area d) (ds_conv_buffer_size_frames d) (ds_dev_rate d)
    (ds_is_running d).
Definition set_ds_area (a : cras_audio_area) (d : dev_stream) : dev_stream :=
  DevStream (ds_dev_id d) (ds_conv d) (ds_conv_buffer d) a (ds_conv_buffer_size_frames d)
    (ds_dev_rate d) (ds_is_running d).

(** What the allocators give; the results of [calloc] and of
    [byte_buffer_create] are not tested. *)
Record dev_stream_env : Type := DevStreamEnv {
  de_calloc : bool;
  de_conv : conv_env;
  de_buffer : bool;
  de_fresh : nat -> id_offset
}.

(** [post_fmt] is the format after the stream's own processing, [None] for
    none.  The inner [None] is [NULL]. *)
Definition dev_stream_create (env : dev_stream_env) (post_fmt : option cras_audio_format)
    (s : cras_rstream) (dev_id : Z) (dev_fmt : cras_audio_format) (dev_ptr : Z) (cb_ts : timespec)
  : option (option dev_stream * cras_rstream) :=
  if negb (de_calloc env) then None else
  let stream_fmt := rs_format s in
  max_frames ← max_frames_for_conversion (u32 (rs_buffer_frames s)) (u32 (frame_rate stream_fmt))
                 (u32 (frame_rate dev_fmt));
  '(rc, conv) ←
    (if rs_direction s =? CRAS_STREAM_OUTPUT
     then config_format_converter (de_conv env) (rs_direction s) stream_fmt dev_fmt max_frames
     else config_format_converter (de_conv env) (rs_direction s) (default dev_fmt post_fmt)
            stream_fmt max_frames);
  if negb (rc =? 0) then Some (None, s) else
  c ← conv;
  let ofmt := fc_out_fmt c in
  dev_frames ← (if rs_direction s =? CRAS_STREAM_OUTPUT
                then cras_fmt_conv_in_frames_to_out conv (rs_buffer_frames s)
                else cras_fmt_conv_out_frames_to_in conv (rs_buffer_frames s));
  let size_frames := u32 (2 * cmax (u32 dev_frames) (rs_buffer_frames s)) in
  let buf_bytes := u32 (u64 (size_frames * cras_get_format_bytes ofmt)) in
  b ← byte_buffer_create (de_buffer env) buf_bytes;
  sleep ← cras_frames_to_time (u32 (cras_rstream_get_cb_threshold s)) (u32 (frame_rate stream_fmt));
  let s := set_rs_next_cb_ts cb_ts (set_rs_sleep_interval_ts sleep s) in
  s ← cras_rstream_dev_attach (de_fresh env) s dev_id dev_ptr;
  Some (Some {| ds_dev_id := dev_id; ds_conv := conv; ds_conv_buffer := b;
                ds_conv_area := cras_audio_area_create (s32 (num_channels ofmt));
                ds_conv_buffer_size_frames := size_frames; ds_dev_rate := frame_rate dev_fmt;
                ds_is_running := false |}, s).

Definition dev_stream_destroy (d : dev_stream) (s : cras_rstream) : cras_rstream :=
  cras_rstream_dev_detach s (ds_dev_id d).

(** [cras_frames_to_time_precise]. *)
Definition cras_frames_to_time_precise (frames : Z) (rate : spec_float) : option timespec :=
  let seconds := f64_div (f64_of_Z frames) rate in
  sec ← f32_to_u32 seconds;
  let seconds := f64_sub seconds (f64_of_Z sec) in
  nsec ← f32_to_u32 (f64_mul seconds (f64_of_Z 1000000000));
  Some (Timespec sec nsec).

(** The ratios are [double]; the converter takes [float]. *)
Definition dev_stream_set_dev_rate (d : dev_stream) (s : cras_rstream) (dev_rate : Z)
    (dev_rate_ratio master_rate_ratio : spec_float) (coarse_rate_adjust : Z)
  : option (dev_stream * cras_rstream) :=
  c ← ds_conv d;
  if ds_dev_id d =? u32 (md_dev_id (rs_master_dev s)) then
    c ← cras_fmt_conv_set_linear_resample_rates c (f32_of_Z dev_rate) (f32_of_Z dev_rate);
    sleep ← cras_frames_to_time_precise (u32 (cras_rstream_get_cb_threshold s))
              (f64_mul (f64_of_Z (frame_rate (rs_format s))) dev_rate_ratio);
    Some (set_ds_conv (Some c) (ds_conv_buffer d) d, set_rs_sleep_interval_ts sleep s)
  else
    let new_rate :=
      f64_add (f64_div (f64_mul (f64_of_Z dev_rate) dev_rate_ratio) master_rate_ratio)
        (f64_of_Z (coarse_rate_adjust_step * coarse_rate_adjust)) in
    c ← cras_fmt_conv_set_linear_resample_rates c (f32_of_Z dev_rate) (f32_of_f64 new_rate);
    Some (set_ds_conv (Some c) (ds_conv_buffer d) d, s).

Definition dev_stream_update_frames (s : cras_rstream) : option cras_rstream :=
  cras_rstream_update_queued_frames s.

Definition dev_stream_playback_frames (d : dev_stream) (s : cras_rstream) : option Z :=
  let frames := s32 (cras_rstream_playable_frames s (ds_dev_id d)) in
  if frames <? 0 then Some frames else
  match ds_conv d with
  | None => Some frames
  | Some _ => s32 <$> cras_fmt_conv_in_frames_to_out (ds_conv d) frames
  end.

Definition dev_stream_cb_threshold (d : dev_stream) (s : cras_rstream) : option Z :=
  let cb_threshold := u32 (cras_rstream_get_cb_threshold s) in
  u32 <$> (if rs_direction s =? CRAS_STREAM_OUTPUT
           then cras_fmt_conv_in_frames_to_out (ds_conv d) cb_threshold
           else cras_fmt_conv_out_frames_to_in (ds_conv d) cb_threshold).

(** ** Playback *)

(** Memory from a pointer on, and with the bytes from there replaced. *)
Definition from_ptr (m : list Z) (p : Z) : list Z := drop (Z.to_nat p) m.
Definition set_from_ptr (m : list Z) (p : Z) (new : list Z) : list Z := take (Z.to_nat p) m ++ new.

Definition set_bytes (b : byte_buffer) (m : list Z) : byte_buffer :=
  ByteBuffer (write_idx b) (read_idx b) (level b) (max_size b) (ByteBuffer.used_size b) m.

(** The state of the mixing loop: the counts, [target] and what changes. *)
Record mix_state : Type := MixState {
  mx_written : Z; mx_read : Z; mx_target : Z; mx_dev : dev_stream; mx_dst : list Z
}.

(** One pass; [None] inside is the [break]. *)
Definition mix_pass (s : cras_rstream) (fmt : cras_audio_format) (buffer_offset num_to_write : Z)
    (mix_vol : spec_float) (m : mix_state) : option (option mix_state) :=
  '(src, frames) ← cras_rstream_get_readable_frames s (u32 (buffer_offset + mx_read m));
  if frames =? 0 then Some None else
  src ← src;
  c ← ds_conv (mx_dev m);
  let room := u32 (num_to_write - mx_written m) in
  let shm := samples (rs_shm s) in
  '(dev_frames, read_frames, sm, src, d) ←
    (if cras_fmt_conversion_needed c then
       '(n, used, out, c) ← cras_fmt_conv_convert_frames c (from_ptr shm src)
          (bytes (ds_conv_buffer (mx_dev m))) (u32 frames) room;
       Some (u32 n, used, out, 0,
             set_ds_conv (Some c) (set_bytes (ds_conv_buffer (mx_dev m)) out) (mx_dev m))
     else
       let n := u32 (cmin frames room) in Some (n, n, shm, src, mx_dev m));
  let num_samples := u32 (dev_frames * num_channels fmt) in
  dst ← mix_add (format fmt) (mx_dst m) (mx_target m) sm src num_samples 1 (cras_rstream_get_mute s) mix_vol;
  Some (Some (MixState (u32 (mx_written m + dev_frames)) (u32 (mx_read m + read_frames))
    (mx_target m + dev_frames * cras_get_format_bytes fmt) d dst)).

Fixpoint mix_loop (fuel : nat) (s : cras_rstream) (fmt : cras_audio_format)
    (buffer_offset num_to_write : Z) (mix_vol : spec_float) (m : mix_state) : option mix_state :=
  match fuel with
  | O => None
  | S fuel =>
      if negb (mx_written m <? num_to_write) then Some m else
      r ← mix_pass s fmt buffer_offset num_to_write mix_vol m;
      match r with
      | None => Some m
      | Some m => mix_loop fuel s fmt buffer_offset num_to_write mix_vol m
      end
  end.

(** Returns the frames mixed, or an error, and the device's buffer [dst] from
    the pointer on. *)
Definition dev_stream_mix (fuel : nat) (d : dev_stream) (s : cras_rstream) (fmt : cras_audio_format)
    (dst : list Z) (num_to_write : Z) : option (Z * dev_stream * cras_rstream * list Z) :=
  fr_in_buf ← dev_stream_playback_frames d s;
  if fr_in_buf <=? 0 then Some (fr_in_buf, d, s, dst) else
  let num_to_write := if u32 fr_in_buf <? num_to_write then u32 fr_in_buf else num_to_write in
  let buffer_offset := cras_rstream_dev_offset s (ds_dev_id d) in
  m ← mix_loop fuel s fmt buffer_offset num_to_write (cras_rstream_get_volume_scaler s)
        (MixState 0 0 0 d dst);
  Some (s32 (mx_written m), mx_dev m, cras_rstream_dev_offset_update s (mx_read m) (ds_dev_id d),
        mx_dst m).

Definition dev_stream_playback_update_rstream (s : cras_rstream) : cras_rstream :=
  cras_rstream_update_output_read_pointer s.

(** ** Capture *)

(** Frames of the device that the stream has room for. *)
Definition dev_stream_capture_avail (d : dev_stream) (s : cras_rstream) : option Z :=
  let dev_offset := cras_rstream_dev_offset s (ds_dev_id d) in
  let wlimit := u32 (u32 (cras_rstream_get_max_write_frames s) - dev_offset) in
  '(_, frames_avail) ← cras_shm_get_writeable_frames (rs_shm s) wlimit;
  match ds_conv d with
  | None => Some frames_avail
  | Some c =>
      let format_bytes := u32 (cras_get_format_bytes (fc_out_fmt c)) in
      conv_buf_level ← udiv (buf_queued (ds_conv_buffer d)) format_bytes;
      if frames_avail <=? conv_buf_level then Some 0 else
      let frames_avail := u32 (frames_avail - conv_buf_level) in
      avail ← udiv (buf_available (ds_conv_buffer d)) format_bytes;
      u32 <$> cras_fmt_conv_out_frames_to_in (Some c) (cmin frames_avail avail)
  end.

(** The loop of [capture_with_fmt_conv]: the converter, its buffer, the frames
    read and the source pointer. *)
Fixpoint capture_conv_loop (fuel : nat) (sm : list Z) (num_frames src_bytes dst_bytes : Z)
    (c : cras_fmt_conv) (b : byte_buffer) (total_read src : Z)
  : option (cras_fmt_conv * byte_buffer * Z) :=
  match fuel with
  | O => None
  | S fuel =>
      if negb (total_read <? num_frames) then Some (c, b, total_read) else
      let '(buffer, size) := buf_write_pointer_size b in
      write_frames ← udiv size dst_bytes;
      if write_frames =? 0 then Some (c, b, total_read) else
      '(n, used, out, c) ← cras_fmt_conv_convert_frames c (from_ptr sm src)
         (from_ptr (bytes b) buffer) (u32 (num_frames - total_read)) write_frames;
      b ← buf_increment_write (set_bytes b (set_from_ptr (bytes b) buffer out)) (u32 (u32 n * dst_bytes));
      capture_conv_loop fuel sm num_frames src_bytes dst_bytes c b (u32 (total_read + used))
        (src + u32 (used * src_bytes))
  end.

Definition set_area_channels (a : cras_audio_area) (n : Z) : cras_audio_area :=
  AudioArea (frames a) n (channels a).
Definition set_area_frames (a : cras_audio_area) (n : Z) : cras_audio_area :=
  AudioArea n (area_channels a) (channels a).

(** Returns the frames read from [sm] at [src]. *)
Definition capture_with_fmt_conv (fuel : nat) (d : dev_stream) (sm : list Z) (src num_frames : Z)
  : option (Z * dev_stream) :=
  c ← ds_conv d;
  let source_frame_bytes := u32 (cras_get_format_bytes (fc_in_fmt c)) in
  let dst_frame_bytes := u32 (cras_get_format_bytes (fc_out_fmt c)) in
  let d := set_ds_area (set_area_channels (ds_conv_area d) (u32 (num_channels (fc_out_fmt c)))) d in
  '(c, b, total_read) ← capture_conv_loop fuel sm num_frames source_frame_bytes dst_frame_bytes c
     (ds_conv_buffer d) 0 src;
  Some (total_read, set_ds_conv (Some c) b d).

Definition set_shm_samples (m : list Z) (s : cras_rstream) : cras_rstream :=
  set_rs_shm (AudioShm (config (rs_shm s)) (header (rs_shm s)) (samples_length (rs_shm s)) m) s.

(** The loop of [capture_copy_converted_to_stream]. *)
Fixpoint copy_converted_loop (fuel : nat) (fmt : cras_audio_format) (frame_bytes num_frames : Z)
    (stream_samples : Z) (scaler : spec_float) (dev_id : Z) (a : cras_audio_area) (b : byte_buffer)
    (s : cras_rstream) (offset total_written : Z)
  : option (cras_audio_area * byte_buffer * cras_rstream * Z) :=
  match fuel with
  | O => None
  | S fuel =>
      if negb (total_written <? num_frames) then Some (a, b, s, total_written) else
      let '(converted_samples, size) := buf_read_pointer_size b in
      write_frames ← udiv size frame_bytes;
      let write_frames := cmin write_frames (u32 (num_frames - total_written)) in
      a ← cras_audio_area_config_buf_pointers a fmt converted_samples;
      a ← cras_audio_area_config_channels a fmt;
      let a := set_area_frames a write_frames in
      area ← cras_audio_area_config_buf_pointers (rs_audio_area s) (rs_format s) stream_samples;
      let s := set_rs_audio_area area s in
      '(_, m) ← cras_audio_area_copy area offset (rs_format s) a 0 scaler (samples (rs_shm s)) (bytes b);
      let s := set_shm_samples m s in
      b ← buf_increment_read b (u32 (write_frames * frame_bytes));
      let s := cras_rstream_dev_offset_update s write_frames dev_id in
      copy_converted_loop fuel fmt frame_bytes num_frames stream_samples scaler dev_id a b s
        (cras_rstream_dev_offset s dev_id) (u32 (total_written + write_frames))
  end.

Definition capture_copy_converted_to_stream (fuel : nat) (d : dev_stream) (s : cras_rstream)
    (software_gain_scaler : spec_float) : option (Z * dev_stream * cras_rstream) :=
  c ← ds_conv d;
  let fmt := fc_out_fmt c in
  let frame_bytes := u32 (cras_get_format_bytes fmt) in
  let offset := cras_rstream_dev_offset s (ds_dev_id d) in
  '(stream_samples, n) ← cras_shm_get_writeable_frames (rs_shm s) (u32 (cras_rstream_get_cb_threshold s));
  let s := set_rs_audio_area (set_area_frames (rs_audio_area s) n) s in
  queued ← udiv (buf_queued (ds_conv_buffer d)) frame_bytes;
  let num_frames := cmin (u32 (n - offset)) queued in
  '(a, b, s, total) ← copy_converted_loop fuel fmt frame_bytes num_frames stream_samples
     software_gain_scaler (ds_dev_id d) (ds_conv_area d) (ds_conv_buffer d) s offset 0;
  Some (total, set_ds_area a (set_ds_conv (Some c) b d), s).

(** [area] describes the device's samples [sm]; returns the frames read. *)
Definition dev_stream_capture (fuel : nat) (d : dev_stream) (s : cras_rstream)
    (area : cras_audio_area) (area_offset : Z) (software_gain_scaler : spec_float) (sm : list Z)
  : option (Z * dev_stream * cras_rstream) :=
  c ← ds_conv d;
  if cras_fmt_conversion_needed c then
    fr_to_capture ← dev_stream_capture_avail d s;
    let fr_to_capture := cmin fr_to_capture (u32 (frames area - area_offset)) in
    let format_bytes := u32 (cras_get_format_bytes (fc_in_fmt c)) in
    ca ← ld (channels area) 0;
    '(nread, d) ← capture_with_fmt_conv fuel d sm (buf ca + u32 (area_offset * format_bytes)) fr_to_capture;
    '(_, d, s) ← capture_copy_converted_to_stream fuel d s software_gain_scaler;
    Some (nread, d, s)
  else
    let offset := cras_rstream_dev_offset s (ds_dev_id d) in
    '(stream_samples, n) ← cras_shm_get_writeable_frames (rs_shm s) (u32 (cras_rstream_get_cb_threshold s));
    sa ← cras_audio_area_config_buf_pointers (set_area_frames (rs_audio_area s) n) (rs_format s) stream_samples;
    let s := set_rs_audio_area sa s in
    '(nread, m) ← cras_audio_area_copy sa offset (rs_format s) area area_offset software_gain_scaler
       (samples (rs_shm s)) sm;
    Some (nread, d, cras_rstream_dev_offset_update (set_shm_samples m s) nread (ds_dev_id d)).

(** ** The schedule

    [now] is what [clock_gettime] returned; a function that reads the clock
    again takes what it returned then. *)

(** [cras_server_metrics_missed_cb_event], on the stream; the reports it sends
    leave the server. *)
Definition cras_server_metrics_missed_cb_event (now : timespec) (s : cras_rstream) : cras_rstream :=
  let s := set_rs_num_missed_cb (s32 (rs_num_missed_cb s + 1)) s in
  if rs_num_missed_cb s =? 1 then set_rs_first_missed_cb_ts now s else s.

Definition check_next_wake_time (now missed_now : timespec) (s : cras_rstream) : option cras_rstream :=
  if timespec_after now (rs_next_cb_ts s) then
    t ← add_timespecs now (rs_sleep_interval_ts s);
    Some (cras_server_metrics_missed_cb_event missed_now (set_rs_next_cb_ts t s))
  else Some s.

Definition dev_stream_update_next_wake_time (now missed_now : timespec) (s : cras_rstream)
  : option cras_rstream :=
  if (rs_direction s =? CRAS_STREAM_INPUT) && negb (timespec_is_nonzero (Some (rs_next_cb_ts s))) then
    t ← add_timespecs now (rs_sleep_interval_ts s); Some (set_rs_next_cb_ts t s)
  else
    t ← add_timespecs (rs_next_cb_ts s) (rs_sleep_interval_ts s);
    check_next_wake_time now missed_now (set_rs_next_cb_ts t s).

Definition late_enough_for_capture_callback (now : timespec) (s : cras_rstream) : option bool :=
  t ← add_timespecs now capture_callback_fuzz_ts; Some (timespec_after t (rs_next_cb_ts s)).

(** Returns the result, the messages sent and the stream. *)
Definition dev_stream_capture_update_rstream (late_now now missed_now : timespec) (write_rc : Z)
    (s : cras_rstream) : option (Z * list audio_message * cras_rstream) :=
  if has_flag (rs_flags s) TRIGGER_ONLY && negb (rs_triggered s =? 0) then Some (0, [], s) else
  let s := cras_rstream_update_input_write_pointer s in
  late ← (if has_flag (rs_flags s) BULK_AUDIO_OK then Some true
          else late_enough_for_capture_callback late_now s);
  if negb late then Some (0, [], s) else
  met ← cras_rstream_input_level_met s;
  if negb met then Some (0, [], s) else
  frames_ready ← (if has_flag (rs_flags s) BULK_AUDIO_OK then cras_rstream_level s
                  else Some (u32 (cras_rstream_get_cb_threshold s)));
  let '(rc, msgs, s) := cras_rstream_audio_ready s frames_ready write_rc in
  if rc <? 0 then Some (rc, msgs, s) else
  let s := if has_flag (rs_flags s) TRIGGER_ONLY then set_rs_triggered 1 s else s in
  s ← dev_stream_update_next_wake_time now missed_now s;
  Some (0, msgs, s).

(** The time stamps are [cras_timespec], 64 bits each: [now] is the clock. *)
Definition cras_set_playback_timestamp (now : timespec) (frame_rate frames : Z) : option timespec :=
  n ← udiv (u64 (frames * 1000000000)) frame_rate;
  let ts := Timespec (tv_sec now) (s64 (u64 (tv_nsec now + n))) in
  cwhile (fun ts => u64 (tv_nsec ts) >? 1000000000)
    (fun ts => Some (Timespec (tv_sec ts + 1) (s64 (u64 (tv_nsec ts - 1000000000)))))
    (S (Z.to_nat (u64 (tv_nsec ts) / 1000000000 + 1))) ts.

Definition cras_set_capture_timestamp (now : timespec) (frame_rate frames : Z) : option timespec :=
  q ← udiv 1000000000 frame_rate;
  let tmp := s64 (u64 (frames * q)) in
  '(sec, tmp) ← cwhile (fun '(sec, tmp) => tmp >? 1000000000)
    (fun '(sec, tmp) => Some (sec - 1, tmp - 1000000000)) (S (Z.to_nat (tmp / 1000000000 + 1))) (tv_sec now, tmp);
  Some (if tv_nsec now >=? tmp then Timespec sec (tv_nsec now - tmp)
        else Timespec (sec - 1) (1000000000 - (tmp - tv_nsec now))).

Definition set_shm_ts (t : timespec) (s : cras_rstream) : cras_rstream :=
  let h := header (rs_shm s) in
  set_rs_shm (AudioShm (config (rs_shm s))
    {| h_config := h_config h; read_buf_idx := read_buf_idx h; write_buf_idx := write_buf_idx h;
       read_offset := read_offset h; write_offset := write_offset h;
       write_in_progress := write_in_progress h; volume_scaler := volume_scaler h; mute := mute h;
       callback_pending := callback_pending h; num_overruns := num_overruns h; ts := t;
       buffer_offset := buffer_offset h |} (samples_length (rs_shm s)) (samples (rs_shm s))) s.

Definition dev_stream_set_delay (d : dev_stream) (now : timespec) (delay_frames : Z) (s : cras_rstream)
  : option cras_rstream :=
  if rs_direction s =? CRAS_STREAM_OUTPUT then
    stream_frames ← cras_fmt_conv_out_frames_to_in (ds_conv d) delay_frames;
    queued ← cras_shm_get_frames (rs_shm s);
    t ← cras_set_playback_timestamp now (frame_rate (rs_format s)) (u64 (u32 (u32 stream_frames + queued)));
    Some (set_shm_ts t s)
  else
    stream_frames ← cras_fmt_conv_in_frames_to_out (ds_conv d) delay_frames;
    written ← cras_shm_frames_written (rs_shm s);
    if written =? 0 then
      t ← cras_set_capture_timestamp now (frame_rate (rs_format s)) (u32 stream_frames);
      Some (set_shm_ts t s)
    else Some s.

(** [fetch_now] is the caller's argument. *)
Definition dev_stream_request_playback_samples (fetch_now now missed_now : timespec) (write_rc : Z)
    (s : cras_rstream) : option (Z * list audio_message * cras_rstream) :=
  let '(rc, msgs, s) := cras_rstream_request_audio s fetch_now write_rc in
  if rc <? 0 then Some (rc, msgs, s) else
  s ← dev_stream_update_next_wake_time now missed_now s;
  Some (0, msgs, s).

Definition dev_stream_is_pending_reply (s : cras_rstream) : Z := cras_rstream_is_pending_reply s.

Definition dev_stream_poll_stream_fd (s : cras_rstream) : Z :=
  let pending := negb (cras_rstream_is_pending_reply s =? 0) in
  if stream_uses_input s && has_flag (rs_flags s) USE_DEV_TIMING && pending then rs_fd s
  else if negb (stream_uses_output s) || negb pending || negb (cras_rstream_get_is_draining s =? 0) then -1
  else rs_fd s.

(** The result and the wake time, when it is set. *)
Definition get_input_wake_time (d : dev_stream) (curr_level : Z) (level_tstamp : timespec)
    (cap_limit : Z) (is_cap_limit_stream : bool) (s : cras_rstream) : option (Z * option timespec) :=
  needed ← dev_stream_capture_avail d s;
  let needed := s32 needed in
  if negb is_cap_limit_stream && (u32 needed >? cap_limit) then Some (1, None) else
  let dev_timing := has_flag (rs_flags s) USE_DEV_TIMING in
  if dev_timing && negb (cras_rstream_is_pending_reply s =? 0) then Some (1, None) else
  let needed := if curr_level >=? u32 needed then 0 else s32 (u32 needed - curr_level) in
  time_for_sample ← cras_frames_to_time (u32 needed) (u32 (ds_dev_rate d));
  time_for_sample ← add_timespecs time_for_sample level_tstamp;
  Some (0, Some (if timespec_after time_for_sample (rs_next_cb_ts s) || dev_timing
                 then time_for_sample else rs_next_cb_ts s)).

Definition dev_stream_wake_time (d : dev_stream) (curr_level : Z) (level_tstamp : timespec)
    (cap_limit : Z) (is_cap_limit_stream : bool) (s : cras_rstream) : option (Z * option timespec) :=
  if rs_direction s =? CRAS_STREAM_OUTPUT then Some (- EINVAL, None)
  else get_input_wake_time d curr_level level_tstamp cap_limit is_cap_limit_stream s.

Definition dev_stream_attached_devs (s : cras_rstream) : Z := rs_num_attached_devs s.

Definition dev_stream_flush_old_audio_messages (s : cras_rstream) (turns : list poll_turn)
  : option cras_rstream := cras_rstream_flush_old_audio_messages s turns.
End DevStream.

(** ** A converter with nothing to do *)

(** No step, and the resampler as it is created. *)
Record passthrough {P : pcm_library} {L : speex_library} (c : cras_fmt_conv) : Prop := {
  pt_steps : fc_num_converters c = 1;
  pt_resampler : linear_resampler_needed (fc_resampler c) = false;
  pt_offsets : lr_src_offset (fc_resampler c) = 0 /\ lr_dst_offset (fc_resampler c) = 0;
  pt_factor : lr_f (fc_resampler c) = float_one;
  pt_rates : frame_rate (fc_in_fmt c) = frame_rate (fc_out_fmt c);
  pt_rate : 0 < frame_rate (fc_out_fmt c) < 4294967296
}.

Lemma frames_at_same_rate (rate n : Z) :
  0 < rate < 4294967296 -> 0 <= n < 4294967296 -> cras_frames_at_rate rate n rate = Some n.
Proof.
  intros Hr Hn. unfold cras_frames_at_rate. assert (0 <= n * rate < 18446744069414584321) by nia.
  rewrite udiv_Some, (u64_small (n * rate)), (u64_small (n * rate + rate)), u64_small by lia. f_equal.
  symmetry. apply (Z.div_unique _ _ n (rate - 1)); lia.
Qed.

Lemma float_ltb_of_Z (a b : Z) :
  f32_exact a -> f32_exact b -> SFltb (f32_of_Z a) (f32_of_Z b) = (a <? b).
Proof.
  intros Ha Hb. destruct (fval_of_Z a Ha) as [Fa Va]. destruct (fval_of_Z b Hb) as [Fb Vb].
  rewrite ltb_fval, Va, Vb by done. pose proof pw0_pos.
  destruct (Z.ltb_spec a b), (Z.ltb_spec (a * pw 0) (b * pw 0)); nia || done.
Qed.

Lemma float_sub_zero (z : Z) : f32_exact z -> f32_sub (f32_of_Z z) (f32_of_Z 0) = f32_of_Z z.
Proof. intros Hz. by destruct (f32_of_Z_cases z Hz) as [[-> ->]|(s & m & k & _ & _ & -> & _)]. Qed.

Lemma passthrough_frames {P : pcm_library} {L : speex_library} (c : cras_fmt_conv) (n : Z) :
  passthrough c -> 0 <= n < 16777216 ->
  cras_fmt_conv_in_frames_to_out (Some c) n = Some n /\ cras_fmt_conversion_needed c = false.
Proof.
  intros [Hs Hl [Hso Hdo] Hf Hr Hr0] Hn. split.
  - assert (Hlr : linear_resampler_in_frames_to_out (fc_resampler c) n = Some n).
    { unfold linear_resampler_in_frames_to_out. rewrite Hso, Hdo, Hf.
      destruct (Z.eqb_spec n 0) as [->|Hne]; [done|]. rewrite u32_small by lia.
      rewrite f32_mul_one by (unfold f32_exact; lia).
      replace (0 + n - 1) with (n - 1) by lia. rewrite float_ltb_of_Z by (unfold f32_exact; lia).
      destruct (Z.ltb_spec 0 (n - 1)); [|f_equal; lia].
      rewrite float_sub_zero by (unfold f32_exact; lia). unfold f32_to_u32.
      rewrite f32_trunc_of_Z by (unfold f32_exact; lia). cbn [mbind option_bind]. zdecide. cbn [andb].
      cbn [mbind option_bind]. rewrite u32_small by lia. f_equal. lia. }
    unfold cras_fmt_conv_in_frames_to_out. rewrite Hr, u32_small by lia.
    destruct (fc_pre_linear_resample c =? 0); cbn [negb]; rewrite ?Hlr; cbn [mbind option_bind];
      rewrite frames_at_same_rate by lia; cbn [mbind option_bind]; [|done].
    by rewrite u32_small, Hlr by lia.
  - unfold cras_fmt_conversion_needed. by rewrite Hl, Hs.
Qed.

(** ** Mixing a stream that needs no conversion *)

Section MixQueue.
Context {P : pcm_library} {L : speex_library}.
Context (fmt : cras_audio_format) (C : Codec) (R : Z -> Z -> spec_float -> Z -> Z -> option Z).
Context (s : cras_rstream) (d : dev_stream) (c : cras_fmt_conv) (offset : Z) (dst : list Z) (vol : spec_float).
#[local] Abbreviation shm := (rs_shm s).
#[local] Abbreviation fb := (frame_bytes (config shm)).
#[local] Abbreviation q := (queued shm).
#[local] Abbreviation value := (R 1 (cras_rstream_get_mute s) vol).
Hypothesis pcm : pcm_documented P.
Hypothesis sample_format : mix_format (format fmt) C R.
Hypothesis no_s24 : format fmt <> SND_PCM_FORMAT_S24_LE.
Hypothesis honest : shm_ok shm.
Hypothesis stream_frame : fb = num_channels fmt * width.
Hypothesis dev_frame : cras_get_format_bytes fmt = fb.
Hypothesis some_channel : 0 < num_channels fmt.
Hypothesis volume_ok : volume vol.
Hypothesis has_conv : ds_conv d = Some c.
Hypothesis nothing_to_do : cras_fmt_conversion_needed c = false.
Hypothesis offset_ok : 0 <= offset.

Definition mixed_so_far (w : Z) (m : mix_state) : Prop :=
  mx_written m = w /\ mx_read m = w /\ mx_target m = w * fb /\ mx_dev m = d /\
  mixed_into C value dst 0 q (offset * fb) (w * num_channels fmt) (mx_dst m).

Lemma queue_bound : Z.of_nat (length q) < 2147483648.
Proof.
  rewrite queued_length by done. pose proof (used_twice shm honest). pose proof (r_idx shm honest) as Hr.
  pose proof (idx_other _ Hr) as Ho. pose proof honest as [[] []].
  pose proof (ho_range _ Hr). pose proof (ho_range _ Ho). lia.
Qed.

Lemma mix_pass_queue (w n : Z) (m : mix_state) :
  0 <= w < n -> (offset + n) * fb <= Z.of_nat (length q) -> n * fb <= Z.of_nat (length dst) ->
  mixed_so_far w m ->
  exists k m', mix_pass s fmt offset n vol m = Some (Some m') /\ 0 < k <= n - w /\ mixed_so_far (w + k) m'.
Proof.
  intros Hw Hq Hd (Ew & Er & Et & Ed & Hm). pose proof queue_bound as Hqb.
  pose proof width_pos as Hwp. assert (Hfb : 0 < fb) by nia.
  assert (Hbig : offset + n <= Z.of_nat (length q)) by nia.
  unfold mix_pass. rewrite Ew, Er, Ed, Et, has_conv. rewrite (u32_small (offset + w)) by lia.
  destruct (readable_frames_ok shm (offset + w) honest) as (p & k & Hk & Hk0 & Hread); [lia|nia|].
  unfold cras_rstream_get_readable_frames. rewrite Hk. cbn [mbind option_bind]. zdecide.
  cbn [mbind option_bind]. rewrite nothing_to_do, (u32_small (n - w)), cmin_min by lia.
  set (j := Z.min k (n - w)). assert (Hj : 0 < j <= n - w /\ j <= k) by (unfold j; lia).
  rewrite (u32_small j) by lia. cbn [mbind option_bind].
  assert (Hjc : 0 <= j * num_channels fmt < 2147483648) by nia. rewrite (u32_small (j * _)) by lia.
  assert (Hmr : 0 <= p /\ p + k * fb <= Z.of_nat (length (samples shm))).
  { unfold mem_read in Hread. destruct (_ && _) eqn:Hb; [|done].
    rewrite !andb_true_iff, !Z.leb_le in Hb. lia. }
  destruct Hm as (Hlen & Hm).
  destruct (mix_add_volume_ok (format fmt) C R (mx_dst m) (w * fb) (samples shm) p (j * num_channels fmt)
    1 (cras_rstream_get_mute s) vol) as (dst' & Hmix & Hinto); try done.
  { split; [nia|]. split; [lia|]. rewrite Hlen. nia. }
  { split; [lia|]. split; [lia|]. nia. }
  rewrite Hmix. cbn [mbind option_bind]. eexists j, _. split; [done|]. split; [lia|].
  unfold mixed_so_far. cbn [mx_written mx_read mx_target mx_dev mx_dst]. rewrite !u32_small, dev_frame by lia.
  split_and!; try done; [lia|].
  rewrite Z.mul_add_distr_r. apply (mixed_into_app C value dst q (mx_dst m) (samples shm) dst' (offset * fb) p);
    [nia|nia|done| |].
  - replace (w * num_channels fmt * width) with (w * fb) by lia. done.
  - intros i Hi.
    assert (Hin : 0 <= i * width /\ i * width + width <= j * fb).
    { rewrite stream_frame, Z.mul_assoc. split; [nia|]. rewrite <- (Z.mul_1_l width) at 2.
      rewrite <- Z.mul_add_distr_r. apply Z.mul_le_mono_nonneg_r; lia. }
    assert (j * fb <= k * fb) by (apply Z.mul_le_mono_nonneg_r; lia).
    assert ((offset + w) * fb + j * fb <= (offset + n) * fb).
    { rewrite <- Z.mul_add_distr_r. apply Z.mul_le_mono_nonneg_r; lia. }
    assert (0 <= (offset + w) * fb) by (apply Z.mul_nonneg_nonneg; lia).
    rewrite (rd_of_read C _ _ _ _ (i * width) Hread) by lia.
    rewrite rd_window by lia. f_equal. rewrite stream_frame. ring.
Qed.

Lemma mix_loop_queue (n : Z) (fuel : nat) (w : Z) (m : mix_state) :
  0 <= w <= n -> (offset + n) * fb <= Z.of_nat (length q) -> n * fb <= Z.of_nat (length dst) ->
  (Z.to_nat (n - w) < fuel)%nat -> mixed_so_far w m ->
  exists m', mix_loop fuel s fmt offset n vol m = Some m' /\ mixed_so_far n m'.
Proof.
  intros Hw Hq Hd. revert w m Hw. induction fuel as [|fuel IH]; intros w m Hw Hf Hm; [lia|].
  cbn [mix_loop]. pose proof (proj1 Hm) as Ew. rewrite Ew. destruct (Z.ltb_spec w n) as [Hlt|Hge]; cbn [negb].
  - destruct (mix_pass_queue w n m) as (k & m' & -> & Hk & Hm'); [lia|done..|]. cbn [mbind option_bind].
    apply (IH (w + k)); [lia|lia|done].
  - exists m. split; [done|]. by replace n with w by lia.
Qed.
End MixQueue.

Lemma queue_mixed {P : pcm_library} {L : speex_library} (fuel : nat) (fmt : cras_audio_format)
    (C : Codec) R (s : cras_rstream) (d : dev_stream) (c : cras_fmt_conv) (dst : list Z) (num_to_write : Z) :
  let offset := cras_rstream_dev_offset s (ds_dev_id d) in
  let fb := frame_bytes (config (rs_shm s)) in
  let n := Z.min num_to_write (rs_queued_frames s - offset) in
  pcm_documented P -> mix_format (format fmt) C R -> format fmt <> SND_PCM_FORMAT_S24_LE ->
  shm_ok (rs_shm s) -> fb = num_channels fmt * width -> cras_get_format_bytes fmt = fb ->
  0 < num_channels fmt -> volume (cras_rstream_get_volume_scaler s) ->
  ds_conv d = Some c -> passthrough c ->
  0 <= offset < rs_queued_frames s -> rs_queued_frames s < 16777216 ->
  rs_queued_frames s * fb <= Z.of_nat (length (queued (rs_shm s))) ->
  0 < num_to_write < 4294967296 -> num_to_write * fb <= Z.of_nat (length dst) ->
  (Z.to_nat num_to_write < fuel)%nat ->
  exists dst', dev_stream_mix fuel d s fmt dst num_to_write =
      Some (n, d, cras_rstream_dev_offset_update s n (ds_dev_id d), dst') /\
    mixed_into C (R 1 (cras_rstream_get_mute s) (cras_rstream_get_volume_scaler s)) dst 0
      (queued (rs_shm s)) (offset * fb) (n * num_channels fmt) dst'.
Proof.
  intros offset fb n HP Hf Hn24 Hok Hfb Hdev Hch Hvol Hc Hpass Hoff Hqf Hq Hw Hdst Hfuel.
  destruct (passthrough_frames c (rs_queued_frames s - offset) Hpass) as [Hframes Hneed]; [lia|].
  unfold dev_stream_mix, dev_stream_playback_frames, cras_rstream_playable_frames. fold offset.
  rewrite u32_small, s32_small by lia. zdecide. rewrite Hc, Hframes. cbn [fmap option_fmap option_map mbind option_bind].
  rewrite s32_small by lia. zdecide. rewrite u32_small by lia.
  replace (if _ <? num_to_write then _ else _) with n by (unfold n; zcases; lia).
  destruct (mix_loop_queue fmt C R s d c offset dst (cras_rstream_get_volume_scaler s)) with
    (n := n) (fuel := fuel) (w := 0) (m := MixState 0 0 0 d dst) as (m & -> & Hm); try done; try nia.
  { split_and!; try done. apply mixed_into_nil. }
  cbn [mbind option_bind]. destruct Hm as (-> & -> & _ & -> & Hinto). exists (mx_dst m). split; [|done].
  by rewrite s32_small by lia.
Qed.

(** Claim C27: a playback stream whose converter has nothing to do plays its
    queue: [dev_stream_mix] mixes into the device's buffer, at the stream's
    volume, exactly the frames of the shared queue from the device's offset on,
    as many as were asked for and are playable, over the boundary of the two
    shared buffers, and advances the device by them; the other bytes of the
    buffer stay as they are. *)
Theorem mix_plays_queue {P : pcm_library} {L : speex_library} (fuel : nat) (fmt : cras_audio_format)
    (C : Codec) R (s : cras_rstream) (d : dev_stream) (c : cras_fmt_conv) (dst : list Z) (num_to_write : Z) :
  let offset := cras_rstream_dev_offset s (ds_dev_id d) in
  let fb := frame_bytes (config (rs_shm s)) in
  let n := Z.min num_to_write (rs_queued_frames s - offset) in
  pcm_documented P -> mix_format (format fmt) C R -> format fmt <> SND_PCM_FORMAT_S24_LE ->
  shm_ok (rs_shm s) -> fb = num_channels fmt * width -> cras_get_format_bytes fmt = fb ->
  0 < num_channels fmt -> volume (cras_rstream_get_volume_scaler s) ->
  ds_conv d = Some c -> passthrough c ->
  0 <= offset < rs_queued_frames s -> rs_queued_frames s < 16777216 ->
  rs_queued_frames s * fb <= Z.of_nat (length (queued (rs_shm s))) ->
  0 < num_to_write < 4294967296 -> num_to_write * fb <= Z.of_nat (length dst) ->
  (Z.to_nat num_to_write < fuel)%nat ->
  exists dst', dev_stream_mix fuel d s fmt dst num_to_write =
      Some (n, d, cras_rstream_dev_offset_update s n (ds_dev_id d), dst') /\
    mixed_into C (R 1 (cras_rstream_get_mute s) (cras_rstream_get_volume_scaler s)) dst 0
      (queued (rs_shm s)) (offset * fb) (n * num_channels fmt) dst'.
Proof. apply queue_mixed. Qed.

#[local] Existing Instances alsa_example speex_example.

Definition plain_conv : cras_fmt_conv :=
  {| fc_speex_state := None; fc_channel_converter := None; fc_ch_conv_mtx := None;
     fc_in_format_converter := None; fc_out_format_converter := None;
     fc_resampler := LinearResampler 2 4 0 0 4800000 4800000 float_one;
     fc_in_fmt := stereo_s16 48000; fc_out_fmt := stereo_s16 48000;
     fc_tmp_bufs := []; fc_tmp_buf_frames := 8; fc_pre_linear_resample := 0; fc_num_converters := 1 |}.

Definition device_9 : dev_stream :=
  DevStream 9 (Some plain_conv) (ByteBuffer 0 0 0 16 16 (replicate 16 0)) (cras_audio_area_create 2) 4 48000 true.

(** One of the two queued frames is left for device 9. *)
Lemma mix_plays_queue_witness :
  let s := set_rs_queued_frames 2 shared_stream in
  exists dst', dev_stream_mix 4 device_9 s (stereo_s16 48000) (replicate 12 1) 3 =
    Some (1, device_9, cras_rstream_dev_offset_update s 1 9, dst') /\
    mixed_into codec_s16 (mixed_s16 1 0 float_one) (replicate 12 1) 0
      [5; 6; 7; 8; 9; 10; 11; 12] 4 2 dst'.
Proof.
  intros s. destruct (mix_plays_queue 4 (stereo_s16 48000) codec_s16 mixed_s16 s device_9 plain_conv
    (replicate 12 1) 3) as (dst' & H & Hm).
  - exact alsa_example_documented.
  - by constructor.
  - done.
  - apply busy_shm_ok.
  - done.
  - by vm_compute.
  - done.
  - by vm_compute.
  - done.
  - by split.
  - by vm_compute.
  - done.
  - by vm_compute.
  - done.
  - by vm_compute.
  - simpl; lia.
  - exists dst'. exact (conj H Hm).
Defined.

(** ** The schedule of callbacks *)

(** What the schedule depends on, and what only a wake-up changes. *)
Definition same_schedule (s s' : cras_rstream) : Prop :=
  rs_direction s' = rs_direction s /\ rs_flags s' = rs_flags s /\
  rs_cb_threshold s' = rs_cb_threshold s /\ rs_sleep_interval_ts s' = rs_sleep_interval_ts s.

Record schedule_ok (s : cras_rstream) : Prop := {
  sc_next : normalised (rs_next_cb_ts s);
  sc_sleep : normalised (rs_sleep_interval_ts s) /\ 0 < ns (rs_sleep_interval_ts s)
}.

(** The next time is one interval on; from now when that has passed, or when a
    capture stream starts. *)
Definition next_time (now next interval : Z) (starts : bool) : Z :=
  if starts || (next + interval <? now) then now + interval else next + interval.

Lemma missed_cb_schedule (now : timespec) (s : cras_rstream) :
  let s' := cras_server_metrics_missed_cb_event now s in
  same_schedule s s' /\ rs_next_cb_ts s' = rs_next_cb_ts s /\ rs_shm s' = rs_shm s.
Proof. unfold cras_server_metrics_missed_cb_event. destruct (_ =? 1); repeat split. Qed.

Lemma update_next_wake_time_spec (now missed_now : timespec) (s : cras_rstream) :
  schedule_ok s -> normalised now ->
  exists s', dev_stream_update_next_wake_time now missed_now s = Some s' /\
    same_schedule s s' /\ schedule_ok s' /\ rs_shm s' = rs_shm s /\
    ns (rs_next_cb_ts s') = next_time (ns now) (ns (rs_next_cb_ts s)) (ns (rs_sleep_interval_ts s))
      ((rs_direction s =? CRAS_STREAM_INPUT) && negb (timespec_is_nonzero (Some (rs_next_cb_ts s)))).
Proof.
  intros [Hn [Hs Hpos]] Hnow. unfold dev_stream_update_next_wake_time, next_time.
  destruct (add_timespecs_spec now (rs_sleep_interval_ts s)) as (a & Ha & Hna & _ & Hda).
  specialize (Hda Hnow Hs). destruct (_ && negb _); cbn [orb].
  - rewrite Ha. cbn [mbind option_bind]. eexists. split; [done|].
    split; [by repeat split|]. split; [by split|]. split; [done|exact Hna].
  - destruct (add_timespecs_spec (rs_next_cb_ts s) (rs_sleep_interval_ts s)) as (b & Hb & Hnb & _ & Hdb).
    specialize (Hdb Hn Hs). rewrite Hb. cbn [mbind option_bind]. unfold check_next_wake_time.
    change (rs_next_cb_ts (set_rs_next_cb_ts b s)) with b.
    change (rs_sleep_interval_ts (set_rs_next_cb_ts b s)) with (rs_sleep_interval_ts s).
    rewrite timespec_after_ns, Hnb by done.
    destruct (Z.ltb_spec (ns (rs_next_cb_ts s) + ns (rs_sleep_interval_ts s)) (ns now)).
    + rewrite Ha. cbn [mbind option_bind]. eexists. split; [done|].
      destruct (missed_cb_schedule missed_now (set_rs_next_cb_ts a (set_rs_next_cb_ts b s)))
        as ((H1 & H2 & H3 & H4) & H5 & H6).
      split; [by repeat split|]. split; [split; [by rewrite H5|by rewrite H4]|].
      split; [by rewrite H6|]. rewrite H5. exact Hna.
    + eexists. split; [done|]. split; [by repeat split|]. split; [by split|]. split; [done|exact Hnb].
Qed.

(** A wake-up of the audio thread: its clock readings, and what [write] answers. *)
Record wakeup : Type := Wakeup {
  wk_late : timespec; wk_now : timespec; wk_missed : timespec; wk_write : Z
}.

(** A capture stream as the audio thread, its device and its client run it: the
    thread wakes up for it, or one of the others changes the shared memory and
    the positions.  The list is of the messages that were delivered. *)
Inductive capture_step : cras_rstream -> option wakeup -> list audio_message -> cras_rstream -> Prop :=
| capture_wakes s w rc msgs s' :
    normalised (wk_late w) -> normalised (wk_now w) ->
    dev_stream_capture_update_rstream (wk_late w) (wk_now w) (wk_missed w) (wk_write w) s = Some (rc, msgs, s') ->
    capture_step s (Some w) (if wk_write w <? 0 then [] else msgs) s'
| capture_others s s' :
    same_schedule s s' -> rs_next_cb_ts s' = rs_next_cb_ts s -> capture_step s None [] s'.

Inductive capture_run : cras_rstream -> list audio_message -> cras_rstream -> Prop :=
| capture_stays s : capture_run s [] s
| capture_goes s w m1 s1 m2 s2 :
    capture_step s w m1 s1 -> capture_run s1 m2 s2 -> capture_run s (m1 ++ m2) s2.

(** A client's stream that is paced by the schedule. *)
Definition paced (s : cras_rstream) : Prop :=
  rs_direction s = CRAS_STREAM_INPUT /\ has_flag (rs_flags s) TRIGGER_ONLY = false /\
  has_flag (rs_flags s) BULK_AUDIO_OK = false /\ stream_is_server_only s = false.

Lemma same_schedule_paced (s s' : cras_rstream) : same_schedule s s' -> paced s -> paced s'.
Proof. unfold paced, stream_is_server_only. by intros (-> & -> & _). Qed.

Lemma late_enough_spec (now : timespec) (s : cras_rstream) :
  schedule_ok s -> normalised now ->
  late_enough_for_capture_callback now s = Some (ns (rs_next_cb_ts s) <? ns now + 1000000).
Proof.
  intros [Hn _] Hnow. unfold late_enough_for_capture_callback.
  destruct (add_timespecs_spec now capture_callback_fuzz_ts) as (t & -> & Ht & _ & Hd).
  specialize (Hd Hnow ltac:(by split)). cbn [mbind option_bind].
  rewrite timespec_after_ns by done. by rewrite Ht.
Qed.

(** One wake-up of a paced stream. *)
Lemma capture_update_spec (w : wakeup) (s : cras_rstream) (rc : Z) (msgs : list audio_message) (s' : cras_rstream) :
  paced s -> schedule_ok s -> normalised (wk_late w) -> normalised (wk_now w) ->
  dev_stream_capture_update_rstream (wk_late w) (wk_now w) (wk_missed w) (wk_write w) s = Some (rc, msgs, s') ->
  let ready := cras_rstream_input_level_met (cras_rstream_update_input_write_pointer s) in
  let due := ns (rs_next_cb_ts s) <? ns (wk_late w) + 1000000 in
  same_schedule s s' /\ schedule_ok s' /\
  if due && bool_decide (ready = Some true) then
    msgs = [init_audio_message AUDIO_MESSAGE_DATA_READY (u32 (rs_cb_threshold s))] /\
    (0 <= wk_write w -> ns (rs_next_cb_ts s') = next_time (ns (wk_now w)) (ns (rs_next_cb_ts s))
       (ns (rs_sleep_interval_ts s)) (negb (timespec_is_nonzero (Some (rs_next_cb_ts s))))) /\
    (wk_write w < 0 -> rs_next_cb_ts s' = rs_next_cb_ts s)
  else msgs = [] /\ rs_next_cb_ts s' = rs_next_cb_ts s.
Proof.
  intros (Hd & Ht & Hb & Hso) Hok Hl Hn. unfold dev_stream_capture_update_rstream.
  rewrite Ht. cbn [andb].
  assert (Hs1 : exists bs m, cras_rstream_update_input_write_pointer s = set_rs_shm m (set_rs_buf_state bs s)).
  { unfold cras_rstream_update_input_write_pointer. destruct (buffer_share_get_new_write_point _). by eexists _, _. }
  destruct Hs1 as (bs & m & ->). set (s1 := set_rs_shm m (set_rs_buf_state bs s)).
  change (has_flag (rs_flags s1) BULK_AUDIO_OK) with (has_flag (rs_flags s) BULK_AUDIO_OK). rewrite Hb.
  assert (Hok1 : schedule_ok s1) by (by destruct Hok).
  assert (Hsame1 : same_schedule s s1) by (by repeat split).
  rewrite late_enough_spec by done. cbn [mbind option_bind].
  change (rs_next_cb_ts s1) with (rs_next_cb_ts s).
  destruct (Z.ltb_spec (ns (rs_next_cb_ts s)) (ns (wk_late w) + 1000000)); cbn [negb andb];
    [|intros [= <- <- <-]; exact (conj Hsame1 (conj Hok1 (conj eq_refl eq_refl)))].
  destruct (cras_rstream_input_level_met s1) as [[]|]; cbn [mbind option_bind negb]; [| |done];
    rewrite ?bool_decide_eq_true_2, ?bool_decide_eq_false_2 by done; cbv iota;
    [|intros [= <- <- <-]; exact (conj Hsame1 (conj Hok1 (conj eq_refl eq_refl)))].
  unfold cras_rstream_audio_ready.
  change (stream_is_server_only (set_rs_shm ?x s1)) with (stream_is_server_only s). rewrite Hso.
  change (rs_cb_threshold (set_rs_shm ?x s1)) with (rs_cb_threshold s).
  destruct (Z.ltb_spec (wk_write w) 0) as [Hw|Hw]; zdecide.
  - intros [= <- <- <-]. split; [by repeat split|]. split; [by destruct Hok|]. split; [done|]. split; [lia|done].
  - change (has_flag (rs_flags (set_pending_reply ?x)) TRIGGER_ONLY) with (has_flag (rs_flags s) TRIGGER_ONLY).
    rewrite Ht. match goal with |- context [dev_stream_update_next_wake_time _ _ ?x] => set (s2 := x) end.
    assert (Hok2 : schedule_ok s2) by (by destruct Hok).
    destruct (update_next_wake_time_spec (wk_now w) (wk_missed w) s2 Hok2 Hn) as (s3 & -> & Hsame & Hok3 & _ & Hnext).
    cbn [mbind option_bind]. intros [= <- <- <-]. split; [done|]. split; [done|]. split; [done|].
    split; [|lia]. intros _. rewrite Hnext. change (rs_direction s2) with (rs_direction s). by rewrite Hd.
Qed.

(** The message a paced stream sends. *)
Definition ready_message (s : cras_rstream) : audio_message :=
  init_audio_message AUDIO_MESSAGE_DATA_READY (u32 (rs_cb_threshold s)).

Lemma capture_step_spec (s : cras_rstream) (w : option wakeup) (msgs : list audio_message) (s' : cras_rstream) :
  capture_step s w msgs s' -> paced s -> schedule_ok s ->
  same_schedule s s' /\ schedule_ok s' /\
  (msgs = [] -> rs_next_cb_ts s' = rs_next_cb_ts s) /\ Forall (fun m => m = ready_message s) msgs.
Proof.
  intros [s0 w0 rc m s1 Hl Hn Hu|s0 s1 Hsame Hnext] Hp Hok.
  - destruct (capture_update_spec w0 s0 rc m s1 Hp Hok Hl Hn Hu) as (Hsame & Hok' & Hcase).
    split; [done|]. split; [done|].
    destruct (_ && _); [destruct Hcase as (-> & _ & Hfail)|by destruct Hcase as [-> ->]; destruct (_ <? 0)].
    destruct (Z.ltb_spec (wk_write w0) 0); (split; [|by repeat constructor]); [auto|done].
  - split; [done|]. destruct Hsame as (H1 & H2 & H3 & H4), Hok. split; [|done].
    split; [by rewrite Hnext|by rewrite H4].
Qed.

Lemma capture_run_spec (s : cras_rstream) (msgs : list audio_message) (s' : cras_rstream) :
  capture_run s msgs s' -> paced s -> schedule_ok s ->
  same_schedule s s' /\ schedule_ok s' /\
  (msgs = [] -> rs_next_cb_ts s' = rs_next_cb_ts s) /\ Forall (fun m => m = ready_message s) msgs.
Proof.
  induction 1 as [s|s w m1 s1 m2 s2 Hstep _ IH]; intros Hp Hok;
    [split; [by repeat split|]; by split; [|split]|].
  destruct (capture_step_spec s w m1 s1 Hstep Hp Hok) as (Hs1 & Hok1 & Hn1 & Hm1).
  destruct (IH (same_schedule_paced _ _ Hs1 Hp) Hok1) as (Hs2 & Hok2 & Hn2 & Hm2).
  destruct Hs1 as (A1 & A2 & A3 & A4), Hs2 as (B1 & B2 & B3 & B4).
  split; [by repeat split; congruence|]. split; [done|]. split.
  - intros [-> ->]%app_eq_nil. by rewrite Hn2, Hn1.
  - apply Forall_app. split; [done|]. eapply Forall_impl; [exact Hm2|]. intros m ->.
    unfold ready_message. by rewrite A3.
Qed.


(** A capture stream whose device has put [n] frames. *)
Definition capture_stream (n : Z) : cras_rstream :=
  {| rs_stream_id := 65537; rs_stream_type := 0; rs_client_type := 0;
     rs_direction := CRAS_STREAM_INPUT; rs_flags := 0; rs_fd := 5; rs_buffer_frames := 2;
     rs_cb_threshold := 1; rs_is_draining := 0; rs_master_dev := MasterDev 7 70; rs_client := 1;
     rs_shm := fresh_shm; rs_audio_area := cras_audio_area_create 2;
     rs_format := stereo_s16 48000; rs_next_cb_ts := Timespec 10 0; rs_sleep_interval_ts := Timespec 0 10000000;
     rs_last_fetch_ts := Timespec 0 0; rs_longest_fetch_interval := Timespec 0 0;
     rs_start_ts := Timespec 0 0; rs_first_missed_cb_ts := Timespec 0 0;
     rs_buf_state := {| buf_sz := 2; id_sz := 3; wr_idx := [IdOffset 1 7 n 70; IdOffset 0 8 20 0; IdOffset 0 9 1 90] |};
     rs_apm_list := 0; rs_num_attached_devs := 1; rs_num_missed_cb := 0; rs_queued_frames := 0;
     rs_is_pinned := false; rs_pinned_dev_idx := 0; rs_triggered := 0 |}.

Definition wakeup_example : wakeup := Wakeup (Timespec 9 999500000) (Timespec 9 999600000) (Timespec 0 0) 12.


(** ** When a capture stream wakes the thread *)

(** A stream that may take more than the capture limit, and one that uses the
    device's timing and waits for its client, set no time.  Otherwise the time
    is that of the frames still missing, counted from the device's level at
    [level_tstamp]; a stream that is not timed by the device also waits for its
    scheduled callback. *)
Lemma input_wake_time_spec {P : pcm_library} {L : speex_library} (d : dev_stream) (s : cras_rstream)
    (curr_level cap_limit needed : Z) (level_tstamp : timespec) (is_cap_limit_stream : bool) :
  schedule_ok s -> normalised level_tstamp -> 0 < ds_dev_rate d < 4294967296 ->
  0 <= curr_level < 2147483648 -> dev_stream_capture_avail d s = Some needed -> 0 <= needed < 2147483648 ->
  let missing := Z.max 0 (needed - curr_level) * 1000000000 / ds_dev_rate d in
  let timed := has_flag (rs_flags s) USE_DEV_TIMING in
  exists r, get_input_wake_time d curr_level level_tstamp cap_limit is_cap_limit_stream s = Some r /\
  if (negb is_cap_limit_stream && (cap_limit <? needed)) ||
     (timed && negb (cras_rstream_is_pending_reply s =? 0)) then r = (1, None)
  else exists t, r = (0, Some t) /\ normalised t /\
    ns t = if timed then ns level_tstamp + missing
           else Z.max (ns (rs_next_cb_ts s)) (ns level_tstamp + missing).
Proof.
  intros [Hn _] Hl Hr Hc Ha Hneed missing timed. unfold get_input_wake_time. rewrite Ha.
  cbn [mbind option_bind]. rewrite s32_small, (u32_small needed), Z.gtb_ltb by lia. fold timed.
  destruct (negb is_cap_limit_stream && (cap_limit <? needed)); cbn [orb]; [by eexists|].
  destruct (timed && negb (cras_rstream_is_pending_reply s =? 0)); [by eexists|].
  set (k := if curr_level >=? needed then 0 else _).
  assert (Hk : k = Z.max 0 (needed - curr_level)).
  { unfold k. destruct (Z.geb_spec curr_level needed); [lia|]. rewrite s32_small; lia. }
  rewrite Hk, !u32_small by lia.
  destruct (cras_frames_to_time_spec (Z.max 0 (needed - curr_level)) (ds_dev_rate d)) as [-> Hd1];
    [unfold is_u32; lia|unfold is_u32; lia|lia|]. cbn [mbind option_bind].
  match type of Hd1 with normalised ?x => set (t1 := x) in *; destruct (add_timespecs_spec t1 level_tstamp)
    as (t & -> & Ht & _ & Hd) end.
  specialize (Hd Hd1 Hl). cbn [mbind option_bind].
  assert (Hns : ns t = ns level_tstamp + missing).
  { rewrite Ht. unfold missing. set (m := Z.max 0 _). unfold ns, t1. cbn [tv_sec tv_nsec]. fold m.
    assert (m * 1000000000 / ds_dev_rate d = m / ds_dev_rate d * 1000000000 +
              m mod ds_dev_rate d * 1000000000 / ds_dev_rate d); [|lia].
    rewrite (Z.div_mod m (ds_dev_rate d)) at 1 by lia.
    replace (_ * 1000000000) with (m / ds_dev_rate d * 1000000000 * ds_dev_rate d +
      m mod ds_dev_rate d * 1000000000) at 1 by ring.
    by rewrite Z.div_add_l by lia. }
  eexists. split; [done|]. eexists. split; [done|]. rewrite timespec_after_ns by done.
  destruct timed; rewrite ?orb_true_r, ?orb_false_r; [by split|].
  destruct (Z.ltb_spec (ns (rs_next_cb_ts s)) (ns t)); (split; [done|lia]).
Qed.
