(* ===== verification/InputData.v ===== *)
(** * Deinterleaved input data (server/float_buffer.h, server/input_data.c and .h)

    A ring of frames per channel, with one pair of indices for all channels,
    and what an input device does with it: its DSP pipeline writes, streams
    with audio processing read at offsets of their own, and what every stream
    has read is released.  A [float] that is only copied is its bit pattern;
    a row of the memory belongs to a channel, and a copy past the end of a row
    is undefined.  The audio processing lists (server/cras_apm_list.c) are a
    class. *)
From S2P Require Import Prelude Arrays Float32 ByteBuffer BufferShare AudioFormat AudioArea Mix.
#[local] Open Scope Z_scope.

(** [fb_buf] has the indices; its [bytes] are in [fb_rows]. *)
Record float_buffer : Type := FloatBuffer {
  fb_buf : byte_buffer;
  fb_rows : list (list Z);
  fb_num_channels : Z
}.

Definition float_buffer_create (max_size num_channels : Z) : float_buffer :=
  FloatBuffer (ByteBuffer 0 0 0 max_size max_size [])
    (replicate (Z.to_nat num_channels) (replicate (Z.to_nat max_size) 0)) num_channels.

(** The pointers are at one offset in every row. *)
Definition float_buffer_write_pointer (b : float_buffer) : Z := write_idx (fb_buf b).
Definition float_buffer_writable (b : float_buffer) : Z := buf_writable (fb_buf b).
Definition set_fb_buf (b : float_buffer) (r : byte_buffer) : float_buffer :=
  FloatBuffer r (fb_rows b) (fb_num_channels b).
Definition float_buffer_written (b : float_buffer) (nwritten : Z) : option float_buffer :=
  set_fb_buf b <$> buf_increment_write (fb_buf b) nwritten.

(** The offset in the rows and the frames that can be read there. *)
Definition float_buffer_read_pointer (b : float_buffer) (offset readable : Z) : Z * Z :=
  let r := fb_buf b in
  let nread := buf_readable r in
  if offset >=? buf_queued r then (0, 0)
  else if offset >=? nread then
    let offset := u32 (u32 (offset + read_idx r) - max_size r) in
    (offset, cmin readable (u32 (write_idx r - offset)))
  else (u32 (offset + read_idx r), cmin readable (u32 (nread - offset))).

Definition float_buffer_level (b : float_buffer) : Z := buf_queued (fb_buf b).
Definition float_buffer_reset (b : float_buffer) : float_buffer := set_fb_buf b (buf_reset (fb_buf b)).
Definition float_buffer_read (b : float_buffer) (nread : Z) : option float_buffer :=
  set_fb_buf b <$> buf_increment_read (fb_buf b) nread.

(** Copies [n] words of each port, from [offset] on, to the rows at [w]. *)
Fixpoint copy_ports (rows ports : list (list Z)) (w offset n : Z) : option (list (list Z)) :=
  match rows with
  | [] => Some []
  | row :: rows =>
      match ports with
      | [] => None
      | port :: ports =>
          data ← mem_read port offset n;
          row ← mem_write row w data;
          rows ← copy_ports rows ports w offset n;
          Some (row :: rows)
      end
  end.

(** A pass writes at least a frame: [nframes] passes are enough. *)
Fixpoint input_data_run_loop (fuel : nat) (b : float_buffer) (ports : list (list Z)) (nframes offset : Z)
  : option float_buffer :=
  if nframes =? 0 then Some b else
  match fuel with
  | O => None
  | S fuel =>
      let writable := cmin nframes (float_buffer_writable b) in
      if writable =? 0 then Some b else
      rows ← copy_ports (fb_rows b) ports (float_buffer_write_pointer b) offset writable;
      b ← float_buffer_written (FloatBuffer (fb_buf b) rows (fb_num_channels b)) writable;
      input_data_run_loop fuel b ports (u32 (nframes - writable)) (u32 (offset + writable))
  end.

(** [id_fbuffer] is [None] until the module is configured. *)
Record input_data : Type := InputData {
  id_dev_ptr : Z;
  id_area : option cras_audio_area;
  id_fbuffer : option float_buffer
}.

Definition input_data_run (d : input_data) (ports : list (list Z)) (nframes : Z) : option input_data :=
  b ← id_fbuffer d;
  b ← input_data_run_loop (Z.to_nat nframes) b ports nframes 0;
  Some (InputData (id_dev_ptr d) (id_area d) (Some b)).

Definition input_data_configure (d : input_data) (buffer_size num_channels : Z) : input_data :=
  InputData (id_dev_ptr d) (id_area d) (Some (float_buffer_create buffer_size num_channels)).

Definition input_data_create (dev_ptr : Z) : input_data := InputData dev_ptr None None.

Definition input_data_set_all_streams_read (d : input_data) (nframes : Z) : option input_data :=
  match id_fbuffer d with
  | None => Some d
  | Some b =>
      b ← (if float_buffer_level b <? nframes then Some (float_buffer_reset b) else float_buffer_read b nframes);
      Some (InputData (id_dev_ptr d) (id_area d) (Some b))
  end.

(** What input devices use of cras_apm_list.h: processors by stream and device. *)
Class apm_service : Type := {
  apm_world : Type;
  cras_apm_list_get_active_apm : Z -> Z -> apm_world -> option Z;
  cras_apm_list_process : Z -> float_buffer -> Z -> apm_world -> Z * apm_world;
  cras_apm_list_remove_apm : Z -> Z -> apm_world -> apm_world;
  cras_apm_list_get_processed : Z -> apm_world -> cras_audio_area;
  (** The memory that the processed area points into. *)
  cras_apm_processed_samples : Z -> apm_world -> list Z;
  cras_apm_list_put_processed : Z -> Z -> apm_world -> apm_world;
  cras_apm_list_get_use_tuned_settings : Z -> apm_world -> bool
}.

Section Streams.
Context {A : apm_service}.

(** The area and offset are [None] where the function leaves the caller's. *)
Definition input_data_get_for_stream (d : input_data) (stream stream_id : Z) (offsets : buffer_share) (w : apm_world)
  : option (option (cras_audio_area * Z) * buffer_share * apm_world) :=
  let stream_offset := s32 (buffer_share_id_offset offsets stream_id) in
  match cras_apm_list_get_active_apm stream (id_dev_ptr d) w with
  | None => area ← id_area d; Some (Some (area, cmin (u32 stream_offset) (frames area)), offsets, w)
  | Some apm =>
      b ← id_fbuffer d;
      let '(n, w) := cras_apm_list_process apm b (u32 stream_offset) w in
      if n <? 0 then Some (None, offsets, cras_apm_list_remove_apm stream apm w)
      else Some (Some (cras_apm_list_get_processed apm w, 0),
                 snd (buffer_share_offset_update offsets stream_id (u32 n)), w)
  end.

Definition input_data_put_for_stream (d : input_data) (stream stream_id : Z) (offsets : buffer_share) (nframes : Z)
    (w : apm_world) : buffer_share * apm_world :=
  match cras_apm_list_get_active_apm stream (id_dev_ptr d) w with
  | Some apm => (offsets, cras_apm_list_put_processed apm nframes w)
  | None => (snd (buffer_share_offset_update offsets stream_id nframes), w)
  end.

Definition input_data_get_software_gain_scaler (d : input_data) (idev_sw_gain_scaler : spec_float) (stream : Z)
    (volume_scaler : spec_float) (w : apm_world) : spec_float :=
  match cras_apm_list_get_active_apm stream (id_dev_ptr d) w with
  | Some apm =>
      if cras_apm_list_get_use_tuned_settings apm w then float_one else f32_mul idev_sw_gain_scaler volume_scaler
  | None => f32_mul idev_sw_gain_scaler volume_scaler
  end.
End Streams.

(** ** A queue for each channel *)

(** A channel's ring. *)
Definition channel_ring (b : byte_buffer) (row : list Z) : byte_buffer :=
  ByteBuffer (write_idx b) (read_idx b) (level b) (max_size b) (used_size b) row.

(** The frames queued, by channel. *)
Definition queues (b : float_buffer) : list (list Z) := (fun row => contents (channel_ring (fb_buf b) row)) <$> fb_rows b.

(** A channel whose samples do not matter. *)
Definition any_row (b : byte_buffer) : list Z := replicate (Z.to_nat (max_size b)) 0.

(** All of the memory is used, and every channel's ring is well formed. *)
Record float_buffer_ok (b : float_buffer) : Prop := {
  fo_rows : Z.of_nat (length (fb_rows b)) = fb_num_channels b;
  fo_ring : ring_ok (channel_ring (fb_buf b) (any_row (fb_buf b)));
  fo_lengths : Forall (fun row => Z.of_nat (length row) = max_size (fb_buf b)) (fb_rows b);
  fo_used : used_size (fb_buf b) = max_size (fb_buf b)
}.

Definition free (b : float_buffer) : Z := max_size (fb_buf b) - level (fb_buf b).

Lemma ring_ok_row (b : byte_buffer) (r row : list Z) :
  ring_ok (channel_ring b r) -> Z.of_nat (length row) = max_size b -> ring_ok (channel_ring b row).
Proof. intros [] Hl. split; simpl in *; try done. lia. Qed.

Lemma length_any_row (b : byte_buffer) : 0 <= max_size b -> Z.of_nat (length (any_row b)) = max_size b.
Proof. intros H. unfold any_row. rewrite length_replicate. lia. Qed.

(** What a write does to the indices does not depend on the samples. *)
Lemma ring_write (b b' : byte_buffer) (row data : list Z) :
  ring_ok (channel_ring b row) -> Z.of_nat (length data) <= buf_writable b ->
  buf_increment_write b (Z.of_nat (length data)) = Some b' ->
  exists row', mem_write row (write_idx b) data = Some row' /\ length row' = length row /\
    ring_ok (channel_ring b' row') /\ max_size b' = max_size b /\ used_size b' = used_size b /\
    contents (channel_ring b' row') = contents (channel_ring b row) ++ data.
Proof.
  intros Hok Hn Hb'. destruct (buf_write_spec (channel_ring b row) data Hok Hn) as (b1 & b2 & H1 & H2 & Hok2 & Hc).
  unfold buf_copy_in in H1. apply bind_Some in H1 as (row' & Hm & [= <-]). simpl in *.
  exists row'. pose proof Hm as Hlen. unfold mem_write in Hlen. destruct (_ && _); [|done]. injection Hlen as Hlen.
  assert (H2' : b2 = channel_ring b' row' /\ max_size b' = max_size b /\ used_size b' = used_size b).
  { unfold buf_increment_write in *. simpl in *. destruct (urem _ _); [|done]. simpl in *.
    injection Hb' as <-. by injection H2 as <-. }
  destruct H2' as (-> & Hmax & Hused). split_and!; try done. by rewrite <- Hlen, length_inserts.
Qed.

Lemma ring_can_write (b : byte_buffer) (n : Z) :
  ring_ok (channel_ring b (any_row b)) -> 0 <= n <= buf_writable b ->
  exists b', buf_increment_write b n = Some b' /\ level b' = level b + n.
Proof.
  intros Hok Hn. pose proof (buf_writable_bounds _ Hok) as (Hav & _). unfold buf_available in Hav.
  change (buf_writable (channel_ring b _)) with (buf_writable b) in Hav. destruct Hok. simpl in *.
  rewrite u32_small in Hav by lia. unfold buf_increment_write. rewrite urem_Some by lia. simpl.
  eexists. split; [done|]. simpl. rewrite u64_small, u32_small by lia. zcases; lia.
Qed.

Lemma copy_ports_spec (b b' : byte_buffer) (ports rows : list (list Z)) (offset n : Z) :
  buf_increment_write b n = Some b' -> 0 <= offset -> 0 <= n <= buf_writable b ->
  Forall (fun p => offset + n <= Z.of_nat (length p)) ports -> length rows = length ports ->
  Forall (fun row => ring_ok (channel_ring b row) /\ Z.of_nat (length row) = max_size b) rows ->
  exists rows', copy_ports rows ports (write_idx b) offset n = Some rows' /\
    Forall (fun row => ring_ok (channel_ring b' row) /\ Z.of_nat (length row) = max_size b) rows' /\
    ((fun row => contents (channel_ring b' row)) <$> rows') =
      zip_with app ((fun row => contents (channel_ring b row)) <$> rows) ((fun p => slice p offset (offset + n)) <$> ports).
Proof.
  intros Hb' Ho Hn Hp Hl Hrows. revert rows Hl Hrows.
  induction Hp as [|port ports Hport Hports IH]; intros [|row rows] Hl Hrows; try done.
  { exists []. done. }
  apply Forall_cons in Hrows as [[Hok Hlen] Hrows]. injection Hl as Hl. simpl.
  rewrite mem_read_slice by lia. simpl.
  assert (Hd : Z.of_nat (length (slice port offset (offset + n))) = n) by (rewrite slice_length; lia).
  destruct (ring_write b b' row (slice port offset (offset + n))) as (row' & -> & Hlen' & Hok' & _ & _ & Hc);
    [done|by rewrite Hd; lia|by rewrite Hd|]. simpl.
  destruct (IH rows Hl Hrows) as (rows' & -> & Hrows' & Hcs). simpl.
  exists (row' :: rows'). split; [done|]. split.
  - constructor; [split; [done|lia]|done].
  - rewrite !fmap_cons. cbn [zip_with]. by rewrite Hc, Hcs.
Qed.

Lemma ok_rows (b : float_buffer) :
  float_buffer_ok b ->
  Forall (fun row => ring_ok (channel_ring (fb_buf b) row) /\ Z.of_nat (length row) = max_size (fb_buf b)) (fb_rows b).
Proof.
  intros Hb. eapply Forall_impl; [apply fo_lengths, Hb|]. intros row Hl. split; [|done].
  eapply ring_ok_row; [apply fo_ring, Hb|done].
Qed.

(** The rings after a pass, whatever is in the rows. *)
Lemma pass_ok (b : float_buffer) (b' : byte_buffer) (rows' : list (list Z)) (n : Z) :
  float_buffer_ok b -> 0 <= n <= buf_writable (fb_buf b) -> buf_increment_write (fb_buf b) n = Some b' ->
  length rows' = length (fb_rows b) ->
  Forall (fun row => ring_ok (channel_ring b' row) /\ Z.of_nat (length row) = max_size (fb_buf b)) rows' ->
  float_buffer_ok (FloatBuffer b' rows' (fb_num_channels b)) /\ max_size b' = max_size (fb_buf b).
Proof.
  intros Hb Hn Hb' Hl Hrows.
  destruct (ring_write (fb_buf b) b' (any_row (fb_buf b)) (replicate (Z.to_nat n) 0)) as (row & _ & Hlen & Hok & Hmax & Hused & _).
  { apply Hb. }
  { rewrite length_replicate. lia. }
  { rewrite length_replicate. by replace (Z.of_nat (Z.to_nat n)) with n by lia. }
  split; [|done]. pose proof (fo_ring _ Hb) as [? ? ? ? ? ?]. simpl in *.
  assert (Hany : any_row b' = any_row (fb_buf b)) by (unfold any_row; by rewrite Hmax).
  split; simpl.
  - rewrite Hl. apply Hb.
  - rewrite Hany. eapply ring_ok_row; [done|]. rewrite Hmax. apply length_any_row. lia.
  - eapply Forall_impl; [done|]. intros r [_ Hr]. by rewrite Hmax.
  - rewrite Hused, Hmax. apply Hb.
Qed.

Lemma slice_app (m : list Z) (a b c : Z) :
  0 <= a <= b -> b <= c -> slice m a b ++ slice m b c = slice m a c.
Proof.
  intros Hab Hbc. rewrite <- (take_drop (Z.to_nat (b - a)) (slice m a c)). f_equal.
  - rewrite slice_take by lia. f_equal. lia.
  - rewrite slice_drop by lia. f_equal. lia.
Qed.

Lemma zip_app_nil (qs ports : list (list Z)) (o : Z) :
  length qs = length ports -> zip_with app qs ((fun p => slice p o o) <$> ports) = qs.
Proof.
  revert ports. induction qs as [|q qs IH]; intros [|p ports] Hl; try done.
  injection Hl as Hl. rewrite fmap_cons. cbn [zip_with]. by rewrite slice_nil, app_nil_r, IH.
Qed.

Lemma zip_app_slices (qs ports : list (list Z)) (a b c : Z) :
  0 <= a <= b -> b <= c ->
  zip_with app (zip_with app qs ((fun p => slice p a b) <$> ports)) ((fun p => slice p b c) <$> ports) =
    zip_with app qs ((fun p => slice p a c) <$> ports).
Proof.
  intros Hab Hbc. revert ports. induction qs as [|q qs IH]; intros [|p ports]; try done.
  rewrite !fmap_cons. cbn [zip_with]. by rewrite IH, <- app_assoc, slice_app.
Qed.

Lemma length_queues (b : float_buffer) : length (queues b) = length (fb_rows b).
Proof. apply length_fmap. Qed.

Lemma writable_free (b : float_buffer) :
  float_buffer_ok b -> 0 <= buf_writable (fb_buf b) <= free b /\ (0 < free b -> 0 < buf_writable (fb_buf b)) /\
  max_size (fb_buf b) <= 2147483648.
Proof.
  intros Hb. pose proof (fo_ring _ Hb) as Hok. pose proof (buf_writable_bounds _ Hok) as (Hav & _ & Hpos).
  change (buf_writable (channel_ring _ _)) with (buf_writable (fb_buf b)) in *.
  pose proof (fo_used _ Hb) as Hu. destruct Hok. unfold buf_available, free in *. simpl in *.
  rewrite u32_small in Hav, Hpos by lia. rewrite Hu in *. split_and!; lia.
Qed.

(** What a run adds to the queues: what there is room for, from each port. *)
Lemma run_loop_spec (fuel : nat) (b : float_buffer) (ports : list (list Z)) (nframes offset : Z) :
  float_buffer_ok b -> length (fb_rows b) = length ports ->
  Forall (fun p => offset + nframes <= Z.of_nat (length p)) ports ->
  0 <= offset -> offset + nframes < 4294967296 -> 0 <= nframes <= Z.of_nat fuel ->
  exists b', input_data_run_loop fuel b ports nframes offset = Some b' /\ float_buffer_ok b' /\
    queues b' = zip_with app (queues b) ((fun p => slice p offset (offset + Z.min nframes (free b))) <$> ports).
Proof.
  revert b nframes offset. induction fuel as [|fuel IH]; intros b n offset Hb Hl Hports Ho Hsmall Hn;
    pose proof (writable_free b Hb) as (Hw & Hpos & Hmax).
  { assert (n = 0) as -> by lia. exists b. split_and!; [done|done|].
    rewrite Z.min_l, Z.add_0_r, zip_app_nil by (rewrite ?length_queues; lia). done. }
  simpl. destruct (Z.eqb_spec n 0) as [->|Hn0].
  { exists b. split_and!; [done|done|].
    rewrite Z.min_l, Z.add_0_r, zip_app_nil by (rewrite ?length_queues; lia). done. }
  unfold float_buffer_writable, float_buffer_write_pointer, float_buffer_written. rewrite cmin_min.
  set (k := Z.min n (buf_writable (fb_buf b))).
  destruct (Z.eqb_spec k 0) as [Hk|Hk].
  { exists b. split_and!; [done|done|].
    rewrite Z.min_r, (ltac:(lia) : free b = 0), Z.add_0_r, zip_app_nil by (rewrite ?length_queues; lia). done. }
  destruct (ring_can_write (fb_buf b) k) as (r & Hr & Hlev); [apply Hb|lia|].
  destruct (copy_ports_spec (fb_buf b) r ports (fb_rows b) offset k) as (rows' & -> & Hrows' & Hq);
    [done|done|lia|eapply Forall_impl; [done|]; simpl; lia|done|by apply ok_rows|].
  simpl. rewrite Hr. simpl.
  assert (Hlen : length rows' = length (fb_rows b)).
  { apply (f_equal length) in Hq. rewrite length_fmap, length_zip_with, !length_fmap in Hq. lia. }
  destruct (pass_ok b r rows' k) as [Hb1 Hm1]; [done|lia|done|done|done|].
  rewrite !u32_small by lia.
  assert (Hf : free (FloatBuffer r rows' (fb_num_channels b)) = free b - k) by (unfold free; simpl; lia).
  destruct (IH (FloatBuffer r rows' (fb_num_channels b)) (n - k) (offset + k)) as (b' & Hrun & Hb' & Hq');
    [done|simpl; lia|eapply Forall_impl; [done|]; simpl; lia|lia..|].
  exists b'. split; [exact Hrun|]. split; [done|]. rewrite Hq', Hf. unfold queues at 1. simpl. rewrite Hq.
  fold (queues b). replace (offset + Z.min n (free b)) with (offset + k + Z.min (n - k) (free b - k)) by lia.
  apply zip_app_slices; lia.
Qed.

Lemma release_ok (b : float_buffer) (n : Z) :
  float_buffer_ok b -> 0 <= n ->
  exists b', float_buffer_read b n = Some b' /\ float_buffer_ok b' /\ queues b' = drop (Z.to_nat n) <$> queues b.
Proof.
  intros Hb Hn. pose proof (ok_rows _ Hb) as Hrows. pose proof (fo_ring _ Hb) as Hok.
  destruct (buf_increment_read_spec _ n Hok Hn) as (r & Hr & Hokr & _).
  unfold float_buffer_read. unfold buf_increment_read in Hr |- *. simpl in *.
  destruct (urem _ _) as [rd|] eqn:Hrem; [|done]. simpl in *. eexists. split; [done|].
  injection Hr as <-. split.
  - split; simpl; try apply Hb. done.
  - unfold queues. simpl. rewrite <- list_fmap_compose. apply list_fmap_ext. intros i row Hi.
    destruct (Forall_lookup_1 _ _ _ _ Hrows Hi) as [Hrow _].
    destruct (buf_increment_read_spec _ n Hrow Hn) as (r' & Hr' & _ & Hc). unfold buf_increment_read in Hr'.
    simpl in Hr'. rewrite Hrem in Hr'. injection Hr' as <-. exact Hc.
Qed.

Lemma reset_ok (b : float_buffer) :
  float_buffer_ok b -> float_buffer_ok (float_buffer_reset b) /\ queues (float_buffer_reset b) = (fun _ => []) <$> fb_rows b.
Proof.
  intros Hb. destruct (buf_reset_wf _ (fo_ring _ Hb)) as [Hok _]. split; [|done].
  split; simpl; try apply Hb. exact Hok.
Qed.

(** What a reader finds at an offset. *)
Lemma read_pointer_spec (b : float_buffer) (offset readable off n : Z) (row : list Z) :
  float_buffer_ok b -> 0 <= offset -> 0 <= readable -> row ∈ fb_rows b ->
  float_buffer_read_pointer b offset readable = (off, n) ->
  0 <= n <= readable /\ (0 < readable -> offset < float_buffer_level b -> 0 < n) /\
  slice row off (off + n) =
    take (Z.to_nat n) (drop (Z.to_nat offset) (contents (channel_ring (fb_buf b) row))).
Proof.
  intros Hb Ho Hread Hrow Hp. pose proof (proj1 (Forall_forall _ _) (ok_rows _ Hb) _ Hrow) as [Hok Hlen].
  pose proof (wf_write_cases _ Hok) as Hw. pose proof (buf_readable_bounds _ Hok) as (Hr1 & Hr2 & _).
  pose proof (fo_used _ Hb) as Hu. unfold float_buffer_read_pointer, float_buffer_level, buf_queued in *.
  change (buf_readable (channel_ring _ _)) with (buf_readable (fb_buf b)) in *.
  remember (fb_buf b) as r eqn:Er. destruct Hok. simpl in *.
  assert (Hcase : (offset >= level r /\ off = 0 /\ n = 0) \/
    (offset < level r /\ 0 <= n <= readable /\ (0 < readable -> 0 < n) /\ offset + n <= level r /\
     0 <= off /\ off + n <= used_size r /\ (read_idx r + offset) mod used_size r = off)).
  { rewrite Z.geb_leb in Hp. destruct (Z.leb_spec (level r) offset); [left; injection Hp as <- <-; lia|right].
    assert (Hnr : buf_readable r = if read_idx r + level r <? used_size r then level r else used_size r - read_idx r).
    { unfold buf_readable. revert Hw. zcases; intros; unwrap; lia. }
    rewrite mod_wrap_once by lia. rewrite Hnr in *. clear Hnr Hr1 Hr2. rewrite Z.geb_leb in Hp. revert Hw Hp.
    rewrite !cmin_min. zcases; intros Hw; unwrap; intros Hp; injection Hp as <- <-; lia. }
  destruct Hcase as [(Hge & -> & ->)|(Hlt & Hn & Hpos & Hfit & Hoff & Hend & Hmod)].
  { split_and!; try lia. rewrite slice_nil. done. }
  split_and!; try lia. apply list_eq. intros i. unfold slice. rewrite !lookup_take.
  replace (off + n - off) with n by lia. case_decide as Hi; [|done].
  rewrite !lookup_drop. unfold contents. simpl. rewrite list_lookup_fmap, lookup_seq_lt by lia. simpl.
  rewrite list_lookup_lookup_total_lt by lia. unfold zget. do 2 f_equal.
  replace (read_idx r + Z.of_nat (Z.to_nat offset + i)) with (read_idx r + offset + Z.of_nat i) by lia.
  rewrite <- Zplus_mod_idemp_l, Hmod, Z.mod_small by lia. lia.
Qed.

(** Claim C39: an input device's buffer is a queue of frames for every channel,
    kept in step.  Running the module appends, to each channel, its port's
    frames as far as there is room, and drops the later ones; a reader at any
    offset gets consecutive frames of the queue from there on, at least one
    when there is one; what all streams have read is taken off the front, and
    a count beyond the queue's length empties it. *)
Theorem input_data_is_queue (d : input_data) (b : float_buffer) (ports : list (list Z)) (nframes : Z) :
  id_fbuffer d = Some b -> float_buffer_ok b -> length (fb_rows b) = length ports ->
  Forall (fun p => nframes <= Z.of_nat (length p)) ports -> 0 <= nframes < 4294967296 ->
  (exists d' b', input_data_run d ports nframes = Some d' /\ id_fbuffer d' = Some b' /\ float_buffer_ok b' /\
     queues b' = zip_with app (queues b) ((fun p => slice p 0 (Z.min nframes (free b))) <$> ports)) /\
  (forall offset readable off n row, 0 <= offset -> 0 <= readable -> row ∈ fb_rows b ->
     float_buffer_read_pointer b offset readable = (off, n) ->
     0 <= n <= readable /\ (0 < readable -> offset < float_buffer_level b -> 0 < n) /\
     slice row off (off + n) = take (Z.to_nat n) (drop (Z.to_nat offset) (contents (channel_ring (fb_buf b) row)))) /\
  (exists d' b', input_data_set_all_streams_read d nframes = Some d' /\ id_fbuffer d' = Some b' /\ float_buffer_ok b' /\
     queues b' = if float_buffer_level b <? nframes then (fun _ => []) <$> fb_rows b else drop (Z.to_nat nframes) <$> queues b).
Proof.
  intros Hd Hb Hl Hports Hn. split_and!.
  - destruct (run_loop_spec (Z.to_nat nframes) b ports nframes 0) as (b' & Hrun & Hb' & Hq); try done; try lia.
    unfold input_data_run. rewrite Hd. simpl. rewrite Hrun. simpl. by eexists _, b'.
  - intros. by eapply read_pointer_spec.
  - unfold input_data_set_all_streams_read. rewrite Hd. destruct (_ <? _).
    + destruct (reset_ok b Hb). by eexists _, _.
    + destruct (release_ok b nframes Hb) as (b' & -> & Hb' & Hq); [lia|]. by eexists _, b'.
Qed.

(** A stereo ring that has wrapped: room for one frame of the two offered. *)
Definition float_buffer_example : float_buffer :=
  FloatBuffer (ByteBuffer 1 3 2 4 4 []) [[11; 12; 13; 14]; [21; 22; 23; 24]] 2.

Lemma input_data_is_queue_witness :
  exists d b', input_data_run (InputData 1 None (Some float_buffer_example)) [[5; 6; 7]; [8; 9; 10]] 3 = Some d /\
    id_fbuffer d = Some b' /\ queues b' = [[14; 11; 5; 6]; [24; 21; 8; 9]].
Proof.
  destruct (input_data_is_queue (InputData 1 None (Some float_buffer_example)) float_buffer_example
    [[5; 6; 7]; [8; 9; 10]] 3) as [(d & b' & Hrun & Hb & _ & Hq) _].
  - reflexivity.
  - split; simpl; [reflexivity| |repeat constructor|reflexivity]. split; simpl; try lia. reflexivity.
  - reflexivity.
  - repeat constructor; simpl; lia.
  - lia.
  - exists d, b'. split; [exact Hrun|]. split; [exact Hb|]. rewrite Hq. reflexivity.
Defined.
