(* ===== verification/Iodev.v ===== *)
(** * Devices: their state, streams and levels (server/cras_iodev.c and .h)

    A device is a record with the fields of [struct cras_iodev]; what its
    driver keeps is a field of a type of the driver's, and the samples its
    audio area points into are [io_mem].  A function of the file is a program
    over the device and what the server shares with it: the streams, the
    system's volume, the DSP contexts, and a log of what the device asks other
    parts of the server for.  [None] is undefined behaviour or a loop that
    runs on.  Function pointers that may be [NULL] are options. *)
From Stdlib Require String.
From coqutil Require Import Datatypes.RecordSetters.
From S2P Require Import Prelude Prog Arrays Float32 Types DList Timespec BufferShare AudioFormat Mix AudioArea.
From S2P Require Import FmtConv Ramp Volume Rstream DevStream InputData.
Import TriangleBracketNotations.
#[local] Open Scope Z_scope.
#[local] Open Scope prog_scope.

Definition EPERM : Z := 1.
Definition EPIPE : Z := 32.

Inductive CRAS_IODEV_STATE : Type :=
| CRAS_IODEV_STATE_CLOSE
| CRAS_IODEV_STATE_OPEN
| CRAS_IODEV_STATE_NORMAL_RUN
| CRAS_IODEV_STATE_NO_STREAM_RUN.

#[export] Instance iodev_state_eq_dec : EqDecision CRAS_IODEV_STATE.
Proof. solve_decision. Defined.

Inductive CRAS_LOOPBACK_TYPE : Type :=
| LOOPBACK_POST_MIX_PRE_DSP
| LOOPBACK_POST_DSP.

#[export] Instance loopback_type_eq_dec : EqDecision CRAS_LOOPBACK_TYPE.
Proof. solve_decision. Defined.

Inductive CRAS_IODEV_RAMP_REQUEST : Type :=
| CRAS_IODEV_RAMP_REQUEST_NONE
| CRAS_IODEV_RAMP_REQUEST_UP_UNMUTE
| CRAS_IODEV_RAMP_REQUEST_DOWN_MUTE
| CRAS_IODEV_RAMP_REQUEST_UP_START_PLAYBACK
| CRAS_IODEV_RAMP_REQUEST_RESUME_MUTE
| CRAS_IODEV_RAMP_REQUEST_SWITCH_MUTE.

(** The one function a device gives its ramp to call, with the device as data. *)
Inductive iodev_ramp_cb : Type := ramp_down_mute_callback.

(** A hook's [cb_data] names it; [lb_hook_control] is whether that one is set. *)
Record cras_loopback : Type := Loopback {
  lb_type : CRAS_LOOPBACK_TYPE;
  lb_hook_control : bool;
  lb_cb_data : Z
}.

Record cras_ionode : Type := Ionode {
  nd_idx : Z;
  nd_plugged : Z;
  nd_plugged_time : timespec;
  nd_volume : Z;
  nd_capture_gain : Z;
  nd_ui_gain_scaler : spec_float;
  nd_left_right_swapped : Z;
  nd_type : Z;
  nd_position : Z;
  nd_softvol_scalers : option (list spec_float);
  nd_software_volume_needed : Z;
  nd_intrinsic_sensitivity : Z;
  nd_is_sco_pcm : Z;
  nd_active_hotword_model : list Z
}.

(** Code the device calls that is not C: the rate estimator is a Rust crate,
    called with a pointer.  A rate is a [double]. *)
Class rate_library : Type := {
  rate_estimator : Type;
  rate_estimator_create : Z -> option rate_estimator;
  rate_estimator_reset_rate : option rate_estimator -> Z -> option rate_estimator;
  rate_estimator_add_frames : option rate_estimator -> Z -> option rate_estimator;
  rate_estimator_check : option rate_estimator -> Z -> timespec -> Z * option rate_estimator;
  rate_estimator_get_rate : option rate_estimator -> spec_float
}.

(** The module a pipeline's sink gives its samples to: the device's own input
    data, or another. *)
Inductive ext_module : Type := ExtInputData | ExtOther (id : Z).

#[export] Instance ext_module_eq_dec : EqDecision ext_module.
Proof. solve_decision. Defined.

(** What a device uses of cras_dsp.h and cras_dsp_pipeline.h.  A context has a
    handle; its mutex is taken and released within an operation.  Applying a
    pipeline gives the error code, the samples, and the blocks that the sink
    gave to the device's input data: the ports and their frames. *)
Class dsp_service : Type := {
  dsp_world : Type;
  cras_dsp_context_new : Z -> list Z -> dsp_world -> nat * dsp_world;
  cras_dsp_context_free : nat -> dsp_world -> option dsp_world;
  cras_dsp_set_variable_string : nat -> list Z -> list Z -> dsp_world -> dsp_world;
  cras_dsp_set_variable_boolean : nat -> list Z -> Z -> dsp_world -> dsp_world;
  cras_dsp_load_pipeline : nat -> dsp_world -> option dsp_world;
  cras_dsp_load_dummy_pipeline : nat -> Z -> dsp_world -> option dsp_world;
  cras_dsp_has_pipeline : nat -> dsp_world -> option bool;
  cras_dsp_num_output_channels : nat -> dsp_world -> option Z;
  cras_dsp_num_input_channels : nat -> dsp_world -> option Z;
  cras_dsp_pipeline_apply : nat -> list Z -> Z -> Z -> dsp_world ->
    option (Z * list Z * list (list (list Z) * Z) * dsp_world);
  cras_dsp_pipeline_get_delay : nat -> dsp_world -> option Z;
  cras_dsp_pipeline_set_sink_ext_module : nat -> option ext_module -> dsp_world -> option dsp_world;
  ext_dsp_module_configure : Z -> Z -> Z -> Z -> dsp_world -> dsp_world
}.

(** What leaves the device for other parts of the server. *)
Inductive device_event : Type :=
| EventUnderrun
| EventSevereUnderrun
| ResetDevice (idx : Z)
| SetDeviceMuteState (idx : Z)
| NodesChanged
| ActiveNodeChanged (dir : Z)
| DisableDevice (idx : Z)
| LoopbackData (cb_data : Z) (data : list Z) (nframes : Z)
| LoopbackControl (cb_data : Z) (start : bool)
| PreOpenHook
| PostCloseHook
| DeviceRuntime (idx : Z).

(** ** The time that frames take *)

Fixpoint fill_time_loop (n : nat) (sec to_play_usec : Z) : timespec :=
  match n with
  | S n => if to_play_usec >? 1000000 then fill_time_loop n (sec + 1) (to_play_usec - 1000000)
           else Timespec sec (to_play_usec * 1000)
  | O => Timespec sec (to_play_usec * 1000)
  end.

Definition cras_iodev_fill_time_from_frames (frames frame_rate : Z) : option timespec :=
  to_play_usec ← udiv (u64 (frames * 1000000)) frame_rate;
  Some (fill_time_loop (Z.to_nat (to_play_usec / 1000000)) 0 to_play_usec).

Lemma fill_time_loop_spec (n : nat) (sec usec : Z) :
  0 <= usec < (Z.of_nat n + 1) * 1000000 ->
  let t := fill_time_loop n sec usec in
  tv_sec t * 1000000 + tv_nsec t / 1000 = sec * 1000000 + usec /\ 0 <= tv_nsec t <= 1000000000.
Proof.
  revert sec usec. induction n as [|n IH]; intros sec usec H; simpl.
  { rewrite Z.div_mul by lia. lia. }
  zcases.
  - specialize (IH (sec + 1) (usec - 1000000) ltac:(lia)). cbv zeta in IH. lia.
  - simpl. rewrite Z.div_mul by lia. lia.
Qed.

(** The time is that of the frames to the microsecond; a whole second may be
    left in the nanoseconds. *)
Lemma fill_time_from_frames_spec (frames frame_rate : Z) :
  0 <= frames -> frames * 1000000 < 2 ^ 64 -> 0 < frame_rate ->
  exists t, cras_iodev_fill_time_from_frames frames frame_rate = Some t /\
    tv_sec t * 1000000 + tv_nsec t / 1000 = frames * 1000000 / frame_rate /\ 0 <= tv_nsec t <= 1000000000.
Proof.
  intros Hf Hs Hr. unfold cras_iodev_fill_time_from_frames.
  rewrite u64_small, udiv_Some by lia. eexists. split; [reflexivity|].
  set (usec := frames * 1000000 / frame_rate). assert (0 <= usec) by (apply Z.div_pos; lia).
  apply (fill_time_loop_spec _ 0 usec). pose proof (Z.div_mod usec 1000000). pose proof (Z.mod_pos_bound usec 1000000).
  rewrite Z2Nat.id by (apply Z.div_pos; lia). lia.
Qed.

Example one_second_of_frames :
  cras_iodev_fill_time_from_frames 48000 48000 = Some (Timespec 0 1000000000).
Proof. reflexivity. Qed.

Section Iodev.
Context {P : pcm_library} {L : speex_library} {RE : rate_library} {D : dsp_service} {AP : apm_service}.
(** What the driver keeps. *)
Context {hw : Type}.

(** A stream of the device: the client's stream it points to. *)
Record attached : Type := Attached { at_stream : Z; at_dev_stream : dev_stream }.

Record cras_iodev : Type := Iodev {
  io_idx : Z;
  io_nodes : dlist cras_ionode;
  io_active_node : option Z;
  io_direction : Z;
  io_supported_rates : list Z;
  io_supported_channel_counts : list Z;
  io_supported_formats : list Z;
  io_buffer_size : Z;
  io_min_buffer_level : Z;
  io_format : option cras_audio_format;
  io_rate_est : option rate_estimator;
  io_area : option cras_audio_area;
  io_dsp_context : option nat;
  io_dsp_name : option (list Z);
  io_software_volume_needed : Z;
  io_software_gain_scaler : spec_float;
  io_streams : dlist attached;
  io_state : CRAS_IODEV_STATE;
  io_min_cb_level : Z;
  io_max_cb_level : Z;
  io_highest_hw_level : Z;
  io_largest_cb_level : Z;
  io_num_underruns : Z;
  io_buf_state : option buffer_share;
  io_idle_timeout : timespec;
  io_open_ts : timespec;
  io_loopbacks : list cras_loopback;
  io_pre_open_hook : bool;
  io_post_close_hook : bool;
  io_ext_dsp_module : option ext_module;
  io_reset_request_pending : bool;
  io_ramp : option (cras_ramp iodev_ramp_cb);
  io_input_streaming : bool;
  io_input_frames_read : Z;
  io_input_dsp_offset : Z;
  io_initial_ramp_request : CRAS_IODEV_RAMP_REQUEST;
  io_input_data : option input_data;
  io_echo_reference_dev : option Z;
  io_is_enabled : bool;
  io_mem : list Z;
  io_hw : hw
}.

(** [sv_mute], [sv_volume] and [sv_capture_mute] are what [cras_system_get_mute]
    and its fellows return. *)
Record server : Type := Server {
  sv_rstreams : gmap Z cras_rstream;
  sv_mute : bool;
  sv_volume : Z;
  sv_capture_mute : bool;
  sv_dsp : dsp_world;
  sv_apm : apm_world;
  sv_log : list device_event
}.

Record iodev_state : Type := IodevState { dev : cras_iodev; srv : server }.

(** ** Programs over the device and the server *)

Definition iodev_prog : Type -> Type := prog iodev_state.

Definition get_dev : iodev_prog cras_iodev := gets dev.
Definition get_srv : iodev_prog server := gets srv.
Definition set_dev (f : cras_iodev -> cras_iodev) : iodev_prog unit := modify (fun s => s <| dev ::= f |>).
Definition set_srv (f : server -> server) : iodev_prog unit := modify (fun s => s <| srv ::= f |>).
Definition emit (e : device_event) : iodev_prog unit :=
  set_srv (fun v => v <| sv_log ::= fun l => l ++ [e] |>).

Definition find_rstream (p : Z) : iodev_prog cras_rstream :=
  let* v := get_srv in here (sv_rstreams v !! p).
Definition put_rstream (p : Z) (r : cras_rstream) : iodev_prog unit :=
  set_srv (fun v => v <| sv_rstreams ::= insert p r |>).

(** ** The driver

    The functions a device is created with.  Those without an option are
    called without a test for [NULL].  [get_buffer] answers with the area it
    stored, if any, and the frames it has. *)
Class iodev_hw : Type := {
  open_dev : cras_iodev -> option (iodev_prog Z);
  configure_dev : iodev_prog Z;
  close_dev : iodev_prog Z;
  update_supported_formats : cras_iodev -> option (iodev_prog Z);
  update_channel_layout_op : cras_iodev -> option (iodev_prog Z);
  frames_queued : iodev_prog (Z * timespec);
  delay_frames : iodev_prog Z;
  get_buffer : Z -> iodev_prog (Z * option cras_audio_area * Z);
  put_buffer : Z -> iodev_prog Z;
  flush_buffer : iodev_prog Z;
  start : cras_iodev -> option (iodev_prog Z);
  is_free_running : cras_iodev -> option (iodev_prog bool);
  get_valid_frames : cras_iodev -> option (iodev_prog (Z * timespec));
  get_num_severe_underruns : cras_iodev -> option (iodev_prog Z);
  set_mute : cras_iodev -> option (iodev_prog unit)
}.

(** ** Nodes and volumes *)

Definition find_active_node (d : cras_iodev) : option (option cras_ionode) :=
  match io_active_node d with
  | None => Some None
  | Some p => Some <$> dl_find (io_nodes d) p
  end.

Definition cras_iodev_adjust_node_volume (node : cras_ionode) (system_volume : Z) : Z :=
  let node_vol_offset := u32 (100 - nd_volume node) in
  if system_volume >? node_vol_offset then system_volume - node_vol_offset else 0.

Definition cras_iodev_adjust_active_node_volume (d : cras_iodev) (system_volume : Z) : option Z :=
  n ← find_active_node d;
  Some match n with None => system_volume | Some n => cras_iodev_adjust_node_volume n system_volume end.

Definition cras_iodev_software_volume_needed (d : cras_iodev) : option bool :=
  if negb (io_software_volume_needed d =? 0) then Some true else
  n ← find_active_node d;
  Some match n with
       | None => false
       | Some n => negb (nd_intrinsic_sensitivity n =? 0) || negb (nd_software_volume_needed n =? 0)
       end.

Definition cras_iodev_get_ui_gain_scaler (d : cras_iodev) : option spec_float :=
  n ← find_active_node d; Some match n with None => float_one | Some n => nd_ui_gain_scaler n end.

(** The scaler at an index of a device's own table, or of the common one. *)
Definition scaler_for (n : option cras_ionode) (volume : Z) : option spec_float :=
  match n ≫= nd_softvol_scalers with
  | Some l => l !! Z.to_nat volume
  | None => softvol_get_scaler volume
  end.

Definition cras_iodev_get_software_volume_scaler : iodev_prog spec_float :=
  let* d := get_dev in
  let* v := get_srv in
  let* volume := here (cras_iodev_adjust_active_node_volume d (u32 (sv_volume v))) in
  let* n := here (find_active_node d) in
  here (scaler_for n volume).

Definition cras_iodev_get_software_gain_scaler {M : libm} (d : cras_iodev) : option spec_float :=
  match cras_iodev_software_volume_needed d with
  | Some true =>
      n ← find_active_node d; n ← n;
      Some (convert_softvol_scaler_from_dB (nd_capture_gain n))
  | Some false => Some float_one
  | None => None
  end.

Definition cras_iodev_is_zero_volume : iodev_prog bool :=
  let* d := get_dev in
  let* v := get_srv in
  let* n := here (find_active_node d) in
  ret match n with
       | Some n => cras_iodev_adjust_node_volume n (u32 (sv_volume v)) =? 0
       | None => sv_volume v =? 0
       end.

Definition output_should_mute : iodev_prog bool :=
  let* v := get_srv in
  if sv_mute v then ret true else cras_iodev_is_zero_volume.

Definition update_node (p : Z) (f : cras_ionode -> cras_ionode) : iodev_prog unit :=
  let* d := get_dev in
  let* nodes := here (dl_update (io_nodes d) p f) in
  set_dev (fun d => d <| io_nodes := nodes |>).

(** [now] is what [gettimeofday] gives. *)
Definition cras_iodev_set_node_plugged (p : Z) (plugged : Z) (now : timespec) : iodev_prog unit :=
  let* d := get_dev in
  let* node := here (dl_find (io_nodes d) p) in
  if nd_plugged node =? plugged then ret tt else
  update_node p (fun n => n <| nd_plugged := plugged |>) ;;
  (if negb (plugged =? 0) then update_node p (fun n => n <| nd_plugged_time := now |>)
       else if bool_decide (io_active_node d = Some p) then emit (DisableDevice (io_idx d)) else ret tt) ;;
  emit NodesChanged.

Definition cras_iodev_add_node (p : Z) (node : cras_ionode) : iodev_prog unit :=
  set_dev (fun d => d <| io_nodes ::= fun l => dl_append l p node |>) ;; emit NodesChanged.

Definition cras_iodev_rm_node (p : Z) : iodev_prog unit :=
  let* d := get_dev in
  let* nodes := here (dl_delete (io_nodes d) p) in
  set_dev (fun d => d <| io_nodes := nodes |>) ;; emit NodesChanged.

Definition cras_iodev_set_active_node (p : option Z) : iodev_prog unit :=
  set_dev (fun d => d <| io_active_node := p |>) ;;
  let* d := get_dev in emit (ActiveNodeChanged (io_direction d)).

Definition CRAS_NODE_TYPE_INTERNAL_SPEAKER : Z := 0.
Definition CRAS_NODE_TYPE_HOTWORD : Z := 6.
Definition CRAS_NODE_TYPE_MIC : Z := 5.
Definition CRAS_NODE_TYPE_ECHO_REFERENCE : Z := 15.
Definition NODE_POSITION_INTERNAL : Z := 1.
Definition NODE_POSITION_FRONT : Z := 2.

Definition cras_iodev_is_aec_use_case (n : cras_ionode) : bool :=
  if (nd_type n =? CRAS_NODE_TYPE_INTERNAL_SPEAKER) || (nd_type n =? CRAS_NODE_TYPE_ECHO_REFERENCE) then true
  else if nd_type n =? CRAS_NODE_TYPE_MIC then
    (nd_position n =? NODE_POSITION_INTERNAL) || (nd_position n =? NODE_POSITION_FRONT)
  else false.

(** ** Formats *)

(** The array's entries before the terminating zero; running past the end of
    the array is undefined. *)
Fixpoint until_zero (l : list Z) : option (list Z) :=
  match l with
  | [] => None
  | x :: l => if x =? 0 then Some [] else (x ::.) <$> until_zero l
  end.

Fixpoint best_rate_loop (rrate best : Z) (l : list Z) : option Z :=
  match l with
  | [] => Some best
  | r :: l =>
      if (rrate =? r) && (rrate >=? 44100) then Some rrate else
      m ← urem rrate r;
      best ← (if best =? 0 then
                if m =? 0 then Some r else n ← urem r rrate; Some (if n =? 0 then r else best)
              else Some best);
      best_rate_loop rrate best l
  end.

Definition get_best_rate (d : cras_iodev) (rrate : Z) : option Z :=
  first ← head (io_supported_rates d);
  if first =? 0 then Some 0 else
  l ← until_zero (io_supported_rates d);
  best ← best_rate_loop rrate 0 l;
  Some (if negb (best =? 0) then best else first).

(** An [assert] that fails aborts. *)
Definition get_best_channel_count (d : cras_iodev) (count : Z) : option Z :=
  first ← head (io_supported_channel_counts d);
  if first =? 0 then None else
  l ← until_zero (io_supported_channel_counts d);
  Some (if bool_decide (count ∈ l) then count else if bool_decide (2 ∈ l) then 2 else first).

Definition get_best_pcm_format (d : cras_iodev) (fmt : Z) : option Z :=
  first ← head (io_supported_formats d);
  l ← until_zero (io_supported_formats d);
  Some (if bool_decide (fmt ∈ l) then fmt else first).

(** A layout's entries are [int8_t], converted to [size_t] in the comparison. *)
Definition trim_channel_layout (fmt : cras_audio_format) : cras_audio_format :=
  AudioFormat (format fmt) (frame_rate fmt) (num_channels fmt)
    ((fun c => if u64 c >=? num_channels fmt then -1 else c) <$> channel_layout fmt).

Definition set_format_rate (r : Z) (f : cras_audio_format) : cras_audio_format :=
  AudioFormat (format f) r (num_channels f) (channel_layout f).
Definition set_format_channels (n : Z) (f : cras_audio_format) : cras_audio_format :=
  AudioFormat (format f) (frame_rate f) n (channel_layout f).
Definition set_format_format (p : Z) (f : cras_audio_format) : cras_audio_format :=
  AudioFormat p (frame_rate f) (num_channels f) (channel_layout f).

Definition update_format (f : cras_audio_format -> cras_audio_format) : iodev_prog unit :=
  let* d := get_dev in
  let* fmt := here (io_format d) in
  set_dev (fun d => d <| io_format := Some (f fmt) |>).

Definition cras_iodev_free_format : iodev_prog unit := set_dev (fun d => d <| io_format := None |>).

(** ** Streams and callback levels *)

Definition cras_iodev_is_open (d : cras_iodev) : bool := negb (bool_decide (io_state d = CRAS_IODEV_STATE_CLOSE)).
Definition cras_iodev_state (d : cras_iodev) : CRAS_IODEV_STATE := io_state d.
Definition cras_iodev_get_num_underruns (d : cras_iodev) : Z := io_num_underruns d.
Definition cras_iodev_exit_idle : iodev_prog unit :=
  set_dev (fun d => d <| io_idle_timeout ::= fun t => Timespec 0 (tv_nsec t) |>).

(** The new table's slots hold what [realloc] left there: [fresh]. *)
Definition cras_iodev_start_stream (fresh : nat -> id_offset) (p : Z) : iodev_prog unit :=
  let* d := get_dev in
  let* a := here (dl_find (io_streams d) p) in
  let* s := find_rstream (at_stream a) in
  let* cb_threshold := here (dev_stream_cb_threshold (at_dev_stream a) s) in
  if ds_is_running (at_dev_stream a) then ret tt else
  (if has_flag (rs_flags s) TRIGGER_ONLY then ret tt
   else
     let* b := here (io_buf_state d) in
     let* r := here (buffer_share_add_id fresh b (rs_stream_id s) 0) in
     set_dev (fun d => d <| io_buf_state := Some (snd r) |>)) ;;
  let* l := here (dl_update (io_streams d) p
    (fun a => Attached (at_stream a) ((at_dev_stream a) <| ds_is_running := true |>))) in
  set_dev (fun d => d
    <| io_min_cb_level ::= fun m => cmin m cb_threshold |>
    <| io_max_cb_level ::= fun m => cmax m cb_threshold |>
    <| io_largest_cb_level ::= fun m => cmax m cb_threshold |>
    <| io_streams := l |>).

Definition cras_iodev_add_stream (fresh : nat -> id_offset) (p : Z) (a : attached) : iodev_prog Z :=
  set_dev (fun d => d <| io_streams ::= fun l => dl_append l p a |>
                      <| io_buf_state ::= fun b => Some (default (buffer_share_create (u32 (io_buffer_size d))) b) |>) ;;
  let* s := find_rstream (at_stream a) in
  (if rs_direction s =? CRAS_STREAM_INPUT then cras_iodev_start_stream fresh p else ret tt) ;;
  ret 0.

Definition cras_iodev_stream_offset (s : cras_rstream) (d : cras_iodev) : option Z :=
  b ← io_buf_state d; Some (buffer_share_id_offset b (rs_stream_id s)).

Definition cras_iodev_stream_written (s : cras_rstream) (nwritten : Z) : iodev_prog unit :=
  let* d := get_dev in
  let* b := here (io_buf_state d) in
  set_dev (fun d => d <| io_buf_state := Some (snd (buffer_share_offset_update b (rs_stream_id s) nwritten)) |>).

Definition cras_iodev_all_streams_written : iodev_prog Z :=
  let* d := get_dev in
  match io_buf_state d with
  | None => ret 0
  | Some b =>
      let '(n, b) := buffer_share_get_new_write_point b in
      set_dev (fun d => d <| io_buf_state := Some b |>) ;; ret n
  end.

Definition cras_iodev_max_stream_offset : iodev_prog Z :=
  let* d := get_dev in
  fold_prog (fun e max =>
    if negb (ds_is_running (at_dev_stream e.2)) then ret max else
    let* s := find_rstream (at_stream e.2) in
    let* off := here (cras_iodev_stream_offset s d) in
    ret (cmax max off)) (io_streams d) 0.

(** ** The driver's buffer *)
Section Driver.
Context {H : iodev_hw}.

Definition cras_iodev_frames_queued : iodev_prog (Z * timespec) :=
  let* (rc, ts) := frames_queued in
  (if rc =? - EPIPE then emit EventSevereUnderrun else ret tt) ;;
  if rc <? 0 then ret (rc, ts) else
  let* d := get_dev in
  if io_direction d =? CRAS_STREAM_INPUT then
    (if rc >? 0 then set_dev (fun d => d <| io_input_streaming := true |>) else ret tt) ;;
    ret (rc, ts)
  else if rc <? io_min_buffer_level d then ret (0, ts)
  else ret (s32 (rc - io_min_buffer_level d), ts).

Definition cras_iodev_get_valid_frames : iodev_prog (Z * timespec) :=
  let* d := get_dev in
  if negb (io_direction d =? CRAS_STREAM_OUTPUT) then ret (- EINVAL, Timespec 0 0) else
  match get_valid_frames d with
  | Some op =>
      let* (rc, ts) := op in
      let* d := get_dev in
      if rc <? 0 then ret (rc, ts)
      else if rc <? io_min_buffer_level d then ret (0, ts)
      else ret (s32 (rc - io_min_buffer_level d), ts)
  | None => cras_iodev_frames_queued
  end.

(** [buffer_size] is an [unsigned long], the levels are [unsigned int]. *)
Definition cras_iodev_buffer_avail (d : cras_iodev) (hw_level : Z) : Z :=
  if io_direction d =? CRAS_STREAM_INPUT then s32 hw_level
  else if u32 (hw_level + io_min_buffer_level d) >? io_buffer_size d then 0
  else s32 (io_buffer_size d - io_min_buffer_level d - hw_level).

Definition cras_iodev_get_output_buffer (nframes : Z) : iodev_prog (Z * option cras_audio_area * Z) :=
  let* (rc, area, n) := get_buffer nframes in
  if n >? nframes then ret (- EINVAL, area, n) else ret (rc, area, n).

Definition cras_iodev_start : iodev_prog Z :=
  let* d := get_dev in
  if negb (cras_iodev_is_open d) then ret (- EPERM) else
  match start d with
  | None => ret (- EINVAL)
  | Some op =>
      let* rc := op in
      if negb (rc =? 0) then ret rc else
      set_dev (fun d => d <| io_state := CRAS_IODEV_STATE_NORMAL_RUN |>) ;; ret 0
  end.

Definition cras_iodev_odev_should_wake : iodev_prog bool :=
  let* d := get_dev in
  if negb (io_direction d =? CRAS_STREAM_OUTPUT) then ret false else
  let* running := match is_free_running d with Some op => op | None => ret false end in
  if running then ret false else
  let* d := get_dev in
  ret (bool_decide (io_state d = CRAS_IODEV_STATE_NORMAL_RUN)
       || bool_decide (io_state d = CRAS_IODEV_STATE_NO_STREAM_RUN)).

Definition cras_iodev_get_num_severe_underruns : iodev_prog Z :=
  let* d := get_dev in
  match get_num_severe_underruns d with Some op => op | None => ret 0 end.

Definition cras_iodev_set_mute : iodev_prog Z :=
  let* d := get_dev in
  if negb (cras_iodev_is_open d) then ret 0 else
  match set_mute d with Some op => op ;; ret 0 | None => ret 0 end.

Definition cras_iodev_update_highest_hw_level (hw_level : Z) : iodev_prog unit :=
  set_dev (fun d => d <| io_highest_hw_level ::= fun m => cmax m hw_level |>).

(** [cras_device_monitor_reset_device] sends a message and returns [sent]. *)
Definition cras_iodev_reset_request (sent : Z) : iodev_prog Z :=
  let* d := get_dev in
  if io_reset_request_pending d then ret 0 else
  set_dev (fun d => d <| io_reset_request_pending := true |>) ;;
  emit (ResetDevice (io_idx d)) ;;
  ret sent.

Definition add_rate_frames (n : Z) : iodev_prog unit :=
  set_dev (fun d => d <| io_rate_est ::= fun r => rate_estimator_add_frames r (s32 n) |>).

Definition cras_iodev_update_rate (level : Z) (level_tstamp : timespec) : iodev_prog Z :=
  let* d := get_dev in
  let* re :=
    if (io_direction d =? CRAS_STREAM_OUTPUT) && (level =? 0)
    then let* fmt := here (io_format d) in ret (rate_estimator_reset_rate (io_rate_est d) (frame_rate fmt))
    else ret (io_rate_est d) in
  let '(rc, re) := rate_estimator_check re (s32 level) level_tstamp in
  set_dev (fun d => d <| io_rate_est := re |>) ;; ret rc.

Definition cras_iodev_reset_rate_estimator : iodev_prog Z :=
  let* d := get_dev in
  let* fmt := here (io_format d) in
  set_dev (fun d => d <| io_rate_est ::= fun r => rate_estimator_reset_rate r (frame_rate fmt) |>) ;; ret 0.

Definition cras_iodev_get_est_rate_ratio (d : cras_iodev) : option spec_float :=
  fmt ← io_format d;
  Some (f64_div (rate_estimator_get_rate (io_rate_est d)) (f64_of_Z (frame_rate fmt))).

Definition cras_iodev_get_dsp_delay : iodev_prog Z :=
  let* d := get_dev in
  match io_dsp_context d with
  | None => ret 0
  | Some ctx =>
      let* v := get_srv in
      let* p := here (cras_dsp_has_pipeline ctx (sv_dsp v)) in
      if negb p then ret 0 else here (cras_dsp_pipeline_get_delay ctx (sv_dsp v))
  end.

Definition cras_iodev_delay_frames : iodev_prog Z :=
  let* n := delay_frames in
  let* m := cras_iodev_get_dsp_delay in
  here (add_int n m).
End Driver.
End Iodev.
#[global] Arguments cras_iodev {L RE} hw.
#[global] Arguments iodev_state {L RE D AP} hw.
