(* ===== verification/IodevOutput.v ===== *)
(** * Output devices (server/cras_iodev.c)

    What is done to the samples before the driver gets them, filling a device
    with silence, underruns, the device's states and how they follow one
    another, ramps, removing a stream, and when the device has to be served
    again.  A loop that asks the driver for a buffer has fuel. *)
From coqutil Require Import Datatypes.RecordSetters.
From S2P Require Import Prelude Prog Arrays Float32 Types DList Timespec BufferShare AudioFormat Mix AudioArea.
From S2P Require Import FmtConv Ramp Volume Rstream DevStream InputData Iodev.
Import TriangleBracketNotations.
#[local] Open Scope Z_scope.
#[local] Open Scope prog_scope.

Definition RAMP_UNMUTE_DURATION_SECS : spec_float := f32_decimal 5 10.
Definition RAMP_NEW_STREAM_DURATION_SECS : spec_float := f32_decimal 1 100.
Definition RAMP_MUTE_DURATION_SECS : spec_float := f32_decimal 1 10.
Definition RAMP_RESUME_MUTE_DURATION_SECS : spec_float := f32_of_Z 1.
Definition RAMP_SWITCH_MUTE_DURATION_SECS : spec_float := f32_decimal 5 10.
Definition RAMP_VOLUME_CHANGE_DURATION_SECS : spec_float := f32_decimal 1 10.
Definition dev_normal_run_wake_up_time : timespec := Timespec 0 1000000.
Definition dev_no_stream_wake_up_time : timespec := Timespec 0 5000000.

(** Whether one of [n] bytes from [i] on is not zero: the first is looked for. *)
Fixpoint some_nonzero (n : nat) (m : list Z) (i : Z) : option bool :=
  match n with
  | O => Some false
  | S n => match ld m i with
           | Some b => if negb (b =? 0) then Some true else some_nonzero n m (i + 1)
           | None => None
           end
  end.

Section Output.
Context {P : pcm_library} {L : speex_library} {RE : rate_library} {D : dsp_service} {AP : apm_service}.
Context {hw : Type} {H : iodev_hw (hw := hw)}.
Context (fuel : nat).
#[local] Abbreviation iodev_prog := (iodev_prog (hw := hw)).

(** A change of the samples' memory. *)
Definition on_mem (f : list Z -> option (list Z)) : iodev_prog unit :=
  let* d := get_dev in
  let* m := here (f (io_mem d)) in
  set_dev (fun d => d <| io_mem := m |>).

(** The device's input data gets a block of the pipeline's sink. *)
Definition run_input_data (block : list (list Z) * Z) : iodev_prog unit :=
  let* d := get_dev in
  let* data := here (io_input_data d) in
  let* data := here (input_data_run data (fst block) (snd block)) in
  set_dev (fun d => d <| io_input_data := Some data |>).

Definition apply_dsp (buf frames : Z) : iodev_prog Z :=
  let* d := get_dev in
  match io_dsp_context d with
  | None => ret 0
  | Some ctx =>
      let* v := get_srv in
      let* p := here (cras_dsp_has_pipeline ctx (sv_dsp v)) in
      if negb p then ret 0 else
      let* fmt := here (io_format d) in
      let* (rc, out, blocks, w) :=
        here (cras_dsp_pipeline_apply ctx (from_ptr (io_mem d) buf) (format fmt) frames (sv_dsp v)) in
      set_dev (fun d => d <| io_mem := set_from_ptr (io_mem d) buf out |>) ;;
      set_srv (fun v => v <| sv_dsp := w |>) ;;
      each run_input_data blocks ;;
      ret rc
  end.

(** The hooks of a type get the samples. *)
Definition run_loopbacks (type : CRAS_LOOPBACK_TYPE) (frames nframes bytes : Z) : iodev_prog unit :=
  let* d := get_dev in
  each (fun l => if bool_decide (lb_type l = type)
                 then emit (LoopbackData (lb_cb_data l) (slice (io_mem d) frames (frames + bytes)) nframes)
                 else ret tt) (io_loopbacks d).

(** The device's part of [cras_ramp_update_ramped_frames]: the call that the
    end of a ramp makes. *)
Definition update_ramped_frames (n : Z) : iodev_prog unit :=
  let* d := get_dev in
  let* r := here (io_ramp d) in
  let* (rc, r, cb) := here (cras_ramp_update_ramped_frames r (s32 n)) in
  set_dev (fun d => d <| io_ramp := Some r |>) ;;
  match cb with
  | Some ramp_down_mute_callback => emit (SetDeviceMuteState (io_idx d))
  | None => ret tt
  end.

(** The samples at [frames] go through the hooks, the DSP, mute, ramp and
    volume, and to the driver.  The result is with whether, if that was asked
    for, there was a sample other than zero. *)
Definition cras_iodev_put_output_buffer (frames nframes : Z) (ask_non_empty : bool)
    (remix_converter : option cras_fmt_conv) : iodev_prog (Z * bool) :=
  let* d := get_dev in
  let* fmt := here (io_format d) in
  let frame_bytes := cras_get_format_bytes fmt in
  let* non_empty :=
    if ask_non_empty then here (some_nonzero (Z.to_nat (u64 (nframes * frame_bytes))) (io_mem d) frames)
    else ret false in
  run_loopbacks LOOPBACK_POST_MIX_PRE_DSP frames nframes (nframes * frame_bytes) ;;
  let* rc := apply_dsp frames nframes in
  if negb (rc =? 0) then ret (rc, non_empty) else
  run_loopbacks LOOPBACK_POST_DSP frames nframes (nframes * frame_bytes) ;;
  let action := match io_ramp d with
                | Some r => cras_ramp_get_current_action r
                | None => RampAction CRAS_RAMP_ACTION_NONE float_zero float_zero float_one
                end in
  let partial := bool_decide (ra_type action = CRAS_RAMP_ACTION_PARTIAL) in
  let* mute := output_should_mute in
  (if mute && negb partial then
     on_mem (fun m => snd <$> mix_mute_buffer m frames (u32 frame_bytes) nframes)
   else ret tt) ;;
  let* needed := here (cras_iodev_software_volume_needed d) in
  let* software_volume_scaler :=
    if needed then cras_iodev_get_software_volume_scaler else ret float_one in
  (if partial then
     let by_volume x := if needed then f32_mul x software_volume_scaler else x in
     on_mem (fun m => cras_scale_buffer_increment (format fmt) m frames nframes (by_volume (ra_scaler action))
                        (by_volume (ra_increment action)) (by_volume (ra_target action)) (num_channels fmt)) ;;
     update_ramped_frames nframes
   else if negb mute && needed then
     on_mem (fun m => scale_buffer (format fmt) m frames (u32 (nframes * num_channels fmt)) software_volume_scaler)
   else ret tt) ;;
  (match remix_converter with
   | Some conv =>
       let* tmp := here (head (fc_tmp_bufs conv)) in
       on_mem (fun m => match cras_channel_remix_convert conv fmt (view codec_s16 tmp)
                                (view codec_s16 (from_ptr m frames)) nframes with
                        | Some (_, out) => Some (set_from_ptr m frames (put codec_s16 (from_ptr m frames) out))
                        | None => None
                        end)
   | None => ret tt
   end) ;;
  let* d := get_dev in
  (match io_rate_est d with Some _ => add_rate_frames nframes | None => ret tt end) ;;
  let* rc := put_buffer nframes in
  ret (rc, non_empty).

(** What [put_output_buffer] answers is not looked at. *)
Fixpoint fill_zeros_loop (n : nat) (frames frame_bytes : Z) : iodev_prog Z :=
  if negb (frames >? 0) then ret 0 else
  match n with
  | O => here None
  | S n =>
      let* (rc, area, frames_written) := cras_iodev_get_output_buffer frames in
      if rc <? 0 then ret rc else
      let* area := here area in
      let* ch := here (head (channels area)) in
      on_mem (fun m => memset0 m (buf ch) (u32 (frames_written * frame_bytes))) ;;
      let* _ := cras_iodev_put_output_buffer (buf ch) frames_written false None in
      fill_zeros_loop n (u32 (frames - frames_written)) frame_bytes
  end.

Definition cras_iodev_fill_odev_zeros (frames : Z) : iodev_prog Z :=
  let* d := get_dev in
  if negb (io_direction d =? CRAS_STREAM_OUTPUT) then ret (- EINVAL) else
  let* fmt := here (io_format d) in
  fill_zeros_loop fuel frames (u32 (cras_get_format_bytes fmt)).

(** ** Ramps *)

(** What the cases of the request lead to: the ramp, after the request to start
    with is set, and before the mute state is. *)
Definition begin_ramp (from to duration_secs : spec_float) (cb : option iodev_ramp_cb)
    (set_initial set_mute_state : bool) : iodev_prog Z :=
  (if set_initial
   then set_dev (fun d => d <| io_initial_ramp_request := CRAS_IODEV_RAMP_REQUEST_UP_START_PLAYBACK |>)
   else ret tt) ;;
  let* d := get_dev in
  let* fmt := here (io_format d) in
  let* n := here (f32_to_s32 (f32_mul duration_secs (f32_of_Z (frame_rate fmt)))) in
  let '(rc, r) := cras_mute_ramp_start (io_ramp d) from to n cb in
  set_dev (fun d => d <| io_ramp := r |>) ;;
  if negb (rc =? 0) then ret rc else
  (if set_mute_state then emit (SetDeviceMuteState (io_idx d)) else ret tt) ;;
  ret 0.

Definition cras_iodev_start_ramp (request : CRAS_IODEV_RAMP_REQUEST) : iodev_prog Z :=
  let* d := get_dev in
  if negb (cras_iodev_is_open d) then ret 0 else
  match request with
  | CRAS_IODEV_RAMP_REQUEST_UP_UNMUTE =>
      begin_ramp float_zero float_one RAMP_UNMUTE_DURATION_SECS None false true
  | CRAS_IODEV_RAMP_REQUEST_UP_START_PLAYBACK =>
      begin_ramp float_zero float_one RAMP_NEW_STREAM_DURATION_SECS None false false
  | CRAS_IODEV_RAMP_REQUEST_DOWN_MUTE =>
      begin_ramp float_one float_zero RAMP_MUTE_DURATION_SECS (Some ramp_down_mute_callback) false false
  | CRAS_IODEV_RAMP_REQUEST_RESUME_MUTE =>
      begin_ramp float_zero float_zero RAMP_RESUME_MUTE_DURATION_SECS None true false
  | CRAS_IODEV_RAMP_REQUEST_SWITCH_MUTE =>
      begin_ramp float_zero float_zero RAMP_SWITCH_MUTE_DURATION_SECS None true false
  | CRAS_IODEV_RAMP_REQUEST_NONE => ret (- EINVAL)
  end.

Definition cras_iodev_start_volume_ramp (old_volume new_volume : Z) : iodev_prog Z :=
  let* d := get_dev in
  if old_volume =? new_volume then ret 0
  else if negb (cras_iodev_is_open d) then ret 0 else
  match io_format d with
  | None => ret (- EINVAL)
  | Some fmt =>
      let* n := here (find_active_node d) in
      let* old_scaler := here (scaler_for n old_volume) in
      let* new_scaler := here (scaler_for n new_volume) in
      if SFeqb new_scaler float_zero then ret (- EINVAL) else
      let* k := here (f32_to_s32 (f32_mul RAMP_VOLUME_CHANGE_DURATION_SECS (f32_of_Z (frame_rate fmt)))) in
      let '(rc, r) := cras_volume_ramp_start (io_ramp d) (f32_div old_scaler new_scaler) float_one k None in
      set_dev (fun d => d <| io_ramp := r |>) ;; ret rc
  end.

(** ** Underruns *)

(** The function that handles a driver's underrun, if it has one. *)
Class iodev_xrun : Type := output_underrun : cras_iodev hw -> option (iodev_prog Z).

Section Underruns.
Context {X : iodev_xrun}.

Definition cras_iodev_output_underrun : iodev_prog Z :=
  set_dev (fun d => d <| io_num_underruns ::= fun n => u32 (n + 1) |>) ;;
  emit EventUnderrun ;;
  let* d := get_dev in
  match output_underrun d with
  | Some op => op
  | None => cras_iodev_fill_odev_zeros (io_min_cb_level d)
  end.

Definition default_no_stream_playback : iodev_prog Z :=
  let* d := get_dev in
  let target_hw_level := u32 (io_min_cb_level d * 2) in
  let* (rc, _) := cras_iodev_frames_queued in
  if rc <? 0 then ret rc else
  let* hw_level :=
    if rc =? 0 then
      let* rc := cras_iodev_output_underrun in
      if rc <? 0 then ret rc else
      let* (rc, _) := cras_iodev_frames_queued in ret rc
    else ret rc in
  if hw_level <? 0 then ret hw_level else
  let* d := get_dev in
  let fr_to_write := u32 (cras_iodev_buffer_avail d hw_level) in
  if hw_level <=? target_hw_level
  then cras_iodev_fill_odev_zeros (cmin (u32 (target_hw_level - hw_level)) fr_to_write)
  else ret 0.

Definition cras_iodev_default_no_stream_playback (enable : Z) : iodev_prog Z :=
  if negb (enable =? 0) then default_no_stream_playback else ret 0.

(** ** States *)

(** The functions of a driver that may be built from those above.
    [frames_to_play_in_sleep] also gives the level and its time. *)
Class iodev_driver : Type := {
  no_stream : Z -> iodev_prog Z;
  frames_to_play_in_sleep : cras_iodev hw -> option (iodev_prog (Z * Z * timespec))
}.

Section States.
Context {V : iodev_driver}.

(** The loop of [dev_playback_frames]. *)
Fixpoint playback_frames_loop (l : dlist attached) (frames : Z) : iodev_prog Z :=
  match l with
  | [] => ret frames
  | (_, a) :: l =>
      if negb (ds_is_running (at_dev_stream a)) then playback_frames_loop l frames else
      let* s := find_rstream (at_stream a) in
      (if dev_stream_attached_devs s =? 1 then
         let* s := here (dev_stream_update_frames s) in put_rstream (at_stream a) s
       else ret tt) ;;
      let* s := find_rstream (at_stream a) in
      let* dev_frames := here (dev_stream_playback_frames (at_dev_stream a) s) in
      if dev_frames <? 0 then playback_frames_loop l frames
      else if dev_frames =? 0 then
        if negb (cras_rstream_get_is_draining s =? 0) then playback_frames_loop l frames else ret 0
      else playback_frames_loop l (if frames =? 0 then dev_frames else cmin dev_frames frames)
  end.

Definition dev_playback_frames : iodev_prog Z :=
  let* d := get_dev in
  let* n := playback_frames_loop (io_streams d) 0 in
  ret (u32 n).

Definition cras_iodev_no_stream_playback_transition (enable : bool) : iodev_prog Z :=
  let* d := get_dev in
  if negb (io_direction d =? CRAS_STREAM_OUTPUT) then ret (- EINVAL)
  else if negb (bool_decide (io_state d = CRAS_IODEV_STATE_NORMAL_RUN))
          && negb (bool_decide (io_state d = CRAS_IODEV_STATE_NO_STREAM_RUN)) then ret (- EINVAL) else
  let* rc := no_stream (c_bool enable) in
  if rc <? 0 then ret rc else
  set_dev (fun d => d <| io_state := if enable then CRAS_IODEV_STATE_NO_STREAM_RUN
                                     else CRAS_IODEV_STATE_NORMAL_RUN |>) ;;
  ret 0.

(** What the ramp and the zeros answer is not looked at. *)
Definition cras_iodev_output_event_sample_ready : iodev_prog Z :=
  let* d := get_dev in
  (if bool_decide (io_state d = CRAS_IODEV_STATE_OPEN) || bool_decide (io_state d = CRAS_IODEV_STATE_NO_STREAM_RUN)
   then match io_ramp d with
        | Some _ =>
            let* mute := output_should_mute in
            if mute then ret 0 else cras_iodev_start_ramp (io_initial_ramp_request d)
        | None => ret 0
        end
   else ret 0) ;;
  let* d := get_dev in
  match io_state d with
  | CRAS_IODEV_STATE_OPEN =>
      cras_iodev_fill_odev_zeros (io_min_cb_level d) ;; cras_iodev_start
  | CRAS_IODEV_STATE_NO_STREAM_RUN => cras_iodev_no_stream_playback_transition false
  | _ => ret (- EINVAL)
  end.

Definition cras_iodev_prepare_output_before_write_samples : iodev_prog Z :=
  let* d := get_dev in
  if negb (io_direction d =? CRAS_STREAM_OUTPUT) then ret (- EINVAL) else
  let state := io_state d in
  let* ready :=
    if bool_decide (state = CRAS_IODEV_STATE_OPEN) || bool_decide (state = CRAS_IODEV_STATE_NO_STREAM_RUN)
    then let* n := dev_playback_frames in ret (negb (n =? 0)) else ret false in
  if ready then cras_iodev_output_event_sample_ready
  else if bool_decide (state = CRAS_IODEV_STATE_NO_STREAM_RUN) then no_stream 1
  else ret 0.

(** ** Removing a stream *)

(** What the loop over the streams carries: the stream found and the earliest
    time of a callback. *)
Definition rm_stream_pass (rstream : Z) (e : Z * attached) (c : option Z * option timespec)
  : iodev_prog (option Z * option timespec) :=
  let '(found, earliest) := c in
  let '(p, a) := e in
  let* d := get_dev in
  let* s := find_rstream (at_stream a) in
  if at_stream a =? rstream then
    let* b := here (io_buf_state d) in
    let* l := here (dl_delete (io_streams d) p) in
    set_dev (fun d => d <| io_buf_state := Some (snd (buffer_share_rm_id b (rs_stream_id s))) |> <| io_streams := l |>) ;;
    ret (Some p, earliest)
  else if negb (ds_is_running (at_dev_stream a)) then ret c else
  let* cb_threshold := here (dev_stream_cb_threshold (at_dev_stream a) s) in
  set_dev (fun d => d <| io_min_cb_level ::= fun m => cmin m cb_threshold |>
                      <| io_max_cb_level ::= fun m => cmax m cb_threshold |>) ;;
  let e := default (rs_next_cb_ts s) earliest in
  ret (found, Some (if timespec_after e (rs_next_cb_ts s) then rs_next_cb_ts s else e)).

(** The result is the device's stream, no longer linked. *)
Definition cras_iodev_rm_stream (rstream : Z) : iodev_prog (option Z) :=
  let* d := get_dev in
  let half := u32 (io_buffer_size d / 2) in
  set_dev (fun d => d <| io_min_cb_level := half |> <| io_max_cb_level := 0 |>) ;;
  let* (found, earliest) := fold_prog (rm_stream_pass rstream) (io_streams d) (None, None) in
  let* d := get_dev in
  match io_streams d with
  | [] =>
      set_dev (fun d => d <| io_buf_state := None |> <| io_min_cb_level := half |>) ;;
      (if (io_direction d =? CRAS_STREAM_OUTPUT) && bool_decide (io_state d = CRAS_IODEV_STATE_NORMAL_RUN)
       then cras_iodev_no_stream_playback_transition true else ret 0) ;;
      ret tt
  | _ => ret tt
  end ;;
  match earliest with
  | None => ret found
  | Some t =>
      let* d := get_dev in
      each (fun e => if ds_is_running (at_dev_stream e.2) then ret tt else
                     let* s := find_rstream (at_stream e.2) in
                     put_rstream (at_stream e.2) (set_rs_next_cb_ts t s)) (io_streams d) ;;
      ret found
  end.

(** ** When to wake up *)

Definition cras_iodev_default_frames_to_play_in_sleep : iodev_prog (Z * Z * timespec) :=
  let* (rc, hw_tstamp) := cras_iodev_frames_queued in
  let level := if rc <? 0 then 0 else rc in
  let* d := get_dev in
  match io_streams d with
  | _ :: _ =>
      let* ready := if level >? io_min_cb_level d
                    then let* n := dev_playback_frames in ret (negb (n =? 0)) else ret false in
      if ready then ret (u32 (level - io_min_cb_level d), level, hw_tstamp) else
      let* fmt := here (io_format d) in
      let wakeup_frames := u32 (cras_time_to_frames dev_normal_run_wake_up_time (frame_rate fmt)) in
      ret (if level >? wakeup_frames then level - wakeup_frames else level, level, hw_tstamp)
  | [] =>
      let* fmt := here (io_format d) in
      let wakeup_frames := u32 (cras_time_to_frames dev_no_stream_wake_up_time (frame_rate fmt)) in
      let least := cmin (io_min_cb_level d) wakeup_frames in
      ret (if level >? least then level - least else 0, level, hw_tstamp)
  end.

Definition cras_iodev_frames_to_play_in_sleep : iodev_prog (Z * Z * timespec) :=
  let* d := get_dev in
  match frames_to_play_in_sleep d with
  | Some op => op
  | None => cras_iodev_default_frames_to_play_in_sleep
  end.
End States.
End Underruns.
End Output.
