(* ===== verification/Expr.v ===== *)
(** * Expressions of the DSP configuration (server/cras_expr.c and .h)

    Literals, variables and compound expressions, the environment, the parser
    and the evaluator.  A C string is the list of its bytes before the NUL. *)
From S2P Require Import Prelude.
From stdpp Require Import gmap.
From Stdlib Require Ascii String.
Import String.StringSyntax.
#[local] Open Scope Z_scope.

Definition c_str (s : String.string) : list Z :=
  (fun c => Z.of_nat (Ascii.nat_of_ascii c)) <$> String.list_ascii_of_string s.
#[local] Arguments c_str s%_string_scope.

(** ** Values *)

(** The built-in functions: the only ones a value ever points to. *)
Inductive expr_function : Type := FunctionNot | FunctionAnd | FunctionOr | FunctionEqual.

Inductive cras_expr_value : Type :=
  | ValueNone
  | ValueBoolean (b : bool)
  | ValueInt (z : Z)
  | ValueString (s : list Z)
  | ValueFunction (f : expr_function).

#[export] Instance expr_function_eq_dec : EqDecision expr_function.
Proof. solve_decision. Defined.
#[export] Instance cras_expr_value_eq_dec : EqDecision cras_expr_value.
Proof. solve_decision. Defined.

Definition is_false (v : cras_expr_value) : bool :=
  match v with ValueBoolean false => true | _ => false end.

(** The operands of a function begin with the function itself. *)
Definition function_not (operands : list cras_expr_value) : cras_expr_value :=
  match operands with
  | [_; v] => ValueBoolean (is_false v)
  | _ => ValueNone
  end.

Definition function_and (operands : list cras_expr_value) : cras_expr_value :=
  if Z.of_nat (length operands) <=? 1 then ValueBoolean true
  else if existsb is_false (tail operands) then ValueBoolean false
  else default ValueNone (last operands).

Definition function_or (operands : list cras_expr_value) : cras_expr_value :=
  match List.find (fun v => negb (is_false v)) (tail operands) with
  | Some v => v
  | None => ValueBoolean false
  end.

(** Each operand is compared with the one before it. *)
Fixpoint equal_chain (prev : cras_expr_value) (operands : list cras_expr_value) : bool :=
  match operands with
  | [] => true
  | v :: rest => if bool_decide (prev = v) then equal_chain v rest else false
  end.

Definition function_equal_real (operands : list cras_expr_value) : bool :=
  match operands with _ :: v :: rest => equal_chain v rest | _ => true end.

Definition function_equal (operands : list cras_expr_value) : cras_expr_value :=
  ValueBoolean (function_equal_real operands).

Definition call_function (f : expr_function) : list cras_expr_value -> cras_expr_value :=
  match f with
  | FunctionNot => function_not | FunctionAnd => function_and
  | FunctionOr => function_or | FunctionEqual => function_equal
  end.

(** ** The environment: two arrays of one length *)

Record cras_expr_env : Type := ExprEnv { env_keys : list (list Z); env_values : list cras_expr_value }.

Definition CRAS_EXPR_ENV_INIT : cras_expr_env := ExprEnv [] [].

(** Where the value of [name] is. *)
Definition find_value (env : cras_expr_env) (name : list Z) : option nat :=
  fst <$> list_find (fun k => k = name) (env_keys env).

Definition insert_value (env : cras_expr_env) (key : list Z) : nat * cras_expr_env :=
  (length (env_values env), ExprEnv (env_keys env ++ [key]) (env_values env ++ [ValueNone])).

Definition find_or_insert_value (env : cras_expr_env) (key : list Z) : nat * cras_expr_env :=
  match find_value env key with Some i => (i, env) | None => insert_value env key end.

Definition set_value (env : cras_expr_env) (name : list Z) (v : cras_expr_value) : cras_expr_env :=
  let '(i, env) := find_or_insert_value env name in
  ExprEnv (env_keys env) (<[i := v]> (env_values env)).

Definition env_set_variable (env : cras_expr_env) (name : list Z) (v : cras_expr_value)
  : cras_expr_env := set_value env name v.
Definition cras_expr_env_set_variable_boolean (env : cras_expr_env) (name : list Z) (boolean : Z)
  : cras_expr_env := set_value env name (ValueBoolean (negb (boolean =? 0))).
Definition cras_expr_env_set_variable_integer (env : cras_expr_env) (name : list Z) (integer : Z)
  : cras_expr_env := set_value env name (ValueInt integer).
Definition cras_expr_env_set_variable_string (env : cras_expr_env) (name : list Z) (str : list Z)
  : cras_expr_env := set_value env name (ValueString str).

Definition cras_expr_env_install_builtins (env : cras_expr_env) : cras_expr_env :=
  let env := env_set_variable env (c_str "not") (ValueFunction FunctionNot) in
  let env := env_set_variable env (c_str "and") (ValueFunction FunctionAnd) in
  let env := env_set_variable env (c_str "or") (ValueFunction FunctionOr) in
  env_set_variable env (c_str "equal?") (ValueFunction FunctionEqual).

(** ** Expressions and their evaluation *)

#[local] Unset Elimination Schemes.
Inductive cras_expr_expression : Type :=
  | ExprNone
  | ExprLiteral (v : cras_expr_value)
  | ExprVariable (name : list Z)
  | ExprCompound (children : list cras_expr_expression).
#[local] Set Elimination Schemes.

Definition call_values (values : list cras_expr_value) : cras_expr_value :=
  match values with
  | ValueFunction f :: _ => call_function f values
  | _ => ValueNone
  end.

Fixpoint cras_expr_expression_eval (expr : cras_expr_expression) (env : cras_expr_env)
  : cras_expr_value :=
  match expr with
  | ExprNone => ValueNone
  | ExprLiteral v => v
  | ExprVariable name =>
      match find_value env name with
      | None => ValueNone
      | Some i => default ValueNone (env_values env !! i)
      end
  | ExprCompound children =>
      call_values (List.map (fun sub => cras_expr_expression_eval sub env) children)
  end.

(** The result, and [*integer] or [*boolean] when it is stored. *)
Definition cras_expr_expression_eval_int (expr : cras_expr_expression) (env : cras_expr_env)
  : Z * option Z :=
  match cras_expr_expression_eval expr env with ValueInt z => (0, Some z) | _ => (-1, None) end.

Definition cras_expr_expression_eval_boolean (expr : cras_expr_expression) (env : cras_expr_env)
  : Z * option bool :=
  match cras_expr_expression_eval expr env with ValueBoolean b => (0, Some b) | _ => (-1, None) end.

(** ** The parser *)

(** <ctype.h> in the C locale. *)
Definition isspace (c : Z) : bool := (c =? 32) || ((9 <=? c) && (c <=? 13)).
Definition isdigit (c : Z) : bool := (48 <=? c) && (c <=? 57).
Definition isalpha (c : Z) : bool := ((65 <=? c) && (c <=? 90)) || ((97 <=? c) && (c <=? 122)).

Definition is_identifier_char (c : Z) : bool :=
  if isspace c then false else if c =? 0 then false else if isalpha c then true
  else (c =? 95) || (c =? 45) || (c =? 63).

(** The byte at a pointer: the NUL at the end. *)
Definition here (s : list Z) : Z := match s with [] => 0 | c :: _ => c end.

Fixpoint skip (p : Z -> bool) (s : list Z) : list Z :=
  match s with c :: r => if p c then skip p r else s | [] => [] end.
Fixpoint span (p : Z -> bool) (s : list Z) : list Z * list Z :=
  match s with
  | c :: r => if p c then let '(a, b) := span p r in (c :: a, b) else ([], s)
  | [] => ([], [])
  end.

(** [strtol] in base 10: spaces, a sign, digits, the value held to a [long]. *)
Definition digits_value (ds : list Z) : Z := foldl (fun n d => n * 10 + (d - 48)) 0 ds.
Definition strtol (s : list Z) : Z * list Z :=
  let s := skip isspace s in
  let neg := here s =? 45 in
  let r := if neg || (here s =? 43) then tail s else s in
  let '(ds, r) := span isdigit r in
  let v := if neg then - digits_value ds else digits_value ds in
  (Z.max (-9223372036854775808) (Z.min v 9223372036854775807), r).

(** The bytes before the next double quote, and what follows it. *)
Fixpoint until_quote (s : list Z) : option (list Z * list Z) :=
  match s with
  | [] => None
  | c :: r => if c =? 34 then Some ([], r) else '(a, b) ← until_quote r; Some (c :: a, b)
  end.

(** [parse_one_expr] returns the expression ([None] for [NULL]) and the rest of
    the string; [parse_children] is its loop.  The outer [None] is fuel running out. *)
Fixpoint parse_one_expr (fuel : nat) (s : list Z) : option (option cras_expr_expression * list Z) :=
  match fuel with
  | O => None
  | S fuel =>
      let s := skip isspace s in
      match s with
      | [] => Some (None, [])
      | c :: r =>
          if c =? 35 then
            if (here r =? 116) || (here r =? 102)
            then Some (Some (ExprLiteral (ValueBoolean (here r =? 116))), tail r)
            else Some (None, r)
          else if isdigit c || ((c =? 45) && isdigit (here r)) then
            let '(z, rest) := strtol s in Some (Some (ExprLiteral (ValueInt (s32 z))), rest)
          else if c =? 34 then
            match until_quote r with
            | None => Some (Some (ExprLiteral (ValueString [])), r)
            | Some (body, rest) => Some (Some (ExprLiteral (ValueString body)), rest)
            end
          else if c =? 40 then
            '(children, rest) ← parse_children fuel r;
            if here rest =? 41 then Some (Some (ExprCompound children), tail rest)
            else Some (None, rest)
          else if is_identifier_char c then
            let '(name, rest) := span is_identifier_char s in Some (Some (ExprVariable name), rest)
          else Some (None, s)
      end
  end
with parse_children (fuel : nat) (s : list Z) : option (list cras_expr_expression * list Z) :=
  match fuel with
  | O => None
  | S fuel =>
      '(next, s) ← parse_one_expr fuel s;
      match next with
      | None => Some ([], s)
      | Some e => '(es, s) ← parse_children fuel s; Some (e :: es, s)
      end
  end.

(** [None] as the argument or the result is [NULL]; what follows the first
    expression is not looked at. *)
Definition parse_fuel (s : list Z) : nat := (2 * length s + 2)%nat.
Definition cras_expr_expression_parse (str : option (list Z)) : option (option cras_expr_expression) :=
  match str with
  | None => Some None
  | Some s => fst <$> parse_one_expr (parse_fuel s) s
  end.

(** ** The parser ends *)

Lemma skip_length (p : Z -> bool) (s : list Z) : (length (skip p s) <= length s)%nat.
Proof. induction s as [|c s IH]; cbn; [lia|]. destruct (p c); cbn; lia. Qed.

Lemma span_length (p : Z -> bool) (s : list Z) :
  (length (span p s).1 + length (span p s).2 = length s)%nat.
Proof. induction s as [|c s IH]; cbn; [lia|]. destruct (p c), (span p s); cbn in *; lia. Qed.

Lemma until_quote_length (s a b : list Z) : until_quote s = Some (a, b) -> (length b < length s)%nat.
Proof.
  revert a b. induction s as [|c s IH]; intros a b; cbn; [done|]. destruct (c =? 34); [intros [= <- <-]; lia|].
  destruct (until_quote s) as [[a' b']|]; cbn; [|done]. intros [= <- <-]. specialize (IH _ _ eq_refl). lia.
Qed.

Lemma tail_length {A} (s : list A) : (length (tail s) <= length s)%nat.
Proof. destruct s; cbn; lia. Qed.

(** [strtol] moves past at least one digit. *)
Lemma strtol_length (c : Z) (r : list Z) :
  isdigit c || ((c =? 45) && isdigit (here r)) = true -> (length (strtol (c :: r)).2 < S (length r))%nat.
Proof.
  intros Hc. unfold strtol.
  assert (Hsp : skip isspace (c :: r) = c :: r).
  { cbn. replace (isspace c) with false; [done|]. unfold isdigit, isspace in *. lia. }
  rewrite Hsp. cbn [here tail].
  destruct (Z.eqb_spec c 45) as [->|Hne]; cbn [orb].
  - cbn in Hc. destruct r as [|d r]; [done|]. cbn [here] in Hc. cbn [span]. rewrite Hc.
    pose proof (span_length isdigit r). destruct (span isdigit r). cbn in *. lia.
  - rewrite orb_false_r in Hc. replace (c =? 43) with false by (unfold isdigit in Hc; lia).
    cbn [span]. rewrite Hc. pose proof (span_length isdigit r). destruct (span isdigit r). cbn in *. lia.
Qed.

Lemma parse_total (fuel : nat) :
  (forall s, (2 * length s + 1 < fuel)%nat -> exists e r, parse_one_expr fuel s = Some (e, r) /\
     (length r <= length s)%nat /\ (e <> None -> (length r < length s)%nat)) /\
  (forall s, (2 * length s + 2 < fuel)%nat -> exists es r, parse_children fuel s = Some (es, r) /\
     (length r <= length s)%nat).
Proof.
  induction fuel as [|fuel [IH1 IH2]]; split; intros s Hf; [lia|lia| |].
  - cbn [parse_one_expr]. pose proof (skip_length isspace s) as Hs.
    destruct (skip isspace s) as [|c r]; cbn [length] in Hs; [by eexists _, _; split; [done|]; cbn; split; [lia|]|].
    pose proof (tail_length r).
    destruct (c =? 35); [destruct (_ || _); eexists _, _; (split; [done|]); split; (lia || done)|].
    destruct (isdigit c || _) eqn:Hd.
    { pose proof (strtol_length c r Hd). destruct (strtol (c :: r)) as [z t]. cbn in *.
      eexists _, _. split; [done|]. split; lia. }
    destruct (c =? 34).
    { destruct (until_quote r) as [[a b]|] eqn:Hq; [apply until_quote_length in Hq|];
        eexists _, _; (split; [done|]); split; lia. }
    destruct (c =? 40).
    { destruct (IH2 r) as (es & t & -> & Ht); [lia|]. cbn [mbind option_bind]. pose proof (tail_length t).
      destruct (here t =? 41); eexists _, _; (split; [done|]); split; (lia || done). }
    destruct (is_identifier_char c) eqn:Hi; [|eexists _, _; (split; [done|]); split; [cbn; lia|done]].
    pose proof (span_length is_identifier_char r) as Hl. cbn [span]. rewrite Hi.
    destruct (span is_identifier_char r) as [a b]. cbn in Hl. eexists _, _. split; [done|]. split; lia.
  - cbn [parse_children]. destruct (IH1 s) as (e & r & -> & Hr & Hlt); [lia|]. cbn [mbind option_bind].
    destruct e as [e|]; [|by eexists _, _]. specialize (Hlt ltac:(done)).
    destruct (IH2 r) as (es & t & -> & Ht); [lia|]. cbn [mbind option_bind]. eexists _, _. split; [done|]. lia.
Qed.

(** ** Printing, and reading back *)

Section Induction.
Context (Q : cras_expr_expression -> Prop).
Hypothesis none : Q ExprNone.
Hypothesis literal : forall v, Q (ExprLiteral v).
Hypothesis variable : forall name, Q (ExprVariable name).
Hypothesis compound : forall es, Forall Q es -> Q (ExprCompound es).

Fixpoint expression_ind (e : cras_expr_expression) : Q e :=
  match e with
  | ExprNone => none
  | ExprLiteral v => literal v
  | ExprVariable name => variable name
  | ExprCompound es => compound es
      ((fix go es : Forall Q es :=
          match es with [] => @List.Forall_nil _ Q | e :: es => @List.Forall_cons _ Q e es (expression_ind e) (go es) end) es)
  end.
End Induction.

(** Decimal digits, most significant first. *)
Fixpoint digits (fuel : nat) (n : Z) (acc : list Z) : list Z :=
  match fuel with
  | O => acc
  | S fuel => if n <? 10 then (48 + n) :: acc else digits fuel (n / 10) ((48 + n mod 10) :: acc)
  end.
Definition print_int (z : Z) : list Z := if z <? 0 then 45 :: digits 10 (- z) [] else digits 10 z [].

(** One way to write an expression down. *)
Fixpoint print_expr (e : cras_expr_expression) : list Z :=
  match e with
  | ExprNone => []
  | ExprLiteral (ValueBoolean b) => if b then c_str "#t" else c_str "#f"
  | ExprLiteral (ValueInt z) => print_int z
  | ExprLiteral (ValueString s) => 34 :: s ++ [34]
  | ExprLiteral _ => []
  | ExprVariable name => name
  | ExprCompound es => 40 :: List.concat (List.map (fun e => print_expr e ++ [32]) es) ++ [41]
  end.

(** The expressions that can be written. *)
Fixpoint printable (e : cras_expr_expression) : Prop :=
  match e with
  | ExprLiteral (ValueBoolean _) => True
  | ExprLiteral (ValueInt z) => is_s32 z
  | ExprLiteral (ValueString s) => 34 ∉ s
  | ExprVariable name => name <> [] /\ forallb is_identifier_char name = true
  | ExprCompound es => List.fold_right (fun e => and (printable e)) True es
  | _ => False
  end.

(** What may follow an expression. *)
Definition delimited (rest : list Z) : Prop := isdigit (here rest) = false /\ is_identifier_char (here rest) = false.

Lemma foldl_digits (ds : list Z) (n : Z) :
  foldl (fun n d => n * 10 + (d - 48)) n ds = n * 10 ^ Z.of_nat (length ds) + digits_value ds.
Proof.
  unfold digits_value. revert n. induction ds as [|d ds IH]; intros n; cbn [foldl length]; [lia|].
  rewrite IH, (IH (0 * 10 + (d - 48))), Nat2Z.inj_succ, Z.pow_succ_r by lia. ring.
Qed.

Lemma digits_spec (fuel : nat) (n : Z) (acc : list Z) :
  0 <= n < 10 ^ Z.of_nat fuel -> Forall (fun d => isdigit d = true) acc ->
  Forall (fun d => isdigit d = true) (digits fuel n acc) /\
  (0 < fuel -> digits fuel n acc <> [])%nat /\
  digits_value (digits fuel n acc) = n * 10 ^ Z.of_nat (length acc) + digits_value acc.
Proof.
  revert n acc. induction fuel as [|fuel IH]; intros n acc Hn Hacc.
  { change (10 ^ Z.of_nat 0) with 1 in Hn. cbn [digits]. split; [done|]. split; [lia|].
    replace n with 0 by lia. lia. }
  rewrite Nat2Z.inj_succ, Z.pow_succ_r in Hn by lia. cbn [digits]. destruct (Z.ltb_spec n 10).
  - split; [constructor; [unfold isdigit; lia|done]|]. split; [done|].
    unfold digits_value at 1. cbn [foldl]. rewrite foldl_digits. ring.
  - pose proof (Z.mod_pos_bound n 10 ltac:(lia)).
    destruct (IH (n / 10) ((48 + n mod 10) :: acc)) as (H1 & H2 & H3).
    { split; [apply Z.div_pos; lia|apply Z.div_lt_upper_bound; lia]. }
    { constructor; [unfold isdigit; lia|done]. }
    split; [done|]. split.
    + intros _ E. rewrite E in *. destruct fuel as [|f]; [cbn in *; lia|].
      by specialize (H2 ltac:(lia)).
    + rewrite H3. cbn [length]. unfold digits_value at 1. cbn [foldl]. rewrite foldl_digits.
      rewrite Nat2Z.inj_succ, Z.pow_succ_r by lia. rewrite (Z.div_mod n 10) at 3 by lia. ring.
Qed.

Lemma span_app (p : Z -> bool) (a rest : list Z) :
  Forall (fun c => p c = true) a -> p (here rest) = false \/ rest = [] -> span p (a ++ rest) = (a, rest).
Proof.
  intros Ha Hr. induction Ha as [|c a Hc _ IH]; cbn.
  - destruct rest as [|c r]; [done|]. destruct Hr as [Hr|Hr]; [|done]. cbn in *. by rewrite Hr.
  - by rewrite Hc, IH.
Qed.

Lemma digits_head (ds : list Z) :
  Forall (fun d => isdigit d = true) ds -> ds <> [] ->
  exists d r, ds = d :: r /\ isdigit d = true.
Proof. intros [|d r Hd _] Hne; [done|]. by exists d, r. Qed.

Lemma strtol_print_int (z : Z) (rest : list Z) :
  is_s32 z -> delimited rest -> exists c r, print_int z ++ rest = c :: r /\
    isdigit c || ((c =? 45) && isdigit (here r)) = true /\ strtol (c :: r) = (z, rest).
Proof.
  unfold is_s32. intros Hz [Hd _]. set (n := Z.abs z).
  destruct (digits_spec 10 n []) as (Hall & Hne & Hval); [change (10 ^ Z.of_nat 10) with 10000000000; unfold n; lia|constructor|].
  specialize (Hne ltac:(lia)). cbn [length] in Hval. rewrite Z.mul_1_r in Hval.
  unfold digits_value at 2 in Hval. cbn [foldl] in Hval. rewrite Z.add_0_r in Hval.
  destruct (digits_head _ Hall Hne) as (d & r & Hds & Hdd).
  assert (Hsp : span isdigit (digits 10 n [] ++ rest) = (digits 10 n [], rest)).
  { apply span_app; [done|by left]. }
  assert (Hskip : forall c t, isspace c = false -> skip isspace (c :: t) = c :: t).
  { intros c t Hc. cbn. by rewrite Hc. }
  unfold print_int, strtol. destruct (Z.ltb_spec z 0) as [Hneg|Hpos].
  - replace (- z) with n by (unfold n; lia). exists 45, (digits 10 n [] ++ rest). split; [done|].
    split; [by rewrite Hds; cbn; rewrite Hdd|]. rewrite Hskip by done. cbn [here Z.eqb Pos.eqb orb tail].
    rewrite Hsp, Hval. f_equal. unfold n. lia.
  - replace (digits 10 z []) with (digits 10 n []) by (unfold n; by rewrite Z.abs_eq).
    exists d, (r ++ rest). rewrite Hds. split; [done|]. split; [by rewrite Hdd|].
    rewrite Hskip by (unfold isdigit, isspace in *; lia). cbn [here].
    replace (d =? 45) with false by (unfold isdigit in Hdd; lia).
    replace (d =? 43) with false by (unfold isdigit in Hdd; lia). cbn [orb].
    change (d :: r ++ rest) with ((d :: r) ++ rest). rewrite <- Hds, Hsp, Hval. f_equal. unfold n. lia.
Qed.

Lemma until_quote_app (s rest : list Z) : 34 ∉ s -> until_quote (s ++ 34 :: rest) = Some (s, rest).
Proof.
  induction s as [|c s IH]; cbn; [done|]. intros Hs. rewrite not_elem_of_cons in Hs. destruct Hs as [Hc Hs].
  rewrite (proj2 (Z.eqb_neq c 34)) by done. by rewrite IH.
Qed.

(** The first byte decides how an expression is read, and it is no space. *)
Lemma print_head (e : cras_expr_expression) :
  printable e -> exists c r, print_expr e = c :: r /\ isspace c = false.
Proof.
  destruct e as [|v|name|es]; cbn; [done| | |by eexists _, _].
  - destruct v as [|[]|z| |]; cbn; try done; try (by eexists _, _). intros Hz.
    destruct (strtol_print_int z [] Hz ltac:(by split)) as (c & r & Hp & Hc & _). rewrite app_nil_r in Hp.
    exists c, r. split; [done|]. unfold isdigit, isspace in *. lia.
  - destruct name as [|c r]; [by intros [? _]|]. intros [_ Hc]. cbn in Hc. apply andb_true_iff in Hc as [Hc _].
    exists c, r. split; [done|]. unfold is_identifier_char in Hc. by destruct (isspace c).
Qed.

Lemma skip_head (c : Z) (r : list Z) : isspace c = false -> skip isspace (c :: r) = c :: r.
Proof. cbn. by intros ->. Qed.

(** The children, each followed by a space. *)
Definition print_children (es : list cras_expr_expression) : list Z :=
  List.concat (List.map (fun e => print_expr e ++ [32]) es).

Lemma print_children_cons (e : cras_expr_expression) (es : list cras_expr_expression) (rest : list Z) :
  print_children (e :: es) ++ rest = print_expr e ++ 32 :: print_children es ++ rest.
Proof. unfold print_children. cbn [List.map List.concat]. by rewrite <- !app_assoc. Qed.

(** The children, each followed by a space, then the parenthesis. *)
Lemma parse_children_print (es : list cras_expr_expression) (rest : list Z) :
  Forall (fun e => forall fuel rest, (2 * length (print_expr e ++ rest) + 1 < fuel)%nat -> delimited rest ->
     parse_one_expr fuel (print_expr e ++ rest) = Some (Some e, rest)) es ->
  Forall printable es -> forall fuel,
  (2 * length (print_children es ++ 41%Z :: rest) + 2 < fuel)%nat ->
  forall pre, pre = [] \/ pre = [32] ->
  parse_children fuel (pre ++ print_children es ++ 41 :: rest)
    = Some (es, 41 :: rest).
Proof.
  intros Hes Hp. induction Hes as [|e es He _ IH]; intros fuel Hf pre Hpre.
  - destruct fuel as [|[|fuel]]; [lia|lia|]. cbn [parse_children]. cbn [parse_one_expr].
    by destruct Hpre as [-> | ->].
  - apply Forall_cons in Hp as [Hpe Hp]. destruct fuel as [|fuel]; [lia|]. cbn [parse_children].
    rewrite print_children_cons in *. set (t := 32 :: print_children es ++ 41 :: rest) in *.
    assert (Ht : parse_one_expr fuel (pre ++ print_expr e ++ t) = Some (Some e, t)).
    { destruct (print_head e Hpe) as (c & r & Hc & Hsp).
      assert (Hone : parse_one_expr fuel (print_expr e ++ t) = Some (Some e, t)) by (apply He; [lia|by split]).
      destruct Hpre as [-> | ->]; [done|]. destruct fuel; [lia|]. cbn [app parse_one_expr] in *.
      change (skip isspace (32 :: print_expr e ++ t)) with (skip isspace (print_expr e ++ t)). done. }
    rewrite Ht. cbn [mbind option_bind]. change t with ([32] ++ (print_children es ++ 41 :: rest)).
    rewrite (IH Hp fuel); [done| |by right]. subst t. rewrite length_app in Hf. cbn [length] in Hf.
    destruct (print_head e Hpe) as (c & r & Hc & _). rewrite Hc in Hf. cbn [length] in Hf. lia.
Qed.

Lemma identifier_char (c : Z) :
  is_identifier_char c = true -> isspace c = false /\ isdigit c = false /\ c <> 35 /\ c <> 34 /\ c <> 40.
Proof.
  unfold is_identifier_char. destruct (isspace c); [done|]. destruct (c =? 0); [done|].
  destruct (isalpha c) eqn:Ha; unfold isalpha, isdigit in *; intros Hc; split_and!; lia.
Qed.

Lemma parse_print (e : cras_expr_expression) :
  printable e -> forall fuel rest, (2 * length (print_expr e ++ rest) + 1 < fuel)%nat -> delimited rest ->
  parse_one_expr fuel (print_expr e ++ rest) = Some (Some e, rest).
Proof.
  induction e as [|v|name|es IH] using expression_ind; [done|..]; intros Hp fuel rest Hf Hd.
  - destruct fuel as [|fuel]; [lia|]. destruct v as [|b|z|body|]; try done.
    + by destruct b.
    + destruct (strtol_print_int z rest Hp Hd) as (c & r & E & Hc & Hs). cbn [print_expr] in *. rewrite E in *.
      assert (Hsp : isspace c = false) by (unfold isdigit, isspace in *; lia). cbn [parse_one_expr].
      rewrite (skip_head c r Hsp). replace (c =? 35) with false by (unfold isdigit in Hc; lia).
      rewrite Hc, Hs. by rewrite s32_small.
    + cbn [print_expr app parse_one_expr]. rewrite skip_head by done.
      change (34 =? 35) with false. change (isdigit 34) with false. change (34 =? 45) with false.
      change (34 =? 34) with true. cbn [andb orb]. rewrite <- app_assoc. cbn [app]. by rewrite until_quote_app.
  - destruct Hp as [Hne Hall]. destruct name as [|c r]; [done|]. destruct fuel as [|fuel]; [lia|].
    assert (Hspan : span is_identifier_char ((c :: r) ++ rest) = (c :: r, rest)).
    { apply span_app; [|left; apply Hd]. apply Forall_forall. intros x Hx.
      by apply (proj1 (forallb_forall _ _) Hall), list_elem_of_In. }
    cbn [forallb] in Hall. apply andb_true_iff in Hall as [Hc Hall].
    cbn [print_expr parse_one_expr]. change ((c :: r) ++ rest) with (c :: (r ++ rest)) in *.
    assert (Hcl : isspace c = false /\ c <> 35 /\ isdigit c = false /\ c <> 34 /\ c <> 40).
    { by destruct (identifier_char c Hc) as (? & ? & ? & ? & ?). }
    destruct Hcl as (Hsp & H35 & Hdig & H34 & H40). rewrite skip_head by done.
    rewrite (proj2 (Z.eqb_neq c 35)), (proj2 (Z.eqb_neq c 34)), (proj2 (Z.eqb_neq c 40)), Hdig by done.
    assert (Hneg : (c =? 45) && isdigit (here (r ++ rest)) = false).
    { apply andb_false_iff. right. destruct r as [|x r]; [apply Hd|]. cbn in Hall |- *.
      apply andb_true_iff in Hall as [Hx _]. by apply identifier_char. }
    rewrite Hneg. cbn [orb]. by rewrite Hc, Hspan.
  - destruct fuel as [|fuel]; [lia|].
    assert (Hall : Forall printable es).
    { clear -Hp. induction es as [|e es IHes]; [constructor|]. destruct Hp as [He Hes]. constructor; auto. }
    assert (Hes : Forall (fun e => forall fuel rest, (2 * length (print_expr e ++ rest) + 1 < fuel)%nat ->
      delimited rest -> parse_one_expr fuel (print_expr e ++ rest) = Some (Some e, rest)) es).
    { apply Forall_forall. intros e He. rewrite Forall_forall in IH, Hall. by apply IH; [|apply Hall]. }
    change (print_expr (ExprCompound es) ++ rest) with (40 :: (print_children es ++ [41]) ++ rest) in *.
    rewrite <- app_assoc in *. cbn [app length] in Hf. cbn [parse_one_expr]. rewrite skip_head by done.
    change (40 =? 35) with false. change (isdigit 40) with false. change (40 =? 45) with false.
    change (40 =? 34) with false. change (40 =? 40) with true. cbn [andb orb].
    pose proof (parse_children_print es rest Hes Hall fuel) as Hch. cbn [app] in *.
    specialize (Hch ltac:(rewrite ?app_nil_l in *; lia) [] (or_introl eq_refl)). cbn [app] in Hch. by rewrite Hch.
Qed.

(** Claim C29: an expression that is written down is read back, whatever its
    nesting, and a parse always ends: it returns on every string. *)
Theorem parse_print_roundtrip (e : cras_expr_expression) (s : list Z) :
  (printable e -> cras_expr_expression_parse (Some (print_expr e)) = Some (Some e)) /\
  exists r, cras_expr_expression_parse (Some s) = Some r.
Proof.
  split.
  - intros Hp. unfold cras_expr_expression_parse, parse_fuel.
    pose proof (parse_print e Hp (2 * length (print_expr e) + 2) []) as H. rewrite app_nil_r in H.
    by rewrite H; [|lia|].
  - destruct (proj1 (parse_total (parse_fuel s)) s) as (r & t & H & _); [unfold parse_fuel; lia|].
    exists r. unfold cras_expr_expression_parse. by rewrite H.
Qed.

(** "(and #t (not (equal? -12 x)))" *)
Definition expr_example : cras_expr_expression :=
  ExprCompound [ExprVariable (c_str "and"); ExprLiteral (ValueBoolean true);
    ExprCompound [ExprVariable (c_str "not");
      ExprCompound [ExprVariable (c_str "equal?"); ExprLiteral (ValueInt (-12)); ExprVariable (c_str "x")]]].

Lemma parse_print_roundtrip_witness :
  cras_expr_expression_parse (Some (print_expr expr_example)) = Some (Some expr_example) /\
  print_expr expr_example = c_str "(and #t (not (equal? -12 x ) ) )" /\
  cras_expr_expression_parse (Some (c_str " (and #t(not (equal? -12 x)))")) = Some (Some expr_example).
Proof.
  split; [|by vm_compute].
  apply (proj1 (parse_print_roundtrip expr_example [])).
  cbn. unfold is_s32. split_and!; try done; lia.
Defined.

(** ** The environment is a map *)

Record env_ok (env : cras_expr_env) : Prop := {
  eo_length : length (env_keys env) = length (env_values env);
  eo_keys : NoDup (env_keys env)
}.

Definition env_map (env : cras_expr_env) : gmap (list Z) cras_expr_value :=
  list_to_map (zip (env_keys env) (env_values env)).

Definition lookup_value (env : cras_expr_env) (name : list Z) : option cras_expr_value :=
  i ← find_value env name; env_values env !! i.

Lemma find_value_Some (env : cras_expr_env) (name : list Z) (i : nat) :
  find_value env name = Some i -> env_keys env !! i = Some name.
Proof.
  unfold find_value. intros ([j k] & Hf & ->)%fmap_Some. by apply list_find_Some in Hf as (H & -> & _).
Qed.

Lemma find_value_None (env : cras_expr_env) (name : list Z) :
  find_value env name = None -> name ∉ env_keys env.
Proof.
  unfold find_value. intros Hn%fmap_None. apply list_find_None in Hn. rewrite Forall_forall in Hn.
  intros Hin. by apply (Hn name).
Qed.

Lemma env_map_lookup (env : cras_expr_env) (name : list Z) :
  env_ok env -> env_map env !! name = lookup_value env name.
Proof.
  intros [Hl Hd]. unfold lookup_value, env_map.
  assert (Hz : (zip (env_keys env) (env_values env)).*1 = env_keys env) by (apply fst_zip; lia).
  destruct (find_value env name) as [i|] eqn:Hf; cbn [mbind option_bind].
  - apply find_value_Some in Hf as Hk. destruct (lookup_lt_is_Some_2 (env_values env) i) as [v Hv].
    { rewrite <- Hl. by eapply lookup_lt_Some. }
    rewrite Hv. apply elem_of_list_to_map_1; [by rewrite Hz|]. apply list_elem_of_lookup. exists i.
    rewrite lookup_zip_with, Hk. cbn. by rewrite Hv.
  - apply not_elem_of_list_to_map_1. rewrite Hz. by apply find_value_None.
Qed.

Lemma find_value_first (env : cras_expr_env) (name : list Z) (i : nat) :
  NoDup (env_keys env) -> env_keys env !! i = Some name -> find_value env name = Some i.
Proof.
  intros Hd Hi. destruct (find_value env name) as [j|] eqn:Hf.
  - apply find_value_Some in Hf. f_equal. by eapply NoDup_lookup.
  - exfalso. by apply (find_value_None _ _ Hf), (list_elem_of_lookup_2 _ i).
Qed.

Lemma set_value_spec (env : cras_expr_env) (name : list Z) (v : cras_expr_value) :
  env_ok env ->
  env_ok (set_value env name v) /\ env_map (set_value env name v) = <[name := v]> (env_map env).
Proof.
  intros Hok. pose proof Hok as [Hl Hd].
  set (i := default (length (env_keys env)) (find_value env name)).
  assert (Hset : exists vs, env_keys (set_value env name v) =
      env_keys env ++ (match find_value env name with Some _ => [] | None => [name] end) /\
    env_values (set_value env name v) = <[i := v]> vs /\ length vs = length (env_keys (set_value env name v)) /\
    forall j, (j < length (env_keys env))%nat -> vs !! j = env_values env !! j).
  { unfold set_value, find_or_insert_value, insert_value, i.
    destruct (find_value env name) as [k|]; cbn; eexists; (split; [by rewrite ?app_nil_r|]);
      rewrite ?Hl; (split; [done|]); rewrite ?length_app; cbn; (split; [lia|]); intros j Hj; [done|].
    by rewrite lookup_app_l by lia. }
  destruct Hset as (vs & Hks & Hvs & Hlen & Hold).
  assert (Hi : env_keys (set_value env name v) !! i = Some name).
  { rewrite Hks. unfold i. destruct (find_value env name) as [k|] eqn:Hf; cbn.
    - rewrite app_nil_r. by apply find_value_Some.
    - by rewrite lookup_app_r, Nat.sub_diag by lia. }
  assert (Hok' : env_ok (set_value env name v)).
  { split; [by rewrite Hvs, length_insert|]. rewrite Hks. destruct (find_value env name) eqn:Hf; [by rewrite app_nil_r|].
    apply NoDup_app. split; [done|]. split; [|apply NoDup_singleton].
    intros x Hx ->%list_elem_of_singleton. by apply find_value_None in Hf. }
  pose proof Hok' as [_ Hd']. split; [done|]. apply map_eq. intros k. rewrite env_map_lookup by done.
  unfold lookup_value. destruct (decide (k = name)) as [->|Hne].
  - rewrite lookup_insert_eq, (find_value_first _ _ i) by done. cbn [mbind option_bind].
    rewrite Hvs, list_lookup_insert_eq; [done|]. rewrite Hlen. by eapply lookup_lt_Some.
  - rewrite lookup_insert_ne, env_map_lookup by done. unfold lookup_value.
    destruct (find_value env k) as [j|] eqn:Hf.
    + apply find_value_Some in Hf as Hk.
      assert (Hk' : env_keys (set_value env name v) !! j = Some k) by (rewrite Hks; by apply lookup_app_l_Some).
      rewrite (find_value_first _ _ j) by done. cbn [mbind option_bind]. rewrite Hvs, list_lookup_insert_ne.
      * apply Hold. by eapply lookup_lt_Some.
      * intros ->. congruence.
    + destruct (find_value (set_value env name v) k) as [j|] eqn:Hf'; [|done]. exfalso.
      apply find_value_Some, list_elem_of_lookup_2 in Hf'. rewrite Hks in Hf'. apply elem_of_app in Hf' as [Hin|Hin].
      * by apply find_value_None in Hf.
      * destruct (find_value env name); set_solver.
Qed.

(** ** Conditions *)

(** The boolean formulas a "disable" attribute writes. *)
#[local] Unset Elimination Schemes.
Inductive formula : Type :=
  | FConst (b : bool)
  | FVar (name : list Z)
  | FNot (f : formula)
  | FAnd (fs : list formula)
  | FOr (fs : list formula)
  | FEqual (f g : formula).
#[local] Set Elimination Schemes.

Section FormulaInduction.
Context (Q : formula -> Prop).
Hypothesis const : forall b, Q (FConst b).
Hypothesis var : forall name, Q (FVar name).
Hypothesis not : forall f, Q f -> Q (FNot f).
Hypothesis and : forall fs, Forall Q fs -> Q (FAnd fs).
Hypothesis or : forall fs, Forall Q fs -> Q (FOr fs).
Hypothesis equal : forall f g, Q f -> Q g -> Q (FEqual f g).

Fixpoint formula_induction (f : formula) : Q f :=
  let go := fix go fs : Forall Q fs :=
    match fs with [] => @List.Forall_nil _ Q | f :: fs => @List.Forall_cons _ Q f fs (formula_induction f) (go fs) end in
  match f with
  | FConst b => const b | FVar name => var name | FNot f => not f (formula_induction f)
  | FAnd fs => and fs (go fs) | FOr fs => or fs (go fs)
  | FEqual f g => equal f g (formula_induction f) (formula_induction g)
  end.
End FormulaInduction.

Fixpoint expr_of (f : formula) : cras_expr_expression :=
  match f with
  | FConst b => ExprLiteral (ValueBoolean b)
  | FVar name => ExprVariable name
  | FNot f => ExprCompound [ExprVariable (c_str "not"); expr_of f]
  | FAnd fs => ExprCompound (ExprVariable (c_str "and") :: List.map expr_of fs)
  | FOr fs => ExprCompound (ExprVariable (c_str "or") :: List.map expr_of fs)
  | FEqual f g => ExprCompound [ExprVariable (c_str "equal?"); expr_of f; expr_of g]
  end.

Fixpoint holds (rho : list Z -> bool) (f : formula) : bool :=
  match f with
  | FConst b => b
  | FVar name => rho name
  | FNot f => negb (holds rho f)
  | FAnd fs => forallb (holds rho) fs
  | FOr fs => existsb (holds rho) fs
  | FEqual f g => eqb (holds rho f) (holds rho g)
  end.

Fixpoint variables (f : formula) : list (list Z) :=
  match f with
  | FConst _ => []
  | FVar name => [name]
  | FNot f => variables f
  | FAnd fs | FOr fs => List.concat (List.map variables fs)
  | FEqual f g => variables f ++ variables g
  end.

(** The built-ins under their names, and a boolean for each variable. *)
Record boolean_env (env : cras_expr_env) (rho : list Z -> bool) (names : list (list Z)) : Prop := {
  be_not : lookup_value env (c_str "not") = Some (ValueFunction FunctionNot);
  be_and : lookup_value env (c_str "and") = Some (ValueFunction FunctionAnd);
  be_or : lookup_value env (c_str "or") = Some (ValueFunction FunctionOr);
  be_equal : lookup_value env (c_str "equal?") = Some (ValueFunction FunctionEqual);
  be_names : forall n, n ∈ names -> lookup_value env n = Some (ValueBoolean (rho n))
}.

Lemma eval_variable (env : cras_expr_env) (name : list Z) (v : cras_expr_value) :
  lookup_value env name = Some v -> cras_expr_expression_eval (ExprVariable name) env = v.
Proof. unfold lookup_value. cbn. destruct (find_value env name); cbn; [by intros ->|done]. Qed.

Lemma and_values (bs : list bool) (g : cras_expr_value) :
  function_and (g :: (ValueBoolean <$> bs)) = ValueBoolean (forallb id bs).
Proof.
  unfold function_and. destruct bs as [|b bs]; [done|]. cbn [fmap list_fmap length tail].
  destruct (Z.leb_spec (Z.of_nat (S (S (length (ValueBoolean <$> bs))))) 1); [lia|]. clear.
  change (ValueBoolean b :: (ValueBoolean <$> bs)) with (ValueBoolean <$> (b :: bs)).
  assert (He : existsb is_false (ValueBoolean <$> (b :: bs)) = negb (forallb id (b :: bs))).
  { generalize (b :: bs). intros l. induction l as [|[] l IH]; [done|exact IH|done]. }
  rewrite He. destruct (forallb id (b :: bs)) eqn:Hall; [|done]. cbn [negb].
  change (g :: (ValueBoolean <$> b :: bs)) with ([g] ++ (ValueBoolean <$> b :: bs)).
  destruct (exists_last (l := b :: bs)) as (l & x & E); [done|]. rewrite E in *.
  rewrite fmap_app, app_assoc. cbn [fmap list_fmap]. rewrite last_snoc. cbn.
  rewrite forallb_app in Hall. apply andb_true_iff in Hall as [_ Hx]. cbn in Hx. by destruct x.
Qed.

Lemma or_values (bs : list bool) (g : cras_expr_value) :
  function_or (g :: (ValueBoolean <$> bs)) = ValueBoolean (existsb id bs).
Proof. unfold function_or. cbn [tail]. induction bs as [|[] bs IH]; [done|done|exact IH]. Qed.

Lemma boolean_env_mono (env : cras_expr_env) (rho : list Z -> bool) (ns ms : list (list Z)) :
  boolean_env env rho ns -> ms ⊆ ns -> boolean_env env rho ms.
Proof. intros [] Hs. split; auto. Qed.

Lemma eval_operands (env : cras_expr_env) (rho : list Z -> bool) (fs : list formula) :
  Forall (fun f => boolean_env env rho (variables f) ->
    cras_expr_expression_eval (expr_of f) env = ValueBoolean (holds rho f)) fs ->
  boolean_env env rho (List.concat (List.map variables fs)) ->
  List.map (fun sub => cras_expr_expression_eval sub env) (List.map expr_of fs) =
  ValueBoolean <$> (holds rho <$> fs).
Proof.
  induction 1 as [|f fs Hf _ IH]; cbn; intros Henv; [done|].
  f_equal; [apply Hf|apply IH]; (eapply boolean_env_mono; [exact Henv|set_solver]).
Qed.

Lemma eval_formula (env : cras_expr_env) (rho : list Z -> bool) (f : formula) :
  boolean_env env rho (variables f) ->
  cras_expr_expression_eval (expr_of f) env = ValueBoolean (holds rho f).
Proof.
  induction f as [b|n|f IH|fs IH|fs IH|f g IHf IHg] using formula_induction; intros Henv; [done|..];
    pose proof Henv as []; cbn [expr_of].
  - apply eval_variable, be_names0. cbn. set_solver.
  - change (call_values (map (fun sub => cras_expr_expression_eval sub env)
      [ExprVariable (c_str "not"); expr_of f]) = ValueBoolean (holds rho (FNot f))).
    cbn [List.map]. rewrite (eval_variable _ _ _ be_not0), IH by done. cbn. by destruct (holds rho f).
  - change (call_values (cras_expr_expression_eval (ExprVariable (c_str "and")) env ::
      List.map (fun sub => cras_expr_expression_eval sub env) (List.map expr_of fs)) =
      ValueBoolean (forallb (holds rho) fs)).
    rewrite (eval_variable _ _ _ be_and0), (eval_operands env rho) by done. cbn [call_values call_function].
    rewrite and_values. f_equal. clear. induction fs as [|f fs IH]; [done|]. cbn. by rewrite <- IH.
  - change (call_values (cras_expr_expression_eval (ExprVariable (c_str "or")) env ::
      List.map (fun sub => cras_expr_expression_eval sub env) (List.map expr_of fs)) =
      ValueBoolean (existsb (holds rho) fs)).
    rewrite (eval_variable _ _ _ be_or0), (eval_operands env rho) by done. cbn [call_values call_function].
    rewrite or_values. f_equal. clear. induction fs as [|f fs IH]; [done|]. cbn. by rewrite <- IH.
  - change (call_values (map (fun sub => cras_expr_expression_eval sub env)
      [ExprVariable (c_str "equal?"); expr_of f; expr_of g]) = ValueBoolean (holds rho (FEqual f g))).
    cbn [List.map]. rewrite (eval_variable _ _ _ be_equal0), IHf, IHg;
      [|eapply boolean_env_mono; [exact Henv|cbn; set_solver]..].
    cbn. by destruct (holds rho f), (holds rho g).
Qed.

(** Claim C28: a boolean formula written in the prefix syntax and evaluated in an
    environment that has the built-ins and the formula's variables gives the
    formula's truth value, and [cras_expr_expression_eval_boolean] stores it. *)
Theorem conditions_evaluate (env : cras_expr_env) (rho : list Z -> bool) (f : formula)
    (Henv : boolean_env env rho (variables f)) :
  cras_expr_expression_eval_boolean (expr_of f) env = (0, Some (holds rho f)).
Proof. unfold cras_expr_expression_eval_boolean. by rewrite (eval_formula env rho). Qed.

(** [(and (not dsp_off) (or #f (equal? jack #t)))] *)
Definition condition_example : formula :=
  FAnd [FNot (FVar (c_str "dsp_off")); FOr [FConst false; FEqual (FVar (c_str "jack")) (FConst true)]].
Definition rho_example (n : list Z) : bool := bool_decide (n = c_str "jack").
Definition env_example : cras_expr_env :=
  cras_expr_env_set_variable_boolean
    (cras_expr_env_set_variable_boolean (cras_expr_env_install_builtins CRAS_EXPR_ENV_INIT) (c_str "jack") 1)
    (c_str "dsp_off") 0.

Lemma conditions_evaluate_witness :
  boolean_env env_example rho_example (variables condition_example) /\
  cras_expr_expression_eval_boolean (expr_of condition_example) env_example = (0, Some true).
Proof.
  assert (H : boolean_env env_example rho_example (variables condition_example)).
  { split; [reflexivity..|]. intros n Hn. cbn in Hn.
    repeat (apply elem_of_cons in Hn as [->|Hn]; [reflexivity|]). by apply not_elem_of_nil in Hn. }
  split; [exact H|]. exact (conditions_evaluate env_example rho_example condition_example H).
Defined.

(** Claim C30: setting a variable is a map insertion: in an environment whose
    arrays agree in length and hold each name once, [set_value] keeps both, gives
    the name its new value and every other name the value it had. *)
Theorem env_refines_map (env : cras_expr_env) (name : list Z) (v : cras_expr_value)
    (Hok : env_ok env) :
  env_ok (env_set_variable env name v) /\
  env_map (env_set_variable env name v) = <[name := v]> (env_map env) /\
  forall k, lookup_value (env_set_variable env name v) k =
    (if decide (k = name) then Some v else lookup_value env k).
Proof.
  destruct (set_value_spec env name v Hok) as [Hok' Hm]. unfold env_set_variable. split; [done|]. split; [done|].
  intros k. rewrite <- (env_map_lookup _ k Hok'), Hm, <- (env_map_lookup _ k Hok).
  destruct (decide (k = name)) as [->|]; [by rewrite lookup_insert_eq|by rewrite lookup_insert_ne].
Qed.

Lemma env_refines_map_witness :
  env_ok CRAS_EXPR_ENV_INIT /\
  lookup_value (env_set_variable CRAS_EXPR_ENV_INIT (c_str "jack") (ValueInt 3)) (c_str "jack") =
    Some (ValueInt 3).
Proof.
  assert (H : env_ok CRAS_EXPR_ENV_INIT) by (split; [reflexivity|constructor]).
  split; [exact H|]. exact (proj2 (proj2 (env_refines_map _ (c_str "jack") (ValueInt 3) H)) (c_str "jack")).
Defined.
