(* ===== verification/IodevOpen.v ===== *)
(** * Opening, closing and reading devices (server/cras_iodev.c)

    Setting the format, the DSP context of a device, opening and closing it,
    and the buffers of an input device.  The allocations of a format and of
    the input data, the clock and what [cras_apm_list.c] gives are arguments. *)
From Stdlib Require String.
From coqutil Require Import Datatypes.RecordSetters.
From S2P Require Import Expr Prelude Prog Arrays Float32 Types DList Timespec BufferShare AudioFormat Mix AudioArea.
From S2P Require Import FmtConv Ramp Volume Rstream DevStream InputData Iodev IodevOutput.
Import TriangleBracketNotations.
Import String.StringSyntax.
#[local] Open Scope Z_scope.
#[local] Open Scope prog_scope.
#[local] Arguments c_str s%_string_scope.

Section Open.
Context {P : pcm_library} {L : speex_library} {RE : rate_library} {D : dsp_service} {AP : apm_service} {LM : libm}.
Context {hw : Type} {H : iodev_hw (hw := hw)}.
Context (fuel : nat).
#[local] Abbreviation iodev_prog := (iodev_prog (hw := hw)).

(** ** The DSP of a device *)

(** A change of the DSP contexts' world. *)
Definition on_dsp (f : dsp_world -> option dsp_world) : iodev_prog unit :=
  let* v := get_srv in
  let* w := here (f (sv_dsp v)) in
  set_srv (fun v => v <| sv_dsp := w |>).

Definition cras_iodev_free_dsp : iodev_prog unit :=
  let* d := get_dev in
  match io_dsp_context d with
  | Some ctx => on_dsp (cras_dsp_context_free ctx) ;; set_dev (fun d => d <| io_dsp_context := None |>)
  | None => ret tt
  end.

Definition cras_iodev_alloc_dsp : iodev_prog unit :=
  let* d := get_dev in
  let purpose := c_str (if io_direction d =? CRAS_STREAM_OUTPUT then "playback" else "capture") in
  cras_iodev_free_dsp ;;
  let* fmt := here (io_format d) in
  let* v := get_srv in
  let '(ctx, w) := cras_dsp_context_new (frame_rate fmt) purpose (sv_dsp v) in
  set_srv (fun v => v <| sv_dsp := w |>) ;;
  set_dev (fun d => d <| io_dsp_context := Some ctx |>).

Definition cras_iodev_update_dsp : iodev_prog unit :=
  let* d := get_dev in
  match io_dsp_context d with
  | None => ret tt
  | Some ctx =>
      let* n := here (find_active_node d) in
      let swap_lr_disabled := match n with
                              | Some n => if negb (nd_left_right_swapped n =? 0) then 0 else 1
                              | None => 1
                              end in
      on_dsp (fun w => Some (cras_dsp_set_variable_string ctx (c_str "dsp_name") (default [] (io_dsp_name d)) w)) ;;
      on_dsp (fun w => Some (cras_dsp_set_variable_boolean ctx (c_str "swap_lr_disabled") swap_lr_disabled w)) ;;
      on_dsp (cras_dsp_load_pipeline ctx)
  end.

Definition cras_iodev_dsp_set_swap_mode_for_node (p enable : Z) : iodev_prog Z :=
  let* d := get_dev in
  let* node := here (dl_find (io_nodes d) p) in
  if nd_left_right_swapped node =? enable then ret 0 else
  update_node p (fun n => n <| nd_left_right_swapped := enable |>) ;;
  (if bool_decide (io_active_node d = Some p) then cras_iodev_update_dsp else ret tt) ;;
  ret 0.

(** The DSP may present another number of channels to the device. *)
Definition adjust_dev_channel_for_dsp : iodev_prog unit :=
  let* d := get_dev in
  match io_dsp_context d with
  | None => ret tt
  | Some ctx =>
      let* v := get_srv in
      let* p := here (cras_dsp_has_pipeline ctx (sv_dsp v)) in
      if negb p then ret tt else
      let* n := here (if io_direction d =? CRAS_STREAM_OUTPUT
                      then cras_dsp_num_output_channels ctx (sv_dsp v)
                      else cras_dsp_num_input_channels ctx (sv_dsp v)) in
      update_format (set_format_channels n)
  end.

Definition update_channel_layout : iodev_prog unit :=
  let* d := get_dev in
  match update_channel_layout_op d with
  | None => ret tt
  | Some op =>
      let* rc := op in
      if rc <? 0 then update_format cras_audio_format_set_default_channel_layout else ret tt
  end.

(** ** The format *)

Definition cras_iodev_set_format (malloc_ok : bool) (fmt : cras_audio_format) : iodev_prog Z :=
  let* d := get_dev in
  match io_format d with
  | Some _ => ret 0
  | None =>
      if negb malloc_ok then ret (- ENOMEM) else
      let fail (rc : Z) : iodev_prog Z := cras_iodev_free_format ;; ret rc in
      set_dev (fun d => d <| io_format := Some fmt |>) ;;
      let* rc := match update_supported_formats d with Some op => op | None => ret 0 end in
      if negb (rc =? 0) then fail rc else
      let* d := get_dev in
      let* actual_rate := here (get_best_rate d (frame_rate fmt)) in
      update_format (set_format_rate actual_rate) ;;
      cras_iodev_alloc_dsp ;;
      cras_iodev_update_dsp ;;
      adjust_dev_channel_for_dsp ;;
      let* d := get_dev in
      let* cur := here (io_format d) in
      let* actual_num_channels := here (get_best_channel_count d (num_channels cur)) in
      let* actual_format := here (get_best_pcm_format d (format fmt)) in
      if (actual_rate =? 0) || (actual_num_channels =? 0) || (actual_format =? 0) then fail (- EINVAL) else
      update_format (set_format_format actual_format) ;;
      (if negb (num_channels cur =? actual_num_channels) then
         update_format (fun f => trim_channel_layout (set_format_channels actual_num_channels f)) ;;
         cras_iodev_free_dsp
       else ret tt) ;;
      update_channel_layout ;;
      set_dev (fun d => d <| io_rate_est := match io_rate_est d with
                                            | None => rate_estimator_create actual_rate
                                            | Some _ => rate_estimator_reset_rate (io_rate_est d) actual_rate
                                            end |>) ;;
      ret 0
  end.

(** ** External DSP modules *)

(** Whether there is a pipeline behind the device's context. *)
Definition has_pipeline : iodev_prog bool :=
  let* d := get_dev in
  match io_dsp_context d with
  | None => ret false
  | Some ctx => let* v := get_srv in here (cras_dsp_has_pipeline ctx (sv_dsp v))
  end.

Definition configure_ext (m : ext_module) : iodev_prog unit :=
  let* d := get_dev in
  let* fmt := here (io_format d) in
  match m with
  | ExtInputData =>
      let* data := here (io_input_data d) in
      set_dev (fun d => d <| io_input_data :=
        Some (input_data_configure data (u32 (io_buffer_size d)) (u32 (num_channels fmt))) |>)
  | ExtOther id =>
      on_dsp (fun w => Some (ext_dsp_module_configure id (u32 (io_buffer_size d)) (u32 (num_channels fmt))
                               (u32 (frame_rate fmt)) w))
  end.

(** The sink of the device's pipeline is set; a context without a pipeline has
    none to set. *)
Definition set_sink (m : option ext_module) : iodev_prog unit :=
  let* d := get_dev in
  let* ctx := here (io_dsp_context d) in
  on_dsp (cras_dsp_pipeline_set_sink_ext_module ctx m).

Definition add_ext_dsp_module_to_pipeline : iodev_prog unit :=
  let* p := has_pipeline in
  (if p then ret tt
   else
     cras_iodev_alloc_dsp ;;
     let* d := get_dev in
     let* ctx := here (io_dsp_context d) in
     let* fmt := here (io_format d) in
     on_dsp (cras_dsp_load_dummy_pipeline ctx (num_channels fmt))) ;;
  let* d := get_dev in
  (match io_ext_dsp_module d with Some m => configure_ext m | None => ret tt end) ;;
  set_sink (io_ext_dsp_module d).

Definition release_ext_dsp_module_from_pipeline : iodev_prog unit :=
  let* p := has_pipeline in
  if p then set_sink None else ret tt.

Definition cras_iodev_set_ext_dsp_module (ext : option ext_module) : iodev_prog unit :=
  set_dev (fun d => d <| io_ext_dsp_module := ext |>) ;;
  let* d := get_dev in
  if negb (cras_iodev_is_open d) then ret tt else
  match ext with
  | Some _ => add_ext_dsp_module_to_pipeline
  | None => release_ext_dsp_module_from_pipeline
  end.

(** ** The audio area *)

Definition cras_iodev_free_audio_area : iodev_prog unit := set_dev (fun d => d <| io_area := None |>).

Definition cras_iodev_init_audio_area (n : Z) : iodev_prog unit :=
  let* d := get_dev in
  let* fmt := here (io_format d) in
  let* area := here (cras_audio_area_config_channels (cras_audio_area_create n) fmt) in
  set_dev (fun d => d <| io_area := Some area |>).

(** The estimator and the ramp are freed: their pointers stay. *)
Definition cras_iodev_free_resources : iodev_prog unit := cras_iodev_free_dsp.

(** ** Opening and closing *)

Definition control_loopbacks (on : bool) : iodev_prog unit :=
  let* d := get_dev in
  each (fun l => if lb_hook_control l then emit (LoopbackControl (lb_cb_data l) on) else ret tt) (io_loopbacks d).

(** What the open of an output and of an input device end with. *)
Definition open_output : iodev_prog unit :=
  let* d := get_dev in
  match start d with
  | Some _ => set_dev (fun d => d <| io_state := CRAS_IODEV_STATE_OPEN |>)
  | None =>
      set_dev (fun d => d <| io_state := CRAS_IODEV_STATE_NO_STREAM_RUN |>) ;;
      cras_iodev_fill_odev_zeros fuel (io_min_cb_level d) ;;
      ret tt
  end.

Definition open_input : iodev_prog unit :=
  set_dev (fun d => d <| io_input_data := Some (input_data_create (io_idx d)) |>
                      <| io_ext_dsp_module ::= fun m => Some (default ExtInputData m) |>
                      <| io_state := CRAS_IODEV_STATE_NORMAL_RUN |>
                      <| io_input_streaming := false |>) ;;
  let* d := get_dev in
  let* scaler := here (cras_iodev_get_software_gain_scaler d) in
  set_dev (fun d => d <| io_software_gain_scaler := scaler |>).

Definition cras_iodev_open (malloc_ok : bool) (now : timespec) (cb_level : Z) (fmt : cras_audio_format) : iodev_prog Z :=
  let* d := get_dev in
  (if io_pre_open_hook d then emit PreOpenHook else ret tt) ;;
  control_loopbacks true ;;
  let* rc := match open_dev d with Some op => op | None => ret 0 end in
  if negb (rc =? 0) then ret rc else
  let* d := get_dev in
  let* rc := match io_format d with None => cras_iodev_set_format malloc_ok fmt | Some _ => ret 0 end in
  if negb (rc =? 0) then close_dev ;; ret rc else
  let* rc := configure_dev in
  if rc <? 0 then close_dev ;; ret rc else
  let* d := get_dev in
  let* cur := here (io_format d) in
  let* cb_level := here (cras_frames_at_rate (frame_rate fmt) cb_level (frame_rate cur)) in
  set_dev (fun d => d <| io_min_cb_level := u32 (cmin (io_buffer_size d / 2) cb_level) |>
                      <| io_max_cb_level := 0 |> <| io_largest_cb_level := 0 |> <| io_num_underruns := 0 |>
                      <| io_reset_request_pending := false |> <| io_state := CRAS_IODEV_STATE_OPEN |>
                      <| io_highest_hw_level := 0 |> <| io_input_dsp_offset := 0 |>) ;;
  (if io_direction d =? CRAS_STREAM_OUTPUT then open_output else open_input) ;;
  add_ext_dsp_module_to_pipeline ;;
  set_dev (fun d => d <| io_open_ts := now |>) ;;
  ret 0.

Definition cras_iodev_close : iodev_prog Z :=
  let* d := get_dev in
  if negb (cras_iodev_is_open d) then ret 0 else
  emit (DeviceRuntime (io_idx d)) ;;
  (match io_input_data d with
   | Some _ =>
       set_dev (fun d => d
         <| io_ext_dsp_module ::= fun m => if bool_decide (m = Some ExtInputData) then None else m |>
         <| io_input_data := None |>)
   | None => ret tt
   end) ;;
  let* rc := close_dev in
  if negb (rc =? 0) then ret rc else
  set_dev (fun d => d <| io_state := CRAS_IODEV_STATE_CLOSE |>
                      <| io_ramp ::= fun r => (fun r => snd (cras_ramp_reset r)) <$> r |>) ;;
  let* d := get_dev in
  (if io_post_close_hook d then emit PostCloseHook else ret tt) ;;
  control_loopbacks false ;;
  ret 0.

(** ** Input buffers *)

Definition update_input_data (f : input_data -> option input_data) : iodev_prog unit :=
  let* d := get_dev in
  let* data := here (io_input_data d) in
  let* data := here (f data) in
  set_dev (fun d => d <| io_input_data := Some data |>).

Definition set_id_area (a : option cras_audio_area) (d : input_data) : input_data :=
  InputData (id_dev_ptr d) (match a with Some _ => a | None => id_area d end) (id_fbuffer d).

Definition cras_iodev_put_input_buffer : iodev_prog Z :=
  let* d := get_dev in
  let* data := here (io_input_data d) in
  let* min_frames :=
    match io_streams d with
    | _ :: _ =>
        let* b := here (io_buf_state d) in
        let '(n, b) := buffer_share_get_new_write_point b in
        set_dev (fun d => d <| io_buf_state := Some b |>) ;; ret n
    | [] => let* area := here (id_area data) in ret (frames area)
    end in
  set_dev (fun d => d <| io_input_dsp_offset :=
    u32 (cmax (io_input_frames_read d) (io_input_dsp_offset d) - min_frames) |>) ;;
  update_input_data (fun data => input_data_set_all_streams_read data min_frames) ;;
  add_rate_frames (u32 (- min_frames)) ;;
  let* rc := put_buffer min_frames in
  if rc <? 0 then ret rc else ret (s32 min_frames).

(** The result and the frames that were got. *)
Definition cras_iodev_get_input_buffer (nframes : Z) : iodev_prog (Z * Z) :=
  let* d := get_dev in
  let* fmt := here (io_format d) in
  let frame_bytes := u32 (cras_get_format_bytes fmt) in
  let* _ := here (io_input_data d) in
  let* (rc, area, n) := get_buffer nframes in
  update_input_data (fun data => Some (set_id_area area data)) ;;
  if (rc <? 0) || (n =? 0) then ret (rc, n)
  else if n >? nframes then ret (- EINVAL, n) else
  set_dev (fun d => d <| io_input_frames_read := n |>) ;;
  let* d := get_dev in
  let* data := here (io_input_data d) in
  let* area := here (id_area data) in
  let* ch := here (head (channels area)) in
  let hw_buffer := buf ch in
  let* rc' := if n >? io_input_dsp_offset d
              then apply_dsp (hw_buffer + u32 (io_input_dsp_offset d * frame_bytes)) (u32 (n - io_input_dsp_offset d))
              else ret 0 in
  if negb (rc' =? 0) then ret (rc', n) else
  let rc := if n >? io_input_dsp_offset d then rc' else rc in
  let* v := get_srv in
  (if sv_capture_mute v then on_mem (fun m => snd <$> mix_mute_buffer m hw_buffer frame_bytes n) else ret tt) ;;
  ret (rc, n).

(** ** Dropping input *)

(** At most two passes: the second is for a ring that wraps.  The result of a
    pass is an error, or the frames it got and those dropped so far. *)
Fixpoint drop_frames_loop (passes : nat) (target nframes dropped : Z) : iodev_prog (Z + Z * Z) :=
  match passes with
  | O => ret (inr (nframes, dropped))
  | S passes =>
      if negb (dropped <? target) then ret (inr (nframes, dropped)) else
      let* (rc, area, n) := get_buffer (u32 (target - dropped)) in
      update_input_data (fun data => Some (set_id_area area data)) ;;
      if rc <? 0 then ret (inl rc) else
      let* rc := put_buffer n in
      if rc <? 0 then ret (inl rc) else
      add_rate_frames (u32 (- n)) ;;
      drop_frames_loop passes target n (u32 (dropped + n))
  end.

(** What is returned is the frames of the last pass. *)
Definition cras_iodev_drop_frames (nframes : Z) : iodev_prog Z :=
  let* d := get_dev in
  if negb (io_direction d =? CRAS_STREAM_INPUT) then ret (- EINVAL) else
  let* (rc, _) := cras_iodev_frames_queued in
  if rc <? 0 then ret rc else
  let* r := drop_frames_loop 2 (cmin nframes rc) nframes 0 in
  ret match r with
      | inl rc => rc
      | inr (n, dropped) => s32 n
      end.

(** The rate is a [double], converted to [size_t]. *)
Definition cras_iodev_drop_frames_by_time (ts : timespec) : iodev_prog Z :=
  let* d := get_dev in
  let* fmt := here (io_format d) in
  let* ratio := here (cras_iodev_get_est_rate_ratio d) in
  let* rate := here (f32_trunc (f64_mul (f64_of_Z (frame_rate fmt)) ratio)) in
  let* rate := here (if (0 <=? rate) && (rate <? 18446744073709551616) then Some rate else None) in
  cras_iodev_drop_frames (u32 (cras_time_to_frames ts rate)).
End Open.
