(* ===== verification/IodevStates.v ===== *)
(** * The states of an output device

    The diagram in server/cras_iodev.c: a device opens, starts when samples are
    ready, plays silence while it has no stream, and closes.  A driver is
    trusted with its own part of the device: the class [driver_keeps] says
    what its functions leave alone, and every program of the device inherits
    it. *)
From coqutil Require Import Datatypes.RecordSetters.
From S2P Require Import Expr Prelude Prog Arrays Float32 Types DList Timespec BufferShare AudioFormat Mix AudioArea.
From S2P Require Import FmtConv Ramp Volume Rstream DevStream InputData Iodev IodevOutput IodevOpen.
Import TriangleBracketNotations.
#[local] Open Scope Z_scope.
#[local] Open Scope prog_scope.

(** ** What a program leaves alone *)
Section Keeps.
Context {St T : Type} (R : St -> T).

Definition keeps {A} (m : prog St A) : Prop := forall s, yields m s (fun _ s' => R s' = R s).

Lemma keeps_ret {A} (a : A) : keeps (ret a).
Proof. done. Qed.

Lemma keeps_here {A} (o : option A) : keeps (here o).
Proof. intros s. by apply yields_here. Qed.

Lemma keeps_gets {A} (f : St -> A) : keeps (gets f).
Proof. done. Qed.

Lemma keeps_modify (f : St -> St) : (forall s, R (f s) = R s) -> keeps (modify f).
Proof. intros Hf s. apply Hf. Qed.

Lemma keeps_bind {A B} (m : prog St A) (f : A -> prog St B) :
  keeps m -> (forall a, keeps (f a)) -> keeps (bind m f).
Proof.
  intros Hm Hf s. eapply yields_step; [apply Hm|]. intros a s' Hs.
  eapply yields_mono; [apply Hf|]. intros b s2 H2. simpl in *. congruence.
Qed.

Lemma keeps_fold {A B} (body : A -> B -> prog St B) (l : list A) (b : B) :
  (forall x b, keeps (body x b)) -> keeps (fold_prog body l b).
Proof.
  intros Hb s. apply (yields_fold (fun _ s' => R s' = R s)); [done|].
  intros x b1 s1 _ Hs. eapply yields_mono; [apply Hb|]. intros b2 s2 H2. simpl in *. congruence.
Qed.
End Keeps.

Lemma yields_keeps {St T A B} (R : St -> T) (m : prog St A) (f : A -> prog St B) s (Q : B -> St -> Prop) :
  keeps R m -> (forall a s', R s' = R s -> yields (f a) s' Q) -> yields (bind m f) s Q.
Proof. intros Hm Hf. eapply yields_step; [apply Hm|]. intros a s' Hs. by apply Hf. Qed.

Create HintDb keeps discriminated.
#[export] Hint Resolve keeps_ret keeps_here keeps_gets : keeps.

(** Goes through a program's steps. *)
Ltac keep :=
  repeat first
    [ progress intros
    | solve [auto with keeps nocore]
    | apply keeps_bind
    | apply keeps_fold
    | apply keeps_modify
    | match goal with
      | |- keeps _ (match ?x with _ => _ end) => destruct x eqn:?
      | |- keeps _ (if ?x then _ else _) => destruct x
      | |- keeps _ (let '_ := ?x in _) => destruct x
      end ].

(** What the driver's functions leave alone: those that may run while the
    device plays, and those that open and close it. *)
Class hw_keeps {P : pcm_library} {L : speex_library} {RE : rate_library} {D : dsp_service} {AP : apm_service}
    {hw T : Type} {H : iodev_hw (hw := hw)} {X : iodev_xrun (hw := hw)} (R : iodev_state hw -> T) : Prop := {
  dk_frames_queued : keeps R frames_queued;
  dk_delay_frames : keeps R delay_frames;
  dk_get_buffer n : keeps R (get_buffer n);
  dk_put_buffer n : keeps R (put_buffer n);
  dk_start d op : start d = Some op -> keeps R op;
  dk_is_free_running d op : is_free_running d = Some op -> keeps R op;
  dk_output_underrun d op : output_underrun d = Some op -> keeps R op;
  dk_open_dev d op : open_dev d = Some op -> keeps R op;
  dk_configure_dev : keeps R configure_dev;
  dk_close_dev : keeps R close_dev;
  dk_flush_buffer : keeps R flush_buffer;
  dk_get_valid_frames d op : get_valid_frames d = Some op -> keeps R op;
  dk_update_supported_formats d op : update_supported_formats d = Some op -> keeps R op;
  dk_update_channel_layout d op : update_channel_layout_op d = Some op -> keeps R op;
  dk_get_num_severe d op : get_num_severe_underruns d = Some op -> keeps R op
}.

Class driver_keeps {P : pcm_library} {L : speex_library} {RE : rate_library} {D : dsp_service} {AP : apm_service}
    {hw T : Type} {H : iodev_hw (hw := hw)} {X : iodev_xrun (hw := hw)} {V : iodev_driver (hw := hw)}
    (R : iodev_state hw -> T) : Prop := {
  dk_hw :: hw_keeps R;
  dk_no_stream b : keeps R (no_stream b);
  dk_frames_to_play d op : frames_to_play_in_sleep d = Some op -> keeps R op
}.

(** What the server's streams know of their devices. *)
Definition tables {P : pcm_library} {D : dsp_service} {AP : apm_service} (v : server)
  : gmap Z (buffer_share * Z * master_dev_info) :=
  (fun x => (rs_buf_state x, rs_num_attached_devs x, rs_master_dev x)) <$> sv_rstreams v.

Lemma update_frames_table {P : pcm_library} {L : speex_library} (x x' : cras_rstream) :
  dev_stream_update_frames x = Some x' -> rs_buf_state x' = rs_buf_state x /\
  rs_num_attached_devs x' = rs_num_attached_devs x /\ rs_master_dev x' = rs_master_dev x.
Proof.
  unfold dev_stream_update_frames, cras_rstream_update_queued_frames.
  intros (n & _ & [= <-])%bind_Some. done.
Qed.

(** What decides the device's state. *)
Section Diagram.
Context {P : pcm_library} {L : speex_library} {RE : rate_library} {D : dsp_service} {AP : apm_service} {LM : libm}.
Context {hw : Type} {H : iodev_hw (hw := hw)} {X : iodev_xrun (hw := hw)} {V : iodev_driver (hw := hw)}.
Context (fuel : nat).

Section Keep.
Context {T : Type} (R : iodev_state hw -> T) {HK : hw_keeps R}.

(** Programs that change neither the state, nor the direction, the streams and
    the index, nor the streams' tables of devices: [R] reads nothing else. *)
Hypothesis R_reads : forall s s',
  io_state (dev s') = io_state (dev s) -> io_direction (dev s') = io_direction (dev s) ->
  io_streams (dev s') = io_streams (dev s) -> io_idx (dev s') = io_idx (dev s) -> io_is_enabled (dev s') = io_is_enabled (dev s) ->
  tables (srv s') = tables (srv s) -> R s' = R s.

Lemma keeps_set_dev (f : cras_iodev hw -> cras_iodev hw) :
  (forall d, io_state (f d) = io_state d) -> (forall d, io_direction (f d) = io_direction d) ->
  (forall d, io_streams (f d) = io_streams d) -> (forall d, io_idx (f d) = io_idx d) ->
  (forall d, io_is_enabled (f d) = io_is_enabled d) -> keeps R (set_dev f).
Proof. intros H1 H2 H3 H4 H5. apply keeps_modify. intros s. apply R_reads; simpl; auto. Qed.

Lemma keeps_set_srv (f : server -> server) :
  (forall v, sv_rstreams (f v) = sv_rstreams v) -> keeps R (set_srv f).
Proof. intros Hf. apply keeps_modify. intros s. apply R_reads; try done. unfold tables. simpl. by rewrite Hf. Qed.

(** A stream that is there changes, but not its table. *)
Lemma keeps_update_rstream {A} (p : Z) (c : cras_rstream -> bool) (g : cras_rstream -> option cras_rstream)
    (k : cras_rstream -> iodev_prog (hw := hw) A) :
  (forall x x', g x = Some x' -> rs_buf_state x' = rs_buf_state x /\
     rs_num_attached_devs x' = rs_num_attached_devs x /\ rs_master_dev x' = rs_master_dev x) ->
  (forall x, keeps R (k x)) ->
  keeps R (let* s := find_rstream p in
           (if c s then let* s := here (g s) in put_rstream p s else ret tt) ;; k s).
Proof.
  intros Hg Hk s. unfold find_rstream, put_rstream, get_srv, set_srv. repeat prog_step.
  apply yields_here. intros x Hx.
  eapply yields_step with (Q := fun _ s' => R s' = R s).
  - destruct (c x); [|by prog_step]. apply yields_bind, yields_here. intros x' Hx'. prog_step.
    destruct (Hg _ _ Hx') as (H1 & H2 & H3). apply R_reads; try done. unfold tables. simpl.
    rewrite fmap_insert. apply insert_id. rewrite lookup_fmap, Hx. simpl. by rewrite H1, H2, H3.
  - intros _ s' Hs. eapply yields_mono; [apply Hk|]. intros a s2 H2. simpl in *. congruence.
Qed.

Lemma keeps_get_dev : keeps R get_dev.
Proof. apply keeps_gets. Qed.
Lemma keeps_get_srv : keeps R get_srv.
Proof. apply keeps_gets. Qed.
Lemma keeps_emit e : keeps R (emit e).
Proof. by apply keeps_set_srv. Qed.
#[local] Hint Resolve keeps_get_dev keeps_get_srv keeps_emit : keeps.
#[local] Hint Extern 2 (keeps _ (set_srv _)) => (apply keeps_set_srv; reflexivity) : keeps.
#[local] Hint Extern 1 (keeps _ frames_queued) => apply dk_frames_queued : keeps.
#[local] Hint Extern 1 (keeps _ (get_buffer _)) => apply dk_get_buffer : keeps.
#[local] Hint Extern 1 (keeps _ (put_buffer _)) => apply dk_put_buffer : keeps.
#[local] Hint Extern 1 (keeps _ configure_dev) => apply dk_configure_dev : keeps.
#[local] Hint Extern 1 (keeps _ close_dev) => apply dk_close_dev : keeps.
#[local] Hint Extern 2 (keeps _ _) =>
  match goal with
  | E : start _ = Some _ |- _ => exact (dk_start _ _ E)
  | E : is_free_running _ = Some _ |- _ => exact (dk_is_free_running _ _ E)
  | E : output_underrun _ = Some _ |- _ => exact (dk_output_underrun _ _ E)
  | E : open_dev _ = Some _ |- _ => exact (dk_open_dev _ _ E)
  | E : update_supported_formats _ = Some _ |- _ => exact (dk_update_supported_formats _ _ E)
  | E : update_channel_layout_op _ = Some _ |- _ => exact (dk_update_channel_layout _ _ E)
  | E : get_valid_frames _ = Some _ |- _ => exact (dk_get_valid_frames _ _ E)
  end : keeps.
#[local] Hint Extern 2 (keeps _ (set_dev _)) => (apply keeps_set_dev; reflexivity) : keeps.

Lemma keeps_put_output_buffer frames n ask conv : keeps R (cras_iodev_put_output_buffer frames n ask conv).
Proof.
  unfold cras_iodev_put_output_buffer, run_loopbacks, apply_dsp, on_mem, update_ramped_frames, each, run_input_data,
    output_should_mute, cras_iodev_is_zero_volume, cras_iodev_get_software_volume_scaler, add_rate_frames.
  keep.
Qed.
#[local] Hint Resolve keeps_put_output_buffer : keeps.

Lemma keeps_fill_odev_zeros n : keeps R (cras_iodev_fill_odev_zeros fuel n).
Proof.
  assert (Hloop : forall k frames fb, keeps R (fill_zeros_loop k frames fb)).
  { induction k as [|k IH]; intros frames fb; simpl; unfold cras_iodev_get_output_buffer, on_mem; keep. }
  unfold cras_iodev_fill_odev_zeros. keep.
Qed.
#[local] Hint Resolve keeps_fill_odev_zeros : keeps.

Lemma keeps_frames_queued : keeps R cras_iodev_frames_queued.
Proof. unfold cras_iodev_frames_queued. keep. Qed.
#[local] Hint Resolve keeps_frames_queued : keeps.

Lemma keeps_underrun : keeps R (cras_iodev_output_underrun fuel).
Proof. unfold cras_iodev_output_underrun. keep. Qed.
#[local] Hint Resolve keeps_underrun : keeps.

Lemma keeps_default_no_stream e : keeps R (cras_iodev_default_no_stream_playback fuel e).
Proof. unfold cras_iodev_default_no_stream_playback, default_no_stream_playback. keep. Qed.

Lemma keeps_begin_ramp from to secs cb i m : keeps R (begin_ramp from to secs cb i m).
Proof. unfold begin_ramp. keep. Qed.
#[local] Hint Resolve keeps_begin_ramp : keeps.

Lemma keeps_start_ramp r : keeps R (cras_iodev_start_ramp r).
Proof. unfold cras_iodev_start_ramp. keep. Qed.

Lemma keeps_start_volume_ramp o n : keeps R (cras_iodev_start_volume_ramp o n).
Proof. unfold cras_iodev_start_volume_ramp. keep. Qed.

Lemma keeps_playback_frames : keeps R dev_playback_frames.
Proof.
  assert (Hloop : forall l frames, keeps R (playback_frames_loop l frames)).
  { induction l as [|[p a] l IH]; intros frames; simpl; [keep|]. destruct (negb _); [apply IH|].
    apply keeps_update_rstream; [exact update_frames_table|]. intros x. unfold find_rstream. keep. }
  unfold dev_playback_frames. keep.
Qed.
#[local] Hint Resolve keeps_start_ramp keeps_playback_frames : keeps.

Lemma keeps_sleep : keeps R cras_iodev_default_frames_to_play_in_sleep.
Proof. unfold cras_iodev_default_frames_to_play_in_sleep. keep. Qed.

Lemma keeps_should_mute : keeps R output_should_mute.
Proof. unfold output_should_mute, cras_iodev_is_zero_volume. keep. Qed.
#[local] Hint Resolve keeps_should_mute : keeps.

Lemma keeps_alloc_dsp : keeps R cras_iodev_alloc_dsp.
Proof. unfold cras_iodev_alloc_dsp, cras_iodev_free_dsp, on_dsp. keep. Qed.
#[local] Hint Resolve keeps_alloc_dsp : keeps.

Lemma keeps_set_format ok fmt : keeps R (cras_iodev_set_format ok fmt).
Proof.
  unfold cras_iodev_set_format, update_channel_layout, cras_iodev_free_format, cras_iodev_update_dsp,
    adjust_dev_channel_for_dsp, update_format, cras_iodev_free_dsp, on_dsp.
  keep.
Qed.

Lemma keeps_add_ext : keeps R add_ext_dsp_module_to_pipeline.
Proof. unfold add_ext_dsp_module_to_pipeline, has_pipeline, configure_ext, set_sink, on_dsp. keep. Qed.

Lemma keeps_loopbacks on : keeps R (control_loopbacks on).
Proof. unfold control_loopbacks, each. keep. Qed.
End Keep.
#[local] Hint Resolve keeps_get_dev keeps_get_srv : keeps.

(** ** The diagram *)

(** What the diagram is about. *)
Definition view_of (s : iodev_state hw) : CRAS_IODEV_STATE * Z * dlist attached :=
  (io_state (dev s), io_direction (dev s), io_streams (dev s)).
Context {DK : driver_keeps view_of}.

Lemma view_reads s s' :
  io_state (dev s') = io_state (dev s) -> io_direction (dev s') = io_direction (dev s) ->
  io_streams (dev s') = io_streams (dev s) -> io_idx (dev s') = io_idx (dev s) -> io_is_enabled (dev s') = io_is_enabled (dev s) -> tables (srv s') = tables (srv s) ->
  view_of s' = view_of s.
Proof. unfold view_of. congruence. Qed.

Lemma view_set_srv (f : server -> server) : keeps view_of (set_srv f).
Proof. by apply keeps_modify. Qed.

Definition state_of (s : iodev_state hw) : CRAS_IODEV_STATE := io_state (dev s).

(** The arrows. *)
Inductive arrow : CRAS_IODEV_STATE -> CRAS_IODEV_STATE -> Prop :=
| Opens : arrow CRAS_IODEV_STATE_CLOSE CRAS_IODEV_STATE_OPEN
| OpensRunning : arrow CRAS_IODEV_STATE_CLOSE CRAS_IODEV_STATE_NO_STREAM_RUN
| Starts : arrow CRAS_IODEV_STATE_OPEN CRAS_IODEV_STATE_NORMAL_RUN
| LeavesNoStream : arrow CRAS_IODEV_STATE_NO_STREAM_RUN CRAS_IODEV_STATE_NORMAL_RUN
| EntersNoStream : arrow CRAS_IODEV_STATE_NORMAL_RUN CRAS_IODEV_STATE_NO_STREAM_RUN
| Closes st : arrow st CRAS_IODEV_STATE_CLOSE
| Stays st : arrow st st.

(** What other parts of the server have a device do. *)
Inductive device_call : Type :=
| CallOpen (malloc_ok : bool) (now : timespec) (cb_level : Z) (fmt : cras_audio_format)
| CallClose
| CallAddStream (fresh : nat -> id_offset) (p : Z) (a : attached)
| CallStartStream (fresh : nat -> id_offset) (p : Z)
| CallRmStream (rstream : Z)
| CallPrepareOutput
| CallPutOutputBuffer (frames nframes : Z) (ask : bool) (conv : option cras_fmt_conv)
| CallFillZeros (frames : Z)
| CallFramesQueued
| CallUnderrun
| CallNoStreamPlayback (enable : Z)
| CallStartRamp (request : CRAS_IODEV_RAMP_REQUEST)
| CallStartVolumeRamp (old_volume new_volume : Z)
| CallFramesToPlay.

Definition ignore {A} (m : iodev_prog (hw := hw) A) : iodev_prog (hw := hw) Z := m ;; ret 0.

Definition do_call (c : device_call) : iodev_prog (hw := hw) Z :=
  match c with
  | CallOpen ok now cb fmt => cras_iodev_open fuel ok now cb fmt
  | CallClose => cras_iodev_close
  | CallAddStream fresh p a => cras_iodev_add_stream fresh p a
  | CallStartStream fresh p => ignore (cras_iodev_start_stream fresh p)
  | CallRmStream r => ignore (cras_iodev_rm_stream r)
  | CallPrepareOutput => cras_iodev_prepare_output_before_write_samples fuel
  | CallPutOutputBuffer f n ask conv => ignore (cras_iodev_put_output_buffer f n ask conv)
  | CallFillZeros n => cras_iodev_fill_odev_zeros fuel n
  | CallFramesQueued => ignore cras_iodev_frames_queued
  | CallUnderrun => cras_iodev_output_underrun fuel
  | CallNoStreamPlayback e => cras_iodev_default_no_stream_playback fuel e
  | CallStartRamp r => cras_iodev_start_ramp r
  | CallStartVolumeRamp o n => cras_iodev_start_volume_ramp o n
  | CallFramesToPlay => ignore cras_iodev_default_frames_to_play_in_sleep
  end.

(** Where a call may lead: an output device's state before and after, the
    result, and whether streams are left. *)
Definition leads_to (c : device_call) (old : CRAS_IODEV_STATE) (rc : Z) (new : CRAS_IODEV_STATE) (left : dlist attached)
  : Prop :=
  match c with
  | CallOpen _ _ _ _ =>
      new = old \/ rc = 0 /\ (new = CRAS_IODEV_STATE_OPEN \/ new = CRAS_IODEV_STATE_NO_STREAM_RUN)
  | CallClose => if bool_decide (rc = 0) then new = CRAS_IODEV_STATE_CLOSE else new = old
  | CallRmStream _ =>
      new = old \/ old = CRAS_IODEV_STATE_NORMAL_RUN /\ new = CRAS_IODEV_STATE_NO_STREAM_RUN /\ left = []
  | CallPrepareOutput =>
      new = old \/
      (old = CRAS_IODEV_STATE_OPEN \/ old = CRAS_IODEV_STATE_NO_STREAM_RUN) /\ rc = 0 /\ new = CRAS_IODEV_STATE_NORMAL_RUN
  | _ => new = old
  end.

(** The programs over the parts that the diagram does not show. *)
Lemma quiet {A} (m : iodev_prog (hw := hw) A) s : keeps view_of m -> io_direction (dev s) = CRAS_STREAM_OUTPUT ->
  yields m s (fun _ s' => io_direction (dev s') = CRAS_STREAM_OUTPUT /\ state_of s' = state_of s).
Proof.
  intros Hm Hd. eapply yields_mono; [apply Hm|]. intros a s' Hv. unfold view_of in Hv. unfold state_of.
  split; congruence.
Qed.

Lemma keeps_ignore {A} (m : iodev_prog (hw := hw) A) : keeps view_of m -> keeps view_of (ignore m).
Proof. intros Hm. unfold ignore. apply keeps_bind; [done|]. intros. apply keeps_ret. Qed.

Lemma yields_start s :
  io_direction (dev s) = CRAS_STREAM_OUTPUT ->
  yields cras_iodev_start s (fun rc s' => io_direction (dev s') = CRAS_STREAM_OUTPUT /\
    (state_of s' = state_of s /\ rc <> 0 \/
     state_of s <> CRAS_IODEV_STATE_CLOSE /\ rc = 0 /\ state_of s' = CRAS_IODEV_STATE_NORMAL_RUN)).
Proof.
  intros Hd. unfold cras_iodev_start, get_dev. prog_step. unfold cras_iodev_is_open.
  case_bool_decide as Hc; cbn [negb]; [by split; [|left]|].
  destruct (start (dev s)) as [op|] eqn:Hop; [|by split; [|left]].
  eapply yields_keeps; [exact (dk_start _ _ Hop)|]. intros rc s1 Hv.
  injection Hv as H1 H2 H3. destruct (Z.eqb_spec rc 0) as [->|Hrc]; cbn [negb].
  - unfold set_dev. prog_step. prog_step. split; [exact (eq_trans H2 Hd)|right; by split_and!].
  - prog_step. split; [exact (eq_trans H2 Hd)|left; by split].
Qed.

Lemma yields_transition (enable : bool) s :
  io_direction (dev s) = CRAS_STREAM_OUTPUT ->
  state_of s = CRAS_IODEV_STATE_NORMAL_RUN \/ state_of s = CRAS_IODEV_STATE_NO_STREAM_RUN ->
  yields (cras_iodev_no_stream_playback_transition enable) s (fun rc s' =>
    io_direction (dev s') = CRAS_STREAM_OUTPUT /\ io_streams (dev s') = io_streams (dev s) /\
    (state_of s' = state_of s /\ rc < 0 \/
     rc = 0 /\ state_of s' = if enable then CRAS_IODEV_STATE_NO_STREAM_RUN else CRAS_IODEV_STATE_NORMAL_RUN)).
Proof.
  intros Hd Hs. unfold cras_iodev_no_stream_playback_transition, get_dev. prog_step. rewrite Hd.
  unfold state_of in Hs.
  assert (Hrun : negb (bool_decide (io_state (dev s) = CRAS_IODEV_STATE_NORMAL_RUN)) &&
    negb (bool_decide (io_state (dev s) = CRAS_IODEV_STATE_NO_STREAM_RUN)) = false)
    by (destruct Hs as [-> | ->]; reflexivity).
  rewrite Hrun. cbn [negb Z.eqb CRAS_STREAM_OUTPUT].
  eapply yields_keeps; [exact (dk_no_stream _)|]. intros rc s1 Hv. injection Hv as H1 H2 H3.
  destruct (Z.ltb_spec rc 0).
  - prog_step. split_and!; [exact (eq_trans H2 Hd)|exact H3|left; by split].
  - unfold set_dev. prog_step. prog_step. split_and!; [exact (eq_trans H2 Hd)|exact H3|right; by split].
Qed.

(** [Q] of the state and the streams that a call ends with. *)
Definition ends (c : device_call) (s : iodev_state hw) (rc : Z) (s' : iodev_state hw) : Prop :=
  io_direction (dev s') = CRAS_STREAM_OUTPUT /\ leads_to c (state_of s) rc (state_of s') (io_streams (dev s')).

Lemma quiet_call (c : device_call) s :
  (forall old rc new left, new = old -> leads_to c old rc new left) ->
  keeps view_of (do_call c) -> io_direction (dev s) = CRAS_STREAM_OUTPUT -> yields (do_call c) s (ends c s).
Proof.
  intros Hc Hm Hd. eapply yields_mono; [by apply quiet|]. intros rc s' [H1 H2]. split; [done|]. by apply Hc.
Qed.

Lemma yields_sample_ready s :
  io_direction (dev s) = CRAS_STREAM_OUTPUT ->
  state_of s = CRAS_IODEV_STATE_OPEN \/ state_of s = CRAS_IODEV_STATE_NO_STREAM_RUN ->
  yields (cras_iodev_output_event_sample_ready fuel) s (fun rc s' =>
    io_direction (dev s') = CRAS_STREAM_OUTPUT /\
    (state_of s' = state_of s /\ rc <> 0 \/ rc = 0 /\ state_of s' = CRAS_IODEV_STATE_NORMAL_RUN)).
Proof.
  intros Hd Hs. unfold cras_iodev_output_event_sample_ready, get_dev. prog_step.
  eapply yields_keeps with (R := view_of).
  { pose proof keeps_should_mute view_of. pose proof (keeps_start_ramp view_of view_reads). keep. }
  intros _ s1 Hv. injection Hv as H1 H2 H3. prog_step.
  unfold state_of in *. rewrite H1. destruct Hs as [Hs|Hs]; rewrite Hs.
  - eapply yields_keeps; [exact (keeps_fill_odev_zeros view_of view_reads _)|].
    intros _ s2 Hv. injection Hv as H4 H5 H6. eapply yields_mono; [apply yields_start; congruence|].
    intros rc s3 [H7 H8]. split; [done|]. unfold state_of in *.
    destruct H8 as [[H8 Hrc]|(_ & Hrc & H8)]; [left; split; [congruence|done]|by right].
  - eapply yields_mono; [apply yields_transition; [congruence|right; unfold state_of; congruence]|].
    intros rc s3 (H7 & _ & H8). split; [done|]. unfold state_of in *.
    destruct H8 as [[H8 Hrc]|(Hrc & H8)]; [left; split; [congruence|lia]|by right].
Qed.

Lemma yields_prepare s :
  io_direction (dev s) = CRAS_STREAM_OUTPUT -> yields (do_call CallPrepareOutput) s (ends CallPrepareOutput s).
Proof.
  intros Hd. simpl. unfold cras_iodev_prepare_output_before_write_samples, get_dev. prog_step. rewrite Hd.
  cbn [negb Z.eqb CRAS_STREAM_OUTPUT].
  destruct (bool_decide (io_state (dev s) = CRAS_IODEV_STATE_OPEN) ||
            bool_decide (io_state (dev s) = CRAS_IODEV_STATE_NO_STREAM_RUN)) eqn:Hmay.
  - apply orb_true_iff in Hmay. rewrite !bool_decide_eq_true in Hmay.
    eapply yields_keeps with (R := view_of).
    { pose proof (keeps_playback_frames view_of view_reads). keep. }
    intros ready s1 Hv. injection Hv as H1 H2 H3. destruct ready.
    + eapply yields_mono; [apply yields_sample_ready; [congruence|unfold state_of; by rewrite H1]|].
      intros rc s2 [H4 H5]. split; [done|]. simpl. unfold state_of in *.
      destruct H5 as [[H5 _]|[Hrc H5]]; [left; congruence|right; by split_and!].
    + case_bool_decide.
      * eapply yields_mono; [exact (dk_no_stream _ _)|]. intros rc s2 Hv. injection Hv as H4 H5 H6.
        split; [congruence|]. left. unfold state_of. congruence.
      * prog_step. split; [congruence|]. left. exact H1.
  - apply orb_false_iff in Hmay as [_ Hmay]. prog_step. rewrite Hmay. prog_step. split; [done|by left].
Qed.

Lemma yields_close s :
  io_direction (dev s) = CRAS_STREAM_OUTPUT -> yields (do_call CallClose) s (ends CallClose s).
Proof.
  intros Hd. simpl. unfold cras_iodev_close, get_dev. prog_step. unfold cras_iodev_is_open.
  case_bool_decide as Hc; cbn [negb]; [by split|].
  eapply yields_keeps; [apply (keeps_emit view_of view_reads)|]. intros _ s1 Hv1.
  eapply yields_keeps with (R := view_of).
  { destruct (io_input_data (dev s)); [apply (keeps_set_dev view_of view_reads); reflexivity|apply keeps_ret]. }
  intros _ s2 Hv2. eapply yields_keeps; [exact dk_close_dev|]. intros rc s3 Hv3.
  assert (Hv : view_of s3 = view_of s) by congruence. injection Hv as H1 H2 H3.
  destruct (Z.eqb_spec rc 0) as [->|Hrc]; cbn [negb].
  - unfold set_dev. prog_step. prog_step.
    eapply yields_keeps with (R := view_of).
    { pose proof (keeps_emit view_of view_reads). keep. }
    intros _ s4 Hv. eapply yields_keeps; [apply (keeps_loopbacks view_of view_reads)|]. intros _ s5 Hv5.
    prog_step. rewrite Hv in Hv5. injection Hv5 as H4 H5 H6. split; [exact (eq_trans H5 (eq_trans H2 Hd))|exact H4].
  - prog_step. split; [congruence|]. simpl. rewrite bool_decide_false by done. exact H1.
Qed.

(** Programs over the streams too. *)
Definition mode_of (s : iodev_state hw) : CRAS_IODEV_STATE * Z := (io_state (dev s), io_direction (dev s)).

Lemma mode_set_dev (f : cras_iodev hw -> cras_iodev hw) :
  (forall d, io_state (f d) = io_state d) -> (forall d, io_direction (f d) = io_direction d) -> keeps mode_of (set_dev f).
Proof. intros H1 H2. apply keeps_modify. intros s. unfold mode_of. simpl. by rewrite H1, H2. Qed.

Lemma mode_set_srv (f : server -> server) : keeps mode_of (set_srv f).
Proof. by apply keeps_modify. Qed.
#[local] Hint Resolve mode_set_srv : keeps.
#[local] Hint Extern 2 (keeps mode_of (set_dev _)) => (apply mode_set_dev; reflexivity) : keeps.

Lemma mode_start_stream fresh p : keeps mode_of (cras_iodev_start_stream fresh p).
Proof. unfold cras_iodev_start_stream, find_rstream. keep. Qed.

Lemma mode_add_stream fresh p a : keeps mode_of (cras_iodev_add_stream fresh p a).
Proof. pose proof mode_start_stream. unfold cras_iodev_add_stream, find_rstream. keep. Qed.

Lemma mode_rm_pass r e c : keeps mode_of (rm_stream_pass r e c).
Proof. unfold rm_stream_pass, find_rstream. keep. Qed.

Lemma mode_call (c : device_call) s :
  (forall old rc new left, new = old -> leads_to c old rc new left) ->
  keeps mode_of (do_call c) -> io_direction (dev s) = CRAS_STREAM_OUTPUT -> yields (do_call c) s (ends c s).
Proof.
  intros Hc Hm Hd. eapply yields_mono; [apply Hm|]. intros rc s' Hv. injection Hv as H1 H2.
  split; [congruence|]. apply Hc. exact H1.
Qed.

Lemma yields_rm_stream (r : Z) s :
  io_direction (dev s) = CRAS_STREAM_OUTPUT -> yields (do_call (CallRmStream r)) s (ends (CallRmStream r) s).
Proof.
  intros Hd. simpl. unfold ignore. eapply yields_step with (Q := fun _ => ends (CallRmStream r) s 0); [|done].
  unfold cras_iodev_rm_stream, get_dev. prog_step.
  eapply yields_keeps; [apply mode_set_dev; reflexivity|]. intros _ s1 Hv1.
  eapply yields_keeps; [apply keeps_fold; intros; apply mode_rm_pass|]. intros [found earliest] s2 Hv2.
  rewrite Hv1 in Hv2. injection Hv2 as H1 H2. prog_step.
  eapply yields_step with (Q := fun _ => ends (CallRmStream r) s 0).
  - destruct (io_streams (dev s2)) as [|a l] eqn:Hl; [|prog_step; split; [congruence|by left]].
    unfold set_dev. prog_step. set (s3 := (s2 <| dev ::= _ |>)).
    assert (H3 : io_state (dev s3) = io_state (dev s)) by exact H1.
    assert (H4 : io_direction (dev s3) = CRAS_STREAM_OUTPUT) by exact (eq_trans H2 Hd).
    assert (H5 : io_streams (dev s3) = []) by exact Hl. clearbody s3.
    eapply yields_step with (Q := fun _ => ends (CallRmStream r) s 0); [|done].
    destruct (_ && bool_decide _) eqn:Hrun.
    + apply andb_true_iff in Hrun as [_ Hrun]. apply bool_decide_eq_true in Hrun.
      eapply yields_mono; [apply yields_transition; [done|left; unfold state_of; congruence]|].
      intros rc s4 (H6 & H7 & H8). split; [done|]. unfold state_of in *. simpl.
      destruct H8 as [[H8 _]|[_ H8]]; [left; congruence|right]. split_and!; congruence.
    + prog_step. split; [done|by left].
  - intros _ s3 [H3 H4]. destruct earliest as [t|]; [|by prog_step].
    prog_step. eapply yields_keeps with (R := view_of).
    { unfold each, find_rstream, put_rstream. pose proof view_set_srv. keep. }
    intros _ s4 Hv. prog_step. injection Hv as H5 H6 H7. unfold ends, state_of in *. by rewrite H5, H6, H7.
Qed.

Lemma yields_open ok now cb fmt s :
  io_direction (dev s) = CRAS_STREAM_OUTPUT ->
  yields (do_call (CallOpen ok now cb fmt)) s (ends (CallOpen ok now cb fmt) s).
Proof.
  intros Hd. simpl. unfold cras_iodev_open, get_dev. prog_step.
  eapply yields_keeps with (R := view_of).
  { pose proof (keeps_emit view_of view_reads). keep. } intros _ s1 Hv1.
  eapply yields_keeps; [apply (keeps_loopbacks view_of view_reads)|]. intros _ s2 Hv2.
  eapply yields_keeps with (R := view_of).
  { destruct (open_dev (dev s)) eqn:E; [exact (dk_open_dev _ _ E)|apply keeps_ret]. } intros rc s3 Hv3.
  assert (Hv : view_of s3 = view_of s) by congruence. clear Hv1 Hv2 Hv3.
  assert (Hstay : forall s', view_of s' = view_of s -> forall rc, ends (CallOpen ok now cb fmt) s rc s').
  { intros s' Hs' rc'. injection Hs' as H1 H2 H3. split; [congruence|by left]. }
  destruct (rc =? 0); cbn [negb]; [|prog_step; by apply Hstay].
  prog_step. eapply yields_keeps with (R := view_of).
  { destruct (io_format (dev s3)); [apply keeps_ret|apply (keeps_set_format view_of view_reads)]. } intros rc2 s4 Hv4.
  destruct (rc2 =? 0); cbn [negb].
  2:{ eapply yields_keeps; [exact dk_close_dev|]. intros _ s5 Hv5. prog_step. apply Hstay. congruence. }
  eapply yields_keeps; [exact dk_configure_dev|]. intros rc3 s5 Hv5.
  destruct (rc3 <? 0).
  { eapply yields_keeps; [exact dk_close_dev|]. intros _ s6 Hv6. prog_step. apply Hstay. congruence. }
  prog_step. apply yields_bind, yields_here. intros cur _. apply yields_bind, yields_here. intros n _.
  unfold set_dev. prog_step. set (s6 := (s5 <| dev ::= _ |>)).
  assert (H6 : io_direction (dev s6) = CRAS_STREAM_OUTPUT).
  { assert (view_of s5 = view_of s) as Hv6 by congruence. injection Hv6 as _ H2 _. exact (eq_trans H2 Hd). }
  assert (H5 : io_direction (dev s5) = CRAS_STREAM_OUTPUT) by exact H6. rewrite H5. clearbody s6.
  cbn [Z.eqb CRAS_STREAM_OUTPUT].
  eapply yields_step with (Q := fun _ s' => io_direction (dev s') = CRAS_STREAM_OUTPUT /\
    (state_of s' = CRAS_IODEV_STATE_OPEN \/ state_of s' = CRAS_IODEV_STATE_NO_STREAM_RUN)).
  - unfold open_output, get_dev. prog_step. destruct (start (dev s6)); [split; [exact H6|by left]|].
    unfold set_dev. prog_step. set (s7 := (s6 <| dev ::= _ |>)).
    assert (H7 : io_direction (dev s7) = CRAS_STREAM_OUTPUT /\ state_of s7 = CRAS_IODEV_STATE_NO_STREAM_RUN) by done.
    clearbody s7. eapply yields_keeps; [exact (keeps_fill_odev_zeros view_of view_reads _)|].
    intros _ s8 Hv8. prog_step. injection Hv8 as H8 H9 _. unfold state_of in *.
    split; [|right]; destruct H7; congruence.
  - intros _ s7 [H7 H8]. eapply yields_keeps; [exact (keeps_add_ext view_of view_reads)|].
    intros _ s8 Hv8. injection Hv8 as H9 H10 _. prog_step. prog_step.
    split; [exact (eq_trans H10 H7)|right]. split; [done|].
    destruct H8 as [H8|H8]; [left|right]; exact (eq_trans H9 H8).
Qed.

(** A call on an output device, and where it leads. *)
Lemma call_ends (c : device_call) s :
  io_direction (dev s) = CRAS_STREAM_OUTPUT -> yields (do_call c) s (ends c s).
Proof.
  intros Hd. destruct c.
  - by apply yields_open.
  - by apply yields_close.
  - apply mode_call; [done|apply mode_add_stream|done].
  - apply mode_call; [done| |done]. simpl. unfold ignore. pose proof mode_start_stream. keep.
  - by apply yields_rm_stream.
  - by apply yields_prepare.
  - apply quiet_call; [done|apply keeps_ignore, (keeps_put_output_buffer view_of view_reads)|done].
  - apply quiet_call; [done|exact (keeps_fill_odev_zeros view_of view_reads _)|done].
  - apply quiet_call; [done|apply keeps_ignore, (keeps_frames_queued view_of view_reads)|done].
  - apply quiet_call; [done|exact (keeps_underrun view_of view_reads)|done].
  - apply quiet_call; [done|exact (keeps_default_no_stream view_of view_reads _)|done].
  - apply quiet_call; [done|exact (keeps_start_ramp view_of view_reads _)|done].
  - apply quiet_call; [done|exact (keeps_start_volume_ramp view_of view_reads _ _)|done].
  - apply quiet_call; [done|apply keeps_ignore, (keeps_sleep view_of view_reads)|done].
Qed.

(** A device is only opened when it is closed. *)
Inductive device_step (s : iodev_state hw) : iodev_state hw -> Prop :=
| DeviceStep c rc s' :
    match c with CallOpen _ _ _ _ => state_of s = CRAS_IODEV_STATE_CLOSE | _ => True end ->
    do_call c s = Some (rc, s') -> device_step s s'.

Lemma step_arrow s s' :
  device_step s s' -> io_direction (dev s) = CRAS_STREAM_OUTPUT ->
  io_direction (dev s') = CRAS_STREAM_OUTPUT /\ arrow (state_of s) (state_of s').
Proof.
  intros [c rc s1 Hc Hrun] Hd. pose proof (yields_Some _ _ _ _ _ (call_ends c s Hd) Hrun) as [H1 H2].
  split; [done|]. destruct c; simpl in H2, Hc; try (rewrite H2; constructor).
  - destruct H2 as [->|[_ [H2|H2]]]; [constructor|rewrite Hc, H2; constructor..].
  - case_bool_decide; rewrite H2; constructor.
  - destruct H2 as [->|(-> & -> & _)]; constructor.
  - destruct H2 as [->|([-> | ->] & _ & ->)]; constructor.
Qed.

Lemma ready_starts s n s1 rc s' :
  io_direction (dev s) = CRAS_STREAM_OUTPUT ->
  state_of s = CRAS_IODEV_STATE_OPEN \/ state_of s = CRAS_IODEV_STATE_NO_STREAM_RUN ->
  dev_playback_frames s = Some (n, s1) -> n <> 0 -> do_call CallPrepareOutput s = Some (rc, s') -> rc = 0 ->
  state_of s' = CRAS_IODEV_STATE_NORMAL_RUN.
Proof.
  intros Hd Hs Hn Hn0 Hrun Hrc.
  assert (Hv : yields (do_call CallPrepareOutput) s (fun rc s' => rc = 0 -> state_of s' = CRAS_IODEV_STATE_NORMAL_RUN)).
  { simpl. unfold cras_iodev_prepare_output_before_write_samples, get_dev. prog_step. rewrite Hd.
    cbn [negb Z.eqb CRAS_STREAM_OUTPUT].
    assert (Hmay : bool_decide (io_state (dev s) = CRAS_IODEV_STATE_OPEN) ||
      bool_decide (io_state (dev s) = CRAS_IODEV_STATE_NO_STREAM_RUN) = true)
      by (unfold state_of in Hs; destruct Hs as [-> | ->]; reflexivity).
    rewrite Hmay. do 2 apply yields_bind. pose proof (keeps_playback_frames view_of view_reads s) as Hk.
    unfold yields in Hk. rewrite Hn in Hk. injection Hk as H1 H2 _.
    unfold yields at 1. rewrite Hn. prog_step. destruct (Z.eqb_spec n 0); [done|]. cbn [negb].
    eapply yields_mono; [apply yields_sample_ready; [congruence|unfold state_of; by rewrite H1]|].
    intros rc1 s2 [_ [[_ H4]|[_ H4]]] H5; [done|exact H4]. }
  exact (yields_Some _ _ _ _ _ Hv Hrun Hrc).
Qed.

End Diagram.
