(* ===== verification/EmptyIodev.v ===== *)
(** * The silent devices (server/cras_empty_iodev.c)

    The server's fallback devices pretend to be hardware: their level is made
    up from what was read or written and the time since they started.  They are
    an implementation of the drivers that server/cras_iodev.c calls.  The clock
    is a sequence of times: each [clock_gettime] takes the next. *)
From coqutil Require Import Datatypes.RecordSetters.
From S2P Require Import Expr Prelude Prog Arrays Float32 Types DList Timespec BufferShare AudioFormat Mix AudioArea.
From S2P Require Import FmtConv Ramp Volume Rstream DevStream InputData Iodev IodevOutput IodevOpen IodevStates.
Import TriangleBracketNotations.
#[local] Open Scope Z_scope.
#[local] Open Scope prog_scope.

Definition EMPTY_BUFFER_SIZE : Z := 32 * 1024.
Definition MAX_EMPTY_FRAME_SIZE : Z := 8.
Definition EMPTY_FRAMES : Z := EMPTY_BUFFER_SIZE / MAX_EMPTY_FRAME_SIZE.
Definition empty_supported_rates : list Z := [44100; 48000; 0].
Definition empty_supported_channel_counts : list Z := [1; 2; 0].
Definition empty_supported_formats {P : pcm_library} : list Z :=
  [SND_PCM_FORMAT_S16_LE; SND_PCM_FORMAT_S24_LE; SND_PCM_FORMAT_S32_LE; SND_PCM_FORMAT_S24_3LE; 0].
Definition SILENT_RECORD_DEVICE : Z := 1.
Definition SILENT_PLAYBACK_DEVICE : Z := 2.
Definition SILENT_HOTWORD_DEVICE : Z := 3.

(** The device's own fields: [ee_buffer] is whether its buffer, the device's
    memory, is allocated; and the clock. *)
Record empty_iodev : Type := EmptyIodev {
  ee_buffer : bool;
  ee_read_frames : Z;
  ee_written_frames : Z;
  ee_dev_start_time : timespec;
  ee_clock : nat -> timespec;
  ee_ticks : nat
}.

Section Empty.
Context {P : pcm_library} {L : speex_library} {RE : rate_library} {D : dsp_service} {AP : apm_service}.
Context (fuel : nat).
#[local] Abbreviation iodev_prog := (iodev_prog (hw := empty_iodev)).

Definition set_hw (f : empty_iodev -> empty_iodev) : iodev_prog unit := set_dev (fun d => d <| io_hw ::= f |>).

Definition clock_gettime : iodev_prog timespec :=
  let* d := get_dev in
  set_hw (fun e => e <| ee_ticks ::= S |>) ;;
  ret (ee_clock (io_hw d) (ee_ticks (io_hw d))).

Definition current_level : iodev_prog Z :=
  let* d := get_dev in
  let* n := here (find_active_node d) in
  let* n := here n in
  if nd_type n =? CRAS_NODE_TYPE_HOTWORD then ret 0 else
  let* fmt := here (io_format d) in
  let* now := clock_gettime in
  let frames_since_start := u64 (cras_frames_since_time now (ee_dev_start_time (io_hw d)) (frame_rate fmt)) in
  if io_direction d =? CRAS_STREAM_INPUT then
    ret (cmin (u64 (frames_since_start - ee_read_frames (io_hw d))) EMPTY_FRAMES)
  else if ee_written_frames (io_hw d) <=? frames_since_start then ret 0
  else ret (u32 (ee_written_frames (io_hw d) - frames_since_start)).

Definition empty_frames_queued : iodev_prog (Z * timespec) :=
  let* ts := clock_gettime in
  let* n := current_level in
  ret (s32 n, ts).

Definition empty_delay_frames : iodev_prog Z := ret 0.

Definition empty_close_dev : iodev_prog Z :=
  set_hw (fun e => e <| ee_buffer := false |>) ;;
  cras_iodev_free_audio_area ;;
  ret 0.

Definition empty_configure_dev : iodev_prog Z :=
  let* d := get_dev in
  match io_format d with
  | None => ret (- EINVAL)
  | Some fmt =>
      cras_iodev_init_audio_area (s32 (num_channels fmt)) ;;
      set_dev (fun d => d <| io_mem := replicate (Z.to_nat EMPTY_BUFFER_SIZE) 0 |>) ;;
      set_hw (fun e => e <| ee_buffer := true |> <| ee_read_frames := 0 |> <| ee_written_frames := 0 |>) ;;
      let* now := clock_gettime in
      set_hw (fun e => e <| ee_dev_start_time := now |>) ;;
      ret 0
  end.

Definition empty_get_buffer (nframes : Z) : iodev_prog (Z * option cras_audio_area * Z) :=
  let* d := get_dev in
  let* level := current_level in
  let n := cmin nframes (if io_direction d =? CRAS_STREAM_OUTPUT then u32 (EMPTY_FRAMES - level) else level) in
  let* area := here (io_area d) in
  let* fmt := here (io_format d) in
  let* area := here (cras_audio_area_config_buf_pointers (set_area_frames area n) fmt 0) in
  set_dev (fun d => d <| io_area := Some area |>) ;;
  ret (0, Some area, n).

Definition empty_put_buffer (nframes : Z) : iodev_prog Z :=
  let* d := get_dev in
  let* level := current_level in
  if io_direction d =? CRAS_STREAM_INPUT then
    if level <? nframes then ret (- EPIPE)
    else set_hw (fun e => e <| ee_read_frames ::= fun n => u64 (n + nframes) |>) ;; ret 0
  else
    if u32 (EMPTY_FRAMES - level) <? nframes then ret (- EPIPE)
    else set_hw (fun e => e <| ee_written_frames ::= fun n => u64 (n + nframes) |>) ;; ret 0.

Definition empty_flush_buffer : iodev_prog Z :=
  let* d := get_dev in
  (if io_direction d =? CRAS_STREAM_INPUT then set_hw (fun e => e <| ee_read_frames := 0 |>)
   else set_hw (fun e => e <| ee_written_frames := 0 |>)) ;;
  let* now := clock_gettime in
  set_hw (fun e => e <| ee_dev_start_time := now |>) ;;
  ret 0.

#[export] Instance empty_hw : iodev_hw (hw := empty_iodev) := {|
  open_dev _ := None;
  configure_dev := empty_configure_dev;
  close_dev := empty_close_dev;
  update_supported_formats _ := None;
  update_channel_layout_op _ := None;
  frames_queued := empty_frames_queued;
  delay_frames := empty_delay_frames;
  get_buffer := empty_get_buffer;
  put_buffer := empty_put_buffer;
  flush_buffer := empty_flush_buffer;
  start _ := None;
  is_free_running _ := None;
  get_valid_frames _ := None;
  get_num_severe_underruns _ := None;
  set_mute _ := None
|}.

#[export] Instance empty_xrun : iodev_xrun (hw := empty_iodev) := fun _ => None.

#[export] Instance empty_driver : iodev_driver (hw := empty_iodev) := {|
  no_stream := cras_iodev_default_no_stream_playback fuel;
  frames_to_play_in_sleep _ := None
|}.

(** The new device, before it is added to the list of devices; its node has
    the address [p].  Both allocations succeed. *)
Definition empty_iodev_create (clock : nat -> timespec) (p direction node_type : Z) (v : server)
  : option (option (iodev_state empty_iodev)) :=
  if negb (direction =? CRAS_STREAM_INPUT) && negb (direction =? CRAS_STREAM_OUTPUT) then Some None else
  let d := {|
    io_idx := 0; io_nodes := []; io_active_node := None; io_direction := direction;
    io_supported_rates := empty_supported_rates; io_supported_channel_counts := empty_supported_channel_counts;
    io_supported_formats := empty_supported_formats; io_buffer_size := EMPTY_FRAMES; io_min_buffer_level := 0;
    io_format := None; io_rate_est := None; io_area := None; io_dsp_context := None; io_dsp_name := None;
    io_software_volume_needed := 0; io_software_gain_scaler := float_zero; io_streams := [];
    io_state := CRAS_IODEV_STATE_CLOSE; io_min_cb_level := 0; io_max_cb_level := 0; io_highest_hw_level := 0;
    io_largest_cb_level := 0; io_num_underruns := 0; io_buf_state := None; io_idle_timeout := Timespec 0 0;
    io_open_ts := Timespec 0 0; io_loopbacks := []; io_pre_open_hook := false; io_post_close_hook := false;
    io_ext_dsp_module := None; io_reset_request_pending := false; io_ramp := None; io_input_streaming := false;
    io_input_frames_read := 0; io_input_dsp_offset := 0; io_initial_ramp_request := CRAS_IODEV_RAMP_REQUEST_NONE;
    io_input_data := None; io_echo_reference_dev := None; io_is_enabled := false; io_mem := [];
    io_hw := EmptyIodev false 0 0 (Timespec 0 0) clock 0 |} in
  let node := Ionode 0 0 (Timespec 0 0) 100 0 float_one 0 node_type 0 None 0 0 0 (replicate 16 0) in
  let idx := if direction =? CRAS_STREAM_INPUT
             then if node_type =? CRAS_NODE_TYPE_HOTWORD then SILENT_HOTWORD_DEVICE else SILENT_RECORD_DEVICE
             else SILENT_PLAYBACK_DEVICE in
  match (cras_iodev_add_node p node ;; cras_iodev_set_active_node (Some p) ;;
         set_dev (fun d => d <| io_idx := idx |>)) (IodevState d v) with
  | Some (_, s) => Some (Some s)
  | None => None
  end.

(** ** The silent devices are well behaved drivers *)
Section Keep.
Context {T : Type} (R : iodev_state empty_iodev -> T).
Hypothesis R_reads : forall s s',
  io_state (dev s') = io_state (dev s) -> io_direction (dev s') = io_direction (dev s) ->
  io_streams (dev s') = io_streams (dev s) -> io_idx (dev s') = io_idx (dev s) -> io_is_enabled (dev s') = io_is_enabled (dev s) -> tables (srv s') = tables (srv s) ->
  R s' = R s.

#[local] Hint Extern 2 (keeps _ (set_dev _)) => (apply keeps_set_dev; [exact R_reads|reflexivity..]) : keeps.
#[local] Hint Extern 2 (keeps _ (set_hw _)) => (apply keeps_set_dev; [exact R_reads|reflexivity..]) : keeps.
#[local] Hint Resolve keeps_get_dev keeps_get_srv : keeps.

Lemma keeps_clock : keeps R clock_gettime.
Proof. unfold clock_gettime. keep. Qed.
#[local] Hint Resolve keeps_clock : keeps.

Lemma keeps_level : keeps R current_level.
Proof. unfold current_level. keep. Qed.
#[local] Hint Resolve keeps_level : keeps.

Lemma empty_hw_keeps : hw_keeps R.
Proof.
  split; try done.
  - simpl. unfold empty_frames_queued. keep.
  - simpl. unfold empty_get_buffer. keep.
  - simpl. unfold empty_put_buffer. keep.
  - simpl. unfold empty_configure_dev, cras_iodev_init_audio_area. keep.
  - simpl. unfold empty_close_dev, cras_iodev_free_audio_area. keep.
  - simpl. unfold empty_flush_buffer. keep.
Qed.

Lemma empty_driver_keeps : driver_keeps R.
Proof.
  split; [exact empty_hw_keeps| |done]. intros b. exact (keeps_default_no_stream (HK := empty_hw_keeps) fuel R R_reads b).
Qed.
End Keep.
End Empty.

(** ** An example

    A server without DSP: a context has no pipeline until the dummy one is
    loaded, and that changes nothing. *)
#[export] Instance no_rate_estimator : rate_library := {|
  rate_estimator := unit;
  rate_estimator_create _ := None;
  rate_estimator_reset_rate r _ := r;
  rate_estimator_add_frames r _ := r;
  rate_estimator_check r _ _ := (0, r);
  rate_estimator_get_rate _ := float_zero
|}.

#[export] Instance no_dsp : dsp_service := {|
  dsp_world := nat;
  cras_dsp_context_new _ _ n := (n, S n);
  cras_dsp_context_free _ n := Some n;
  cras_dsp_set_variable_string _ _ _ n := n;
  cras_dsp_set_variable_boolean _ _ _ n := n;
  cras_dsp_load_pipeline _ n := Some n;
  cras_dsp_load_dummy_pipeline _ _ n := Some n;
  cras_dsp_has_pipeline _ _ := Some false;
  cras_dsp_num_output_channels _ _ := None;
  cras_dsp_num_input_channels _ _ := None;
  cras_dsp_pipeline_apply _ buf _ _ n := Some (0, buf, [], n);
  cras_dsp_pipeline_get_delay _ _ := None;
  cras_dsp_pipeline_set_sink_ext_module _ _ n := Some n;
  ext_dsp_module_configure _ _ _ _ n := n
|}.

#[export] Instance no_apm : apm_service := {|
  apm_world := unit;
  cras_apm_list_get_active_apm _ _ _ := None;
  cras_apm_list_process _ _ _ w := (0, w);
  cras_apm_list_remove_apm _ _ w := w;
  cras_apm_list_get_processed _ _ := cras_audio_area_create 0;
  cras_apm_processed_samples _ _ := [];
  cras_apm_list_put_processed _ _ w := w;
  cras_apm_list_get_use_tuned_settings _ _ := false
|}.

#[local] Existing Instances alsa_example speex_example expf_example.

(** A clock that ticks every millisecond. *)
Definition millisecond_clock (n : nat) : timespec := Timespec 1 (Z.of_nat n * 1000000).

Definition quiet_server : server := Server ∅ false 100 false 0%nat tt [].

Definition silent_playback : option (iodev_state empty_iodev) :=
  match empty_iodev_create millisecond_clock 1 CRAS_STREAM_OUTPUT 0 quiet_server with
  | Some (Some s) => Some s
  | _ => None
  end.

Definition stereo_16 : cras_audio_format := AudioFormat SND_PCM_FORMAT_S16_LE 48000 2 (default_layout 2).
Definition open_silent : device_call := CallOpen true (Timespec 2 0) 16 stereo_16.

