(* ===== verification/IodevLevels.v ===== *)
(** * Callback levels (server/cras_iodev.c)

    A device wakes its thread by the smallest and the largest callback level
    of the streams that run on it.  [levels] says what the two are, and the
    operations on the device's streams keep them so; removing a stream leaves
    the device as though it had not been there. *)
From coqutil Require Import Datatypes.RecordSetters.
From S2P Require Import Prelude Prog Arrays Float32 Types DList Timespec ByteBuffer BufferShare Shm AudioFormat Mix AudioArea.
From S2P Require Import FmtConv Ramp Volume Rstream DevStream InputData Iodev IodevOutput IodevStates EmptyIodev.
Import TriangleBracketNotations.
#[local] Open Scope Z_scope.
#[local] Open Scope prog_scope.

Section Levels.
Context {P : pcm_library} {L : speex_library} {RE : rate_library} {D : dsp_service} {AP : apm_service}.
Context {hw : Type} {H : iodev_hw (hw := hw)} {X : iodev_xrun (hw := hw)} {V : iodev_driver (hw := hw)}.

(** The callback level of a stream of the device. *)
Definition threshold (m : gmap Z cras_rstream) (a : attached) : option Z :=
  s ← m !! at_stream a; dev_stream_cb_threshold (at_dev_stream a) s.

Definition running (l : list (Z * attached)) : list (Z * attached) := filter (fun e => ds_is_running (at_dev_stream e.2) = true) l.

(** The levels and the times of the next callbacks of the running streams. *)
Definition running_levels (m : gmap Z cras_rstream) (l : list (Z * attached)) : list Z :=
  omap (fun e => threshold m e.2) (running l).
Definition running_times (m : gmap Z cras_rstream) (l : list (Z * attached)) : list timespec :=
  omap (fun e => rs_next_cb_ts <$> m !! at_stream e.2) (running l).

(** The levels of a device whose smallest level cannot exceed [base]. *)
Record levels (base : Z) (m : gmap Z cras_rstream) (l : list (Z * attached)) (d : cras_iodev hw) : Prop := {
  lv_min : io_min_cb_level d = foldr Z.min base (running_levels m l);
  lv_max : io_max_cb_level d = foldr Z.max 0 (running_levels m l)
}.

(** Every stream of the device is there, and has a level. *)
Definition streams_ok (m : gmap Z cras_rstream) (l : list (Z * attached)) : Prop :=
  NoDup (addrs l) /\ Forall (fun e => is_Some (threshold m e.2)) l.

Definition others (r : Z) (l : list (Z * attached)) : list (Z * attached) := filter (fun e => at_stream e.2 <> r) l.

Lemma foldr_min_snoc base l x : foldr Z.min base (l ++ [x]) = Z.min (foldr Z.min base l) x.
Proof. induction l as [|y l IH]; simpl; [lia|]. rewrite IH. lia. Qed.

Lemma foldr_max_snoc base l x : foldr Z.max base (l ++ [x]) = Z.max (foldr Z.max base l) x.
Proof. induction l as [|y l IH]; simpl; [lia|]. rewrite IH. lia. Qed.

(** [t] is the earliest of the times; [None] when there are none. *)
Definition earliest (ts : list timespec) (t : option timespec) : Prop :=
  match t with
  | None => ts = []
  | Some t => t ∈ ts /\ Forall (fun u => timespec_after t u = false) ts
  end.

Lemma after_trans a b c : timespec_after a b = false -> timespec_after b c = false -> timespec_after a c = false.
Proof. unfold timespec_after. zcases; simpl; intros; try done; lia. Qed.

Lemma after_total a b : timespec_after a b = true -> timespec_after b a = false.
Proof. unfold timespec_after. zcases; simpl; intros; try done; lia. Qed.

Lemma earliest_snoc ts t u :
  earliest ts t ->
  earliest (ts ++ [u]) (Some (if timespec_after (default u t) u then u else default u t)).
Proof.
  intros He. destruct t as [t|]; simpl in *.
  - destruct He as [Hin Hall]. destruct (timespec_after t u) eqn:Hau.
    + split; [apply elem_of_app; right; by left|]. apply Forall_app. split.
      * eapply Forall_impl; [exact Hall|]. intros v Hv. apply (after_trans _ t); [by apply after_total|done].
      * constructor; [|constructor]. unfold timespec_after. zcases; simpl; try done; lia.
    + split; [apply elem_of_app; by left|]. apply Forall_app. split; [done|]. by constructor.
  - subst ts. assert (Huu : timespec_after u u = false) by (unfold timespec_after; zcases; simpl; try done; lia).
    rewrite Huu. split; [by left|]. by constructor.
Qed.

(** What the removal reads and writes of the device. *)
Record level_view : Type := LevelView {
  v_streams : dlist attached; v_min : Z; v_max : Z; v_buf : option buffer_share; v_size : Z; v_rstreams : gmap Z cras_rstream
}.
Definition level_view_of (s : iodev_state hw) : level_view :=
  LevelView (io_streams (dev s)) (io_min_cb_level (dev s)) (io_max_cb_level (dev s)) (io_buf_state (dev s))
    (io_buffer_size (dev s)) (sv_rstreams (srv s)).

Section Remove.
Context (r : Z) (l : list (Z * attached)) (m : gmap Z cras_rstream) (b : buffer_share) (half id dir : Z) (st : CRAS_IODEV_STATE).
Hypothesis l_ok : streams_ok m l.
Hypothesis l_once : NoDup ((fun e => at_stream e.2) <$> l).
Hypothesis r_id : forall s, m !! r = Some s -> rs_stream_id s = id.

Definition gone (k : nat) : Prop := r ∈ (fun e => at_stream e.2) <$> take k l.

(** The device after [k] of its streams. *)
Record removing (k : nat) (c : option Z * option timespec) (s : iodev_state hw) : Prop := {
  rm_streams : io_streams (dev s) = others r (take k l) ++ drop k l;
  rm_rstreams : sv_rstreams (srv s) = m;
  rm_min : io_min_cb_level (dev s) = foldr Z.min half (running_levels m (others r (take k l)));
  rm_max : io_max_cb_level (dev s) = foldr Z.max 0 (running_levels m (others r (take k l)));
  rm_earliest : earliest (running_times m (others r (take k l))) (snd c);
  rm_state : io_direction (dev s) = dir /\ io_state (dev s) = st;
  rm_found : fst c = last (addrs (filter (fun e => at_stream e.2 = r) (take k l)));
  rm_buf : io_buf_state (dev s) = Some (if decide (gone k) then snd (buffer_share_rm_id b id) else b)
}.

Lemma filter_snoc_no {A} (Q : A -> Prop) `{forall x, Decision (Q x)} (l' : list A) x : ~ Q x -> filter Q (l' ++ [x]) = filter Q l'.
Proof. intros Hx. rewrite filter_app, filter_cons_False, filter_nil by done. apply app_nil_r. Qed.
Lemma filter_snoc_yes {A} (Q : A -> Prop) `{forall x, Decision (Q x)} (l' : list A) x : Q x -> filter Q (l' ++ [x]) = filter Q l' ++ [x].
Proof. intros Hx. by rewrite filter_app, filter_cons_True, filter_nil by done. Qed.

(** The list around the [k]-th stream, of which nothing is repeated. *)
Lemma at_index (k : nat) (p : Z) (a : attached) :
  l !! k = Some (p, a) ->
  take (S k) l = take k l ++ [(p, a)] /\ drop k l = (p, a) :: drop (S k) l /\
  (p ∉ addrs (others r (take k l))) /\ (at_stream a ∉ (fun e => at_stream e.2) <$> take k l) /\
  exists s t, m !! at_stream a = Some s /\ threshold m a = Some t /\ dev_stream_cb_threshold (at_dev_stream a) s = Some t.
Proof.
  intros Hk. pose proof (take_S_r _ _ _ Hk) as Ht. pose proof (drop_S _ _ _ Hk) as Hdr.
  assert (Hl : l = take k l ++ (p, a) :: drop (S k) l) by (rewrite <- Hdr; by rewrite take_drop).
  destruct l_ok as [Hnd Hall]. split_and!; [done|done| | |].
  - rewrite Hl in Hnd. apply NoDup_middle in Hnd as (Hp & _ & _).
    intros ([q x] & Hq & (Hr & Hin)%list_elem_of_filter)%list_elem_of_fmap. apply Hp.
    simpl in Hq. subst q. apply list_elem_of_fmap. by exists (p, x).
  - rewrite Hl, fmap_app, NoDup_app in l_once. destruct l_once as (_ & Hd & _).
    intros Hin. apply (Hd _ Hin). rewrite fmap_cons. by left.
  - pose proof (Forall_lookup_1 _ _ _ _ Hall Hk) as [t Ht2]. simpl in Ht2.
    pose proof Ht2 as Ht3. unfold threshold in Ht3. apply bind_Some in Ht3 as (s & Hs & Ht3). by exists s, t.
Qed.

Lemma removing_pass (k : nat) (p : Z) (a : attached) c s :
  l !! k = Some (p, a) -> removing k c s -> runs (rm_stream_pass r (p, a) c) s (removing (S k)).
Proof.
  intros Hk [H1 H2 H3 H4 H5 H8 H6 H7]. destruct (at_index k p a Hk) as (Ht & Hdr & Hp & Hnew & s0 & t & Hs0 & Hth & Hcb).
  destruct c as [found e]. simpl in H5, H6. unfold rm_stream_pass, get_dev, find_rstream, get_srv. prog_step.
  prog_step. prog_step. rewrite H2. eapply runs_here; [exact Hs0|].
  destruct (Z.eqb_spec (at_stream a) r) as [Har|Har].
  - apply runs_bind. eapply runs_here; [exact H7|]. apply runs_bind. eapply runs_here.
    { rewrite H1, Hdr. by apply dl_delete_app. }
    unfold set_dev. prog_step. prog_step.
    assert (Hoth : others r (take (S k) l) = others r (take k l)).
    { rewrite Ht. apply filter_snoc_no. simpl. congruence. }
    split; rewrite ?Hoth; try done.
    + rewrite Ht, filter_snoc_yes, addrs_app by done. cbn. by rewrite last_snoc.
    + simpl. f_equal. rewrite decide_False by (unfold gone; by rewrite <- Har).
      rewrite decide_True by (unfold gone; rewrite Ht, fmap_app; apply elem_of_app; right; simpl; rewrite Har; by left).
      rewrite Har in Hs0. by rewrite (r_id _ Hs0).
  - assert (Hoth : others r (take (S k) l) = others r (take k l) ++ [(p, a)]).
    { rewrite Ht. by apply filter_snoc_yes. }
    assert (Hstr : io_streams (dev s) = others r (take (S k) l) ++ drop (S k) l).
    { by rewrite H1, Hdr, Hoth, <- app_assoc. }
    assert (Hf : found = last (addrs (filter (fun e => at_stream e.2 = r) (take (S k) l)))).
    { by rewrite Ht, filter_snoc_no. }
    assert (Hb : io_buf_state (dev s) = Some (if decide (gone (S k)) then snd (buffer_share_rm_id b id) else b)).
    { rewrite H7. f_equal. apply decide_ext. unfold gone. rewrite Ht, fmap_app, elem_of_app. simpl.
      rewrite list_elem_of_singleton. split; [by left|]. intros [?|?]; congruence. }
    destruct (ds_is_running (at_dev_stream a)) eqn:Hrun; cbn [negb].
    + apply runs_bind. eapply runs_here; [exact Hcb|]. unfold set_dev. prog_step. prog_step.
      assert (Hr : running (others r (take (S k) l)) = running (others r (take k l)) ++ [(p, a)]).
      { rewrite Hoth. by apply filter_snoc_yes. }
      assert (Hlv : running_levels m (others r (take (S k) l)) = running_levels m (others r (take k l)) ++ [t]).
      { unfold running_levels. rewrite Hr, omap_app. simpl. by rewrite Hth. }
      assert (Htm : running_times m (others r (take (S k) l)) = running_times m (others r (take k l)) ++ [rs_next_cb_ts s0]).
      { unfold running_times. rewrite Hr, omap_app. simpl. by rewrite Hs0. }
      split; try done.
      * rewrite Hlv, foldr_min_snoc, <- H3. apply cmin_min.
      * rewrite Hlv, foldr_max_snoc, <- H4. apply cmax_max.
      * rewrite Htm. by apply earliest_snoc.
    + prog_step. assert (Hr : running (others r (take (S k) l)) = running (others r (take k l))).
      { rewrite Hoth. apply filter_snoc_no. simpl. by rewrite Hrun. }
      split; try done; unfold running_levels, running_times in *; by rewrite Hr.
Qed.
End Remove.

(** The time of the next callback, for a stream that is waiting to start. *)
Definition next_time_set (t : option timespec) (a : attached) (x : cras_rstream) : cras_rstream :=
  if ds_is_running (at_dev_stream a) then x else match t with Some t => set_rs_next_cb_ts t x | None => x end.

(** The loop that sets them. *)
Lemma set_times_spec (t : timespec) (l : list (Z * attached)) (m : gmap Z cras_rstream) (s : iodev_state hw) :
  NoDup ((fun e => at_stream e.2) <$> l) -> sv_rstreams (srv s) = m ->
  Forall (fun e => is_Some (m !! at_stream e.2)) l ->
  runs (each (fun e => if ds_is_running (at_dev_stream e.2) then ret tt else
                       let* x := find_rstream (at_stream e.2) in
                       put_rstream (at_stream e.2) (set_rs_next_cb_ts t x)) l) s
    (fun _ s' => dev s' = dev s /\ forall e, e ∈ l ->
       sv_rstreams (srv s') !! at_stream e.2 = next_time_set (Some t) e.2 <$> m !! at_stream e.2).
Proof.
  intros Hnd Hm Hall. unfold each.
  set (I := fun k (_ : unit) (s' : iodev_state hw) => dev s' = dev s /\ forall i e, l !! i = Some e ->
    sv_rstreams (srv s') !! at_stream e.2 =
      (if decide (i < k)%nat then next_time_set (Some t) e.2 else id) <$> m !! at_stream e.2).
  eapply runs_mono with (Q := I (0 + length l)%nat).
  2:{ intros [] s' [Hdev Hl]. split; [done|]. intros e [i Hi]%list_elem_of_lookup.
      rewrite (Hl i e Hi), decide_True; [done|]. by eapply lookup_lt_Some. }
  apply runs_fold; unfold I; clear I.
  { split; [done|]. intros i e _. rewrite decide_False, option_fmap_id by lia. by rewrite Hm. }
  intros k [p a] [] s1 Hk [Hdev Hl]. simpl in Hdev, Hl |- *. unfold next_time_set in *.
  pose proof (Hl k (p, a) Hk) as Hcur. simpl in Hcur. rewrite decide_False, option_fmap_id in Hcur by lia.
  assert (Hother : forall i e, l !! i = Some e -> i <> k -> at_stream e.2 <> at_stream a).
  { assert (Hget : forall j y, l !! j = Some y -> ((fun e => at_stream e.2) <$> l) !! j = Some (at_stream y.2)).
    { intros j y Hj. rewrite list_lookup_fmap.
      exact (f_equal (fmap (fun e => at_stream e.2)) Hj). }
    intros i e Hi Hne Heq. apply Hne. pose proof (Hget i e Hi) as Hi'. rewrite Heq in Hi'.
    exact (NoDup_lookup _ _ _ _ Hnd Hi' (Hget k (p, a) Hk)). }
  destruct (ds_is_running (at_dev_stream a)) eqn:Hrun.
  - prog_step. split; [done|]. intros i e Hi. rewrite (Hl i e Hi). destruct (decide (i = k)) as [->|Hne].
    + rewrite Hk in Hi. injection Hi as <-. rewrite decide_False, decide_True by lia. simpl. rewrite Hrun. done.
    + destruct (decide (i < k)%nat); [by rewrite decide_True by lia|by rewrite decide_False by lia].
  - destruct (Forall_lookup_1 _ _ _ _ Hall Hk) as [x Hx]. simpl in Hx. rewrite Hx in Hcur.
    unfold find_rstream, put_rstream, get_srv, set_srv. repeat prog_step.
    eapply runs_here; [exact Hcur|]. repeat prog_step. split; [done|]. intros i e Hi.
    change (sv_rstreams (srv _)) with (<[at_stream a := set_rs_next_cb_ts t x]> (sv_rstreams (srv s1))).
    destruct (decide (i = k)) as [->|Hne].
    + rewrite Hk in Hi. injection Hi as <-. simpl. rewrite lookup_insert_eq, Hx, decide_True by lia. simpl. by rewrite Hrun.
    + rewrite lookup_insert_ne by (intros Heq; by apply (Hother i e Hi Hne)). rewrite (Hl i e Hi).
      destruct (decide (i < k)%nat); [by rewrite decide_True by lia|by rewrite decide_False by lia].
Qed.

(** A stream's level does not depend on when its next callback is. *)
Lemma threshold_next_time (m m' : gmap Z cras_rstream) t (l : list (Z * attached)) :
  (forall e, e ∈ l -> m' !! at_stream e.2 = next_time_set t e.2 <$> m !! at_stream e.2) ->
  running_levels m' l = running_levels m l.
Proof.
  intros Hl. unfold running_levels. apply list_omap_ext, Forall_Forall2_diag, Forall_forall.
  intros e [Hrun He]%list_elem_of_filter. unfold threshold. rewrite (Hl e He).
  unfold next_time_set. rewrite Hrun. by destruct (m !! at_stream e.2).
Qed.

Lemma others_once (r : Z) (l : list (Z * attached)) :
  NoDup ((fun e => at_stream e.2) <$> l) -> NoDup ((fun e => at_stream e.2) <$> others r l).
Proof. intros Hnd. eapply sublist_NoDup; [exact Hnd|]. apply fmap_sublist, sublist_filter. Qed.

Lemma others_there (r : Z) (m : gmap Z cras_rstream) (l : list (Z * attached)) :
  streams_ok m l -> Forall (fun e => is_Some (m !! at_stream e.2)) (others r l).
Proof.
  intros [_ Hall]. apply Forall_forall. intros e [_ He]%list_elem_of_filter.
  rewrite Forall_forall in Hall. destruct (Hall e He) as [? Ht]. unfold threshold in Ht.
  apply bind_Some in Ht as (y & Hy & _). by eexists.
Qed.

(** What is left of a device's streams when [r] is taken out of them. *)
Record removed (r id half : Z) (l : list (Z * attached)) (m : gmap Z cras_rstream) (b : buffer_share)
    (found : option Z) (s : iodev_state hw) : Prop := {
  rmd_found : found = last (addrs (filter (fun e => at_stream e.2 = r) l));
  rmd_streams : io_streams (dev s) = others r l;
  rmd_levels : levels half (sv_rstreams (srv s)) (others r l) (dev s);
  rmd_buf : io_buf_state (dev s) =
    if decide (others r l = []) then None
    else Some (if decide (r ∈ (fun e => at_stream e.2) <$> l) then snd (buffer_share_rm_id b id) else b);
  rmd_times : exists t, earliest (running_times m (others r l)) t /\
    forall e, e ∈ others r l -> sv_rstreams (srv s) !! at_stream e.2 = next_time_set t e.2 <$> m !! at_stream e.2
}.

(** Claim C36: removing a stream from a device leaves its other streams in
    their order, takes the stream out of the device's shared buffer, sets the
    device's smallest and largest callback levels to those of the streams that
    run, the smallest no higher than half of the buffer, and lets the streams
    that wait to start have their next callback at the earliest time of the
    next callbacks of the running ones.  The device's own transition when its
    last stream is gone, which only an output device that runs has, is apart. *)
Theorem removing_a_stream (r id : Z) (b : buffer_share) (x : cras_rstream) (s : iodev_state hw) :
  let l := io_streams (dev s) in
  let m := sv_rstreams (srv s) in
  streams_ok m l -> NoDup ((fun e => at_stream e.2) <$> l) ->
  m !! r = Some x -> rs_stream_id x = id -> io_buf_state (dev s) = Some b ->
  (others r l <> [] \/ io_direction (dev s) <> CRAS_STREAM_OUTPUT \/ io_state (dev s) <> CRAS_IODEV_STATE_NORMAL_RUN) ->
  runs (cras_iodev_rm_stream r) s (removed r id (u32 (io_buffer_size (dev s) / 2)) l m b).
Proof.
  intros l m Hok Honce Hx Hid Hb Hlast. unfold cras_iodev_rm_stream, get_dev, set_dev. repeat prog_step.
  set (half := u32 (io_buffer_size (dev s) / 2)).
  eapply runs_step.
  { apply (runs_fold (removing r l m b half id (io_direction (dev s)) (io_state (dev s))) _ _ 0).
    - by constructor.
    - intros k [p a] c s1 Hk Hi. apply (removing_pass r l m b half id); try done.
      intros y Hy. congruence. }
  intros [found t] s1. rewrite Nat.add_0_l. intros [H1 H2 H3 H4 H5 [Hdir Hst] H6 H7].
  simpl in H5, H6. rewrite firstn_all in *. rewrite drop_all, app_nil_r in H1.
  prog_step. eapply runs_step with (Q := fun _ s2 => io_streams (dev s2) = others r l /\ sv_rstreams (srv s2) = m /\
    levels half m (others r l) (dev s2) /\ io_buf_state (dev s2) =
      if decide (others r l = []) then None else Some (if decide (gone r l (length l)) then snd (buffer_share_rm_id b id) else b)).
  { destruct (io_streams (dev s1)) as [|e l'] eqn:Hl1.
    - prog_step. apply runs_step with (Q := fun _ s2 => s2 = s1 <| dev ::= fun d => d <| io_buf_state := None |> <| io_min_cb_level := half |> |>).
      + replace (_ && _) with false; [by repeat prog_step|]. symmetry. apply andb_false_iff.
        destruct Hlast as [?|[?|?]]; [done|left; rewrite Hdir; by apply Z.eqb_neq|right; rewrite Hst; by apply bool_decide_eq_false].
      + intros _ s2 ->. prog_step. rewrite <- H1. split_and!; [exact Hl1|exact H2| |done].
        constructor; [done|]. rewrite H1. exact H4.
    - repeat prog_step. rewrite <- H1. split_and!; [exact Hl1|exact H2| |exact H7]. constructor; by rewrite H1. }
  intros _ s2 (Hs2 & Hm2 & Hlv2 & Hb2).
  assert (Hgone : gone r l (length l) <-> r ∈ (fun e => at_stream e.2) <$> l) by (unfold gone; by rewrite firstn_all).
  rewrite (decide_ext _ _ _ _ Hgone) in Hb2. destruct t as [t|]; cycle 1.
  { prog_step. split; [done|done|by rewrite Hm2|done|]. exists None. split; [done|]. intros e He. rewrite Hm2.
    unfold next_time_set. by destruct (ds_is_running (at_dev_stream e.2)), (m !! at_stream e.2). }
  pose proof (others_there r m l Hok) as Hthere.
  prog_step. rewrite Hs2. eapply runs_step; [by apply (set_times_spec t _ m); auto using others_once|].
  intros _ s3 [Hd3 Hm3]. prog_step. rewrite <- Hd3 in *. split; [done|done| |done|by exists (Some t)].
  destruct Hlv2 as [Hmin Hmax]. split; by rewrite (threshold_next_time m _ (Some t)).
Qed.
End Levels.

(** ** An example

    Three streams play on a silent device, the third of them still waits. *)
#[local] Existing Instances alsa_example speex_example.

Definition playback_of (id threshold : Z) (next : timespec) : cras_rstream :=
  {| rs_stream_id := id; rs_stream_type := 0; rs_client_type := 0;
     rs_direction := CRAS_STREAM_OUTPUT; rs_flags := 0; rs_fd := 5; rs_buffer_frames := 2 * threshold;
     rs_cb_threshold := threshold; rs_is_draining := 0; rs_master_dev := MasterDev 7 70; rs_client := 1;
     rs_shm := fresh_shm; rs_audio_area := cras_audio_area_create 2;
     rs_format := stereo_s16 48000; rs_next_cb_ts := next; rs_sleep_interval_ts := Timespec 0 10000000;
     rs_last_fetch_ts := Timespec 0 0; rs_longest_fetch_interval := Timespec 0 0;
     rs_start_ts := Timespec 0 0; rs_first_missed_cb_ts := Timespec 0 0;
     rs_buf_state := buffer_share_create (2 * threshold);
     rs_apm_list := 0; rs_num_attached_devs := 1; rs_num_missed_cb := 0; rs_queued_frames := 0;
     rs_is_pinned := false; rs_pinned_dev_idx := 0; rs_triggered := 0 |}.

Definition attached_plain (running : bool) : dev_stream :=
  DevStream 9 None (ByteBuffer 0 0 0 16 16 (replicate 16 0)) (cras_audio_area_create 2) 4 48000 running.

Definition three_streams (s : iodev_state empty_iodev) : iodev_state empty_iodev :=
  s <| dev ::= fun d => d <| io_streams := [(10, Attached 1 (attached_plain true)); (11, Attached 2 (attached_plain true));
                                           (12, Attached 3 (attached_plain false))] |>
                          <| io_buf_state := Some (buffer_share_create 480) |> <| io_buffer_size := 4800 |> |>
    <| srv ::= fun v => v <| sv_rstreams := {[1 := playback_of 65537 480 (Timespec 3 0);
                                              2 := playback_of 65538 240 (Timespec 2 0);
                                              3 := playback_of 65539 960 (Timespec 1 0)]} |> |>.

Lemma removing_a_stream_witness :
  exists s s' found, silent_playback = Some s /\
    cras_iodev_rm_stream (V := empty_driver 100) 2 (three_streams s) = Some (found, s') /\
    found = Some 11 /\ io_min_cb_level (dev s') = 480 /\
    (rs_next_cb_ts <$> sv_rstreams (srv s') !! 3) = Some (Timespec 3 0).
Proof.
  assert (Hex : is_Some silent_playback) by (vm_compute; by eexists).
  destruct Hex as [s Hs]. exists s.
  assert (Hok : runs (cras_iodev_rm_stream (V := empty_driver 100) 2) (three_streams s)
    (removed 2 65538 2400 (io_streams (dev (three_streams s))) (sv_rstreams (srv (three_streams s))) (buffer_share_create 480))).
  { apply (removing_a_stream 2 65538 (buffer_share_create 480) (playback_of 65538 240 (Timespec 2 0)) (three_streams s)); try reflexivity.
    - split; [cbn; apply NoDup_ListNoDup; repeat constructor; simpl; lia|].
      repeat (apply Forall_cons; split; [vm_compute; by eexists|]). by apply Forall_nil.
    - cbn. apply NoDup_ListNoDup. repeat constructor; simpl; lia.
    - left. by vm_compute. }
  apply runs_Some in Hok as (found & s' & Hrun & [Hf Hstr Hlv Hb [t [Ht Hm]]]). exists s', found.
  split; [exact Hs|]. split; [exact Hrun|]. split; [exact Hf|].
  pose proof (Hm (10, Attached 1 (attached_plain true)) ltac:(by vm_compute; left)) as H1.
  pose proof (Hm (12, Attached 3 (attached_plain false)) ltac:(by vm_compute; right; left)) as H3.
  destruct t as [t|]; [|discriminate Ht]. destruct Ht as [Ht _].
  apply list_elem_of_singleton in Ht. subst t. split; [|simpl in H3; by rewrite H3].
  destruct Hlv as [Hmin _]. rewrite Hmin. change (others _ _) with [(10, Attached 1 (attached_plain true)); (12, Attached 3 (attached_plain false))].
  unfold running_levels, threshold, running. simpl in H1 |- *. rewrite H1. reflexivity.
Defined.
