(* ===== verification/Thread.v ===== *)
(** * The audio thread's devices and streams

    server/dev_io.c works on the lists of open devices, on the devices and
    streams they lead to, on the sockets of clients and on the clock.  The
    state of that, the programs over it, and how an operation on one device
    is run in it. *)
From coqutil Require Import Datatypes.RecordSetters.
From S2P Require Import Prelude Prog Types DList Timespec Timers BufferShare AudioFormat.
From S2P Require Import FmtConv Rstream DevStream InputData Iodev.
Import TriangleBracketNotations.
#[local] Open Scope Z_scope.
#[local] Open Scope prog_scope.

(** A device is known by its address. *)
Record open_dev : Type := OpenDev {
  od_dev : Z;
  od_last_wake : timespec;
  od_longest_wake : timespec;
  od_wake_ts : timespec;
  od_non_empty_check_pi : option polled_interval;
  od_empty_pi : option polled_interval;
  od_coarse_rate_adjust : Z
}.

(** What leaves the thread: messages to the clients' sockets, to the main
    thread and to the collector of metrics. *)
Inductive thread_event : Type :=
| ToClient (stream : Z) (msgs : list audio_message)
| NonEmptyAudio (non_empty : bool)
| NumUnderruns (n : Z)
| HighestDeviceDelay (hw_level largest_cb_level direction : Z)
| HighestHwLevel (hw_level direction : Z)
| LongestFetchDelay (msec : Z)
| DropSamples.

(** What the thread meets: the clock, what clients have sent and whether they
    can be written to, and what the allocators and the main thread's queue
    give.  Every look at it is one later. *)
Class surroundings : Type := {
  clock : nat -> timespec;
  client_turns : nat -> list poll_turn;
  client_write : nat -> Z;
  fresh_slots : nat -> nat -> id_offset;
  stream_env : nat -> dev_stream_env;
  fresh_address : nat -> Z;
  reset_sent : nat -> Z;
  (** The format that processing a stream's samples ends in, if there is any. *)
  post_processing_format : Z -> Z -> option cras_audio_format
}.

(** Which of the two lists of open devices. *)
Inductive side : Type := Playback | Capture.

Section Thread.
Context {P : pcm_library} {L : speex_library} {RE : rate_library} {D : dsp_service} {AP : apm_service}.
Context {hw : Type} {W : surroundings}.

Record thread : Type := Thread {
  th_devs : gmap Z (cras_iodev hw);
  th_srv : server;
  th_odevs : dlist open_dev;
  th_idevs : dlist open_dev;
  th_non_empty_device_count : Z;
  th_pic_now : timespec;
  th_looks : nat;
  th_sent : list thread_event
}.

Definition thread_prog : Type -> Type := prog thread.

Definition set_thread (f : thread -> thread) : thread_prog unit := modify f.

(** A look at the surroundings. *)
Definition look {A} (f : nat -> A) : thread_prog A :=
  let* s := gets id in set_thread (fun s => s <| th_looks ::= S |>) ;; ret (f (th_looks s)).

Definition clock_gettime : thread_prog timespec := look clock.

Definition send (e : thread_event) : thread_prog unit := set_thread (fun s => s <| th_sent ::= fun l => l ++ [e] |>).

(** ** Devices and streams *)

Definition put_iodev (k : Z) (t : iodev_state hw) (s : thread) : thread :=
  s <| th_devs ::= insert k (dev t) |> <| th_srv := srv t |>.

(** Runs an operation of the device at [k]; [None] when there is none. *)
Definition on_dev {A} (k : Z) (m : iodev_prog A) : thread_prog A := fun s =>
  match th_devs s !! k with
  | Some d => match m (IodevState d (th_srv s)) with
              | Some (a, t) => Some (a, put_iodev k t s)
              | None => None
              end
  | None => None
  end.

Definition the_iodev (k : Z) : thread_prog (cras_iodev hw) :=
  let* s := gets id in here (th_devs s !! k).

Definition the_stream (p : Z) : thread_prog cras_rstream :=
  let* s := gets id in here (sv_rstreams (th_srv s) !! p).

Definition put_stream (p : Z) (r : cras_rstream) : thread_prog unit :=
  set_thread (fun s => s <| th_srv ::= fun v => v <| sv_rstreams ::= insert p r |> |>).

(** The stream at [p] of the device at [k]. *)
Definition the_attached (k p : Z) : thread_prog attached :=
  let* d := the_iodev k in here (dl_find (io_streams d) p).

Definition put_dev_stream (k p : Z) (ds : dev_stream) : thread_prog unit :=
  on_dev k (let* d := get_dev in
            let* l := here (dl_update (io_streams d) p (fun a => Attached (at_stream a) ds)) in
            set_dev (fun d => d <| io_streams := l |>)).

(** Reads what a client has sent to a stream. *)
Definition flush_old_audio_messages (p : Z) : thread_prog unit :=
  let* s := the_stream p in
  let* turns := look client_turns in
  let* s := here (dev_stream_flush_old_audio_messages s turns) in put_stream p s.

(** ** Open devices *)

Definition open_devs (i : side) : thread_prog (dlist open_dev) :=
  gets (fun s => match i with Playback => th_odevs s | Capture => th_idevs s end).

Definition put_open_devs (i : side) (l : dlist open_dev) : thread_prog unit :=
  set_thread (fun s => match i with Playback => s <| th_odevs := l |> | Capture => s <| th_idevs := l |> end).

Definition the_open_dev (i : side) (p : Z) : thread_prog open_dev :=
  let* l := open_devs i in here (dl_find l p).

Definition set_open_dev (i : side) (p : Z) (f : open_dev -> open_dev) : thread_prog unit :=
  let* l := open_devs i in let* l := here (dl_update l p f) in put_open_devs i l.

(** [DL_FOREACH] over a list of open devices or over a device's streams: the
    list is walked by address, the next one being taken before the body runs.
    The bodies take nothing but the element they are at out of the list. *)
Definition for_each_open_dev (i : side) (body : Z -> thread_prog unit) : thread_prog unit :=
  let* l := open_devs i in each body (addrs l).

Definition for_each_stream {A} (k : Z) (body : Z -> A -> thread_prog A) (a : A) : thread_prog A :=
  let* d := the_iodev k in fold_prog body (addrs (io_streams d)) a.

Definition each_stream (k : Z) (body : Z -> thread_prog unit) : thread_prog unit :=
  for_each_stream k (fun p _ => body p) tt.

(** [malloc] gives no address that is in use. *)
Definition in_use (s : thread) (p : Z) : bool :=
  existsb (fun e => bool_decide (p ∈ addrs (io_streams e.2))) (map_to_list (th_devs s)).

Definition malloc : thread_prog Z :=
  let* p := look fresh_address in
  let* s := gets id in
  here (if in_use s p then None else Some p).

(** ** What the thread's own steps respect *)
Section Reads.
Context (R : thread -> thread -> Prop) {HR : PreOrder R}.

Lemma respects_the_iodev k : respects R (the_iodev k).
Proof using HR. unfold the_iodev. respect. Qed.
Lemma respects_the_stream r : respects R (the_stream r).
Proof using HR. unfold the_stream. respect. Qed.
Lemma respects_the_attached k p : respects R (the_attached k p).
Proof using HR. pose proof respects_the_iodev. unfold the_attached. respect. Qed.
Lemma respects_open_devs i : respects R (open_devs i).
Proof using HR. unfold open_devs. respect. Qed.
Lemma respects_the_open_dev i q : respects R (the_open_dev i q).
Proof using HR. pose proof respects_open_devs. unfold the_open_dev. respect. Qed.

Lemma respects_for_each_open_dev i body : (forall q, respects R (body q)) -> respects R (for_each_open_dev i body).
Proof using HR. intros Hb. pose proof respects_open_devs. unfold for_each_open_dev, each. respect; auto. Qed.
Lemma respects_for_each_stream {A} k (body : Z -> A -> thread_prog A) a :
  (forall p a, respects R (body p a)) -> respects R (for_each_stream k body a).
Proof using HR. intros Hb. pose proof respects_the_iodev. unfold for_each_stream. respect; auto. Qed.
Lemma respects_each_stream k body : (forall p, respects R (body p)) -> respects R (each_stream k body).
Proof using HR. intros Hb. by apply respects_for_each_stream. Qed.
End Reads.

(** ** Running an operation of one device *)

Lemma runs_on_dev {A} (k : Z) (m : iodev_prog A) (d : cras_iodev hw) (s : thread) (Q : A -> thread -> Prop) :
  th_devs s !! k = Some d -> runs m (IodevState d (th_srv s)) (fun a t => Q a (put_iodev k t s)) ->
  runs (on_dev k m) s Q.
Proof.
  unfold runs, on_dev. intros ->. by destruct (m _) as [[a t]|].
Qed.

Lemma yields_on_dev {A} (k : Z) (m : iodev_prog A) (s : thread) (Q : A -> thread -> Prop) :
  (forall d, th_devs s !! k = Some d -> yields m (IodevState d (th_srv s)) (fun a t => Q a (put_iodev k t s))) ->
  yields (on_dev k m) s Q.
Proof.
  unfold yields, on_dev. destruct (th_devs s !! k) as [d|]; [|done]. intros H. specialize (H d eq_refl).
  by destruct (m _) as [[a t]|].
Qed.
End Thread.
#[global] Arguments thread {L RE D AP} hw.

#[export] Hint Extern 1 (respects ?R (the_iodev _)) => apply (respects_the_iodev R) : respects.
#[export] Hint Extern 1 (respects ?R (the_stream _)) => apply (respects_the_stream R) : respects.
#[export] Hint Extern 1 (respects ?R (the_attached _ _)) => apply (respects_the_attached R) : respects.
#[export] Hint Extern 1 (respects ?R (open_devs _)) => apply (respects_open_devs R) : respects.
#[export] Hint Extern 1 (respects ?R (the_open_dev _ _)) => apply (respects_the_open_dev R) : respects.

(** Goes through the steps of one of the thread's programs. *)
Ltac respect_thread :=
  repeat first
    [ progress respect
    | match goal with
      | |- respects ?R (for_each_open_dev _ _) => apply (respects_for_each_open_dev R)
      | |- respects ?R (for_each_stream _ _ _) => apply (respects_for_each_stream R)
      | |- respects ?R (each_stream _ _) => apply (respects_each_stream R)
      end
    | progress cbv zeta ].
