(* ===== verification/DevIoPlayback.v ===== *)
(** * Playback (server/dev_io.c)

    Asking clients for samples, mixing what they gave into the buffers of the
    output devices, and the device's next wake-up.  The loops that ask a
    driver for its buffer have fuel. *)
From coqutil Require Import Datatypes.RecordSetters.
From S2P Require Import Prelude Prog Float32 Types DList Timespec Timers BufferShare Shm AudioFormat Mix AudioArea.
From S2P Require Import FmtConv Rstream DevStream InputData Iodev IodevOutput Thread.
Import TriangleBracketNotations.
#[local] Open Scope Z_scope.
#[local] Open Scope prog_scope.

Definition playback_wake_fuzz_ts : timespec := Timespec 0 500000.
Definition NON_EMPTY_UPDATE_INTERVAL_SEC : Z := 5.
Definition MIN_EMPTY_PERIOD_SEC : Z := 30.

Definition dev_stream_next_cb_ts (s : cras_rstream) : option timespec :=
  if has_flag (rs_flags s) USE_DEV_TIMING then None else Some (rs_next_cb_ts s).

(** The time is the caller's copy. *)
Definition is_time_to_fetch (s : cras_rstream) (now : timespec) : option bool :=
  match dev_stream_next_cb_ts s with
  | None => Some false
  | Some next_cb_ts => now ← add_timespecs now playback_wake_fuzz_ts; Some (timespec_after now next_cb_ts)
  end.

Section Playback.
Context {P : pcm_library} {L : speex_library} {RE : rate_library} {D : dsp_service} {AP : apm_service}.
Context {hw : Type} {H : iodev_hw (hw := hw)} {X : iodev_xrun (hw := hw)} {V : iodev_driver (hw := hw)} {W : surroundings}.
Context (fuel : nat).
#[local] Abbreviation thread_prog := (thread_prog (hw := hw)).

(** ** Rates *)

Definition get_master_dev (s : cras_rstream) : Z := md_dev_ptr (rs_master_dev s).

(** A stream without a master is passed over. *)
Definition update_estimated_rate (i : side) (adev : Z) : thread_prog unit :=
  let* a := the_open_dev i adev in
  each_stream (od_dev a) (fun p =>
    let* e := the_attached (od_dev a) p in
    let* s := the_stream (at_stream e) in
    if get_master_dev s =? 0 then ret tt else
    let* dev := the_iodev (od_dev a) in
    let* master_dev := the_iodev (get_master_dev s) in
    let* fmt := here (io_format dev) in
    let* ratio := here (cras_iodev_get_est_rate_ratio dev) in
    let* master_ratio := here (cras_iodev_get_est_rate_ratio master_dev) in
    let* (ds, s) := here (dev_stream_set_dev_rate (at_dev_stream e) s (frame_rate fmt) ratio master_ratio
                            (od_coarse_rate_adjust a)) in
    put_dev_stream (od_dev a) p ds ;; put_stream (at_stream e) s).

(** ** Devices that play only silence *)

Definition is_non_empty (now : timespec) (a : open_dev) : bool :=
  match od_empty_pi a with None => true | Some pi => negb (pic_interval_elapsed now pi) end.

Definition count_non_empty_dev (now : timespec) (adevs : dlist open_dev) : Z :=
  foldl (fun count e => if is_non_empty now e.2 then count + 1 else count) 0 adevs.

Definition check_non_empty_state_transition (i : side) : thread_prog unit :=
  let* adevs := open_devs i in
  let* s := gets id in
  let new_count := count_non_empty_dev (th_pic_now s) adevs in
  (if Bool.eqb (th_non_empty_device_count s =? 0) (new_count =? 0) then ret tt
   else send (NonEmptyAudio (new_count >? 0))) ;;
  set_thread (fun s => s <| th_non_empty_device_count := new_count |>).

(** ** Asking for samples *)

Definition request_playback_samples (r : Z) (now : timespec) : thread_prog Z :=
  let* s := the_stream r in
  let* t1 := clock_gettime in
  let* t2 := clock_gettime in
  let* w := look client_write in
  let* (rc, msgs, s) := here (dev_stream_request_playback_samples now t1 t2 w s) in
  put_stream r s ;; send (ToClient r msgs) ;; ret rc.

Definition set_delay (k p : Z) (delay : Z) : thread_prog unit :=
  let* e := the_attached k p in
  let* s := the_stream (at_stream e) in
  let* now := clock_gettime in
  let* s := here (dev_stream_set_delay (at_dev_stream e) now delay s) in put_stream (at_stream e) s.

(** One stream of [fetch_streams], from the test whether it runs on. *)
Definition fetch_running (k p delay : Z) (now : timespec) : thread_prog unit :=
  let* e := the_attached k p in
  let r := at_stream e in
  if negb (ds_is_running (at_dev_stream e)) then ret tt else
  let* s := the_stream r in
  let* due := here (is_time_to_fetch s now) in
  if negb due then ret tt else
  let* n := here (cras_shm_get_frames (rs_shm s)) in
  (if n <? 0 then put_stream r (cras_rstream_set_is_draining s 1) else ret tt) ;;
  let* s := the_stream r in
  if negb (cras_rstream_get_is_draining s =? 0) then ret tt
  else if negb (cras_rstream_is_pending_reply s =? 0) then ret tt
  else if negb (cras_shm_is_buffer_available (rs_shm s)) then
    let* t1 := clock_gettime in
    let* t2 := clock_gettime in
    let* s := here (dev_stream_update_next_wake_time t1 t2 s) in put_stream r s
  else
    set_delay k p delay ;;
    let* rc := request_playback_samples r now in
    if rc <? 0 then let* s := the_stream r in put_stream r (cras_rstream_set_is_draining s 1) else ret tt.

Definition fetch_stream (k delay p : Z) : thread_prog unit :=
  let* e := the_attached k p in
  let r := at_stream e in
  let* now := clock_gettime in
  let* s := the_stream r in
  (if negb (dev_stream_is_pending_reply s =? 0) then
     flush_old_audio_messages r ;;
     let* s := the_stream r in put_stream r (cras_rstream_record_fetch_interval s now)
   else ret tt) ;;
  fetch_running k p delay now.

Definition fetch_streams (k : Z) : thread_prog Z :=
  let* delay := on_dev k cras_iodev_delay_frames in
  if delay <? 0 then ret delay else each_stream k (fetch_stream k delay) ;; ret 0.

Definition dev_io_check_dev_stream_start (k : Z) : thread_prog unit :=
  let* now := clock_gettime in
  each_stream k (fun p =>
    let* e := the_attached k p in
    let* s := the_stream (at_stream e) in
    let* due := here (is_time_to_fetch s now) in
    if negb due then ret tt
    else if ds_is_running (at_dev_stream e) then ret tt
    else let* fresh := look fresh_slots in on_dev k (cras_iodev_start_stream fresh p)).

Definition if_open (i : side) (adev : Z) (body : Z -> thread_prog unit) : thread_prog unit :=
  let* a := the_open_dev i adev in
  let* d := the_iodev (od_dev a) in
  if cras_iodev_is_open d then body (od_dev a) else ret tt.

Definition dev_io_playback_fetch : thread_prog unit :=
  for_each_open_dev Playback (fun adev => if_open Playback adev dev_io_check_dev_stream_start) ;;
  for_each_open_dev Playback (fun adev => if_open Playback adev (fun k => let* _ := fetch_streams k in ret tt)).

(** ** Taking streams and devices away *)

Definition destroy_dev_stream (e : attached) : thread_prog unit :=
  let* s := the_stream (at_stream e) in put_stream (at_stream e) (dev_stream_destroy (at_dev_stream e) s).

Definition delete_stream_from_dev (k stream : Z) : thread_prog unit :=
  let* d := the_iodev k in
  let* out := on_dev k (cras_iodev_rm_stream stream) in
  match out with
  | Some p => let* e := here (dl_find (io_streams d) p) in destroy_dev_stream e
  | None => ret tt
  end.

(** [dev] is [None] for all open devices of the list. *)
Definition dev_io_remove_stream (i : side) (stream : Z) (dev : option Z) : thread_prog unit :=
  let* s := the_stream stream in
  (if timespec_after (rs_longest_fetch_interval s) (rs_sleep_interval_ts s) then
     let delay := subtract_timespecs (rs_longest_fetch_interval s) (rs_sleep_interval_ts s) in
     let msec := u32 (tv_sec delay * 1000 + Z.quot (tv_nsec delay) 1000000) in
     if negb (msec =? 0) then send (LongestFetchDelay msec) else ret tt
   else ret tt) ;;
  match dev with
  | None => for_each_open_dev i (fun q => let* a := the_open_dev i q in delete_stream_from_dev (od_dev a) stream)
  | Some k => delete_stream_from_dev k stream
  end.

Definition dev_io_rm_open_dev (i : side) (dev_to_rm : Z) : thread_prog unit :=
  let* l := open_devs i in
  match dl_find l dev_to_rm with
  | None => ret tt
  | Some a =>
      let* l := here (dl_delete l dev_to_rm) in
      put_open_devs i l ;;
      let* d := the_iodev (od_dev a) in
      send (NumUnderruns (cras_iodev_get_num_underruns d)) ;;
      (if io_largest_cb_level d =? 0 then ret tt
       else send (HighestDeviceDelay (io_highest_hw_level d) (io_largest_cb_level d) (io_direction d))) ;;
      send (HighestHwLevel (io_highest_hw_level d) (io_direction d)) ;;
      check_non_empty_state_transition i ;;
      each_stream (od_dev a) (fun p =>
        let* e := the_attached (od_dev a) p in
        let* _ := on_dev (od_dev a) (cras_iodev_rm_stream (at_stream e)) in
        destroy_dev_stream e)
  end.

Definition handle_dev_err (err_rc : Z) (i : side) (adev : Z) : thread_prog unit :=
  (if err_rc =? - EPIPE then
     let* a := the_open_dev i adev in
     let* sent := look reset_sent in
     let* _ := on_dev (od_dev a) (cras_iodev_reset_request sent) in ret tt
   else ret tt) ;;
  dev_io_rm_open_dev i adev.

(** ** Mixing *)

(** What the first loop of [write_streams] counts. *)
Record limits : Type := Limits { lm_write : Z; lm_drain : Z; lm_playing : Z }.

(** [dev_frames] is converted to [size_t], the drain limit is an [unsigned]. *)
Definition limit_stream (i : side) (k p : Z) (c : limits) : thread_prog limits :=
  let* e := the_attached k p in
  if negb (ds_is_running (at_dev_stream e)) then ret c else
  let r := at_stream e in
  let* s := the_stream r in
  (if dev_stream_attached_devs s =? 1 then
     let* s := here (dev_stream_update_frames s) in put_stream r s
   else ret tt) ;;
  let* s := the_stream r in
  let* dev_frames := here (dev_stream_playback_frames (at_dev_stream e) s) in
  if dev_frames <? 0 then dev_io_remove_stream i r None ;; ret c
  else if negb (cras_rstream_get_is_draining s =? 0) then
    (if dev_frames =? 0 then dev_io_remove_stream i r None else ret tt) ;;
    ret (Limits (lm_write c) (u32 (cmin dev_frames (lm_drain c))) (lm_playing c))
  else ret (Limits (cmin dev_frames (lm_write c)) (lm_drain c) (u32 (lm_playing c + 1))).

(** [dst] is an address in the device's memory. *)
Definition mix_stream (i : side) (k dst write_limit frame_bytes p : Z) : thread_prog unit :=
  let* e := the_attached k p in
  if negb (ds_is_running (at_dev_stream e)) then ret tt else
  let r := at_stream e in
  let* s := the_stream r in
  let* d := the_iodev k in
  let* offset := here (cras_iodev_stream_offset s d) in
  if offset >=? write_limit then ret tt else
  let* fmt := here (io_format d) in
  let at_ := dst + u32 (frame_bytes * offset) in
  let* (nwritten, ds, s, m) := here (dev_stream_mix fuel (at_dev_stream e) s fmt (from_ptr (io_mem d) at_)
                                       (u32 (write_limit - offset))) in
  put_dev_stream k p ds ;; put_stream r s ;;
  on_dev k (set_dev (fun d => d <| io_mem := set_from_ptr (io_mem d) at_ m |>)) ;;
  if nwritten <? 0 then dev_io_remove_stream i r None
  else on_dev k (cras_iodev_stream_written s (u32 nwritten)).

Definition write_streams (i : side) (k dst write_limit : Z) : thread_prog Z :=
  let* d := the_iodev k in
  let* fmt := here (io_format d) in
  let frame_bytes := u32 (cras_get_format_bytes fmt) in
  let* max_offset := on_dev k cras_iodev_max_stream_offset in
  let* c := for_each_stream k (limit_stream i k) (Limits write_limit (u32 write_limit) 0) in
  let write_limit := if lm_playing c =? 0 then lm_drain c else lm_write c in
  (if write_limit >? max_offset then
     on_dev k (on_mem (fun m => memset0 m (dst + u32 (max_offset * frame_bytes))
                                  (u64 ((write_limit - max_offset) * frame_bytes))))
   else ret tt) ;;
  each_stream k (mix_stream i k dst write_limit frame_bytes) ;;
  let* n := on_dev k cras_iodev_all_streams_written in
  ret (s32 n).

(** ** Writing to a device *)

Definition update_dev_wakeup_time (i : side) (adev : Z) : thread_prog Z :=
  let* a := the_open_dev i adev in
  let k := od_dev a in
  let* now := clock_gettime in
  let* (nframes, hw_level, wake_ts) := on_dev k cras_iodev_frames_to_play_in_sleep in
  let wake_ts := if timespec_is_nonzero (Some wake_ts) then wake_ts else now in
  let* d := the_iodev k in
  (if bool_decide (cras_iodev_state d = CRAS_IODEV_STATE_NORMAL_RUN)
   then on_dev k (cras_iodev_update_highest_hw_level hw_level) else ret tt) ;;
  let* d := the_iodev k in
  let* fmt := here (io_format d) in
  let* ratio := here (cras_iodev_get_est_rate_ratio d) in
  let* sleep_time := here (cras_frames_to_time_precise nframes (f64_mul (f64_of_Z (frame_rate fmt)) ratio)) in
  let* wake_ts := here (add_timespecs wake_ts sleep_time) in
  set_open_dev i adev (fun a => a <| od_wake_ts := wake_ts |>) ;;
  ret hw_level.

(** The rate is adjusted by the level; the streams get the new estimate. *)
Definition adjust_rate (i : side) (adev hw_level : Z) (hw_tstamp : timespec) : thread_prog unit :=
  if negb (timespec_is_nonzero (Some hw_tstamp)) then ret tt else
  let* a := the_open_dev i adev in
  let* d := the_iodev (od_dev a) in
  set_open_dev i adev (fun a => a <| od_coarse_rate_adjust :=
    if hw_level <? io_min_cb_level d / 2 then 1
    else if hw_level >? u32 (io_max_cb_level d * 2) then -1 else 0 |>) ;;
  let* rc := on_dev (od_dev a) (cras_iodev_update_rate hw_level hw_tstamp) in
  if negb (rc =? 0) then update_estimated_rate i adev else ret tt.

(** Whether the samples are to be looked at, and the device is to start an
    interval between two looks. *)
Definition check_for_emptiness (i : side) (adev : Z) (asked : bool) : thread_prog bool :=
  let* s := gets id in
  let now := th_pic_now s in
  set_open_dev i adev (fun a => a <| od_non_empty_check_pi ::= fun pi =>
    Some (default (pic_polled_interval_create now NON_EMPTY_UPDATE_INTERVAL_SEC) pi) |>) ;;
  let* a := the_open_dev i adev in
  let* pi := here (od_non_empty_check_pi a) in
  if bool_decide (is_Some (od_empty_pi a)) || pic_interval_elapsed now pi then
    set_open_dev i adev (fun a => a <| od_non_empty_check_pi := Some (pic_interval_reset now pi) |>) ;; ret true
  else ret asked.

Definition update_empty_period (i : side) (adev : Z) (asked non_empty : bool) : thread_prog unit :=
  let* s := gets id in
  (if non_empty then set_open_dev i adev (fun a => a <| od_empty_pi := None |>) else ret tt) ;;
  let* a := the_open_dev i adev in
  if asked && negb non_empty && bool_decide (od_empty_pi a = None)
  then set_open_dev i adev (fun a => a <| od_empty_pi :=
         Some (pic_polled_interval_create (th_pic_now s) MIN_EMPTY_PERIOD_SEC) |>)
  else ret tt.

(** The loop of [write_output_samples]; [asked] and [non_empty] are the
    variables of the caller. *)
Fixpoint write_samples_loop (n : nat) (i : side) (adev : Z) (conv : option cras_fmt_conv)
    (fr_to_req total_written : Z) (asked non_empty : bool) : thread_prog Z :=
  if negb (total_written <? fr_to_req) then ret (s32 total_written) else
  match n with
  | O => here None
  | S n =>
      let* a := the_open_dev i adev in
      let k := od_dev a in
      let* (rc, area, nframes) := on_dev k (cras_iodev_get_output_buffer (u32 (fr_to_req - total_written))) in
      if rc <? 0 then ret rc else
      let* area := here area in
      let* ch := here (head (channels area)) in
      let dst := buf ch in
      let* written := write_streams i k dst nframes in
      if written <? 0 then ret written else
      let fr_to_req := if written <? nframes then 0 else fr_to_req in
      let* asked := check_for_emptiness i adev asked in
      let* (rc, heard) := on_dev k (cras_iodev_put_output_buffer dst (u32 written) asked conv) in
      let non_empty := non_empty || heard in
      if rc <? 0 then ret rc else
      update_empty_period i adev asked non_empty ;;
      write_samples_loop n i adev conv fr_to_req (total_written + written) asked non_empty
  end.

Definition write_output_samples (i : side) (adev : Z) (conv : option cras_fmt_conv) : thread_prog Z :=
  let* a := the_open_dev i adev in
  let k := od_dev a in
  let* rc := on_dev k (cras_iodev_prepare_output_before_write_samples fuel) in
  if rc <? 0 then ret rc else
  let* d := the_iodev k in
  if negb (bool_decide (cras_iodev_state d = CRAS_IODEV_STATE_NORMAL_RUN)) then ret 0 else
  let* (rc, hw_tstamp) := on_dev k cras_iodev_frames_queued in
  if rc <? 0 then ret rc else
  let hw_level := rc in
  adjust_rate i adev hw_level hw_tstamp ;;
  let* d := the_iodev k in
  write_samples_loop fuel i adev conv (u32 (cras_iodev_buffer_avail d hw_level)) 0 false false.

(** What follows a device's writing. *)
Definition after_writing (i : side) (adev total_written : Z) : thread_prog unit :=
  let* a := the_open_dev i adev in
  let* wake := on_dev (od_dev a) cras_iodev_odev_should_wake in
  if negb wake then ret tt else
  let* hw_level := update_dev_wakeup_time i adev in
  if negb (hw_level <=? total_written) then ret tt else
  let* rc := on_dev (od_dev a) (cras_iodev_output_underrun fuel) in
  if rc <? 0 then handle_dev_err rc i adev else let* _ := update_dev_wakeup_time i adev in ret tt.

Definition dev_io_playback_write (conv : option cras_fmt_conv) : thread_prog unit :=
  let i := Playback in
  let* l := open_devs i in
  (match l with
   | _ :: _ :: _ => for_each_open_dev i (fun q =>
       let* a := the_open_dev i q in
       each_stream (od_dev a) (fun p =>
         let* e := the_attached (od_dev a) p in
         let* s := the_stream (at_stream e) in
         let* s := here (dev_stream_update_frames s) in put_stream (at_stream e) s))
   | _ => ret tt
   end) ;;
  for_each_open_dev i (fun q => if_open i q (fun _ =>
    let* rc := write_output_samples i q conv in
    if rc <? 0 then handle_dev_err rc i q else after_writing i q (u32 rc))) ;;
  for_each_open_dev i (fun q => if_open i q (fun k =>
    each_stream k (fun p =>
      let* e := the_attached k p in
      let* s := the_stream (at_stream e) in
      put_stream (at_stream e) (dev_stream_playback_update_rstream s)))).
End Playback.
