(* ===== verification/DevIoCapture.v ===== *)
(** * Capture (server/dev_io.c)

    Reading the input devices into the streams that have room, telling the
    clients, the next wake-up of an input device, and dropping frames when the
    devices have too many. *)
From coqutil Require Import Datatypes.RecordSetters.
From S2P Require Import Prelude Prog Float32 Types DList Timespec Timers BufferShare Shm AudioFormat Mix AudioArea.
From S2P Require Import FmtConv Rstream DevStream InputData Iodev IodevOutput Volume IodevOpen Thread DevIoPlayback.
Import TriangleBracketNotations.
#[local] Open Scope Z_scope.
#[local] Open Scope prog_scope.

Definition DROP_FRAMES_THRESHOLD_MS : Z := 50.
(** 5 ms. *)
Definition min_input_dev_wake_ts : timespec := Timespec 0 5000000.
Definition UINT_MAX : Z := 4294967295.

(** A list of addresses from one on. *)
Fixpoint from_address (q : Z) (l : list Z) : list Z :=
  match l with
  | [] => []
  | x :: l' => if x =? q then l else from_address q l'
  end.

Section Capture.
Context {P : pcm_library} {L : speex_library} {RE : rate_library} {D : dsp_service} {AP : apm_service}.
Context {hw : Type} {H : iodev_hw (hw := hw)} {X : iodev_xrun (hw := hw)} {V : iodev_driver (hw := hw)} {W : surroundings}.
Context (fuel : nat).
#[local] Abbreviation thread_prog := (thread_prog (hw := hw)).
#[local] Abbreviation cras_iodev := (cras_iodev hw).

(** ** What the streams have room for *)

(** The frames, and the stream whose room is the least when it limits them. *)
Definition limit_by_stream (k p : Z) (c : Z * option Z) : thread_prog (Z * option Z) :=
  let '(write_limit, limit_stream) := c in
  let* e := the_attached k p in
  let* s := the_stream (at_stream e) in
  if has_flag (rs_flags s) TRIGGER_ONLY then ret c else
  let* (_, shm) := here (cras_shm_check_write_overrun (rs_shm s)) in
  let s := set_rs_shm shm s in
  put_stream (at_stream e) s ;;
  let* avail := here (dev_stream_capture_avail (at_dev_stream e) s) in
  ret (if avail <? write_limit then (avail, Some p) else c).

Definition get_stream_limit (k write_limit : Z) : thread_prog (Z * option Z) :=
  for_each_stream k (limit_by_stream k) (write_limit, None).

(** An error ends the loop; the largest delay is carried. *)
Definition input_delay_pass (i : side) (q : Z) (c : Z) : thread_prog Z :=
  if c <? 0 then ret c else
  let* a := the_open_dev i q in
  let* d := the_iodev (od_dev a) in
  if negb (cras_iodev_is_open d) then ret c else
  let* delay := on_dev (od_dev a) cras_iodev_delay_frames in
  ret (if delay <? 0 then delay else if delay >? c then delay else c).

(** The loop is started at the device: those before it in the list are not met. *)
Definition input_delay_frames (i : side) (adev : Z) : thread_prog Z :=
  let* l := open_devs i in fold_prog (input_delay_pass i) (from_address adev (addrs l)) 0.

(** A negative delay is converted to an unsigned one. *)
Definition set_stream_delay (i : side) (adev : Z) : thread_prog unit :=
  let* a := the_open_dev i adev in
  let* delay := input_delay_frames i adev in
  each_stream (od_dev a) (fun p =>
    let* e := the_attached (od_dev a) p in
    let* s := the_stream (at_stream e) in
    if has_flag (rs_flags s) TRIGGER_ONLY then ret tt else set_delay (od_dev a) p (u32 delay)).

(** ** Reading a device *)

(** What a stream reads, and where: the device's buffer, or what an audio
    processor made of it.  Without either the caller's variables are not set. *)
Definition get_for_stream (k : Z) (data : input_data) (r : Z) (s : cras_rstream)
  : thread_prog (cras_audio_area * Z * list Z) :=
  on_dev k (
    let* d := get_dev in
    let* v := get_srv in
    let* offsets := here (io_buf_state d) in
    let apm := cras_apm_list_get_active_apm r (id_dev_ptr data) (sv_apm v) in
    let* (res, offsets, w) := here (input_data_get_for_stream data r (rs_stream_id s) offsets (sv_apm v)) in
    set_dev (fun d => d <| io_buf_state := Some offsets |>) ;;
    set_srv (fun v => v <| sv_apm := w |>) ;;
    let* (area, area_offset) := here res in
    ret (area, area_offset, match apm with Some apm => cras_apm_processed_samples apm w | None => io_mem d end)).

Definition put_for_stream (k : Z) (data : input_data) (r this_read : Z) (s : cras_rstream) : thread_prog unit :=
  on_dev k (
    let* d := get_dev in
    let* v := get_srv in
    let* offsets := here (io_buf_state d) in
    let '(offsets, w) := input_data_put_for_stream data r (rs_stream_id s) offsets this_read (sv_apm v) in
    set_dev (fun d => d <| io_buf_state := Some offsets |>) ;;
    set_srv (fun v => v <| sv_apm := w |>)).

Definition capture_to_stream (k p : Z) : thread_prog unit :=
  let* e := the_attached k p in
  let r := at_stream e in
  let* s := the_stream r in
  if has_flag (rs_flags s) TRIGGER_ONLY && negb (rs_triggered s =? 0) then ret tt else
  let* d := the_iodev k in
  let* data := here (io_input_data d) in
  let* (area, area_offset, mem) := get_for_stream k data r s in
  let* ui := here (cras_iodev_get_ui_gain_scaler d) in
  let* t := gets id in
  let gain := input_data_get_software_gain_scaler data (io_software_gain_scaler d) r
                (cras_rstream_get_volume_scaler s) (sv_apm (th_srv t)) in
  let* (this_read, ds, s) := here (dev_stream_capture fuel (at_dev_stream e) s area area_offset (f32_mul ui gain) mem) in
  put_dev_stream k p ds ;; put_stream r s ;;
  put_for_stream k data r this_read s.

(** The loop of [capture_to_streams]: it ends when nothing is left, the driver
    gives nothing, or the streams took less than there was. *)
Fixpoint capture_loop (n : nat) (k remainder : Z) : thread_prog Z :=
  if negb (remainder >? 0) then ret 0 else
  match n with
  | O => here None
  | S n =>
      let* (rc, nread) := on_dev k (cras_iodev_get_input_buffer (u32 remainder)) in
      if (rc <? 0) || (nread =? 0) then ret rc else
      each_stream k (capture_to_stream k) ;;
      let* rc := on_dev k cras_iodev_put_input_buffer in
      if rc <? 0 then ret rc else
      if rc <? nread then ret 0 else capture_loop n k (u64 (remainder - nread))
  end.

Definition capture_to_streams (i : side) (adev : Z) : thread_prog Z :=
  let* a := the_open_dev i adev in
  let k := od_dev a in
  each_stream k (fun p => let* e := the_attached k p in flush_old_audio_messages (at_stream e)) ;;
  let* (rc, hw_tstamp) := on_dev k cras_iodev_frames_queued in
  if rc <? 0 then ret rc else
  let hw_level := rc in
  on_dev k (cras_iodev_update_highest_hw_level hw_level) ;;
  adjust_rate i adev hw_level hw_tstamp ;;
  let* (cap_limit, _) := get_stream_limit k hw_level in
  set_stream_delay i adev ;;
  let* d := the_iodev k in
  if negb (bool_decide (cras_iodev_state d = CRAS_IODEV_STATE_NORMAL_RUN)) then ret 0
  else capture_loop fuel k (cmin hw_level cap_limit).

(** An error takes the device off the list. *)
Definition dev_io_capture : thread_prog unit :=
  for_each_open_dev Capture (fun q => if_open Capture q (fun _ =>
    let* rc := capture_to_streams Capture q in
    if rc <? 0 then handle_dev_err rc Capture q else ret tt)).

(** ** When to wake up *)

Definition get_input_dev_max_wake_ts (k curr_level : Z) : thread_prog (option timespec) :=
  let* d := the_iodev k in
  match io_format d with
  | None => ret None
  | Some fmt =>
      if (frame_rate fmt =? 0) || (io_buffer_size d =? 0) then ret None else
      let half_buffer_size := u32 (io_buffer_size d / 2) in
      let target_frames := if curr_level <? half_buffer_size then half_buffer_size - curr_level else 0 in
      let* dev_wake_ts := here (cras_frames_to_time target_frames (u32 (frame_rate fmt))) in
      let res_ts := if timespec_after dev_wake_ts min_input_dev_wake_ts then dev_wake_ts else min_input_dev_wake_ts in
      let* now := clock_gettime in
      let* res_ts := here (add_timespecs res_ts now) in ret (Some res_ts)
  end.

Definition is_hotword (n : cras_ionode) : bool := nd_type n =? CRAS_NODE_TYPE_HOTWORD.

Definition input_devices_can_drop_samples (d : cras_iodev) : option bool :=
  if negb (cras_iodev_is_open d) then Some false else
  match io_streams d with
  | [] => Some false
  | _ => n ← find_active_node d; Some match n with None => false | Some n => negb (is_hotword n) end
  end.

(** The comparison with one and a half times the level is of doubles, which
    hold both. *)
Definition has_too_many_frames (d : cras_iodev) (level : Z) : option bool :=
  can ← input_devices_can_drop_samples d;
  if negb (can && (2 * level >=? 3 * io_largest_cb_level d)) then Some false else
  fmt ← io_format d;
  ms ← cras_frames_to_ms level (u32 (frame_rate fmt));
  Some (ms >=? DROP_FRAMES_THRESHOLD_MS).

(** An error ends the loop; a positive result passes the stream over. *)
Definition wake_for_stream (k curr_level : Z) (level_tstamp : timespec) (cap_limit : Z) (limit_stream : option Z)
    (p : Z) (c : Z * timespec) : thread_prog (Z * timespec) :=
  let '(rc, min_ts) := c in
  if rc <? 0 then ret c else
  let* e := the_attached k p in
  let* s := the_stream (at_stream e) in
  let* (rc, wake) := here (dev_stream_wake_time (at_dev_stream e) curr_level level_tstamp cap_limit
                             (bool_decide (limit_stream = Some p)) s) in
  ret (rc, match wake with
           | Some t => if (rc =? 0) && timespec_after min_ts t then t else min_ts
           | None => min_ts
           end).

(** The result, and whether frames have to be dropped. *)
Definition set_input_dev_wake_ts (i : side) (adev : Z) : thread_prog (Z * bool) :=
  let* a := the_open_dev i adev in
  let k := od_dev a in
  let* now := clock_gettime in
  let* min_ts := here (add_timespecs (Timespec 20 0) now) in
  set_open_dev i adev (fun a => a <| od_wake_ts := min_ts |>) ;;
  let* (rc, level_tstamp) := on_dev k cras_iodev_frames_queued in
  if rc <? 0 then ret (rc, false) else
  let curr_level := rc in
  let* level_tstamp := if timespec_is_nonzero (Some level_tstamp) then ret level_tstamp else clock_gettime in
  let* d := the_iodev k in
  let* need_to_drop := here (has_too_many_frames d rc) in
  let* (cap_limit, cap_limit_stream) := get_stream_limit k UINT_MAX in
  let* (rc, min_ts) := for_each_stream k (wake_for_stream k curr_level level_tstamp cap_limit cap_limit_stream) (rc, min_ts) in
  if rc <? 0 then ret (rc, need_to_drop) else
  let* d := the_iodev k in
  let* n := here (find_active_node d) in
  let* (rc, min_ts) :=
    if match n with Some n => negb (is_hotword n) | None => false end && negb (cap_limit =? 0) then
      let* dev_wake_ts := get_input_dev_max_wake_ts k curr_level in
      ret match dev_wake_ts with
          | None => (- EINVAL, min_ts)
          | Some t => (0, if timespec_after min_ts t then t else min_ts)
          end
    else ret (rc, min_ts) in
  set_open_dev i adev (fun a => a <| od_wake_ts := min_ts |>) ;;
  ret (rc, need_to_drop).

(** ** Dropping frames *)

(** The time to drop as far as it is known, [None] when nothing has set it, and
    whether the loop has been left. *)
Definition drop_time_pass (i : side) (q : Z) (c : option timespec * bool) : thread_prog (option timespec * bool) :=
  if snd c then ret c else
  let* a := the_open_dev i q in
  let* d := the_iodev (od_dev a) in
  let* can := here (input_devices_can_drop_samples d) in
  if negb can then ret c else
  let* (rc, _) := on_dev (od_dev a) cras_iodev_frames_queued in
  if rc <? 0 then ret c else
  let* d := the_iodev (od_dev a) in
  if rc <=? io_min_cb_level d then ret (Some (Timespec 0 0), true) else
  let* fmt := here (io_format d) in
  let* ratio := here (cras_iodev_get_est_rate_ratio d) in
  let* rate := here (f32_to_u32 (f64_mul (f64_of_Z (frame_rate fmt)) ratio)) in
  let* t := here (cras_frames_to_time (rc - io_min_cb_level d) rate) in
  ret (match fst c with
       | Some u => if timespec_after u t then Some t else Some u
       | None => Some t
       end, false).

Definition get_input_devices_drop_time (i : side) : thread_prog (option timespec) :=
  let* l := open_devs i in
  let* (t, _) := fold_prog (drop_time_pass i) (addrs l) (None, false) in ret t.

(** A time that was never set is read. *)
Definition dev_io_drop_samples (i : side) : thread_prog unit :=
  let* drop_time := get_input_devices_drop_time i in
  let* drop_time := here drop_time in
  if timespec_is_zero (Some drop_time) then ret tt else
  for_each_open_dev i (fun q =>
    let* a := the_open_dev i q in
    let* d := the_iodev (od_dev a) in
    let* can := here (input_devices_can_drop_samples d) in
    if can then let* _ := on_dev (od_dev a) (cras_iodev_drop_frames_by_time drop_time) in ret tt else ret tt) ;;
  send DropSamples.

(** ** Telling the clients *)

Definition capture_update_rstream (r : Z) : thread_prog unit :=
  let* s := the_stream r in
  let* t1 := clock_gettime in
  let* t2 := clock_gettime in
  let* t3 := clock_gettime in
  let* w := look client_write in
  let* (rc, msgs, s) := here (dev_stream_capture_update_rstream t1 t2 t3 w s) in
  put_stream r s ;; send (ToClient r msgs).

(** An error of a device ends the loop, and nothing is dropped. *)
Definition send_captured_pass (i : side) (q : Z) (c : Z * bool) : thread_prog (Z * bool) :=
  if fst c <? 0 then ret c else
  let* a := the_open_dev i q in
  let* d := the_iodev (od_dev a) in
  if negb (cras_iodev_is_open d) then ret c else
  each_stream (od_dev a) (fun p => let* e := the_attached (od_dev a) p in capture_update_rstream (at_stream e)) ;;
  let* (rc, drop) := set_input_dev_wake_ts i q in ret (rc, snd c || drop).

Definition dev_io_send_captured_samples : thread_prog Z :=
  let i := Capture in
  let* l := open_devs i in
  let* (rc, need_to_drop) := fold_prog (send_captured_pass i) (addrs l) (0, false) in
  if rc <? 0 then ret rc else
  (if need_to_drop then dev_io_drop_samples i else ret tt) ;; ret 0.
End Capture.
