(* ===== verification/DevIo.v ===== *)
(** * Device I/O (server/dev_io.c)

    One turn of the audio thread over all open devices, when it has to turn
    again, and attaching streams to devices. *)
From coqutil Require Import Datatypes.RecordSetters.
From S2P Require Import Prelude Prog Float32 Types DList Timespec Timers BufferShare Shm AudioFormat Mix AudioArea.
From S2P Require Import FmtConv Rstream DevStream InputData Iodev IodevOutput Volume IodevOpen Thread DevIoPlayback DevIoCapture.
Import TriangleBracketNotations.
#[local] Open Scope Z_scope.
#[local] Open Scope prog_scope.

Section DevIo.
Context {P : pcm_library} {L : speex_library} {RE : rate_library} {D : dsp_service} {AP : apm_service}.
Context {hw : Type} {H : iodev_hw (hw := hw)} {X : iodev_xrun (hw := hw)} {V : iodev_driver (hw := hw)} {W : surroundings}.
Context (fuel : nat).
#[local] Abbreviation thread_prog := (thread_prog (hw := hw)).

(** ** A turn *)

Definition update_longest_wake (i : side) (ts : timespec) : thread_prog unit :=
  for_each_open_dev i (fun q =>
    let* a := the_open_dev i q in
    let* d := the_iodev (od_dev a) in
    match io_streams d with
    | [] => ret tt
    | _ =>
        let wake_interval := subtract_timespecs ts (od_last_wake a) in
        set_open_dev i q (fun a =>
          (if negb (tv_sec (od_last_wake a) =? 0) && timespec_after wake_interval (od_longest_wake a)
           then a <| od_longest_wake := wake_interval |> else a) <| od_last_wake := ts |>)
    end).

Definition pic_update_current_time : thread_prog unit :=
  let* now := clock_gettime in set_thread (fun s => s <| th_pic_now := now |>).

Definition dev_io_run (conv : option cras_fmt_conv) : thread_prog unit :=
  let* now := clock_gettime in
  pic_update_current_time ;;
  update_longest_wake Playback now ;;
  update_longest_wake Capture now ;;
  dev_io_playback_fetch ;;
  dev_io_capture fuel ;;
  let* _ := dev_io_send_captured_samples in
  dev_io_playback_write fuel conv ;;
  check_non_empty_state_transition Playback.

(** ** The next turn *)

Definition earlier (t u : timespec) : timespec := if timespec_after t u then u else t.

Definition input_adev_ignore_wake (d : cras_iodev hw) : option bool :=
  if negb (cras_iodev_is_open d) then Some true else
  n ← find_active_node d;
  Some match n with
       | None => true
       | Some n => is_hotword n && negb (io_input_streaming d)
       end.

Definition input_wake_pass (q : Z) (c : Z * timespec) : thread_prog (Z * timespec) :=
  let* a := the_open_dev Capture q in
  let* d := the_iodev (od_dev a) in
  let* ignore := here (input_adev_ignore_wake d) in
  ret (if ignore then c else (fst c + 1, earlier (snd c) (od_wake_ts a))).

(** The number of devices to wait for, and the time. *)
Definition dev_io_next_input_wake (min_ts : timespec) : thread_prog (Z * timespec) :=
  let* l := open_devs Capture in fold_prog input_wake_pass (addrs l) (0, min_ts).

Definition stream_wake_pass (k p : Z) (c : Z * timespec) : thread_prog (Z * timespec) :=
  let* e := the_attached k p in
  let* s := the_stream (at_stream e) in
  ret (if negb (cras_rstream_get_is_draining s =? 0) then c
       else if negb (cras_rstream_is_pending_reply s =? 0) then c
       else match dev_stream_next_cb_ts s with
            | None => c
            | Some next_cb_ts => (fst c + 1, earlier (snd c) next_cb_ts)
            end).

Definition get_next_stream_wake_from_list (k : Z) (min_ts : timespec) : thread_prog (Z * timespec) :=
  for_each_stream k (stream_wake_pass k) (0, min_ts).

Definition streams_wake_pass (q : Z) (c : Z * timespec) : thread_prog (Z * timespec) :=
  let* a := the_open_dev Playback q in
  let* (n, t) := get_next_stream_wake_from_list (od_dev a) (snd c) in ret (fst c + n, t).

Definition output_wake_pass (q : Z) (c : Z * timespec) : thread_prog (Z * timespec) :=
  let* a := the_open_dev Playback q in
  let* wake := on_dev (od_dev a) cras_iodev_odev_should_wake in
  ret (if wake then (fst c + 1, earlier (snd c) (od_wake_ts a)) else c).

Definition dev_io_next_output_wake (min_ts : timespec) : thread_prog (Z * timespec) :=
  let* l := open_devs Playback in
  let* c := fold_prog streams_wake_pass (addrs l) (0, min_ts) in
  fold_prog output_wake_pass (addrs l) c.

Definition dev_io_find_open_dev (i : side) (dev_idx : Z) : thread_prog (option Z) :=
  let* l := open_devs i in
  let* s := gets id in
  ret (fst <$> dl_search l (fun a => match th_devs s !! od_dev a with
                                     | Some d => io_idx d =? dev_idx
                                     | None => false
                                     end)).

(** ** Attaching a stream *)

(** [DL_SEARCH_SCALAR(dev->streams, out, stream, stream)]. *)
Definition stream_on_dev (d : cras_iodev hw) (stream : Z) : option (Z * attached) :=
  dl_search (io_streams d) (fun a => at_stream a =? stream).

(** The time of the first callback, carried from device to device, and whether
    a stream has set it. *)
Definition first_cb_pass (k p : Z) (c : timespec * bool) : thread_prog (timespec * bool) :=
  let* e := the_attached k p in
  let* s := the_stream (at_stream e) in
  ret match dev_stream_next_cb_ts s with
      | Some t => if negb (snd c) || timespec_after (fst c) t then (t, true) else c
      | None => c
      end.

(** Without one, the time when the device's level is down to the threshold. *)
Definition first_cb_by_level (k : Z) (s : cras_rstream) : thread_prog (Z * timespec) :=
  let* (level, t) := on_dev k cras_iodev_get_valid_frames in
  if level <? 0 then ret (- EINVAL, t) else
  let* d := the_iodev k in
  let* fmt := here (io_format d) in
  let* n := here (cras_frames_at_rate (frame_rate (rs_format s)) (cras_rstream_get_cb_threshold s) (frame_rate fmt)) in
  let level := s32 (u64 (level - n)) in
  let level := if level <? 0 then 0 else level in
  let* extra_sleep := here (cras_frames_to_time level (u32 (frame_rate fmt))) in
  let* t := here (add_timespecs t extra_sleep) in ret (0, t).

(** The new stream's offsets start at those of the device's first stream. *)
Definition align_input_offsets (k : Z) (stream : Z) : thread_prog unit :=
  let* d := the_iodev k in
  let* (_, e) := here (head (io_streams d)) in
  let* s := the_stream stream in
  let* s0 := the_stream (at_stream e) in
  let* offset := here (cras_iodev_stream_offset s0 d) in
  on_dev k (cras_iodev_stream_written s (cmin offset (rs_cb_threshold s))) ;;
  let offset := cras_rstream_dev_offset s0 (io_idx d) in
  put_stream stream (cras_rstream_dev_offset_update s (cmin offset (rs_cb_threshold s)) (io_idx d)).

(** The stream is created for the device and added to it. *)
Definition attach_stream (k stream : Z) (cb_ts : timespec) : thread_prog Z :=
  let* d := the_iodev k in
  let* s := the_stream stream in
  let* fmt := here (io_format d) in
  let* env := look stream_env in
  let* p := malloc in
  let* fresh := look fresh_slots in
  let* (out, s) := here (dev_stream_create env (post_processing_format stream k) s (io_idx d) fmt k cb_ts) in
  match out with
  | None => ret (- EINVAL)
  | Some ds =>
      put_stream stream s ;;
      let* _ := on_dev k (cras_iodev_add_stream fresh p (Attached stream ds)) in
      (if (rs_direction s =? CRAS_STREAM_INPUT) && bool_decide (io_streams d <> []) then align_input_offsets k stream
       else ret tt) ;;
      ret 0
  end.

(** One of the devices; an error is carried past the rest. *)
Definition append_to_dev (i : side) (stream k : Z) (c : Z * (timespec * bool)) : thread_prog (Z * (timespec * bool)) :=
  let '(rc, cb) := c in
  if negb (rc =? 0) then ret c else
  let* l := open_devs i in
  match dl_search l (fun a => od_dev a =? k) with
  | None => ret c
  | Some (q, _) =>
      let* d := the_iodev k in
      if bool_decide (is_Some (stream_on_dev d stream)) then ret c else
      let first := bool_decide (io_streams d = []) in
      (if first then set_open_dev i q (fun a => a <| od_last_wake := Timespec 0 0 |> <| od_longest_wake := Timespec 0 0 |>)
       else ret tt) ;;
      let* s := the_stream stream in
      let* num_flushed := if (rs_direction s =? CRAS_STREAM_INPUT) && first then on_dev k flush_buffer else ret 0 in
      if num_flushed <? 0 then ret (num_flushed, cb) else
      let* (rc, cb) :=
        if rs_direction s =? CRAS_STREAM_OUTPUT then
          let* cb := for_each_stream k (first_cb_pass k) cb in
          if snd cb then ret (0, cb) else
          let* (rc, t) := first_cb_by_level k s in ret (rc, (t, false))
        else ret (0, (Timespec 0 0, snd cb)) in
      if negb (rc =? 0) then ret (rc, cb) else
      let* rc := attach_stream k stream (fst cb) in ret (rc, cb)
  end.

(** After an error the stream is taken off every device of the list. *)
Definition dev_io_append_stream (i : side) (stream : Z) (iodevs : list Z) : thread_prog Z :=
  let* (rc, _) := fold_prog (append_to_dev i stream) iodevs (0, (Timespec 0 0, false)) in
  (if rc =? 0 then ret tt else
   for_each_open_dev i (fun q =>
     let* a := the_open_dev i q in
     let* d := the_iodev (od_dev a) in
     match stream_on_dev d stream with
     | None => ret tt
     | Some (_, e) =>
         let* _ := on_dev (od_dev a) (cras_iodev_rm_stream stream) in destroy_dev_stream e
     end)) ;;
  ret rc.
End DevIo.
