(* ===== verification/DevLinks.v ===== *)
(** * Devices and streams know of each other (server/dev_io.c)

    A stream keeps a table of the devices it is attached to, with a pointer to
    each, and one of them is its master; a device keeps a list of the streams
    attached to it.  [links] says that the two agree; [DevLinksKept] shows
    that all the audio thread does keeps it so. *)
From coqutil Require Import Datatypes.RecordSetters.
From S2P Require Import Prelude Prog Arrays Types DList Timespec Timers BufferShare Shm AudioFormat.
From S2P Require Import Rstream.
#[local] Open Scope Z_scope.

(** A stream of a device: its address there, the stream and the device's id
    as the stream was told it. *)
Definition stop : Type := Z * Z * Z.
Definition st_addr (x : stop) : Z := x.1.1.
Definition st_stream (x : stop) : Z := x.1.2.
Definition st_dev_id (x : stop) : Z := x.2.

(** A device's index and its streams. *)
Definition outline : Type := Z * list stop.

Record links (o : gmap Z outline) (m : gmap Z cras_rstream) : Prop := {
  (** Devices have indices of their own. *)
  ln_idx : forall k k' d d', o !! k = Some d -> o !! k' = Some d' -> d.1 = d'.1 -> k = k';
  ln_range : forall k d, o !! k = Some d -> 0 < d.1 < 2147483648;
  ln_few : Z.of_nat (size o) < 2 ^ 28;
  (** No stream is attached to a device twice. *)
  ln_once : forall k d, o !! k = Some d -> NoDup (st_addr <$> d.2) /\ NoDup (st_stream <$> d.2);
  ln_stop : forall k d x, o !! k = Some d -> x ∈ d.2 -> st_dev_id x = d.1 /\ is_Some (m !! st_stream x);
  (** The table of a stream has the devices that it is attached to. *)
  ln_devs : forall r x, m !! r = Some x -> devs_ok x /\ id_sz (rs_buf_state x) <= 2 ^ 29;
  ln_table : forall r x i k, m !! r = Some x ->
    devices x !! i = Some k <-> exists d, o !! k = Some d /\ d.1 = i /\ r ∈ st_stream <$> d.2
}.

(** ** What moving a stream's offsets leaves alone *)

#[export] Instance same_devices_preorder : PreOrder same_devices.
Proof.
  split.
  - by intros x Hx.
  - intros x y z Hxy Hyz Hx. destruct (Hxy Hx) as (Hy & H1 & H2). destruct (Hyz Hy) as (Hz & H3 & H4).
    split; [done|]. split; congruence.
Qed.

(** The table itself is not touched. *)
Definition same_table (x x' : cras_rstream) : Prop :=
  rs_buf_state x' = rs_buf_state x /\ rs_num_attached_devs x' = rs_num_attached_devs x /\
  rs_master_dev x' = rs_master_dev x.

#[export] Instance same_table_preorder : PreOrder same_table.
Proof. split; [done|]. intros x y z (? & ? & ?) (? & ? & ?). repeat split; congruence. Qed.

Lemma same_table_devices (x x' : cras_rstream) : same_table x x' -> same_devices x x'.
Proof.
  intros (H1 & H2 & H3) [Hs Hi Hc Hm]. unfold devices. rewrite H1. split; [|done]. split; by rewrite ?H1, ?H2, ?H3.
Qed.

(** The streams before and after. *)
Definition streams_kept (m m' : gmap Z cras_rstream) : Prop := forall r, option_Forall2 same_devices (m !! r) (m' !! r).

#[export] Instance streams_kept_preorder : PreOrder streams_kept.
Proof.
  split.
  - intros m r. destruct (m !! r); constructor. reflexivity.
  - intros m1 m2 m3 H12 H23 r. specialize (H12 r). specialize (H23 r).
    destruct H12 as [x y Hxy|]; inversion H23; subst; constructor. by transitivity y.
Qed.

Lemma streams_kept_insert (m : gmap Z cras_rstream) r x x' :
  m !! r = Some x -> same_devices x x' -> streams_kept m (<[r := x']> m).
Proof.
  intros Hx Hxx q. destruct (decide (q = r)) as [->|Hne].
  - rewrite Hx, lookup_insert_eq. by constructor.
  - rewrite lookup_insert_ne by done. destruct (m !! q); constructor. reflexivity.
Qed.

Lemma streams_kept_lookup (m m' : gmap Z cras_rstream) r x' :
  streams_kept m m' -> m' !! r = Some x' -> exists x, m !! r = Some x /\ same_devices x x'.
Proof. intros Hk Hx. specialize (Hk r). rewrite Hx in Hk. inversion Hk; subst. eauto. Qed.

Lemma links_kept (o : gmap Z outline) (m m' : gmap Z cras_rstream) : links o m -> streams_kept m m' -> links o m'.
Proof.
  intros [H1 H2 H3 H4 H5 H6 H7] Hk. split; try done.
  - intros k d x Hd Hx. destruct (H5 k d x Hd Hx) as [Hi [y Hy]]. split; [done|].
    specialize (Hk (st_stream x)). rewrite Hy in Hk. inversion Hk; subst. eauto.
  - intros r x' Hx'. destruct (streams_kept_lookup _ _ _ _ Hk Hx') as (x & Hx & Hsame).
    destruct (H6 r x Hx) as [Hd Hr]. destruct (Hsame Hd) as (Hd' & _ & Hsz). by rewrite Hsz.
  - intros r x' i k Hx'. destruct (streams_kept_lookup _ _ _ _ Hk Hx') as (x & Hx & Hsame).
    destruct (Hsame (proj1 (H6 r x Hx))) as (_ & Hdev & _). rewrite Hdev. by apply H7.
Qed.

(** ** Attaching and detaching *)

Lemma links_devices_size (o : gmap Z outline) (m : gmap Z cras_rstream) r x :
  links o m -> m !! r = Some x -> (size (devices x) <= size o)%nat.
Proof.
  intros Hl Hx. set (ks := (map_to_list (devices x)).*2).
  assert (Hks : NoDup ks).
  { apply NoDup_fmap_2_strong; [|apply NoDup_map_to_list].
    intros [i k] [i' k'] Hi%elem_of_map_to_list Hi'%elem_of_map_to_list Heq. simpl in Heq. subst k'.
    apply (ln_table _ _ Hl r x) in Hi as (d & Hd & Hdi & _); [|done].
    apply (ln_table _ _ Hl r x) in Hi' as (d' & Hd' & Hdi' & _); [|done]. congruence. }
  assert (Hlen : size (devices x) = length ks) by (unfold ks; by rewrite length_fmap, length_map_to_list).
  rewrite Hlen, <- (size_list_to_set (C := gset Z) ks Hks), <- (size_dom (D := gset Z) o).
  apply subseteq_size. intros k Hk. apply elem_of_list_to_set, list_elem_of_fmap in Hk as ([i k'] & -> & Hi).
  apply elem_of_map_to_list in Hi. apply (ln_table _ _ Hl r x) in Hi as (d & Hd & _); [|done].
  apply elem_of_dom. by exists d.
Qed.

(** An entry of a device that is given other streams. *)
Lemma links_outline (o : gmap Z outline) (m : gmap Z cras_rstream) k i l l' :
  links o m -> o !! k = Some (i, l) -> NoDup (st_addr <$> l') -> NoDup (st_stream <$> l') ->
  let o' := <[k := (i, l')]> o in
  (forall k k' d d', o' !! k = Some d -> o' !! k' = Some d' -> d.1 = d'.1 -> k = k') /\
  (forall k d, o' !! k = Some d -> 0 < d.1 < 2147483648) /\ Z.of_nat (size o') < 2 ^ 28 /\
  (forall k d, o' !! k = Some d -> NoDup (st_addr <$> d.2) /\ NoDup (st_stream <$> d.2)).
Proof.
  intros [H1 H2 H3 H4 H5 H6 H7] Hk Ha Hs o'.
  assert (Hold : forall q d, o' !! q = Some d -> exists d0, o !! q = Some d0 /\ d0.1 = d.1).
  { intros q d [[<- <-]|[_ Hq]]%lookup_insert_Some; eauto. }
  split_and!.
  - intros q q' d d' Hq Hq' Heq. apply Hold in Hq as (e & Hq & He). apply Hold in Hq' as (e' & Hq' & He').
    apply (H1 q q' e e'); congruence.
  - intros q d Hq. apply Hold in Hq as (e & Hq & <-). by apply (H2 q).
  - unfold o'. rewrite map_size_insert_Some; eauto.
  - intros q d [[<- <-]|[_ Hq]]%lookup_insert_Some; [done|by apply (H4 q)].
Qed.

Lemma links_attach (fresh : nat -> id_offset) (o : gmap Z outline) (m : gmap Z cras_rstream) k i l p r x x' :
  links o m -> o !! k = Some (i, l) -> (p ∉ st_addr <$> l) -> (r ∉ st_stream <$> l) -> m !! r = Some x ->
  cras_rstream_dev_attach fresh x i k = Some x' ->
  links (<[k := (i, l ++ [(p, r, i)])]> o) (<[r := x']> m).
Proof.
  intros Hl Hk Hp Hr Hx Hatt. pose proof Hl as [H1 H2 H3 H4 H5 H6 H7].
  destruct (H4 k _ Hk) as [Ha Hs]. destruct (H6 r x Hx) as [Hd Hroom]. pose proof (H2 k _ Hk) as Hi. simpl in Ha, Hs, Hi.
  destruct (links_outline o m k i l (l ++ [(p, r, i)]) Hl Hk) as (L1 & L2 & L3 & L4).
  { rewrite fmap_app. apply NoDup_app. split_and!; [done|set_solver|apply NoDup_singleton]. }
  { rewrite fmap_app. apply NoDup_app. split_and!; [done|set_solver|apply NoDup_singleton]. }
  assert (Hnew : devices x !! i = None).
  { destruct (devices x !! i) as [k'|] eqn:Hi'; [|done]. apply (H7 r x i k' Hx) in Hi' as (d & Hd' & Hdi & Hin).
    assert (k' = k) as -> by (apply (H1 k' k d (i, l)); done). rewrite Hk in Hd'. by injection Hd' as <-. }
  unfold devices in Hnew. rewrite lookup_fmap, fmap_None in Hnew.
  destruct (attach_devs_ok fresh x i k Hd Hi ltac:(lia)) as (x1 & Hx1 & Hok & Hsh).
  rewrite Hatt in Hx1. injection Hx1 as <-. rewrite Hnew in Hsh.
  assert (Hdev : devices x' = <[i := k]> (devices x)) by (unfold devices; by rewrite Hsh, fmap_insert).
  split; try done.
  - intros q d y [[<- <-]|[Hq Hd']]%lookup_insert_Some Hy.
    + simpl in Hy |- *. apply elem_of_app in Hy as [Hy|Hy].
      * destruct (H5 k (i, l) y Hk Hy) as [Hyi Hm]. split; [done|].
        destruct (decide (st_stream y = r)) as [->|Hne]; [rewrite lookup_insert_eq; eauto|by rewrite lookup_insert_ne].
      * apply list_elem_of_singleton in Hy as ->. split; [done|]. unfold st_stream. simpl. rewrite lookup_insert_eq. eauto.
    + destruct (H5 q d y Hd' Hy) as [Hyi Hm]. split; [done|].
      destruct (decide (st_stream y = r)) as [->|Hne]; [rewrite lookup_insert_eq; eauto|by rewrite lookup_insert_ne].
  - intros q y [[<- <-]|[Hq Hy]]%lookup_insert_Some; [|by apply (H6 q)]. split; [done|].
    unfold cras_rstream_dev_attach in Hatt. apply bind_Some in Hatt as ([rc bs] & Hadd & Hatt).
    destruct (add_id_room fresh _ i k rc bs (do_share x Hd) ltac:(lia) Hadd) as [Hsz|[Hsz Hfull]].
    + assert (rs_buf_state x' = bs) as -> by (injection Hatt as <-; by repeat case_match). lia.
    + assert (rs_buf_state x' = bs) as -> by (injection Hatt as <-; by repeat case_match).
      pose proof (links_devices_size o m r x Hl Hx) as Hle. unfold devices in Hle. rewrite map_size_fmap in Hle. lia.
  - intros q y j k' [[<- <-]|[Hq Hy]]%lookup_insert_Some.
    + rewrite Hdev, lookup_insert_Some, (H7 r x j k' Hx). split.
      * intros [[<- <-]|[Hj (d & Hd' & Hdj & Hin)]].
        -- exists (i, l ++ [(p, r, i)]). rewrite lookup_insert_eq. split; [done|]. split; [done|]. simpl.
           rewrite fmap_app. apply elem_of_app. right. by left.
        -- exists d. rewrite lookup_insert_ne; [done|]. intros <-. rewrite Hk in Hd'. by injection Hd' as <-.
      * intros (d & [[<- <-]|[Hq Hd']]%lookup_insert_Some & Hdj & Hin); [by left|right]. split.
        { intros <-. apply Hq. by apply (H1 k k' (i, l) d). } eauto.
    + rewrite (H7 q y j k' Hy). split.
      * intros (d & Hd' & Hdj & Hin). destruct (decide (k = k')) as [<-|Hne].
        -- rewrite Hk in Hd'. injection Hd' as <-. exists (i, l ++ [(p, r, i)]). rewrite lookup_insert_eq.
           split; [done|]. split; [done|]. simpl. rewrite fmap_app. apply elem_of_app. by left.
        -- exists d. by rewrite lookup_insert_ne.
      * intros (d & [[<- <-]|[Hne Hd']]%lookup_insert_Some & Hdj & Hin); [|eauto].
        exists (i, l). split; [done|]. split; [done|]. simpl in Hin |- *. rewrite fmap_app in Hin.
        apply elem_of_app in Hin as [Hin|Hin]; [done|]. apply list_elem_of_singleton in Hin. by destruct Hq.
Qed.

Lemma links_detach (o : gmap Z outline) (m : gmap Z cras_rstream) k i l r x :
  links o m -> o !! k = Some (i, l) -> r ∈ st_stream <$> l -> m !! r = Some x ->
  links (<[k := (i, filter (fun y => st_stream y <> r) l)]> o) (<[r := cras_rstream_dev_detach x i]> m).
Proof.
  intros Hl Hk Hr Hx. pose proof Hl as [H1 H2 H3 H4 H5 H6 H7].
  destruct (H4 k _ Hk) as [Ha Hs]. destruct (H6 r x Hx) as [Hd Hroom]. pose proof (H2 k _ Hk) as Hi. simpl in Ha, Hs, Hi.
  set (l' := filter (fun y => st_stream y <> r) l).
  destruct (links_outline o m k i l l' Hl Hk) as (L1 & L2 & L3 & L4).
  { eapply sublist_NoDup; [exact Ha|]. apply fmap_sublist, sublist_filter. }
  { eapply sublist_NoDup; [exact Hs|]. apply fmap_sublist, sublist_filter. }
  destruct (detach_devs_ok x i Hd Hi) as [Hok Hsh].
  assert (Hdev : devices (cras_rstream_dev_detach x i) = delete i (devices x)) by (unfold devices; by rewrite Hsh, fmap_delete).
  assert (Hin' : forall q, q <> r -> q ∈ st_stream <$> l' <-> q ∈ st_stream <$> l).
  { intros q Hq. rewrite !list_elem_of_fmap. split.
    - intros (y & -> & [_ Hy]%list_elem_of_filter). eauto.
    - intros (y & -> & Hy). exists y. split; [done|]. apply list_elem_of_filter. by split. }
  assert (Hout : r ∉ st_stream <$> l').
  { intros (y & -> & [Hy _]%list_elem_of_filter)%list_elem_of_fmap. done. }
  assert (Hthere : forall q, is_Some (m !! q) -> is_Some (<[r := cras_rstream_dev_detach x i]> m !! q)).
  { intros q Hq. destruct (decide (q = r)) as [->|Hne]; [rewrite lookup_insert_eq; eauto|by rewrite lookup_insert_ne]. }
  split; try done.
  - intros q d y [[<- <-]|[Hq Hd']]%lookup_insert_Some Hy.
    + apply list_elem_of_filter in Hy as [_ Hy]. destruct (H5 k (i, l) y Hk Hy) as [Hyi Hm]. auto.
    + destruct (H5 q d y Hd' Hy) as [Hyi Hm]. auto.
  - intros q y [[<- <-]|[Hq Hy]]%lookup_insert_Some; [|by apply (H6 q)]. split; [done|].
    pose proof (buffer_share_rm_id_spec (rs_buf_state x) i (do_share x Hd)) as Hrm.
    unfold cras_rstream_dev_detach. destruct (buffer_share_rm_id (rs_buf_state x) i) as [rc bs].
    destruct Hrm as (_ & _ & _ & _ & Hsz).
    replace (rs_buf_state _) with bs by (by repeat case_match). lia.
  - intros q y j k' [[<- <-]|[Hq Hy]]%lookup_insert_Some.
    + rewrite Hdev, lookup_delete_Some, (H7 r x j k' Hx). split.
      * intros [Hj (d & Hd' & Hdj & Hin)]. exists d. rewrite lookup_insert_ne; [done|]. intros <-.
        rewrite Hk in Hd'. injection Hd' as <-. by destruct Hj.
      * intros (d & [[<- <-]|[Hq Hd']]%lookup_insert_Some & Hdj & Hin); [done|]. split; [|eauto].
        intros <-. apply Hq. by apply (H1 k k' (i, l) d).
    + rewrite (H7 q y j k' Hy). split.
      * intros (d & Hd' & Hdj & Hin). destruct (decide (k = k')) as [<-|Hne].
        -- rewrite Hk in Hd'. injection Hd' as <-. exists (i, l'). rewrite lookup_insert_eq. simpl. by rewrite Hin'.
        -- exists d. by rewrite lookup_insert_ne.
      * intros (d & [[<- <-]|[Hne Hd']]%lookup_insert_Some & Hdj & Hin); [|eauto].
        exists (i, l). split; [done|]. split; [done|]. simpl in Hin |- *. by apply Hin'.
Qed.

(** The master of an attached stream is one of the devices. *)
Lemma links_master (o : gmap Z outline) (m : gmap Z cras_rstream) k d r x :
  links o m -> o !! k = Some d -> r ∈ st_stream <$> d.2 -> m !! r = Some x ->
  exists d', o !! md_dev_ptr (rs_master_dev x) = Some d' /\ d'.1 = md_dev_id (rs_master_dev x) /\ r ∈ st_stream <$> d'.2.
Proof.
  intros Hl Hk Hr Hx. destruct (ln_devs _ _ Hl r x Hx) as [Hd _].
  assert (Hi : devices x !! d.1 = Some k) by (apply (ln_table _ _ Hl r x); eauto).
  pose proof (do_master x Hd) as Hm. destruct (share (rs_buf_state x) !! md_dev_id (rs_master_dev x)) as [v|] eqn:Hv.
  - apply (ln_table _ _ Hl r x); [done|]. unfold devices. rewrite lookup_fmap, Hv. simpl. by rewrite Hm.
  - destruct Hm as [_ Hm]. unfold devices in Hi. by rewrite Hm, fmap_empty in Hi.
Qed.
