(* ===== verification/DevStreamKept.v ===== *)
(** * What a stream on a device leaves of the stream's table (server/dev_stream.c)

    Scheduling, rates and samples do not concern the table of the devices that
    a stream is attached to; reading and writing move the offsets in it. *)
From S2P Require Import Prelude Prog Arrays Float32 Types Timespec ByteBuffer BufferShare Shm AudioFormat AudioArea.
From S2P Require Import FmtConv Rstream DevStream DevLinks.
#[local] Open Scope Z_scope.

Section Kept.
Context {P : pcm_library} {L : speex_library}.

Lemma missed_table now (s : cras_rstream) : same_table s (cras_server_metrics_missed_cb_event now s).
Proof. unfold cras_server_metrics_missed_cb_event. by destruct (_ =? 1). Qed.

Lemma next_wake_table now missed (s s' : cras_rstream) :
  dev_stream_update_next_wake_time now missed s = Some s' -> same_table s s'.
Proof.
  unfold dev_stream_update_next_wake_time, check_next_wake_time.
  case_match; intros (t & _ & Hs)%bind_Some; [by injection Hs as <-|]. revert Hs.
  case_match; [|by intros [= <-]]. intros (u & _ & [= <-])%bind_Some.
  etransitivity; [|apply missed_table]. done.
Qed.

Lemma read_message_table (s : cras_rstream) rd : same_table s (snd (read_and_handle_client_message s rd)).
Proof. unfold read_and_handle_client_message. by repeat case_match. Qed.

Lemma flush_table (turns : list poll_turn) (s s' : cras_rstream) :
  dev_stream_flush_old_audio_messages s turns = Some s' -> same_table s s'.
Proof.
  unfold dev_stream_flush_old_audio_messages, cras_rstream_flush_old_audio_messages.
  case_match; [by intros [= <-]|]. case_match; [by intros [= <-]|]. clear.
  revert s. induction turns as [|t turns IH]; intros s; simpl; [done|].
  assert (Ht : same_table s (snd (if pt_in t then read_and_handle_client_message s (pt_read t) else (pt_rc t, s)))).
  { destruct (pt_in t); [apply read_message_table|done]. }
  destruct (if pt_in t then _ else _) as [err s1]. simpl in Ht.
  case_match; [|by intros [= <-]]. intros Hs. by transitivity s1; [|apply IH].
Qed.

Lemma fetch_interval_table now (s : cras_rstream) : same_table s (cras_rstream_record_fetch_interval s now).
Proof. unfold cras_rstream_record_fetch_interval. by repeat case_match. Qed.

Lemma request_table fetch now missed w (s s' : cras_rstream) rc msgs :
  dev_stream_request_playback_samples fetch now missed w s = Some (rc, msgs, s') -> same_table s s'.
Proof.
  unfold dev_stream_request_playback_samples.
  assert (Hr : same_table s (snd (cras_rstream_request_audio s fetch w)))
    by (unfold cras_rstream_request_audio; by repeat case_match).
  destruct (cras_rstream_request_audio s fetch w) as [[rc1 msgs1] s1]. simpl in Hr.
  case_match; [by intros [= <- <- <-]|]. intros (s2 & H2 & [= <- <- <-])%bind_Some.
  transitivity s1; [done|]. by eapply next_wake_table.
Qed.

Lemma set_delay_table d now n (s s' : cras_rstream) : dev_stream_set_delay d now n s = Some s' -> same_table s s'.
Proof.
  unfold dev_stream_set_delay. case_match; intros (a & _ & (b & _ & Hs)%bind_Some)%bind_Some; revert Hs.
  - by intros (t & _ & [= <-])%bind_Some.
  - case_match; [|by intros [= <-]]. by intros (t & _ & [= <-])%bind_Some.
Qed.

Lemma update_frames_same (s s' : cras_rstream) : dev_stream_update_frames s = Some s' -> same_table s s'.
Proof. unfold dev_stream_update_frames, cras_rstream_update_queued_frames. by intros (n & _ & [= <-])%bind_Some. Qed.

Lemma set_rate_table d (s : cras_rstream) r q m a d' s' :
  dev_stream_set_dev_rate d s r q m a = Some (d', s') -> ds_dev_id d' = ds_dev_id d /\ same_table s s'.
Proof.
  unfold dev_stream_set_dev_rate. intros (c & _ & Hs)%bind_Some. revert Hs. case_match.
  - by intros (c1 & _ & (t & _ & [= <- <-])%bind_Some)%bind_Some.
  - by intros (c1 & _ & [= <- <-])%bind_Some.
Qed.

(** ** Reading and writing *)

Lemma mix_pass_id (s : cras_rstream) fmt o n v (m m' : mix_state) :
  mix_pass s fmt o n v m = Some (Some m') -> ds_dev_id (mx_dev m') = ds_dev_id (mx_dev m).
Proof.
  unfold mix_pass. intros ([src fr] & _ & Hm)%bind_Some. revert Hm. case_match; [done|].
  intros (a & _ & (c & _ & ([[[[dev rd] sm] sr] d] & Hd & (dst & _ & [= <-])%bind_Some)%bind_Some)%bind_Some)%bind_Some.
  revert Hd. case_match.
  - by intros ([[[n1 used] out] c1] & _ & [= <- <- <- <- <-])%bind_Some.
  - by intros [= <- <- <- <- <-].
Qed.

Lemma mix_loop_id fuel (s : cras_rstream) fmt o n v (m m' : mix_state) :
  mix_loop fuel s fmt o n v m = Some m' -> ds_dev_id (mx_dev m') = ds_dev_id (mx_dev m).
Proof.
  revert m. induction fuel as [|fuel IH]; intros m; simpl; [done|]. case_match; [by intros [= <-]|].
  intros ([m1|] & H1 & Hm)%bind_Some; [|by injection Hm as <-].
  rewrite (IH m1 Hm). by eapply mix_pass_id.
Qed.

Lemma mix_devices fuel d (s : cras_rstream) fmt dst n rc d' s' dst' :
  dev_stream_mix fuel d s fmt dst n = Some (rc, d', s', dst') -> ds_dev_id d' = ds_dev_id d /\ same_devices s s'.
Proof.
  unfold dev_stream_mix. intros (fr & _ & Hs)%bind_Some. revert Hs. case_match; [by intros [= <- <- <- <-]|].
  intros (m & Hm & [= <- <- <- <-])%bind_Some. split; [by eapply mix_loop_id in Hm|apply offset_update_devices].
Qed.

Lemma copy_converted_devices fuel fmt fb n ss g id a b (s : cras_rstream) o w a' b' s' w' :
  copy_converted_loop fuel fmt fb n ss g id a b s o w = Some (a', b', s', w') -> same_devices s s'.
Proof.
  revert a b s o w. induction fuel as [|fuel IH]; intros a b s o w; simpl; [done|].
  case_match; [by intros [= <- <- <- <-]|]. destruct (buf_read_pointer_size b) as [cs size].
  intros (wf & _ & (a1 & _ & (a2 & _ & (ar & _ & ([rc m] & _ & (b1 & _ & Hs)%bind_Some)%bind_Some)%bind_Some)%bind_Some)%bind_Some)%bind_Some.
  apply IH in Hs. etransitivity; [|exact Hs]. etransitivity; [|apply offset_update_devices]. by apply same_table_devices.
Qed.

Lemma capture_devices fuel d (s : cras_rstream) ar o g sm n d' s' :
  dev_stream_capture fuel d s ar o g sm = Some (n, d', s') -> ds_dev_id d' = ds_dev_id d /\ same_devices s s'.
Proof.
  unfold dev_stream_capture. intros (c & _ & Hs)%bind_Some. revert Hs. case_match.
  - intros (fr & _ & (ca & _ & ([nr d1] & H1 & ([[t d2] s2] & H2 & [= <- <- <-])%bind_Some)%bind_Some)%bind_Some)%bind_Some.
    assert (Hid : ds_dev_id d1 = ds_dev_id d).
    { revert H1. unfold capture_with_fmt_conv. intros (c1 & _ & ([[c2 b2] r2] & _ & [= <- <-])%bind_Some)%bind_Some. done. }
    revert H2. unfold capture_copy_converted_to_stream.
    intros (c1 & _ & ([ss k] & _ & (q & _ & ([[[a1 b1] s1] w1] & Hl & [= <- <- <-])%bind_Some)%bind_Some)%bind_Some)%bind_Some.
    split; [done|]. apply copy_converted_devices in Hl. etransitivity; [|exact Hl]. by apply same_table_devices.
  - intros ([ss k] & _ & (sa & _ & ([nr m] & _ & [= <- <- <-])%bind_Some)%bind_Some)%bind_Some. split; [done|].
    etransitivity; [|apply offset_update_devices]. by apply same_table_devices.
Qed.

Lemma audio_ready_table (s : cras_rstream) n w : same_table s (snd (cras_rstream_audio_ready s n w)).
Proof. unfold cras_rstream_audio_ready. by repeat case_match. Qed.

Lemma captured_devices t1 t2 t3 w (s s' : cras_rstream) rc msgs :
  dev_stream_capture_update_rstream t1 t2 t3 w s = Some (rc, msgs, s') -> same_devices s s'.
Proof.
  unfold dev_stream_capture_update_rstream. case_match; [by intros [= <- <- <-]|].
  set (s1 := cras_rstream_update_input_write_pointer s).
  assert (H1 : same_devices s s1) by apply write_pointer_devices. clearbody s1.
  intros Hs. transitivity s1; [exact H1|]. apply same_table_devices. revert Hs.
  intros (late & _ & Hs)%bind_Some. revert Hs. case_match; [by intros [= <- <- <-]|].
  intros (met & _ & Hs)%bind_Some. revert Hs. case_match; [by intros [= <- <- <-]|].
  intros (n & _ & Hs)%bind_Some. revert Hs. pose proof (audio_ready_table s1 n w) as Ha.
  destruct (cras_rstream_audio_ready s1 n w) as [[rc1 m1] s2]. simpl in Ha.
  case_match; [by intros [= <- <- <-]|]. intros (s3 & Hw & [= <- <- <-])%bind_Some.
  apply next_wake_table in Hw. transitivity s2; [done|]. etransitivity; [|exact Hw]. by case_match.
Qed.

(** ** A stream is created for a device *)

Lemma create_attaches env post (s : cras_rstream) id fmt ptr t out s' :
  dev_stream_create env post s id fmt ptr t = Some (out, s') ->
  match out with
  | None => s' = s
  | Some ds => ds_dev_id ds = id /\
      exists s1, same_table s s1 /\ cras_rstream_dev_attach (de_fresh env) s1 id ptr = Some s'
  end.
Proof.
  unfold dev_stream_create. case_match; [done|].
  intros (mx & _ & ([rc conv] & _ & Hs)%bind_Some)%bind_Some. revert Hs. case_match; [by intros [= <- <-]|].
  intros (c & _ & (n & _ & (b & _ & (sl & _ & (s2 & Ha & [= <- <-])%bind_Some)%bind_Some)%bind_Some)%bind_Some)%bind_Some.
  split; [done|]. eexists. split; [|exact Ha]. done.
Qed.
End Kept.
