(* ===== verification/DevLinksKept.v ===== *)
(** * The audio thread keeps devices and streams linked

    All that server/dev_io.c does between attaching and detaching leaves the
    devices' streams and the streams' tables of devices as they are; attaching
    and detaching change both sides. *)
From coqutil Require Import Datatypes.RecordSetters.
From S2P Require Import Prelude Prog Arrays Float32 Types DList Timespec Timers ByteBuffer BufferShare Shm AudioFormat Mix AudioArea.
From S2P Require Import FmtConv Ramp Volume Rstream DevStream InputData Iodev IodevOutput IodevOpen IodevStates EmptyIodev IodevLevels.
From S2P Require Import Thread DevIoPlayback DevIoCapture DevIo DevLinks DevStreamKept.
Import TriangleBracketNotations.
#[local] Open Scope Z_scope.
#[local] Open Scope prog_scope.

Section Kept.
Context {P : pcm_library} {L : speex_library} {RE : rate_library} {D : dsp_service} {AP : apm_service}.
Context {hw : Type} {H : iodev_hw (hw := hw)} {X : iodev_xrun (hw := hw)} {V : iodev_driver (hw := hw)} {W : surroundings}.
Context (fuel : nat).

Definition outline_of (d : cras_iodev hw) : outline :=
  (io_idx d, (fun e => (e.1, at_stream e.2, ds_dev_id (at_dev_stream e.2))) <$> io_streams d).

Definition outlines (s : thread hw) : gmap Z outline := outline_of <$> th_devs s.
Definition streams (s : thread hw) : gmap Z cras_rstream := sv_rstreams (th_srv s).

Definition linked (s : thread hw) : Prop := links (outlines s) (streams s).

Definition kept (s s' : thread hw) : Prop :=
  outlines s' = outlines s /\ streams_kept (streams s) (streams s').

#[export] Instance kept_preorder : PreOrder kept.
Proof.
  split.
  - intros s. split; [done|reflexivity].
  - intros s1 s2 s3 [H1 H2] [H3 H4]. split; [congruence|by transitivity (streams s2)].
Qed.

Lemma kept_linked (s s' : thread hw) : kept s s' -> linked s -> linked s'.
Proof. intros [Ho Hs] Hl. unfold linked. rewrite Ho. by eapply links_kept. Qed.

Definition linked_too (s s' : thread hw) : Prop := linked s -> linked s'.
#[export] Instance linked_too_preorder : PreOrder linked_too.
Proof. split; [by intros s Hs|]. intros s1 s2 s3 H1 H2 Hs. by apply H2, H1. Qed.

(** ** A device's operations *)

Definition dev_view (s : iodev_state hw) := (outline_of (dev s), tables (srv s)).
Context {DK : driver_keeps dev_view}.

Lemma dev_view_reads (s s' : iodev_state hw) :
  io_state (dev s') = io_state (dev s) -> io_direction (dev s') = io_direction (dev s) ->
  io_streams (dev s') = io_streams (dev s) -> io_idx (dev s') = io_idx (dev s) -> io_is_enabled (dev s') = io_is_enabled (dev s) -> tables (srv s') = tables (srv s) ->
  dev_view s' = dev_view s.
Proof. unfold dev_view, outline_of. intros _ _ -> -> _ ->. done. Qed.

Lemma tables_kept (v v' : server) : tables v' = tables v -> streams_kept (sv_rstreams v) (sv_rstreams v').
Proof.
  intros Ht r. assert (Hr : tables v' !! r = tables v !! r) by (by rewrite Ht). unfold tables in Hr.
  rewrite !lookup_fmap in Hr. destruct (sv_rstreams v !! r) as [x|], (sv_rstreams v' !! r) as [x'|]; try done; constructor.
  injection Hr as H1 H2 H3. by apply same_table_devices.
Qed.

Lemma outlines_insert (k : Z) (d d' : cras_iodev hw) (s : thread hw) :
  th_devs s !! k = Some d -> outline_of d' = outline_of d -> outline_of <$> <[k := d']> (th_devs s) = outlines s.
Proof.
  intros Hd Ho. unfold outlines. rewrite fmap_insert, Ho. apply insert_id. by rewrite lookup_fmap, Hd.
Qed.

Lemma put_iodev_kept (k : Z) (d : cras_iodev hw) (t : iodev_state hw) (s : thread hw) :
  th_devs s !! k = Some d -> dev_view t = dev_view (IodevState d (th_srv s)) -> kept s (put_iodev k t s).
Proof.
  intros Hd Hv. injection Hv as Hi Hl Ht. unfold put_iodev. split.
  - apply (outlines_insert k d); [done|]. unfold outline_of. by rewrite Hi, Hl.
  - apply (tables_kept (th_srv s) (srv t)). exact Ht.
Qed.

Lemma on_dev_kept {A} (k : Z) (m : iodev_prog (hw := hw) A) : keeps dev_view m -> respects kept (on_dev k m).
Proof.
  intros Hm s. apply yields_on_dev. intros d Hd. eapply yields_mono; [apply Hm|].
  intros a t Hv. by eapply put_iodev_kept.
Qed.
#[local] Hint Resolve on_dev_kept : respects.

Lemma view_set_dev (f : cras_iodev hw -> cras_iodev hw) :
  (forall d, outline_of (f d) = outline_of d) -> keeps dev_view (set_dev f).
Proof. intros Hf. apply keeps_modify. intros s. unfold dev_view. simpl. by rewrite Hf. Qed.
#[local] Hint Extern 1 (keeps dev_view (set_dev _)) => (apply view_set_dev; reflexivity) : keeps.
#[local] Hint Extern 1 (keeps dev_view (set_srv _)) =>
  (apply (keeps_set_srv dev_view dev_view_reads); reflexivity) : keeps.

Lemma view_frames_queued : keeps dev_view cras_iodev_frames_queued.
Proof. exact (keeps_frames_queued dev_view dev_view_reads). Qed.
Lemma view_put_output_buffer frames n ask conv : keeps dev_view (cras_iodev_put_output_buffer frames n ask conv).
Proof. exact (keeps_put_output_buffer dev_view dev_view_reads frames n ask conv). Qed.
Lemma view_fill_zeros n : keeps dev_view (cras_iodev_fill_odev_zeros fuel n).
Proof. exact (keeps_fill_odev_zeros fuel dev_view dev_view_reads n). Qed.
Lemma view_underrun : keeps dev_view (cras_iodev_output_underrun fuel).
Proof. exact (keeps_underrun fuel dev_view dev_view_reads). Qed.
Lemma view_playback_frames : keeps dev_view dev_playback_frames.
Proof. exact (keeps_playback_frames dev_view dev_view_reads). Qed.
Lemma view_start_ramp r : keeps dev_view (cras_iodev_start_ramp r).
Proof. exact (keeps_start_ramp dev_view dev_view_reads r). Qed.
Lemma view_should_mute : keeps dev_view output_should_mute.
Proof. exact (keeps_should_mute dev_view). Qed.
Lemma view_sleep : keeps dev_view cras_iodev_default_frames_to_play_in_sleep.
Proof. exact (keeps_sleep dev_view dev_view_reads). Qed.
#[local] Hint Resolve view_frames_queued view_put_output_buffer view_fill_zeros view_underrun view_playback_frames
  view_start_ramp view_should_mute view_sleep : keeps.
#[local] Hint Resolve keeps_get_dev keeps_get_srv : keeps.
#[local] Hint Extern 1 (keeps dev_view (emit _)) => exact (keeps_emit dev_view dev_view_reads _) : keeps.
#[local] Hint Extern 1 (keeps dev_view frames_queued) => apply dk_frames_queued : keeps.
#[local] Hint Extern 1 (keeps dev_view delay_frames) => apply dk_delay_frames : keeps.
#[local] Hint Extern 1 (keeps dev_view (get_buffer _)) => apply dk_get_buffer : keeps.
#[local] Hint Extern 1 (keeps dev_view (put_buffer _)) => apply dk_put_buffer : keeps.
#[local] Hint Extern 1 (keeps dev_view flush_buffer) => apply dk_flush_buffer : keeps.
#[local] Hint Extern 1 (keeps dev_view (no_stream _)) => apply dk_no_stream : keeps.
#[local] Hint Extern 2 (keeps dev_view _) =>
  match goal with
  | E : start _ = Some _ |- _ => exact (dk_start _ _ E)
  | E : is_free_running _ = Some _ |- _ => exact (dk_is_free_running _ _ E)
  | E : get_valid_frames _ = Some _ |- _ => exact (dk_get_valid_frames _ _ E)
  | E : frames_to_play_in_sleep _ = Some _ |- _ => exact (dk_frames_to_play _ _ E)
  end : keeps.

Lemma view_start : keeps dev_view cras_iodev_start.
Proof. unfold cras_iodev_start. keep. Qed.
Lemma view_transition e : keeps dev_view (cras_iodev_no_stream_playback_transition e).
Proof. unfold cras_iodev_no_stream_playback_transition. keep. Qed.
#[local] Hint Resolve view_start view_transition : keeps.

Lemma view_prepare : keeps dev_view (cras_iodev_prepare_output_before_write_samples fuel).
Proof. unfold cras_iodev_prepare_output_before_write_samples, cras_iodev_output_event_sample_ready. keep. Qed.
Lemma view_delay : keeps dev_view cras_iodev_delay_frames.
Proof. unfold cras_iodev_delay_frames, cras_iodev_get_dsp_delay. keep. Qed.
Lemma view_get_output_buffer n : keeps dev_view (cras_iodev_get_output_buffer n).
Proof. unfold cras_iodev_get_output_buffer. keep. Qed.
Lemma view_on_mem f : keeps dev_view (on_mem f).
Proof. unfold on_mem. keep. Qed.
Lemma view_apply_dsp b n : keeps dev_view (apply_dsp b n).
Proof. unfold apply_dsp, run_input_data, each. keep. Qed.
#[local] Hint Resolve view_on_mem view_apply_dsp : keeps.
Lemma view_max_offset : keeps dev_view cras_iodev_max_stream_offset.
Proof. unfold cras_iodev_max_stream_offset, find_rstream. keep. Qed.
Lemma view_all_written : keeps dev_view cras_iodev_all_streams_written.
Proof. unfold cras_iodev_all_streams_written. keep. Qed.
Lemma view_stream_written s n : keeps dev_view (cras_iodev_stream_written s n).
Proof. unfold cras_iodev_stream_written. keep. Qed.
Lemma view_frames_to_play : keeps dev_view cras_iodev_frames_to_play_in_sleep.
Proof. unfold cras_iodev_frames_to_play_in_sleep. keep. Qed.
Lemma view_should_wake : keeps dev_view cras_iodev_odev_should_wake.
Proof. unfold cras_iodev_odev_should_wake. keep. Qed.
Lemma view_update_rate n t : keeps dev_view (cras_iodev_update_rate n t).
Proof. unfold cras_iodev_update_rate. keep. Qed.
Lemma view_highest n : keeps dev_view (cras_iodev_update_highest_hw_level n).
Proof. unfold cras_iodev_update_highest_hw_level. keep. Qed.
Lemma view_reset_request n : keeps dev_view (cras_iodev_reset_request n).
Proof. unfold cras_iodev_reset_request. keep. Qed.
Lemma view_valid_frames : keeps dev_view cras_iodev_get_valid_frames.
Proof. unfold cras_iodev_get_valid_frames. keep. Qed.
Lemma view_get_input n : keeps dev_view (cras_iodev_get_input_buffer n).
Proof. unfold cras_iodev_get_input_buffer, update_input_data. keep. Qed.
Lemma view_put_input : keeps dev_view cras_iodev_put_input_buffer.
Proof. unfold cras_iodev_put_input_buffer, update_input_data, add_rate_frames. keep. Qed.
Lemma view_drop t : keeps dev_view (cras_iodev_drop_frames_by_time t).
Proof.
  unfold cras_iodev_drop_frames_by_time, cras_iodev_drop_frames. cbn [drop_frames_loop].
  unfold update_input_data, add_rate_frames. keep.
Qed.

Lemma dl_update_stops (l l' : dlist attached) p f :
  (forall a, dl_find l p = Some a ->
     at_stream (f a) = at_stream a /\ ds_dev_id (at_dev_stream (f a)) = ds_dev_id (at_dev_stream a)) ->
  dl_update l p f = Some l' ->
  (fun e => (e.1, at_stream e.2, ds_dev_id (at_dev_stream e.2))) <$> l' =
  (fun e => (e.1, at_stream e.2, ds_dev_id (at_dev_stream e.2))) <$> l.
Proof.
  revert l'. induction l as [|[q a] l IH]; intros l' Hf; simpl in *; [done|].
  destruct (q =? p).
  - intros [= <-]. csimpl. by destruct (Hf a eq_refl) as [-> ->].
  - destruct (dl_update l p f) as [l1|]; [|done]. intros [= <-]. csimpl. f_equal. by apply IH.
Qed.

(** A list with the device's own stops put back. *)
Lemma view_put_streams (s s1 : iodev_state hw) (f : list (Z * attached) -> cras_iodev hw -> cras_iodev hw) p g (l : dlist attached) :
  (forall l d, io_idx (f l d) = io_idx d /\ io_streams (f l d) = l) ->
  (forall a, dl_find (io_streams (dev s)) p = Some a ->
     at_stream (g a) = at_stream a /\ ds_dev_id (at_dev_stream (g a)) = ds_dev_id (at_dev_stream a)) ->
  dl_update (io_streams (dev s)) p g = Some l -> dev_view s1 = dev_view s ->
  dev_view (s1 <| dev ::= f l |>) = dev_view s.
Proof.
  intros Hf Hg Hl Hv. injection Hv as Hi Hs Ht. unfold dev_view, outline_of.
  change (dev (s1 <| dev ::= f l |>)) with (f l (dev s1)). change (srv (s1 <| dev ::= f l |>)) with (srv s1).
  destruct (Hf l (dev s1)) as [-> ->]. rewrite Hi, Ht. by rewrite (dl_update_stops _ _ _ _ Hg Hl).
Qed.

Lemma view_start_stream fresh p : keeps dev_view (cras_iodev_start_stream fresh p).
Proof.
  intros s. unfold cras_iodev_start_stream, find_rstream, get_dev, get_srv. repeat prog_step.
  apply yields_bind, yields_here. intros a Ha. repeat prog_step. apply yields_here. intros x Hx.
  apply yields_bind, yields_here. intros n Hn. destruct (ds_is_running _); [by prog_step|].
  eapply yields_keeps with (R := dev_view); [keep|]. intros _ s1 Hs1.
  apply yields_bind, yields_here. intros l Hl. unfold set_dev. prog_step.
  eapply (view_put_streams s s1 (fun l d => d <| io_min_cb_level ::= _ |> <| io_max_cb_level ::= _ |>
    <| io_largest_cb_level ::= _ |> <| io_streams := l |>) p); [| |exact Hl|exact Hs1]; by intros; split.
Qed.

#[local] Hint Resolve view_start_stream view_prepare view_delay view_get_output_buffer view_on_mem view_max_offset
  view_all_written view_stream_written view_frames_to_play view_should_wake view_update_rate view_highest
  view_reset_request view_valid_frames view_get_input view_put_input view_drop : keeps.

(** ** The thread's own programs *)

Lemma kept_set_thread (f : thread hw -> thread hw) :
  (forall s, th_devs (f s) = th_devs s) -> (forall s, th_srv (f s) = th_srv s) -> respects kept (set_thread f).
Proof.
  intros H1 H2. apply respects_modify. intros s. unfold kept, outlines, streams. rewrite H1, H2. by split.
Qed.
#[local] Hint Extern 2 (respects kept (set_thread _)) => 
  (apply kept_set_thread; reflexivity) : respects.

Lemma kept_look {A} (f : nat -> A) : respects kept (look f).
Proof. unfold look. respect. Qed.
Lemma kept_clock : respects kept clock_gettime.
Proof. apply kept_look. Qed.
Lemma kept_send e : respects kept (send e).
Proof. unfold send. respect. Qed.
#[local] Hint Resolve kept_look kept_clock kept_send : respects.
Lemma kept_put_open_devs i l : respects kept (put_open_devs i l).
Proof. unfold put_open_devs. apply kept_set_thread; by destruct i. Qed.
#[local] Hint Resolve kept_put_open_devs : respects.
Lemma kept_set_open_dev i q f : respects kept (set_open_dev i q f).
Proof. unfold set_open_dev. respect. Qed.
#[local] Hint Resolve kept_set_open_dev : respects.

(** A stream that is there is changed. *)
Lemma kept_put_stream r x x' s :
  streams s !! r = Some x -> same_devices x x' -> yields (put_stream r x') s (fun _ s' => kept s s').
Proof.
  intros Hx Hs. unfold put_stream, set_thread. prog_step. split; [done|].
  by apply (streams_kept_insert _ _ x).
Qed.

Lemma kept_update_stream {A} r (x x' : cras_rstream) (k : thread_prog (hw := hw) A) s :
  streams s !! r = Some x -> same_devices x x' -> respects kept k ->
  yields (put_stream r x' ;; k) s (fun _ s' => kept s s').
Proof.
  intros Hx Hs Hk. apply (respects_from kept). eapply yields_mono; [by eapply kept_put_stream|]. by intros.
Qed.

(** Reads of the surroundings leave the devices and the streams where they are. *)
Lemma yields_look {A B} (f : nat -> A) (k : A -> thread_prog (hw := hw) B) s :
  (forall a s', th_devs s' = th_devs s -> streams s' = streams s -> yields (k a) s' (fun _ s2 => kept s' s2)) ->
  yields (bind (look f) k) s (fun _ s2 => kept s s2).
Proof.
  intros Hk. unfold look, set_thread. repeat prog_step. eapply yields_mono; [by apply Hk|].
  intros b s2 H2. etransitivity; [|exact H2]. by split.
Qed.

Lemma yields_the_stream {B} r (k : cras_rstream -> thread_prog (hw := hw) B) s (Q : B -> thread hw -> Prop) :
  (forall x, streams s !! r = Some x -> yields (k x) s Q) -> yields (bind (the_stream r) k) s Q.
Proof. intros Hk. unfold the_stream. repeat prog_step. apply yields_here. intros x Hx. by apply Hk. Qed.

Lemma yields_there' {St A B} (o : option A) (k : A -> prog St B) s (Q : B -> St -> Prop) :
  (forall a, o = Some a -> yields (k a) s Q) -> yields (bind (here o) k) s Q.
Proof. intros Hk. by apply yields_bind, yields_here. Qed.

Lemma yields_there {A B} (o : option A) (k : A -> thread_prog (hw := hw) B) s (Q : B -> thread hw -> Prop) :
  (forall a, o = Some a -> yields (k a) s Q) -> yields (bind (here o) k) s Q.
Proof. intros Hk. by apply yields_bind, yields_here. Qed.

Lemma yields_after (s0 s : thread hw) {A} (m : thread_prog (hw := hw) A) :
  kept s0 s -> yields m s (fun _ s' => kept s s') -> yields m s (fun _ s' => kept s0 s').
Proof. intros Hk Hm. eapply yields_mono; [exact Hm|]. intros a s' H'. by transitivity s. Qed.

Lemma yields_the_iodev {B} k (f : cras_iodev hw -> thread_prog (hw := hw) B) s (Q : B -> thread hw -> Prop) :
  (forall d, th_devs s !! k = Some d -> yields (f d) s Q) -> yields (bind (the_iodev k) f) s Q.
Proof. intros Hk. unfold the_iodev. repeat prog_step. apply yields_here. intros x Hx. by apply Hk. Qed.

Definition attached_at (s : thread hw) (k p : Z) (e : attached) : Prop :=
  exists d, th_devs s !! k = Some d /\ dl_find (io_streams d) p = Some e.

Lemma yields_the_attached {B} k p (f : attached -> thread_prog (hw := hw) B) s (Q : B -> thread hw -> Prop) :
  (forall e, attached_at s k p e -> yields (f e) s Q) -> yields (bind (the_attached k p) f) s Q.
Proof.
  intros Hk. unfold the_attached, the_iodev. repeat prog_step. apply yields_here. intros d Hd.
  apply yields_here. intros e He. apply Hk. by exists d.
Qed.

Lemma yields_put_dev_stream {B} k p ds e (m : thread_prog (hw := hw) B) s (Q : B -> thread hw -> Prop) :
  attached_at s k p e -> ds_dev_id ds = ds_dev_id (at_dev_stream e) ->
  (forall s', streams s' = streams s -> kept s s' -> yields m s' Q) -> yields (put_dev_stream k p ds ;; m) s Q.
Proof.
  intros (d & Hd & He) Hds Hm. unfold put_dev_stream.
  eapply yields_step with (Q := fun _ s' => streams s' = streams s /\ kept s s').
  2:{ intros a s' [H1 H2]. by apply Hm. }
  apply yields_on_dev. intros d' Hd'. rewrite Hd in Hd'. injection Hd' as <-.
  unfold get_dev, set_dev. prog_step. apply yields_there'. intros l Hl. prog_step.
  split; [done|]. split; [|reflexivity].
  apply (outlines_insert k d); [done|]. unfold outline_of. simpl. f_equal.
  apply (dl_update_stops (io_streams d) l p (fun a => Attached (at_stream a) ds)); [|exact Hl].
  intros a Ha. rewrite He in Ha. injection Ha as <-. by split.
Qed.

(** A stream and its place on the device are changed together. *)
Lemma kept_store k p ds e x x' s :
  attached_at s k p e -> ds_dev_id ds = ds_dev_id (at_dev_stream e) ->
  streams s !! at_stream e = Some x -> same_devices x x' ->
  yields (put_dev_stream k p ds ;; put_stream (at_stream e) x') s (fun _ s' => kept s s').
Proof.
  intros He Hds Hx Hxx. eapply yields_put_dev_stream; [exact He|exact Hds|]. intros s1 Hs1 Hk1.
  apply (yields_after s s1); [exact Hk1|]. apply (kept_put_stream _ x); [by rewrite Hs1|done].
Qed.

(** ** Rates and fetching *)

#[local] Hint Extern 3 (respects kept (on_dev _ _)) => (apply on_dev_kept; solve [keep]) : respects.

(** Takes a step that needs something of the state. *)
Ltac kept_step :=
  match goal with
  | |- yields (bind (the_stream _) _) _ _ => apply yields_the_stream; intros
  | |- yields (bind (the_iodev _) _) _ _ => apply yields_the_iodev; intros
  | |- yields (bind (the_attached _ _) _) _ _ => apply yields_the_attached; intros
  | |- yields (bind (here _) _) _ _ => apply yields_there; intros
  | |- yields (bind (look _) _) _ _ => apply yields_look; intros
  | |- yields (bind clock_gettime _) _ _ => apply yields_look; intros
  end.

(** The stream or the device is the one that was there before. *)
Ltac same_there :=
  unfold attached_at in *;
  repeat match goal with
  | E : streams ?a = _ |- context [streams ?a] => rewrite E
  | E : th_devs ?a = _ |- context [th_devs ?a] => rewrite E
  end; eassumption.

Lemma kept_update_estimated_rate i q : respects kept (update_estimated_rate i q).
Proof.
  unfold update_estimated_rate. apply (respects_bind kept); [auto with respects|]. intros a.
  apply (respects_each_stream kept). intros p s. kept_step. kept_step. destruct (_ =? 0); [by prog_step|].
  repeat kept_step. destruct a3 as [ds x']. apply set_rate_table in H7 as [Hid Hs].
  eapply kept_store; [done|done|done|by apply same_table_devices].
Qed.

Lemma kept_check_transition i : respects kept (check_non_empty_state_transition i).
Proof. unfold check_non_empty_state_transition. respect. Qed.
#[local] Hint Resolve kept_update_estimated_rate kept_check_transition : respects.

Lemma kept_request r now : respects kept (request_playback_samples r now).
Proof.
  unfold request_playback_samples. intros s. repeat kept_step. destruct a2 as [[rc msgs] x'].
  eapply kept_update_stream; [same_there|eapply same_table_devices, request_table; eassumption|respect].
Qed.

Lemma kept_set_delay k p n : respects kept (set_delay k p n).
Proof.
  unfold set_delay. intros s. repeat kept_step.
  eapply kept_put_stream; [same_there|eapply same_table_devices, set_delay_table; eassumption].
Qed.

Lemma kept_flush r : respects kept (flush_old_audio_messages r).
Proof.
  unfold flush_old_audio_messages. intros s. repeat kept_step.
  eapply kept_put_stream; [same_there|eapply same_table_devices, flush_table; eassumption].
Qed.
#[local] Hint Resolve kept_request kept_set_delay kept_flush : respects.

(** A stream is read and written back. *)
Lemma kept_change_stream r (f : cras_rstream -> cras_rstream) :
  (forall x, same_table x (f x)) -> respects kept (let* s := the_stream r in put_stream r (f s)).
Proof. intros Hf s. kept_step. eapply kept_put_stream; [eassumption|by apply same_table_devices]. Qed.

#[local] Hint Extern 1 (respects kept (bind (the_stream _) _)) =>
  match goal with
  | |- respects kept (bind (the_stream ?r) (fun x => put_stream ?r (@?f x))) =>
      apply (kept_change_stream r f); intros; first [apply fetch_interval_table | done]
  end : respects.

Lemma kept_run {A} (m : thread_prog (hw := hw) A) s : respects kept m -> yields m s (fun _ s' => kept s s').
Proof. intros Hm. apply Hm. Qed.

Lemma kept_fetch_running k p n now : respects kept (fetch_running k p n now).
Proof.
  unfold fetch_running. apply (respects_bind kept); [auto with respects|]. intros e.
  destruct (negb _); [respect|]. intros s. kept_step. kept_step. destruct (negb a); [by prog_step|]. kept_step.
  apply (respects_from kept). eapply yields_mono with (Q := fun _ s' => kept s s').
  { destruct (_ <? 0); [|by prog_step]. eapply kept_put_stream; [eassumption|by apply same_table_devices]. }
  intros _ s1 Hk. split; [exact Hk|]. clear. intros s. kept_step.
  destruct (negb _); [by prog_step|]. destruct (negb _); [by prog_step|]. destruct (negb _).
  - repeat kept_step. eapply kept_put_stream; [same_there|eapply same_table_devices, next_wake_table; eassumption].
  - apply kept_run. respect.
Qed.

Lemma kept_fetch_stream k n p : respects kept (fetch_stream k n p).
Proof.
  pose proof kept_fetch_running. unfold fetch_stream. respect_thread.
Qed.
#[local] Hint Resolve kept_fetch_stream : respects.

Lemma kept_fetch_streams k : respects kept (fetch_streams k).
Proof. unfold fetch_streams. respect_thread. Qed.

Lemma kept_check_start k : respects kept (dev_io_check_dev_stream_start k).
Proof. unfold dev_io_check_dev_stream_start. respect_thread. Qed.
#[local] Hint Resolve kept_fetch_streams kept_check_start : respects.

Lemma kept_playback_fetch : respects kept dev_io_playback_fetch.
Proof. unfold dev_io_playback_fetch, if_open. respect_thread. Qed.

(** ** Taking a stream off a device *)

(** The device after [k] of the streams [l]. *)
Definition removing_at (r : Z) (l : list (Z * attached)) (s0 : iodev_state hw) (k : nat) (c : option Z * option timespec)
    (s : iodev_state hw) : Prop :=
  io_streams (dev s) = others r (take k l) ++ drop k l /\ io_idx (dev s) = io_idx (dev s0) /\
  tables (srv s) = tables (srv s0) /\ fst c = last (addrs (filter (fun e => at_stream e.2 = r) (take k l))).

Lemma removing_step r l s0 k p a c s :
  NoDup (addrs l) -> l !! k = Some (p, a) -> removing_at r l s0 k c s ->
  yields (rm_stream_pass r (p, a) c) s (removing_at r l s0 (S k)).
Proof.
  intros Hnd Hk (H1 & H2 & H3 & H4). pose proof (take_S_r _ _ _ Hk) as Ht. pose proof (drop_S _ _ _ Hk) as Hd.
  destruct c as [found e]. simpl in H4. unfold rm_stream_pass, find_rstream, get_dev, get_srv. repeat prog_step.
  apply yields_here. intros x Hx. destruct (Z.eqb_spec (at_stream a) r) as [Hr|Hr].
  - apply yields_there'. intros b Hb. apply yields_there'. intros l' Hl'. unfold set_dev. repeat prog_step.
    rewrite H1, Hd, dl_delete_app in Hl'.
    2:{ assert (Hl : l = take k l ++ (p, a) :: drop (S k) l) by (rewrite <- Hd; by rewrite take_drop).
        rewrite Hl in Hnd. apply NoDup_middle in Hnd as (Hp & _). intros Hin. apply Hp.
        eapply elem_of_submseteq; [exact Hin|]. apply fmap_submseteq, sublist_submseteq, sublist_filter. }
    injection Hl' as <-. unfold removing_at, others. rewrite Ht, !filter_app. simpl.
    rewrite filter_cons_False, filter_cons_True, !filter_nil, app_nil_r, addrs_app by (simpl; congruence).
    split_and!; [done..|]. cbn. by rewrite last_snoc.
  - assert (Hrest : io_streams (dev s) = others r (take (S k) l) ++ drop (S k) l /\
                    found = last (addrs (filter (fun e => at_stream e.2 = r) (take (S k) l)))).
    { rewrite H1, H4, Hd, Ht. unfold others. rewrite !filter_app, filter_cons_True, filter_cons_False, !filter_nil by done.
      by rewrite <- app_assoc, app_nil_r. }
    destruct Hrest as [H1' H4']. destruct (negb _); [by prog_step|].
    apply yields_there'. intros t Hth. unfold set_dev. by repeat prog_step.
Qed.

Lemma view_set_time t p : keeps dev_view (let* s := find_rstream p in put_rstream p (set_rs_next_cb_ts t s)).
Proof.
  intros s. unfold find_rstream, put_rstream, get_srv, set_srv. repeat prog_step. apply yields_here. intros x Hx.
  prog_step. unfold dev_view. simpl. f_equal. unfold tables. simpl. rewrite fmap_insert. apply insert_id.
  by rewrite lookup_fmap, Hx.
Qed.

Lemma outline_others r (l : list (Z * attached)) :
  (fun e => (e.1, at_stream e.2, ds_dev_id (at_dev_stream e.2))) <$> others r l =
  filter (fun y => st_stream y <> r) ((fun e => (e.1, at_stream e.2, ds_dev_id (at_dev_stream e.2))) <$> l).
Proof.
  unfold others. induction l as [|[p a] l IH]; [done|]. rewrite fmap_cons, !filter_cons.
  change (st_stream (p, at_stream a, ds_dev_id (at_dev_stream a))) with (at_stream a). simpl.
  destruct (decide _); [|exact IH]. rewrite fmap_cons. f_equal. exact IH.
Qed.

Lemma yields_taken_off r s :
  NoDup (addrs (io_streams (dev s))) ->
  yields (cras_iodev_rm_stream r) s (fun found s' =>
    dev_view s' = ((io_idx (dev s), filter (fun y => st_stream y <> r) (outline_of (dev s)).2), tables (srv s)) /\
    found = last (addrs (filter (fun e => at_stream e.2 = r) (io_streams (dev s))))).
Proof.
  intros Hnd. unfold cras_iodev_rm_stream, get_dev. unfold set_dev at 1. repeat prog_step.
  set (s1 := s <| dev ::= _ |>). set (l := io_streams (dev s)).
  eapply yields_step with (Q := removing_at r l s (0 + length l)%nat).
  { apply (yields_fold_at (removing_at r l s)); [done|]. intros i [p a] c s2 Hi Hs2. by apply removing_step. }
  intros [found e] s2 (H1 & H2 & H3 & H4). rewrite Nat.add_0_l, firstn_all, drop_all, app_nil_r in H1. simpl in H4.
  rewrite firstn_all in H4. assert (Hv : dev_view s2 = ((io_idx (dev s), filter (fun y => st_stream y <> r) (outline_of (dev s)).2), tables (srv s))).
  { unfold dev_view, outline_of. rewrite H1, H2, H3, outline_others. done. }
  clearbody s1. prog_step.
  eapply yields_keeps with (R := dev_view); [destruct (io_streams (dev s2)); keep|]. intros _ s3 H5. rewrite Hv in H5.
  destruct e as [t|]; [|by prog_step]. prog_step.
  eapply yields_keeps with (R := dev_view).
  { unfold each. pose proof view_set_time. keep. }
  intros _ s4 H6. prog_step. split; [congruence|done].
Qed.

Lemma yields_given {A} (B : Prop) (m : thread_prog (hw := hw) A) s (Q : thread hw -> Prop) :
  (B -> yields m s (fun _ s' => Q s')) -> yields m s (fun _ s' => B -> Q s').
Proof. unfold yields. destruct (m s) as [[a s']|]; auto. Qed.

Lemma outline_at (s : thread hw) k d : th_devs s !! k = Some d -> outlines s !! k = Some (outline_of d).
Proof. intros Hd. unfold outlines. by rewrite lookup_fmap, Hd. Qed.

Lemma linked_once (s : thread hw) k d : linked s -> th_devs s !! k = Some d -> NoDup (addrs (io_streams d)).
Proof.
  intros Hl Hd. destruct (ln_once _ _ Hl k _ (outline_at s k d Hd)) as [Ha _]. simpl in Ha.
  by rewrite <- list_fmap_compose in Ha.
Qed.

Lemma stops_of (r : Z) (l : list (Z * attached)) :
  r ∈ st_stream <$> ((fun e => (e.1, at_stream e.2, ds_dev_id (at_dev_stream e.2))) <$> l) <->
  exists p e, (p, e) ∈ l /\ at_stream e = r.
Proof.
  rewrite <- list_fmap_compose. split.
  - intros ([p e] & -> & He)%list_elem_of_fmap. by exists p, e.
  - intros (p & e & He & <-). apply list_elem_of_fmap. by exists (p, e).
Qed.

Definition unlinked (s : thread hw) (k r : Z) (d : cras_iodev hw) (s1 : thread hw) : Prop :=
  outlines s1 = <[k := (io_idx d, filter (fun y => st_stream y <> r) (outline_of d).2)]> (outlines s) /\
  streams_kept (streams s) (streams s1).

Lemma yields_unlink {A} k r d s (f : option Z -> thread_prog (hw := hw) A) (Q : A -> thread hw -> Prop) :
  th_devs s !! k = Some d -> linked s ->
  (forall s1, unlinked s k r d s1 -> yields (f (last (addrs (filter (fun e => at_stream e.2 = r) (io_streams d))))) s1 Q) ->
  yields (bind (on_dev k (cras_iodev_rm_stream r)) f) s Q.
Proof.
  intros Hd Hl Hf. eapply yields_step with (Q := fun found s1 => unlinked s k r d s1 /\
    found = last (addrs (filter (fun e => at_stream e.2 = r) (io_streams d)))).
  2:{ intros found s1 [H1 ->]. by apply Hf. }
  apply yields_on_dev. intros d' Hd'. rewrite Hd in Hd'. injection Hd' as <-.
  eapply yields_mono; [apply yields_taken_off; by eapply linked_once|]. intros found t [Hv ->]. split; [|done].
  injection Hv as Hi Ht Hs. split.
  - unfold outlines, put_iodev. simpl. rewrite fmap_insert. f_equal. unfold outline_of. simpl. by rewrite Hi, Ht.
  - apply (tables_kept (th_srv s) (srv t)). exact Hs.
Qed.

Lemma yields_destroy k r p e d s s1 :
  th_devs s !! k = Some d -> linked s -> unlinked s k r d s1 -> (p, e) ∈ io_streams d -> at_stream e = r ->
  yields (destroy_dev_stream e) s1 (fun _ s' => linked s').
Proof.
  intros Hd Hl [Ho Hs] He Hr. unfold destroy_dev_stream. kept_step. unfold put_stream, set_thread. prog_step.
  pose proof (outline_at s k d Hd) as Hk. pose proof (links_kept _ _ _ Hl Hs) as Hl1.
  assert (Hid : ds_dev_id (at_dev_stream e) = io_idx d).
  { apply (ln_stop _ _ Hl k _ (p, at_stream e, ds_dev_id (at_dev_stream e)) Hk).
    apply list_elem_of_fmap. by exists (p, e). }
  unfold linked. change (outlines _) with (outlines s1). rewrite Ho. unfold streams. simpl.
  unfold dev_stream_destroy. rewrite Hid, Hr in *. apply links_detach; [done|exact Hk| |exact H0].
  apply stops_of. by exists p, e.
Qed.

Lemma others_all r (l : list (Z * attached)) : filter (fun e => at_stream e.2 = r) l = [] -> others r l = l.
Proof.
  unfold others. induction l as [|e l IH]; [done|]. rewrite !filter_cons. destruct (decide (at_stream e.2 = r)); [done|].
  intros Hf. destruct (decide _); [by rewrite IH|done].
Qed.

Lemma unlinked_nothing (s s1 : thread hw) k r d :
  linked s -> th_devs s !! k = Some d -> unlinked s k r d s1 -> filter (fun e => at_stream e.2 = r) (io_streams d) = [] ->
  linked s1.
Proof.
  intros Hl Hd [Ho Hs] Hf. apply (kept_linked s); [|done]. split; [|done]. rewrite Ho. apply insert_id.
  rewrite (outline_at s k d Hd). unfold outline_of. simpl. by rewrite <- outline_others, others_all.
Qed.

Lemma last_address r (l : dlist attached) p :
  last (addrs (filter (fun e => at_stream e.2 = r) l)) = Some p -> exists e, (p, e) ∈ l /\ at_stream e = r.
Proof.
  intros ([q e] & Hq & [Hr He]%list_elem_of_filter)%last_Some_elem_of%list_elem_of_fmap. simpl in *. subst q. by exists e.
Qed.

Lemma same_node (l : dlist attached) p e e' : NoDup (addrs l) -> (p, e) ∈ l -> dl_find l p = Some e' -> e' = e.
Proof.
  intros Hnd He Hf%dl_find_elem. apply list_elem_of_lookup in He as [i Hi]. apply list_elem_of_lookup in Hf as [j Hj].
  assert (i = j) as -> by (eapply (NoDup_lookup (addrs l)); [done| |]; unfold addrs; rewrite list_lookup_fmap;
    [rewrite Hi|rewrite Hj]; reflexivity). congruence.
Qed.

(** ** Programs that take streams off *)

#[local] Hint Extern 4 (respects linked_too _) =>
  (apply (respects_weaken kept linked_too); [exact kept_linked|solve [auto with respects nocore]]) : respects.

Lemma linked_delete k r : respects linked_too (delete_stream_from_dev k r).
Proof.
  intros s. unfold delete_stream_from_dev. kept_step. unfold linked_too. apply yields_given. intros Hl.
  eapply yields_unlink; [done|done|]. intros s1 Hs1.
  destruct (last _) as [p|] eqn:Hp.
  - kept_step. destruct (last_address _ _ _ Hp) as (e & He & Hr).
    assert (a = e) as -> by (eapply same_node; [by eapply linked_once|done|done]).
    by eapply yields_destroy.
  - prog_step. apply last_None, fmap_nil_inv in Hp. by eapply unlinked_nothing.
Qed.
#[local] Hint Resolve linked_delete : respects.

Lemma linked_remove_stream i r dev : respects linked_too (dev_io_remove_stream i r dev).
Proof. unfold dev_io_remove_stream. respect_thread. Qed.
#[local] Hint Resolve linked_remove_stream : respects.

Lemma linked_detach k p :
  respects linked_too (let* e := the_attached k p in
                       let* _ := on_dev k (cras_iodev_rm_stream (at_stream e)) in destroy_dev_stream e).
Proof.
  intros s. unfold linked_too. apply yields_given. intros Hl. kept_step. destruct H0 as (d & Hd & He).
  eapply yields_unlink; [done|done|]. intros s1 Hs1. eapply yields_destroy; [done..|by apply dl_find_elem|done].
Qed.
#[local] Hint Resolve linked_detach : respects.

Lemma linked_rm_open_dev i q : respects linked_too (dev_io_rm_open_dev i q).
Proof. unfold dev_io_rm_open_dev. respect_thread. Qed.
#[local] Hint Resolve linked_rm_open_dev : respects.

Lemma linked_handle_err rc i q : respects linked_too (handle_dev_err rc i q).
Proof. unfold handle_dev_err. respect_thread. Qed.
#[local] Hint Resolve linked_handle_err : respects.

(** ** Mixing and writing *)

(** A program that changes a stream and goes on. *)
Lemma linked_update_stream {A} r (x x' : cras_rstream) (m : thread_prog (hw := hw) A) s :
  streams s !! r = Some x -> same_devices x x' -> respects linked_too m ->
  yields (put_stream r x' ;; m) s (fun _ s' => linked_too s s').
Proof.
  intros Hx Hs Hm. apply (respects_from linked_too). eapply yields_mono; [eapply kept_put_stream; eassumption|].
  intros a s' Hk. split; [|done]. intros Hl. exact (kept_linked _ _ Hk Hl).
Qed.

Lemma linked_after {A} (m : thread_prog (hw := hw) A) s s1 :
  kept s s1 -> yields m s1 (fun _ s' => linked_too s1 s') -> yields m s1 (fun _ s' => linked_too s s').
Proof. intros Hk Hm. eapply yields_mono; [exact Hm|]. intros a s' H1 Hl. apply H1. by eapply kept_linked. Qed.

Lemma linked_limit_stream i k p c : respects linked_too (limit_stream i k p c).
Proof.
  unfold limit_stream. apply (respects_bind linked_too); [auto with respects|]. intros e.
  destruct (negb _); [respect|]. intros s. kept_step.
  apply (respects_from linked_too). eapply yields_mono with (Q := fun _ s' => kept s s').
  { destruct (_ =? 1); [|by prog_step]. kept_step. eapply kept_put_stream; [eassumption|].
    eapply same_table_devices, update_frames_same; eassumption. }
  intros _ s1 Hk. split; [intros Hl; by eapply kept_linked|]. respect.
Qed.

Lemma linked_mix_stream i k dst n fb p : respects linked_too (mix_stream fuel i k dst n fb p).
Proof.
  unfold mix_stream. intros s. kept_step. destruct (negb _); [by prog_step|]. kept_step. kept_step. kept_step.
  destruct (_ >=? _); [by prog_step|]. kept_step. kept_step. destruct a1 as [[[rc ds] x'] m].
  match goal with E : dev_stream_mix _ _ _ _ _ _ = _ |- _ => apply mix_devices in E as [Hid Hx] end.
  eapply yields_put_dev_stream; [eassumption|done|]. intros s1 Hs1 Hk1. apply linked_after; [done|].
  eapply linked_update_stream; [rewrite Hs1; eassumption|done|]. respect.
Qed.
#[local] Hint Resolve linked_limit_stream linked_mix_stream : respects.

Lemma linked_write_streams i k dst n : respects linked_too (write_streams fuel i k dst n).
Proof. unfold write_streams. respect_thread. Qed.

Lemma kept_update_wakeup i q : respects kept (update_dev_wakeup_time i q).
Proof. unfold update_dev_wakeup_time. respect_thread. Qed.

Lemma kept_adjust_rate i q n t : respects kept (adjust_rate i q n t).
Proof. unfold adjust_rate. respect_thread. Qed.

Lemma kept_check_emptiness i q b : respects kept (check_for_emptiness i q b).
Proof. unfold check_for_emptiness. respect_thread. Qed.

Lemma kept_empty_period i q b c : respects kept (update_empty_period i q b c).
Proof. unfold update_empty_period. respect_thread. Qed.
#[local] Hint Resolve linked_write_streams kept_update_wakeup kept_adjust_rate kept_check_emptiness kept_empty_period : respects.

Lemma linked_write_loop n i q conv fr total asked non_empty :
  respects linked_too (write_samples_loop fuel n i q conv fr total asked non_empty).
Proof.
  revert fr total asked non_empty. induction n as [|n IH]; intros fr total asked non_empty; simpl; respect_thread.
Qed.

#[local] Hint Resolve linked_write_loop : respects.

Lemma linked_write_output i q conv : respects linked_too (write_output_samples fuel i q conv).
Proof. unfold write_output_samples. respect_thread. Qed.

Lemma linked_after_writing i q n : respects linked_too (after_writing fuel i q n).
Proof. unfold after_writing. respect_thread. Qed.
#[local] Hint Resolve linked_write_output linked_after_writing : respects.

Lemma kept_update_frames r :
  respects kept (let* s := the_stream r in let* s := here (dev_stream_update_frames s) in put_stream r s).
Proof.
  intros s. kept_step. kept_step. eapply kept_put_stream; [eassumption|].
  eapply same_table_devices, update_frames_same; eassumption.
Qed.

Lemma kept_update_rstream r : respects kept (let* s := the_stream r in put_stream r (dev_stream_playback_update_rstream s)).
Proof. intros s. kept_step. eapply kept_put_stream; [eassumption|apply read_pointer_devices]. Qed.
#[local] Hint Resolve kept_update_frames kept_update_rstream : respects.

Lemma linked_playback_write conv : respects linked_too (dev_io_playback_write fuel conv).
Proof. unfold dev_io_playback_write, if_open. respect_thread. Qed.

(** ** Capturing *)

Lemma kept_limit_by_stream k p c : respects kept (limit_by_stream k p c).
Proof.
  unfold limit_by_stream. destruct c as [n lim]. intros s. kept_step. kept_step. destruct (has_flag _ _); [by prog_step|].
  kept_step. destruct a as [over shm]. eapply kept_update_stream; [eassumption|by apply same_table_devices|respect].
Qed.
#[local] Hint Resolve kept_limit_by_stream : respects.

Lemma kept_stream_limit k n : respects kept (get_stream_limit k n).
Proof. unfold get_stream_limit. respect_thread. Qed.

Lemma kept_input_delay i q : respects kept (input_delay_frames i q).
Proof. unfold input_delay_frames, input_delay_pass. respect_thread. Qed.
#[local] Hint Resolve kept_stream_limit kept_input_delay : respects.

Lemma kept_stream_delay i q : respects kept (set_stream_delay i q).
Proof. unfold set_stream_delay. respect_thread. Qed.
#[local] Hint Resolve kept_stream_delay : respects.

Lemma kept_get_for_stream k data r x : respects kept (get_for_stream k data r x).
Proof. unfold get_for_stream. respect_thread. Qed.
Lemma kept_put_for_stream k data r n x : respects kept (put_for_stream k data r n x).
Proof. unfold put_for_stream. respect_thread. Qed.
#[local] Hint Resolve kept_get_for_stream kept_put_for_stream : respects.

Lemma yields_get_for_stream {A} k data r x (f : cras_audio_area * Z * list Z -> thread_prog (hw := hw) A) s
    (Q : A -> thread hw -> Prop) :
  (forall a s', streams s' = streams s -> (forall p e, attached_at s k p e -> attached_at s' k p e) -> kept s s' ->
     yields (f a) s' Q) ->
  yields (bind (get_for_stream k data r x) f) s Q.
Proof.
  intros Hf. unfold get_for_stream, on_dev. unfold yields at 1, bind at 1.
  destruct (th_devs s !! k) as [d|] eqn:Hd; [|done].
  set (m := bind get_dev _).
  assert (Hm : keeps (fun t => (io_streams (dev t), sv_rstreams (srv t), dev_view t)) m).
  { unfold m, set_dev, set_srv. keep; reflexivity. }
  specialize (Hm (IodevState d (th_srv s))). unfold yields in Hm. destruct (m _) as [[a t]|]; [|done].
  injection Hm as H1 H2 Hi Ho Ht. apply (Hf a (put_iodev k t s)).
  - exact H2.
  - intros p e (d' & Hd' & He). rewrite Hd in Hd'. injection Hd' as <-. exists (dev t). split; [|by rewrite H1].
    apply lookup_insert_eq.
  - apply (put_iodev_kept k d); [done|]. unfold dev_view, outline_of. by rewrite Hi, Ho, Ht.
Qed.

Lemma kept_capture_to_stream k p : respects kept (capture_to_stream fuel k p).
Proof.
  unfold capture_to_stream. intros s. kept_step. kept_step. destruct (_ && _); [by prog_step|]. kept_step. kept_step.
  apply yields_get_for_stream. intros [[area offset] mem] s1 Hs1 Hat Hk1. apply (yields_after s s1); [done|].
  kept_step. prog_step. kept_step. destruct a1 as [[n ds] x'].
  match goal with E : dev_stream_capture _ _ _ _ _ _ _ = _ |- _ => apply capture_devices in E as [Hid Hx] end.
  eapply yields_put_dev_stream; [by apply Hat|done|]. intros s2 Hs2 Hk2. apply (yields_after s1 s2); [done|].
  eapply kept_update_stream; [rewrite Hs2, Hs1; eassumption|done|respect].
Qed.
#[local] Hint Resolve kept_capture_to_stream : respects.

Lemma kept_capture_loop n k rem : respects kept (capture_loop fuel n k rem).
Proof. revert rem. induction n as [|n IH]; intros rem; simpl; respect_thread. Qed.
#[local] Hint Resolve kept_capture_loop : respects.

Lemma kept_capture_to_streams i q : respects kept (capture_to_streams fuel i q).
Proof. unfold capture_to_streams. respect_thread. Qed.
#[local] Hint Resolve kept_capture_to_streams : respects.

Lemma linked_capture : respects linked_too (dev_io_capture fuel).
Proof. unfold dev_io_capture, if_open. respect_thread. Qed.

(** ** Waking up and dropping *)

Lemma kept_max_wake k n : respects kept (get_input_dev_max_wake_ts k n).
Proof. unfold get_input_dev_max_wake_ts. respect_thread. Qed.
Lemma kept_wake_for_stream k n t lim ls p c : respects kept (wake_for_stream k n t lim ls p c).
Proof. unfold wake_for_stream. respect_thread. Qed.
#[local] Hint Resolve kept_max_wake kept_wake_for_stream : respects.

Lemma kept_set_wake i q : respects kept (set_input_dev_wake_ts i q).
Proof. unfold set_input_dev_wake_ts. respect_thread. Qed.

Lemma kept_drop_time i : respects kept (get_input_devices_drop_time i).
Proof. unfold get_input_devices_drop_time, drop_time_pass. respect_thread. Qed.
#[local] Hint Resolve kept_set_wake kept_drop_time : respects.

Lemma kept_drop_samples i : respects kept (dev_io_drop_samples i).
Proof. unfold dev_io_drop_samples. respect_thread. Qed.

Lemma kept_capture_update r : respects kept (capture_update_rstream r).
Proof.
  unfold capture_update_rstream. intros s. repeat kept_step. destruct a3 as [[rc msgs] x'].
  eapply kept_update_stream; [same_there|eapply captured_devices; eassumption|respect].
Qed.
#[local] Hint Resolve kept_drop_samples kept_capture_update : respects.

Lemma kept_send_captured : respects kept dev_io_send_captured_samples.
Proof. unfold dev_io_send_captured_samples, send_captured_pass. respect_thread. Qed.

(** ** A run and the next one *)

Lemma kept_longest_wake i t : respects kept (update_longest_wake i t).
Proof. unfold update_longest_wake. respect_thread. Qed.
#[local] Hint Resolve kept_longest_wake linked_playback_write linked_capture kept_send_captured kept_playback_fetch : respects.

Lemma linked_run conv : respects linked_too (dev_io_run fuel conv).
Proof. unfold dev_io_run, pic_update_current_time. respect_thread. Qed.

Lemma kept_input_wake t : respects kept (dev_io_next_input_wake t).
Proof. unfold dev_io_next_input_wake, input_wake_pass. respect_thread. Qed.

Lemma kept_output_wake t : respects kept (dev_io_next_output_wake t).
Proof.
  unfold dev_io_next_output_wake, streams_wake_pass, output_wake_pass, get_next_stream_wake_from_list, stream_wake_pass.
  respect_thread.
Qed.

(** ** Attaching a stream *)

Lemma yields_look_at {A B} (f : nat -> A) (m : A -> thread_prog (hw := hw) B) s (Q : B -> thread hw -> Prop) :
  (forall a s', th_devs s' = th_devs s -> streams s' = streams s -> yields (m a) s' Q) -> yields (bind (look f) m) s Q.
Proof. intros Hm. unfold look, set_thread. repeat prog_step. by apply Hm. Qed.

Lemma yields_malloc {B} (m : Z -> thread_prog (hw := hw) B) s (Q : B -> thread hw -> Prop) :
  (forall p s', (forall k d, th_devs s !! k = Some d -> p ∉ addrs (io_streams d)) ->
     th_devs s' = th_devs s -> streams s' = streams s -> yields (m p) s' Q) ->
  yields (bind malloc m) s Q.
Proof.
  intros Hm. unfold malloc. apply yields_bind, yields_look_at. intros p s' Hd Hs. prog_step. apply yields_here.
  intros p' Hp. change (id s') with s' in Hp. destruct (in_use s' p) eqn:Hu; [done|]. injection Hp as <-. apply Hm; [|done|done].
  intros k d Hk Hin. apply not_true_iff_false in Hu. apply Hu. unfold in_use. apply existsb_exists. exists (k, d).
  split; [|by apply bool_decide_eq_true]. rewrite Hd. by apply list_elem_of_In, elem_of_map_to_list.
Qed.

Lemma yields_add_stream fresh p a s :
  yields (cras_iodev_add_stream fresh p a) s (fun _ s' =>
    dev_view s' = ((io_idx (dev s), (outline_of (dev s)).2 ++ [(p, at_stream a, ds_dev_id (at_dev_stream a))]), tables (srv s))).
Proof.
  unfold cras_iodev_add_stream. unfold set_dev at 1. prog_step. set (s1 := s <| dev ::= _ |>).
  assert (Hv : dev_view s1 = ((io_idx (dev s), (outline_of (dev s)).2 ++ [(p, at_stream a, ds_dev_id (at_dev_stream a))]), tables (srv s))).
  { unfold dev_view, outline_of, s1. simpl. unfold dl_append. by rewrite fmap_app. }
  clearbody s1. rewrite <- Hv. revert s1 Hv. intros s1 _.
  change (yields (let* s0 := find_rstream (at_stream a) in
    (if rs_direction s0 =? CRAS_STREAM_INPUT then cras_iodev_start_stream fresh p else ret tt) ;; ret 0) s1
    (fun _ s' => dev_view s' = dev_view s1)).
  assert (Hk : keeps dev_view (let* s0 := find_rstream (at_stream a) in
    (if rs_direction s0 =? CRAS_STREAM_INPUT then cras_iodev_start_stream fresh p else ret tt) ;; ret 0)).
  { unfold find_rstream. keep. }
  apply Hk.
Qed.

Lemma kept_align k r : respects kept (align_input_offsets k r).
Proof.
  unfold align_input_offsets. intros s. kept_step. kept_step. destruct a as [p0 e]. kept_step. kept_step. kept_step.
  eapply yields_step with (Q := fun _ s' => kept s s' /\ streams s' = streams s).
  { apply yields_on_dev. intros d' Hd'. unfold cras_iodev_stream_written, get_dev, set_dev. prog_step.
    apply yields_there'. intros b Hb. prog_step. split; [|done]. apply (put_iodev_kept k d'); [exact Hd'|reflexivity]. }
  intros _ s1 [Hk Hs]. apply (yields_after s s1); [done|]. eapply kept_put_stream; [rewrite Hs; eassumption|].
  apply offset_update_devices.
Qed.
#[local] Hint Resolve kept_align : respects.

Definition not_on (s : thread hw) (k r : Z) : Prop := forall o : outline, outlines s !! k = Some o -> r ∉ st_stream <$> o.2.

Lemma not_on_kept s s' k r : kept s s' -> not_on s k r -> not_on s' k r.
Proof. intros [Ho _] Hn o. rewrite Ho. apply Hn. Qed.

(** The device that a created stream is added to. *)
Lemma yields_attached fresh fresh' k r p ds x x1 x' d s {A} (m : thread_prog (hw := hw) A) :
  linked s -> th_devs s !! k = Some d -> streams s !! r = Some x -> not_on s k r ->
  (p ∉ addrs (io_streams d)) -> ds_dev_id ds = io_idx d -> same_table x x1 ->
  cras_rstream_dev_attach fresh x1 (io_idx d) k = Some x' -> respects kept m ->
  yields (put_stream r x' ;; (let* _ := on_dev k (cras_iodev_add_stream fresh' p (Attached r ds)) in m)) s
    (fun _ s' => linked s').
Proof.
  intros Hl Hd Hx Hno Hp Hid Hx1 Hatt Hm. unfold put_stream, set_thread. prog_step. set (s1 := s <| th_srv ::= _ |>).
  pose proof (outline_at s k d Hd) as Hk.
  assert (Hl1 : links (<[k := (io_idx d, (outline_of d).2 ++ [(p, r, io_idx d)])]> (outlines s)) (streams s1)).
  { change (streams s1) with (<[r := x']> (streams s)). rewrite <- (insert_insert_eq (streams s) r x' x1).
    apply links_attach with (fresh := fresh) (x := x1); [|done| |by apply (Hno _ Hk)|by rewrite lookup_insert_eq|done].
    - apply (links_kept _ (streams s)); [done|]. by apply (streams_kept_insert _ _ x), same_table_devices.
    - unfold outline_of. simpl. by rewrite <- list_fmap_compose. }
  eapply yields_step with (Q := fun _ s2 => linked s2).
  - apply yields_on_dev. intros d' Hd'. change (th_devs s1) with (th_devs s) in Hd'. rewrite Hd in Hd'. injection Hd' as <-.
    eapply yields_mono; [apply yields_add_stream|]. intros rc t Hv. injection Hv as Hi Ht Hs. simpl in Hi, Ht, Hs.
    unfold linked. apply (links_kept _ (streams s1)).
    + unfold outlines, put_iodev. simpl. rewrite fmap_insert. unfold outline_of at 1. rewrite Hi, Ht, Hid. exact Hl1.
    + apply (tables_kept (th_srv s1) (srv t)). exact Hs.
  - intros rc s2 Hl2. eapply yields_mono; [apply Hm|]. intros a s3 Hk3. exact (kept_linked _ _ Hk3 Hl2).
Qed.

Lemma yields_attach k r t s :
  linked s -> not_on s k r -> yields (attach_stream k r t) s (fun _ s' => linked s').
Proof.
  intros Hl Hno. unfold attach_stream. kept_step. kept_step. kept_step.
  apply yields_look_at. intros env s1 Hd1 Hs1. apply yields_malloc. intros p s2 Hfree Hd2 Hs2.
  apply yields_look_at. intros fresh s3 Hd3 Hs3. assert (Hk : kept s s3).
  { unfold kept, outlines. rewrite Hd3, Hd2, Hd1, Hs3, Hs2, Hs1. by split. }
  kept_step. destruct a0 as [[ds|] x']; [|prog_step; exact (kept_linked _ _ Hk Hl)].
  match goal with E : dev_stream_create _ _ _ _ _ _ _ = _ |- _ => apply create_attaches in E as [Hid (x1 & Hx1 & Hatt)] end.
  eapply yields_attached; [exact (kept_linked _ _ Hk Hl)|rewrite Hd3, Hd2, Hd1; eassumption|rewrite Hs3, Hs2, Hs1; eassumption
    |exact (not_on_kept _ _ _ _ Hk Hno)| |exact Hid|exact Hx1|exact Hatt|respect].
  apply (Hfree k). by rewrite Hd1.
Qed.

(** On the way to attaching. *)
Lemma yields_before {A B} (m : thread_prog (hw := hw) A) (f : A -> thread_prog (hw := hw) B) s k r :
  linked s -> not_on s k r -> respects kept m ->
  (forall a s', linked s' -> not_on s' k r -> yields (f a) s' (fun _ s2 => linked s2)) ->
  yields (bind m f) s (fun _ s2 => linked s2).
Proof.
  intros Hl Hno Hm Hf. eapply (yields_respects kept); [done|]. intros a s' Hk. apply Hf; [|by eapply not_on_kept].
  exact (kept_linked _ _ Hk Hl).
Qed.

Lemma not_on_search s k r d : th_devs s !! k = Some d -> ~ is_Some (stream_on_dev d r) -> not_on s k r.
Proof.
  intros Hd Hno o Ho. rewrite (outline_at s k d Hd) in Ho. injection Ho as <-. intros (p & e & He & Hr)%stops_of.
  apply Hno. unfold stream_on_dev. destruct (dl_search _ _) eqn:Hs; [eauto|]. exfalso.
  apply dl_search_None in Hs. rewrite Forall_forall in Hs. specialize (Hs _ He). simpl in Hs.
  by rewrite Hr, Z.eqb_refl in Hs.
Qed.

Lemma kept_first_cb k p c : respects kept (first_cb_pass k p c).
Proof. unfold first_cb_pass. respect_thread. Qed.
Lemma kept_first_by_level k x : respects kept (first_cb_by_level k x).
Proof. unfold first_cb_by_level. respect_thread. Qed.
#[local] Hint Resolve kept_first_cb kept_first_by_level : respects.

Lemma linked_append_to_dev i r k c : respects linked_too (append_to_dev i r k c).
Proof.
  unfold append_to_dev. destruct c as [rc cb]. destruct (negb _); [respect|].
  apply (respects_bind linked_too); [auto with respects|]. intros l. destruct (dl_search l _) as [[q a]|]; [|respect].
  intros s. kept_step. unfold linked_too. apply yields_given. intros Hl.
  destruct (bool_decide _) eqn:Hb; [by prog_step|]. apply bool_decide_eq_false in Hb.
  pose proof (not_on_search _ _ _ _ H0 Hb) as Hno. clear Hb H0. cbv zeta.
  eapply yields_before; [exact Hl|exact Hno|respect|]. clear s Hl Hno. intros _ s Hl Hno.
  eapply yields_before; [exact Hl|exact Hno|respect|]. clear s Hl Hno. intros x s Hl Hno.
  eapply yields_before; [exact Hl|exact Hno|respect|]. clear s Hl Hno. intros n s Hl Hno.
  destruct (n <? 0); [by prog_step|].
  eapply yields_before; [exact Hl|exact Hno|respect_thread|]. clear s Hl Hno. intros [rc' cb'] s Hl Hno.
  destruct (negb _); [by prog_step|].
  eapply yields_step; [by apply yields_attach|]. intros rc2 s' Hl'. by prog_step.
Qed.

Lemma linked_rollback k r :
  respects linked_too (let* d := the_iodev k in
    match stream_on_dev d r with
    | None => ret tt
    | Some (_, e) => let* _ := on_dev k (cras_iodev_rm_stream r) in destroy_dev_stream e
    end).
Proof.
  intros s. kept_step. unfold linked_too. apply yields_given. intros Hl.
  destruct (stream_on_dev d r) as [[p e]|] eqn:Hs; [|by prog_step].
  apply dl_search_Some in Hs as (l1 & l2 & Hs & Hr & _). apply Z.eqb_eq in Hr.
  eapply yields_unlink; [done|done|]. intros s1 Hs1. eapply yields_destroy; [done..| |done].
  rewrite Hs. apply elem_of_app. right. by left.
Qed.
#[local] Hint Resolve linked_append_to_dev linked_rollback : respects.

Lemma linked_append i r devs : respects linked_too (dev_io_append_stream i r devs).
Proof. unfold dev_io_append_stream. respect_thread. Qed.
#[local] Hint Resolve linked_run linked_append kept_input_wake kept_output_wake : respects.

(** ** What the links come to

    A stream's table has exactly the devices that it is on, with their
    pointers; its master is one of them. *)
Lemma linked_agree (s' : thread hw) :
  linked s' ->
  (forall k d p e, th_devs s' !! k = Some d -> (p, e) ∈ io_streams d ->
     exists x, streams s' !! at_stream e = Some x /\ devices x !! io_idx d = Some k /\
       exists master q e', th_devs s' !! get_master_dev x = Some master /\
         io_idx master = md_dev_id (rs_master_dev x) /\ (q, e') ∈ io_streams master /\ at_stream e' = at_stream e) /\
  (forall r x i k, streams s' !! r = Some x -> devices x !! i = Some k ->
     exists d p e, th_devs s' !! k = Some d /\ io_idx d = i /\ (p, e) ∈ io_streams d /\ at_stream e = r).
Proof.
  intros Hl'.
  assert (Hon : forall k o r, outlines s' !! k = Some o -> r ∈ st_stream <$> o.2 ->
    exists d p e, th_devs s' !! k = Some d /\ io_idx d = o.1 /\ (p, e) ∈ io_streams d /\ at_stream e = r).
  { intros k o r Ho Hr. unfold outlines in Ho. rewrite lookup_fmap in Ho.
    destruct (th_devs s' !! k) as [d|] eqn:Hd; [|done]. injection Ho as <-.
    apply stops_of in Hr as (p & e & He & Hr). by exists d, p, e. }
  split.
  - intros k d p e Hd He. pose proof (outline_at s' k d Hd) as Hk.
    assert (Hr : at_stream e ∈ st_stream <$> (outline_of d).2) by (apply stops_of; by exists p, e).
    destruct (ln_stop _ _ Hl' k _ (p, at_stream e, ds_dev_id (at_dev_stream e)) Hk) as [_ [x Hx]].
    { apply list_elem_of_fmap. by exists (p, e). }
    exists x. split; [exact Hx|]. split; [apply (ln_table _ _ Hl' (at_stream e) x); [exact Hx|by exists (outline_of d)]|].
    destruct (links_master _ _ k _ _ x Hl' Hk Hr Hx) as (o & Ho & Hi & Hro).
    destruct (Hon _ _ _ Ho Hro) as (m & q & e' & Hm & Him & He' & Hre). exists m, q, e'.
    split_and!; [exact Hm|congruence|done|done].
  - intros r x i k Hx Hi. apply (ln_table _ _ Hl' r x) in Hi as (o & Ho & <- & Hr); [|exact Hx]. by apply Hon.
Qed.
End Kept.

(** ** An example: two silent devices and a stream *)
#[local] Existing Instances alsa_example speex_example expf_example.

#[export] Instance quiet_surroundings : surroundings := {|
  clock n := Timespec 5 (Z.of_nat n * 1000000);
  client_turns _ := [PollTurn 0 false (0, AudioMessage 0 0 0)];
  client_write _ := 24;
  fresh_slots _ _ := IdOffset 9 9 9 9;
  stream_env _ := DevStreamEnv true env_example true (fun _ => IdOffset 9 9 9 9);
  fresh_address n := 1000 + Z.of_nat n;
  reset_sent _ := 0;
  post_processing_format _ _ := None
|}.

(** An estimator that trusts the nominal rate. *)
#[export] Instance steady_rate : rate_library := {|
  rate_estimator := Z;
  rate_estimator_create r := Some r;
  rate_estimator_reset_rate r n := (fun _ => n) <$> r;
  rate_estimator_add_frames r _ := r;
  rate_estimator_check r _ _ := (0, r);
  rate_estimator_get_rate r := f64_of_Z (default 0 r)
|}.

Definition new_stream : cras_rstream :=
  set_rs_master_dev (MasterDev NO_DEVICE 0) (set_rs_num_attached_devs 0 (playback_of 65537 4 (Timespec 0 0))).

(** Two devices that are open, with no stream on them, and not the thread's yet. *)
Definition two_devices : option (thread empty_iodev) :=
  s ← empty_iodev_create millisecond_clock 1 CRAS_STREAM_OUTPUT 0 quiet_server;
  s ← s;
  '(_, s) ← do_call (V := empty_driver 100) 100 open_silent s;
  let other := (dev s) <| io_idx := 9 |> in
  Some (Thread {[70 := dev s; 71 := other]} ((srv s) <| sv_rstreams := {[5 := new_stream]} |>)
          [] [] 0 (Timespec 5 0) 0 []).

Lemma new_stream_alone : devs_ok new_stream /\ devices new_stream = ∅ /\ id_sz (rs_buf_state new_stream) = 3.
Proof.
  destruct (buffer_share_create_spec 8) as (Hok & Hsh & _); [lia|]. unfold devices.
  change (rs_buf_state new_stream) with (buffer_share_create 8). split_and!; [|by rewrite Hsh|done].
  split; change (rs_buf_state new_stream) with (buffer_share_create 8); rewrite ?Hsh; try done.
Qed.

(** Devices without streams, and streams without devices. *)
Lemma linked_start :
  links {[70 := (2, []); 71 := (9, [])]} {[5 := new_stream]}.
Proof.
  destruct new_stream_alone as (Hok & Hdev & Hsz).
  assert (Ho : forall k d, ({[70 := (2, []); 71 := (9, [])]} : gmap Z outline) !! k = Some d ->
    k = 70 /\ d = (2, []) \/ k = 71 /\ d = (9, [])).
  { intros k d [[<- <-]|[_ [<- <-]%lookup_singleton_Some]]%lookup_insert_Some; auto. }
  split.
  - intros k k' d d' [[-> ->]|[-> ->]]%Ho [[-> ->]|[-> ->]]%Ho; done.
  - intros k d [[-> ->]|[-> ->]]%Ho; simpl; lia.
  - done.
  - intros k d [[-> ->]|[-> ->]]%Ho; split; constructor.
  - intros k d x [[-> ->]|[-> ->]]%Ho Hx; by apply not_elem_of_nil in Hx.
  - intros r x [<- <-]%lookup_singleton_Some. split; [done|]. rewrite Hsz. lia.
  - intros r x i k [<- <-]%lookup_singleton_Some. rewrite Hdev. split; [by rewrite lookup_empty|].
    intros (d & [[-> ->]|[-> ->]]%Ho & _ & Hr); by apply not_elem_of_nil in Hr.
Qed.
