(* ===== verification/DevIoMix.v ===== *)
(** * What an output device hears (server/dev_io.c)

    [write_streams] takes from every stream of a device as many frames as all
    of them have, and leaves their sum in the device's buffer. *)
From coqutil Require Import Datatypes.RecordSetters.
From S2P Require Import Prelude Prog Arrays Float32 Types DList Timespec Timers ByteBuffer BufferShare Shm AudioFormat Mix AudioArea.
From S2P Require Import FmtConv Ramp Volume Rstream DevStream InputData Iodev IodevOutput IodevStates EmptyIodev Thread DevIoPlayback DevLinksKept.
Import TriangleBracketNotations.
#[local] Open Scope Z_scope.
#[local] Open Scope prog_scope.

Section Steps.
Context {P : pcm_library} {L : speex_library} {RE : rate_library} {D : dsp_service} {AP : apm_service} {hw : Type}.
#[local] Abbreviation thread_prog := (thread_prog (hw := hw)).
#[local] Abbreviation thread := (thread hw).

(** ** Steps that find what they look for *)

Definition rstreams (s : thread) : gmap Z cras_rstream := sv_rstreams (th_srv s).

Lemma runs_the_stream {A} r x (f : cras_rstream -> thread_prog A) s (Q : A -> thread -> Prop) :
  rstreams s !! r = Some x -> runs (f x) s Q -> runs (bind (the_stream r) f) s Q.
Proof. intros Hx Hf. unfold the_stream. repeat prog_step. eapply runs_here; [exact Hx|exact Hf]. Qed.

Lemma runs_the_iodev {A} k d (f : cras_iodev hw -> thread_prog A) s (Q : A -> thread -> Prop) :
  th_devs s !! k = Some d -> runs (f d) s Q -> runs (bind (the_iodev k) f) s Q.
Proof. intros Hd Hf. unfold the_iodev. repeat prog_step. eapply runs_here; [exact Hd|exact Hf]. Qed.

Lemma runs_the_attached {A} k p d e (f : attached -> thread_prog A) s (Q : A -> thread -> Prop) :
  th_devs s !! k = Some d -> dl_find (io_streams d) p = Some e -> runs (f e) s Q -> runs (bind (the_attached k p) f) s Q.
Proof.
  intros Hd He Hf. unfold the_attached. apply runs_bind. eapply runs_the_iodev; [exact Hd|].
  eapply runs_here; [exact He|exact Hf].
Qed.

Lemma runs_there {St A B} (o : option A) a (f : A -> prog St B) s (Q : B -> St -> Prop) :
  o = Some a -> runs (f a) s Q -> runs (bind (here o) f) s Q.
Proof. intros Ho Hf. apply runs_bind. by eapply runs_here. Qed.

Lemma runs_dev {A B} k d t (a : A) (m : iodev_prog (hw := hw) A) (f : A -> thread_prog B) s (Q : B -> thread -> Prop) :
  th_devs s !! k = Some d -> m (IodevState d (th_srv s)) = Some (a, t) -> runs (f a) (put_iodev k t s) Q ->
  runs (bind (on_dev k m) f) s Q.
Proof. intros Hd Hm Hf. apply runs_bind. unfold runs, on_dev. rewrite Hd, Hm. exact Hf. Qed.

(** Storing what is there changes nothing. *)
Lemma put_same_stream r x (s : thread) :
  rstreams s !! r = Some x -> s <| th_srv ::= fun v => v <| sv_rstreams ::= insert r x |> |> = s.
Proof.
  intros Hx. destruct s as [devs [m mu vo cm dsp apm lg] od idv nc now lk sent]. unfold rstreams in Hx. simpl in *.
  by rewrite insert_id.
Qed.

Lemma update_same (l : dlist attached) p a f : dl_find l p = Some a -> f a = a -> dl_update l p f = Some l.
Proof.
  induction l as [|[q b] l IH]; simpl; [done|]. destruct (q =? p); [by intros [= ->] ->|].
  intros Ha Hf. by rewrite IH.
Qed.

Lemma put_same_dev (k : Z) (d : cras_iodev hw) (s : thread) :
  th_devs s !! k = Some d -> put_iodev k (IodevState d (th_srv s)) s = s.
Proof. intros Hd. destruct s as [devs v od idv nc now lk sent]. unfold put_iodev. simpl in *. by rewrite insert_id. Qed.

Lemma runs_put_same {A} k p d e (f : thread_prog A) s (Q : A -> thread -> Prop) :
  th_devs s !! k = Some d -> dl_find (io_streams d) p = Some e -> runs f s Q ->
  runs (put_dev_stream k p (at_dev_stream e) ;; f) s Q.
Proof.
  intros Hd He Hf. eapply (runs_dev k d (IodevState d (th_srv s))); [done| |by rewrite put_same_dev].
  unfold get_dev, set_dev, bind, gets, here, modify. cbn [dev].
  rewrite (update_same (io_streams d) p e); [|done|by destruct e]. do 3 f_equal. by destruct d.
Qed.

Lemma find_nth (l : dlist attached) (i : nat) p e : NoDup (addrs l) -> l !! i = Some (p, e) -> dl_find l p = Some e.
Proof.
  intros Hnd Hi. rewrite <- (take_drop_middle l i _ Hi) in Hnd |- *. apply NoDup_middle in Hnd as (Hp & _).
  by apply dl_find_app.
Qed.

Lemma nth_address (l : dlist attached) (i : nat) p : addrs l !! i = Some p -> exists e, l !! i = Some (p, e).
Proof. unfold addrs. rewrite list_lookup_fmap. intros ([q e] & Hi & ->)%fmap_Some. by exists e. Qed.
End Steps.

Lemma frame_small {P : pcm_library} (fmt : cras_audio_format) (C : Codec) R :
  mix_format (format fmt) C R -> 0 < num_channels fmt < 65536 -> 0 < num_channels fmt * width < 4294967296.
Proof.
  intros [_|_|_|_] Hc; [change (@width _) with 2|change (@width _) with 4|change (@width _) with 4|change (@width _) with 3]; lia.
Qed.

Section Mixing.
Context {P : pcm_library} {L : speex_library} {RE : rate_library} {D : dsp_service} {AP : apm_service}.
Context {hw : Type} {H : iodev_hw (hw := hw)} {X : iodev_xrun (hw := hw)} {V : iodev_driver (hw := hw)} {W : surroundings}.
Context (fuel : nat) (side : side) (fmt : cras_audio_format) (C : Codec) (R : Z -> Z -> spec_float -> Z -> Z -> option Z).

(** The next frame of the stream that the device plays, and how many there are. *)
Definition position (e : attached) (x : cras_rstream) : Z := cras_rstream_dev_offset x (ds_dev_id (at_dev_stream e)).
Definition available (e : attached) (x : cras_rstream) : Z := rs_queued_frames x - position e x.

(** A stream that plays on the device and needs no conversion: its count of
    queued frames is up to date, and its share [b] of the device's buffer
    starts where the others' do. *)
Record plays (b : buffer_share) (e : attached) (x : cras_rstream) : Prop := {
  pl_running : ds_is_running (at_dev_stream e) = true;
  pl_not_draining : rs_is_draining x = 0;
  pl_conv : exists c, ds_conv (at_dev_stream e) = Some c /\ passthrough c;
  pl_shm : shm_ok (rs_shm x);
  pl_frame : frame_bytes (config (rs_shm x)) = num_channels fmt * width;
  pl_volume : volume (cras_rstream_get_volume_scaler x);
  pl_updated : dev_stream_update_frames x = Some x;
  pl_queued : rs_queued_frames x * (num_channels fmt * width) <= Z.of_nat (length (queued (rs_shm x)));
  pl_position : 0 <= position e x < rs_queued_frames x;
  pl_small : rs_queued_frames x < 16777216;
  pl_share : exists data, share b !! rs_stream_id x = Some (0, data)
}.

(** The frames that are mixed: as many as every stream has. *)
Definition frames_for (limit : Z) (es : list (attached * cras_rstream)) : Z :=
  foldl (fun n ex => Z.min (available ex.1 ex.2) n) limit es.

(** A sample of the mix: the streams' samples are added one after the other. *)
Definition add_stream (j : Z) (acc : option Z) (ex : attached * cras_rstream) : option Z :=
  a ← acc;
  b ← rd C (queued (rs_shm ex.2)) ((position ex.1 ex.2 * num_channels fmt + j) * width);
  norm <$> R 1 (cras_rstream_get_mute ex.2) (cras_rstream_get_volume_scaler ex.2) a b.
Definition sample_of (es : list (attached * cras_rstream)) (j : Z) : option Z := foldl (add_stream j) (Some 0) es.

(** The device at [k] and its streams. *)
Context (k : Z) (l : dlist attached) (xs : list cras_rstream) (b : buffer_share).
Definition players : list (attached * cras_rstream) := zip (l.*2) xs.

Record mixing (s : thread hw) (d : cras_iodev hw) : Prop := {
  mi_dev : th_devs s !! k = Some d;
  mi_streams : io_streams d = l;
  mi_addrs : NoDup (addrs l);
  mi_rstreams : NoDup (at_stream <$> l.*2);
  mi_format : io_format d = Some fmt;
  mi_buf : io_buf_state d = Some b;
  mi_there : Forall2 (fun e x => rstreams s !! at_stream e.2 = Some x) l xs;
  mi_plays : Forall2 (fun e x => plays b e.2 x) l xs;
  mi_ids : NoDup (rs_stream_id <$> xs)
}.

Lemma player_at s d i p e :
  mixing s d -> l !! i = Some (p, e) -> exists x, xs !! i = Some x /\ rstreams s !! at_stream e = Some x /\ plays b e x /\
    players !! i = Some (e, x).
Proof.
  intros Hm Hi. destruct (Forall2_lookup_l _ _ _ _ _ (mi_there _ _ Hm) Hi) as (x & Hx & Hs).
  pose proof (Forall2_lookup_lr _ _ _ _ _ _ (mi_plays _ _ Hm) Hi Hx) as Hp. exists x. split_and!; [done..|].
  unfold players. apply lookup_zip_with_Some. exists e, x. split_and!; [done| |done]. rewrite list_lookup_fmap. exact (f_equal (fmap snd) Hi).
Qed.

Lemma players_available s d : mixing s d -> Forall (fun ex => 0 < available ex.1 ex.2) players.
Proof.
  intros Hm. apply Forall_lookup. intros j [e x] Hj. unfold players in Hj.
  apply lookup_zip_with_Some in Hj as (e' & x' & [= <- <-] & He & Hx).
  rewrite list_lookup_fmap in He. apply fmap_Some in He as ([p e'] & He & ->).
  pose proof (Forall2_lookup_lr _ _ _ _ _ _ (mi_plays _ _ Hm) He Hx) as Hp.
  pose proof (pl_position _ _ _ Hp). unfold available. simpl in *. lia.
Qed.

(** ** The limit *)

Lemma playable e x :
  plays b e x -> dev_stream_playback_frames (at_dev_stream e) x = Some (available e x).
Proof.
  intros Hp. destruct (pl_conv _ _ _ Hp) as (c & Hc & Hpass). pose proof (pl_position _ _ _ Hp). pose proof (pl_small _ _ _ Hp).
  unfold dev_stream_playback_frames, cras_rstream_playable_frames. fold (position e x). unfold available.
  rewrite u32_small, s32_small by lia. zdecide. rewrite Hc.
  destruct (passthrough_frames c (rs_queued_frames x - position e x) Hpass) as [-> _]; [lia|].
  cbn [fmap option_fmap option_map]. by rewrite s32_small by lia.
Qed.

Lemma frames_for_bounds limit es :
  0 < limit -> Forall (fun ex => 0 < available ex.1 ex.2) es ->
  0 < frames_for limit es <= limit /\ Forall (fun ex => frames_for limit es <= available ex.1 ex.2) es.
Proof.
  unfold frames_for. revert limit. induction es as [|ex es IH]; intros limit Hl Ha; simpl; [split; [lia|constructor]|].
  inversion Ha as [|? ? Hx Hes]; subst. destruct (IH (Z.min (available ex.1 ex.2) limit)) as [H1 H2]; [lia|done|].
  split; [lia|]. constructor; [lia|done].
Qed.

Lemma runs_limits s d limit :
  mixing s d -> 0 < limit < 4294967296 -> Z.of_nat (length l) < 4294967296 ->
  runs (for_each_stream k (limit_stream side k) (Limits limit (u32 limit) 0)) s
    (fun c s' => s' = s /\ c = Limits (frames_for limit players) (u32 limit) (Z.of_nat (length l))).
Proof.
  intros Hm Hl Hlen. unfold for_each_stream. eapply runs_the_iodev; [apply (mi_dev _ _ Hm)|]. rewrite (mi_streams _ _ Hm).
  set (I := fun (i : nat) c (s' : thread hw) => s' = s /\ c = Limits (frames_for limit (take i players)) (u32 limit) (Z.of_nat i)).
  eapply runs_mono with (Q := I (0 + length (addrs l))%nat).
  2:{ intros c s' [-> ->]. split; [done|]. f_equal; [|unfold addrs; rewrite length_fmap; lia].
      f_equal. apply take_ge. unfold players. rewrite length_zip_with, length_fmap. unfold addrs. rewrite length_fmap. lia. }
  apply runs_fold; unfold I; [done|]. intros i p c s' Hi [-> ->]. rewrite Nat.add_0_l.
  destruct (nth_address l i p Hi) as [e He]. destruct (player_at s d i p e Hm He) as (x & Hx & Hsx & Hp & Hpl).
  assert (Hsz : Z.of_nat i < 4294967295) by (apply lookup_lt_Some in He; lia).
  unfold limit_stream. eapply runs_the_attached.
  { apply (mi_dev _ _ Hm). } { rewrite (mi_streams _ _ Hm). eapply find_nth; [apply (mi_addrs _ _ Hm)|done]. }
  rewrite (pl_running _ _ _ Hp). cbn [negb]. eapply runs_the_stream; [done|].
  eapply runs_step with (Q := fun _ s' => s' = s).
  { destruct (_ =? 1); [|by prog_step]. eapply runs_there; [apply (pl_updated _ _ _ Hp)|].
    unfold put_stream, set_thread. prog_step. by apply put_same_stream. }
  intros _ s' ->. eapply runs_the_stream; [done|]. eapply runs_there; [by apply playable|].
  assert (Ha : 0 < available e x) by (pose proof (pl_position _ _ _ Hp); unfold available; lia).
  unfold cras_rstream_get_is_draining. rewrite (pl_not_draining _ _ _ Hp).
  rewrite (proj2 (Z.ltb_ge _ 0)) by lia. simpl. prog_step. split; [done|]. rewrite (take_S_r _ _ _ Hpl). unfold frames_for.
  rewrite foldl_app. simpl. rewrite cmin_min, (u32_small (Z.of_nat i + 1)) by lia. f_equal. lia.
Qed.

(** ** The buffer *)

Lemma rd_drop (m : list Z) (a off : Z) : 0 <= a -> 0 <= off -> rd C (drop (Z.to_nat a) m) off = rd C m (a + off).
Proof.
  intros Ha Ho. pose proof width_pos. unfold rd, mem_read. rewrite length_drop, drop_drop.
  replace (Z.to_nat (a + off)) with (Z.to_nat a + Z.to_nat off)%nat by lia. zcases; simpl; done || lia.
Qed.

Lemma rd_behind (m1 m2 : list Z) (off : Z) :
  0 <= off -> rd C (m1 ++ m2) (Z.of_nat (length m1) + off) = rd C m2 off.
Proof.
  intros Ho. pose proof width_pos. rewrite <- rd_drop by lia. by rewrite Nat2Z.id, drop_app_length.
Qed.

Context (dst n : Z).
Hypothesis dst_ok : 0 <= dst.
Hypothesis n_ok : 0 < n.

(** [m] has the mix of [es] where [m0] has the device's old samples. *)
Definition has_mix (es : list (attached * cras_rstream)) (m0 m : list Z) : Prop :=
  length m = length m0 /\
  (forall j, 0 <= j < n * num_channels fmt -> rd C m (dst + j * width) = sample_of es j) /\
  (forall j : nat, Z.of_nat j < dst \/ dst + n * num_channels fmt * width <= Z.of_nat j -> m !! j = m0 !! j).

Lemma silence_is_mix (m0 : list Z) :
  0 < num_channels fmt -> dst + n * (num_channels fmt * width) <= Z.of_nat (length m0) ->
  exists m, memset0 m0 dst (n * (num_channels fmt * width)) = Some m /\ has_mix [] m0 m.
Proof.
  intros Hch Hfit. pose proof width_pos. set (zs := replicate (Z.to_nat (n * (num_channels fmt * width))) 0).
  assert (Hlen : Z.of_nat (length zs) = n * (num_channels fmt * width)) by (unfold zs; rewrite length_replicate; nia).
  unfold memset0. fold zs. rewrite mem_write_Some by lia. eexists. split; [done|]. split; [by rewrite length_inserts|]. split.
  - intros j Hj. assert (Hw : 0 <= j * width /\ j * width + width <= n * (num_channels fmt * width)) by nia.
    unfold rd. rewrite mem_read_Some; rewrite ?length_inserts; try lia. cbn [fmap option_fmap option_map]. unfold sample_of. simpl. f_equal.
    rewrite <- decode_zeros. f_equal. apply list_eq. intros y. rewrite lookup_take. destruct (decide _) as [Hy|Hy].
    + rewrite lookup_drop, list_lookup_inserts by (rewrite ?length_inserts; lia). unfold zs.
      rewrite !lookup_replicate_2 by lia. done.
    + symmetry. apply lookup_ge_None. rewrite length_replicate. lia.
  - intros j [Hj|Hj]; [rewrite list_lookup_inserts_lt by lia|rewrite list_lookup_inserts_ge by lia]; done.
Qed.

Lemma mix_one_more es e x (m0 m m' : list Z) :
  has_mix es m0 m -> dst + n * (num_channels fmt * width) <= Z.of_nat (length m0) -> 0 < num_channels fmt ->
  mixed_into C (R 1 (cras_rstream_get_mute x) (cras_rstream_get_volume_scaler x)) (from_ptr m dst) 0
    (queued (rs_shm x)) (position e x * (num_channels fmt * width)) (n * num_channels fmt) m' ->
  has_mix (es ++ [(e, x)]) m0 (set_from_ptr m dst m').
Proof.
  intros (Hl & Hs & Ho) Hfit Hch (Hl' & Hs' & Ho'). pose proof width_pos. unfold from_ptr, set_from_ptr in *.
  rewrite length_drop in Hl'. assert (Htake : length (take (Z.to_nat dst) m) = Z.to_nat dst) by (rewrite length_take; nia).
  split; [rewrite length_app, Htake, Hl'; nia|]. split.
  - intros j Hj. replace dst with (Z.of_nat (length (take (Z.to_nat dst) m))) at 2 by (rewrite Htake; lia).
    rewrite rd_behind by nia. specialize (Hs' j Hj). rewrite !Z.add_0_l in Hs'. rewrite Hs', rd_drop, Hs by nia.
    unfold sample_of. rewrite foldl_app. simpl. unfold add_stream at 2. simpl.
    destruct (foldl _ _ es) as [a|]; [|done]. cbn [mbind option_bind].
    replace ((position e x * num_channels fmt + j) * width) with (position e x * (num_channels fmt * width) + j * width) by ring.
    done.
  - intros j Hj. destruct Hj as [Hj|Hj].
    + rewrite lookup_app_l by lia. rewrite lookup_take_lt by lia. apply Ho. by left.
    + rewrite lookup_app_r by nia. rewrite Htake. rewrite Ho' by (right; nia). rewrite lookup_drop.
      replace (Z.to_nat dst + (j - Z.to_nat dst))%nat with j by nia. apply Ho. by right.
Qed.

(** ** The streams one after the other *)

Definition played (e : attached) (x : cras_rstream) : cras_rstream :=
  cras_rstream_dev_offset_update x n (ds_dev_id (at_dev_stream e)).

(** The device and the streams when the first [i] have been mixed. *)
Record mixed_up_to (s0 : thread hw) (m0 : list Z) (i : nat) (s : thread hw) (d : cras_iodev hw) (b1 : buffer_share) : Prop := {
  mu_dev : th_devs s !! k = Some d;
  mu_streams : io_streams d = l;
  mu_format : io_format d = Some fmt;
  mu_buf : io_buf_state d = Some b1;
  mu_share_ok : share_ok b1;
  mu_share : forall id, share b1 !! id =
    (fun v => if decide (id ∈ rs_stream_id <$> take i xs) then (n, v.2) else v) <$> share b !! id;
  mu_size : buf_sz b1 = buf_sz b;
  mu_mem : has_mix (take i players) m0 (io_mem d);
  mu_there : forall j p e x, l !! j = Some (p, e) -> xs !! j = Some x ->
    rstreams s !! at_stream e = Some (if decide (j < i)%nat then played e x else x);
  mu_others : forall r, (r ∉ at_stream <$> l.*2) -> rstreams s !! r = rstreams s0 !! r
}.

Lemma nth_once {A B} (f : A -> B) (es : list A) (i j : nat) x y :
  NoDup (f <$> es) -> es !! i = Some x -> es !! j = Some y -> f x = f y -> i = j.
Proof.
  intros Hnd Hi Hj Hf. eapply (NoDup_lookup (f <$> es)); [done|by rewrite list_lookup_fmap, Hi|].
  rewrite list_lookup_fmap, Hj. simpl. by rewrite Hf.
Qed.

(** What the stream has taken of the device's buffer. *)
Lemma written_share (i : nat) x b1 :
  NoDup (rs_stream_id <$> xs) -> xs !! i = Some x -> (exists data, share b !! rs_stream_id x = Some (0, data)) ->
  n < 4294967296 -> share_ok b1 ->
  (forall id, share b1 !! id =
    (fun v => if decide (id ∈ rs_stream_id <$> take i xs) then (n, v.2) else v) <$> share b !! id) ->
  let b2 := snd (buffer_share_offset_update b1 (rs_stream_id x) n) in
  share_ok b2 /\ buf_sz b2 = buf_sz b1 /\
  (forall id, share b2 !! id =
    (fun v => if decide (id ∈ rs_stream_id <$> take (S i) xs) then (n, v.2) else v) <$> share b !! id) /\
  buffer_share_id_offset b1 (rs_stream_id x) = 0.
Proof.
  intros Hnd Hi [data Hd] Hn Hok Hsh b2. pose proof (buffer_share_offset_update_spec b1 (rs_stream_id x) n Hok) as Hu.
  unfold b2. clear b2. destruct (buffer_share_offset_update _ _ _) as [rc b2]. destruct Hu as (_ & Hok2 & Hsh2 & Hsz & _). simpl.
  assert (Hnew : rs_stream_id x ∉ rs_stream_id <$> take i xs).
  { intros (y & Hy & Hin)%list_elem_of_fmap. apply list_elem_of_lookup in Hin as [j Hj].
    apply lookup_take_Some in Hj as [Hj Hlt]. pose proof (nth_once _ _ _ _ _ _ Hnd Hi Hj Hy). lia. }
  split_and!; [done|done| |].
  - intros id. rewrite Hsh2, (take_S_r _ _ _ Hi), fmap_app. simpl. destruct (decide (id = rs_stream_id x)) as [->|Hne].
    + rewrite lookup_alter_eq, Hsh, Hd. simpl. rewrite decide_False by done. rewrite decide_True by set_solver.
      simpl. by rewrite u32_small by lia.
    + rewrite lookup_alter_ne, Hsh by done. destruct (share b !! id) as [v|]; [|done]. simpl. f_equal.
      destruct (decide (id ∈ rs_stream_id <$> take i xs)); [by rewrite decide_True by set_solver|].
      by rewrite decide_False by set_solver.
  - pose proof (ot_offset_law b1 (rs_stream_id x) Hok) as Ho. simpl in Ho. rewrite Ho, Hsh, Hd. simpl. by rewrite decide_False.
Qed.

(** The share of the buffer when every stream has written. *)
Lemma all_written b1 :
  share_ok b -> share_ok b1 -> buf_sz b1 = buf_sz b -> n <= buf_sz b -> share b <> ∅ ->
  (forall id v, share b !! id = Some v -> v.1 = 0 /\ id ∈ rs_stream_id <$> xs) ->
  (forall id, share b1 !! id = (fun v => if decide (id ∈ rs_stream_id <$> xs) then (n, v.2) else v) <$> share b !! id) ->
  exists b2, buffer_share_get_new_write_point b1 = (n, b2) /\ share_ok b2 /\ buf_sz b2 = buf_sz b /\ share b2 = share b.
Proof using.
  intros Hok Hok1 Hsz Hn Hne Hall Hsh.
  assert (Hval : forall id v, share b1 !! id = Some v -> v.1 = n).
  { intros id v Hv. rewrite Hsh in Hv. apply fmap_Some in Hv as (w & Hw & ->).
    destruct (Hall id w Hw) as [_ Hin]. by rewrite decide_True by done. }
  pose proof (write_point_least b1 Hok1) as Hw.
  destruct (buffer_share_get_new_write_point b1) as [m b2].
  destruct Hw as (Hok2 & Hsz2 & _ & Hmin); [intros id v Hv; rewrite (Hval id v Hv); lia|].
  destruct Hmin as ((id & dat & Hid) & _ & Hsh2).
  { intros He. apply Hne. apply map_eq. intros id. pose proof (Hsh id) as Hi. rewrite He, lookup_empty in Hi.
    rewrite lookup_empty. by destruct (share b !! id). }
  pose proof (Hval id _ Hid) as Hm. simpl in Hm. subst m. exists b2. split_and!; [done|done|congruence|].
  apply map_eq. intros q. rewrite Hsh2, lookup_fmap, Hsh. destruct (share b !! q) as [[o w]|] eqn:Hq; [|done].
  destruct (Hall q _ Hq) as [Ho Hin]. simpl in Ho. subst o. simpl. rewrite decide_True by done. simpl. by rewrite Z.sub_diag.
Qed.

Hypothesis pcm : pcm_documented P.
Hypothesis sample_format : mix_format (format fmt) C R.
Hypothesis no_s24 : format fmt <> SND_PCM_FORMAT_S24_LE.
Hypothesis frame_fits : cras_get_format_bytes fmt = num_channels fmt * width.
Hypothesis channels_ok : 0 < num_channels fmt < 65536.
Hypothesis enough_fuel : (Z.to_nat n < fuel)%nat.

(** The streams after the store. *)
Ltac stored e x :=
  match goal with |- rstreams ?a !! _ = _ =>
    replace (rstreams a) with (<[at_stream e := played e x]> (rstreams ltac:(match goal with M : th_devs ?s !! k = Some _ |- _ => exact s end)))
      by (unfold rstreams, played, put_iodev; simpl; reflexivity)
  end.

Lemma mix_at (i : nat) p e x s0 m0 s d b1 d0 :
  mixing s0 d0 -> Forall (fun ex => n <= available ex.1 ex.2) players -> n < 4294967296 ->
  dst + n * (num_channels fmt * width) <= Z.of_nat (length m0) ->
  l !! i = Some (p, e) -> xs !! i = Some x -> plays b e x -> players !! i = Some (e, x) ->
  mixed_up_to s0 m0 i s d b1 ->
  runs (mix_stream fuel side k dst n (u32 (cras_get_format_bytes fmt)) p) s
    (fun _ s' => exists d' b', mixed_up_to s0 m0 (S i) s' d' b').
Proof.
  intros Hm Havail Hn Hfit Hl Hx Hp Hpl [M1 M2 M3 M4 M5 M6 M7 M8 M9 M10].
  destruct (written_share i x b1 (mi_ids _ _ Hm) Hx (pl_share _ _ _ Hp) Hn M5 M6) as (W1 & W2 & W3 & W4).
  assert (Hfind : dl_find l p = Some e) by (eapply find_nth; [apply (mi_addrs _ _ Hm)|done]).
  pose proof (M9 i p e x Hl Hx) as Hsx. rewrite decide_False in Hsx by lia.
  pose proof (Forall_lookup_1 _ _ _ _ Havail Hpl) as Hav. simpl in Hav.
  unfold mix_stream. eapply runs_the_attached; [exact M1|by rewrite M2|].
  rewrite (pl_running _ _ _ Hp). cbn [negb]. eapply runs_the_stream; [exact Hsx|]. eapply runs_the_iodev; [exact M1|].
  unfold cras_iodev_stream_offset. rewrite M4. cbn [mbind option_bind]. rewrite W4. eapply runs_there; [done|].
  replace (0 >=? n) with false by lia. eapply runs_there; [exact M3|].
  replace (dst + u32 (u32 (cras_get_format_bytes fmt) * 0)) with dst by (rewrite Z.mul_0_r; change (u32 0) with 0; lia).
  rewrite Z.sub_0_r, (u32_small n) by lia.
  destruct (pl_conv _ _ _ Hp) as (c & Hc & Hpass). pose proof (pl_position _ _ _ Hp) as Hpos.
  assert (Hlen : length (io_mem d) = length m0) by apply M8.
  destruct (queue_mixed fuel fmt C R x (at_dev_stream e) c (from_ptr (io_mem d) dst) n) as (m' & Hmix & Hinto); try done.
  { apply (pl_shm _ _ _ Hp). } { apply (pl_frame _ _ _ Hp). } { by rewrite (pl_frame _ _ _ Hp). } { lia. }
  { apply (pl_volume _ _ _ Hp). } { apply (pl_small _ _ _ Hp). }
  { rewrite (pl_frame _ _ _ Hp). apply (pl_queued _ _ _ Hp). }
  { rewrite (pl_frame _ _ _ Hp). unfold from_ptr. rewrite length_drop. lia. }
  fold (position e x) in Hmix, Hinto. unfold available in Hav. rewrite Z.min_l, (pl_frame _ _ _ Hp) in Hinto by lia.
  rewrite Z.min_l in Hmix by lia. eapply runs_there; [exact Hmix|].
  eapply runs_put_same; [exact M1|by rewrite M2|]. unfold put_stream, set_thread. prog_step.
  eapply (runs_dev k d); [exact M1|reflexivity|]. replace (n <? 0) with false by lia.
  eapply runs_on_dev; [apply lookup_insert_eq|]. unfold cras_iodev_stream_written, get_dev, set_dev. prog_step.
  eapply runs_there; [exact M4|]. prog_step.
  rewrite (u32_small n) by lia. eexists _, _. split.
  - apply lookup_insert_eq.
  - exact M2.
  - exact M3.
  - reflexivity.
  - exact W1.
  - exact W3.
  - exact (eq_trans W2 M7).
  - rewrite (take_S_r _ _ _ Hpl). apply (mix_one_more _ _ _ _ _ _ M8 Hfit); [lia|exact Hinto].
  - intros j q e' x' Hj Hj'. stored e x.
    destruct (decide (j = i)) as [->|Hne].
    + rewrite Hl in Hj. rewrite Hx in Hj'. injection Hj as <- <-. injection Hj' as <-.
      rewrite decide_True by lia. apply lookup_insert_eq.
    + rewrite lookup_insert_ne.
      * rewrite (M9 j q e' x' Hj Hj'). destruct (decide (j < i)%nat); [rewrite decide_True by lia|rewrite decide_False by lia]; done.
      * intros Heq. apply Hne. pose proof (mi_rstreams _ _ Hm) as Hnd. rewrite <- list_fmap_compose in Hnd.
        eapply (nth_once (at_stream ∘ snd) l); [exact Hnd|exact Hj|exact Hl|done].
  - intros r Hr. stored e x.
    rewrite lookup_insert_ne; [by apply M10|]. intros <-. apply Hr. rewrite <- list_fmap_compose.
    apply list_elem_of_fmap. exists (p, e). split; [done|]. by eapply list_elem_of_lookup_2.
Qed.

Lemma starts_together s d :
  mixing s d -> share_ok b -> runs cras_iodev_max_stream_offset (IodevState d (th_srv s))
    (fun r t => r = 0 /\ t = IodevState d (th_srv s)).
Proof.
  intros Hm Hb. unfold cras_iodev_max_stream_offset, get_dev. prog_step.
  set (t0 := IodevState d (th_srv s)). change (dev t0) with d. rewrite (mi_streams _ _ Hm).
  apply (runs_fold (fun _ r t => r = 0 /\ t = t0) _ _ 0%nat); [done|]. intros i [p e] r t Hi [-> ->].
  destruct (player_at s d i p e Hm Hi) as (x & Hx & Hsx & Hp & _). destruct (pl_share _ _ _ Hp) as [data Hd]. change ((p, e).2) with e.
  rewrite (pl_running _ _ _ Hp). cbn [negb]. unfold find_rstream, get_srv. repeat prog_step.
  eapply runs_here; [exact Hsx|]. unfold cras_iodev_stream_offset. change (dev t0) with d. rewrite (mi_buf _ _ Hm).
  cbn [mbind option_bind]. pose proof (ot_offset_law b (rs_stream_id x) Hb) as Ho. simpl in Ho. rewrite Ho, Hd.
  eapply runs_there; [done|]. by prog_step.
Qed.

Lemma runs_mix s0 d0 m0 s d :
  mixing s0 d0 -> Forall (fun ex => n <= available ex.1 ex.2) players -> n < 4294967296 ->
  dst + n * (num_channels fmt * width) <= Z.of_nat (length m0) ->
  mixed_up_to s0 m0 0 s d b ->
  runs (each_stream k (mix_stream fuel side k dst n (u32 (cras_get_format_bytes fmt)))) s
    (fun _ s' => exists d' b', mixed_up_to s0 m0 (length l) s' d' b').
Proof.
  intros Hm Hav Hn Hfit H0. unfold each_stream, for_each_stream. eapply runs_the_iodev; [apply (mu_dev _ _ _ _ _ _ H0)|].
  rewrite (mu_streams _ _ _ _ _ _ H0).
  eapply runs_mono; [apply (runs_fold (fun i _ s' => exists d' b', mixed_up_to s0 m0 i s' d' b') _ _ 0%nat)|].
  - by exists d, b.
  - intros i p [] s1 Hi (d1 & b1 & H1). simpl in H1. destruct (nth_address l i p Hi) as [e He].
    destruct (player_at s0 d0 i p e Hm He) as (x & Hx & _ & Hp & Hpl). by eapply mix_at.
  - intros _ s' (d' & b' & Hs'). exists d', b'. unfold addrs in Hs'. by rewrite length_fmap in Hs'.
Qed.
End Mixing.

(** The number of frames is the least of the limit and what the streams have. *)
Lemma frames_for_least {P : pcm_library} {L : speex_library} limit es : frames_for limit es = limit \/ Exists (fun ex => frames_for limit es = available ex.1 ex.2) es.
Proof.
  unfold frames_for. revert limit. induction es as [|ex es IH]; intros limit; simpl; [by left|].
  destruct (IH (Z.min (available ex.1 ex.2) limit)) as [Heq|He]; [|right; by right].
  rewrite Heq. destruct (Z.min_spec (available ex.1 ex.2) limit) as [[_ ->]|[_ ->]]; [right; by left|by left].
Qed.

Section Heard.
Context {P : pcm_library} {L : speex_library} {RE : rate_library} {D : dsp_service} {AP : apm_service}.
Context {hw : Type} {H : iodev_hw (hw := hw)} {X : iodev_xrun (hw := hw)} {V : iodev_driver (hw := hw)} {W : surroundings}.
Context (fuel : nat) (side : side) (fmt : cras_audio_format) (C : Codec) (R : Z -> Z -> spec_float -> Z -> Z -> option Z).
Context (k : Z) (l : dlist attached) (xs : list cras_rstream) (b : buffer_share) (dst limit : Z) (s : thread hw) (d : cras_iodev hw).

(** A device that plays its streams into [dst], where there is room for
    [limit] frames; nobody else has a share of its buffer. *)
Record device_plays : Prop := {
  dp_format : mix_format (format fmt) C R;
  dp_no_s24 : format fmt <> SND_PCM_FORMAT_S24_LE;
  dp_frame : cras_get_format_bytes fmt = num_channels fmt * width;
  dp_channels : 0 < num_channels fmt < 65536;
  dp_mixing : mixing fmt C k l xs b s d;
  dp_some : 0 < Z.of_nat (length l) < 4294967296;
  dp_share : share_ok b;
  dp_users : forall id v, share b !! id = Some v -> v.1 = 0 /\ id ∈ rs_stream_id <$> xs;
  dp_limit : 0 < limit < 2147483648 /\ limit <= buf_sz b;
  dp_dst : 0 <= dst /\ dst + limit * (num_channels fmt * width) <= Z.of_nat (length (io_mem d))
}.

(** After [n] frames. *)
Record heard (n : Z) (s' : thread hw) (d' : cras_iodev hw) (b' : buffer_share) : Prop := {
  he_dev : th_devs s' !! k = Some d';
  he_streams : io_streams d' = l;
  he_mix : has_mix fmt C R dst n (players l xs) (io_mem d) (io_mem d');
  he_moved : forall j p e x, l !! j = Some (p, e) -> xs !! j = Some x ->
    rstreams s' !! at_stream e = Some (cras_rstream_dev_offset_update x n (ds_dev_id (at_dev_stream e)));
  he_others : forall r, (r ∉ at_stream <$> l.*2) -> rstreams s' !! r = rstreams s !! r;
  he_buf : io_buf_state d' = Some b' /\ share_ok b' /\ buf_sz b' = buf_sz b /\ share b' = share b
}.

Lemma runs_write_streams :
  pcm_documented P -> device_plays -> (Z.to_nat limit < fuel)%nat ->
  let n := frames_for limit (players l xs) in
  0 < n <= limit -> Forall (fun ex => n <= available ex.1 ex.2) (players l xs) ->
  runs (write_streams fuel side k dst limit) s (fun rc s' => rc = n /\ exists d' b', heard n s' d' b').
Proof.
  intros HP [Hfmt Hn24 Hfb Hch Hm Hlen Hb Husers Hlim [Hdst Hfit]] Hfuel n Hn Hav.
  pose proof width_pos as Hw. pose proof (frame_small fmt C R Hfmt Hch) as Hsmall.
  assert (Hnfit : dst + n * (num_channels fmt * width) <= Z.of_nat (length (io_mem d))) by nia.
  pose proof (mi_dev _ _ _ _ _ _ _ _ Hm) as Hd.
  unfold write_streams. eapply runs_the_iodev; [exact Hd|]. eapply runs_there; [apply (mi_format _ _ _ _ _ _ _ _ Hm)|].
  eapply runs_step with (Q := fun r s1 => r = 0 /\ s1 = s).
  { eapply runs_on_dev; [exact Hd|]. eapply runs_mono; [by eapply starts_together|].
    intros r t [-> ->]. split; [done|by apply put_same_dev]. }
  intros r s1 [-> ->]. eapply runs_step; [eapply runs_limits; [exact Hm|lia|lia]|].
  intros c s1 [-> ->]. fold n. cbn [lm_playing lm_write lm_drain].
  replace (Z.of_nat (length l) =? 0) with false by lia. replace (n >? 0) with true by lia.
  destruct (silence_is_mix fmt C R dst n ltac:(lia) ltac:(lia) (io_mem d)) as (m1 & Hm1 & Hsil); [lia|done|].
  eapply runs_dev with (t := IodevState (d <| io_mem := m1 |>) (th_srv s)); [exact Hd| |].
  { unfold on_mem, get_dev, set_dev, bind, gets, here, modify. cbn [dev].
    rewrite Z.mul_0_l, Z.sub_0_r, Z.add_0_r. rewrite Hfb, (u32_small (_ * _)), u64_small by nia.
    rewrite Hm1. reflexivity. }
  eapply runs_step.
  { eapply (runs_mix fuel side fmt C R k l xs b dst n) with (s0 := s) (m0 := io_mem d) (d := d <| io_mem := m1 |>);
      try done; try lia.
    pose proof Hm as [M1 M2 M3 M4 M5 M6 M7 M8 M9].
    split; [apply lookup_insert_eq|exact M2|exact M5|exact M6|exact Hb| |done|exact Hsil| |done].
    - intros id. destruct (share b !! id) as [v|] eqn:Hv; done.
    - intros j p e x Hj Hx. exact (Forall2_lookup_lr _ _ _ _ _ _ M7 Hj Hx). }
  intros _ s2 (d2 & b2 & [U1 U2 U3 U4 U5 U6 U7 U8 U9 U10]).
  assert (Hxs : length l = length xs) by (eapply Forall2_length, (mi_there _ _ _ _ _ _ _ _ Hm)).
  assert (Hall : take (length l) (players l xs) = players l xs).
  { apply take_ge. unfold players. rewrite length_zip_with, length_fmap. lia. }
  rewrite Hxs, (take_ge xs) in U6 by lia. rewrite Hall in U8.
  destruct (all_written xs b n b2) as (b3 & Hw3 & Hok3 & Hsz3 & Hsh3); try done; [lia| |].
  { intros He. destruct l as [|[p e] l']; [simpl in Hlen; lia|].
    destruct (player_at fmt C k _ xs b s d 0 p e Hm eq_refl) as (x & _ & _ & Hp & _).
    destruct (pl_share _ _ _ _ _ Hp) as [data Hx]. by rewrite He in Hx. }
  eapply runs_dev with (t := IodevState (d2 <| io_buf_state := Some b3 |>) (th_srv s2)); [exact U1| |].
  { unfold cras_iodev_all_streams_written, get_dev, set_dev, bind, gets, modify, ret. cbn [dev]. rewrite U4, Hw3. reflexivity. }
  prog_step. split; [by rewrite s32_small by lia|]. eexists _, b3.
  split; [apply lookup_insert_eq|exact U2|exact U8| |exact U10|by split_and!].
  intros j p e x Hj Hx. pose proof (U9 j p e x Hj Hx) as Hr. apply lookup_lt_Some in Hj as Hlt.
  rewrite decide_True in Hr by lia. exact Hr.
Qed.
End Heard.

(** Claim C3: when the streams of an output device play, [write_streams] leaves
    in the device's buffer the mix of the streams' queues and nothing else: it
    takes as many frames as the driver has room for and every stream has; each
    sample is the clipped sum of the streams' samples from where each stream
    stands, at its volume; the rest of the device's memory is as it was; and
    all streams have moved on by these frames together, so that the next call
    starts as this one did. *)
Theorem device_hears_streams {P : pcm_library} {L : speex_library} {RE : rate_library} {D : dsp_service} {AP : apm_service}
    {hw : Type} {H : iodev_hw (hw := hw)} {X : iodev_xrun (hw := hw)} {V : iodev_driver (hw := hw)} {W : surroundings}
    (fuel : nat) (side : side) (fmt : cras_audio_format) (C : Codec) R (k : Z) (l : dlist attached)
    (xs : list cras_rstream) (b : buffer_share) (dst limit : Z) (s : thread hw) (d : cras_iodev hw) :
  pcm_documented P -> device_plays fmt C R k l xs b dst limit s d -> (Z.to_nat limit < fuel)%nat ->
  exists n s' d' b', write_streams fuel side k dst limit s = Some (n, s') /\
    0 < n <= limit /\ Forall (fun ex => n <= available ex.1 ex.2) (players l xs) /\
    (n = limit \/ Exists (fun ex => n = available ex.1 ex.2) (players l xs)) /\
    heard fmt C R k l xs b dst s d n s' d' b'.
Proof.
  intros HP Hd Hfuel. set (n := frames_for limit (players l xs)).
  destruct (frames_for_bounds limit (players l xs)) as [Hn Hav]; [apply Hd|by eapply players_available, Hd|].
  destruct (proj1 (runs_Some _ _ _) (runs_write_streams fuel side _ _ _ _ _ _ _ _ _ _ _ HP Hd Hfuel Hn Hav))
    as (rc & s' & Hrun & -> & d' & b' & Hh).
  exists n, s', d', b'. split_and!; [exact Hrun|lia|lia|exact Hav|apply frames_for_least|exact Hh].
Qed.

(** ** An example

    Two streams on a device whose buffer has room for three frames from byte 4
    on; one stream has two frames, the other only one. *)
#[local] Existing Instances alsa_example speex_example.

Definition stream_for_nine (id offset : Z) : cras_rstream :=
  let x := set_rs_queued_frames 2 shared_stream in
  {| rs_stream_id := id; rs_stream_type := 0; rs_client_type := 0;
     rs_direction := CRAS_STREAM_OUTPUT; rs_flags := 0; rs_fd := 5; rs_buffer_frames := 2;
     rs_cb_threshold := 1; rs_is_draining := 0; rs_master_dev := MasterDev 9 90; rs_client := 1;
     rs_shm := rs_shm x; rs_audio_area := cras_audio_area_create 2;
     rs_format := rs_format x; rs_next_cb_ts := Timespec 0 0; rs_sleep_interval_ts := Timespec 0 0;
     rs_last_fetch_ts := Timespec 0 0; rs_longest_fetch_interval := Timespec 0 0;
     rs_start_ts := Timespec 0 0; rs_first_missed_cb_ts := Timespec 0 0;
     rs_buf_state := {| buf_sz := 2; id_sz := 3;
        wr_idx := [IdOffset 0 7 2 70; IdOffset 0 8 20 0; IdOffset 1 9 offset 90] |};
     rs_apm_list := 0; rs_num_attached_devs := 1; rs_num_missed_cb := 0; rs_queued_frames := 2;
     rs_is_pinned := false; rs_pinned_dev_idx := 0; rs_triggered := 0 |}.

Definition share_of_two : buffer_share :=
  {| buf_sz := 8; id_sz := 3; wr_idx := [IdOffset 1 65537 0 0; IdOffset 0 8 20 0; IdOffset 1 65538 0 0] |}.

Definition device_nine : cras_iodev empty_iodev := {|
    io_idx := 9; io_nodes := []; io_active_node := None; io_direction := CRAS_STREAM_OUTPUT;
    io_supported_rates := empty_supported_rates; io_supported_channel_counts := empty_supported_channel_counts;
    io_supported_formats := empty_supported_formats; io_buffer_size := 8; io_min_buffer_level := 0;
    io_format := Some (stereo_s16 48000); io_rate_est := None; io_area := None; io_dsp_context := None; io_dsp_name := None;
    io_software_volume_needed := 0; io_software_gain_scaler := float_zero;
    io_streams := [(100, Attached 1 device_9); (101, Attached 2 device_9)];
    io_state := CRAS_IODEV_STATE_NORMAL_RUN; io_min_cb_level := 0; io_max_cb_level := 0; io_highest_hw_level := 0;
    io_largest_cb_level := 0; io_num_underruns := 0; io_buf_state := Some share_of_two; io_idle_timeout := Timespec 0 0;
    io_open_ts := Timespec 0 0; io_loopbacks := []; io_pre_open_hook := false; io_post_close_hook := false;
    io_ext_dsp_module := None; io_reset_request_pending := false; io_ramp := None; io_input_streaming := false;
    io_input_frames_read := 0; io_input_dsp_offset := 0; io_initial_ramp_request := CRAS_IODEV_RAMP_REQUEST_NONE;
    io_input_data := None; io_echo_reference_dev := None; io_is_enabled := false; io_mem := replicate 16 77;
    io_hw := EmptyIodev true 0 0 (Timespec 0 0) millisecond_clock 0 |}.

Definition two_streams : list cras_rstream := [stream_for_nine 65537 0; stream_for_nine 65538 1].
Definition nine_plays : thread empty_iodev :=
  Thread {[90 := device_nine]} (quiet_server <| sv_rstreams := {[1 := stream_for_nine 65537 0; 2 := stream_for_nine 65538 1]} |>)
    [] [] 0 (Timespec 5 0) 0 [].

Lemma share_of_two_ok : share_ok share_of_two.
Proof.
  split; simpl; try lia.
  - intros [|[|[|]]] o ? ?; simplify_eq/=; unfold is_u32; lia.
  - intros [|[|[|]]] [|[|[|]]] oi oj ? ? ? ?; simplify_eq/=; lia.
Qed.

Lemma nine_ready :
  device_plays (stereo_s16 48000) codec_s16 mixed_s16 90 (io_streams device_nine) two_streams share_of_two 4 3 nine_plays device_nine.
Proof.
  assert (Hplays : forall r id o, o = 0 \/ o = 1 -> (exists data, share share_of_two !! id = Some (0, data)) ->
    plays (stereo_s16 48000) codec_s16 share_of_two (Attached r device_9) (stream_for_nine id o)).
  { intros r id o Ho Hs. assert (Hpos : position (Attached r device_9) (stream_for_nine id o) = o) by (by destruct Ho as [->| ->]).
    split; rewrite ?Hpos; try done; try by vm_compute.
    - exists plain_conv. split; [done|by split].
    - apply busy_shm_ok.
    - simpl. lia. }
  assert (H1 : share share_of_two !! 65537 = Some (0, 0)) by by vm_compute.
  assert (H2 : share share_of_two !! 65538 = Some (0, 0)) by by vm_compute.
  split; [by constructor|done|by vm_compute|simpl; lia| |simpl; lia|exact share_of_two_ok| |simpl; lia|simpl; lia].
  - split; [done|done| | |done|done| | |].
    + apply NoDup_ListNoDup. repeat constructor; simpl; lia.
    + apply NoDup_ListNoDup. repeat constructor; simpl; lia.
    + by repeat constructor.
    + constructor; [apply Hplays; [by left|by eexists]|]. constructor; [apply Hplays; [by right|by eexists]|constructor].
    + apply NoDup_ListNoDup. repeat constructor; simpl; lia.
  - intros id v (i & o & Hi & Hu & <- & <-)%share_Some; [|exact share_of_two_ok].
    destruct i as [|[|[|]]]; simplify_eq/=; (split; [done|set_solver]).
Qed.

Lemma device_hears_streams_witness :
  exists s' d', write_streams (V := empty_driver 100) 100 Playback 90 4 3 nine_plays = Some (1, s') /\
    th_devs s' !! 90 = Some d' /\ rd codec_s16 (io_mem d') 6 = Some 5138 /\ io_mem d' !! 8%nat = Some 77.
Proof.
  destruct (device_hears_streams (V := empty_driver 100) 100 Playback (stereo_s16 48000) codec_s16 mixed_s16 90
    (io_streams device_nine) two_streams share_of_two 4 3 nine_plays device_nine alsa_example_documented nine_ready)
    as (n & s' & d' & b' & Hrun & Hn & Hav & Hleast & Hheard); [lia|].
  exists s', d'. assert (n = 1) as ->.
  { pose proof (Forall_lookup_1 _ _ 1 _ Hav eq_refl) as H2. change (n <= 1) in H2. lia. }
  pose proof (he_mix _ _ _ _ _ _ _ _ _ _ _ _ _ _ Hheard) as (_ & Hmix & Hrest).
  split; [exact Hrun|]. split; [apply Hheard|]. split.
  - pose proof (Hmix 1 ltac:(simpl; lia)) as H1. change (4 + 1 * width) with 6 in H1. rewrite H1. by vm_compute.
  - rewrite (Hrest 8%nat) by (right; simpl; lia). by vm_compute.
Defined.
