(* ===== verification/AudioThread.v ===== *)
(** * The audio thread (server/audio_thread.c)

    The thread that wakes when a device or a stream needs it, when the main
    thread has sent it a message, or when a file descriptor that another part
    of the server waits for has become ready.  One turn of its loop runs
    [dev_io_run], works out when to wake, gathers the descriptors to poll and
    serves what the poll gives.

    Streams and devices are of the two directions of [side]: the others are
    refused by [verify_rstream_parameters], so that the rest of [open_devs] is
    never used.  A reader of a pipe gets what [read] gives; a message is read
    whole.  Allocations of the thread succeed: it does not test them.  The log
    [atlog], the scheduling class and the creation of the pipes are left out. *)
From coqutil Require Import Datatypes.RecordSetters.
From S2P Require Import Prelude Prog Arrays Float32 Types DList Timespec Timers BufferShare Shm AudioFormat Mix AudioArea.
From S2P Require Import FmtConvOps FmtConv Rstream DevStream InputData Iodev IodevOutput Volume IodevOpen Thread DevIoPlayback DevIoCapture DevIo.
Import TriangleBracketNotations.
#[local] Open Scope Z_scope.
#[local] Open Scope prog_scope.

Definition MAX_CONTINUOUS_ZERO_SLEEP_COUNT : Z := 2.
Definition MAX_DEBUG_DEVS : Z := 4.
Definition MAX_DEBUG_STREAMS : Z := 8.
Definition POLLIN : Z := 1.
Definition EINTR : Z := 4.

Section Messages.
Context {L : speex_library}.

(** ** Messages of the main thread

    Streams and devices are named by their addresses; [DISCONNECT_STREAM] takes
    the first of its [devs], where [None] is [NULL]. *)
Inductive audio_thread_msg : Type :=
| AUDIO_THREAD_ADD_OPEN_DEV (dev : Z)
| AUDIO_THREAD_RM_OPEN_DEV (dir dev_idx : Z)
| AUDIO_THREAD_IS_DEV_OPEN (dev : Z)
| AUDIO_THREAD_ADD_STREAM (stream : Z) (devs : list Z)
| AUDIO_THREAD_DISCONNECT_STREAM (stream : Z) (dev : option Z)
| AUDIO_THREAD_STOP
| AUDIO_THREAD_DUMP_THREAD_INFO
| AUDIO_THREAD_DRAIN_STREAM (stream : Z)
| AUDIO_THREAD_CONFIG_GLOBAL_REMIX (fmt_conv : option cras_fmt_conv)
| AUDIO_THREAD_DEV_START_RAMP (dev_idx : Z) (request : CRAS_IODEV_RAMP_REQUEST)
| AUDIO_THREAD_REMOVE_CALLBACK (fd : Z)
| AUDIO_THREAD_AEC_DUMP (stream_id start fd : Z)
| AUDIO_THREAD_UNKNOWN (id : Z).

(** What [read] gives: a number of bytes, the end of the pipe, or an error. *)
Inductive read_result : Type :=
| ReadBytes (n : Z)
| ReadError (errno : Z).

Record pollfd : Type := Pollfd { pfd_fd : Z; pfd_events : Z; pfd_revents : Z }.

(** A function to call when a descriptor is ready.  The callback is known by
    its address; [cb_pollfd] is an index into the array polled. *)
Record iodev_callback_list : Type := IodevCallback {
  cb_fd : Z;
  cb_events : Z;
  cb_enabled : bool;
  cb_cb : Z;
  cb_cb_data : Z;
  cb_pollfd : option nat
}.

(** Debug information, as the client gets it. *)
Record audio_dev_debug_info : Type := DevDebugInfo {
  di_buffer_size : Z;
  di_min_buffer_level : Z;
  di_min_cb_level : Z;
  di_max_cb_level : Z;
  di_direction : Z;
  di_num_underruns : Z;
  di_num_severe_underruns : Z;
  di_highest_hw_level : Z;
  di_software_gain_scaler : spec_float;
  di_runtime : timespec;
  di_longest_wake : timespec;
  di_frame_rate : Z;
  di_num_channels : Z;
  di_est_rate_ratio : spec_float
}.

Record audio_stream_debug_info : Type := StreamDebugInfo {
  si_stream_id : Z;
  si_dev_idx : Z;
  si_direction : Z;
  si_stream_type : Z;
  si_client_type : Z;
  si_buffer_frames : Z;
  si_cb_threshold : Z;
  si_frame_rate : Z;
  si_num_channels : Z;
  si_channel_layout : list Z;
  si_longest_fetch : timespec;
  si_num_overruns : Z;
  si_effects : Z;
  si_pinned_dev_idx : Z;
  si_is_pinned : bool;
  si_num_missed_cb : Z;
  si_stream_volume : spec_float;
  si_runtime : timespec
}.

Record audio_debug_info : Type := DebugInfo {
  info_devs : list audio_dev_debug_info;
  info_streams : list audio_stream_debug_info
}.

(** What leaves the thread: responses to the main thread, and reports. *)
Inductive audio_event : Type :=
| Response (rc : Z)
| OldConverter (conv : option cras_fmt_conv)
| DebugInfoFilled (info : audio_debug_info)
| SetAecDump (apm_list dev start fd : Z)
| BusyloopEvent
| Busyloops (during : timespec) (count : Z).

(** What the thread meets: what reading and writing its pipes gives, the
    message that is read, what [ppoll] reports, what lies in new memory. *)
Class thread_pipes : Type := {
  read_pipe : nat -> nat -> read_result;
  next_command : nat -> Z * audio_thread_msg;
  write_response : nat -> Z;
  write_message : nat -> Z;
  ppoll : nat -> list pollfd -> option timespec -> Z * (nat -> Z);
  fresh_pollfd : pollfd;
  cras_apm_list_get_effects : Z -> Z
}.

End Messages.

Section AudioThread.
Context {P : pcm_library} {L : speex_library} {RE : rate_library} {D : dsp_service} {AP : apm_service}.
Context {hw : Type} {H : iodev_hw (hw := hw)} {X : iodev_xrun (hw := hw)} {V : iodev_driver (hw := hw)} {W : surroundings}.
Context {TP : thread_pipes}.
Context (fuel : nat).
#[local] Abbreviation thread_prog := (thread_prog (hw := hw)).

(** ** Devices *)

Definition side_of (dir : Z) : option side :=
  if dir =? CRAS_STREAM_OUTPUT then Some Playback else if dir =? CRAS_STREAM_INPUT then Some Capture else None.

(** [calloc] gives no address that is in use. *)
Definition calloc_open_dev : thread_prog Z :=
  let* p := malloc in
  let* s := gets id in
  here (if bool_decide (p ∈ addrs (th_odevs s) ++ addrs (th_idevs s)) then None else Some p).

Definition fill_odevs_zeros_min_level (k : Z) : thread_prog unit :=
  let* d := the_iodev k in
  let* _ := on_dev k (cras_iodev_fill_odev_zeros fuel (io_min_buffer_level d)) in ret tt.

Definition thread_add_open_dev (k : Z) : thread_prog Z :=
  let* d := the_iodev k in
  let* i := here (side_of (io_direction d)) in
  let* l := open_devs i in
  if bool_decide (is_Some (dl_search l (fun a => od_dev a =? k))) then ret (- EEXIST) else
  let* q := calloc_open_dev in
  (if io_direction d =? CRAS_STREAM_OUTPUT then fill_odevs_zeros_min_level k else ret tt) ;;
  put_open_devs i (dl_append l q (OpenDev k (Timespec 0 0) (Timespec 0 0) (Timespec 0 0) None None 0)) ;;
  ret 0.

Definition thread_rm_open_dev (dir dev_idx : Z) : thread_prog Z :=
  let* i := here (side_of dir) in
  let* adev := dev_io_find_open_dev i dev_idx in
  match adev with
  | None => ret (- EINVAL)
  | Some q => dev_io_rm_open_dev i q ;; ret 0
  end.

Definition thread_is_dev_open (k : Z) : thread_prog Z :=
  let* d := the_iodev k in
  let* i := here (side_of (io_direction d)) in
  let* adev := dev_io_find_open_dev i (io_idx d) in
  ret (if bool_decide (is_Some adev) then 1 else 0).

(** [cras_device_monitor_set_device_mute_state] sends a message. *)
Definition cras_device_monitor_set_device_mute_state (k : Z) : thread_prog Z :=
  let* sent := look reset_sent in
  on_dev k (let* d := get_dev in emit (SetDeviceMuteState (io_idx d)) ;; ret sent).

Definition thread_dev_start_ramp (dev_idx : Z) (request : CRAS_IODEV_RAMP_REQUEST) : thread_prog Z :=
  let* adev := dev_io_find_open_dev Playback dev_idx in
  match adev with
  | None => ret (- EINVAL)
  | Some q =>
      let* a := the_open_dev Playback q in
      let k := od_dev a in
      let* d := the_iodev k in
      let* ramps :=
        if bool_decide (is_Some (io_ramp d)) && bool_decide (cras_iodev_state d = CRAS_IODEV_STATE_NORMAL_RUN)
        then let* zero := on_dev k cras_iodev_is_zero_volume in ret (negb zero) else ret false in
      if ramps : bool then on_dev k (cras_iodev_start_ramp request) else cras_device_monitor_set_device_mute_state k
  end.

(** ** Streams *)

Definition thread_find_stream (r : Z) : thread_prog bool :=
  let* s := the_stream r in
  let* i := here (side_of (rs_direction s)) in
  let* l := open_devs i in
  fold_prog (fun q (found : bool) =>
    if found then ret true else
    let* a := the_open_dev i q in
    let* d := the_iodev (od_dev a) in
    ret (existsb (fun e => at_stream e.2 =? r) (io_streams d))) (addrs l) false.

Definition thread_disconnect_stream (r : Z) (dev : option Z) : thread_prog Z :=
  let* found := thread_find_stream r in
  if negb found then ret 0 else
  let* s := the_stream r in
  let* i := here (side_of (rs_direction s)) in
  dev_io_remove_stream i r dev ;; ret 0.

Definition thread_drain_stream_ms_remaining (r : Z) : thread_prog Z :=
  let* s := the_stream r in
  if negb (rs_direction s =? CRAS_STREAM_OUTPUT) then ret 0 else
  let* fr_in_buff := here (cras_shm_get_frames (rs_shm s)) in
  if fr_in_buff <=? 0 then ret 0 else
  put_stream r (cras_rstream_set_is_draining s 1) ;;
  let* ms := here (cras_frames_to_ms fr_in_buff (frame_rate (rs_format s))) in
  ret (s32 (u32 (1 + ms))).

Definition thread_drain_stream (r : Z) : thread_prog Z :=
  let* found := thread_find_stream r in
  if negb found then ret 0 else
  let* ms_left := thread_drain_stream_ms_remaining r in
  (if ms_left =? 0 then
     let* s := the_stream r in
     let* i := here (side_of (rs_direction s)) in
     dev_io_remove_stream i r None
   else ret tt) ;;
  ret ms_left.

Definition thread_add_stream (r : Z) (iodevs : list Z) : thread_prog Z :=
  let* s := the_stream r in
  let* i := here (side_of (rs_direction s)) in
  let* rc := dev_io_append_stream i r iodevs in
  if rc <? 0 then ret rc else ret 0.

(** ** The thread *)

(** [pollfds_size] is the length of the array of [pollfds]. *)
Record audio_thread : Type := AudioThread {
  au_thread : thread hw;
  au_callbacks : dlist iodev_callback_list;
  au_started : bool;
  au_pollfds : list pollfd;
  au_num_pollfds : Z;
  au_remix_converter : option cras_fmt_conv;
  au_continuous_zero_sleep_count : Z;
  au_busyloop_count : Z;
  au_busyloop_started : bool;
  au_busyloop_start_time : timespec;
  au_sent : list audio_event
}.

Definition audio_prog : Type -> Type := prog audio_thread.

(** The callbacks' functions are other parts of the server. *)
Class thread_callbacks : Type := { thread_callback : Z -> Z -> Z -> audio_prog Z }.

Definition in_thread {A} (m : thread_prog A) : audio_prog A :=
  zoom au_thread (fun t s => s <| au_thread := t |>) m.

Definition set_audio (f : audio_thread -> audio_thread) : audio_prog unit := modify f.
Definition report (e : audio_event) : audio_prog unit := set_audio (fun s => s <| au_sent ::= fun l => l ++ [e] |>).

(** ** Callbacks *)

(** [p] is the address that [calloc] gives. *)
Definition audio_thread_add_events_callback (p fd cb data events : Z) : audio_prog unit :=
  let* s := gets id in
  if existsb (fun e => (cb_fd e.2 =? fd) && (cb_cb_data e.2 =? data)) (au_callbacks s) then ret tt else
  set_audio (fun s => s <| au_callbacks ::= fun l => dl_append l p (IodevCallback fd events true cb data None) |>).

(** The first callback of a descriptor. *)
Definition callback_of (fd : Z) (l : dlist iodev_callback_list) : option Z :=
  fst <$> dl_search l (fun c => cb_fd c =? fd).

Definition audio_thread_rm_callback (fd : Z) : audio_prog unit :=
  let* s := gets id in
  match callback_of fd (au_callbacks s) with
  | None => ret tt
  | Some p => let* l := here (dl_delete (au_callbacks s) p) in set_audio (fun s => s <| au_callbacks := l |>)
  end.

Definition update_callback (p : Z) (f : iodev_callback_list -> iodev_callback_list) : audio_prog unit :=
  let* s := gets id in
  let* l := here (dl_update (au_callbacks s) p f) in set_audio (fun s => s <| au_callbacks := l |>).

Definition audio_thread_enable_callback (fd enabled : Z) : audio_prog unit :=
  let* s := gets id in
  match callback_of fd (au_callbacks s) with
  | None => ret tt
  | Some p => update_callback p (fun c => c <| cb_enabled := negb (enabled =? 0) |>)
  end.

(** ** Debug information *)

Definition float_or_zero (b : bool) (f : spec_float) : spec_float := if b then f else float_zero.

(** The device is read again after its driver has been asked. *)
Definition append_dev_dump_info (a : open_dev) : thread_prog audio_dev_debug_info :=
  let k := od_dev a in
  let* d := the_iodev k in
  let* severe := on_dev k cras_iodev_get_num_severe_underruns in
  let* d1 := the_iodev k in
  let* now := clock_gettime in
  let* (rate, channels, ratio) :=
    match io_format d with
    | Some fmt => let* ratio := here (cras_iodev_get_est_rate_ratio d1) in ret (frame_rate fmt, num_channels fmt, ratio)
    | None => ret (0, 0, float_zero)
    end in
  ret {| di_buffer_size := u32 (io_buffer_size d);
         di_min_buffer_level := io_min_buffer_level d;
         di_min_cb_level := io_min_cb_level d;
         di_max_cb_level := io_max_cb_level d;
         di_direction := u8 (io_direction d);
         di_num_underruns := cras_iodev_get_num_underruns d;
         di_num_severe_underruns := severe;
         di_highest_hw_level := io_highest_hw_level d1;
         di_software_gain_scaler :=
           float_or_zero (io_direction d1 =? CRAS_STREAM_INPUT) (io_software_gain_scaler d1);
         di_runtime := subtract_timespecs now (io_open_ts d1);
         di_longest_wake := od_longest_wake a;
         di_frame_rate := rate;
         di_num_channels := u32 channels;
         di_est_rate_ratio := ratio |}.

Definition append_stream_dump_info (k p : Z) : thread_prog audio_stream_debug_info :=
  let* e := the_attached k p in
  let* s := the_stream (at_stream e) in
  let* d := the_iodev k in
  let* now := clock_gettime in
  ret {| si_stream_id := rs_stream_id s;
         si_dev_idx := io_idx d;
         si_direction := rs_direction s;
         si_stream_type := rs_stream_type s;
         si_client_type := rs_client_type s;
         si_buffer_frames := rs_buffer_frames s;
         si_cb_threshold := rs_cb_threshold s;
         si_frame_rate := frame_rate (rs_format s);
         si_num_channels := u32 (num_channels (rs_format s));
         si_channel_layout := channel_layout (rs_format s);
         si_longest_fetch := rs_longest_fetch_interval s;
         si_num_overruns := cras_shm_num_overruns (rs_shm s);
         si_effects := cras_apm_list_get_effects (rs_apm_list s);
         si_pinned_dev_idx := rs_pinned_dev_idx s;
         si_is_pinned := rs_is_pinned s;
         si_num_missed_cb := rs_num_missed_cb s;
         si_stream_volume := cras_rstream_get_volume_scaler s;
         si_runtime := subtract_timespecs now (rs_start_ts s) |}.

(** A device's streams, until there are [MAX_DEBUG_STREAMS]. *)
Definition dump_streams (k : Z) (info : audio_debug_info) : thread_prog audio_debug_info :=
  for_each_stream k (fun p info =>
    if Z.of_nat (length (info_streams info)) =? MAX_DEBUG_STREAMS then ret info else
    let* si := append_stream_dump_info k p in
    ret (DebugInfo (info_devs info) (info_streams info ++ [si]))) info.

Definition dump_dev (a : open_dev) (info : audio_debug_info) : thread_prog audio_debug_info :=
  let* di := append_dev_dump_info a in ret (DebugInfo (info_devs info ++ [di]) (info_streams info)).

Definition devs_full (info : audio_debug_info) : bool := Z.of_nat (length (info_devs info)) =? MAX_DEBUG_DEVS.

(** The loop over the output devices is left as soon as the last place is
    taken, before that device's streams are looked at. *)
Definition dump_output_devs (info : audio_debug_info) : thread_prog audio_debug_info :=
  let* l := open_devs Playback in
  fold_prog (fun e info =>
    if devs_full info then ret info else
    let* info := dump_dev e.2 info in
    if devs_full info then ret info else dump_streams (od_dev e.2) info) l info.

Definition dump_input_devs (info : audio_debug_info) : thread_prog audio_debug_info :=
  let* l := open_devs Capture in
  fold_prog (fun e info =>
    if devs_full info then ret info else
    let* info := dump_dev e.2 info in dump_streams (od_dev e.2) info) l info.

Definition dump_thread_info : thread_prog audio_debug_info :=
  let* info := dump_output_devs (DebugInfo [] []) in dump_input_devs info.

(** Tells the processing of every stream of that id, on every input device. *)
Definition thread_set_aec_dump (stream_id start fd : Z) : audio_prog Z :=
  let* s := gets id in
  each (fun '(_, a) =>
    let* d := in_thread (the_iodev (od_dev a)) in
    if negb (cras_iodev_is_open d) then ret tt else
    each (fun '(_, e) =>
      let* r := in_thread (the_stream (at_stream e)) in
      if (rs_apm_list r =? 0) || negb (rs_stream_id r =? stream_id) then ret tt
      else report (SetAecDump (rs_apm_list r) (od_dev a) start fd)) (io_streams d)) (th_idevs (au_thread s)) ;;
  ret 0.

(** ** Messages *)

Fixpoint read_loop (n : nat) (at_ : nat) (count_left count : Z) (i : nat) : option Z :=
  if negb (count_left >? 0) then Some count else
  match n with
  | O => None
  | S n =>
      match read_pipe at_ i with
      | ReadError errno => if errno =? EINTR then read_loop n at_ count_left count (S i) else Some (-1)
      | ReadBytes nread => if nread =? 0 then Some (- EPIPE) else read_loop n at_ (count_left - nread) count (S i)
      end
  end.

Definition read_until_finished (count : Z) : audio_prog Z :=
  let* at_ := in_thread (look id) in here (read_loop fuel at_ count count 0).

(** The message, when it has been read; its length stands before it. *)
Definition audio_thread_read_command (max_len : Z) : audio_prog (Z * option audio_thread_msg) :=
  let* (length, msg) := in_thread (look next_command) in
  let* nread := read_until_finished 8 in
  if nread <? 0 then ret (nread, None) else
  if length >? max_len then ret (- ENOMEM, None) else
  let* rc := read_until_finished (s32 (length - 8)) in
  if rc <? 0 then ret (rc, None) else ret (0, Some msg).

Definition audio_thread_send_response (rc : Z) : audio_prog Z :=
  let* err := in_thread (look write_response) in
  (if err <? 0 then ret tt else report (Response rc)) ;; ret err.

(** A message's work and its answer; [None] for the two that are answered in
    another way. *)
Definition handle_message (msg : audio_thread_msg) : audio_prog (option Z) :=
  let answer (m : audio_prog Z) : audio_prog (option Z) := let* rc := m in ret (Some rc) in
  match msg with
  | AUDIO_THREAD_ADD_STREAM stream devs => answer (in_thread (thread_add_stream stream devs))
  | AUDIO_THREAD_DISCONNECT_STREAM stream dev => answer (in_thread (thread_disconnect_stream stream dev))
  | AUDIO_THREAD_ADD_OPEN_DEV dev => answer (in_thread (thread_add_open_dev dev))
  | AUDIO_THREAD_RM_OPEN_DEV dir dev_idx => answer (in_thread (thread_rm_open_dev dir dev_idx))
  | AUDIO_THREAD_IS_DEV_OPEN dev => answer (in_thread (thread_is_dev_open dev))
  | AUDIO_THREAD_DUMP_THREAD_INFO =>
      let* info := in_thread dump_thread_info in report (DebugInfoFilled info) ;; ret (Some 0)
  | AUDIO_THREAD_DRAIN_STREAM stream => answer (in_thread (thread_drain_stream stream))
  | AUDIO_THREAD_REMOVE_CALLBACK fd => audio_thread_rm_callback fd ;; ret (Some 0)
  | AUDIO_THREAD_DEV_START_RAMP dev_idx request => answer (in_thread (thread_dev_start_ramp dev_idx request))
  | AUDIO_THREAD_AEC_DUMP stream_id start fd => answer (thread_set_aec_dump stream_id start fd)
  | AUDIO_THREAD_UNKNOWN _ => ret (Some (- EINVAL))
  | AUDIO_THREAD_STOP | AUDIO_THREAD_CONFIG_GLOBAL_REMIX _ => ret None
  end.

(** Whether the thread goes on, and the result. *)
Definition serve_message (msg : audio_thread_msg) : audio_prog (bool * Z) :=
  let* rc := handle_message msg in
  match msg, rc with
  | AUDIO_THREAD_STOP, _ =>
      let* err := audio_thread_send_response 0 in
      if err <? 0 then ret (true, err) else ret (false, 0)
  | AUDIO_THREAD_CONFIG_GLOBAL_REMIX fmt_conv, _ =>
      let* s := gets id in
      set_audio (fun s => s <| au_remix_converter := fmt_conv |>) ;;
      let* n := in_thread (look write_response) in
      (if n <? 0 then ret tt else report (OldConverter (au_remix_converter s))) ;; ret (true, n)
  | _, Some rc =>
      let* err := audio_thread_send_response rc in ret (true, if err <? 0 then err else rc)
  | _, None => here None
  end.

Definition handle_playback_thread_message : audio_prog (bool * Z) :=
  let* (err, msg) := audio_thread_read_command 256 in
  if err <? 0 then ret (true, err) else
  let* msg := here msg in serve_message msg.

(** ** When to wake *)

Definition fill_next_sleep_interval : thread_prog (Z * timespec) :=
  let* now := clock_gettime in
  let* min_ts := here (add_timespecs (Timespec 20 0) now) in
  let* (n, min_ts) := dev_io_next_output_wake min_ts in
  let* (m, min_ts) := dev_io_next_input_wake min_ts in
  ret (n + m, if timespec_after min_ts now then subtract_timespecs min_ts now else Timespec 0 0).

(** ** What to poll *)

Definition realloc_pollfds (l : list pollfd) (size : Z) : list pollfd :=
  take (Z.to_nat size) l ++ replicate (Z.to_nat size - length l) fresh_pollfd.

(** The place of the descriptor; [None] when the array has been replaced. *)
Definition add_pollfd (fd events : Z) : audio_prog (option nat) :=
  let* s := gets id in
  let i := Z.to_nat (au_num_pollfds s) in
  let* e := here (au_pollfds s !! i) in
  let l := <[i := Pollfd fd events (pfd_revents e)]> (au_pollfds s) in
  let num_pollfds := u64 (au_num_pollfds s + 1) in
  let size := Z.of_nat (length l) in
  if num_pollfds >=? size then
    set_audio (fun s => s <| au_num_pollfds := num_pollfds |> <| au_pollfds := realloc_pollfds l (u64 (size * 2)) |>) ;;
    ret None
  else
    set_audio (fun s => s <| au_num_pollfds := num_pollfds |> <| au_pollfds := l |>) ;; ret (Some i).

(** [go] is false after a replacement: the rest is passed over. *)
Definition poll_callback (p : Z) (go : bool) : audio_prog bool :=
  if negb go then ret false else
  let* s := gets id in
  let* c := here (dl_find (au_callbacks s) p) in
  if negb (cb_enabled c) then update_callback p (fun c => c <| cb_pollfd := None |>) ;; ret true else
  let* place := add_pollfd (cb_fd c) (cb_events c) in
  update_callback p (fun c => c <| cb_pollfd := place |>) ;;
  ret (bool_decide (is_Some place)).

Definition poll_stream (r : Z) (go : bool) : audio_prog bool :=
  if negb go then ret false else
  let* s := in_thread (the_stream r) in
  let fd := dev_stream_poll_stream_fd s in
  if fd <? 0 then ret true else let* place := add_pollfd fd POLLIN in ret (bool_decide (is_Some place)).

Definition poll_dev (k : Z) (go : bool) : audio_prog bool :=
  if negb go then ret false else
  let* d := in_thread (the_iodev k) in
  fold_prog (fun e => poll_stream (at_stream e.2)) (io_streams d) go.

Definition poll_devs (i : side) (go : bool) : audio_prog bool :=
  let* l := in_thread (open_devs i) in fold_prog (fun e => poll_dev (od_dev e.2)) l go.

Definition poll_callbacks : audio_prog bool :=
  let* s := gets id in fold_prog poll_callback (addrs (au_callbacks s)) true.

Definition poll_pass : audio_prog bool :=
  let* go := poll_callbacks in let* go := poll_devs Playback go in poll_devs Capture go.

(** From [restart_poll_loop] on. *)
Fixpoint gather_pollfds (n : nat) : audio_prog unit :=
  match n with
  | O => here None
  | S n =>
      set_audio (fun s => s <| au_num_pollfds := 1 |>) ;;
      let* go := poll_pass in if go : bool then ret tt else gather_pollfds n
  end.

(** ** Busy loops *)

Definition log_busyloop (wait_ts : option timespec) : audio_prog unit :=
  let* s := gets id in
  if bool_decide (is_Some wait_ts) && negb (au_busyloop_started s) then
    let* now := in_thread clock_gettime in
    set_audio (fun s => s <| au_busyloop_started := true |> <| au_busyloop_count := 0 |> <| au_busyloop_start_time := now |>)
  else if bool_decide (wait_ts = None) && au_busyloop_started s then
    let* now := in_thread clock_gettime in
    set_audio (fun s => s <| au_busyloop_started := false |>) ;;
    report (Busyloops (subtract_timespecs now (au_busyloop_start_time s)) (au_busyloop_count s))
  else ret tt.

Definition check_busyloop (wait_ts : timespec) : audio_prog unit :=
  if (tv_sec wait_ts =? 0) && (tv_nsec wait_ts =? 0) then
    set_audio (fun s => s <| au_continuous_zero_sleep_count ::= fun n => s32 (n + 1) |>) ;;
    let* s := gets id in
    if au_continuous_zero_sleep_count s =? MAX_CONTINUOUS_ZERO_SLEEP_COUNT then
      set_audio (fun s => s <| au_busyloop_count ::= fun n => u32 (n + 1) |>) ;; report BusyloopEvent
    else ret tt
  else set_audio (fun s => s <| au_continuous_zero_sleep_count := 0 |>).

(** ** The loop *)
Section Turn.
Context {CB : thread_callbacks}.

(** [ppoll] writes the events of the descriptors it is given. *)
Definition poll (wait_ts : option timespec) : audio_prog Z :=
  let* s := gets id in
  let n := Z.to_nat (au_num_pollfds s) in
  let* (rc, revents) := in_thread (look (fun at_ => ppoll at_ (take n (au_pollfds s)) wait_ts)) in
  set_audio (fun s => s <| au_pollfds ::= fun l =>
    imap (fun i e => if bool_decide (i < n)%nat then Pollfd (pfd_fd e) (pfd_events e) (revents i) else e) l |>) ;;
  ret rc.

Definition run_callback (c : iodev_callback_list) : audio_prog unit :=
  match cb_pollfd c with
  | None => ret tt
  | Some i =>
      let* s := gets id in
      let* e := here (au_pollfds s !! i) in
      if Z.land (pfd_revents e) (cb_events c) =? 0 then ret tt else
      let* _ := thread_callback (cb_cb c) (cb_cb_data c) (pfd_revents e) in ret tt
  end.

(** [DL_FOREACH] over callbacks that may add and remove callbacks: the next one
    is read before the function is called, and following it to one that is no
    longer there is undefined. *)
Fixpoint run_callbacks (n : nat) (cur : option Z) : audio_prog unit :=
  match cur with
  | None => ret tt
  | Some p =>
      match n with
      | O => here None
      | S n =>
          let* s := gets id in
          let* c := here (dl_find (au_callbacks s) p) in
          let* next := here (dl_next (au_callbacks s) p) in
          run_callback c ;; run_callbacks n next
      end
  end.

(** One turn; false when the thread has ended. *)
Definition audio_io_turn : audio_prog bool :=
  let* s := gets id in
  in_thread (dev_io_run fuel (au_remix_converter s)) ;;
  let* (n, ts) := in_thread fill_next_sleep_interval in
  let wait_ts := if n =? 0 then None else Some ts in
  gather_pollfds fuel ;;
  log_busyloop wait_ts ;;
  (match wait_ts with Some ts => check_busyloop ts | None => ret tt end) ;;
  let* rc := poll wait_ts in
  if rc <=? 0 then ret true else
  let* s := gets id in
  let* e := here (au_pollfds s !! 0%nat) in
  let* goes_on :=
    if Z.land (pfd_revents e) POLLIN =? 0 then ret true else
    let* (goes_on, _) := handle_playback_thread_message in ret goes_on in
  if negb goes_on then ret false else
  let* s := gets id in
  run_callbacks fuel (dl_head (au_callbacks s)) ;; ret true.

(** [n] turns, or fewer when the thread ends. *)
Fixpoint audio_io_turns (n : nat) : audio_prog unit :=
  match n with
  | O => ret tt
  | S n => let* goes_on := audio_io_turn in if goes_on : bool then audio_io_turns n else ret tt
  end.
End Turn.

(** ** The main thread's side

    What a function called from the main thread comes to before it posts a
    message: it may return without one. *)
Inductive request : Type :=
| Return (rc : Z)
| Post (msg : audio_thread_msg).

Definition if_started (thread : audio_thread) (msg : audio_thread_msg) : request :=
  if negb (au_started thread) then Return (- EINVAL) else Post msg.

Definition audio_thread_add_stream (thread : audio_thread) (stream : Z) (devs : list Z) : request :=
  if_started thread (AUDIO_THREAD_ADD_STREAM stream devs).
Definition audio_thread_disconnect_stream (stream : Z) (dev : option Z) : request :=
  Post (AUDIO_THREAD_DISCONNECT_STREAM stream dev).
Definition audio_thread_drain_stream (stream : Z) : request := Post (AUDIO_THREAD_DRAIN_STREAM stream).
Definition audio_thread_dump_thread_info : request := Post AUDIO_THREAD_DUMP_THREAD_INFO.
Definition audio_thread_set_aec_dump (stream_id start fd : Z) : request :=
  Post (AUDIO_THREAD_AEC_DUMP stream_id start fd).
Definition audio_thread_rm_callback_sync (fd : Z) : request := Post (AUDIO_THREAD_REMOVE_CALLBACK fd).
Definition audio_thread_add_open_dev (thread : audio_thread) (dev : Z) : request :=
  if_started thread (AUDIO_THREAD_ADD_OPEN_DEV dev).
Definition audio_thread_rm_open_dev (thread : audio_thread) (dir dev_idx : Z) : request :=
  if_started thread (AUDIO_THREAD_RM_OPEN_DEV dir dev_idx).
Definition audio_thread_is_dev_open (dev : option Z) : request :=
  match dev with None => Return 0 | Some dev => Post (AUDIO_THREAD_IS_DEV_OPEN dev) end.
Definition audio_thread_dev_start_ramp (thread : audio_thread) (dev_idx : Z) (req : CRAS_IODEV_RAMP_REQUEST) : request :=
  if_started thread (AUDIO_THREAD_DEV_START_RAMP dev_idx req).

(** The two entries across the diagonal, up to the first that is not zero. *)
Fixpoint rest_is_zero (coefficient : list spec_float) (num_channels i : Z) (js : list nat) : option bool :=
  match js with
  | [] => Some true
  | j :: js =>
      let j := Z.of_nat j in
      a ← ld coefficient (u32 (i * num_channels + j));
      if negb (SFeqb a float_zero) then Some false else
      b ← ld coefficient (u32 (j * num_channels + i));
      if negb (SFeqb b float_zero) then Some false else rest_is_zero coefficient num_channels i js
  end.

(** An entry of the diagonal that is not one ends the loop; another entry only
    the inner one. *)
Fixpoint identity_loop (coefficient : list spec_float) (num_channels : Z) (identity_remix : bool) (rows : list nat) : option bool :=
  match rows with
  | [] => Some identity_remix
  | i :: rows =>
      a ← ld coefficient (u32 (Z.of_nat i * num_channels + Z.of_nat i));
      if negb (SFeqb a float_one) then Some false else
      zero ← rest_is_zero coefficient num_channels (Z.of_nat i) (seq (S i) (Z.to_nat num_channels - S i));
      identity_loop coefficient num_channels (identity_remix && zero) rows
  end.

Definition is_identity_remix (num_channels : Z) (coefficient : list spec_float) : option bool :=
  identity_loop coefficient num_channels true (seq 0 (Z.to_nat num_channels)).

Definition audio_thread_config_global_remix (env : conv_env) (num_channels : Z) (coefficient : list spec_float) : option request :=
  identity_remix ← is_identity_remix num_channels coefficient;
  if identity_remix : bool then Some (Post (AUDIO_THREAD_CONFIG_GLOBAL_REMIX None)) else
  conv ← cras_channel_remix_conv_create env num_channels coefficient;
  Some match conv with
       | None => Return (- ENOMEM)
       | Some c => Post (AUDIO_THREAD_CONFIG_GLOBAL_REMIX (Some c))
       end.

(** The last event of those that have been sent since there were [n]. *)
Definition answer_after (n : nat) (l : list audio_event) : option audio_event := last (drop n l).

(** The message is written, the audio thread serves it, and its answer is
    read; the old converter is freed, and 0 returned, when that is the answer.
    Waiting for an answer that is not sent does not end. *)
Definition audio_thread_post_message (msg : audio_thread_msg) : audio_prog Z :=
  let* err := in_thread (look write_message) in
  if err <? 0 then ret err else
  let* s := gets id in
  let* _ := serve_message msg in
  let* s' := gets id in
  let* answer := here (answer_after (length (au_sent s)) (au_sent s')) in
  match answer with
  | Response rsp => let* err := read_until_finished 4 in ret (if err <? 0 then err else rsp)
  | OldConverter _ => let* err := read_until_finished 8 in ret (if err <? 0 then err else 0)
  | _ => here None
  end.

Definition perform (r : request) : audio_prog Z :=
  match r with Return rc => ret rc | Post msg => audio_thread_post_message msg end.

(** What lies in the array after [malloc] is [fresh_pollfd]. *)
Definition audio_thread_create (t : thread hw) : audio_thread :=
  AudioThread t [] false (replicate 32 fresh_pollfd) 0 None 0 0 false (Timespec 0 0) [].

(** [rc] is what [pthread_create] gives; the thread begins with its own pipe. *)
Definition audio_thread_start (rc msg_fd : Z) : audio_prog Z :=
  if negb (rc =? 0) then ret rc else
  let* s := gets id in
  let* e := here (au_pollfds s !! 0%nat) in
  set_audio (fun s => s <| au_started := true |>
                        <| au_pollfds ::= insert 0%nat (Pollfd msg_fd POLLIN (pfd_revents e)) |>) ;;
  ret 0.

(** What it frees is gone with the record. *)
Definition audio_thread_destroy : audio_prog unit :=
  let* s := gets id in
  if au_started s then let* _ := audio_thread_post_message AUDIO_THREAD_STOP in ret tt else ret tt.
End AudioThread.
