(* ===== verification/AudioThreadKept.v ===== *)
(** * What the audio thread keeps, and what it gives up (server/audio_thread.c)

    All turns of the thread, with the messages and callbacks they serve, keep
    devices and streams linked; a stream that has been drained or disconnected
    is on none of the thread's devices. *)
From coqutil Require Import Datatypes.RecordSetters.
From S2P Require Import Prelude Prog Arrays Float32 Types DList Timespec Timers BufferShare Shm AudioFormat Mix AudioArea.
From S2P Require Import FmtConv Ramp Volume Rstream DevStream InputData Iodev IodevOutput IodevOpen IodevStates EmptyIodev IodevLevels.
From S2P Require Import Thread DevIoPlayback DevIoCapture DevIo DevLinks DevStreamKept DevLinksKept AudioThread.
Import TriangleBracketNotations.
#[local] Open Scope Z_scope.
#[local] Open Scope prog_scope.

Section Kept.
Context {P : pcm_library} {L : speex_library} {RE : rate_library} {D : dsp_service} {AP : apm_service}.
Context {hw : Type} {H : iodev_hw (hw := hw)} {X : iodev_xrun (hw := hw)} {V : iodev_driver (hw := hw)} {W : surroundings}.
Context {TP : thread_pipes}.
Context (fuel : nat).
Context {DK : driver_keeps (dev_view (hw := hw))}.
#[local] Abbreviation audio_thread := (audio_thread (hw := hw)).

(** ** Links *)

Definition linked_audio (s s' : audio_thread) : Prop := linked_too (au_thread s) (au_thread s').
#[export] Instance linked_audio_preorder : PreOrder linked_audio.
Proof. split; unfold linked_audio; [by intros s Hs|]. intros s1 s2 s3 H1 H2 H3. by apply H2, H1. Qed.

#[local] Hint Extern 4 (respects linked_too _) =>
  (apply (respects_weaken kept linked_too); [exact kept_linked|solve [auto with respects nocore]]) : respects.

Lemma linked_in_thread {A} (m : thread_prog (hw := hw) A) : respects linked_too m -> respects linked_audio (in_thread m).
Proof. intros Hm s. apply yields_zoom. eapply yields_mono; [apply Hm|]. intros a t Ht. exact Ht. Qed.
#[local] Hint Extern 3 (respects linked_audio (in_thread _)) => (apply linked_in_thread) : respects.

Lemma linked_set_audio (f : audio_thread -> audio_thread) :
  (forall s, au_thread (f s) = au_thread s) -> respects linked_audio (set_audio f).
Proof. intros Hf. apply respects_modify. intros s. unfold linked_audio. rewrite Hf. by intros ?. Qed.
#[local] Hint Extern 2 (respects linked_audio (set_audio _)) => (apply linked_set_audio; reflexivity) : respects.

Lemma linked_report e : respects linked_audio (report e).
Proof. unfold report. respect. Qed.
#[local] Hint Resolve linked_report : respects.
Lemma linked_look {A} (f : nat -> A) : respects (linked_too (hw := hw)) (look f).
Proof. apply (respects_weaken kept linked_too); [exact kept_linked|apply kept_look]. Qed.
#[local] Hint Resolve linked_look : respects.

#[local] Hint Resolve kept_look kept_clock kept_send kept_put_open_devs kept_set_open_dev : respects.
#[local] Hint Extern 1 (respects linked_too (dev_io_rm_open_dev _ _)) => exact (linked_rm_open_dev _ _) : respects.
#[local] Hint Extern 1 (respects linked_too (dev_io_remove_stream _ _ _)) => exact (linked_remove_stream _ _ _) : respects.
#[local] Hint Extern 1 (respects linked_too (dev_io_append_stream _ _ _)) => exact (linked_append _ _ _) : respects.
#[local] Hint Extern 1 (respects linked_too (dev_io_run _ _)) => exact (linked_run _ _) : respects.
#[local] Hint Extern 1 (respects kept (dev_io_next_input_wake _)) => exact (kept_input_wake _) : respects.
#[local] Hint Extern 1 (respects kept (dev_io_next_output_wake _)) => exact (kept_output_wake _) : respects.

Lemma kept_dev {A} k (m : iodev_prog (hw := hw) A) : keeps dev_view m -> respects kept (on_dev k m).
Proof. apply on_dev_kept. Qed.

Lemma kept_find_open_dev i n : respects kept (dev_io_find_open_dev (hw := hw) i n).
Proof. unfold dev_io_find_open_dev. respect. Qed.
Lemma kept_malloc : respects kept (malloc (hw := hw)).
Proof. unfold malloc. respect. Qed.
#[local] Hint Resolve kept_find_open_dev kept_malloc : respects.

Lemma kept_calloc : respects kept (calloc_open_dev (hw := hw)).
Proof. unfold calloc_open_dev. respect. Qed.
Lemma kept_fill k : respects kept (fill_odevs_zeros_min_level fuel k).
Proof.
  unfold fill_odevs_zeros_min_level. respect. apply kept_dev, view_fill_zeros, DK.
Qed.
Lemma kept_mute_state k : respects kept (cras_device_monitor_set_device_mute_state (hw := hw) k).
Proof.
  unfold cras_device_monitor_set_device_mute_state. respect. apply kept_dev, keeps_bind; [apply keeps_get_dev|]. intros d.
  apply keeps_bind; [exact (keeps_emit dev_view dev_view_reads _)|]. intros []. apply keeps_ret.
Qed.
#[local] Hint Resolve kept_calloc kept_fill kept_mute_state : respects.

Lemma kept_add_open_dev k : respects kept (thread_add_open_dev fuel k).
Proof. unfold thread_add_open_dev. respect_thread. Qed.
Lemma linked_thread_rm_open_dev dir n : respects linked_too (thread_rm_open_dev (hw := hw) dir n).
Proof. unfold thread_rm_open_dev. respect. Qed.
Lemma kept_is_dev_open k : respects kept (thread_is_dev_open (hw := hw) k).
Proof. unfold thread_is_dev_open. respect. Qed.
Lemma kept_dev_start_ramp n r : respects (kept (hw := hw)) (thread_dev_start_ramp n r).
Proof.
  unfold thread_dev_start_ramp. respect; apply kept_dev; [|exact (view_start_ramp r)].
  unfold cras_iodev_is_zero_volume. apply keeps_bind; [apply keeps_get_dev|]. intros d. keep; reflexivity.
Qed.
Lemma kept_find_stream r : respects kept (thread_find_stream (hw := hw) r).
Proof. unfold thread_find_stream. respect. Qed.
#[local] Hint Resolve kept_add_open_dev linked_thread_rm_open_dev kept_is_dev_open kept_dev_start_ramp kept_find_stream : respects.

Lemma kept_drain_ms r : respects kept (thread_drain_stream_ms_remaining (hw := hw) r).
Proof.
  unfold thread_drain_stream_ms_remaining. intros s. apply yields_the_stream. intros x Hx.
  destruct (negb _); [by prog_step|]. apply yields_there. intros n _. destruct (n <=? 0); [by prog_step|].
  eapply kept_update_stream; [exact Hx|by apply same_table_devices|respect].
Qed.
#[local] Hint Resolve kept_drain_ms : respects.

Lemma linked_disconnect r dev : respects linked_too (thread_disconnect_stream (hw := hw) r dev).
Proof. unfold thread_disconnect_stream. respect. Qed.
Lemma linked_drain r : respects linked_too (thread_drain_stream (hw := hw) r).
Proof. unfold thread_drain_stream. respect. Qed.
Lemma linked_add_stream r devs : respects linked_too (thread_add_stream (hw := hw) r devs).
Proof. unfold thread_add_stream. respect. Qed.
#[local] Hint Resolve linked_disconnect linked_drain linked_add_stream : respects.

(** ** The thread's own steps *)

Lemma kept_fill_next : respects (kept (hw := hw)) fill_next_sleep_interval.
Proof. unfold fill_next_sleep_interval. respect. Qed.
Lemma kept_dump : respects (kept (hw := hw)) dump_thread_info.
Proof.
  assert (Hd : forall a, respects (kept (hw := hw)) (append_dev_dump_info a)).
  { intros a. unfold append_dev_dump_info. respect. apply kept_dev.
    unfold cras_iodev_get_num_severe_underruns. apply keeps_bind; [apply keeps_get_dev|]. intros d. keep.
    by eapply dk_get_num_severe. }
  assert (Hs : forall k i, respects (kept (hw := hw)) (dump_streams k i)).
  { intros k i. unfold dump_streams, append_stream_dump_info. respect_thread. }
  unfold dump_thread_info, dump_output_devs, dump_input_devs, dump_dev. respect; auto.
Qed.
#[local] Hint Resolve kept_fill_next kept_dump : respects.

Lemma linked_update_callback p f : respects linked_audio (update_callback p f).
Proof. unfold update_callback. respect. Qed.
#[local] Hint Resolve linked_update_callback : respects.

Lemma linked_add_pollfd fd e : respects linked_audio (add_pollfd (hw := hw) fd e).
Proof. unfold add_pollfd. respect. Qed.
#[local] Hint Resolve linked_add_pollfd : respects.
Lemma linked_poll_callback p go : respects linked_audio (poll_callback (hw := hw) p go).
Proof. unfold poll_callback. respect. Qed.
Lemma linked_poll_stream r go : respects linked_audio (poll_stream (hw := hw) r go).
Proof. unfold poll_stream. respect. Qed.
#[local] Hint Resolve linked_poll_callback linked_poll_stream : respects.
Lemma linked_poll_devs i go : respects linked_audio (poll_devs (hw := hw) i go).
Proof. unfold poll_devs, poll_dev. respect. Qed.
#[local] Hint Resolve linked_poll_devs : respects.
Lemma linked_gather n : respects linked_audio (gather_pollfds (hw := hw) n).
Proof. induction n as [|n IH]; simpl; unfold poll_pass, poll_callbacks; respect. Qed.
#[local] Hint Resolve linked_gather : respects.

Lemma linked_read n : respects linked_audio (read_until_finished (hw := hw) fuel n).
Proof. unfold read_until_finished. respect. Qed.
#[local] Hint Resolve linked_read : respects.
Lemma linked_send_response n : respects linked_audio (audio_thread_send_response (hw := hw) n).
Proof. unfold audio_thread_send_response. respect. Qed.
Lemma linked_read_command n : respects linked_audio (audio_thread_read_command (hw := hw) fuel n).
Proof. unfold audio_thread_read_command. respect. Qed.
Lemma linked_rm_callback n : respects linked_audio (audio_thread_rm_callback (hw := hw) n).
Proof. unfold audio_thread_rm_callback. respect. Qed.
Lemma linked_set_aec_dump id n fd : respects linked_audio (thread_set_aec_dump (hw := hw) id n fd).
Proof. unfold thread_set_aec_dump, each. respect. Qed.
#[local] Hint Resolve linked_send_response linked_read_command linked_rm_callback linked_set_aec_dump : respects.

Lemma linked_handle_message m : respects linked_audio (handle_message fuel m).
Proof. unfold handle_message. respect. Qed.
#[local] Hint Resolve linked_handle_message : respects.
Lemma linked_serve_message m : respects linked_audio (serve_message fuel m).
Proof. unfold serve_message. respect. Qed.
#[local] Hint Resolve linked_serve_message : respects.
Lemma linked_handle : respects linked_audio (handle_playback_thread_message fuel).
Proof. unfold handle_playback_thread_message. respect. Qed.
#[local] Hint Resolve linked_handle : respects.

Lemma linked_log_busyloop w : respects linked_audio (log_busyloop (hw := hw) w).
Proof. unfold log_busyloop. respect. Qed.
Lemma linked_check_busyloop w : respects linked_audio (check_busyloop (hw := hw) w).
Proof. unfold check_busyloop. respect. Qed.
Lemma linked_poll w : respects linked_audio (poll (hw := hw) w).
Proof. unfold poll. respect. Qed.
#[local] Hint Resolve linked_log_busyloop linked_check_busyloop linked_poll : respects.

(** Callbacks of other parts of the server attach and detach nothing. *)
Context {CB : thread_callbacks (hw := hw)}.
Hypothesis callbacks_link : forall cb data revents, respects linked_audio (thread_callback cb data revents).
#[local] Hint Resolve callbacks_link : respects.

Lemma linked_run_callbacks n cur : respects linked_audio (run_callbacks n cur).
Proof. revert cur. induction n as [|n IH]; intros cur; simpl; unfold run_callback; respect. Qed.
#[local] Hint Resolve linked_run_callbacks : respects.
Lemma linked_turn : respects linked_audio (audio_io_turn fuel).
Proof. unfold audio_io_turn. respect. Qed.
#[local] Hint Resolve linked_turn : respects.
Lemma linked_turns n : respects linked_audio (audio_io_turns fuel n).
Proof. induction n as [|n IH]; simpl; respect. Qed.

(** Claim C4: whatever the main thread asks of the audio thread, and however
    often it turns, the devices' lists of streams and the streams' tables of
    devices agree: a stream's table has exactly the devices that it is on, with
    their pointers, and the pointer to the master device that estimates its
    rate is never stale, but the one of a device that the stream is on. *)
Theorem devices_and_streams_agree (n : nat) (s s' : audio_thread) :
  linked (au_thread s) -> audio_io_turns fuel n s = Some (tt, s') ->
  let t := au_thread s' in
  (forall k d p e, th_devs t !! k = Some d -> (p, e) ∈ io_streams d ->
     exists x, streams t !! at_stream e = Some x /\ devices x !! io_idx d = Some k /\
       exists master q e', th_devs t !! get_master_dev x = Some master /\
         io_idx master = md_dev_id (rs_master_dev x) /\ (q, e') ∈ io_streams master /\ at_stream e' = at_stream e) /\
  (forall r x i k, streams t !! r = Some x -> devices x !! i = Some k ->
     exists d p e, th_devs t !! k = Some d /\ io_idx d = i /\ (p, e) ∈ io_streams d /\ at_stream e = r).
Proof.
  intros Hl Hrun. apply linked_agree. exact (yields_Some _ _ _ _ _ (linked_turns n s) Hrun Hl).
Qed.
End Kept.

(** ** An example

    The thread is given two silent devices and a stream for both, plays it, and
    takes it off the first, which was its master. *)
#[local] Existing Instances alsa_example speex_example expf_example.

(** Pipes that give what they are asked for; a message lies in the one to the
    thread at every wake. *)
Definition quiet_pipes (commands : nat -> audio_thread_msg) : thread_pipes := {|
  read_pipe _ _ := ReadBytes 8;
  next_command n := (16, commands n);
  write_response _ := 4;
  write_message _ := 16;
  ppoll _ _ _ := (1, fun i => if bool_decide (i = 0)%nat then POLLIN else 0);
  fresh_pollfd := Pollfd 77 77 77;
  cras_apm_list_get_effects _ := 0
|}.

#[export] Instance no_callbacks : thread_callbacks (hw := empty_iodev) := {| thread_callback _ _ _ := ret 0 |}.

Lemma no_callbacks_link cb data revents : respects linked_audio (thread_callback (thread_callbacks := no_callbacks) cb data revents).
Proof. apply respects_ret. exact _. Qed.

Definition quiet_thread (TP : thread_pipes) : option (audio_thread (hw := empty_iodev)) :=
  t ← two_devices; '(_, s) ← audio_thread_start 0 3 (audio_thread_create t); Some s.

(** By the looks that the thread has taken at its surroundings. *)
#[export] Instance example_pipes : thread_pipes := quiet_pipes (fun n =>
  if (n <? 9)%nat then AUDIO_THREAD_ADD_OPEN_DEV 70
  else if (n <? 22)%nat then AUDIO_THREAD_ADD_OPEN_DEV 71
  else if (n <? 42)%nat then AUDIO_THREAD_ADD_STREAM 5 [70; 71]
  else if (n <? 65)%nat then AUDIO_THREAD_IS_DEV_OPEN 71
  else AUDIO_THREAD_DISCONNECT_STREAM 5 (Some 70)).

Lemma devices_and_streams_agree_witness :
  exists s s' d p e x,
    quiet_thread example_pipes = Some s /\ audio_io_turns (V := empty_driver 100) 100 5 s = Some (tt, s') /\
    th_devs (au_thread s') !! 71 = Some d /\ (p, e) ∈ io_streams d /\ streams (au_thread s') !! 5 = Some x /\
    get_master_dev x = 71 /\ devices x !! 9 = Some 71.
Proof.
  assert (H : (fun s => (outlines (au_thread s), streams (au_thread s))) <$> quiet_thread example_pipes
      = Some ({[70 := (2, []); 71 := (9, [])]}, {[5 := new_stream]}) /\
    (s ← quiet_thread example_pipes; '(_, s') ← audio_io_turns (V := empty_driver 100) 100 5 s;
     d ← th_devs (au_thread s') !! 71; '(_, e) ← head (io_streams d); x ← streams (au_thread s') !! 5;
     Some (at_stream e, io_idx d, get_master_dev x)) = Some (5, 9, 71)) by (vm_compute; split; reflexivity).
  destruct H as [Hs Hrun]. destruct (quiet_thread example_pipes) as [s|]; [|discriminate Hs]. injection Hs as Ho Hst.
  cbn [mbind option_bind] in Hrun.
  destruct (audio_io_turns (V := empty_driver 100) 100 5 s) as [[[] s']|] eqn:E; [|discriminate Hrun].
  cbn [mbind option_bind] in Hrun. destruct (th_devs (au_thread s') !! 71) as [d|] eqn:Hd; [|discriminate Hrun].
  cbn [mbind option_bind] in Hrun. destruct (io_streams d) as [|[p e] l] eqn:Hl; [discriminate Hrun|].
  cbn [mbind option_bind head] in Hrun. destruct (streams (au_thread s') !! 5) as [x|] eqn:Hx; [|discriminate Hrun].
  injection Hrun as Hr Hi Hm. exists s, s', d, p, e, x.
  split; [reflexivity|]. split; [exact E|]. split; [exact Hd|].
  assert (Hin : (p, e) ∈ io_streams d) by (rewrite Hl; by left). split; [exact Hin|]. split; [exact Hx|]. split; [exact Hm|].
  destruct (devices_and_streams_agree (V := empty_driver 100) 100 (DK := empty_driver_keeps 100 dev_view dev_view_reads)
    no_callbacks_link 5 s s') as [Hon _].
  - unfold linked. rewrite Ho, Hst. exact linked_start.
  - exact E.
  - destruct (Hon 71 d p e Hd Hin) as (x' & Hx' & Hdev & _). rewrite Hr, Hx in Hx'. injection Hx' as <-. by rewrite Hi in Hdev.
Defined.
