(* ===== verification/AudioThreadStreams.v ===== *)
(** * Streams that the audio thread gives up (server/audio_thread.c)

    When a stream has been disconnected from all devices, or has nothing left
    to drain, its memory is freed by the main thread: the thread must have no
    device that still leads to it. *)
From coqutil Require Import Datatypes.RecordSetters.
From S2P Require Import Prelude Prog Arrays Float32 Types DList Timespec Timers BufferShare Shm AudioFormat Mix AudioArea.
From S2P Require Import FmtConv Ramp Volume Rstream DevStream InputData Iodev IodevOutput IodevOpen IodevStates EmptyIodev IodevLevels.
From S2P Require Import Thread DevIoPlayback DevIoCapture DevIo DevLinks DevStreamKept DevLinksKept AudioThread AudioThreadKept.
Import TriangleBracketNotations.
#[local] Open Scope Z_scope.
#[local] Open Scope prog_scope.

Section Streams.
Context {P : pcm_library} {L : speex_library} {RE : rate_library} {D : dsp_service} {AP : apm_service}.
Context {hw : Type} {H : iodev_hw (hw := hw)} {X : iodev_xrun (hw := hw)} {V : iodev_driver (hw := hw)} {W : surroundings}.
Context {DK : driver_keeps (dev_view (hw := hw))}.
#[local] Abbreviation thread := (thread hw).

Definition opens (i : side) (s : thread) : dlist open_dev := match i with Playback => th_odevs s | Capture => th_idevs s end.

(** ** The lists of open devices *)

Definition same_opens (s s' : thread) : Prop := forall i, opens i s' = opens i s.
#[export] Instance same_opens_preorder : PreOrder same_opens.
Proof. split; [by intros s i|]. intros s1 s2 s3 H1 H2 i. by rewrite H2. Qed.

Lemma opens_on_dev {A} k (m : iodev_prog (hw := hw) A) : respects same_opens (on_dev k m).
Proof. intros s. apply yields_on_dev. intros d Hd. unfold yields. destruct (m _) as [[a t]|]; [|done]. by intros []. Qed.
Lemma opens_set (f : thread -> thread) :
  (forall s, th_odevs (f s) = th_odevs s) -> (forall s, th_idevs (f s) = th_idevs s) -> respects same_opens (set_thread f).
Proof. intros H1 H2. apply respects_modify. intros s []; simpl; auto. Qed.
#[local] Hint Resolve opens_on_dev : respects.
#[local] Hint Extern 2 (respects same_opens (set_thread _)) => (apply opens_set; reflexivity) : respects.

Lemma opens_destroy e : respects same_opens (destroy_dev_stream (hw := hw) e).
Proof. unfold destroy_dev_stream, put_stream. respect. Qed.
Lemma opens_send e : respects same_opens (send (hw := hw) e).
Proof. unfold send. respect. Qed.
#[local] Hint Resolve opens_destroy opens_send : respects.
Lemma opens_delete k r : respects same_opens (delete_stream_from_dev (hw := hw) k r).
Proof. unfold delete_stream_from_dev. respect. Qed.
#[local] Hint Resolve opens_delete : respects.

(** ** A stream that leaves devices *)

Definition has_stream (s : thread) (k r : Z) : Prop := exists o : outline, outlines s !! k = Some o /\ r ∈ st_stream <$> o.2.

(** The stream comes to no device. *)
Definition fewer (r : Z) (s s' : thread) : Prop := forall k, has_stream s' k r -> has_stream s k r.
#[export] Instance fewer_preorder r : PreOrder (fewer r).
Proof. split; [by intros s k|]. intros s1 s2 s3 H1 H2 k Hk. by apply H1, H2. Qed.

Lemma kept_fewer r s s' : kept s s' -> fewer r s s'.
Proof. intros [Ho _] k (o & Hk & Hr). exists o. by rewrite <- Ho. Qed.

Lemma unlinked_gone s k r d s1 : unlinked s k r d s1 -> th_devs s !! k = Some d -> fewer r s s1 /\ ~ has_stream s1 k r.
Proof.
  intros [Ho _] Hd.
  assert (Hk : ~ has_stream s1 k r).
  { intros (o & Hk & Hr). rewrite Ho, lookup_insert_eq in Hk. injection Hk as <-. simpl in Hr.
    apply list_elem_of_fmap in Hr as (y & Hy & [Hne _]%list_elem_of_filter). congruence. }
  split; [|done]. intros q Hq. destruct (decide (q = k)) as [->|Hne]; [done|].
  destruct Hq as (o & Hq & Hr). exists o. by rewrite Ho, lookup_insert_ne in Hq.
Qed.

Lemma destroy_outlines e (s : thread) : yields (destroy_dev_stream e) s (fun _ s' => outlines s' = outlines s).
Proof. unfold destroy_dev_stream. apply yields_the_stream. intros x Hx. unfold put_stream, set_thread. by prog_step. Qed.

Lemma delete_gone k r s :
  linked s -> yields (delete_stream_from_dev k r) s (fun _ s' => fewer r s s' /\ ~ has_stream s' k r).
Proof.
  intros Hl. unfold delete_stream_from_dev. apply yields_the_iodev. intros d Hd.
  eapply yields_unlink; [done|done|]. intros s1 Hs1. destruct (unlinked_gone _ _ _ _ _ Hs1 Hd) as [Hf Hg].
  destruct (last _) as [p|]; [|by prog_step]. apply yields_there. intros e _.
  eapply yields_mono; [apply destroy_outlines|]. intros u s2 Hs2. cbv beta in Hs2.
  split; [intros q Hq; apply Hf|intros Hq; apply Hg]; revert Hq; unfold has_stream; by rewrite Hs2.
Qed.

(** No device of a list has the stream. *)
Definition off_devices (i : side) (r : Z) (s : thread) : Prop :=
  forall q a, (q, a) ∈ opens i s -> ~ has_stream s (od_dev a) r.

Lemma find_open (l : dlist open_dev) q a : NoDup (addrs l) -> (q, a) ∈ l -> dl_find l q = Some a.
Proof.
  intros Hnd Ha. apply list_elem_of_split in Ha as (l1 & l2 & ->). apply NoDup_middle in Hnd as (Hq & _).
  by apply dl_find_app.
Qed.

Lemma the_open_dev_spec {A} i q (f : open_dev -> thread_prog (hw := hw) A) s (Q : A -> thread -> Prop) :
  (forall a, dl_find (opens i s) q = Some a -> yields (f a) s Q) -> yields (bind (the_open_dev i q) f) s Q.
Proof. intros Hf. unfold the_open_dev, open_devs. repeat prog_step. apply yields_here. intros a Ha. apply Hf. by destruct i. Qed.

(** The stream is taken off every device of the list. *)
Lemma remove_everywhere i r s :
  linked s -> NoDup (addrs (opens i s)) ->
  yields (dev_io_remove_stream i r None) s (fun _ s' => off_devices i r s').
Proof.
  intros Hl Hnd. unfold dev_io_remove_stream. apply yields_the_stream. intros x Hx.
  eapply yields_step with (Q := fun _ s1 => linked s1 /\ opens i s1 = opens i s).
  { apply yields_both.
    - eapply yields_mono with (Q := fun _ s1 => kept s s1); [|intros _ s1 Hk; exact (kept_linked _ _ Hk Hl)].
      pose proof (kept_send (hw := hw)). apply (kept_run (hw := hw)). respect.
    - assert (Hr : respects same_opens (if timespec_after (rs_longest_fetch_interval x) (rs_sleep_interval_ts x)
        then let delay := subtract_timespecs (rs_longest_fetch_interval x) (rs_sleep_interval_ts x) in
          let msec := u32 (tv_sec delay * 1000 + Z.quot (tv_nsec delay) 1000000) in
          if negb (msec =? 0) then send (LongestFetchDelay msec) else ret tt else ret tt : thread_prog (hw := hw) unit)) by (cbv zeta; respect).
      eapply yields_mono; [apply Hr|]. intros u s1 Hs1. apply Hs1. }
  intros _ s1 [Hl1 Ho1]. unfold for_each_open_dev, open_devs, each. prog_step.
  change (match i with Playback => th_odevs s1 | Capture => th_idevs s1 end) with (opens i s1). rewrite Ho1.
  eapply yields_mono.
  { apply (yields_fold_at (fun j _ s2 => linked s2 /\ opens i s2 = opens i s /\
      forall q a, q ∈ take j (addrs (opens i s)) -> dl_find (opens i s) q = Some a -> ~ has_stream s2 (od_dev a) r) _ _ 0%nat).
    - split_and!; [done|done|]. intros q a Hq. by apply not_elem_of_nil in Hq.
    - intros j q b s2 Hq (Hl2 & Ho2 & Hg2). simpl in *. apply the_open_dev_spec. rewrite Ho2. intros a Ha.
      eapply yields_mono.
      { apply yields_both; [apply (delete_gone (od_dev a) r s2 Hl2)|].
        apply yields_both; [apply (linked_delete (od_dev a) r s2)|apply (opens_delete (od_dev a) r s2)]. }
      intros _ s3 ((Hf & Hg) & Hl3 & Ho3). split_and!; [by apply Hl3|by rewrite Ho3|].
      intros q' a' Hq' Ha'. rewrite (take_S_r _ _ _ Hq), elem_of_app, list_elem_of_singleton in Hq'.
      destruct Hq' as [Hq'| ->]; [intros Hs; apply Hf in Hs; by eapply Hg2|]. congruence. }
  intros _ s2 (_ & Ho2 & Hg2). intros q a Ha. rewrite Ho2 in Ha. apply (Hg2 q a); [|by apply find_open].
  rewrite Nat.add_0_l, firstn_all. apply list_elem_of_fmap. by exists (q, a).
Qed.

(** ** Looking for a stream *)

Lemma not_on_device (s : thread) k d r :
  th_devs s !! k = Some d -> existsb (fun e => at_stream e.2 =? r) (io_streams d) = false -> ~ has_stream s k r.
Proof.
  intros Hd He (o & Ho & Hr). rewrite (outline_at s k d Hd) in Ho. injection Ho as <-.
  apply stops_of in Hr as (p & e & Hin & Hr). apply not_true_iff_false in He. apply He, existsb_exists.
  exists (p, e). split; [by apply list_elem_of_In|]. by apply Z.eqb_eq.
Qed.

(** Looking changes nothing; a stream that is not found is on no device. *)
Lemma find_stream_spec i r x s :
  streams s !! r = Some x -> side_of (rs_direction x) = Some i -> NoDup (addrs (opens i s)) ->
  yields (thread_find_stream r) s (fun found s' => s' = s /\ (found = false -> off_devices i r s)).
Proof.
  intros Hx Hi Hnd. unfold thread_find_stream. apply yields_the_stream. intros x' Hx'. rewrite Hx in Hx'. injection Hx' as <-.
  rewrite Hi. apply yields_there. intros i' [= <-]. unfold open_devs. prog_step.
  change (match i with Playback => th_odevs s | Capture => th_idevs s end) with (opens i s).
  eapply yields_mono.
  { apply (yields_fold_at (fun j found s2 => s2 = s /\ (found = false ->
      forall q a, q ∈ take j (addrs (opens i s)) -> dl_find (opens i s) q = Some a -> ~ has_stream s (od_dev a) r)) _ _ 0%nat).
    - split; [done|]. intros _ q a Hq. by apply not_elem_of_nil in Hq.
    - intros j q found s2 Hq [-> Hf]. destruct found; [by prog_step|]. apply the_open_dev_spec. intros a Ha.
      apply yields_the_iodev. intros d Hd. prog_step. split; [done|]. intros He q' a' Hq' Ha'. simpl in *.
      rewrite (take_S_r _ _ _ Hq), elem_of_app, list_elem_of_singleton in Hq'.
      destruct Hq' as [Hq'| ->]; [by eapply Hf|]. rewrite Ha in Ha'. injection Ha' as <-. by eapply not_on_device. }
  intros found s2 [-> Hf]. split; [done|]. intros Hb q a Ha. apply (Hf Hb q a); [|by apply find_open].
  rewrite Nat.add_0_l, firstn_all. apply list_elem_of_fmap. by exists (q, a).
Qed.

Lemma ms_left (n rate : Z) : 0 < n -> n * 1000 < 2 ^ 31 - 1 -> 0 < rate < 2 ^ 32 ->
  exists ms, cras_frames_to_ms n rate = Some ms /\ s32 (u32 (1 + ms)) = 1 + n * 1000 / rate /\ 0 <= n * 1000 / rate.
Proof.
  intros Hn Hb Hr. unfold cras_frames_to_ms. rewrite u32_small, udiv_Some by lia. eexists. split; [reflexivity|].
  rewrite (Z.mul_comm 1000 n). assert (0 <= n * 1000 / rate <= n * 1000).
  { split; [apply Z.div_pos; lia|]. apply Z.div_le_upper_bound; nia. }
  split; [|lia]. rewrite u32_small, s32_small by lia. reflexivity.
Qed.

Section Given.
Context (i : side) (r : Z) (x : cras_rstream) (s : thread).
Context (Hl : linked s) (Hx : streams s !! r = Some x) (Hi : side_of (rs_direction x) = Some i).
Context (Hnd : NoDup (addrs (opens i s))).

Lemma yields_this_stream {A} (f : cras_rstream -> thread_prog (hw := hw) A) (Q : A -> thread -> Prop) :
  yields (f x) s Q -> yields (bind (the_stream r) f) s Q.
Proof using Hx. intros Hf. apply yields_the_stream. intros x' Hx'. rewrite Hx in Hx'. by injection Hx' as <-. Qed.

(** Removal from the list that the stream's direction names. *)
Lemma yields_removed {A} (m : side -> thread_prog (hw := hw) A) (Q : A -> thread -> Prop) :
  yields (m i) s Q ->
  yields (let* s := the_stream r in let* i := here (side_of (rs_direction s)) in m i) s Q.
Proof using Hi Hx. intros Hm. apply yields_this_stream. rewrite Hi. apply yields_there. by intros i' [= <-]. Qed.

Lemma disconnect_spec : yields (thread_disconnect_stream r None) s (fun rc s' => rc = 0 /\ off_devices i r s').
Proof using All.
  unfold thread_disconnect_stream. eapply yields_step; [by eapply find_stream_spec|]. intros found s1 [-> Hf].
  destruct found; simpl; [|prog_step; split; [done|by apply Hf]].
  apply yields_removed. eapply yields_step; [by apply remove_everywhere|]. intros [] s2 H2. by prog_step.
Qed.

Definition draining (s' : thread) (n ms : Z) : Prop :=
  0 < n /\ ms = 1 + n * 1000 / frame_rate (rs_format x) /\ 0 < ms /\
  exists x', streams s' !! r = Some x' /\ cras_rstream_get_is_draining x' = 1.

Lemma ms_remaining_spec (n : Z) :
  cras_shm_get_frames (rs_shm x) = Some n -> n * 1000 < 2 ^ 31 - 1 -> 0 < frame_rate (rs_format x) < 2 ^ 32 ->
  yields (thread_drain_stream_ms_remaining r) s (fun ms s1 => ms = 0 /\ s1 = s \/ draining s1 n ms).
Proof using Hx.
  intros Hn Hb Hr. unfold thread_drain_stream_ms_remaining. apply yields_this_stream.
  destruct (negb _); [prog_step; by left|]. rewrite Hn. apply yields_there. intros n' [= <-].
  destruct (Z.leb_spec n 0) as [Hle|Hlt]; [prog_step; by left|]. unfold put_stream, set_thread. prog_step.
  destruct (ms_left n _ Hlt Hb Hr) as (ms' & Hms & Hv & Hp). rewrite Hms. apply yields_there. intros m [= <-]. prog_step.
  right. unfold draining. rewrite Hv. split_and!; [done|done|lia|]. eexists. split; [apply lookup_insert_eq|done].
Qed.

Lemma drain_spec (n : Z) :
  cras_shm_get_frames (rs_shm x) = Some n -> n * 1000 < 2 ^ 31 - 1 -> 0 < frame_rate (rs_format x) < 2 ^ 32 ->
  yields (thread_drain_stream r) s (fun ms s' => ms = 0 /\ off_devices i r s' \/ draining s' n ms).
Proof using All.
  intros Hn Hb Hr. unfold thread_drain_stream. eapply yields_step; [by eapply find_stream_spec|]. intros found s1 [-> Hf].
  destruct found; simpl; [|prog_step; left; split; [done|by apply Hf]].
  eapply yields_step; [by apply ms_remaining_spec|]. intros ms s1 [[-> ->]|Hd].
  - rewrite Z.eqb_refl. eapply yields_step; [apply yields_removed; by apply remove_everywhere|].
    intros [] s2 H2. prog_step. by left.
  - rewrite (proj2 (Z.eqb_neq ms 0)) by (destruct Hd; lia). prog_step. by right.
Qed.
End Given.

(** Claim C6: a stream that the audio thread gives up is on none of the
    devices it has open, so that the main thread may free it: after it has
    been disconnected from all of them, and after it has been drained, when
    the answer is 0.  Otherwise the answer is the time that the frames left
    take, at least one millisecond, and the stream drains. *)
Theorem streams_are_given_up (i : side) (r : Z) (x : cras_rstream) (s : thread) :
  linked s -> streams s !! r = Some x -> side_of (rs_direction x) = Some i -> NoDup (addrs (opens i s)) ->
  (forall rc s', thread_disconnect_stream r None s = Some (rc, s') -> rc = 0 /\ off_devices i r s') /\
  (forall n ms s', cras_shm_get_frames (rs_shm x) = Some n -> n * 1000 < 2 ^ 31 - 1 ->
     0 < frame_rate (rs_format x) < 2 ^ 32 -> thread_drain_stream r s = Some (ms, s') ->
     ms = 0 /\ off_devices i r s' \/
     0 < n /\ ms = 1 + n * 1000 / frame_rate (rs_format x) /\ 0 < ms /\
       exists x', streams s' !! r = Some x' /\ cras_rstream_get_is_draining x' = 1).
Proof.
  intros Hl Hx Hi Hnd. split.
  - intros rc s'. exact (yields_Some _ _ _ _ _ (disconnect_spec i r x s Hl Hx Hi Hnd)).
  - intros n ms s' Hn Hb Hr. exact (yields_Some _ _ _ _ _ (drain_spec i r x s Hl Hx Hi Hnd n Hn Hb Hr)).
Qed.
End Streams.

(** ** An example: a stream on two devices is disconnected, and drained *)
#[local] Existing Instances alsa_example speex_example expf_example.

Definition playing_thread : option (thread empty_iodev) :=
  s ← quiet_thread example_pipes; '(_, s) ← audio_io_turns (V := empty_driver 100) 100 3 s; Some (au_thread s).

Lemma playing_linked s : playing_thread = Some s -> linked s.
Proof.
  unfold playing_thread. intros Hs.
  assert (H : (fun s => (outlines (au_thread s), streams (au_thread s))) <$> quiet_thread example_pipes
      = Some ({[70 := (2, []); 71 := (9, [])]}, {[5 := new_stream]})) by (vm_compute; reflexivity).
  destruct (quiet_thread example_pipes) as [s0|]; [|discriminate H]. injection H as Ho Hst. cbn [mbind option_bind] in Hs.
  destruct (audio_io_turns (V := empty_driver 100) 100 3 s0) as [[[] s1]|] eqn:E; [|discriminate Hs]. injection Hs as <-.
  refine (yields_Some _ _ _ _ _ (linked_turns (V := empty_driver 100) 100
    (DK := empty_driver_keeps 100 dev_view dev_view_reads) no_callbacks_link 3 s0) E _).
  unfold linked. rewrite Ho, Hst. exact linked_start.
Qed.

Lemma streams_are_given_up_witness :
  exists s s' s'', playing_thread = Some s /\ has_stream s 70 5 /\
    thread_disconnect_stream (V := empty_driver 100) 5 None s = Some (0, s') /\ off_devices Playback 5 s' /\
    thread_drain_stream (V := empty_driver 100) 5 s = Some (0, s'') /\ off_devices Playback 5 s''.
Proof.
  assert (H : (s ← playing_thread; x ← streams s !! 5; d ← th_devs s !! 70; n ← cras_shm_get_frames (rs_shm x);
      Some (addrs (opens Playback s), rs_direction x, n, frame_rate (rs_format x), (outline_of d).2,
        fst <$> thread_disconnect_stream (V := empty_driver 100) 5 None s,
        fst <$> thread_drain_stream (V := empty_driver 100) 5 s))
    = Some ([1007; 1020], 0, 0, 48000, [(1036, 5, 2)], Some 0, Some 0)) by (vm_compute; reflexivity).
  destruct playing_thread as [s|] eqn:Hs; [|discriminate H]. cbn [mbind option_bind] in H.
  destruct (streams s !! 5) as [x|] eqn:Hx; [|discriminate H]. cbn [mbind option_bind] in H.
  destruct (th_devs s !! 70) as [d|] eqn:Hd; [|discriminate H]. cbn [mbind option_bind] in H.
  destruct (cras_shm_get_frames (rs_shm x)) as [n|] eqn:Hn; [|discriminate H]. cbn [mbind option_bind] in H.
  destruct (thread_disconnect_stream 5 None s) as [[rc s']|] eqn:E1; [|discriminate H].
  destruct (thread_drain_stream 5 s) as [[ms s'']|] eqn:E2; [|discriminate H]. injection H as Ha Hdir -> Hrate Hout -> ->.
  destruct (streams_are_given_up (V := empty_driver 100) (DK := empty_driver_keeps 100 dev_view dev_view_reads)
    Playback 5 x s (playing_linked s Hs) Hx ltac:(by rewrite Hdir) ltac:(simpl; change (opens Playback s) with (th_odevs s) in *; rewrite Ha; by apply (bool_decide_unpack _))) as [H1 H2].
  exists s, s', s''. split; [reflexivity|]. split.
  { exists (outline_of d). split; [by apply outline_at|]. simpl in Hout |- *. rewrite Hout. by left. }
  split; [exact E1|]. split; [by apply (H1 0 s' E1)|]. split; [exact E2|].
  destruct (H2 0 0 s'' Hn ltac:(lia) ltac:(rewrite Hrate; lia) E2) as [[_ H3]|H3]; [exact H3|]. destruct H3. lia.
Defined.
