(* ===== verification/AudioThreadPoll.v ===== *)
(** * What the audio thread waits for (server/audio_thread.c)

    The descriptors it polls, gathered into an array that is replaced by a
    larger one when it gets full, and how long it sleeps. *)
From coqutil Require Import Datatypes.RecordSetters.
From S2P Require Import Prelude Prog Arrays Float32 Types DList Timespec Timers BufferShare Shm AudioFormat Mix AudioArea.
From S2P Require Import FmtConv Ramp Volume Rstream DevStream InputData Iodev IodevOutput IodevOpen IodevStates EmptyIodev IodevLevels.
From S2P Require Import Thread DevIoPlayback DevIoCapture DevIo DevLinks DevStreamKept DevLinksKept DevIoMix AudioThread AudioThreadKept AudioThreadStreams.
Import TriangleBracketNotations.
#[local] Open Scope Z_scope.
#[local] Open Scope prog_scope.

Section Poll.
Context {P : pcm_library} {L : speex_library} {RE : rate_library} {D : dsp_service} {AP : apm_service}.
Context {hw : Type} {W : surroundings} {TP : thread_pipes}.
#[local] Abbreviation thread := (thread hw).
#[local] Abbreviation audio_thread := (audio_thread (hw := hw)).

(** ** What there is to poll *)

Definition descriptor (e : pollfd) : Z * Z := (pfd_fd e, pfd_events e).
Definition descriptors (s : audio_thread) : list (Z * Z) := descriptor <$> take (Z.to_nat (au_num_pollfds s)) (au_pollfds s).

Definition callback_fds (l : dlist iodev_callback_list) : list (Z * Z) :=
  omap (fun e => if cb_enabled e.2 then Some (cb_fd e.2, cb_events e.2) else None) l.

Definition stream_fd (t : thread) (r : Z) : list (Z * Z) :=
  match streams t !! r with
  | Some x => let fd := dev_stream_poll_stream_fd x in if fd <? 0 then [] else [(fd, POLLIN)]
  | None => []
  end.

Definition dev_fds (t : thread) (k : Z) : list (Z * Z) :=
  match th_devs t !! k with Some d => concat ((fun e => stream_fd t (at_stream e.2)) <$> io_streams d) | None => [] end.

Definition side_fds (t : thread) (i : side) : list (Z * Z) := concat ((fun e => dev_fds t (od_dev e.2)) <$> opens i t).

(** The enabled callbacks', the playback and the capture streams' descriptors. *)
Definition wanted (s : audio_thread) : list (Z * Z) :=
  callback_fds (au_callbacks s) ++ side_fds (au_thread s) Playback ++ side_fds (au_thread s) Capture.

(** The open devices and their streams are there. *)
Definition pollable (t : thread) : Prop :=
  forall i q a, (q, a) ∈ opens i t -> exists d, th_devs t !! od_dev a = Some d /\
    forall p e, (p, e) ∈ io_streams d -> is_Some (streams t !! at_stream e).

Definition is_pollable (t : thread) : bool :=
  forallb (fun e => match th_devs t !! od_dev e.2 with
                    | Some d => forallb (fun a => bool_decide (is_Some (streams t !! at_stream a.2))) (io_streams d)
                    | None => false
                    end) (th_odevs t ++ th_idevs t).

Lemma is_pollable_ok t : is_pollable t = true -> pollable t.
Proof.
  intros Hp i q a Ha. apply (proj1 (forallb_forall _ _)) with (x := (q, a)) in Hp; [|].
  2:{ apply list_elem_of_In, elem_of_app. destruct i; [by left|by right]. }
  simpl in Hp. destruct (th_devs t !! od_dev a) as [d|]; [|done]. exists d. split; [done|]. intros p e He.
  apply (proj1 (forallb_forall _ _)) with (x := (p, e)) in Hp; [by apply bool_decide_eq_true in Hp|by apply list_elem_of_In].
Qed.

(** ** Gathering

    While the descriptors [w] are gathered after the first one, [d0], into an
    array of [size]; [go] is false when a larger one has been made.  [K] says
    what has become of the callbacks. *)
Definition gathering (t : thread) (size : Z) (d0 : Z * Z) (K : bool -> dlist iodev_callback_list -> Prop)
    (w : list (Z * Z)) (go : bool) (s : audio_thread) : Prop :=
  au_thread s = t /\ K go (au_callbacks s) /\ descriptor <$> au_pollfds s !! 0%nat = Some d0 /\
  if go then Z.of_nat (length (au_pollfds s)) = size /\ au_num_pollfds s = 1 + Z.of_nat (length w) /\
             au_num_pollfds s < size /\ descriptors s = d0 :: w
  else Z.of_nat (length (au_pollfds s)) = 2 * size /\ size <= 1 + Z.of_nat (length w).

Lemma gathering_more t size d0 K w w' s : gathering t size d0 K w false s -> gathering t size d0 K (w ++ w') false s.
Proof. intros (H1 & H2 & H3 & H4 & H5). unfold gathering. rewrite length_app. repeat split; [done..|lia]. Qed.

Lemma realloc_longer (l : list pollfd) : realloc_pollfds l (Z.of_nat (length l) * 2) = l ++ replicate (length l) fresh_pollfd.
Proof.
  unfold realloc_pollfds. rewrite (take_ge l) by lia. f_equal. f_equal. lia.
Qed.

Lemma add_pollfd_spec t size d0 (K : bool -> dlist iodev_callback_list -> Prop) w fd events s :
  2 * size < 2 ^ 64 -> (forall c, K true c -> K false c) -> gathering t size d0 K w true s ->
  runs (add_pollfd fd events) s (fun place s' =>
    gathering t size d0 K (w ++ [(fd, events)]) (bool_decide (is_Some place)) s' /\
    forall i, place = Some i -> i = S (length w)).
Proof.
  intros Hsize HK (Ht & Hc & H0 & Hlen & Hnum & Hlt & Hd). unfold add_pollfd. prog_step.
  set (i := Z.to_nat (au_num_pollfds (id s))). assert (Hi : i = S (length w)) by (unfold i, id; lia).
  destruct (lookup_lt_is_Some_2 (au_pollfds s) i) as [e He]; [lia|].
  eapply runs_there; [exact He|].
  set (x := Pollfd fd events (pfd_revents e)). set (l := <[i := x]> (au_pollfds (id s))).
  assert (Hl : length l = length (au_pollfds s)) by apply length_insert.
  assert (Hl0 : descriptor <$> l !! 0%nat = Some d0) by (unfold l; rewrite list_lookup_insert_ne by lia; exact H0).
  cbv zeta. rewrite u64_small by (unfold id; lia). rewrite Hl. unfold id in *.
  destruct (au_num_pollfds s + 1 >=? Z.of_nat (length (au_pollfds s))) eqn:Hfull.
  - unfold set_audio. repeat prog_step. split; [|done]. simpl. rewrite u64_small by lia.
    assert (Hr : realloc_pollfds l (Z.of_nat (length (au_pollfds s)) * 2) = l ++ replicate (length l) fresh_pollfd)
      by (by rewrite <- Hl, realloc_longer).
    split_and!; [done|by apply HK| | |].
    + cbn [au_pollfds]. unfold constant. rewrite Hr, lookup_app_l by lia. done.
    + cbn [au_pollfds]. unfold constant. rewrite Hr, length_app, length_replicate. lia.
    + rewrite length_app. simpl. lia.
  - unfold set_audio. repeat prog_step. split; [|intros j [= <-]; done].
    change (bool_decide (is_Some (Some i))) with true. split_and!; [done|done|exact Hl0|change (Z.of_nat (length l) = size); by rewrite Hl|rewrite length_app; simpl; unfold constant; lia|simpl; unfold constant; lia|].
    change (descriptor <$> take (Z.to_nat (au_num_pollfds s + 1)) l = d0 :: w ++ [(fd, events)]). replace (Z.to_nat (au_num_pollfds s + 1)) with (S i) by lia.
    rewrite (take_S_r l i x) by (apply list_lookup_insert_eq; lia). rewrite fmap_app. unfold l.
    rewrite take_insert_ge by lia. unfold descriptors in Hd. fold i in Hd. by rewrite Hd.
Qed.

(** ** Reading the thread's state *)

Lemma runs_in_thread {A B} (m : thread_prog (hw := hw) A) (a : A) (f : A -> audio_prog (hw := hw) B) s (Q : B -> audio_thread -> Prop) :
  m (au_thread s) = Some (a, au_thread s) -> runs (f a) s Q -> runs (bind (in_thread m) f) s Q.
Proof. intros Hm Hf. apply runs_bind. unfold runs, in_thread, zoom. rewrite Hm. by destruct s. Qed.

Lemma runs_stream {B} r x (f : cras_rstream -> audio_prog (hw := hw) B) s Q :
  streams (au_thread s) !! r = Some x -> runs (f x) s Q -> runs (bind (in_thread (the_stream r)) f) s Q.
Proof.
  intros Hx. apply runs_in_thread. unfold the_stream, bind, gets, here, id. unfold streams in Hx. by rewrite Hx.
Qed.

Lemma runs_iodev {B} k d (f : cras_iodev hw -> audio_prog (hw := hw) B) s Q :
  th_devs (au_thread s) !! k = Some d -> runs (f d) s Q -> runs (bind (in_thread (the_iodev k)) f) s Q.
Proof. intros Hd. apply runs_in_thread. unfold the_iodev, bind, gets, here, id. by rewrite Hd. Qed.

Lemma runs_open_devs {B} i (f : dlist open_dev -> audio_prog (hw := hw) B) s Q :
  runs (f (opens i (au_thread s))) s Q -> runs (bind (in_thread (open_devs i)) f) s Q.
Proof. apply runs_in_thread. by destruct i. Qed.

(** ** The passes *)
Section Passes.
Context (t : thread) (size : Z) (d0 : Z * Z) (Hsize : 2 * size < 2 ^ 64).
Context (K : bool -> dlist iodev_callback_list -> Prop) (HK : forall c, K true c -> K false c).

Lemma gather_fold {A} (f : A -> bool -> audio_prog (hw := hw) bool) (fds : A -> list (Z * Z)) (l : list A) w go s :
  (forall x w go s, x ∈ l -> gathering t size d0 K w go s -> runs (f x go) s (gathering t size d0 K (w ++ fds x))) ->
  gathering t size d0 K w go s -> runs (fold_prog f l go) s (gathering t size d0 K (w ++ concat (fds <$> l))).
Proof.
  revert w go s. induction l as [|x l IH]; intros w go s Hf Hg; simpl.
  { apply runs_ret. by rewrite app_nil_r. }
  eapply runs_step; [apply Hf; [by left|exact Hg]|]. intros go' s' Hg'. rewrite (app_assoc w). apply IH; [|exact Hg'].
  intros y w' go2 s2 Hy. apply Hf. by right.
Qed.

Lemma poll_stream_spec r w go s :
  is_Some (streams t !! r) -> gathering t size d0 K w go s ->
  runs (poll_stream r go) s (gathering t size d0 K (w ++ stream_fd t r)).
Proof using Hsize HK.
  intros [x Hx] Hg. unfold poll_stream. destruct go; simpl; [|prog_step; by apply gathering_more].
  assert (Ht : au_thread s = t) by apply Hg. rewrite <- Ht in Hx. eapply runs_stream; [exact Hx|].
  rewrite Ht in Hx. unfold stream_fd. rewrite Hx. cbv zeta. destruct (_ <? 0); [prog_step; by rewrite app_nil_r|].
  eapply runs_step; [by apply add_pollfd_spec|]. intros place s' [H' _]. by prog_step.
Qed.

Lemma poll_dev_spec k d w go s :
  th_devs t !! k = Some d -> (forall p e, (p, e) ∈ io_streams d -> is_Some (streams t !! at_stream e)) ->
  gathering t size d0 K w go s -> runs (poll_dev k go) s (gathering t size d0 K (w ++ dev_fds t k)).
Proof using Hsize HK.
  intros Hd Hs Hg. unfold poll_dev. destruct go; simpl; [|prog_step; by apply gathering_more].
  assert (Ht : au_thread s = t) by apply Hg. eapply runs_iodev; [by rewrite Ht|]. unfold dev_fds. rewrite Hd.
  apply (gather_fold (fun e => poll_stream (at_stream e.2)) (fun e => stream_fd t (at_stream e.2))); [|exact Hg].
  intros [p e] w' go s' He Hg'. apply poll_stream_spec; [by eapply Hs|done].
Qed.

Lemma poll_devs_spec i w go s :
  pollable t -> gathering t size d0 K w go s -> runs (poll_devs i go) s (gathering t size d0 K (w ++ side_fds t i)).
Proof using Hsize HK.
  intros Hp Hg. unfold poll_devs. assert (Ht : au_thread s = t) by apply Hg. apply runs_open_devs. rewrite Ht.
  apply (gather_fold (fun e => poll_dev (od_dev e.2)) (fun e => dev_fds t (od_dev e.2))); [|exact Hg].
  intros [q a] w' go' s' Ha Hg'. destruct (Hp i q a Ha) as (d & Hd & Hs). by eapply poll_dev_spec.
Qed.

End Passes.

(** ** Callbacks

    The places that the enabled callbacks get, from [n] on. *)
Fixpoint place (n : nat) (l : dlist iodev_callback_list) : dlist iodev_callback_list :=
  match l with
  | [] => []
  | (p, c) :: l =>
      if cb_enabled c then (p, c <| cb_pollfd := Some n |>) :: place (S n) l
      else (p, c <| cb_pollfd := None |>) :: place n l
  end.

(** The callbacks but for their places. *)
Definition bare (l : dlist iodev_callback_list) : dlist iodev_callback_list :=
  (fun e => (e.1, e.2 <| cb_pollfd := None |>)) <$> l.

Lemma addrs_place n l : addrs (place n l) = addrs l.
Proof. unfold addrs. revert n. induction l as [|[p c] l IH]; intros n; simpl; [done|]. destruct (cb_enabled c); csimpl; by rewrite IH. Qed.

Lemma bare_place n l : bare (place n l) = bare l.
Proof.
  unfold bare. revert n. induction l as [|[p c] l IH]; intros n; simpl; [done|]. destruct (cb_enabled c); csimpl; rewrite IH; by destruct c.
Qed.

Lemma place_app n l1 l2 : place n (l1 ++ l2) = place n l1 ++ place (n + length (callback_fds l1)) l2.
Proof.
  revert n. induction l1 as [|[p c] l1 IH]; intros n; simpl; [by rewrite Nat.add_0_r|].
  unfold callback_fds in *. simpl. destruct (cb_enabled c); simpl; rewrite IH; [|done]. by rewrite Nat.add_succ_r.
Qed.

Lemma bare_same n l l' : bare l = bare l' -> place n l = place n l' /\ callback_fds l = callback_fds l'.
Proof.
  unfold callback_fds. revert n l'. induction l as [|[p c] l IH]; intros n [|[p' c'] l'] Hb; try done.
  unfold bare in Hb. csimpl in Hb. injection Hb as -> H1 H2 H3 H4 H5 Hl.
  destruct c as [f1 v1 b1 g1 u1 o1], c' as [f2 v2 b2 g2 u2 o2]. simpl in *. subst. destruct b2.
  - destruct (IH (S n) l' Hl) as [-> E]. split; [done|]. exact (f_equal (cons (f2, v2)) E).
  - exact (conj (f_equal (cons (p', IodevCallback f2 v2 false g2 u2 None)) (proj1 (IH n l' Hl))) (proj2 (IH n l' Hl))).
Qed.

Lemma bare_app l1 l2 : bare (l1 ++ l2) = bare l1 ++ bare l2.
Proof. apply fmap_app. Qed.

Lemma callback_fds_app l1 l2 : callback_fds (l1 ++ l2) = callback_fds l1 ++ callback_fds l2.
Proof. apply omap_app. Qed.

Section Places.
Context (t : thread) (size : Z) (d0 : Z * Z) (Hsize : 2 * size < 2 ^ 64).

(** The callbacks are [c]. *)
Definition being (c : dlist iodev_callback_list) : bool -> dlist iodev_callback_list -> Prop := fun _ l => l = c.

Lemma being_more c l : being c true l -> being c false l.
Proof. done. Qed.

(** Once they have been gone through they have their places, if it goes on. *)
Definition placed (l : dlist iodev_callback_list) : bool -> dlist iodev_callback_list -> Prop :=
  fun go c => bare c = bare l /\ (go = true -> c = place 1 l).

Lemma placed_more l c : placed l true c -> placed l false c.
Proof. by intros [? _]. Qed.

Lemma update_callback_spec c1 p x c2 f w go s :
  p ∉ addrs c1 -> gathering t size d0 (being (c1 ++ (p, x) :: c2)) w go s ->
  runs (update_callback p f) s (fun _ s' => gathering t size d0 (being (c1 ++ (p, f x) :: c2)) w go s').
Proof.
  intros Hp (Ht & Hc & Hg). unfold update_callback. prog_step. unfold id, being in *. rewrite Hc.
  eapply runs_there; [exact (dl_update_app c1 p x c2 f Hp)|]. unfold set_audio. prog_step. exact (conj Ht (conj eq_refl Hg)).
Qed.

Lemma passed_over l s : runs (fold_prog (poll_callback (hw := hw)) l false) s (fun go s' => go = false /\ s' = s).
Proof. induction l as [|p l IH]; simpl; [by prog_step|]. unfold poll_callback at 1. simpl. by prog_step. Qed.

Lemma gathering_as (K K' : bool -> dlist iodev_callback_list -> Prop) w go s :
  K' go (au_callbacks s) -> gathering t size d0 K w go s -> gathering t size d0 K' w go s.
Proof. intros HK (Ht & _ & Hg). exact (conj Ht (conj HK Hg)). Qed.

(** All the callbacks get their places, or the array has been replaced. *)
Lemma poll_callbacks_from l1 l2 s :
  NoDup (addrs (l1 ++ l2)) -> gathering t size d0 (being (place 1 l1 ++ l2)) (callback_fds l1) true s ->
  runs (fold_prog poll_callback (addrs l2) true) s (gathering t size d0 (placed (l1 ++ l2)) (callback_fds (l1 ++ l2))).
Proof using Hsize.
  revert l1 s. induction l2 as [|[p x] l2 IH]; intros l1 s Hnd Hg; simpl.
  { prog_step. rewrite !app_nil_r in *. assert (Hc : au_callbacks s = place 1 l1) by apply Hg.
    eapply gathering_as; [|exact Hg]. unfold placed. rewrite Hc. by rewrite bare_place. }
  assert (Hp : p ∉ addrs (place 1 l1)) by (rewrite addrs_place; by apply NoDup_middle in Hnd as (? & _)).
  rewrite cons_middle, app_assoc in Hnd |- *. apply runs_bind. unfold poll_callback at 1. simpl.
  apply runs_gets. unfold id.
  assert (Hc : au_callbacks s = place 1 l1 ++ (p, x) :: l2) by apply Hg. rewrite Hc.
  eapply runs_there; [by apply dl_find_app|].
  assert (Hpl : place 1 (l1 ++ [(p, x)]) = place 1 l1 ++ place (S (length (callback_fds l1))) [(p, x)]) by apply place_app.
  destruct (cb_enabled x) eqn:Hen; simpl.
  - eapply runs_step; [exact (add_pollfd_spec _ _ _ _ _ _ _ _ Hsize (being_more _) Hg)|]. intros o s1 [H1 Ho].
    assert (Hw : callback_fds (l1 ++ [(p, x)]) = callback_fds l1 ++ [(cb_fd x, cb_events x)])
      by (rewrite callback_fds_app; unfold callback_fds at 2; simpl; by rewrite Hen).
    eapply runs_step; [by eapply update_callback_spec|]. intros u s2 H2. cbv beta in H2. prog_step.
    destruct o as [i|]; simpl in *.
    + rewrite <- Hw in H2. apply IH; [done|]. rewrite Hpl. simpl. rewrite Hen, <- app_assoc. by rewrite <- (Ho i eq_refl).
    + eapply runs_mono; [apply passed_over|]. intros go s3 [-> ->]. rewrite callback_fds_app, Hw. apply gathering_more.
      assert (Hc2 : au_callbacks s2 = place 1 l1 ++ (p, x <| cb_pollfd := None |>) :: l2) by apply H2.
      eapply gathering_as; [|exact H2]. split; [|done].
      rewrite Hc2, <- app_assoc, !bare_app, bare_place. f_equal.
  - eapply runs_step; [by eapply update_callback_spec|]. intros u s2 H2. cbv beta in H2. prog_step. apply IH; [done|].
    rewrite Hpl. simpl. rewrite Hen, <- app_assoc, callback_fds_app. unfold callback_fds at 2. simpl. rewrite Hen, app_nil_r. exact H2.
Qed.

(** One pass over everything there is to poll. *)
Lemma gather_pass s :
  pollable (au_thread s) -> NoDup (addrs (au_callbacks s)) ->
  gathering t size d0 (being (au_callbacks s)) [] true (s <| au_num_pollfds := 1 |>) ->
  runs poll_pass (s <| au_num_pollfds := 1 |>)
    (gathering t size d0 (placed (au_callbacks s)) (wanted s)).
Proof using Hsize.
  intros Hp Hnd Hg. assert (Ht : au_thread s = t) by apply Hg. unfold poll_pass, poll_callbacks, wanted. rewrite Ht in *.
  eapply runs_step; [prog_step; apply (poll_callbacks_from [] (au_callbacks s)); [done|exact Hg]|]. simpl.
  intros go s1 H1. rewrite app_assoc.
  pose proof (placed_more (au_callbacks s)).
  eapply runs_step; [by apply poll_devs_spec|]. intros go2 s2 H2. by apply poll_devs_spec.
Qed.
End Places.

(** ** All of it *)

Definition pollfds_size (s : audio_thread) : Z := Z.of_nat (length (au_pollfds s)).
Definition num_wanted (s : audio_thread) : Z := Z.of_nat (length (wanted s)).

Lemma gathering_start d0 s :
  descriptor <$> au_pollfds s !! 0%nat = Some d0 -> 2 <= pollfds_size s ->
  gathering (au_thread s) (pollfds_size s) d0 (being (au_callbacks s)) [] true (s <| au_num_pollfds := 1 |>).
Proof.
  intros Hd Hsize. split; [done|]. split; [done|]. split; [exact Hd|]. split; [done|]. split; [done|].
  split; [simpl; unfold constant; lia|]. unfold pollfds_size in Hsize.
  change (descriptor <$> take 1 (au_pollfds s) = [d0]). destruct (au_pollfds s) as [|e l]; [done|].
  simpl in Hd. by injection Hd as <-.
Qed.

Lemma addrs_bare l : addrs (bare l) = addrs l.
Proof. unfold addrs, bare. by rewrite <- list_fmap_compose. Qed.

Definition gathered (d0 : Z * Z) (s s' : audio_thread) : Prop :=
  exists size, gathering (au_thread s) size d0 (placed (au_callbacks s)) (wanted s) true s'.

Lemma gather_runs n d0 s :
  pollable (au_thread s) -> NoDup (addrs (au_callbacks s)) -> descriptor <$> au_pollfds s !! 0%nat = Some d0 ->
  2 <= pollfds_size s < 2 ^ 62 -> num_wanted s < 2 ^ 60 -> 1 + num_wanted s < pollfds_size s * 2 ^ Z.of_nat n ->
  runs (gather_pollfds (S n)) s (fun _ => gathered d0 s).
Proof.
  revert s. induction n as [|n IH]; intros s Hp Hnd Hd Hs Hw Hf; pose proof (gathering_start d0 s Hd ltac:(lia)) as Hg.
  all: cbn [gather_pollfds]; unfold set_audio; prog_step.
  all: eapply runs_step; [exact (gather_pass (au_thread s) (pollfds_size s) d0 ltac:(lia) s Hp Hnd Hg)|]; intros [|] s' H'; [prog_step; by exists (pollfds_size s)|].
  all: destruct H' as (Ht & (Hb & _) & Hd' & Hlen & Hsize); fold (num_wanted s) in Hsize.
  { change (2 ^ Z.of_nat 0) with 1 in Hf. lia. }
  assert (Hw' : wanted s' = wanted s) by (unfold wanted; rewrite Ht; by rewrite (proj2 (bare_same 1 _ _ Hb))).
  eapply runs_mono.
  - apply IH; unfold num_wanted, pollfds_size in *; rewrite ?Hw', ?Ht, ?Hlen; [done| |done|lia|lia|].
    + by rewrite <- addrs_bare, Hb, addrs_bare.
    + rewrite Nat2Z.inj_succ, Z.pow_succ_r in Hf by lia. lia.
  - intros _ s2 (size & Hg2). exists size. rewrite Hw', Ht in Hg2. eapply gathering_as; [|exact Hg2].
    destruct Hg2 as (_ & [Hb2 Hc2] & _). split; [congruence|]. intros _. rewrite (Hc2 eq_refl). by apply bare_same.
Qed.

Lemma place_elem n l p c :
  (p, c) ∈ place n l ->
  match cb_pollfd c with
  | Some i => cb_enabled c = true /\ (n <= i)%nat /\ callback_fds l !! (i - n)%nat = Some (cb_fd c, cb_events c)
  | None => cb_enabled c = false
  end.
Proof.
  revert n. induction l as [|[q x] l IH]; intros n; simpl; [by intros ?%not_elem_of_nil|].
  unfold callback_fds in *. simpl. destruct (cb_enabled x) eqn:Hen; intros [[= -> ->]|Hin]%elem_of_cons.
  - simpl. split_and!; [done|lia|]. by rewrite Nat.sub_diag.
  - specialize (IH _ Hin). destruct (cb_pollfd c) as [i|]; [|done]. destruct IH as (H1 & H2 & H3).
    split_and!; [done|lia|]. by replace (i - n)%nat with (S (i - S n)) by lia.
  - done.
  - by apply IH.
Qed.

(** Claim C8: gathering what to poll ends, however many descriptors there are
    and however often the array has to be replaced by a larger one: the array
    then has the message pipe, the enabled callbacks' descriptors and those of
    the streams that wait for their client, in this order and within its
    bounds, and every callback points to the entry of its own descriptor, or to
    none when it is disabled. *)
Theorem polled_descriptors (n : nat) (d0 : Z * Z) (s : audio_thread) :
  pollable (au_thread s) -> NoDup (addrs (au_callbacks s)) -> descriptor <$> au_pollfds s !! 0%nat = Some d0 ->
  2 <= pollfds_size s < 2 ^ 62 -> num_wanted s < 2 ^ 60 -> 1 + num_wanted s < pollfds_size s * 2 ^ Z.of_nat n ->
  runs (gather_pollfds (S n)) s (fun _ s' =>
    descriptors s' = d0 :: wanted s /\ au_num_pollfds s' < pollfds_size s' /\
    au_thread s' = au_thread s /\ bare (au_callbacks s') = bare (au_callbacks s) /\
    forall p c, (p, c) ∈ au_callbacks s' ->
      match cb_pollfd c with
      | Some i => cb_enabled c = true /\ descriptors s' !! i = Some (cb_fd c, cb_events c)
      | None => cb_enabled c = false
      end).
Proof.
  intros Hp Hnd Hd Hs Hw Hf. eapply runs_mono; [by apply gather_runs|].
  intros u s' (size & Ht & [Hb Hc] & Hd' & Hlen & Hnum & Hlt & Hds).
  split_and!; [done|unfold pollfds_size; lia|done|done|]. intros p c Hin. rewrite (Hc eq_refl) in Hin.
  apply place_elem in Hin. destruct (cb_pollfd c) as [[|i]|]; [lia| |done]. destruct Hin as (H1 & _ & H3).
  split; [done|]. rewrite Hds. simpl. rewrite Nat.sub_succ, Nat.sub_0_r in H3. unfold wanted.
  apply lookup_app_Some. by left.
Qed.
End Poll.

(** ** An example: two callbacks and a stream, and an array that is too small *)
#[local] Existing Instances alsa_example speex_example expf_example.

Definition small_array (t : thread empty_iodev) : audio_thread (hw := empty_iodev) :=
  (audio_thread_create t) <| au_pollfds := [Pollfd 3 POLLIN 0; Pollfd 9 9 9] |>
    <| au_callbacks := [(500, IodevCallback 20 5 true 1 1 None); (501, IodevCallback 21 1 false 1 2 (Some 7%nat));
                        (502, IodevCallback 22 4 true 2 3 None)] |>.
Definition asking_thread : option (thread empty_iodev) :=
  s ← quiet_thread example_pipes; '(_, s) ← audio_io_turns (V := empty_driver 100) 100 4 s; Some (au_thread s).

Lemma polled_descriptors_witness :
  exists t s', asking_thread = Some t /\ pollable t /\ gather_pollfds 4 (small_array t) = Some (tt, s') /\
    descriptors s' = [(3, 1); (20, 5); (22, 4); (5, 1); (5, 1)] /\ au_num_pollfds s' < pollfds_size s'.
Proof.
  assert (H : (t ← asking_thread; Some (is_pollable t, wanted (small_array t), num_wanted (small_array t)))
    = Some (true, [(20, 5); (22, 4); (5, 1); (5, 1)], 4)) by (vm_compute; reflexivity).
  destruct asking_thread as [t|]; [|discriminate H].
  assert (Hw : wanted (small_array t) = [(20, 5); (22, 4); (5, 1); (5, 1)])
    by exact (f_equal (fun o => match o with Some (_, w, _) => w | None => [] end) H).
  assert (Hm : num_wanted (small_array t) = 4) by exact (f_equal (fun o => match o with Some (_, _, n) => n | None => 0 end) H).
  injection H as Hp _ _. apply is_pollable_ok in Hp.
  pose proof (polled_descriptors 3 (3, 1) (small_array t) Hp ltac:(by apply (bool_decide_unpack _)) eq_refl
    ltac:(change (pollfds_size (small_array t)) with 2; lia) ltac:(rewrite Hm; lia)
    ltac:(change (pollfds_size (small_array t)) with 2; rewrite Hm; reflexivity)) as Hrun.
  apply runs_Some in Hrun as ([] & s' & E & Hd & Hn & _). exists t, s'. rewrite Hw in Hd.
  split; [reflexivity|]. split; [exact Hp|]. split; [exact E|]. split; [exact Hd|exact Hn].
Defined.
