(* ===== verification/AudioThreadSleep.v ===== *)
(** * How long the audio thread sleeps (server/audio_thread.c, server/dev_io.c)

    It wakes for the earliest of the times that streams and devices wait for,
    and after twenty seconds in any case. *)
From coqutil Require Import Datatypes.RecordSetters.
From S2P Require Import Prelude Prog Arrays Float32 Types DList Timespec Timers BufferShare Shm AudioFormat Mix AudioArea.
From S2P Require Import FmtConv Ramp Volume Rstream DevStream InputData Iodev IodevOutput IodevOpen IodevStates EmptyIodev IodevLevels.
From S2P Require Import Thread DevIoPlayback DevIoCapture DevIo DevLinks DevStreamKept DevLinksKept AudioThread AudioThreadKept AudioThreadStreams.
Import TriangleBracketNotations.
#[local] Open Scope Z_scope.
#[local] Open Scope prog_scope.

(** ** The earlier of two times *)

Definition not_after (t u : timespec) : Prop := timespec_after t u = false.

#[export] Instance not_after_preorder : PreOrder not_after.
Proof.
  unfold not_after, timespec_after. split; [intros t|intros t u v]; unwrap; lia.
Qed.

Lemma earlier_both t u : not_after (earlier t u) t /\ not_after (earlier t u) u.
Proof.
  unfold earlier, not_after. destruct (timespec_after t u) eqn:E; revert E; unfold timespec_after; split; revert E; unwrap; lia.
Qed.

Section Sleep.
Context {P : pcm_library} {L : speex_library} {RE : rate_library} {D : dsp_service} {AP : apm_service}.
Context {hw : Type} {H : iodev_hw (hw := hw)} {X : iodev_xrun (hw := hw)} {V : iodev_driver (hw := hw)} {W : surroundings}.
#[local] Abbreviation thread := (thread hw).

(** A count and a time that have moved on. *)
Definition sooner (c c' : Z * timespec) : Prop := c.1 <= c'.1 /\ not_after c'.2 c.2.
#[export] Instance sooner_preorder : PreOrder sooner.
Proof.
  split; [intros c; split; [done|reflexivity]|]. intros c1 c2 c3 [H1 H2] [H3 H4]. split; [lia|]. by transitivity c2.2.
Qed.

(** The time has been counted. *)
Definition counted (t : timespec) (c : Z * timespec) : Prop := 0 < c.1 /\ not_after c.2 t.

Lemma counted_sooner t c c' : counted t c -> sooner c c' -> counted t c'.
Proof. intros [H1 H2] [H3 H4]. split; [lia|]. by transitivity c.2. Qed.

Lemma count_one (c : Z * timespec) t : 0 <= c.1 -> sooner c (c.1 + 1, earlier c.2 t) /\ counted t (c.1 + 1, earlier c.2 t).
Proof. intros Hc. destruct (earlier_both c.2 t). split; split; simpl; [lia|done|lia|done]. Qed.

(** A loop over a list that only reads the state: what every element counts is
    counted in the end. *)
Lemma counting_loop {A} (body : A -> Z * timespec -> thread_prog (hw := hw) (Z * timespec)) (due : A -> timespec -> Prop) (l : list A) c s :
  0 <= c.1 ->
  (forall x c, x ∈ l -> 0 <= c.1 -> yields (body x c) s (fun c' s' => s' = s /\ sooner c c' /\ forall t, due x t -> counted t c')) ->
  yields (fold_prog body l c) s (fun c' s' => s' = s /\ sooner c c' /\ forall x t, x ∈ l -> due x t -> counted t c').
Proof.
  revert c. induction l as [|x l IH]; intros c Hc Hb; simpl.
  { prog_step. split; [done|]. split; [reflexivity|]. intros x t Hx. by apply not_elem_of_nil in Hx. }
  eapply yields_step; [apply Hb; [by left|done]|]. intros c1 s1 (-> & H1 & Hd1). cbv beta.
  eapply yields_mono; [apply IH; [destruct H1; lia|]|].
  { intros y c2 Hy. apply Hb. by right. }
  intros c2 s2 (-> & H2 & Hd2). split; [done|]. split; [by transitivity c1|].
  intros y t [->|Hy]%elem_of_cons Hdue; [|by eapply Hd2]. eapply counted_sooner; [by apply Hd1|done].
Qed.

(** ** Streams *)

(** The time that a playing stream waits for. *)
Definition stream_waits (x : cras_rstream) (t : timespec) : Prop :=
  cras_rstream_get_is_draining x = 0 /\ cras_rstream_is_pending_reply x = 0 /\ dev_stream_next_cb_ts x = Some t.

Definition stream_due (s : thread) (k p : Z) (t : timespec) : Prop :=
  exists d e x, th_devs s !! k = Some d /\ dl_find (io_streams d) p = Some e /\ streams s !! at_stream e = Some x /\ stream_waits x t.

Lemma stream_wake_pass_spec k p c s :
  0 <= c.1 -> yields (stream_wake_pass k p c) s (fun c' s' => s' = s /\ sooner c c' /\ forall t, stream_due s k p t -> counted t c').
Proof.
  intros Hc. unfold stream_wake_pass. apply yields_the_attached. intros e (d & Hd & He). apply yields_the_stream. intros x Hx. prog_step.
  assert (Hdue : forall t, stream_due s k p t -> stream_waits x t).
  { intros t (d' & e' & x' & Hd' & He' & Hx' & Hw). congruence. }
  split; [done|]. destruct (Z.eqb_spec (cras_rstream_get_is_draining x) 0) as [H1|H1]; simpl.
  2:{ split; [reflexivity|]. intros t (? & ? & ?)%Hdue. congruence. }
  destruct (Z.eqb_spec (cras_rstream_is_pending_reply x) 0) as [H2|H2]; simpl.
  2:{ split; [reflexivity|]. intros t (? & ? & ?)%Hdue. congruence. }
  destruct (dev_stream_next_cb_ts x) as [u|] eqn:Hu.
  - destruct (count_one c u Hc) as [H3 H4]. split; [done|]. intros t (_ & _ & Ht)%Hdue. rewrite Hu in Ht. by injection Ht as ->.
  - split; [reflexivity|]. intros t (_ & _ & Ht)%Hdue. congruence.
Qed.

Lemma next_stream_wake_spec k t0 s :
  yields (get_next_stream_wake_from_list k t0) s (fun c' s' =>
    s' = s /\ sooner (0, t0) c' /\ forall p t, stream_due s k p t -> counted t c').
Proof.
  unfold get_next_stream_wake_from_list, for_each_stream. apply yields_the_iodev. intros d Hd.
  eapply yields_mono; [apply (counting_loop (stream_wake_pass k) (stream_due s k)); [done|]|].
  { intros p c _ Hc. by apply stream_wake_pass_spec. }
  intros c s' (-> & H1 & H2). split; [done|]. split; [done|]. intros p t Hdue. apply (H2 p t); [|done].
  destruct Hdue as (d' & e & x & Hd' & He & _). rewrite Hd in Hd'. injection Hd' as <-. by eapply dl_find_address.
Qed.

(** What the playback stream at an address of an open device waits for. *)
Definition playback_due (s : thread) (q : Z) (t : timespec) : Prop :=
  exists a p, dl_find (th_odevs s) q = Some a /\ stream_due s (od_dev a) p t.

Lemma streams_wake_pass_spec q c s :
  0 <= c.1 -> yields (streams_wake_pass q c) s (fun c' s' => s' = s /\ sooner c c' /\ forall t, playback_due s q t -> counted t c').
Proof.
  intros Hc. unfold streams_wake_pass. apply the_open_dev_spec. intros a Ha.
  eapply yields_step; [apply next_stream_wake_spec|]. intros [n t1] s' (-> & [H1 H2] & H3). simpl in *. prog_step.
  split; [done|]. split; [split; simpl; [lia|done]|]. intros t (a' & p & Ha' & Hdue). rewrite Ha in Ha'. injection Ha' as <-.
  destruct (H3 p t Hdue) as [H4 H5]. split; simpl in *; [lia|done].
Qed.

Lemma output_wake_pass_spec q c s :
  0 <= c.1 -> yields (output_wake_pass q c) s (fun c' s' => sooner c c' /\ opens Capture s' = opens Capture s).
Proof.
  intros Hc. unfold output_wake_pass. apply the_open_dev_spec. intros a Ha.
  eapply yields_step; [apply (opens_on_dev (od_dev a) cras_iodev_odev_should_wake s)|]. intros w s1 Hs1. cbv beta in Hs1.
  prog_step. split; [|exact (Hs1 Capture)]. destruct w; [by apply count_one|reflexivity].
Qed.

Lemma next_output_wake_spec t0 s :
  yields (dev_io_next_output_wake t0) s (fun c' s' =>
    sooner (0, t0) c' /\ forall q t, playback_due s q t -> counted t c').
Proof.
  unfold dev_io_next_output_wake, open_devs. prog_step.
  eapply yields_step.
  { apply (counting_loop streams_wake_pass (playback_due s)); [done|]. intros q c _ Hc. by apply streams_wake_pass_spec. }
  intros c s1 (-> & H1 & H2). cbv beta.
  eapply yields_mono; [apply (yields_fold (fun c' _ => sooner c c')); [reflexivity|]|].
  { intros q c1 s1 _ Hc1. eapply yields_mono; [apply output_wake_pass_spec; destruct H1, Hc1; simpl in *; lia|].
    intros c2 s2 [Hc2 _]. by transitivity c1. }
  intros c1 s1 H3. split; [by transitivity c|]. intros q t Hdue. apply (counted_sooner t c); [|exact H3]. apply (H2 q t); [|done].
  destruct Hdue as (a & p & Ha & _). by eapply dl_find_address.
Qed.

(** ** Capturing devices *)

(** The time that an input device's streams wait for, unless it is ignored. *)
Definition capture_due (s : thread) (q : Z) (t : timespec) : Prop :=
  exists a d, dl_find (th_idevs s) q = Some a /\ th_devs s !! od_dev a = Some d /\
    input_adev_ignore_wake d = Some false /\ od_wake_ts a = t.

Lemma next_input_wake_spec t0 s :
  yields (dev_io_next_input_wake t0) s (fun c' s' =>
    s' = s /\ sooner (0, t0) c' /\ forall q t, capture_due s q t -> counted t c').
Proof.
  unfold dev_io_next_input_wake, open_devs. prog_step.
  eapply yields_mono; [apply (counting_loop input_wake_pass (capture_due s)); [done|]|].
  - intros q c _ Hc. unfold input_wake_pass. apply the_open_dev_spec. intros a Ha. apply yields_the_iodev. intros d Hd.
    apply yields_there. intros b Hb. prog_step. split; [done|]. destruct b.
    + split; [reflexivity|]. intros t (a' & d' & Ha' & Hd' & Hi & _). simpl in Ha. congruence.
    + destruct (count_one c (od_wake_ts a) Hc) as [H1 H2]. split; [done|].
      intros t (a' & d' & Ha' & Hd' & _ & <-). simpl in Ha. rewrite Ha in Ha'. by injection Ha' as <-.
  - intros c s' (-> & H1 & H2). split_and!; [done|done|]. intros q t Hdue. apply (H2 q t); [|done].
    destruct Hdue as (a & d & Ha & _). by eapply dl_find_address.
Qed.

(** ** The thread *)

Definition sleeps (s : thread) (r : Z * timespec) (s' : thread) : Prop :=
  exists now limit wake, now = clock (th_looks s) /\ add_timespecs (Timespec 20 0) now = Some limit /\
    r.2 = (if timespec_after wake now then subtract_timespecs wake now else Timespec 0 0) /\
    not_after wake limit /\
    (forall q t, playback_due s q t -> counted t (r.1, wake)) /\
    (forall q t, capture_due s' q t -> counted t (r.1, wake)).

Lemma fill_next_spec (s : thread) : yields fill_next_sleep_interval s (sleeps s).
Proof.
  unfold fill_next_sleep_interval, clock_gettime, look, set_thread. repeat prog_step.
  set (s1 := s <| th_looks ::= S |>). apply yields_there. intros limit Hlimit.
  eapply yields_step; [apply next_output_wake_spec|]. intros [n t1] s2 [[H1 H2] H3].
  eapply yields_step; [apply next_input_wake_spec|]. intros [m t2] s3 (-> & [H4 H5] & H6). prog_step. simpl in *.
  exists (clock (th_looks s)), limit, t2. split_and!; [done|done|done|by transitivity t1| |].
  - intros q t Hq. destruct (H3 q t Hq) as [H7 H8]. split; simpl in *; [lia|by transitivity t1].
  - intros q t Hq. destruct (H6 q t Hq) as [H7 H8]. split; simpl in *; [lia|done].
Qed.

(** ** The thread *)

(** Claim C9: the audio thread never sleeps past a time that a stream or a
    device waits for: it sleeps until a time that is neither after any of them
    nor more than twenty seconds away, and not at all when that has passed;
    and when something waits, it does not sleep without a timeout. *)
Theorem never_oversleeps (n : Z) (ts : timespec) (s s' : thread) :
  fill_next_sleep_interval s = Some (n, ts, s') ->
  exists now limit wake, now = clock (th_looks s) /\ add_timespecs (Timespec 20 0) now = Some limit /\
    ts = (if timespec_after wake now then subtract_timespecs wake now else Timespec 0 0) /\
    not_after wake limit /\
    (forall q t, playback_due s q t -> 0 < n /\ not_after wake t) /\
    (forall q t, capture_due s' q t -> 0 < n /\ not_after wake t).
Proof. exact (yields_Some _ _ _ (n, ts) s' (fill_next_spec s)). Qed.
End Sleep.

(** ** An example: the stream of two silent devices *)
#[local] Existing Instances alsa_example speex_example expf_example.

(** The stream asks again at 5.05 s and the devices wake at 6 s. *)
Definition sleepy_thread : option (thread empty_iodev) :=
  s ← playing_thread;
  Some (s <| th_odevs ::= fmap (fun e => (e.1, e.2 <| od_wake_ts := Timespec 6 0 |>)) |>
          <| th_srv ::= fun v => v <| sv_rstreams ::= fmap (set_rs_next_cb_ts (Timespec 5 50000000)) |> |>).

Lemma never_oversleeps_witness :
  exists s s' wake, sleepy_thread = Some s /\ playback_due s 1007 (Timespec 5 50000000) /\
    fill_next_sleep_interval s = Some (4, Timespec 0 8000000, s') /\
    not_after wake (Timespec 5 50000000) /\ Timespec 0 8000000 = subtract_timespecs wake (Timespec 5 42000000).
Proof.
  assert (H : (s ← sleepy_thread; a ← dl_find (th_odevs s) 1007; d ← th_devs s !! od_dev a; e ← dl_find (io_streams d) 1036;
      x ← streams s !! at_stream e;
      Some (cras_rstream_get_is_draining x, cras_rstream_is_pending_reply x, dev_stream_next_cb_ts x, clock (th_looks s),
        fst <$> fill_next_sleep_interval s))
    = Some (0, 0, Some (Timespec 5 50000000), Timespec 5 42000000, Some (4, Timespec 0 8000000)))
    by (vm_compute; reflexivity).
  destruct sleepy_thread as [s|]; [|discriminate H]. cbn [mbind option_bind] in H.
  destruct (dl_find (th_odevs s) 1007) as [a|] eqn:Ha; [|discriminate H]. cbn [mbind option_bind] in H.
  destruct (th_devs s !! od_dev a) as [d|] eqn:Hd; [|discriminate H]. cbn [mbind option_bind] in H.
  destruct (dl_find (io_streams d) 1036) as [e|] eqn:He; [|discriminate H]. cbn [mbind option_bind] in H.
  destruct (streams s !! at_stream e) as [x|] eqn:Hx; [|discriminate H]. cbn [mbind option_bind] in H.
  destruct (fill_next_sleep_interval s) as [[r s']|] eqn:E; [|discriminate H].
  assert (Hclk : clock (th_looks s) = Timespec 5 42000000)
    by exact (f_equal (fun o => match o with Some (_, _, _, c, _) => c | None => Timespec 0 0 end) H).
  injection H as Hdr Hpe Hcb _ ->.
  assert (Hdue : playback_due s 1007 (Timespec 5 50000000)) by (exists a, 1036; split; [exact Ha|]; by exists d, e, x).
  destruct (never_oversleeps 4 (Timespec 0 8000000) s s' E) as (now & lim & wake & Hnow & _ & Hts & _ & Hp & _).
  rewrite Hclk in Hnow. rewrite Hnow in Hts. exists s, s', wake. split; [reflexivity|]. split; [exact Hdue|]. split; [exact E|].
  split; [exact (proj2 (Hp _ _ Hdue))|]. destruct (timespec_after wake _); [exact Hts|discriminate Hts].
Defined.
