(* ===== verification/AudioThreadRemix.v ===== *)
(** * Remixing all output (server/audio_thread.c)

    The main thread hands the audio thread a converter for the channels of all
    output, or none when the coefficients leave the samples as they are. *)
From S2P Require Import Prelude Prog Arrays Float32 AudioFormat FmtConvOps FmtConv InputData Iodev Thread AudioThread.
#[local] Open Scope Z_scope.

Section Remix.
Context {L : speex_library}.
Context (n : Z) (coefficient : list spec_float).
Context (Hn : 0 <= n) (Hsmall : n * n < 2 ^ 32) (Hlen : Z.of_nat (length coefficient) = n * n).

Definition entry (i j : Z) : option spec_float := coefficient !! Z.to_nat (i * n + j).
Definition is_entry (i j : Z) (v : spec_float) : Prop := exists c, entry i j = Some c /\ SFeqb c v = true.

Lemma ld_entry i j : 0 <= i < n -> 0 <= j < n -> exists c, ld coefficient (u32 (i * n + j)) = Some c /\ entry i j = Some c.
Proof using Hn Hsmall Hlen.
  intros Hi Hj. assert (0 <= i * n + j < n * n) by nia. unfold ld. rewrite u32_small by lia.
  rewrite (proj2 (Z.leb_le 0 _)) by lia. destruct (lookup_lt_is_Some_2 coefficient (Z.to_nat (i * n + j))) as [c Hc]; [lia|].
  by exists c.
Qed.

Lemma not_entry i j c v : entry i j = Some c -> SFeqb c v = false -> ~ is_entry i j v.
Proof using. intros Hc Hv (c' & Hc' & Hv'). congruence. Qed.

Lemma rest_is_zero_spec i js :
  0 <= i < n -> (forall j, j ∈ js -> Z.of_nat j < n) ->
  exists b, rest_is_zero coefficient n i js = Some b /\
    (b = true <-> forall j, j ∈ js -> is_entry i (Z.of_nat j) float_zero /\ is_entry (Z.of_nat j) i float_zero).
Proof using Hn Hsmall Hlen.
  intros Hi. induction js as [|j js IH]; intros Hjs; simpl.
  { exists true. split; [done|]. split; [|done]. intros _ j Hj. by apply not_elem_of_nil in Hj. }
  assert (Hj : Z.of_nat j < n) by (apply Hjs; by left).
  destruct (ld_entry i (Z.of_nat j)) as (a & -> & Ha); [lia|lia|]. destruct (ld_entry (Z.of_nat j) i) as (b & Hb1 & Hb); [lia|lia|].
  simpl. destruct (SFeqb a float_zero) eqn:Ea; simpl.
  2:{ exists false. split; [done|]. split; [done|]. intros Hall. destruct (Hall j) as [H1 _]; [by left|]. by eapply not_entry in H1. }
  rewrite Hb1. simpl. destruct (SFeqb b float_zero) eqn:Eb; simpl.
  2:{ exists false. split; [done|]. split; [done|]. intros Hall. destruct (Hall j) as [_ H1]; [by left|]. by eapply not_entry in H1. }
  destruct IH as (r & Hr & Hiff); [intros k Hk; apply Hjs; by right|]. exists r. split; [done|]. rewrite Hiff. split.
  - intros Hall k [->|Hk]%elem_of_cons; [|by apply Hall]. split; [by exists a|by exists b].
  - intros Hall k Hk. apply Hall. by right.
Qed.

(** The rows from [i] on. *)
Definition rows_identity (i : Z) : Prop :=
  forall k j, i <= k < n -> k <= j < n ->
    if k =? j then is_entry k k float_one else is_entry k j float_zero /\ is_entry j k float_zero.

Lemma identity_loop_spec (m i : nat) (id : bool) :
  (Z.of_nat i + Z.of_nat m = n) ->
  exists b, identity_loop coefficient n id (seq i m) = Some b /\ (b = true <-> id = true /\ rows_identity (Z.of_nat i)).
Proof using Hn Hsmall Hlen.
  revert i id. induction m as [|m IH]; intros i id Him; simpl.
  { exists id. split; [done|]. split; [|tauto]. intros Hid. split; [done|]. intros k j Hk. lia. }
  destruct (ld_entry (Z.of_nat i) (Z.of_nat i)) as (a & -> & Ha); [lia|lia|]. simpl.
  destruct (SFeqb a float_one) eqn:Ea; simpl.
  2:{ exists false. split; [done|]. split; [done|]. intros [_ Hall]. specialize (Hall (Z.of_nat i) (Z.of_nat i) ltac:(lia) ltac:(lia)).
      rewrite Z.eqb_refl in Hall. by eapply not_entry in Hall. }
  destruct (rest_is_zero_spec (Z.of_nat i) (seq (S i) (Z.to_nat n - S i))) as (z & -> & Hz); [lia| |].
  { intros j Hj%elem_of_seq. lia. }
  simpl. destruct (IH (S i) (id && z) ltac:(lia)) as (b & -> & Hb). exists b. split; [done|]. rewrite Hb, andb_true_iff, Hz.
  split.
  - intros [[Hid Hrow] Hrest]. split; [done|]. intros k j Hk Hj. destruct (decide (k = Z.of_nat i)) as [->|Hne]; [|apply Hrest; lia].
    destruct (Z.eqb_spec (Z.of_nat i) j) as [<-|Hji]; [by exists a|].
    replace j with (Z.of_nat (Z.to_nat j)) by lia. apply Hrow, elem_of_seq. lia.
  - intros [Hid Hall]. split; [split; [done|]|].
    + intros j Hj%elem_of_seq. specialize (Hall (Z.of_nat i) (Z.of_nat j) ltac:(lia) ltac:(lia)).
      by rewrite (proj2 (Z.eqb_neq _ _)) in Hall by lia.
    + intros k j Hk. apply Hall. lia.
Qed.
End Remix.

(** The audio thread is given no converter for its output exactly when
    the coefficients are the identity: a one where the input channel is the
    output channel, and a zero everywhere else. *)
Theorem remix_left_out {L : speex_library} (env : conv_env) (n : Z) (coefficient : list spec_float) :
  0 <= n -> n * n < 2 ^ 32 -> Z.of_nat (length coefficient) = n * n ->
  audio_thread_config_global_remix env n coefficient = Some (Post (AUDIO_THREAD_CONFIG_GLOBAL_REMIX None)) <->
  forall i j, 0 <= i < n -> 0 <= j < n -> is_entry n coefficient i j (if i =? j then float_one else float_zero).
Proof.
  intros Hn Hs Hl. unfold audio_thread_config_global_remix, is_identity_remix.
  destruct (identity_loop_spec n coefficient Hn Hs Hl (Z.to_nat n) 0 true ltac:(lia)) as (b & -> & Hb). simpl in Hb |- *.
  transitivity (b = true).
  { destruct b; [done|]. split; [|done]. destruct (cras_channel_remix_conv_create _ _ _) as [[c|]|]; [|done..]. intros [=]. }
  rewrite Hb. split.
  - intros [_ Hall] i j Hi Hj. destruct (Z.eqb_spec i j) as [->|Hne].
    + specialize (Hall j j ltac:(lia) ltac:(lia)). by rewrite Z.eqb_refl in Hall.
    + destruct (Z.lt_total i j) as [Hlt|[?|Hlt]]; [|done|].
      * specialize (Hall i j ltac:(lia) ltac:(lia)). rewrite (proj2 (Z.eqb_neq _ _)) in Hall by done. apply Hall.
      * specialize (Hall j i ltac:(lia) ltac:(lia)). rewrite (proj2 (Z.eqb_neq _ _)) in Hall by lia. apply Hall.
  - intros Hall. split; [done|]. intros k j Hk Hj. destruct (Z.eqb_spec k j) as [->|Hne].
    + specialize (Hall j j ltac:(lia) ltac:(lia)). by rewrite Z.eqb_refl in Hall.
    + pose proof (Hall k j ltac:(lia) ltac:(lia)) as H1. pose proof (Hall j k ltac:(lia) ltac:(lia)) as H2.
      rewrite (proj2 (Z.eqb_neq _ _)) in H1 by done. by rewrite (proj2 (Z.eqb_neq _ _)) in H2 by done.
Qed.

#[local] Existing Instance speex_example.

Lemma remix_left_out_witness :
  audio_thread_config_global_remix env_example 2 [float_one; float_zero; S754_zero true; float_one]
    = Some (Post (AUDIO_THREAD_CONFIG_GLOBAL_REMIX None)) /\
  audio_thread_config_global_remix env_example 2 [float_zero; float_one; float_one; float_zero]
    <> Some (Post (AUDIO_THREAD_CONFIG_GLOBAL_REMIX None)).
Proof.
  assert (Hb : forall i, 0 <= i < 2 -> i = 0 \/ i = 1) by lia. split.
  - apply (remix_left_out env_example 2); [lia|reflexivity|reflexivity|].
    intros i j Hi Hj. destruct (Hb i Hi) as [->| ->], (Hb j Hj) as [->| ->]; eexists; split; reflexivity.
  - intros Hr. pose proof (proj1 (remix_left_out env_example 2 [float_zero; float_one; float_one; float_zero]
      ltac:(lia) eq_refl eq_refl) Hr 0 0 ltac:(lia) ltac:(lia)) as (c & Hc & H1).
    injection Hc as <-. discriminate H1.
Defined.
