(* ===== verification/DeviceIds.v ===== *)
(** * Devices remain what they are

    Whatever the audio thread does with its devices, their indices, their
    directions and whether they are enabled are the main thread's: serving a
    message leaves them alone, when the drivers do. *)
From coqutil Require Import Datatypes.RecordSetters.
From S2P Require Import Prelude Prog Arrays Float32 Types DList Timespec Timers BufferShare Shm AudioFormat Mix AudioArea.
From S2P Require Import FmtConv Ramp Volume Rstream DevStream InputData Iodev IodevOutput IodevOpen IodevStates.
From S2P Require Import Thread DevIoPlayback DevIoCapture DevIo AudioThread.
Import TriangleBracketNotations.
#[local] Open Scope Z_scope.
#[local] Open Scope prog_scope.

Section Ids.
Context {P : pcm_library} {L : speex_library} {RE : rate_library} {D : dsp_service} {AP : apm_service} {LM : libm}.
Context {hw : Type} {H : iodev_hw (hw := hw)} {X : iodev_xrun (hw := hw)} {V : iodev_driver (hw := hw)} {W : surroundings}.
Context {TP : thread_pipes}.
Context (fuel : nat).

Definition identity (d : cras_iodev hw) : Z * Z * bool := (io_idx d, io_direction d, io_is_enabled d).
Definition dev_identity (s : iodev_state hw) : Z * Z * bool := identity (dev s).
Context {DK : driver_keeps dev_identity}.

Definition identities (s : thread hw) : gmap Z (Z * Z * bool) := identity <$> th_devs s.
Definition same_ids (s s' : thread hw) : Prop := identities s' = identities s.

#[export] Instance same_ids_preorder : PreOrder same_ids.
Proof. split; [done|]. intros s1 s2 s3 H1 H2. unfold same_ids in *. congruence. Qed.

Lemma identity_reads (s s' : iodev_state hw) :
  io_state (dev s') = io_state (dev s) -> io_direction (dev s') = io_direction (dev s) ->
  io_streams (dev s') = io_streams (dev s) -> io_idx (dev s') = io_idx (dev s) ->
  io_is_enabled (dev s') = io_is_enabled (dev s) -> tables (srv s') = tables (srv s) -> dev_identity s' = dev_identity s.
Proof. unfold dev_identity, identity. by intros _ -> _ -> -> _. Qed.

(** ** A device's operations *)

Lemma ids_set_dev (f : cras_iodev hw -> cras_iodev hw) :
  (forall d, identity (f d) = identity d) -> keeps dev_identity (set_dev f).
Proof. intros Hf. apply keeps_modify. intros s. unfold dev_identity. simpl. apply Hf. Qed.
Lemma ids_set_srv f : keeps dev_identity (set_srv f).
Proof. by apply keeps_modify. Qed.
Lemma ids_get_dev : keeps dev_identity get_dev.
Proof. apply keeps_get_dev. Qed.
Lemma ids_get_srv : keeps dev_identity get_srv.
Proof. apply keeps_get_srv. Qed.
Lemma ids_emit e : keeps dev_identity (emit e).
Proof. apply ids_set_srv. Qed.
#[local] Hint Extern 1 (keeps dev_identity (set_dev _)) => (apply ids_set_dev; reflexivity) : keeps.
#[local] Hint Resolve ids_set_srv ids_get_dev ids_get_srv ids_emit : keeps.
#[local] Hint Extern 1 (keeps dev_identity close_dev) => apply dk_close_dev : keeps.
#[local] Hint Extern 1 (keeps dev_identity configure_dev) => apply dk_configure_dev : keeps.
#[local] Hint Extern 1 (keeps dev_identity frames_queued) => apply dk_frames_queued : keeps.
#[local] Hint Extern 1 (keeps dev_identity delay_frames) => apply dk_delay_frames : keeps.
#[local] Hint Extern 1 (keeps dev_identity (no_stream _)) => apply dk_no_stream : keeps.
#[local] Hint Extern 1 (keeps dev_identity flush_buffer) => apply dk_flush_buffer : keeps.
#[local] Hint Extern 2 (keeps dev_identity _) =>
  match goal with
  | E : start _ = Some _ |- _ => exact (dk_start _ _ E)
  | E : Iodev.open_dev _ = Some _ |- _ => exact (dk_open_dev _ _ E)
  | E : get_valid_frames _ = Some _ |- _ => exact (dk_get_valid_frames _ _ E)
  | E : get_num_severe_underruns _ = Some _ |- _ => exact (dk_get_num_severe _ _ E)
  | E : update_supported_formats _ = Some _ |- _ => exact (dk_update_supported_formats _ _ E)
  | E : update_channel_layout_op _ = Some _ |- _ => exact (dk_update_channel_layout _ _ E)
  end : keeps.

Lemma ids_fill_zeros n : keeps dev_identity (cras_iodev_fill_odev_zeros fuel n).
Proof. exact (keeps_fill_odev_zeros fuel dev_identity identity_reads n). Qed.
Lemma ids_frames_queued : keeps dev_identity cras_iodev_frames_queued.
Proof. exact (keeps_frames_queued dev_identity identity_reads). Qed.
Lemma ids_start_ramp r : keeps dev_identity (cras_iodev_start_ramp r).
Proof. exact (keeps_start_ramp dev_identity identity_reads r). Qed.
Lemma ids_start_volume_ramp o n : keeps dev_identity (cras_iodev_start_volume_ramp o n).
Proof. exact (keeps_start_volume_ramp dev_identity identity_reads o n). Qed.
Lemma ids_playback_frames : keeps dev_identity dev_playback_frames.
Proof. exact (keeps_playback_frames dev_identity identity_reads). Qed.
Lemma ids_alloc_dsp : keeps dev_identity cras_iodev_alloc_dsp.
Proof. exact (keeps_alloc_dsp dev_identity identity_reads). Qed.
Lemma ids_set_format ok fmt : keeps dev_identity (cras_iodev_set_format ok fmt).
Proof. exact (keeps_set_format dev_identity identity_reads ok fmt). Qed.
Lemma ids_add_ext : keeps dev_identity add_ext_dsp_module_to_pipeline.
Proof. exact (keeps_add_ext dev_identity identity_reads). Qed.
Lemma ids_loopbacks on : keeps dev_identity (control_loopbacks on).
Proof. exact (keeps_loopbacks dev_identity identity_reads on). Qed.
#[local] Hint Resolve ids_fill_zeros ids_frames_queued ids_start_ramp ids_start_volume_ramp ids_playback_frames ids_alloc_dsp
  ids_set_format ids_add_ext ids_loopbacks : keeps.

Lemma ids_open ok now cb fmt : keeps dev_identity (cras_iodev_open fuel ok now cb fmt).
Proof. unfold cras_iodev_open, open_output, open_input. keep. Qed.
Lemma ids_close : keeps dev_identity cras_iodev_close.
Proof. unfold cras_iodev_close. keep. Qed.
Lemma ids_rm_stream r : keeps dev_identity (cras_iodev_rm_stream r).
Proof. unfold cras_iodev_rm_stream, rm_stream_pass, find_rstream, put_rstream. keep. Qed.
Lemma ids_add_stream fresh p a : keeps dev_identity (cras_iodev_add_stream fresh p a).
Proof. unfold cras_iodev_add_stream. keep. Qed.
Lemma ids_valid_frames : keeps dev_identity cras_iodev_get_valid_frames.
Proof. unfold cras_iodev_get_valid_frames. keep. Qed.
Lemma ids_stream_written s n : keeps dev_identity (cras_iodev_stream_written s n).
Proof. unfold cras_iodev_stream_written. keep. Qed.
Lemma ids_zero_volume : keeps dev_identity cras_iodev_is_zero_volume.
Proof. unfold cras_iodev_is_zero_volume. keep. Qed.
Lemma ids_severe : keeps dev_identity cras_iodev_get_num_severe_underruns.
Proof. unfold cras_iodev_get_num_severe_underruns. keep. Qed.
#[local] Hint Resolve ids_rm_stream ids_add_stream ids_valid_frames ids_stream_written ids_zero_volume ids_severe : keeps.

(** ** The thread *)

Lemma ids_on_dev {A} (k : Z) (m : iodev_prog (hw := hw) A) : keeps dev_identity m -> respects same_ids (on_dev k m).
Proof.
  intros Hm s. apply yields_on_dev. intros d Hd. eapply yields_mono; [apply Hm|]. intros a t Ht.
  unfold same_ids, identities, put_iodev. simpl. rewrite fmap_insert. apply insert_id. rewrite lookup_fmap, Hd. simpl.
  f_equal. symmetry. exact Ht.
Qed.
#[local] Hint Extern 3 (respects same_ids (on_dev _ _)) => (apply ids_on_dev; solve [keep]) : respects.

Lemma ids_set_thread (f : thread hw -> thread hw) : (forall s, th_devs (f s) = th_devs s) -> respects same_ids (set_thread f).
Proof. intros Hf. apply respects_modify. intros s. unfold same_ids, identities. by rewrite Hf. Qed.
#[local] Hint Extern 2 (respects same_ids (set_thread _)) => (apply ids_set_thread; reflexivity) : respects.

Lemma ids_look {A} (f : nat -> A) : respects (same_ids) (look f).
Proof. unfold look. respect. Qed.
Lemma ids_clock : respects same_ids clock_gettime.
Proof. apply ids_look. Qed.
Lemma ids_put_open_devs i l : respects same_ids (put_open_devs i l).
Proof. unfold put_open_devs. apply ids_set_thread. by destruct i. Qed.
Lemma ids_put_stream r x : respects same_ids (put_stream r x).
Proof. unfold put_stream. respect. Qed.
#[local] Hint Resolve ids_look ids_clock ids_put_open_devs ids_put_stream : respects.
Lemma ids_set_open_dev i q f : respects same_ids (set_open_dev i q f).
Proof. unfold set_open_dev. respect. Qed.
Lemma ids_put_dev_stream k p ds : respects same_ids (put_dev_stream k p ds).
Proof. unfold put_dev_stream. respect. Qed.
Lemma ids_malloc : respects same_ids malloc.
Proof. unfold malloc. respect. Qed.
Lemma ids_find_open_dev i n : respects same_ids (dev_io_find_open_dev i n).
Proof. unfold dev_io_find_open_dev. respect. Qed.
#[local] Hint Resolve ids_set_open_dev ids_put_dev_stream ids_malloc ids_find_open_dev : respects.

Lemma ids_delete k r : respects same_ids (delete_stream_from_dev k r).
Proof. unfold delete_stream_from_dev, destroy_dev_stream. respect. Qed.
#[local] Hint Resolve ids_delete : respects.
Lemma ids_remove_stream i r dev : respects same_ids (dev_io_remove_stream i r dev).
Proof. unfold dev_io_remove_stream. respect_thread. Qed.
Lemma ids_rm_open_dev i q : respects same_ids (dev_io_rm_open_dev i q).
Proof. unfold dev_io_rm_open_dev, check_non_empty_state_transition, send, destroy_dev_stream. respect_thread. Qed.
Lemma ids_append i r devs : respects same_ids (dev_io_append_stream i r devs).
Proof.
  unfold dev_io_append_stream, append_to_dev, first_cb_pass, first_cb_by_level, attach_stream, align_input_offsets,
    destroy_dev_stream. respect_thread.
Qed.
#[local] Hint Resolve ids_remove_stream ids_rm_open_dev ids_append : respects.

Lemma ids_add_open_dev k : respects same_ids (thread_add_open_dev fuel k).
Proof. unfold thread_add_open_dev, calloc_open_dev, fill_odevs_zeros_min_level. respect. Qed.
Lemma ids_thread_rm_open_dev dir n : respects same_ids (thread_rm_open_dev dir n).
Proof. unfold thread_rm_open_dev. respect. Qed.
Lemma ids_is_dev_open k : respects same_ids (thread_is_dev_open k).
Proof. unfold thread_is_dev_open. respect. Qed.
Lemma ids_dev_start_ramp n r : respects same_ids (thread_dev_start_ramp n r).
Proof. unfold thread_dev_start_ramp, cras_device_monitor_set_device_mute_state. respect. Qed.
Lemma ids_disconnect r dev : respects same_ids (thread_disconnect_stream r dev).
Proof. unfold thread_disconnect_stream, thread_find_stream. respect. Qed.
Lemma ids_drain r : respects same_ids (thread_drain_stream r).
Proof. unfold thread_drain_stream, thread_find_stream, thread_drain_stream_ms_remaining. respect. Qed.
Lemma ids_add r devs : respects same_ids (thread_add_stream r devs).
Proof. unfold thread_add_stream. respect. Qed.
Lemma ids_dump : respects same_ids dump_thread_info.
Proof.
  unfold dump_thread_info, dump_output_devs, dump_input_devs, dump_dev, dump_streams, append_dev_dump_info, append_stream_dump_info.
  respect_thread.
Qed.
#[local] Hint Resolve ids_add_open_dev ids_thread_rm_open_dev ids_is_dev_open ids_dev_start_ramp ids_disconnect ids_drain
  ids_add ids_dump : respects.

(** ** Messages *)

Definition audio_same_ids (a a' : audio_thread (hw := hw)) : Prop := same_ids (au_thread a) (au_thread a').
#[export] Instance audio_same_ids_preorder : PreOrder audio_same_ids.
Proof. split; unfold audio_same_ids; [by intros s|]. intros s1 s2 s3 H1 H2. by transitivity (au_thread s2). Qed.

Lemma ids_in_thread {A} (m : thread_prog (hw := hw) A) : respects same_ids m -> respects audio_same_ids (in_thread m).
Proof. intros Hm s. apply yields_zoom. eapply yields_mono; [apply Hm|]. intros a t Ht. exact Ht. Qed.
#[local] Hint Extern 3 (respects audio_same_ids (in_thread _)) => (apply ids_in_thread) : respects.
Lemma ids_set_audio (f : audio_thread -> audio_thread) :
  (forall s, au_thread (f s) = au_thread s) -> respects audio_same_ids (set_audio f).
Proof. intros Hf. apply respects_modify. intros s. unfold audio_same_ids. by rewrite Hf. Qed.
#[local] Hint Extern 2 (respects audio_same_ids (set_audio _)) => (apply ids_set_audio; reflexivity) : respects.
Lemma ids_report e : respects audio_same_ids (report e).
Proof. unfold report. respect. Qed.
#[local] Hint Resolve ids_report : respects.

Lemma ids_handle_message msg : respects audio_same_ids (handle_message fuel msg).
Proof.
  unfold handle_message, audio_thread_rm_callback, thread_set_aec_dump, each. cbv zeta. respect.
Qed.
Lemma ids_send_response rc : respects audio_same_ids (audio_thread_send_response rc).
Proof. unfold audio_thread_send_response. respect. Qed.
#[local] Hint Resolve ids_handle_message ids_send_response : respects.
Lemma ids_serve_message msg : respects audio_same_ids (serve_message fuel msg).
Proof. unfold serve_message. respect. Qed.
Lemma ids_read n : respects audio_same_ids (read_until_finished fuel n).
Proof. unfold read_until_finished. respect. Qed.
#[local] Hint Resolve ids_serve_message ids_read : respects.

(** What the main thread asks of the audio thread changes no identity. *)
Lemma ids_perform r : respects audio_same_ids (perform fuel r).
Proof. unfold perform, audio_thread_post_message. respect. Qed.
End Ids.
