(* ===== verification/IodevList.v ===== *)
(** * The device list (server/cras_iodev_list.c)

    Which devices there are, which of them the user has enabled, and which
    streams each one gets.  The main thread keeps these lists; it opens and
    closes devices and has the audio thread play and capture on them.

    Devices, streams and the records on the lists are known by their
    addresses.  Directions are those of [side]; a direction out of range is
    undefined.  Of a stream, the list's copy is read: what is read here does
    not change after it has been created.  Allocations that the code does not
    test succeed.  The functions of devices' drivers and the callbacks on
    enabling a device are called through pointers; the audio processing lists
    and the observers are told in a log.  Of [struct cras_iodev_info] and of
    [struct cras_ionode_info] strings are left out. *)
From Stdlib Require Import String.
From coqutil Require Import Datatypes.RecordSetters.
From S2P Require Import Prelude Prog Arrays Float32 Types DList Timespec Timers BufferShare AudioFormat.
From S2P Require Import FmtConv Volume Rstream StreamList DevStream InputData Iodev IodevOutput IodevOpen EmptyIodev.
From S2P Require Import Thread DevIoPlayback DevIoCapture DevIo AudioThread.
Import TriangleBracketNotations.
#[local] Open Scope Z_scope.
#[local] Open Scope prog_scope.

Definition MAX_SPECIAL_DEVICE_IDX : Z := 4.
Definition CRAS_MAX_IODEVS : Z := 20.
Definition CRAS_MAX_IONODES : Z := 20.
Definition idle_timeout_interval : timespec := Timespec 10 0.
Definition INIT_DEV_DELAY_MS : Z := 1000.
Definition SERVER_STREAM_CLIENT_ID : Z := 0.
Definition EBUSY : Z := 16.

Definition CRAS_NODE_TYPE_FALLBACK_NORMAL : Z := 12.
Definition CRAS_NODE_TYPE_FALLBACK_ABNORMAL : Z := 13.

(** ** Node ids: a device's index and a node's *)

Definition cras_make_node_id (dev_index node_index : Z) : Z := Z.lor (u64 (Z.shiftl dev_index 32)) node_index.
Definition dev_index_of (id : Z) : Z := u32 (Z.shiftr id 32).
Definition node_index_of (id : Z) : Z := u32 id.

(** ** Lists *)

(** The devices of one direction, by address; the list goes through them. *)
Record iodev_list : Type := IodevList { iodevs : list Z; size : Z }.

Record dev_init_retry : Type := InitRetry { dev_idx : Z; init_timer : option Z }.

Record device_enabled_cb : Type := EnabledCb { enabled_cb : Z; disabled_cb : Z; cb_data : Z }.

(** The stream that the server reads an echo reference with, of
    server/server_stream.c: its device and its id. *)
Record server_stream : Type := ServerStream { ss_dev_idx : Z; ss_stream_id : Z }.

Inductive task : Type := server_stream_add_cb | server_stream_rm_cb.

Record cras_ionode_info : Type := NodeInfo {
  ni_iodev_idx : Z;
  ni_ionode_idx : Z;
  ni_plugged : Z;
  ni_plugged_time : timespec;
  ni_active : bool;
  ni_volume : Z;
  ni_capture_gain : Z;
  ni_ui_gain_scaler : spec_float;
  ni_left_right_swapped : Z;
  ni_type : string;
  ni_type_enum : Z
}.

(** What clients see of one direction: the arrays have [CRAS_MAX_IODEVS] and
    [CRAS_MAX_IONODES] entries; of a device its index is kept. *)
Record shown_devs : Type := ShownDevs { num_devs : Z; shown : list Z; num_nodes : Z; shown_nodes : list cras_ionode_info }.

Inductive main_event : Type :=
| ApmAdded (apm_list dev : Z) (format : option cras_audio_format) (is_aec : bool)
| ApmRemoved (apm_list dev : Z)
| NotifyNodes
| NotifyActiveNode (dir node_id : Z)
| NotifyOutputNodeVolume (node_id volume : Z)
| NotifyNodeLeftRightSwapped (node_id swapped : Z)
| NotifyInputNodeGain (node_id gain : Z).

(** The functions that timers call. *)
Definition idle_dev_check_fn : Z := 1.
Definition init_device_cb_fn : Z := 2.

Definition node_type_to_str (n : cras_ionode) : string :=
  match nd_type n with
  | 0 => "INTERNAL_SPEAKER" | 1 => "HEADPHONE" | 2 => "HDMI" | 3 => "HAPTIC"
  | 5 => match nd_position n with
         | 1 => "INTERNAL_MIC" | 2 => "FRONT_MIC" | 3 => "REAR_MIC" | 4 => "KEYBOARD_MIC" | _ => "MIC"
         end
  | 6 => "HOTWORD" | 4 => "LINEOUT" | 7 => "POST_MIX_LOOPBACK" | 8 => "POST_DSP_LOOPBACK" | 10 => "USB"
  | 11 => "BLUETOOTH" | 9 => "BLUETOOTH_NB_MIC" | 12 => "FALLBACK_NORMAL" | 13 => "FALLBACK_ABNORMAL"
  | 15 => "ECHO_REFERENCE" | _ => "UNKNOWN"
  end%string.

(** [calloc] where it is tested, or its result stored untested. *)
Class main_memory : Type := { main_calloc : nat -> option Z; task_added : nat -> bool }.

Section DeviceList.
Context {P : pcm_library} {L : speex_library} {RE : rate_library} {D : dsp_service} {AP : apm_service} {LM : libm}.
Context {hw : Type} {H : iodev_hw (hw := hw)} {X : iodev_xrun (hw := hw)} {V : iodev_driver (hw := hw)} {W : surroundings}.
Context {TP : thread_pipes} {MM : main_memory}.
Context (fuel : nat).
#[local] Abbreviation iodev_prog := (iodev_prog (hw := hw)).

(** More of the functions of a driver; a hotword model is its name. *)
Class list_driver : Type := {
  update_active_node : Z -> Z -> iodev_prog unit;
  set_volume : cras_iodev hw -> option (iodev_prog unit);
  set_capture_mute : cras_iodev hw -> option (iodev_prog unit);
  set_capture_gain : cras_iodev hw -> option (iodev_prog unit);
  set_swap_mode_for_node : cras_iodev hw -> option (Z -> Z -> iodev_prog Z);
  get_hotword_models : cras_iodev hw -> option (iodev_prog (option (list Z)));
  set_hotword_model : list Z -> iodev_prog Z
}.
Context {LD : list_driver}.

(** The main thread: the static variables of the file, and what they lead to. *)
Record main_state : Type := MainState {
  ms_audio : audio_thread (hw := hw);
  ms_tm : cras_tm;
  ms_stream_list : stream_list;
  ms_outputs : iodev_list;
  ms_inputs : iodev_list;
  ms_enabled_outputs : dlist Z;
  ms_enabled_inputs : dlist Z;
  ms_fallback_output : option Z;
  ms_fallback_input : option Z;
  ms_empty_hotword_dev : option Z;
  ms_init_retries : dlist dev_init_retry;
  ms_next_iodev_idx : Z;
  ms_device_enable_cbs : dlist device_enabled_cb;
  ms_idle_timer : option Z;
  ms_stream_list_suspended : bool;
  ms_hotword_suspended : bool;
  ms_server_stream : option server_stream;
  ms_tasks : list task;
  ms_shown_outputs : shown_devs;
  ms_shown_inputs : shown_devs;
  ms_told : list main_event
}.

Definition main_prog : Type -> Type := prog main_state.

Class enable_callbacks : Type := {
  call_enabled_cb : Z -> Z -> Z -> main_prog unit;
  call_disabled_cb : Z -> Z -> Z -> main_prog unit
}.
Context {EC : enable_callbacks}.

Definition on_audio {A} (m : audio_prog (hw := hw) A) : main_prog A := zoom ms_audio (fun a s => s <| ms_audio := a |>) m.
Definition on_thread {A} (m : thread_prog (hw := hw) A) : main_prog A := on_audio (in_thread m).
Definition on_iodev {A} (k : Z) (m : iodev_prog A) : main_prog A := on_thread (on_dev k m).
Definition iodev (k : Z) : main_prog (cras_iodev hw) := on_thread (the_iodev k).
Definition set_main (f : main_state -> main_state) : main_prog unit := modify f.
Definition tell (e : main_event) : main_prog unit := set_main (fun s => s <| ms_told ::= fun l => l ++ [e] |>).

(** A message to the audio thread, and its answer. *)
Definition ask (r : audio_thread -> request) : main_prog Z := on_audio (let* a := gets id in perform fuel (r a)).

Definition active_node (k : Z) : main_prog cras_ionode :=
  let* d := iodev k in let* n := here (find_active_node d) in here n.

Definition side_at (dir : Z) : main_prog side := here (side_of dir).

Definition devs (i : side) : main_prog iodev_list :=
  gets (fun s => match i with Playback => ms_outputs s | Capture => ms_inputs s end).
Definition set_devs (i : side) (l : iodev_list) : main_prog unit :=
  set_main (fun s => match i with Playback => s <| ms_outputs := l |> | Capture => s <| ms_inputs := l |> end).
Definition enabled_devs (i : side) : main_prog (dlist Z) :=
  gets (fun s => match i with Playback => ms_enabled_outputs s | Capture => ms_enabled_inputs s end).
Definition set_enabled_devs (i : side) (l : dlist Z) : main_prog unit :=
  set_main (fun s => match i with Playback => s <| ms_enabled_outputs := l |> | Capture => s <| ms_enabled_inputs := l |> end).
Definition fallback_devs (i : side) : main_prog (option Z) :=
  gets (fun s => match i with Playback => ms_fallback_output s | Capture => ms_fallback_input s end).

(** The streams: their addresses with what was read of them. *)
Definition all_streams : main_prog (dlist cras_rstream) := gets (fun s => streams (ms_stream_list s)).

Definition has_pinned_stream (idx : Z) : main_prog bool :=
  gets (fun s => stream_list_has_pinned_stream idx (SLState (ms_stream_list s) (ms_tm s) tt)).

Definition create_timer (ms fn data : Z) : main_prog (option Z) :=
  let* mem := on_thread (look main_calloc) in
  let* now := on_thread clock_gettime in
  let* s := gets id in
  let '(t, tm) := cras_tm_create_timer (ms_tm s) mem now ms fn data in
  set_main (fun s => s <| ms_tm := tm |>) ;; ret t.

Definition cancel_timer (t : Z) : main_prog unit :=
  let* s := gets id in
  let* tm := here (cras_tm_cancel_timer (ms_tm s) t) in set_main (fun s => s <| ms_tm := tm |>).

(** ** Finding devices *)

(** The first device of that index. *)
Fixpoint find_in (idx : Z) (l : list Z) : main_prog (option Z) :=
  match l with
  | [] => ret None
  | k :: l => let* d := iodev k in if io_idx d =? idx then ret (Some k) else find_in idx l
  end.

Definition find_dev (idx : Z) : main_prog (option Z) :=
  let* outputs := devs Playback in
  let* found := find_in idx (iodevs outputs) in
  match found with
  | Some k => ret (Some k)
  | None => let* inputs := devs Capture in find_in idx (iodevs inputs)
  end.

Definition find_node (d : cras_iodev hw) (node_idx : Z) : option Z :=
  fst <$> dl_search (io_nodes d) (fun n => nd_idx n =? node_idx).

(** ** What clients see *)

(** The loops end when as many have been written as there is place for. *)
Fixpoint fill_dev_list (out_size i : Z) (l : list Z) : main_prog (list Z) :=
  match l with
  | [] => ret []
  | k :: l =>
      let* d := iodev k in
      if i + 1 =? out_size then ret [io_idx d] else
      let* rest := fill_dev_list out_size (i + 1) l in ret (io_idx d :: rest)
  end.

Definition node_info (d : cras_iodev hw) (p : Z) (n : cras_ionode) : cras_ionode_info :=
  {| ni_iodev_idx := io_idx d; ni_ionode_idx := nd_idx n; ni_plugged := nd_plugged n;
     ni_plugged_time := nd_plugged_time n;
     ni_active := io_is_enabled d && bool_decide (io_active_node d = Some p);
     ni_volume := nd_volume n; ni_capture_gain := nd_capture_gain n; ni_ui_gain_scaler := nd_ui_gain_scaler n;
     ni_left_right_swapped := nd_left_right_swapped n; ni_type := node_type_to_str n; ni_type_enum := nd_type n |}.

(** The nodes of a device, and whether there is place for more. *)
Fixpoint fill_nodes (d : cras_iodev hw) (out_size i : Z) (l : dlist cras_ionode) : list cras_ionode_info * bool :=
  match l with
  | [] => ([], true)
  | (p, n) :: l =>
      if i + 1 =? out_size then ([node_info d p n], false) else
      let '(rest, more) := fill_nodes d out_size (i + 1) l in (node_info d p n :: rest, more)
  end.

Fixpoint fill_node_list (out_size i : Z) (l : list Z) : main_prog (list cras_ionode_info) :=
  match l with
  | [] => ret []
  | k :: l =>
      let* d := iodev k in
      let '(infos, more) := fill_nodes d out_size i (io_nodes d) in
      if negb more then ret infos else
      let* rest := fill_node_list out_size (i + Z.of_nat (length infos)) l in ret (infos ++ rest)
  end.

(** The number of devices, and the copy when there is memory for it. *)
Definition get_dev_list (malloc_ok : bool) (i : side) : main_prog (Z * option (list Z)) :=
  let* list := devs i in
  if size list =? 0 then ret (0, None) else
  if negb malloc_ok then ret (- ENOMEM, None) else
  let* l := fill_dev_list (size list) 0 (iodevs list) in ret (size list, Some l).

Definition show (i : side) (old : shown_devs) : main_prog shown_devs :=
  let* list := devs i in
  let* l := fill_dev_list CRAS_MAX_IODEVS 0 (iodevs list) in
  let* nodes := fill_node_list CRAS_MAX_IONODES 0 (iodevs list) in
  ret (ShownDevs (size list) (list_inserts 0 l (shown old)) (Z.of_nat (length nodes))
                 (list_inserts 0 nodes (shown_nodes old))).

(** [cras_system_state_update_begin] takes a lock; it is taken. *)
Definition cras_iodev_list_update_device_list : main_prog unit :=
  let* s := gets id in
  let* outputs := show Playback (ms_shown_outputs s) in
  let* inputs := show Capture (ms_shown_inputs s) in
  set_main (fun s => s <| ms_shown_outputs := outputs |> <| ms_shown_inputs := inputs |>).

(** ** Adding and removing devices *)

(** Moves on to an index that no device of the list has. *)
Fixpoint free_idx (n : nat) (used : list Z) (new_idx : Z) : option Z :=
  let new_idx := if new_idx <? MAX_SPECIAL_DEVICE_IDX then MAX_SPECIAL_DEVICE_IDX else new_idx in
  if existsb (Z.eqb new_idx) used then
    match n with O => None | S n => free_idx n used (u32 (new_idx + 1)) end
  else Some new_idx.

Definition indices (l : list Z) : main_prog (list Z) :=
  fold_prog (fun k acc => let* d := iodev k in ret (acc ++ [io_idx d])) l [].

Definition add_dev_to_list (k : Z) : main_prog Z :=
  let* d := iodev k in
  let* i := side_at (io_direction d) in
  let* list := devs i in
  if bool_decide (k ∈ iodevs list) then ret (- EEXIST) else
  on_iodev k (set_dev (fun d => d <| io_format := None |>)) ;;
  let* s := gets id in
  let* used := indices (iodevs list) in
  let* new_idx := here (free_idx (length used) used (ms_next_iodev_idx s)) in
  on_iodev k (set_dev (fun d => d <| io_idx := new_idx |>)) ;;
  set_main (fun s => s <| ms_next_iodev_idx := u32 (new_idx + 1) |>) ;;
  set_devs i (IodevList (k :: iodevs list) (u64 (size list + 1))) ;;
  cras_iodev_list_update_device_list ;;
  ret 0.

Definition rm_dev_from_list (k : Z) : main_prog Z :=
  let* d := iodev k in
  let* i := side_at (io_direction d) in
  let* list := devs i in
  if negb (bool_decide (k ∈ iodevs list)) then ret (- EINVAL) else
  if cras_iodev_is_open d then ret (- EBUSY) else
  set_devs i (IodevList (filter (fun k' => k' <> k) (iodevs list)) (u64 (size list - 1))) ;;
  ret 0.

(** ** What observers of the system's state do *)

Definition sys_vol_change : main_prog unit :=
  let* outputs := devs Playback in
  each (fun k =>
    let* d := iodev k in
    match set_volume d with Some op => if cras_iodev_is_open d then on_iodev k op else ret tt | None => ret tt end)
    (iodevs outputs).

Definition sys_mute_change (muted user_muted : bool) : main_prog unit :=
  let* outputs := devs Playback in
  each (fun k =>
    let* d := iodev k in
    if negb (cras_iodev_is_open d) then let* _ := on_iodev k cras_iodev_set_mute in ret tt else
    let* _ := ask (fun a => audio_thread_dev_start_ramp a (io_idx d)
      (if muted || user_muted then CRAS_IODEV_RAMP_REQUEST_DOWN_MUTE else CRAS_IODEV_RAMP_REQUEST_UP_UNMUTE)) in ret tt)
    (iodevs outputs).

Definition sys_cap_mute_change : main_prog unit :=
  let* inputs := devs Capture in
  each (fun k =>
    let* d := iodev k in
    match set_capture_mute d with Some op => if cras_iodev_is_open d then on_iodev k op else ret tt | None => ret tt end)
    (iodevs inputs).

(** ** The server's own stream (server/server_stream.c) *)

Definition add_task (t : task) : main_prog unit :=
  let* added := on_thread (look task_added) in
  if added : bool then set_main (fun s => s <| ms_tasks ::= fun l => l ++ [t] |>) else ret tt.

Definition server_stream_create (idx : Z) : main_prog unit :=
  let* s := gets id in
  match ms_server_stream s with
  | Some _ => ret tt
  | None =>
      set_main (fun s => s <| ms_server_stream := Some (ServerStream idx (cras_get_stream_id SERVER_STREAM_CLIENT_ID 0)) |>) ;;
      add_task server_stream_add_cb
  end.

Definition server_stream_destroy (idx : Z) : main_prog unit :=
  let* s := gets id in
  match ms_server_stream s with
  | Some c => if ss_dev_idx c =? idx then add_task server_stream_rm_cb else ret tt
  | None => ret tt
  end.

Definition possibly_enable_echo_reference (k : Z) : main_prog unit :=
  let* d := iodev k in
  if negb (io_direction d =? CRAS_STREAM_OUTPUT) then ret tt else
  match io_echo_reference_dev d with
  | None => ret tt
  | Some e => let* d := iodev e in server_stream_create (io_idx d)
  end.

Definition possibly_disable_echo_reference (k : Z) : main_prog unit :=
  let* d := iodev k in
  match io_echo_reference_dev d with
  | None => ret tt
  | Some e => let* d := iodev e in server_stream_destroy (io_idx d)
  end.

(** ** Closing devices *)

Definition remove_all_streams_from_dev (k : Z) : main_prog unit :=
  let* d := iodev k in
  let* _ := ask (fun a => audio_thread_rm_open_dev a (io_direction d) (io_idx d)) in
  let* l := all_streams in
  each (fun e => if rs_apm_list e.2 =? 0 then ret tt else tell (ApmRemoved (rs_apm_list e.2) k)) l.

Definition close_dev_without_idle_check (k : Z) : main_prog Z :=
  let* d := iodev k in
  if negb (cras_iodev_is_open d) then ret (- EINVAL) else
  remove_all_streams_from_dev k ;;
  on_iodev k cras_iodev_exit_idle ;;
  let* _ := on_iodev k cras_iodev_close in
  possibly_disable_echo_reference k ;;
  ret 0.

(** Closes the devices whose time is over, and sleeps until that of the next
    one is. *)
Definition idle_dev_pass (now : timespec) (k : Z) (c : Z * timespec) : main_prog (Z * timespec) :=
  let '(num_idle_devs, min_idle_expiration) := c in
  let* d := iodev k in
  let timeout := io_idle_timeout d in
  if tv_sec timeout =? 0 then ret c else
  if timespec_after now timeout then let* _ := close_dev_without_idle_check k in ret c else
  ret (u32 (num_idle_devs + 1),
       if (tv_sec min_idle_expiration =? 0) || timespec_after min_idle_expiration timeout then timeout
       else min_idle_expiration).

Definition idle_dev_check : main_prog unit :=
  let* now := on_thread clock_gettime in
  let* l := enabled_devs Playback in
  let* (num_idle_devs, min_idle_expiration) :=
    fold_prog (fun e => idle_dev_pass now e.2) l (0, Timespec 0 0) in
  set_main (fun s => s <| ms_idle_timer := None |>) ;;
  if num_idle_devs =? 0 then ret tt else
  let min_idle_timeout_ms :=
    if timespec_after now min_idle_expiration then 0 else timespec_to_ms (subtract_timespecs min_idle_expiration now) in
  let* t := create_timer (cmax min_idle_timeout_ms 10) idle_dev_check_fn 0 in
  set_main (fun s => s <| ms_idle_timer := t |>).

Definition close_dev (k : Z) : main_prog unit :=
  let* rc := close_dev_without_idle_check k in
  if negb (rc =? 0) then ret tt else
  let* s := gets id in
  (match ms_idle_timer s with Some t => cancel_timer t | None => ret tt end) ;;
  idle_dev_check.

(** ** Opening devices *)

(** Cancelling the timer [NULL] is undefined. *)
Definition cancel_pending_init_retries (idx : Z) : main_prog unit :=
  let* s := gets id in
  each (fun '(q, r) =>
    if negb (dev_idx r =? idx) then ret tt else
    let* t := here (init_timer r) in
    cancel_timer t ;;
    let* s := gets id in
    let* l := here (dl_delete (ms_init_retries s) q) in
    set_main (fun s => s <| ms_init_retries := l |>)) (ms_init_retries s).

Definition init_device (k : Z) (rstream : cras_rstream) : main_prog Z :=
  on_iodev k cras_iodev_exit_idle ;;
  let* d := iodev k in
  if cras_iodev_is_open d then ret 0 else
  cancel_pending_init_retries (io_idx d) ;;
  let* mem := on_thread (look main_calloc) in
  let* now := on_thread clock_gettime in
  let* rc := on_iodev k (cras_iodev_open fuel (bool_decide (is_Some mem)) now (rs_cb_threshold rstream) (rs_format rstream)) in
  if negb (rc =? 0) then ret rc else
  let* rc := ask (fun a => audio_thread_add_open_dev a k) in
  (if negb (rc =? 0) then let* _ := on_iodev k cras_iodev_close in ret tt else ret tt) ;;
  possibly_enable_echo_reference k ;;
  ret rc.

Definition cras_iodev_list_dev_is_enabled (k : Z) : main_prog bool :=
  let* d := iodev k in
  let* i := side_at (io_direction d) in
  let* l := enabled_devs i in ret (existsb (fun e => e.2 =? k) l).

Definition add_stream_to_open_devs (p : Z) (rstream : cras_rstream) (ks : list Z) : main_prog Z :=
  (if rs_apm_list rstream =? 0 then ret tt else
   each (fun k =>
     let* d := iodev k in
     let* n := active_node k in
     tell (ApmAdded (rs_apm_list rstream) k (io_format d) (cras_iodev_is_aec_use_case n))) ks) ;;
  ask (fun a => audio_thread_add_stream a p ks).

(** Whether a stream may play on the device. *)
Definition can_attach (d : cras_iodev hw) (dev_enabled : bool) (rstream : cras_rstream) : bool :=
  if negb (rs_direction rstream =? io_direction d) then false
  else if negb (rs_is_pinned rstream) then dev_enabled
  else (rs_pinned_dev_idx rstream =? io_idx d) || (SILENT_PLAYBACK_DEVICE =? io_idx d) || (SILENT_RECORD_DEVICE =? io_idx d).

(** Ends at the first stream that the device cannot be opened for. *)
Fixpoint attach_streams (k : Z) (dev_enabled : bool) (l : dlist cras_rstream) : main_prog Z :=
  match l with
  | [] => ret 0
  | (p, rstream) :: l =>
      let* d := iodev k in
      if negb (can_attach d dev_enabled rstream) then attach_streams k dev_enabled l else
      let* rc := init_device k rstream in
      if negb (rc =? 0) then ret rc else
      let* _ := add_stream_to_open_devs p rstream [k] in attach_streams k dev_enabled l
  end.

Definition init_and_attach_streams (k : Z) : main_prog Z :=
  let* dev_enabled := cras_iodev_list_dev_is_enabled k in
  let* s := gets id in
  if ms_stream_list_suspended s then ret 0 else
  let* l := all_streams in attach_streams k dev_enabled l.

Definition schedule_init_device_retry (k : Z) : main_prog Z :=
  let* mem := on_thread (look main_calloc) in
  match mem with
  | None => ret (- ENOMEM)
  | Some q =>
      let* s := gets id in
      if bool_decide (q ∈ addrs (ms_init_retries s)) then here None else
      let* d := iodev k in
      let* t := create_timer INIT_DEV_DELAY_MS init_device_cb_fn q in
      set_main (fun s => s <| ms_init_retries ::= fun l => dl_append l q (InitRetry (io_idx d) t) |>) ;;
      ret 0
  end.

(** ** Enabling and disabling *)

Definition calloc_enabled_dev : main_prog Z :=
  let* q := on_thread (look fresh_address) in
  let* s := gets id in
  here (if bool_decide (q ∈ addrs (ms_enabled_outputs s) ++ addrs (ms_enabled_inputs s)) then None else Some q).

Definition enable_device (k : Z) : main_prog Z :=
  let* d := iodev k in
  let* i := side_at (io_direction d) in
  let* l := enabled_devs i in
  if existsb (fun e => e.2 =? k) l then ret (- EEXIST) else
  let* q := calloc_enabled_dev in
  set_enabled_devs i (dl_append l q k) ;;
  on_iodev k (set_dev (fun d => d <| io_is_enabled := true |>)) ;;
  let* rc := init_and_attach_streams k in
  if rc <? 0 then let* _ := schedule_init_device_retry k in ret rc else
  let* s := gets id in
  each (fun e => call_enabled_cb (enabled_cb e.2) k (cb_data e.2)) (ms_device_enable_cbs s) ;;
  ret 0.

Definition disconnect_streams (k : Z) (c : cras_rstream -> bool) : main_prog unit :=
  let* l := all_streams in
  each (fun e => if c e.2 then let* _ := ask (fun _ => audio_thread_disconnect_stream e.1 (Some k)) in ret tt else ret tt) l.

Definition deactivate (k : Z) : main_prog unit :=
  let* n := active_node k in on_iodev k (update_active_node (nd_idx n) 0).
Definition activate (k : Z) : main_prog unit :=
  let* n := active_node k in on_iodev k (update_active_node (nd_idx n) 1).

(** The device at the place [q] of the enabled ones. *)
Definition disable_device (i : side) (q : Z) (force : bool) : main_prog Z :=
  let* l := enabled_devs i in
  let* k := here (dl_find l q) in
  let* d := iodev k in
  let* dir := side_at (io_direction d) in
  let* l := enabled_devs dir in
  let* l := here (dl_delete l q) in
  set_enabled_devs dir l ;;
  on_iodev k (set_dev (fun d => d <| io_is_enabled := false |>)) ;;
  (if force then cancel_pending_init_retries (io_idx d) else ret tt) ;;
  disconnect_streams k (fun r => (rs_direction r =? io_direction d) && (negb (rs_is_pinned r) || force)) ;;
  let* pinned := has_pinned_stream (io_idx d) in
  if negb force && pinned then ret 0 else
  let* s := gets id in
  each (fun e => call_disabled_cb (disabled_cb e.2) k (cb_data e.2)) (ms_device_enable_cbs s) ;;
  close_dev k ;;
  deactivate k ;;
  ret 0.

Definition force_close_pinned_only_device (k : Z) : main_prog Z :=
  let* d := iodev k in
  disconnect_streams k (fun r =>
    (rs_direction r =? io_direction d) && rs_is_pinned r && (io_idx d =? rs_pinned_dev_idx r)) ;;
  close_dev k ;; deactivate k ;; ret 0.

Definition possibly_disable_fallback (i : side) : main_prog unit :=
  let* l := enabled_devs i in
  let* f := fallback_devs i in
  each (fun e => if bool_decide (f = Some e.2) then let* _ := disable_device i e.1 false in ret tt else ret tt) l.

Definition possibly_enable_fallback (i : side) (error : bool) : main_prog unit :=
  let* f := fallback_devs i in
  match f with
  | None => ret tt
  | Some k =>
      let* d := iodev k in
      let* p := here (io_active_node d) in
      on_iodev k (update_node p (fun n => n <| nd_type :=
        if error then CRAS_NODE_TYPE_FALLBACK_ABNORMAL else CRAS_NODE_TYPE_FALLBACK_NORMAL |>)) ;;
      let* enabled := cras_iodev_list_dev_is_enabled k in
      if enabled : bool then ret tt else let* _ := enable_device k in ret tt
  end.

(** ** Streams come and go *)

(** A device of a pinned stream is opened with its active node. *)
Definition init_pinned_device (k : Z) (rstream : cras_rstream) : main_prog Z :=
  on_iodev k cras_iodev_exit_idle ;;
  let* is_open := ask (fun _ => audio_thread_is_dev_open (Some k)) in
  if negb (is_open =? 0) then ret 0 else
  activate k ;;
  let* rc := init_device k rstream in ret rc.

Definition close_pinned_device (k : Z) : main_prog Z := close_dev k ;; deactivate k ;; ret 0.

Definition is_hotword_stream (rstream : cras_rstream) : bool :=
  Z.land (rs_flags rstream) HOTWORD_STREAM =? HOTWORD_STREAM.

Definition find_pinned_device (rstream : cras_rstream) : main_prog (option Z) :=
  if negb (rs_is_pinned rstream) then ret None else
  let* dev := find_dev (rs_pinned_dev_idx rstream) in
  if negb (is_hotword_stream rstream) then ret dev else
  let* invalid := match dev with
                  | Some k => let* n := active_node k in ret (negb (nd_type n =? CRAS_NODE_TYPE_HOTWORD))
                  | None => ret false
                  end in
  if invalid : bool then ret None else
  let* s := gets id in ret (if ms_hotword_suspended s then ms_empty_hotword_dev s else dev).

Definition pinned_stream_added (p : Z) (rstream : cras_rstream) : main_prog Z :=
  let* dev := find_pinned_device rstream in
  match dev with
  | None => ret (- EINVAL)
  | Some k =>
      let* rc := init_pinned_device k rstream in
      if negb (rc =? 0) then schedule_init_device_retry k else add_stream_to_open_devs p rstream [k]
  end.

(** An enabled device that the stream is to play on is opened; no more than ten
    are taken. *)
Definition init_for_stream (rstream : cras_rstream) (e : Z * Z) (iodevs : list Z) : main_prog (list Z) :=
  if 10 <=? Z.of_nat (length iodevs) then ret iodevs else
  let* rc := init_device e.2 rstream in
  if negb (rc =? 0) then let* _ := schedule_init_device_retry e.2 in ret iodevs else ret (iodevs ++ [e.2]).

Definition stream_added_cb (p : Z) (rstream : cras_rstream) : main_prog Z :=
  let* s := gets id in
  if ms_stream_list_suspended s then ret 0 else
  if rs_is_pinned rstream then pinned_stream_added p rstream else
  let* i := side_at (rs_direction rstream) in
  let* l := enabled_devs i in
  let* iodevs := fold_prog (init_for_stream rstream) l [] in
  match iodevs with
  | [] => possibly_enable_fallback i true ;; ret 0
  | _ => add_stream_to_open_devs p rstream iodevs
  end.

(** An output device is left to play what it has. *)
Definition leave_idle (k : Z) : main_prog unit :=
  let* now := on_thread clock_gettime in
  let* timeout := here (add_timespecs now idle_timeout_interval) in
  on_iodev k (set_dev (fun d => d <| io_idle_timeout := timeout |>)) ;;
  idle_dev_check.

Definition possibly_close_enabled_devs (i : side) (dir : Z) : main_prog Z :=
  let* l := all_streams in
  if existsb (fun e : Z * cras_rstream => (rs_direction e.2 =? dir) && negb (rs_is_pinned e.2)) l then ret 0 else
  let* enabled := enabled_devs i in
  each (fun e =>
    let* d := iodev e.2 in
    let* pinned := has_pinned_stream (io_idx d) in
    if pinned : bool then ret tt else if dir =? CRAS_STREAM_INPUT then close_dev e.2 else leave_idle e.2) enabled ;;
  ret 0.

Definition pinned_stream_removed (rstream : cras_rstream) : main_prog unit :=
  let* dev := find_pinned_device rstream in
  match dev with
  | None => ret tt
  | Some k =>
      let* enabled := cras_iodev_list_dev_is_enabled k in
      let* d := iodev k in
      let* pinned := has_pinned_stream (io_idx d) in
      if negb enabled && negb pinned then let* _ := close_pinned_device k in ret tt else ret tt
  end.

(** The milliseconds that the stream still plays. *)
Definition stream_removed_cb (p : Z) (rstream : cras_rstream) : main_prog Z :=
  let* rc := ask (fun _ => audio_thread_drain_stream p) in
  if negb (rc =? 0) then ret rc else
  (if rs_is_pinned rstream then pinned_stream_removed rstream else ret tt) ;;
  let* i := side_at (rs_direction rstream) in
  let* _ := possibly_close_enabled_devs i (rs_direction rstream) in
  ret 0.

(** ** Suspending *)

Definition suspend_stream (p : Z) (rstream : cras_rstream) : main_prog unit :=
  if negb (rs_is_pinned rstream) then let* _ := ask (fun _ => audio_thread_disconnect_stream p None) in ret tt else
  if is_hotword_stream rstream then ret tt else
  let* dev := find_dev (rs_pinned_dev_idx rstream) in
  match dev with
  | None => ret tt
  | Some k =>
      let* _ := ask (fun _ => audio_thread_disconnect_stream p (Some k)) in
      let* enabled := cras_iodev_list_dev_is_enabled k in
      if enabled : bool then ret tt else close_dev k
  end.

Definition suspend_devs : main_prog unit :=
  let* l := all_streams in
  each (fun e => suspend_stream e.1 e.2) l ;;
  set_main (fun s => s <| ms_stream_list_suspended := true |>) ;;
  let* outputs := enabled_devs Playback in
  each (fun e => close_dev e.2) outputs ;;
  let* inputs := enabled_devs Capture in
  each (fun e => close_dev e.2) inputs.

Definition has_output_stream : main_prog bool :=
  gets (fun s => existsb (fun e : Z * cras_rstream => rs_direction e.2 =? CRAS_STREAM_OUTPUT) (streams (ms_stream_list s))).

Definition resume_devs : main_prog unit :=
  set_main (fun s => s <| ms_stream_list_suspended := false |>) ;;
  let* has_output_stream := has_output_stream in
  let* outputs := enabled_devs Playback in
  (if has_output_stream : bool then
     each (fun e => on_iodev e.2 (set_dev (fun d => d <| io_initial_ramp_request := CRAS_IODEV_RAMP_REQUEST_RESUME_MUTE |>))) outputs
   else ret tt) ;;
  let* l := all_streams in
  each (fun e => if is_hotword_stream e.2 then ret tt else let* _ := stream_added_cb e.1 e.2 in ret tt) l.

Definition sys_suspend_change (suspended : bool) : main_prog unit :=
  if suspended then suspend_devs else resume_devs.

(** [q] is the retry whose timer has expired. *)
Definition init_device_cb (q : Z) : main_prog unit :=
  let* s := gets id in
  let* r := here (dl_find (ms_init_retries s) q) in
  let* dev := find_dev (dev_idx r) in
  let* l := here (dl_delete (ms_init_retries s) q) in
  set_main (fun s => s <| ms_init_retries := l |>) ;;
  match dev with
  | None => ret tt
  | Some k =>
      let* d := iodev k in
      if cras_iodev_is_open d then ret tt else
      let* rc := init_and_attach_streams k in
      if rc <? 0 then ret tt else
      let* i := side_at (io_direction d) in possibly_disable_fallback i
  end.

(** ** The timers of the main loop *)

Definition run_timer (fn data : Z) : main_prog unit :=
  if fn =? idle_dev_check_fn then idle_dev_check
  else if fn =? init_device_cb_fn then init_device_cb data else here None.

Definition call_timers (n : nat) (now : timespec) : main_prog (list Z) := fun s =>
  match cras_tm_call_callbacks (fun fn _ data s tm =>
          '(_, s) ← run_timer fn data (s <| ms_tm := tm |>); Some (s, ms_tm s)) n now s (ms_tm s) with
  | Some (s, tm, fired) => Some (fired, s <| ms_tm := tm |>)
  | None => None
  end.

(** ** The exported functions *)

Definition get_active_node_id (i : side) : main_prog Z :=
  let* l := enabled_devs i in
  match l with
  | [] => ret 0
  | (_, k) :: _ =>
      let* d := iodev k in
      let* n := here (find_active_node d) in
      ret match n with None => 0 | Some n => cras_make_node_id (io_idx d) (nd_idx n) end
  end.
Definition cras_iodev_list_get_active_node_id : side -> main_prog Z := get_active_node_id.

Definition dir_of (i : side) : Z := match i with Playback => CRAS_STREAM_OUTPUT | Capture => CRAS_STREAM_INPUT end.

Definition cras_iodev_list_notify_nodes_changed : main_prog unit := tell NotifyNodes.

Definition cras_iodev_list_notify_active_node_changed (i : side) : main_prog unit :=
  let* id := cras_iodev_list_get_active_node_id i in tell (NotifyActiveNode (dir_of i) id).

Definition cras_iodev_list_enable_dev (k : Z) : main_prog unit :=
  let* d := iodev k in
  let* i := side_at (io_direction d) in
  possibly_disable_fallback i ;;
  activate k ;;
  let* _ := enable_device k in
  cras_iodev_list_notify_active_node_changed i.

(** The device's place on the list, the last if there were several. *)
Definition place_of (k : Z) (l : dlist Z) : option Z := last (addrs (filter (fun e => e.2 = k) l)).

Definition cras_iodev_list_disable_dev (k : Z) (force_close : bool) : main_prog unit :=
  let* d := iodev k in
  let* i := side_at (io_direction d) in
  let* l := enabled_devs i in
  match place_of k l with
  | None => if force_close then let* _ := force_close_pinned_only_device k in ret tt else ret tt
  | Some q =>
      let* f := fallback_devs i in
      (match f with
       | Some fk => if forallb (fun e => e.2 =? k) l then let* _ := enable_device fk in ret tt else ret tt
       | None => ret tt
       end) ;;
      let* _ := disable_device i q force_close in
      cras_iodev_list_notify_active_node_changed i
  end.

Definition cras_iodev_list_add_active_node (i : side) (node_id : Z) : main_prog unit :=
  let* new_dev := find_dev (dev_index_of node_id) in
  match new_dev with
  | None => ret tt
  | Some k =>
      let* d := iodev k in
      if negb (io_direction d =? dir_of i) then ret tt else
      let* enabled := cras_iodev_list_dev_is_enabled k in
      let* same := if enabled : bool then let* n := active_node k in ret (node_index_of node_id =? nd_idx n) else ret false in
      if same : bool then ret tt else
      (if enabled then cras_iodev_list_disable_dev k true else ret tt) ;;
      on_iodev k (update_active_node (node_index_of node_id) 1) ;;
      cras_iodev_list_enable_dev k
  end.

Definition cras_iodev_list_rm_active_node (node_id : Z) : main_prog unit :=
  let* dev := find_dev (dev_index_of node_id) in
  match dev with None => ret tt | Some k => cras_iodev_list_disable_dev k false end.

Definition cras_iodev_list_suspend_dev (idx : Z) : main_prog unit :=
  let* dev := find_dev idx in
  match dev with
  | None => ret tt
  | Some k =>
      let* d := iodev k in
      disconnect_streams k (fun r => (rs_direction r =? io_direction d) &&
        ((io_is_enabled d && negb (rs_is_pinned r)) || (rs_is_pinned r && negb (io_idx d =? rs_pinned_dev_idx r)))) ;;
      close_dev k ;;
      deactivate k
  end.

Definition cras_iodev_list_resume_dev (idx : Z) : main_prog unit :=
  let* dev := find_dev idx in
  match dev with
  | None => ret tt
  | Some k =>
      activate k ;;
      let* rc := init_and_attach_streams k in
      if rc =? 0 then
        let* pinned := has_pinned_stream idx in
        if pinned : bool then ret tt else
        let* d := iodev k in let* i := side_at (io_direction d) in possibly_disable_fallback i
      else let* _ := schedule_init_device_retry k in ret tt
  end.

Definition cras_iodev_list_set_dev_mute (idx : Z) : main_prog unit :=
  let* dev := find_dev idx in
  match dev with None => ret tt | Some k => let* _ := on_iodev k cras_iodev_set_mute in ret tt end.

Definition cras_iodev_list_add_output (k : Z) : main_prog Z :=
  let* d := iodev k in
  if negb (io_direction d =? CRAS_STREAM_OUTPUT) then ret (- EINVAL) else
  let* rc := add_dev_to_list k in ret rc.

Definition cras_iodev_list_add_input (k : Z) : main_prog Z :=
  let* d := iodev k in
  if negb (io_direction d =? CRAS_STREAM_INPUT) then ret (- EINVAL) else
  let* rc := add_dev_to_list k in ret rc.

Definition cras_iodev_list_rm_output (k : Z) : main_prog Z :=
  cras_iodev_list_disable_dev k true ;;
  let* res := rm_dev_from_list k in
  (if res =? 0 then cras_iodev_list_update_device_list else ret tt) ;; ret res.

Definition cras_iodev_list_rm_input (k : Z) : main_prog Z :=
  cras_iodev_list_disable_dev k true ;;
  let* res := rm_dev_from_list k in
  (if res =? 0 then cras_iodev_list_update_device_list else ret tt) ;; ret res.

Definition cras_iodev_list_get_outputs (malloc_ok : bool) : main_prog (Z * option (list Z)) := get_dev_list malloc_ok Playback.
Definition cras_iodev_list_get_inputs (malloc_ok : bool) : main_prog (Z * option (list Z)) := get_dev_list malloc_ok Capture.

Definition cras_iodev_list_get_first_enabled_iodev (i : side) : main_prog (option Z) :=
  let* l := enabled_devs i in ret (snd <$> head l).

(** The first device that has a node for SCO over PCM. *)
Definition cras_iodev_list_get_sco_pcm_iodev (i : side) : main_prog (option Z) :=
  let* list := devs i in
  fold_prog (fun k (found : option Z) =>
    match found with
    | Some _ => ret found
    | None =>
        let* d := iodev k in
        ret (if existsb (fun e : Z * cras_ionode => negb (nd_is_sco_pcm e.2 =? 0)) (io_nodes d) then Some k else None)
    end) (iodevs list) None.

(** ** Selecting a node *)

(** The enabled devices other than the fallback make way: those that are not
    the new one without disturbing the streams pinned to them, the new one when
    another of its nodes is to be used. *)
Definition make_way (i : side) (f new_dev : option Z) (already_enabled : bool) (e : Z * Z) : main_prog unit :=
  if bool_decide (f = Some e.2) then ret tt
  else if bool_decide (new_dev <> Some e.2) then let* _ := disable_device i e.1 false in ret tt
  else if negb already_enabled then let* _ := disable_device i e.1 true in ret tt
  else ret tt.

Definition node_already_enabled (new_dev : option Z) (node_id : Z) (l : dlist Z) : main_prog bool :=
  fold_prog (fun e (found : bool) =>
    if found then ret true
    else if bool_decide (new_dev = Some e.2) then
      let* n := active_node e.2 in ret (nd_idx n =? node_index_of node_id)
    else ret false) l false.

Definition switch_to (i : side) (k node_id : Z) : main_prog unit :=
  on_iodev k (update_active_node (node_index_of node_id) 1) ;;
  let* has_output_stream := has_output_stream in
  (if (dir_of i =? CRAS_STREAM_OUTPUT) && has_output_stream
   then on_iodev k (set_dev (fun d => d <| io_initial_ramp_request := CRAS_IODEV_RAMP_REQUEST_SWITCH_MUTE |>)) else ret tt) ;;
  let* rc := enable_device k in
  if rc =? 0 then possibly_disable_fallback i else ret tt.

Definition cras_iodev_list_select_node (i : side) (node_id : Z) : main_prog unit :=
  let* new_dev := find_dev (dev_index_of node_id) in
  let* mismatch := match new_dev with
                   | Some k => let* d := iodev k in ret (negb (io_direction d =? dir_of i))
                   | None => ret false
                   end in
  if mismatch : bool then ret tt else
  let* l := enabled_devs i in
  let* already_enabled := node_already_enabled new_dev node_id l in
  (if negb already_enabled then possibly_enable_fallback i false else ret tt) ;;
  let* l := enabled_devs i in
  let* f := fallback_devs i in
  each (make_way i f new_dev already_enabled) l ;;
  (match new_dev with
   | Some k => if negb already_enabled then switch_to i k node_id else ret tt
   | None => ret tt
   end) ;;
  cras_iodev_list_notify_active_node_changed i.

(** ** Hotword streams *)

(** The first hotword stream, with its device. *)
Fixpoint find_hotword_stream (l : dlist cras_rstream) : option cras_rstream :=
  match l with
  | [] => None
  | (_, r) :: l => if is_hotword_stream r then Some r else find_hotword_stream l
  end.

(** [inl] is an error. *)
Definition find_hotword_stream_dev : main_prog (Z + option (Z * cras_rstream)) :=
  let* l := all_streams in
  match find_hotword_stream l with
  | None => ret (inr None)
  | Some r =>
      let* dev := find_dev (rs_pinned_dev_idx r) in
      ret match dev with None => inl (- ENOENT) | Some k => inr (Some (k, r)) end
  end.

(** Moves the streams of the hotword device from one device to the other. *)
Definition move_hotword_streams (hotword_dev from to : Z) : main_prog unit :=
  let* l := all_streams in
  each (fun e =>
    if negb (is_hotword_stream e.2) then ret tt else
    let* d := iodev hotword_dev in
    if negb (rs_pinned_dev_idx e.2 =? io_idx d) then ret tt else
    let* _ := ask (fun _ => audio_thread_disconnect_stream e.1 (Some from)) in
    let* _ := ask (fun a => audio_thread_add_stream a e.1 [to]) in ret tt) l.

Definition move_hotword (suspend : bool) : main_prog Z :=
  let* found := find_hotword_stream_dev in
  match found with
  | inl rc => ret rc
  | inr None => set_main (fun s => s <| ms_hotword_suspended := suspend |>) ;; ret 0
  | inr (Some (hotword_dev, stream)) =>
      let* s := gets id in
      let* empty := here (ms_empty_hotword_dev s) in
      let '(from, to) := if suspend then (hotword_dev, empty) else (empty, hotword_dev) in
      let* _ := init_pinned_device to stream in
      move_hotword_streams hotword_dev from to ;;
      let* _ := close_pinned_device from in
      set_main (fun s => s <| ms_hotword_suspended := suspend |>) ;;
      ret 0
  end.

Definition cras_iodev_list_suspend_hotword_streams : main_prog Z := move_hotword true.
Definition cras_iodev_list_resume_hotword_stream : main_prog Z := move_hotword false.

(** The device that a hotword model can be asked of. *)
Definition hotword_models_of (node_id : Z) : main_prog (option (Z * iodev_prog (option (list Z)))) :=
  let* dev := find_dev (dev_index_of node_id) in
  match dev with
  | None => ret None
  | Some k =>
      let* d := iodev k in
      match get_hotword_models d with
      | None => ret None
      | Some op => let* n := active_node k in ret (if nd_type n =? CRAS_NODE_TYPE_HOTWORD then Some (k, op) else None)
      end
  end.

Definition cras_iodev_list_get_hotword_models (node_id : Z) : main_prog (option (list Z)) :=
  let* found := hotword_models_of node_id in
  match found with None => ret None | Some (k, op) => on_iodev k op end.

(** [strncpy] of all but the last byte. *)
Definition copy_model (name old : list Z) : list Z :=
  let n := (length old - 1)%nat in take n (name ++ replicate n 0) ++ drop n old.

Definition cras_iodev_list_set_hotword_model (node_id : Z) (model_name : list Z) : main_prog Z :=
  let* found := hotword_models_of node_id in
  match found with
  | None => ret (- EINVAL)
  | Some (k, _) =>
      let* rc := on_iodev k (set_hotword_model model_name) in
      (if rc =? 0 then
         let* d := iodev k in
         let* p := here (io_active_node d) in
         on_iodev k (update_node p (fun n => n <| nd_active_hotword_model ::= copy_model model_name |>))
       else ret tt) ;; ret rc
  end.

(** ** Attributes of nodes *)

Inductive ionode_attr : Type :=
| IONODE_ATTR_PLUGGED
| IONODE_ATTR_VOLUME
| IONODE_ATTR_CAPTURE_GAIN
| IONODE_ATTR_SWAP_LEFT_RIGHT
| IONODE_ATTR_OTHER.

Definition the_node (k p : Z) : main_prog cras_ionode := let* d := iodev k in here (dl_find (io_nodes d) p).

Definition node_id_of (k p : Z) : main_prog Z :=
  let* d := iodev k in let* n := the_node k p in ret (cras_make_node_id (io_idx d) (nd_idx n)).

Definition cras_iodev_list_notify_node_volume (k p : Z) : main_prog unit :=
  let* id := node_id_of k p in
  cras_iodev_list_update_device_list ;;
  let* n := the_node k p in tell (NotifyOutputNodeVolume id (nd_volume n)).

Definition cras_iodev_list_notify_node_left_right_swapped (k p : Z) : main_prog unit :=
  let* id := node_id_of k p in
  cras_iodev_list_update_device_list ;;
  let* n := the_node k p in tell (NotifyNodeLeftRightSwapped id (nd_left_right_swapped n)).

Definition cras_iodev_list_notify_node_capture_gain (k p : Z) : main_prog unit :=
  let* id := node_id_of k p in
  cras_iodev_list_update_device_list ;;
  let* n := the_node k p in tell (NotifyInputNodeGain id (nd_capture_gain n)).

(** Runs [f] at the node of that index. *)
Definition at_node (k node_idx : Z) (f : Z -> main_prog Z) : main_prog Z :=
  let* d := iodev k in
  match find_node d node_idx with None => ret (- EINVAL) | Some p => f p end.

Definition set_node_plugged (k node_idx plugged : Z) : main_prog Z :=
  at_node k node_idx (fun p =>
    let* now := on_thread clock_gettime in on_iodev k (cras_iodev_set_node_plugged p plugged now) ;; ret 0).

Definition call_op (k : Z) (op : cras_iodev hw -> option (iodev_prog unit)) : main_prog unit :=
  let* d := iodev k in match op d with Some m => on_iodev k m | None => ret tt end.

Definition set_node_volume (k node_idx volume : Z) : main_prog Z :=
  at_node k node_idx (fun p =>
    let* d := iodev k in
    let* n := the_node k p in
    let* needed := match io_ramp d with
                   | Some _ =>
                       let* needed := here (cras_iodev_software_volume_needed d) in
                       on_iodev k (let* v := get_srv in ret (needed && negb (sv_mute v)))
                   | None => ret false
                   end in
    (if needed : bool then let* _ := on_iodev k (cras_iodev_start_volume_ramp (nd_volume n) volume) in ret tt else ret tt) ;;
    on_iodev k (update_node p (fun n => n <| nd_volume := u32 volume |>)) ;;
    call_op k set_volume ;;
    cras_iodev_list_notify_node_volume k p ;;
    ret 0).

Definition set_node_capture_gain (k node_idx value : Z) : main_prog Z :=
  at_node k node_idx (fun p =>
    let value := if value <? 0 then 0 else value in
    let value := if value >? 100 then 100 else value in
    on_iodev k (update_node p (fun n => n <| nd_ui_gain_scaler := convert_softvol_scaler_from_dB ((value - 50) * 80) |>)) ;;
    call_op k set_capture_gain ;;
    cras_iodev_list_notify_node_capture_gain k p ;;
    ret 0).

Definition set_node_left_right_swapped (k node_idx left_right_swapped : Z) : main_prog Z :=
  let* d := iodev k in
  match set_swap_mode_for_node d with
  | None => ret (- EINVAL)
  | Some op =>
      at_node k node_idx (fun p =>
        let* rc := on_iodev k (op p left_right_swapped) in
        if negb (rc =? 0) then ret rc else
        on_iodev k (update_node p (fun n => n <| nd_left_right_swapped := left_right_swapped |>)) ;;
        cras_iodev_list_notify_node_left_right_swapped k p ;;
        ret 0)
  end.

Definition cras_iodev_list_set_node_attr (node_id : Z) (attr : ionode_attr) (value : Z) : main_prog Z :=
  let* dev := find_dev (dev_index_of node_id) in
  match dev with
  | None => ret (- EINVAL)
  | Some k =>
      match attr with
      | IONODE_ATTR_PLUGGED => set_node_plugged k (node_index_of node_id) value
      | IONODE_ATTR_VOLUME => set_node_volume k (node_index_of node_id) value
      | IONODE_ATTR_CAPTURE_GAIN => set_node_capture_gain k (node_index_of node_id) value
      | IONODE_ATTR_SWAP_LEFT_RIGHT => set_node_left_right_swapped k (node_index_of node_id) value
      | IONODE_ATTR_OTHER => ret (- EINVAL)
      end
  end.

(** ** Callbacks and loopbacks *)

(** Callbacks with the same data are replaced; 0 is [NULL]. *)
Definition cras_iodev_list_set_device_enabled_callback (q enabled disabled data : Z) : main_prog Z :=
  set_main (fun s => s <| ms_device_enable_cbs ::= filter (fun e => cb_data e.2 <> data) |>) ;;
  (if negb (enabled =? 0) && negb (disabled =? 0)
   then set_main (fun s => s <| ms_device_enable_cbs ::= fun l => dl_append l q (EnabledCb enabled disabled data) |>)
   else ret tt) ;; ret 0.

(** [malloc_ok] is whether [calloc] succeeds. *)
Definition cras_iodev_list_register_loopback (malloc_ok : bool) (loopback_type : CRAS_LOOPBACK_TYPE)
    (output_dev_idx : Z) (hook_control : bool) (loopback_dev_idx : Z) : main_prog unit :=
  let* dev := find_dev output_dev_idx in
  match dev with
  | None => ret tt
  | Some k =>
      let* loopback_dev := find_dev loopback_dev_idx in
      match loopback_dev with
      | None => ret tt
      | Some lk =>
          let* d := iodev k in
          if negb malloc_ok then ret tt else
          (if hook_control && cras_iodev_is_open d then on_iodev k (emit (LoopbackControl lk true)) else ret tt) ;;
          on_iodev k (set_dev (fun d => d <| io_loopbacks ::= fun l => l ++ [Loopback loopback_type hook_control lk] |>))
      end
  end.

Definition cras_iodev_list_unregister_loopback (type : CRAS_LOOPBACK_TYPE) (output_dev_idx loopback_dev_idx : Z) : main_prog unit :=
  let* dev := find_dev output_dev_idx in
  match dev with
  | None => ret tt
  | Some k =>
      let* loopback_dev := find_dev loopback_dev_idx in
      match loopback_dev with
      | None => ret tt
      | Some lk =>
          on_iodev k (set_dev (fun d => d <| io_loopbacks ::=
            filter (fun l => negb ((lb_cb_data l =? lk) && bool_decide (lb_type l = type))) |>))
      end
  end.

(** ** Starting up *)

(** The fallback devices are the ones that [empty_iodev_create] has made; what
    creates the loopback devices is [loopbacks]; [rc] is what [pthread_create]
    gives.  Creating the stream list and the thread's own data is done. *)
Definition cras_iodev_list_init (output input hotword rc msg_fd : Z) (loopbacks : main_prog unit) : main_prog unit :=
  set_main (fun s => s <| ms_idle_timer := None |> <| ms_stream_list := stream_list_create |>
                       <| ms_fallback_output := Some output |> <| ms_fallback_input := Some input |>) ;;
  let* _ := enable_device output in
  let* _ := enable_device input in
  set_main (fun s => s <| ms_empty_hotword_dev := Some hotword |>) ;;
  loopbacks ;;
  let* _ := on_audio (audio_thread_start rc msg_fd) in
  cras_iodev_list_update_device_list.

Definition cras_iodev_list_reset : main_prog unit :=
  set_main (fun s => s <| ms_enabled_outputs := [] |> <| ms_enabled_inputs := [] |>
                       <| ms_outputs := IodevList [] 0 |> <| ms_inputs := IodevList [] 0 |>).
End DeviceList.
