(* ===== verification/Alert.v ===== *)
(** * Alerts (server/cras_alert.c)

    Changes in the server are announced by setting an alert pending; later, in
    the main loop, the alert's callbacks are called, with each of the data that
    was left for them or once without.  Callbacks may change any alert. *)
From coqutil Require Import Datatypes.RecordSetters.
From S2P Require Import Prelude Prog DList.
Import TriangleBracketNotations.
#[local] Open Scope Z_scope.
#[local] Open Scope prog_scope.

Definition CRAS_ALERT_FLAG_KEEP_ALL_DATA : Z := 1.

(** A callback is a function and its argument. *)
Record cras_alert_cb_list : Type := AlertCb { ac_callback : Z; ac_arg : Z }.

#[export] Instance alert_cb_eq_dec : EqDecision cras_alert_cb_list.
Proof. solve_decision. Defined.

(** [al_prepare] is [None] for [NULL]; a piece of data is its bytes. *)
Record cras_alert : Type := Alert {
  al_pending : bool;
  al_flags : Z;
  al_prepare : option Z;
  al_callbacks : dlist cras_alert_cb_list;
  al_data : dlist (list Z)
}.

Section Alerts.
(** The rest of the server. *)
Context {world : Type}.

Record alerts : Type := Alerts {
  all_alerts : dlist cras_alert;
  has_alert_pending : bool;
  rest : world
}.

Definition alert_prog : Type -> Type := prog alerts.

(** What is called through pointers; data is [None] for [NULL]. *)
Class alert_functions : Type := {
  call_prepare : Z -> Z -> alert_prog unit;
  call_callback : Z -> Z -> option (list Z) -> alert_prog unit
}.

Definition set_alerts (f : alerts -> alerts) : alert_prog unit := modify f.

Definition the_alert (p : Z) : alert_prog cras_alert :=
  let* s := gets id in here (dl_find (all_alerts s) p).

Definition update_alert (p : Z) (f : cras_alert -> cras_alert) : alert_prog unit :=
  let* s := gets id in
  let* l := here (dl_update (all_alerts s) p f) in set_alerts (fun s => s <| all_alerts := l |>).

(** [p] is what [calloc] gives, [None] when there is no memory. *)
Definition cras_alert_create (p : option Z) (prepare : option Z) (flags : Z) : alert_prog (option Z) :=
  match p with
  | None => ret None
  | Some p => set_alerts (fun s => s <| all_alerts ::= fun l => dl_append l p (Alert false flags prepare [] []) |>) ;; ret (Some p)
  end.

(** [cb] is 0 for [NULL]. *)
Definition cras_alert_add_callback (q : option Z) (alert cb arg : Z) : alert_prog Z :=
  if cb =? 0 then ret (- EINVAL) else
  let* a := the_alert alert in
  if existsb (fun e => bool_decide (e.2 = AlertCb cb arg)) (al_callbacks a) then ret (- EEXIST) else
  match q with
  | None => ret (- ENOMEM)
  | Some q => update_alert alert (fun a => a <| al_callbacks ::= fun l => dl_append l q (AlertCb cb arg) |>) ;; ret 0
  end.

Definition cras_alert_rm_callback (alert cb arg : Z) : alert_prog Z :=
  let* a := the_alert alert in
  match dl_search (al_callbacks a) (fun c => bool_decide (c = AlertCb cb arg)) with
  | None => ret (- ENOENT)
  | Some (q, _) =>
      let* l := here (dl_delete (al_callbacks a) q) in
      update_alert alert (fun a => a <| al_callbacks := l |>) ;; ret 0
  end.

Definition cras_alert_pending (alert : Z) : alert_prog unit :=
  update_alert alert (fun a => a <| al_pending := true |>) ;;
  set_alerts (fun s => s <| has_alert_pending := true |>).

(** Unless all data is kept, the new piece replaces the one there is; what
    [calloc] gives for it, [q], is not tested. *)
Definition cras_alert_pending_data (q alert : Z) (data : list Z) : alert_prog unit :=
  update_alert alert (fun a => a <| al_pending := true |>) ;;
  set_alerts (fun s => s <| has_alert_pending := true |>) ;;
  update_alert alert (fun a => a <| al_data ::= fun l =>
    dl_append (if Z.land (al_flags a) CRAS_ALERT_FLAG_KEEP_ALL_DATA =? 0 then [] else l) q data |>).

Section Process.
Context {F : alert_functions}.

(** [DL_FOREACH] over an alert's callbacks, from the one at [cur]. *)
Fixpoint call_callbacks (n : nat) (alert : Z) (data : option (list Z)) (cur : option Z) : alert_prog unit :=
  match cur with
  | None => ret tt
  | Some q =>
      match n with
      | O => here None
      | S n =>
          let* a := the_alert alert in
          let* c := here (dl_find (al_callbacks a) q) in
          let* next := here (dl_next (al_callbacks a) q) in
          call_callback (ac_callback c) (ac_arg c) data ;;
          call_callbacks n alert data next
      end
  end.

(** The data from the piece at [cur] on. *)
Fixpoint pass_data (n fuel : nat) (alert : Z) (cur : option Z) : alert_prog unit :=
  match cur with
  | None => ret tt
  | Some q =>
      match n with
      | O => here None
      | S n =>
          let* a := the_alert alert in
          let* data := here (dl_find (al_data a) q) in
          let* next := here (dl_next (al_data a) q) in
          call_callbacks fuel alert (Some data) (dl_head (al_callbacks a)) ;;
          let* a := the_alert alert in
          let* l := here (dl_delete (al_data a) q) in
          update_alert alert (fun a => a <| al_data := l |>) ;;
          pass_data n fuel alert next
      end
  end.

Definition cras_alert_process (fuel : nat) (alert : Z) : alert_prog unit :=
  let* a := the_alert alert in
  if negb (al_pending a) then ret tt else
  update_alert alert (fun a => a <| al_pending := false |>) ;;
  (match al_prepare a with Some f => call_prepare f alert | None => ret tt end) ;;
  let* a := the_alert alert in
  (match al_data a with [] => call_callbacks fuel alert None (dl_head (al_callbacks a)) | _ => ret tt end) ;;
  let* a := the_alert alert in
  pass_data fuel fuel alert (dl_head (al_data a)).

Fixpoint process_all (n fuel : nat) (cur : option Z) : alert_prog unit :=
  match cur with
  | None => ret tt
  | Some p =>
      match n with
      | O => here None
      | S n =>
          let* s := gets id in
          let* next := here (dl_next (all_alerts s) p) in
          cras_alert_process fuel p ;; process_all n fuel next
      end
  end.

(** The loop ends when a pass leaves nothing pending; [n] bounds the passes. *)
Fixpoint cras_alert_process_all_pending_alerts (n fuel : nat) : alert_prog unit :=
  let* s := gets id in
  if negb (has_alert_pending s) then ret tt else
  match n with
  | O => here None
  | S n =>
      set_alerts (fun s => s <| has_alert_pending := false |>) ;;
      let* s := gets id in
      process_all fuel fuel (dl_head (all_alerts s)) ;;
      cras_alert_process_all_pending_alerts n fuel
  end.
End Process.

Definition cras_alert_destroy (alert : option Z) : alert_prog unit :=
  match alert with
  | None => ret tt
  | Some p =>
      let* s := gets id in
      let* l := here (dl_delete (all_alerts s) p) in set_alerts (fun s => s <| all_alerts := l |>)
  end.

Definition cras_alert_destroy_all : alert_prog unit :=
  let* s := gets id in each (fun p => cras_alert_destroy (Some p)) (addrs (all_alerts s)).

(** ** Nothing stays pending *)

Definition pending_at (s : alerts) (p : Z) : Prop := exists a, dl_find (all_alerts s) p = Some a /\ al_pending a = true.

(** What is set pending is remembered; alerts may be added, after the others. *)
Definition remembers (s s' : alerts) : Prop :=
  addrs (all_alerts s) `prefix_of` addrs (all_alerts s') /\ (NoDup (addrs (all_alerts s)) -> NoDup (addrs (all_alerts s'))) /\
  (has_alert_pending s = true -> has_alert_pending s' = true) /\
  (forall p, pending_at s' p -> pending_at s p \/ has_alert_pending s' = true).

#[export] Instance remembers_preorder : PreOrder remembers.
Proof.
  split.
  - intros s. split_and!; [done|done|done|]. by left.
  - intros s1 s2 s3 (A1 & B1 & C1 & D1) (A2 & B2 & C2 & D2). split_and!; [by etrans|tauto|tauto|].
    intros p [H|H]%D2; [|by right]. destruct (D1 p H) as [H'|H']; [by left|right; auto].
Qed.

Lemma update_alert_spec p f s :
  yields (update_alert p f) s (fun _ s1 => exists l, dl_update (all_alerts s) p f = Some l /\ s1 = s <| all_alerts := l |>).
Proof.
  unfold update_alert. apply yields_gets, yields_bind, yields_here. intros l Hl. unfold set_alerts. prog_step. by exists l.
Qed.

Lemma update_remembers p f : (forall a, al_pending (f a) = true -> al_pending a = true) -> respects remembers (update_alert p f).
Proof.
  intros Hf s. eapply yields_mono; [apply update_alert_spec|]. intros _ s' (l & Hl & ->).
  split_and!; simpl; unfold constant; [by rewrite (addrs_update _ _ _ _ Hl)..|done|].
  intros q (a & Ha & Hp). left. simpl in Ha. unfold constant in Ha. rewrite (dl_find_update _ _ _ _ _ Hl) in Ha.
  destruct (Z.eqb_spec q p) as [->|]; [|by exists a]. apply fmap_Some in Ha as (b & Hb & ->). exists b. auto.
Qed.

Lemma clearing p s :
  yields (update_alert p (fun a => a <| al_pending := false |>)) s (fun _ s1 => ~ pending_at s1 p).
Proof.
  eapply yields_mono; [apply update_alert_spec|]. intros _ s' (l & Hl & ->) (b & Hb & Hpb).
  change (dl_find l p = Some b) in Hb. rewrite (dl_find_update _ _ _ _ _ Hl), Z.eqb_refl in Hb.
  by apply fmap_Some in Hb as (c & _ & ->).
Qed.

(** Callbacks may set alerts pending, add and remove callbacks and create
    alerts. *)
Section Lost.
Context {F : alert_functions}.
Hypothesis prepare_remembers : forall f p, respects remembers (call_prepare f p).
Hypothesis callback_remembers : forall cb arg data, respects remembers (call_callback cb arg data).
#[local] Hint Resolve prepare_remembers callback_remembers : respects.
#[local] Hint Extern 2 (respects remembers (update_alert _ _)) => (apply update_remembers; by intros) : respects.

Lemma the_alert_remembers p : respects remembers (the_alert p).
Proof using. unfold the_alert. respect. Qed.
#[local] Hint Resolve the_alert_remembers : respects.

Lemma callbacks_remember n p data cur : respects remembers (call_callbacks n p data cur).
Proof using callback_remembers. revert cur. induction n as [|n IH]; intros [q|]; simpl; respect. Qed.
#[local] Hint Resolve callbacks_remember : respects.

Lemma data_remember n fuel p cur : respects remembers (pass_data n fuel p cur).
Proof using callback_remembers. revert cur. induction n as [|n IH]; intros [q|]; simpl; respect. Qed.
#[local] Hint Resolve data_remember : respects.

(** An alert that has been processed is pending only if that is remembered. *)
Lemma processed fuel p s :
  yields (cras_alert_process fuel p) s (fun _ s' => remembers s s' /\ (pending_at s' p -> has_alert_pending s' = true)).
Proof using callback_remembers prepare_remembers.
  unfold cras_alert_process. unfold the_alert at 1. apply yields_bind, yields_gets, yields_here. intros a Ha.
  destruct (negb (al_pending a)) eqn:Hp.
  { prog_step. split; [reflexivity|]. intros (b & Hb & Hpb). unfold id in Ha. apply negb_true_iff in Hp. congruence. }
  eapply yields_step with (Q := fun _ s1 => remembers s s1 /\ ~ pending_at s1 p).
  { pose proof (clearing p s) as H1. assert (Hf : forall a, al_pending (a <| al_pending := false |>) = true -> al_pending a = true) by done.
    pose proof (update_remembers p _ Hf s) as H2.
    unfold yields in *. destruct (update_alert _ _ s) as [[? ?]|]; auto. }
  intros _ s1 [H1 Hn]. eapply yields_mono with (Q := fun _ s' => remembers s1 s').
  - match goal with |- yields ?m s1 _ => assert (Hm : respects remembers m) by respect end. apply Hm.
  - intros _ s' H2. split; [by transitivity s1|]. pose proof H2 as (_ & _ & _ & H3). intros [H4|H4]%H3; [done|exact H4].
Qed.

(** A pass from [p] on, after those before it. *)
Lemma pass_spec n fuel s pre p post :
  addrs (all_alerts s) = pre ++ p :: post -> NoDup (addrs (all_alerts s)) ->
  (forall q, q ∈ pre -> pending_at s q -> has_alert_pending s = true) ->
  yields (process_all n fuel (Some p)) s (fun _ s' => forall q, pending_at s' q -> has_alert_pending s' = true).
Proof using callback_remembers prepare_remembers.
  revert s pre p post. induction n as [|n IH]; intros s pre p post Ha Hnd Hpre; [done|].
  cbn [process_all]. apply yields_gets, yields_bind, yields_here. intros next Hnext.
  eapply yields_step; [apply processed|]. intros _ s1 ([[new Hnew] (Hnd1 & Hhas & Hrem)] & Hp).
  assert (Hpre1 : forall q, q ∈ pre ++ [p] -> pending_at s1 q -> has_alert_pending s1 = true).
  { intros q [Hq| ->%list_elem_of_singleton]%elem_of_app Hq1; [|by apply Hp].
    destruct (Hrem q Hq1) as [H1|H1]; [|done]. apply Hhas. by apply (Hpre q). }
  assert (Hl : exists l1 a l2, all_alerts s = l1 ++ (p, a) :: l2 /\ p ∉ addrs l1).
  { apply addrs_middle. rewrite Ha. apply elem_of_app. right. by left. }
  destruct Hl as (l1 & a & l2 & Hl & Hp1). unfold id in Hnext. rewrite Hl, dl_next_app in Hnext by done. injection Hnext as <-.
  assert (Hl2 : addrs l2 = post).
  { rewrite Hl, addrs_app in Ha. simpl in Ha. rewrite Hl, addrs_app in Hnd. simpl in Hnd. rewrite Ha in Hnd.
    assert (Hpp : p ∉ pre) by (apply NoDup_app in Hnd as (_ & H1 & _); intros Hin; apply (H1 p Hin); by left).
    clear -Ha Hpp Hp1. revert pre Ha Hpp. induction l1 as [|[q b] l1 IH]; intros [|x pre] Ha Hpp; simpl in *.
    - by injection Ha.
    - injection Ha as -> _. by destruct Hpp; left.
    - injection Ha as -> _. by destruct Hp1; left.
    - injection Ha as _ Ha. apply (IH ltac:(set_solver) pre Ha). set_solver. }
  destruct l2 as [|[q b] l2]; simpl in *; subst post.
  - assert (Hend : forall q, pending_at s1 q -> has_alert_pending s1 = true).
    { intros q Hq. destruct (Hrem q Hq) as [(c & Hc & _)|H1]; [|done]. apply (Hpre1 q); [|done]. rewrite <- Ha.
      by eapply dl_find_address. }
    by destruct n; simpl; prog_step.
  - apply (IH s1 (pre ++ [p]) q (addrs l2 ++ new)); [|auto|done].
    rewrite Hnew, Ha, <- !app_assoc. simpl. done.
Qed.

Lemma process_remembers fuel p : respects remembers (cras_alert_process fuel p).
Proof using callback_remembers prepare_remembers. intros s. eapply yields_mono; [apply processed|]. by intros ? ? [? _]. Qed.

Lemma pass_remembers n fuel cur : respects remembers (process_all n fuel cur).
Proof using callback_remembers prepare_remembers.
  pose proof process_remembers. revert cur. induction n as [|n IH]; intros [p|]; simpl; respect; auto.
Qed.

(** Between passes: what is pending is remembered. *)
Definition nothing_lost (s : alerts) : Prop :=
  NoDup (addrs (all_alerts s)) /\ forall p, pending_at s p -> has_alert_pending s = true.

(** However the callbacks set alerts pending again, no alert is lost: when the
    loop is left nothing is pending. *)
Theorem no_alert_is_lost n fuel s :
  nothing_lost s -> yields (cras_alert_process_all_pending_alerts n fuel) s (fun _ s' =>
    has_alert_pending s' = false /\ forall p, ~ pending_at s' p).
Proof using callback_remembers prepare_remembers.
  revert s. induction n as [|n IH]; intros s [Hnd Hlost]; cbn [cras_alert_process_all_pending_alerts]; apply yields_gets; unfold id.
  all: destruct (has_alert_pending s) eqn:Hhas; cbn [negb].
  all: try (prog_step; split; [done|]; intros p Hp; by apply Hlost in Hp).
  - done.
  - unfold set_alerts. repeat prog_step. unfold id. set (s1 := s <| has_alert_pending := false |>).
    eapply yields_step with (Q := fun _ s2 => nothing_lost s2).
    2:{ intros u s2 H2. by apply IH. }
    assert (Hs1 : all_alerts s1 = all_alerts s) by done. clearbody s1. apply yields_both.
    + eapply yields_mono; [apply (pass_remembers fuel fuel _ s1)|]. intros u s2 (_ & H2 & _). apply H2. by rewrite Hs1.
    + destruct (all_alerts s1) as [|[p a] l] eqn:Hl; simpl.
      * destruct fuel; simpl; prog_step; intros p (c & Hc & _); by rewrite Hl in Hc.
      * by apply (pass_spec fuel fuel s1 [] p (addrs l)); [rewrite Hl|rewrite Hl, Hs1|intros q ?%not_elem_of_nil].
Qed.
End Lost.
End Alerts.
#[global] Arguments alerts : clear implicits.

(** ** What observers are told *)
Section Observers.

(** Callbacks that write down what they are called with. *)
Definition notes : Type := list (Z * Z * option (list Z)).
#[local] Abbreviation alert_prog := (alert_prog (world := notes)).
#[local] Abbreviation Alerts := (Alerts (world := notes)).
#[local] Instance observers : alert_functions (world := notes) := {|
  call_prepare _ _ := ret tt;
  call_callback cb arg data := modify (fun s => Alerts (all_alerts s) (has_alert_pending s) (rest s ++ [(cb, arg, data)]))
|}.

Definition told_all (l : dlist cras_alert_cb_list) (data : option (list Z)) : notes :=
  (fun e => (ac_callback e.2, ac_arg e.2, data)) <$> l.

(** Each piece of data goes to each callback in turn. *)
Definition told (a : cras_alert) : notes :=
  if negb (al_pending a) then [] else
  match al_data a with
  | [] => told_all (al_callbacks a) None
  | l => concat ((fun e => told_all (al_callbacks a) (Some e.2)) <$> l)
  end.

Definition served (a : cras_alert) : cras_alert :=
  if al_pending a then a <| al_pending := false |> <| al_data := [] |> else a.

Definition alert_ok (fuel : nat) (a : cras_alert) : Prop :=
  NoDup (addrs (al_callbacks a)) /\ NoDup (addrs (al_data a)) /\
  (length (al_callbacks a) <= fuel)%nat /\ (length (al_data a) <= fuel)%nat.

Section One.
Context (fuel : nat) (l1 l2 : dlist cras_alert) (p : Z) (h : bool) (Hp : p ∉ addrs l1).

Lemma runs_the_alert {B} (f : cras_alert -> alert_prog B) a w Q :
  runs (f a) (Alerts (l1 ++ (p, a) :: l2) h w) Q -> runs (bind (the_alert p) f) (Alerts (l1 ++ (p, a) :: l2) h w) Q.
Proof using Hp.
  intros Hf. unfold the_alert. apply runs_bind, runs_gets. by eapply runs_here; [apply dl_find_app|].
Qed.

Lemma runs_update_alert {B} (g : unit -> alert_prog B) f a w Q :
  runs (g tt) (Alerts (l1 ++ (p, f a) :: l2) h w) Q -> runs (bind (update_alert p f) g) (Alerts (l1 ++ (p, a) :: l2) h w) Q.
Proof using Hp.
  intros Hg. unfold update_alert. apply runs_bind, runs_gets, runs_bind. eapply runs_here; [by apply dl_update_app|].
  exact Hg.
Qed.

Lemma callbacks_told n data a c1 c2 w :
  al_callbacks a = c1 ++ c2 -> NoDup (addrs (al_callbacks a)) -> (length c2 <= n)%nat ->
  runs (call_callbacks n p data (dl_head c2)) (Alerts (l1 ++ (p, a) :: l2) h w)
    (fun _ s' => s' = Alerts (l1 ++ (p, a) :: l2) h (w ++ told_all c2 data)).
Proof using Hp.
  revert n c1 w. induction c2 as [|[q c] c2 IH]; intros n c1 w Hc Hnd Hn; simpl in *.
  { destruct n; apply runs_ret; by rewrite app_nil_r. }
  destruct n as [|n]; [lia|]. cbn [call_callbacks]. apply runs_the_alert.
  assert (Hq : q ∉ addrs c1) by (rewrite Hc in Hnd; by apply NoDup_middle in Hnd as (? & _)).
  rewrite Hc. apply runs_bind. eapply runs_here; [by apply dl_find_app|].
  apply runs_bind. eapply runs_here; [by apply dl_next_app|]. apply runs_modify. cbn [all_alerts has_alert_pending rest].
  eapply runs_mono; [apply (IH n (c1 ++ [(q, c)])); [by rewrite <- app_assoc|done|lia]|].
  intros u s' ->. by rewrite <- app_assoc.
Qed.

Lemma data_told n a d w :
  al_data a = d -> NoDup (addrs d) -> NoDup (addrs (al_callbacks a)) -> (length (al_callbacks a) <= fuel)%nat -> (length d <= n)%nat ->
  runs (pass_data n fuel p (dl_head d)) (Alerts (l1 ++ (p, a) :: l2) h w)
    (fun _ s' => s' = Alerts (l1 ++ (p, a <| al_data := [] |>) :: l2) h
                        (w ++ concat ((fun e => told_all (al_callbacks a) (Some e.2)) <$> d))).
Proof using Hp.
  revert n a w. induction d as [|[q x] d IH]; intros n a w Hd Hnd Hc Hf Hn; simpl in *.
  { destruct n; apply runs_ret; rewrite app_nil_r; by destruct a; simpl in *; subst. }
  destruct n as [|n]; [lia|]. cbn [pass_data]. apply runs_the_alert. rewrite Hd.
  apply runs_bind. eapply runs_here; [simpl; by rewrite Z.eqb_refl|].
  apply runs_bind. eapply runs_here; [simpl; by rewrite Z.eqb_refl|].
  eapply runs_step; [by apply (callbacks_told fuel (Some x) a [])|]. intros u s' ->.
  apply runs_the_alert. rewrite Hd. apply runs_bind. eapply runs_here; [simpl; by rewrite Z.eqb_refl|].
  apply runs_update_alert. eapply runs_mono.
  - apply IH; [done|by apply NoDup_cons in Hnd as [_ ?]|done|done|lia].
  - intros v s' ->. by rewrite <- app_assoc.
Qed.

Lemma process_told a w :
  alert_ok fuel a ->
  runs (cras_alert_process fuel p) (Alerts (l1 ++ (p, a) :: l2) h w)
    (fun _ s' => s' = Alerts (l1 ++ (p, served a) :: l2) h (w ++ told a)).
Proof using Hp.
  intros (Hc & Hd & Hfc & Hfd). unfold cras_alert_process, told, served. apply runs_the_alert.
  destruct (al_pending a) eqn:Hpe; cbn [negb]; [|apply runs_ret; by rewrite app_nil_r].
  apply runs_update_alert. set (a1 := a <| al_pending := false |>).
  eapply runs_step with (Q := fun _ s' => s' = Alerts (l1 ++ (p, a1) :: l2) h w); [by destruct (al_prepare a)|].
  intros u s' ->. apply runs_the_alert. change (al_data a1) with (al_data a). change (al_callbacks a1) with (al_callbacks a).
  destruct (al_data a) as [|e d] eqn:Hda.
  - eapply runs_step; [by apply (callbacks_told fuel None a1 [])|]. intros v s' ->. apply runs_the_alert.
    change (al_data a1) with (al_data a). rewrite Hda.
    eapply runs_mono; [apply (data_told fuel a1 []); [exact Hda|constructor|done|done|simpl; lia]|].
    intros v' s' ->. simpl. by rewrite app_nil_r.
  - apply runs_bind, runs_ret. apply runs_the_alert. change (al_data a1) with (al_data a). rewrite Hda.
    eapply runs_mono; [apply (data_told fuel a1 (e :: d)); [exact Hda|done|done|done|done]|]. by intros v' s' ->.
Qed.
End One.

Definition serve_all (l : dlist cras_alert) : dlist cras_alert := (fun e => (e.1, served e.2)) <$> l.
Definition told_of (l : dlist cras_alert) : notes := concat ((fun e => told e.2) <$> l).

Lemma addrs_serve_all l : addrs (serve_all l) = addrs l.
Proof. unfold addrs, serve_all. by rewrite <- list_fmap_compose. Qed.

Lemma pass_told n fuel l1 l2 h w :
  NoDup (addrs (l1 ++ l2)) -> Forall (fun e => alert_ok fuel e.2) l2 -> (length l2 <= n)%nat ->
  runs (process_all n fuel (dl_head l2)) (Alerts (l1 ++ l2) h w)
    (fun _ s' => s' = Alerts (l1 ++ serve_all l2) h (w ++ told_of l2)).
Proof.
  revert n l1 w. induction l2 as [|[p a] l2 IH]; intros n l1 w Hnd Hok Hn; simpl in *.
  { unfold told_of, serve_all. simpl. destruct n; apply runs_ret; by rewrite !app_nil_r. }
  destruct n as [|n]; [lia|]. apply Forall_cons in Hok as [Ha Hok]. simpl in Ha.
  assert (Hp : p ∉ addrs l1) by (by apply NoDup_middle in Hnd as (? & _)).
  cbn [process_all]. apply runs_gets, runs_bind. eapply runs_here; [by apply dl_next_app|].
  eapply runs_step; [by apply process_told|]. intros u s' ->.
  rewrite (cons_middle (p, served a) l1 l2), app_assoc. eapply runs_mono; [apply IH; [|done|lia]|].
  - rewrite <- app_assoc. rewrite !addrs_app in *. exact Hnd.
  - intros v s' ->. unfold told_of. simpl. by rewrite <- !app_assoc.
Qed.


(** Two alerts, one of which keeps all its data. *)
Definition two_alerts : dlist cras_alert :=
  [(10, Alert true 1 None [(100, AlertCb 1 7); (101, AlertCb 2 8)] [(200, [5]); (201, [6])]);
   (11, Alert true 0 (Some 3) [(102, AlertCb 3 9)] []); (12, Alert false 0 None [(103, AlertCb 4 0)] [])].

End Observers.
