(* ===== verification/Outcome.v ===== *)
(** * Results of functions that fail, fault or run on

    The DSP graph code (server/cras_dsp_ini.c, server/cras_dsp_pipeline.c)
    returns error codes from nested loops and recursive functions; this file
    holds the monad its models are written in. *)
From S2P Require Import Prelude.
#[local] Open Scope nat_scope.

(** [Failed rc] is an early [return rc], [Undefined] is undefined behaviour of
    C, [OutOfFuel] a recursion that was cut off. *)
Inductive outcome (A : Type) : Type :=
  | Done (a : A)
  | Failed (rc : Z)
  | Undefined
  | OutOfFuel.
#[global] Arguments Done {A} a.
#[global] Arguments Failed {A} rc.
#[global] Arguments Undefined {A}.
#[global] Arguments OutOfFuel {A}.

#[export] Instance outcome_ret : MRet outcome := @Done.
#[export] Instance outcome_bind : MBind outcome := fun A B f m =>
  match m with Done a => f a | Failed rc => Failed rc | Undefined => Undefined | OutOfFuel => OutOfFuel end.

(** An access that is undefined when it finds nothing. *)
Definition at_ {A} (o : option A) : outcome A := match o with Some a => Done a | None => Undefined end.
(** A function that returns [rc] instead. *)
Definition or_return {A} (rc : Z) (o : option A) : outcome A :=
  match o with Some a => Done a | None => Failed rc end.

(** [ARRAY_ELEMENT_FOREACH (a, i, ptr) body], from the [i]-th element on. *)
Fixpoint foreach {A St} (body : nat -> A -> St -> outcome St) (i : nat) (l : list A) (s : St) : outcome St :=
  match l with
  | [] => Done s
  | x :: l => s ← body i x s; foreach body (1 + i) l s
  end.

Lemma bind_Done {A B} (m : outcome A) (f : A -> outcome B) (b : B) :
  (m ≫= f) = Done b -> exists a, m = Done a /\ f a = Done b.
Proof. destruct m; cbn; [|done..]. intros H. by eexists. Qed.

Lemma at_Done {A} (o : option A) (a : A) : at_ o = Done a -> o = Some a.
Proof. destruct o; cbn; congruence. Qed.

Lemma or_return_Done {A} (rc : Z) (o : option A) (a : A) : or_return rc o = Done a -> o = Some a.
Proof. destruct o; cbn; congruence. Qed.

(** Takes a successful run apart, one bind at a time. *)
Ltac run_steps H :=
  repeat match type of H with
    | (_ ≫= _) = Done _ =>
        let x := fresh "x" in let Hx := fresh "Hx" in apply bind_Done in H as (x & Hx & H); try run_steps Hx
    | at_ _ = Done _ => apply at_Done in H
    | or_return _ _ = Done _ => apply or_return_Done in H
    end.

(** A loop invariant over a list of any length. *)
Lemma foreach_inv {A St} (I : nat -> St -> Prop) (body : nat -> A -> St -> outcome St) (l : list A) (i : nat) (s : St) :
  I i s ->
  (forall k x s, l !! k = Some x -> I (i + k)%nat s -> exists s', body (i + k)%nat x s = Done s' /\ I (S (i + k)) s') ->
  exists s', foreach body i l s = Done s' /\ I (i + length l)%nat s'.
Proof.
  revert i s. induction l as [|x l IH]; intros i s Hi Hstep; cbn [foreach].
  - exists s. by rewrite Nat.add_0_r.
  - destruct (Hstep 0%nat x s eq_refl) as (s1 & Hs1 & Hi1); [by rewrite Nat.add_0_r|].
    rewrite Nat.add_0_r in Hs1, Hi1. rewrite Hs1. cbn [mbind outcome_bind].
    destruct (IH (1 + i) s1 Hi1) as (s2 & Hs2 & Hi2).
    + intros k y t Hk Ht. specialize (Hstep (S k) y t Hk). rewrite <- Nat.add_succ_comm in Hstep. by apply Hstep.
    + exists s2. split; [done|]. cbn [length]. by rewrite <- Nat.add_succ_comm.
Qed.

(** What a successful run of a loop keeps. *)
Lemma foreach_Done {A St} (I : nat -> St -> Prop) (body : nat -> A -> St -> outcome St) (l : list A) (i : nat) (s s' : St) :
  foreach body i l s = Done s' -> I i s ->
  (forall k x s s', l !! k = Some x -> I (i + k)%nat s -> body (i + k)%nat x s = Done s' -> I (S (i + k)) s') ->
  I (i + length l)%nat s'.
Proof.
  revert i s. induction l as [|x l IH]; intros i s Hrun Hi Hstep; cbn [foreach] in Hrun.
  - injection Hrun as <-. by rewrite Nat.add_0_r.
  - apply bind_Done in Hrun as (s1 & Hs1 & Hrun). cbn [length]. rewrite <- Nat.add_succ_comm.
    apply (IH _ s1 Hrun).
    + specialize (Hstep 0%nat x s s1 eq_refl). rewrite Nat.add_0_r in Hstep. by apply Hstep.
    + intros k y t t' Hk Ht Hb. specialize (Hstep (S k) y t t' Hk). rewrite <- Nat.add_succ_comm in Hstep.
      by apply Hstep.
Qed.

Lemma foreach_app {A St} (body : nat -> A -> St -> outcome St) (l1 l2 : list A) (i : nat) (s : St) :
  foreach body i (l1 ++ l2) s = (foreach body i l1 s ≫= foreach body (i + length l1) l2).
Proof.
  revert i s. induction l1 as [|x l1 IH]; intros i s; cbn [foreach app]; [by rewrite Nat.add_0_r|].
  destruct (body i x s); cbn; [|done..]. by rewrite IH, <- Nat.add_succ_comm.
Qed.

(** A run that ends, with a value that satisfies [Q] or with an error code. *)
Definition returns {A} (m : outcome A) (Q : A -> Prop) : Prop :=
  match m with Done a => Q a | Failed _ => True | _ => False end.

Lemma returns_bind {A B} (m : outcome A) (f : A -> outcome B) (Q : A -> Prop) (R : B -> Prop) :
  returns m Q -> (forall a, Q a -> returns (f a) R) -> returns (m ≫= f) R.
Proof. destruct m; cbn; auto. Qed.

Lemma returns_mono {A} (m : outcome A) (Q R : A -> Prop) : returns m Q -> (forall a, Q a -> R a) -> returns m R.
Proof. destruct m; cbn; auto. Qed.

Lemma returns_or_return {A} (rc : Z) (o : option A) (Q : A -> Prop) :
  (forall a, o = Some a -> Q a) -> returns (or_return rc o) Q.
Proof. destruct o; cbn; auto. Qed.

Lemma foreach_returns {A St} (I : nat -> St -> Prop) (body : nat -> A -> St -> outcome St) (l : list A) (i : nat) (s : St) :
  I i s ->
  (forall k x s, l !! k = Some x -> I (i + k) s -> returns (body (i + k) x s) (I (S (i + k)))) ->
  returns (foreach body i l s) (I (i + length l)).
Proof.
  revert i s. induction l as [|x l IH]; intros i s Hi Hstep; cbn [foreach].
  - cbn. by rewrite Nat.add_0_r.
  - cbn [length]. rewrite <- Nat.add_succ_comm. apply (returns_bind _ _ (I (S i))).
    + specialize (Hstep 0 x s eq_refl). rewrite Nat.add_0_r in Hstep. by apply Hstep.
    + intros t Ht. apply IH; [done|]. intros k y u Hk Hu. specialize (Hstep (S k) y u Hk).
      rewrite <- Nat.add_succ_comm in Hstep. by apply Hstep.
Qed.
