(* ===== verification/DspIni.v ===== *)
(** * The static DSP graph (server/cras_dsp_ini.c and .h)

    Sections of the ini file become plugins with ports; ports that carry the
    same value are joined by a flow.  The parsed file is a parameter: iniparser
    is a library. *)
From S2P Require Import Prelude Arrays Float32 Outcome Expr.
From Stdlib Require Import Floats.SpecFloat.
From Stdlib Require String.
Import String.StringSyntax.
#[local] Open Scope Z_scope.
#[local] Arguments c_str s%_string_scope.

Definition MAX_INI_KEY_LENGTH : Z := 64.
Definition MAX_NR_PORT : Z := 128.
Definition MAX_DUMMY_INI_CH : Z := 8.
Definition INVALID_FLOW_ID : Z := -1.

Inductive port_direction : Type := PORT_INPUT | PORT_OUTPUT.
Inductive port_type : Type := PORT_CONTROL | PORT_AUDIO.
#[export] Instance port_direction_eq_dec : EqDecision port_direction.
Proof. solve_decision. Defined.
#[export] Instance port_type_eq_dec : EqDecision port_type.
Proof. solve_decision. Defined.

Record port : Type := Port {
  direction : port_direction; type : port_type; flow_id : Z; init_value : spec_float }.

(** [library] and [label] are set in every plugin that is kept. *)
Record plugin : Type := Plugin {
  title : list Z; library : list Z; label : list Z; purpose : option (list Z);
  disable_expr : option cras_expr_expression; ports : list port }.

(** A pointer to a plugin is its index in [plugins]; [None] is [NULL]. *)
Record flow : Type := Flow {
  flow_type : port_type; name : list Z; from : option nat; to : option nat;
  from_port : nat; to_port : nat }.

Record ini : Type := Ini { plugins : list plugin; flows : list flow }.

Definition set_ports (l : list port) (p : plugin) : plugin :=
  Plugin (title p) (library p) (label p) (purpose p) (disable_expr p) l.
Definition set_flow_id (z : Z) (p : port) : port := Port (direction p) (type p) z (init_value p).

(** The parsed file: values by full key, and the names of the sections. *)
Record dictionary : Type := Dictionary {
  iniparser_getstring : list Z -> option (list Z); secnames : list (list Z) }.

(** ** [strtof] in the C locale *)

Definition isxdigit (c : Z) : bool :=
  isdigit c || ((65 <=? c) && (c <=? 70)) || ((97 <=? c) && (c <=? 102)).
Definition xdigit_value (c : Z) : Z := if isdigit c then c - 48 else if c <=? 70 then c - 55 else c - 87.
Definition tolower (c : Z) : Z := if (65 <=? c) && (c <=? 90) then c + 32 else c.

(** The digits before and after the point, and the rest. *)
Definition mantissa (p : Z -> bool) (s : list Z) : list Z * list Z * list Z :=
  let '(a, r) := span p s in
  if here r =? 46 then let '(b, r') := span p (tail r) in (a, b, r') else (a, [], r).

(** The exponent that follows the letter [c], zero without one. *)
Definition exponent (c : Z) (s : list Z) : Z :=
  if tolower (here s) =? c then
    let r := tail s in
    let neg := here r =? 45 in
    let r := if neg || (here r =? 43) then tail r else r in
    let '(ds, _) := span isdigit r in
    if neg then - digits_value ds else digits_value ds
  else 0.

(** [m * b^e], rounded once. *)
Definition rounded (neg : bool) (m b e : Z) : spec_float :=
  match m with
  | Zpos p =>
      if 0 <=? e then binary_normalize 24 128 (if neg then - (m * b ^ e) else m * b ^ e) 0 neg
      else f32_div (S754_finite neg p 0) (S754_finite false (Z.to_pos (b ^ (- e))) 0)
  | _ => S754_zero neg
  end.

Definition strtof (s : list Z) : spec_float :=
  let s := skip isspace s in
  let neg := here s =? 45 in
  let s := if neg || (here s =? 43) then tail s else s in
  if bool_decide (tolower <$> take 3 s = c_str "inf") then S754_infinity neg
  else if bool_decide (tolower <$> take 3 s = c_str "nan") then S754_nan
  else
    let '(ha, hb, hr) := mantissa isxdigit (drop 2 s) in
    if (here s =? 48) && (tolower (here (tail s)) =? 120) && (0 <? Z.of_nat (length (ha ++ hb))) then
      rounded neg (foldl (fun n d => n * 16 + xdigit_value d) 0 (ha ++ hb)) 2
        (exponent 112 hr - 4 * Z.of_nat (length hb))
    else
      let '(a, b, r) := mantissa isdigit s in
      match a ++ b with
      | [] => S754_zero false
      | ds => rounded neg (digits_value ds) 10 (exponent 101 r - Z.of_nat (length b))
      end.

(** ** Reading the sections *)

(** The key is cut to the size of [full_key]. *)
Definition getstring (dict : dictionary) (sec_name key : list Z) : option (list Z) :=
  iniparser_getstring dict (take (Z.to_nat (MAX_INI_KEY_LENGTH - 1)) (sec_name ++ c_str ":" ++ key)).

Definition lookup_flow (i : ini) (n : list Z) : Z :=
  match list_find (fun f => name f = n) (flows i) with
  | Some (k, _) => Z.of_nat k
  | None => -1
  end.

Definition append_flow (i : ini) (n : list Z) : Z * ini :=
  (Z.of_nat (length (flows i)), Ini (plugins i) (flows i ++ [Flow PORT_CONTROL n None None 0 0])).

Definition lookup_or_add_flow (i : ini) (n : list Z) : Z * ini :=
  let k := lookup_flow i n in
  if negb (k =? -1) then (k, i) else append_flow i n.

Definition port_key (d : port_direction) (i : Z) : list Z :=
  match d with PORT_INPUT => c_str "input_" ++ print_int i | PORT_OUTPUT => c_str "output_" ++ print_int i end.

(** The value of the port with number [i] and its direction. *)
Definition port_string (dict : dictionary) (sec_name : list Z) (i : Z) : option (port_direction * list Z) :=
  match getstring dict sec_name (port_key PORT_INPUT i) with
  | Some str => Some (PORT_INPUT, str)
  | None =>
      match getstring dict sec_name (port_key PORT_OUTPUT i) with
      | Some str => Some (PORT_OUTPUT, str)
      | None => None
      end
  end.

Definition parse_port (s : ini) (d : port_direction) (str : list Z) : port * ini :=
  if (here str =? 60) || (here str =? 123) then
    let '(k, s) := lookup_or_add_flow s str in
    (Port d (if here str =? 60 then PORT_CONTROL else PORT_AUDIO) k float_zero, s)
  else (Port d PORT_CONTROL INVALID_FLOW_ID (strtof str), s).

(** [n] turns of the loop from port [i] on; [None] for -1. *)
Fixpoint parse_ports_loop (n : nat) (i : Z) (dict : dictionary) (sec_name : list Z) (s : ini) (ps : list port)
  : option (ini * list port) :=
  match n with
  | O => Some (s, ps)
  | S n =>
      match port_string dict sec_name i with
      | None => Some (s, ps)
      | Some (_, []) => None
      | Some (d, str) =>
          let '(p, s) := parse_port s d str in
          parse_ports_loop n (i + 1) dict sec_name s (ps ++ [p])
      end
  end.

Definition parse_ports (dict : dictionary) (s : ini) (sec_name : list Z) : option (ini * list port) :=
  parse_ports_loop (Z.to_nat MAX_NR_PORT) 0 dict sec_name s [].

(** The plugin of a section; [None] for -1, when the caller gives everything up. *)
Definition parse_plugin_section (dict : dictionary) (s : ini) (sec_name : list Z)
  : outcome (ini * plugin) :=
  disable_expr ← match cras_expr_expression_parse (getstring dict sec_name (c_str "disable")) with
                 | Some e => Done e | None => OutOfFuel end;
  library ← or_return (-1) (getstring dict sec_name (c_str "library"));
  label ← or_return (-1) (getstring dict sec_name (c_str "label"));
  '(s, ps) ← or_return (-1) (parse_ports dict s sec_name);
  Done (s, Plugin sec_name library label (getstring dict sec_name (c_str "purpose")) disable_expr ps).

(** ** Flows *)

Definition fill_port (i j : nat) (p : port) (fs : list flow) : outcome (list flow) :=
  if flow_id p =? INVALID_FLOW_ID then Done fs else
  f ← at_ (ld fs (flow_id p));
  at_ (st fs (flow_id p)
    (match direction p with
     | PORT_INPUT => Flow (type p) (name f) (from f) (Some i) (from_port f) j
     | PORT_OUTPUT => Flow (type p) (name f) (Some i) (to f) j (to_port f)
     end)).

Definition fill_flow_info (s : ini) : outcome ini :=
  fs ← foreach (fun i p => foreach (fill_port i) 0 (ports p)) 0 (plugins s) (flows s);
  Done (Ini (plugins s) fs).

Definition add_audio_port (p : plugin) (k : Z) (d : port_direction) : plugin :=
  set_ports (ports p ++ [Port d PORT_AUDIO k float_zero]) p.

Definition fill_swap_lr_plugin (input_flowid_0 input_flowid_1 output_flowid_0 output_flowid_1 : Z)
  : outcome plugin :=
  disable_expr ← match cras_expr_expression_parse (Some (c_str "swap_lr_disabled")) with
                 | Some e => Done e | None => OutOfFuel end;
  let p := Plugin (c_str "swap_lr") (c_str "builtin") (c_str "swap_lr") (Some (c_str "playback"))
             disable_expr [] in
  let p := add_audio_port p input_flowid_0 PORT_INPUT in
  let p := add_audio_port p input_flowid_1 PORT_INPUT in
  let p := add_audio_port p output_flowid_0 PORT_OUTPUT in
  Done (add_audio_port p output_flowid_1 PORT_OUTPUT).

Definition add_new_flow (s : ini) (n : list Z) : Z * ini :=
  if negb (lookup_flow s n =? -1) then (INVALID_FLOW_ID, s) else append_flow s n.

Definition is_playback_sink (p : plugin) : bool :=
  bool_decide (library p = c_str "builtin") && bool_decide (label p = c_str "sink") &&
  bool_decide (purpose p = Some (c_str "playback")).

Definition find_first_playback_sink_plugin (s : ini) : option nat :=
  fst <$> list_find (fun p => is_playback_sink p = true) (plugins s).

Definition set_sink_flow_ids (s : ini) (sink : nat) (k0 k1 : Z) : outcome ini :=
  p ← at_ (plugins s !! sink);
  p0 ← at_ (ports p !! 0%nat);
  p1 ← at_ (ports p !! 1%nat);
  let p := set_ports (<[1%nat := set_flow_id k1 p1]> (<[0%nat := set_flow_id k0 p0]> (ports p))) p in
  Done (Ini (<[sink := p]> (plugins s)) (flows s)).

Definition insert_swap_lr_plugin (s : ini) : outcome ini :=
  match find_first_playback_sink_plugin s with
  | None => Done s
  | Some k =>
      sink ← at_ (plugins s !! k);
      if negb (Z.of_nat (length (ports sink)) =? 2) then Done s else
      p0 ← at_ (ports sink !! 0%nat);
      p1 ← at_ (ports sink !! 1%nat);
      let '(out0, s) := add_new_flow s (c_str "{swap_lr_out:0}") in
      let '(out1, s) := add_new_flow s (c_str "{swap_lr_out:1}") in
      if (out0 =? INVALID_FLOW_ID) || (out1 =? INVALID_FLOW_ID) then Failed (- EINVAL) else
      swap_lr ← fill_swap_lr_plugin (flow_id p0) (flow_id p1) out0 out1;
      let s := Ini (plugins s ++ [swap_lr]) (flows s) in
      k ← at_ (find_first_playback_sink_plugin s);
      set_sink_flow_ids s k out0 out1
  end.

(** ** Creation *)

Fixpoint add_dummy_flows (n i : nat) (s : ini) : list Z * ini :=
  match n with
  | O => ([], s)
  | S n =>
      let '(k, s) := add_new_flow s (c_str "{tmp:" ++ print_int (Z.of_nat i) ++ c_str "}") in
      let '(ks, s) := add_dummy_flows n (S i) s in (k :: ks, s)
  end.

(** [None] is [NULL]; [alloc] says whether [calloc] succeeds. *)
Definition create_dummy_ini (alloc : bool) (purpose : list Z) (num_channels : Z) : outcome (option ini) :=
  if num_channels >? MAX_DUMMY_INI_CH then Done None else
  if negb alloc then Done None else
  let '(tmp_flow_ids, s) := add_dummy_flows (Z.to_nat num_channels) 0 (Ini [] []) in
  let end_plugin n d :=
    foldl (fun p k => add_audio_port p k d)
      (Plugin n (c_str "builtin") n (Some purpose) None []) tmp_flow_ids in
  let s := Ini (plugins s ++ [end_plugin (c_str "source") PORT_OUTPUT]) (flows s) in
  let s := Ini (plugins s ++ [end_plugin (c_str "sink") PORT_INPUT]) (flows s) in
  s ← fill_flow_info s;
  Done (Some s).

Definition parse_section (dict : dictionary) (_ : nat) (sec_name : list Z) (s : ini) : outcome ini :=
  '(s, p) ← parse_plugin_section dict s sec_name;
  Done (Ini (plugins s ++ [p]) (flows s)).

(** Freeing the graph and returning [NULL]. *)
Definition bail {A} (m : outcome A) : outcome (option A) :=
  match m with
  | Done a => Done (Some a) | Failed _ => Done None | Undefined => Undefined | OutOfFuel => OutOfFuel
  end.

(** [dict] is [None] when the file cannot be read. *)
Definition cras_dsp_ini_create (alloc : bool) (dict : option dictionary) : outcome (option ini) :=
  if negb alloc then Done None else
  match dict with
  | None => Done None
  | Some dict =>
      bail (s ← foreach (parse_section dict) 0 (secnames dict) (Ini [] []);
            s ← insert_swap_lr_plugin s;
            fill_flow_info s)
  end.

(** ** Well-formed graphs *)

(** The port [j] of plugin [i]. *)
Definition port_at (s : ini) (i j : nat) : option port := p ← plugins s !! i; ports p !! j.

Definition ids_ok (fs : list flow) (ps : list port) : Prop :=
  Forall (fun p => flow_id p = INVALID_FLOW_ID \/ 0 <= flow_id p < Z.of_nat (length fs)) ps.

(** An end of a flow and its port know each other. *)
Definition end_ok (s : ini) (k : nat) (d : port_direction) (e : option nat) (j : nat) : Prop :=
  match e with
  | Some i => exists p, port_at s i j = Some p /\ direction p = d /\ flow_id p = Z.of_nat k
  | None => forall i j p, port_at s i j = Some p -> direction p = d -> flow_id p <> Z.of_nat k
  end.

Record ini_ok (s : ini) : Prop := {
  io_ids : Forall (fun p => ids_ok (flows s) (ports p)) (plugins s);
  io_ports : Forall (fun p => Z.of_nat (length (ports p)) <= MAX_NR_PORT) (plugins s);
  io_names : NoDup (name <$> flows s);
  io_from : forall k f, flows s !! k = Some f -> end_ok s k PORT_OUTPUT (from f) (from_port f);
  io_to : forall k f, flows s !! k = Some f -> end_ok s k PORT_INPUT (to f) (to_port f)
}.

(** While the file is read the flows have names only. *)
Record reading_ok (s : ini) : Prop := {
  ro_ids : Forall (fun p => ids_ok (flows s) (ports p)) (plugins s);
  ro_ports : Forall (fun p => Z.of_nat (length (ports p)) <= MAX_NR_PORT) (plugins s);
  ro_names : NoDup (name <$> flows s);
  ro_ends : Forall (fun f => from f = None /\ to f = None) (flows s)
}.

Lemma lookup_flow_None (s : ini) (n : list Z) : lookup_flow s n = -1 -> n ∉ name <$> flows s.
Proof.
  unfold lookup_flow. destruct (list_find _ _) as [[k f]|] eqn:Hf; [lia|]. intros _.
  rewrite list_find_None in Hf. intros (f & -> & Hin)%list_elem_of_fmap.
  rewrite Forall_forall in Hf. by apply (Hf f Hin).
Qed.

Lemma lookup_flow_Some (s : ini) (n : list Z) :
  lookup_flow s n <> -1 -> exists k f, lookup_flow s n = Z.of_nat k /\ flows s !! k = Some f /\ name f = n.
Proof.
  unfold lookup_flow. destruct (list_find _ _) as [[k f]|] eqn:Hf; [|done]. intros _.
  apply list_find_Some in Hf as (Hk & Hn & _). by exists k, f.
Qed.

Lemma ids_ok_grow (fs fs' : list flow) (ps : list port) :
  (length fs <= length fs')%nat -> ids_ok fs ps -> ids_ok fs' ps.
Proof. intros Hl H. eapply Forall_impl; [exact H|]. cbn. intros p []; lia. Qed.

Lemma append_flow_ok (s : ini) (n : list Z) :
  reading_ok s -> n ∉ name <$> flows s ->
  let '(k, t) := append_flow s n in
  reading_ok t /\ plugins t = plugins s /\ k = Z.of_nat (length (flows s)) /\ length (flows t) = S (length (flows s)).
Proof.
  intros [Hi Hp Hn He] Hf. unfold append_flow. split; [|split; [done|split; [done|cbn; rewrite length_app; cbn; lia]]].
  split; cbn; [|done| |].
  - eapply Forall_impl; [exact Hi|]. intros p. apply ids_ok_grow. rewrite length_app. lia.
  - rewrite fmap_app. apply NoDup_app. split; [done|]. split; [|apply NoDup_singleton].
    intros x Hx ->%list_elem_of_singleton. done.
  - apply Forall_app. split; [done|]. by repeat constructor.
Qed.

(** Adding a flow keeps the graph and gives a flow that exists. *)
Definition grown (s t : ini) : Prop :=
  reading_ok t /\ plugins t = plugins s /\ (length (flows s) <= length (flows t))%nat.

Lemma grown_trans (s t u : ini) : grown s t -> grown t u -> grown s u.
Proof. intros (_ & Hp & Hl) (Hr & Hp' & Hl'). split; [done|]. split; [congruence|lia]. Qed.

Lemma lookup_or_add_flow_ok (s : ini) (n : list Z) :
  reading_ok s ->
  let '(k, t) := lookup_or_add_flow s n in grown s t /\ 0 <= k < Z.of_nat (length (flows t)).
Proof.
  intros Hs. unfold lookup_or_add_flow. destruct (Z.eqb_spec (lookup_flow s n) (-1)) as [H|H]; cbn [negb].
  - pose proof (append_flow_ok s n Hs (lookup_flow_None _ _ H)) as Ha. destruct (append_flow s n) as [k t].
    destruct Ha as (Hr & Hp & -> & Hl). split; [split; [done|split; [done|lia]]|lia].
  - destruct (lookup_flow_Some s n H) as (k & f & -> & Hk & _). apply lookup_lt_Some in Hk.
    split; [split; [done|split; [done|lia]]|lia].
Qed.

Lemma parse_ports_loop_ok (n : nat) (i : Z) (dict : dictionary) (sec : list Z) (s t : ini) (ps qs : list port) :
  reading_ok s -> ids_ok (flows s) ps -> parse_ports_loop n i dict sec s ps = Some (t, qs) ->
  grown s t /\ ids_ok (flows t) qs /\ (length qs <= length ps + n)%nat.
Proof.
  revert i s ps. induction n as [|n IH]; intros i s ps Hs Hps; cbn [parse_ports_loop].
  { intros [= <- <-]. split; [split; [done|split; [done|lia]]|]. split; [done|lia]. }
  destruct (port_string dict sec i) as [[d [|c str]]|]; [done| |].
  2:{ intros [= <- <-]. split; [split; [done|split; [done|lia]]|]. split; [done|lia]. }
  assert (Hp : let '(p, u) := parse_port s d (c :: str) in
    grown s u /\ (flow_id p = INVALID_FLOW_ID \/ 0 <= flow_id p < Z.of_nat (length (flows u)))).
  { unfold parse_port. destruct (_ || _).
    - pose proof (lookup_or_add_flow_ok s (c :: str) Hs) as Hl. destruct (lookup_or_add_flow s _) as [k u].
      destruct Hl as [Hg Hk]. split; [done|]. by right.
    - split; [split; [done|split; [done|lia]]|]. by left. }
  destruct (parse_port s d (c :: str)) as [p u]. destruct Hp as [Hg Hid].
  intros Hrun. destruct (IH (i + 1) u (ps ++ [p])) as (Hg' & Hq & Hl); [apply Hg| |exact Hrun|].
  - apply Forall_app. split; [|by apply Forall_singleton]. eapply ids_ok_grow; [|exact Hps]. apply Hg.
  - split; [by eapply grown_trans|]. split; [done|]. rewrite length_app in Hl. cbn in Hl. lia.
Qed.

(** ** Filling in the flows *)

Section Fill.
Context (s : ini).
Hypothesis ids : Forall (fun p => ids_ok (flows s) (ports p)) (plugins s).

(** What is known once the ports in [V] have been looked at. *)
Definition end_upto (V : nat -> nat -> Prop) (k : nat) (d : port_direction) (e : option nat) (j : nat) : Prop :=
  match e with
  | Some i => exists p, port_at s i j = Some p /\ direction p = d /\ flow_id p = Z.of_nat k
  | None => forall i j p, V i j -> port_at s i j = Some p -> direction p = d -> flow_id p <> Z.of_nat k
  end.

Definition filled (V : nat -> nat -> Prop) (fs : list flow) : Prop :=
  name <$> fs = name <$> flows s /\
  forall k f, fs !! k = Some f ->
    end_upto V k PORT_OUTPUT (from f) (from_port f) /\ end_upto V k PORT_INPUT (to f) (to_port f).

Lemma filled_mono (V W : nat -> nat -> Prop) (fs : list flow) :
  (forall i j, W i j -> port_at s i j <> None -> V i j) -> filled V fs -> filled W fs.
Proof.
  intros Hvw [Hn Hf]. split; [done|]. intros k f Hk. destruct (Hf k f Hk) as [H1 H2].
  split; [destruct (from f)|destruct (to f)]; [done| |done|]; cbn in *; intros i j p Hw Hp; [apply (H1 i j p)|apply (H2 i j p)];
    try done; apply Hvw; by rewrite ?Hp.
Qed.

Lemma filled_length (V : nat -> nat -> Prop) (fs : list flow) : filled V fs -> length fs = length (flows s).
Proof. intros [Hn _]. by rewrite <- (length_fmap name fs), Hn, length_fmap. Qed.

Lemma fill_port_ok (V : nat -> nat -> Prop) (i j : nat) (p : port) (fs : list flow) :
  port_at s i j = Some p -> filled V fs ->
  exists fs', fill_port i j p fs = Done fs' /\ filled (fun a b => V a b \/ (a = i /\ b = j)) fs'.
Proof.
  intros Hp Hf. pose proof (filled_length V fs Hf) as Hlen.
  assert (Hid : flow_id p = INVALID_FLOW_ID \/ 0 <= flow_id p < Z.of_nat (length fs)).
  { unfold port_at in Hp. destruct (plugins s !! i) as [pl|] eqn:Hi; [|done]. cbn in Hp.
    pose proof (proj1 (Forall_lookup _ _) ids i pl Hi) as H. rewrite Hlen.
    exact (proj1 (Forall_lookup _ _) H j p Hp). }
  unfold fill_port. destruct (Z.eqb_spec (flow_id p) INVALID_FLOW_ID) as [He|He].
  { exists fs. split; [done|]. destruct Hf as [Hn Hf]. split; [done|]. intros k f Hk.
    destruct (Hf k f Hk) as [H1 H2]. unfold INVALID_FLOW_ID in He.
    split; [destruct (from f)|destruct (to f)]; cbn in *; [done| |done|];
      intros a b q [Hv|[-> ->]] Hq Hd; [by apply (H1 a b q)|rewrite Hp in Hq; injection Hq as <-; lia
        |by apply (H2 a b q)|rewrite Hp in Hq; injection Hq as <-; lia]. }
  destruct Hid as [?|Hid]; [done|].
  set (k := Z.to_nat (flow_id p)). assert (Hk : flow_id p = Z.of_nat k) by lia.
  destruct (lookup_lt_is_Some_2 fs k) as [f Hfk]; [lia|].
  rewrite Hk. rewrite (ld_Some fs k f Hfk). cbn [at_ mbind outcome_bind].
  rewrite st_Some by lia. cbn [at_]. eexists. split; [done|]. rewrite Nat2Z.id.
  destruct Hf as [Hn Hf]. split.
  { rewrite list_fmap_insert, <- Hn. apply list_insert_id. rewrite list_lookup_fmap, Hfk. by destruct (direction p). }
  intros k' f'. destruct (decide (k' = k)) as [->|Hne].
  - rewrite list_lookup_insert_eq by lia. intros [= <-]. destruct (Hf k f Hfk) as [H1 H2].
    destruct (direction p) eqn:Hd; cbn [from to from_port to_port]; split; try (by exists p).
    + destruct (from f); cbn in *; [done|]. intros a b q [Hv|[-> ->]] Hq Hdq; [by apply (H1 a b q)|congruence].
    + destruct (to f); cbn in *; [done|]. intros a b q [Hv|[-> ->]] Hq Hdq; [by apply (H2 a b q)|congruence].
  - rewrite list_lookup_insert_ne by done. intros Hf'. destruct (Hf k' f' Hf') as [H1 H2].
    split; [destruct (from f')|destruct (to f')]; cbn in *; [done| |done|];
      intros a b q [Hv|[-> ->]] Hq Hdq; [by apply (H1 a b q)|rewrite Hp in Hq; injection Hq as <-; lia
        |by apply (H2 a b q)|rewrite Hp in Hq; injection Hq as <-; lia].
Qed.

Lemma fill_flow_info_ok :
  Forall (fun f => from f = None /\ to f = None) (flows s) ->
  exists fs, fill_flow_info s = Done (Ini (plugins s) fs) /\ name <$> fs = name <$> flows s /\
    forall k f, fs !! k = Some f ->
      end_ok s k PORT_OUTPUT (from f) (from_port f) /\ end_ok s k PORT_INPUT (to f) (to_port f).
Proof.
  intros Hinit. unfold fill_flow_info.
  destruct (foreach_inv (fun i => filled (fun a _ => (a < i)%nat))
    (fun i p => foreach (fill_port i) 0 (ports p)) (plugins s) 0 (flows s)) as (fs & Hrun & Hfs).
  - split; [done|]. intros k f Hk. rewrite Forall_lookup in Hinit. destruct (Hinit k f Hk) as [-> ->].
    split; intros i j p Hlt; lia.
  - cbn [Nat.add]. intros i pl fs Hi Hfs.
    destruct (foreach_inv (fun j => filled (fun a b => (a < i \/ a = i /\ b < j)%nat))
      (fill_port i) (ports pl) 0 fs) as (fs' & Hrun & Hfs').
    + eapply filled_mono; [|exact Hfs]. cbn. intros a b; lia.
    + cbn [Nat.add]. intros j p gs Hj Hgs.
      assert (Hat : port_at s i j = Some p) by (unfold port_at; by rewrite Hi).
      destruct (fill_port_ok _ i j p gs Hat Hgs) as (gs' & -> & Hgs').
      exists gs'. split; [done|]. eapply filled_mono; [|exact Hgs']. cbn. intros a b; lia.
    + exists fs'. split; [done|]. eapply filled_mono; [|exact Hfs']. cbn. intros a b Hab Hp.
      destruct (decide (a = i)) as [->|]; [|lia]. right. split; [done|].
      unfold port_at in Hp. rewrite Hi in Hp. cbn in Hp. by apply lookup_lt_is_Some, not_eq_None_Some.
  - rewrite Hrun. cbn [mbind outcome_bind]. eexists. split; [done|]. destruct Hfs as [Hn Hf]. split; [done|].
    intros k f Hk. destruct (Hf k f Hk) as [H1 H2].
    assert (Hall : forall i j p, port_at s i j = Some p -> (i < 0 + length (plugins s))%nat).
    { intros i j p Hp. unfold port_at in Hp. destruct (plugins s !! i) eqn:Hi; [|done]. by eapply lookup_lt_Some. }
    split; [destruct (from f)|destruct (to f)]; cbn in *; [done| |done|];
      intros i j p Hp; [apply (H1 i j p)|apply (H2 i j p)]; try done; by eapply Hall.
Qed.
End Fill.

(** ** The graph of a file *)

Lemma parse_defined (str : option (list Z)) : exists e, cras_expr_expression_parse str = Some e.
Proof.
  destruct str as [str|]; [|by eexists]. cbn [cras_expr_expression_parse].
  destruct (proj1 (parse_total (parse_fuel str)) str) as (e & r & -> & _); [unfold parse_fuel; lia|].
  by eexists.
Qed.

Lemma parse_section_ok (dict : dictionary) (i : nat) (sec : list Z) (s : ini) :
  reading_ok s ->
  (exists t, parse_section dict i sec s = Done t /\ reading_ok t /\ title <$> plugins t = (title <$> plugins s) ++ [sec]) \/
  (exists rc, parse_section dict i sec s = Failed rc).
Proof.
  intros Hs. unfold parse_section, parse_plugin_section.
  destruct (parse_defined (getstring dict sec (c_str "disable"))) as [e ->]. cbn [mbind outcome_bind].
  destruct (getstring dict sec (c_str "library")) as [lib|]; [|by right; eexists]. cbn [or_return mbind outcome_bind].
  destruct (getstring dict sec (c_str "label")) as [lab|]; [|by right; eexists]. cbn [or_return mbind outcome_bind].
  destruct (parse_ports dict s sec) as [[t ps]|] eqn:Hp; [|by right; eexists]. cbn [or_return mbind outcome_bind].
  apply parse_ports_loop_ok in Hp as (([Hi Hpo Hn He] & Hpl & Hl) & Hq & Hlen); [|done|constructor].
  left. eexists. split; [done|]. split; [|cbn; by rewrite fmap_app, Hpl].
  split; cbn; [| |done|done].
  - apply Forall_app. split; [done|]. by apply Forall_singleton.
  - apply Forall_app. split; [done|]. apply Forall_singleton. cbn in *. unfold MAX_NR_PORT in *. lia.
Qed.

Lemma parse_sections_ok (dict : dictionary) (secs : list (list Z)) (i : nat) (s : ini) :
  reading_ok s ->
  (exists t, foreach (parse_section dict) i secs s = Done t /\ reading_ok t /\
     title <$> plugins t = (title <$> plugins s) ++ secs) \/
  (exists rc, foreach (parse_section dict) i secs s = Failed rc).
Proof.
  revert i s. induction secs as [|sec secs IH]; intros i s Hs; cbn [foreach].
  { left. exists s. by rewrite app_nil_r. }
  destruct (parse_section_ok dict i sec s Hs) as [(t & -> & Ht & Htt)|[rc ->]]; [|by right; eexists].
  cbn [mbind outcome_bind]. destruct (IH (1 + i)%nat t Ht) as [(u & -> & Hu & Hut)|[rc ->]]; [|by right; eexists].
  left. exists u. split; [done|]. split; [done|]. by rewrite Hut, Htt, <- app_assoc.
Qed.

Lemma find_sink_Some (s : ini) (k : nat) :
  find_first_playback_sink_plugin s = Some k ->
  exists p, plugins s !! k = Some p /\ is_playback_sink p = true.
Proof.
  unfold find_first_playback_sink_plugin. destruct (list_find _ _) as [[j p]|] eqn:Hf; [|done].
  cbn. intros [= ->]. apply list_find_Some in Hf as (Hk & Hp & _). by exists p.
Qed.

Lemma find_sink_app (s : ini) (k : nat) (p : plugin) (fs : list flow) :
  find_first_playback_sink_plugin s = Some k ->
  find_first_playback_sink_plugin (Ini (plugins s ++ [p]) fs) = Some k.
Proof.
  unfold find_first_playback_sink_plugin. cbn. destruct (list_find _ (plugins s)) as [[j q]|] eqn:Hf; [|done].
  cbn. intros [= ->]. by rewrite (list_find_app_l _ _ _ _ _ Hf).
Qed.

Lemma add_new_flow_ok (s : ini) (n : list Z) :
  reading_ok s ->
  let '(k, t) := add_new_flow s n in
  (k = INVALID_FLOW_ID /\ t = s) \/
  (k = Z.of_nat (length (flows s)) /\ length (flows t) = S (length (flows s)) /\ grown s t).
Proof.
  intros Hs. unfold add_new_flow. destruct (Z.eqb_spec (lookup_flow s n) (-1)) as [H|H]; cbn [negb]; [|by left].
  pose proof (append_flow_ok s n Hs (lookup_flow_None _ _ H)) as Ha. destruct (append_flow s n) as [k t].
  destruct Ha as (Hr & Hp & -> & Hl). right. split; [done|]. split; [done|]. split; [done|]. split; [done|lia].
Qed.

Definition swap_lr_plugin (k0 k1 o0 o1 : Z) : plugin :=
  Plugin (c_str "swap_lr") (c_str "builtin") (c_str "swap_lr") (Some (c_str "playback"))
    (Some (ExprVariable (c_str "swap_lr_disabled")))
    [Port PORT_INPUT PORT_AUDIO k0 float_zero; Port PORT_INPUT PORT_AUDIO k1 float_zero;
     Port PORT_OUTPUT PORT_AUDIO o0 float_zero; Port PORT_OUTPUT PORT_AUDIO o1 float_zero].

(** What the insertion does: the sink [k] is fed by two new flows, and the
    last plugin has them as outputs and the sink's former flows as inputs. *)
Definition swap_inserted (s t : ini) : Prop :=
  exists k sink p0 p1, plugins s !! k = Some sink /\ is_playback_sink sink = true /\ ports sink = [p0; p1] /\
    let n := Z.of_nat (length (flows s)) in
    length (flows t) = S (S (length (flows s))) /\
    plugins t = <[k := set_ports [set_flow_id n p0; set_flow_id (n + 1) p1] sink]> (plugins s) ++
                [swap_lr_plugin (flow_id p0) (flow_id p1) n (n + 1)].

Lemma insert_swap_lr_plugin_ok (s : ini) :
  reading_ok s ->
  (exists t, insert_swap_lr_plugin s = Done t /\ reading_ok t /\ (t = s \/ swap_inserted s t)) \/
  (exists rc, insert_swap_lr_plugin s = Failed rc).
Proof.
  intros Hs. unfold insert_swap_lr_plugin.
  destruct (find_first_playback_sink_plugin s) as [k|] eqn:Hf; [|left; exists s; by split; [|split; [|left]]].
  destruct (find_sink_Some s k Hf) as (sink & Hk & Hsink). rewrite Hk. cbn [at_ mbind outcome_bind].
  destruct (Z.eqb_spec (Z.of_nat (length (ports sink))) 2) as [Hl|Hl]; cbn [negb];
    [|left; exists s; by split; [|split; [|left]]].
  destruct (ports sink) as [|p0 [|p1 [|? ?]]] eqn:Hps; cbn [length] in Hl; [lia|lia| |lia]. clear Hl.
  cbn [lookup list_lookup at_ mbind outcome_bind].
  pose proof (add_new_flow_ok s (c_str "{swap_lr_out:0}") Hs) as H0.
  destruct (add_new_flow s _) as [o0 t]. destruct H0 as [[-> ->]|(-> & Hlt & Hgt)].
  { destruct (add_new_flow s _) as [o1 t]. right. by eexists. }
  pose proof (add_new_flow_ok t (c_str "{swap_lr_out:1}") (proj1 Hgt)) as H1.
  destruct (add_new_flow t _) as [o1 u]. destruct H1 as [[-> ->]|(-> & Hlu & Hgu)].
  { rewrite orb_true_r. right. by eexists. }
  unfold INVALID_FLOW_ID. zdecide. cbn [orb].
  unfold fill_swap_lr_plugin. replace (cras_expr_expression_parse _) with
    (Some (Some (ExprVariable (c_str "swap_lr_disabled")))) by (vm_compute; reflexivity).
  cbn [mbind outcome_bind]. cbv zeta.
  destruct Hgt as (Hrt & Hpt & _), Hgu as ([Hi Hpo Hn He] & Hpu & _).
  rewrite Hpu, Hpt. rewrite (find_sink_app s k) by done. cbn [at_ mbind outcome_bind].
  unfold set_sink_flow_ids. cbn [plugins]. rewrite lookup_app_l by (by eapply lookup_lt_Some).
  rewrite Hk. cbn [at_ mbind outcome_bind]. rewrite Hps. cbn [lookup list_lookup at_ mbind outcome_bind].
  left. eexists. split; [done|]. rewrite insert_app_l by (by eapply lookup_lt_Some).
  cbn [list_insert insert]. rewrite Hlt in *. split.
  - rewrite Hpu, Hpt in Hi, Hpo. split; cbn [flows plugins]; [| |done|done].
    + assert (Hs0 : ids_ok (flows u) (ports sink)) by exact (proj1 (Forall_lookup _ _) Hi k sink Hk).
      rewrite Hps in Hs0.
      inversion Hs0 as [|? ? Hi0 Hs1]; subst. inversion Hs1 as [|? ? Hi1 _]; subst.
      apply Forall_app. split; [apply Forall_insert; [done|]|apply Forall_singleton];
        repeat apply Forall_cons_2; cbn in *; try apply Forall_nil_2; try done; right; lia.
    + apply Forall_app. split; [apply Forall_insert; [done|]|apply Forall_singleton]; cbn; unfold MAX_NR_PORT; lia.
  - right. exists k, sink, p0, p1. split; [done|]. split; [done|]. split; [done|]. cbn [flows plugins].
    split; [lia|]. by replace (Z.of_nat (length (flows s)) + 1) with (Z.of_nat (S (length (flows s)))) by lia.
Qed.

Lemma fill_flow_info_filled (s : ini) :
  reading_ok s -> exists t, fill_flow_info s = Done t /\ ini_ok t /\ plugins t = plugins s /\
    length (flows t) = length (flows s).
Proof.
  intros [Hi Hpo Hn He]. destruct (fill_flow_info_ok s Hi He) as (fs & -> & Hnames & Hends).
  assert (Hlen : length fs = length (flows s)) by (by rewrite <- (length_fmap name fs), Hnames, length_fmap).
  eexists. split; [done|]. split; [|done]. split; cbn; [|done|by rewrite Hnames|apply Hends..].
  eapply Forall_impl; [exact Hi|]. intros p. apply ids_ok_grow. lia.
Qed.

(** The swap plugin stands between the sink's two inputs and what fed them. *)
Definition swap_feeds_sink (n : nat) (t : ini) : Prop :=
  exists k sink, plugins t !! k = Some sink /\ is_playback_sink sink = true /\ length (ports sink) = 2%nat /\
    disable_expr <$> plugins t !! n = Some (Some (ExprVariable (c_str "swap_lr_disabled"))) /\
    forall j q, ports sink !! j = Some q -> direction q = PORT_INPUT ->
      exists f, flows t !! Z.to_nat (flow_id q) = Some f /\ from f = Some n /\ from_port f = (2 + j)%nat.

Lemma swap_inserted_feeds (s t : ini) (u : ini) :
  reading_ok s -> swap_inserted s u -> ini_ok t -> plugins t = plugins u -> length (flows t) = length (flows u) ->
  swap_feeds_sink (length (plugins s)) t.
Proof.
  intros Hs (k & sink & p0 & p1 & Hk & Hsink & Hps & Hlen & Hpl) Ht Hp Hl. cbn zeta in *.
  set (n := Z.of_nat (length (flows s))) in *. rewrite Hpl in Hp.
  assert (Hkl : (k < length (plugins s))%nat) by (by eapply lookup_lt_Some).
  set (sink' := set_ports [set_flow_id n p0; set_flow_id (n + 1) p1] sink) in *.
  set (lr := swap_lr_plugin (flow_id p0) (flow_id p1) n (n + 1)) in *.
  assert (Hk' : plugins t !! k = Some sink').
  { rewrite Hp, lookup_app_l by (rewrite length_insert; lia). by apply list_lookup_insert_eq. }
  assert (Hlr : plugins t !! length (plugins s) = Some lr).
  { rewrite Hp, lookup_app_r by (rewrite length_insert; lia). by rewrite length_insert, Nat.sub_diag. }
  (* a port with a new flow is one of the sink's or of the swap plugin's outputs *)
  assert (Hown : forall i j q, port_at t i j = Some q -> n <= flow_id q ->
    (i = k /\ (j < 2)%nat /\ flow_id q = n + Z.of_nat j /\ port_at t k j = Some q) \/
    (i = length (plugins s) /\ (2 <= j)%nat /\ flow_id q = n + Z.of_nat (j - 2))).
  { intros i j q Hq Hid. unfold port_at in Hq. destruct (plugins t !! i) as [pl|] eqn:Hi; [|done]. cbn in Hq.
    destruct (decide (i = k)) as [->|Hne]; [|destruct (decide (i = length (plugins s))) as [->|Hne']].
    - left. split; [done|]. rewrite Hk' in Hi. injection Hi as <-. unfold port_at. rewrite Hk'. cbn in *.
      destruct j as [|[|j]]; cbn in Hq |- *; [| |done]; injection Hq as <-; cbn; (split; [lia|split; [lia|done]]).
    - right. split; [done|]. rewrite Hlr in Hi. injection Hi as <-. pose proof (ro_ids s Hs) as Hids.
      pose proof (proj1 (Forall_lookup _ _) Hids k sink Hk) as Hs0. unfold ids_ok in Hs0. cbn in Hs0.
      rewrite Hps in Hs0. inversion Hs0 as [|? ? Hi0 Hs1]; subst. inversion Hs1 as [|? ? Hi1 _]; subst.
      unfold INVALID_FLOW_ID in *.
      destruct j as [|[|[|[|j]]]]; cbn in Hq; [injection Hq as <-; cbn in Hid |- *; unfold n in *; lia..|done].
    - exfalso. rewrite Hp in Hi. assert (Hlt : (i < length (plugins s))%nat).
      { apply lookup_lt_Some in Hi. rewrite length_app, length_insert in Hi. cbn in Hi. lia. }
      rewrite lookup_app_l, list_lookup_insert_ne in Hi by (rewrite ?length_insert; lia || done).
      pose proof (proj1 (Forall_lookup _ _) (proj1 (Forall_lookup _ _) (ro_ids s Hs) i pl Hi) j q Hq) as Hq'.
      cbn in Hq'. unfold INVALID_FLOW_ID in Hq'. lia. }
  exists k, sink'. split; [done|]. split; [exact Hsink|]. split; [done|]. split; [by rewrite Hlr|].
  intros j q Hj Hd.
  assert (Hq : port_at t k j = Some q) by (unfold port_at; rewrite Hk'; exact Hj).
  assert (Hjn : (j < 2)%nat /\ flow_id q = n + Z.of_nat j).
  { cbn in Hj. destruct j as [|[|j]]; cbn in Hj; [| |done]; injection Hj as <-; cbn; lia. }
  destruct Hjn as [Hj2 Hid].
  destruct (lookup_lt_is_Some_2 (flows t) (Z.to_nat (flow_id q))) as [f Hf]; [lia|].
  exists f. split; [done|]. pose proof (io_from t Ht _ f Hf) as Hfrom. unfold end_ok in Hfrom.
  rewrite Z2Nat.id in Hfrom by lia. destruct (from f) as [i|].
  - destruct Hfrom as (p & Hpat & Hdir & Hpid).
    destruct (Hown i (from_port f) p Hpat) as [(-> & Hlt & Hid' & _)|(-> & Hge & Hid')]; [lia| |].
    + exfalso. replace (from_port f) with j in Hpat by lia. congruence.
    + split; [done|]. lia.
  - exfalso. destruct j as [|[|j]]; [| |lia].
    + apply (Hfrom (length (plugins s)) 2%nat (Port PORT_OUTPUT PORT_AUDIO n float_zero));
        [unfold port_at; by rewrite Hlr|done|cbn; lia].
    + apply (Hfrom (length (plugins s)) 3%nat (Port PORT_OUTPUT PORT_AUDIO (n + 1) float_zero));
        [unfold port_at; by rewrite Hlr|done|cbn; lia].
Qed.

Lemma ini_create_ok (alloc : bool) (file : option dictionary) :
  exists r, cras_dsp_ini_create alloc file = Done r /\
    forall t, r = Some t -> ini_ok t /\ exists dict, file = Some dict /\
      (title <$> plugins t = secnames dict \/
       (title <$> plugins t = secnames dict ++ [c_str "swap_lr"] /\ swap_feeds_sink (length (secnames dict)) t)).
Proof.
  unfold cras_dsp_ini_create. destruct alloc; cbn [negb]; [|by exists None].
  destruct file as [dict|]; [|by exists None].
  assert (H0 : reading_ok (Ini [] [])) by (split; constructor).
  destruct (parse_sections_ok dict (secnames dict) 0 _ H0) as [(s & -> & Hs & Htitles)|[rc ->]];
    [|by exists None]. cbn [mbind outcome_bind].
  destruct (insert_swap_lr_plugin_ok s Hs) as [(u & -> & Hu & Hcase)|[rc ->]]; [|by exists None].
  cbn [mbind outcome_bind]. destruct (fill_flow_info_filled u Hu) as (t & -> & Ht & Hpl & Hl).
  exists (Some t). split; [done|]. intros t' [= <-]. split; [done|]. exists dict. split; [done|].
  cbn in Htitles. assert (Hn : length (secnames dict) = length (plugins s)).
  { by rewrite <- Htitles, length_fmap. }
  destruct Hcase as [->|Hsw]; [left; by rewrite Hpl|right].
  split; [|rewrite Hn; by eapply swap_inserted_feeds].
  destruct Hsw as (k & sink & p0 & p1 & Hk & _ & _ & _ & Hpu). rewrite Hpl, Hpu, fmap_app, list_fmap_insert.
  rewrite <- Htitles. cbn [fmap list_fmap title swap_lr_plugin]. f_equal. apply list_insert_id.
  by rewrite list_lookup_fmap, Hk.
Qed.


(** A source and a sink with two channels. *)
Definition dict_example : dictionary :=
  Dictionary
    (fun key => snd <$> List.find (fun kv => bool_decide (fst kv = key))
       [(c_str "a:library", c_str "builtin"); (c_str "a:label", c_str "source");
        (c_str "a:purpose", c_str "playback"); (c_str "a:output_0", c_str "{l}"); (c_str "a:output_1", c_str "{r}");
        (c_str "b:library", c_str "builtin"); (c_str "b:label", c_str "sink");
        (c_str "b:purpose", c_str "playback"); (c_str "b:input_0", c_str "{l}"); (c_str "b:input_1", c_str "{r}")])
    [c_str "a"; c_str "b"].

Example ini_created_example :
  match cras_dsp_ini_create true (Some dict_example) with
  | Done (Some t) => (from <$> flows t, to <$> flows t)
  | _ => ([], [])
  end = ([Some 0; Some 0; Some 2; Some 2], [Some 2; Some 2; Some 1; Some 1])%nat.
Proof. vm_compute. reflexivity. Qed.
