(* ===== verification/DspUtil.v ===== *)
(** * Samples and the DSP's float buffers (dsp/dsp_util.c)

    Taking an interleaved buffer apart into one float buffer for each channel,
    and back.  The loops are the portable ones; the variants in assembly for
    two 16 bit channels are not modelled. *)
From S2P Require Import Prelude Arrays Float32 Rounding AudioFormat Mix.
From Stdlib Require Import Floats.SpecFloat.
#[local] Open Scope Z_scope.

(** ** Memory that ports are connected to

    An audio buffer of the pipeline, or the [value] of a control port: the
    instance, whether it is an output, and the index of the port. *)
Definition location : Type := nat + nat * bool * nat.
Definition Buffer (k : nat) : location := inl k.
Definition ControlValue (n : nat) (output : bool) (j : nat) : location := inr (n, output, j).

Abbreviation store := (gmap location (list spec_float)).

(** [p[i]] and [p[i] = v]. *)
Definition load_float (mem : store) (p : location) (i : Z) : option spec_float := l ← mem !! p; ld l i.
Definition store_float (mem : store) (p : location) (i : Z) (v : spec_float) : option store :=
  l ← mem !! p; l ← st l i v; Some (<[p := l]> mem).

(** ** To floats *)

(** The channel [j] of frame [i]; [None] in [output] is [NULL]. *)
Definition deinterleave_by (C : Codec) (value : Z -> spec_float) (input : list Z) (off : Z)
    (output : list (option location)) (channels frames : Z) (mem : store) : option store :=
  for_n frames (fun i =>
    for_n channels (fun j mem =>
      x ← rd C input (off + (i * channels + j) * width);
      p ← ld output j;
      p ← p;
      store_float mem p i (value x))) mem.

Definition f32_2_15 : spec_float := f32_of_Z 32768.
Definition f32_2_31 : spec_float := f32_of_Z 2147483648.

Definition dsp_util_deinterleave_s16le := deinterleave_by codec_s16 (fun x => f32_div (f32_of_Z x) f32_2_15).
Definition dsp_util_deinterleave_s24le :=
  deinterleave_by codec_s32 (fun x => f32_div (f32_of_Z (s32 (Z.shiftl x 8))) f32_2_31).
Definition dsp_util_deinterleave_s243le := deinterleave_by codec_s243 (fun x => f32_div (f32_of_Z x) f32_2_31).
Definition dsp_util_deinterleave_s32le := deinterleave_by codec_s32 (fun x => f32_div (f32_of_Z x) f32_2_31).

Section Formats.
Context {P : pcm_library}.

(** The result and the memory; the outer [None] is undefined. *)
Definition dsp_util_deinterleave (input : list Z) (off : Z) (output : list (option location))
    (channels format frames : Z) (mem : store) : option (Z * store) :=
  if format =? SND_PCM_FORMAT_S16_LE then
    mem ← dsp_util_deinterleave_s16le input off output channels frames mem; Some (0, mem)
  else if format =? SND_PCM_FORMAT_S24_LE then
    mem ← dsp_util_deinterleave_s24le input off output channels frames mem; Some (0, mem)
  else if format =? SND_PCM_FORMAT_S24_3LE then
    mem ← dsp_util_deinterleave_s243le input off output channels frames mem; Some (0, mem)
  else if format =? SND_PCM_FORMAT_S32_LE then
    mem ← dsp_util_deinterleave_s32le input off output channels frames mem; Some (0, mem)
  else Some (- EINVAL, mem).
End Formats.

(** ** From floats *)

Definition f32_half : spec_float := S754_finite false 8388608 (-24).

(** [f += (f >= 0) ? 0.5f : -0.5f] *)
Definition round_half (f : spec_float) : spec_float :=
  f32_add f (if SFleb float_zero f then f32_half else SFopp f32_half).

(** [max(-32768, min(32767, (int)f))] *)
Definition to_s16 (f : spec_float) : option Z :=
  v ← f32_to_s32 (round_half (f32_mul f f32_2_15)); Some (cmax (-32768) (cmin 32767 v)).

(** [max((float)INT_MIN, min((float)INT_MAX, f))], converted to [int32_t]. *)
Definition fmin (a b : spec_float) : spec_float := if SFltb a b then a else b.
Definition fmax (a b : spec_float) : spec_float := if SFltb b a then a else b.
Definition to_s32 (f : spec_float) : option Z :=
  f32_to_s32 (fmax (f32_of_Z (-2147483648)) (fmin (f32_of_Z 2147483647) (round_half (f32_mul f f32_2_31)))).

Definition interleave_by (C : Codec) (value : spec_float -> option Z) (input : list (option location))
    (output : list Z) (off channels frames : Z) (mem : store) : option (list Z) :=
  for_n frames (fun i =>
    for_n channels (fun j output =>
      p ← ld input j;
      p ← p;
      f ← load_float mem p i;
      v ← value f;
      wr C output (off + (i * channels + j) * width) v)) output.

Definition dsp_util_interleave_s16le := interleave_by codec_s16 to_s16.
Definition dsp_util_interleave_s24le :=
  interleave_by codec_s32 (fun f => v ← to_s32 f; Some (Z.land (Z.shiftr v 8) 16777215)).
Definition dsp_util_interleave_s243le := interleave_by codec_s243 to_s32.
Definition dsp_util_interleave_s32le := interleave_by codec_s32 to_s32.

Definition dsp_util_interleave {P : pcm_library} (input : list (option location)) (output : list Z)
    (off channels format frames : Z) (mem : store) : option (Z * list Z) :=
  if format =? SND_PCM_FORMAT_S16_LE then
    out ← dsp_util_interleave_s16le input output off channels frames mem; Some (0, out)
  else if format =? SND_PCM_FORMAT_S24_LE then
    out ← dsp_util_interleave_s24le input output off channels frames mem; Some (0, out)
  else if format =? SND_PCM_FORMAT_S24_3LE then
    out ← dsp_util_interleave_s243le input output off channels frames mem; Some (0, out)
  else if format =? SND_PCM_FORMAT_S32_LE then
    out ← dsp_util_interleave_s32le input output off channels frames mem; Some (0, out)
  else Some (- EINVAL, output).

(** ** Samples of 16 bits survive *)

Lemma pow2_value (k : Z) (z : Z) :
  f32_exact z -> z = 2 ^ k -> 0 <= k <= 100 ->
  is_fin (f32_of_Z z) = true /\ fval (f32_of_Z z) = pw k.
Proof.
  intros Hz -> Hk. destruct (fval_of_Z _ Hz) as [Hf Hv]. split; [done|]. rewrite Hv.
  by rewrite <- pw_shift by lia.
Qed.

Lemma half_value : is_fin f32_half = true /\ fval f32_half = pw (-1).
Proof.
  split; [done|]. unfold f32_half. cbn [fval mag]. change (-1) with (-24 + 23). by rewrite (pw_shift _ 23) by lia.
Qed.

(** Adding a half of the value's sign. *)
Lemma round_half_exact (f : spec_float) (x : Z) :
  is_fin f = true -> fval f = x * pw 0 -> Z.abs x < 4194304 ->
  is_fin (round_half f) = true /\ fval (round_half f) = (2 * x + if 0 <=? x then 1 else -1) * pw (-1).
Proof.
  intros Hf Hv Hx. pose proof (pw_pos 0 ltac:(lia)). pose proof (pw_pos (-1) ltac:(lia)).
  assert (Hpw : pw 0 = 2 * pw (-1)) by (change 0 with (-1 + 1); by rewrite pw_shift by lia).
  assert (Hbig : 16777216 * pw (-1) <= pw 127).
  { change 127 with (-1 + 128). rewrite pw_shift by lia. apply Z.mul_le_mono_nonneg_r; lia. }
  destruct half_value as [Hhf Hhv]. unfold round_half. rewrite leb_fval by done. rewrite Hv.
  change (fval float_zero) with 0.
  replace (0 <=? x * pw 0) with (0 <=? x) by (destruct (Z.leb_spec 0 x), (Z.leb_spec 0 (x * pw 0)); nia).
  set (h := if 0 <=? x then f32_half else SFopp f32_half).
  assert (Hh : is_fin h = true /\ fval h = (if 0 <=? x then 1 else -1) * pw (-1)).
  { unfold h. destruct (0 <=? x); rewrite ?is_fin_opp, ?fval_opp, Hhv; split; try done; lia. }
  destruct Hh as [Hhf' Hhv'].
  assert (Hsum : fval f + fval h = (2 * x + if 0 <=? x then 1 else -1) * pw (-1)).
  { rewrite Hv, Hhv', Hpw. ring. }
  assert (Hr : rounds (fval f + fval h) 1 (f32_add f h)).
  { apply add_rounds; [done..|]. rewrite Hsum. destruct (0 <=? x); nia. }
  split; [apply Hr|]. apply (rounds_to_exact _ _ _ _ _ Hr); [unfold f32_exact; destruct (0 <=? x); lia|lia|].
  rewrite Hsum. ring.
Qed.

Lemma trunc_half (f : spec_float) (x : Z) :
  is_fin f = true -> fval f = (2 * x + if 0 <=? x then 1 else -1) * pw (-1) -> f32_trunc f = Some x.
Proof.
  intros Hf Hv. rewrite trunc_fval, Hv by done. f_equal. pose proof (pw_pos (-1) ltac:(lia)).
  replace (pw 0) with (2 * pw (-1)) by (change 0 with (-1 + 1); by rewrite pw_shift by lia).
  rewrite Z.quot_mul_cancel_r by lia. destruct (Z.leb_spec 0 x).
  - rewrite Z.quot_div_nonneg by lia. symmetry. apply (Z.div_unique _ _ _ 1); lia.
  - replace (2 * x + -1) with (- (2 * - x + 1)) by lia. rewrite Z.quot_opp_l, Z.quot_div_nonneg by lia.
    rewrite <- (Z.div_unique (2 * - x + 1) 2 (- x) 1) by lia. lia.
Qed.

Lemma s16_survives (x : Z) : is_s16 x -> to_s16 (f32_div (f32_of_Z x) f32_2_15) = Some x.
Proof.
  intros [Hl Hu]. pose proof (pw_pos 0 ltac:(lia)) as Hp0. pose proof (pw_pos (-15) ltac:(lia)) as Hp15.
  destruct (pow2_value 15 32768) as [Hsf Hsv]; [unfold f32_exact; lia|done|lia|]. fold f32_2_15 in Hsf, Hsv.
  destruct (fval_of_Z x) as [Hxf Hxv]; [unfold f32_exact; lia|].
  assert (H15 : pw 0 * pw 0 = pw (-15) * pw 15) by (exact (eq_sym (pw_prod (-15) 15 ltac:(lia) ltac:(lia)))).
  assert (Hpos15 : 0 < pw 15) by (apply pw_pos; lia).
  assert (Hdiv : rounds (fval (f32_of_Z x) * pw 0) (fval f32_2_15) (f32_div (f32_of_Z x) f32_2_15)).
  { apply div_rounds_signed; [done|done|lia|]. rewrite Hxv, Hsv.
    assert (Hle : 32768 * pw 0 <= pw 15) by (change (pw 15) with (pw (0 + 15)); rewrite pw_shift by lia; lia).
    assert (pw 0 <= pw 127) by (change 127 with (0 + 127); rewrite pw_shift by lia; nia). nia. }
  assert (Hd : fval (f32_div (f32_of_Z x) f32_2_15) = x * pw (-15)).
  { apply (rounds_to_exact _ _ _ _ _ Hdiv); [unfold f32_exact; lia|lia|]. rewrite Hxv, Hsv, <- Z.mul_assoc, H15. ring. }
  assert (Hmul : rounds (fval (f32_div (f32_of_Z x) f32_2_15) * fval f32_2_15) (pw 0)
                   (f32_mul (f32_div (f32_of_Z x) f32_2_15) f32_2_15)).
  { apply mul_rounds; [apply Hdiv|done|]. rewrite Hd, Hsv, <- Z.mul_assoc, <- H15.
    assert (Hle : 32768 * pw 0 <= pw 127) by (change 127 with (0 + 127); rewrite pw_shift by lia; nia). nia. }
  assert (Hm : fval (f32_mul (f32_div (f32_of_Z x) f32_2_15) f32_2_15) = x * pw 0).
  { apply (rounds_to_exact _ _ _ _ _ Hmul); [unfold f32_exact; lia|lia|]. rewrite Hd, Hsv, <- !Z.mul_assoc, H15. ring. }
  unfold to_s16, f32_to_s32. destruct (round_half_exact _ x (proj1 Hmul) Hm ltac:(lia)) as [Hrf Hrv].
  rewrite (trunc_half _ x) by done. cbn [mbind option_bind]. zdecide. cbn [andb mbind option_bind].
  f_equal. rewrite cmax_max, cmin_min. lia.
Qed.

(** A full scale sample of 32 bits does not survive: the float is one, and the
    conversion back leaves the range of [int]. *)
Lemma s32_full_scale : to_s32 (f32_div (f32_of_Z 2147483647) f32_2_31) = None.
Proof. reflexivity. Qed.

(** ** The loops *)

Section Loops.
Context (C : Codec) (input : list Z) (off : Z) (channels frames : nat) (locs : list location).
Hypothesis in_fits : samples_fit C input off (Z.of_nat frames * Z.of_nat channels).
Hypothesis locs_length : length locs = channels.

(** Sample [c] of frame [i]. *)
Definition sample_at (i c : nat) : Z :=
  default 0 (rd C input (off + (Z.of_nat i * Z.of_nat channels + Z.of_nat c) * width)).

Lemma sample_in (i c : nat) :
  (i < frames)%nat -> (c < channels)%nat ->
  fits C input (off + (Z.of_nat i * Z.of_nat channels + Z.of_nat c) * width) /\
  rd C input (off + (Z.of_nat i * Z.of_nat channels + Z.of_nat c) * width) = Some (sample_at i c).
Proof.
  intros Hi Hc. assert (Hf : fits C input (off + (Z.of_nat i * Z.of_nat channels + Z.of_nat c) * width)).
  { eapply samples_fit_one; [exact in_fits|]. nia. }
  split; [done|]. unfold sample_at. by rewrite rd_slice.
Qed.

Definition channel_values (value : Z -> spec_float) (c n : nat) (l : list spec_float) : list spec_float :=
  ((fun i => value (sample_at i c)) <$> seq 0 n) ++ drop n l.

Lemma channel_values_step (value : Z -> spec_float) (c n : nat) (l : list spec_float) :
  (n < length l)%nat ->
  st (channel_values value c n l) (Z.of_nat n) (value (sample_at n c)) = Some (channel_values value c (S n) l).
Proof.
  intros Hn. unfold channel_values. destruct (drop n l) as [|x r] eqn:Hd.
  { apply (f_equal length) in Hd. rewrite length_drop in Hd. cbn in Hd. lia. }
  rewrite st_Some by (rewrite length_app, length_fmap, length_seq; cbn; lia).
  f_equal. rewrite Nat2Z.id, insert_app_r_alt by (rewrite length_fmap, length_seq; lia).
  rewrite length_fmap, length_seq, Nat.sub_diag, seq_S, fmap_app, <- app_assoc. cbn. f_equal. f_equal.
  assert (Hs : drop (S n) l = drop 1 (drop n l)) by (rewrite drop_drop; f_equal; lia). by rewrite Hs, Hd.
Qed.

(** Where every channel's buffer stands after [j] samples of frame [i]. *)
Definition deinterleaved (value : Z -> spec_float) (mem0 : store) (i j : nat) (mem : store) : Prop :=
  (forall c p, locs !! c = Some p -> exists l, mem0 !! p = Some l /\
     mem !! p = Some (channel_values value c (if (c <? j)%nat then S i else i) l)) /\
  forall p, p ∉ locs -> mem !! p = mem0 !! p.

Lemma deinterleave_ok (value : Z -> spec_float) (mem0 : store) :
  NoDup locs -> Forall (fun p => exists l, mem0 !! p = Some l /\ (frames <= length l)%nat) locs ->
  exists mem, deinterleave_by C value input off (Some <$> locs) (Z.of_nat channels) (Z.of_nat frames) mem0 = Some mem /\
    (forall c p, locs !! c = Some p -> exists l, mem0 !! p = Some l /\
       mem !! p = Some (channel_values value c frames l)) /\
    forall p, p ∉ locs -> mem !! p = mem0 !! p.
Proof.
  intros Hd Hmem. rewrite Forall_lookup in Hmem. unfold deinterleave_by, for_n. rewrite !Nat2Z.id.
  destruct (for_loop_inv (fun i => deinterleaved value mem0 i 0) frames 0 (fun i => for_loop channels 0
      (fun j mem => x ← rd C input (off + (i * Z.of_nat channels + j) * width);
                    p ← ld (Some <$> locs) j; p ← p; store_float mem p i (value x))) mem0) as (mem & Hrun & Hfin).
  - split; [|done]. intros c p Hp. destruct (Hmem c p Hp) as (l & Hl & _). exists l. split; [done|].
    rewrite Hl. unfold channel_values. by rewrite drop_0.
  - intros i mem [_ Hi] Hinv.
    destruct (for_loop_inv (deinterleaved value mem0 i) channels 0
      (fun j mem => x ← rd C input (off + (Z.of_nat i * Z.of_nat channels + j) * width);
                    p ← ld (Some <$> locs) j; p ← p; store_float mem p (Z.of_nat i) (value x)) mem)
      as (mem' & -> & Hrow); [done| |].
    + intros j m [_ Hj] [Hin Hout]. destruct (lookup_lt_is_Some_2 locs j) as [p Hp]; [lia|].
      destruct (sample_in i j) as [_ ->]; [lia|lia|]. cbn [mbind option_bind].
      rewrite (ld_Some _ j (Some p)) by (by rewrite list_lookup_fmap, Hp). cbn [mbind option_bind].
      destruct (Hin j p Hp) as (l & Hl & Hm). rewrite Nat.ltb_irrefl in Hm. unfold store_float. rewrite Hm.
      cbn [mbind option_bind]. destruct (Hmem j p Hp) as (l' & Hl' & Hlen). rewrite Hl in Hl'. injection Hl' as <-.
      rewrite channel_values_step by lia. cbn [mbind option_bind]. eexists. split; [done|]. split.
      * intros c q Hq. destruct (decide (c = j)) as [->|Hne].
        -- rewrite Hp in Hq. injection Hq as <-. exists l. split; [done|]. rewrite lookup_insert_eq.
           by rewrite (proj2 (Nat.ltb_lt j (S j))) by lia.
        -- assert (Hpq : p <> q) by (intros ->; apply Hne; by eapply NoDup_lookup).
           rewrite lookup_insert_ne by done. destruct (Hin c q Hq) as (lq & Hlq & ->). exists lq. split; [done|].
           by replace (c <? S j)%nat with (c <? j)%nat by (destruct (Nat.ltb_spec c j), (Nat.ltb_spec c (S j)); lia).
      * intros q Hq. rewrite lookup_insert_ne; [by apply Hout|]. intros <-. by apply Hq, (list_elem_of_lookup_2 _ j).
    + exists mem'. split; [done|]. destruct Hrow as [Hin Hout]. split; [|done]. intros c p Hp.
      destruct (Hin c p Hp) as (l & Hl & ->). exists l. split; [done|]. apply lookup_lt_Some in Hp as Hc.
      by rewrite (proj2 (Nat.ltb_lt c (0 + channels))) by lia.
  - exists mem. split; [done|]. destruct Hfin as [Hin Hout]. split; [|done]. intros c p Hp.
    destruct (Hin c p Hp) as (l & Hl & ->). exists l. split; [done|]. by destruct c.
Qed.
End Loops.

(** Storing the sample a memory holds leaves its bytes as they are. *)
Lemma s16_rewrite (m : list Z) (off v : Z) :
  Forall is_u8 m -> fits codec_s16 m off -> rd codec_s16 m off = Some v -> wr codec_s16 m off v = Some m.
Proof.
  intros Hm Hf Hr. rewrite wr_fits by done. rewrite rd_slice in Hr by done. injection Hr as <-. f_equal.
  destruct Hf as [H0 H1]. cbn [width codec_s16] in *. unfold slice. replace (off + 2 - off) with 2 by lia.
  change (Z.to_nat 2) with 2%nat.
  destruct (drop (Z.to_nat off) m) as [|a [|b r]] eqn:Hd; try (apply (f_equal length) in Hd; rewrite length_drop in Hd;
    cbn in Hd; lia).
  assert (Hab : is_u8 a /\ is_u8 b).
  { split; [apply (proj1 (Forall_lookup _ _) Hm (Z.to_nat off + 0)%nat)|apply (proj1 (Forall_lookup _ _) Hm (Z.to_nat off + 1)%nat)];
      by rewrite <- lookup_drop, Hd. }
  cbn [take]. assert (Henc : @encode codec_s16 (@decode codec_s16 [a; b]) = [a; b]).
  { destruct Hab as [? ?]. unfold is_u8 in *.
    change (@encode codec_s16 (@decode codec_s16 [a; b])) with
      [u8 (s16 (a + 256 * (b + 256 * 0))); u8 (Z.shiftr (s16 (a + 256 * (b + 256 * 0))) 8)].
    rewrite Z.shiftr_div_pow2 by lia. change (2 ^ 8) with 256.
    assert (Hs : exists k, s16 (a + 256 * (b + 256 * 0)) = a + 256 * (b + 256 * k)).
    { exists (if b <? 128 then 0 else -1). unfold s16. destruct (Z.ltb_spec b 128); wrap_lia. }
    destruct Hs as [k ->]. unfold u8.
    assert (Hdiv : (a + 256 * (b + 256 * k)) / 256 = b + 256 * k) by wrap_lia.
    rewrite Hdiv. f_equal; [|f_equal]; wrap_lia. }
  change (s16 (le (a :: b :: take 0 r))) with (@decode codec_s16 [a; b]).
  rewrite Henc. rewrite <- (take_drop (Z.to_nat off) m) at 2. rewrite Hd.
  rewrite <- (take_drop (Z.to_nat off) m) at 1. rewrite Hd.
  assert (Hl : length (take (Z.to_nat off) m) = Z.to_nat off) by (rewrite length_take; lia).
  rewrite <- Hl at 1. change (a :: b :: r) with ([a; b] ++ r). cbn [list_inserts].
  rewrite insert_app_r_alt by lia. rewrite insert_app_r_alt by lia.
  replace (S _ - _)%nat with 1%nat by lia. by rewrite Nat.sub_diag.
Qed.

Lemma interleave_same (input : list Z) (off : Z) (channels frames : nat) (locs : list location) (mem : store) :
  Forall is_u8 input -> samples_fit codec_s16 input off (Z.of_nat frames * Z.of_nat channels) ->
  length locs = channels ->
  (forall c p i, locs !! c = Some p -> (i < frames)%nat ->
     load_float mem p (Z.of_nat i) = Some (f32_div (f32_of_Z (sample_at codec_s16 input off channels i c)) f32_2_15)) ->
  dsp_util_interleave_s16le (Some <$> locs) input off (Z.of_nat channels) (Z.of_nat frames) mem = Some input.
Proof.
  intros Hu Hfit Hl Hmem. unfold dsp_util_interleave_s16le, interleave_by, for_n. rewrite !Nat2Z.id.
  destruct (for_loop_inv (fun _ out => out = input) frames 0 (fun i => for_loop channels 0
    (fun j output => p ← ld (Some <$> locs) j; p ← p; f ← load_float mem p i; v ← to_s16 f;
       wr codec_s16 output (off + (i * Z.of_nat channels + j) * @width codec_s16) v)) input) as (out & Hrun & Hout);
    [done| |subst out; exact Hrun].
  intros i out [_ Hi] ->.
  destruct (for_loop_inv (fun _ out => out = input) channels 0
    (fun j output => p ← ld (Some <$> locs) j; p ← p; f ← load_float mem p (Z.of_nat i); v ← to_s16 f;
       wr codec_s16 output (off + (Z.of_nat i * Z.of_nat channels + j) * @width codec_s16) v) input)
    as (out & -> & ->); [done| |by eexists].
  intros j out [_ Hj] ->. destruct (lookup_lt_is_Some_2 locs j) as [p Hp]; [lia|].
  rewrite (ld_Some _ j (Some p)) by (by rewrite list_lookup_fmap, Hp). cbn [mbind option_bind].
  rewrite (Hmem j p i Hp) by lia. cbn [mbind option_bind].
  destruct (sample_in codec_s16 input off channels frames locs Hfit Hl i j) as [Hf Hr]; [lia|lia|].
  rewrite s16_survives by (rewrite rd_slice in Hr by done; injection Hr as <-; apply (@decode_stores codec_s16)).
  cbn [mbind option_bind]. exists input. split; [|done]. by apply s16_rewrite.
Qed.



(** A 32 bit sample near full scale does not pass: the nearest float
    is one, scaled back it is past [INT_MAX], the comparison with
    [(float)INT_MAX] lets it through, and the conversion to [int32_t] is
    undefined.  The same happens to any channel value of one or more. *)
Theorem full_scale_undefined (f : spec_float) (x : Z) :
  to_s32 (f32_div (f32_of_Z 2147483647) f32_2_31) = None /\
  (is_fin f = true -> pw 0 <= fval f -> fval f <= 2 ^ 30 * pw 0 -> to_s32 f = None).
Proof.
  split; [reflexivity|]. intros Hf Hl Hu. pose proof (pw_pos 0 ltac:(lia)) as Hp0.
  destruct (exact_float 1 31) as (g & Hg & Hgv); [unfold f32_exact; lia|lia|]. rewrite Z.mul_1_l in Hgv.
  assert (H31 : is_fin f32_2_31 = true /\ fval f32_2_31 = pw 31) by (split; reflexivity).
  destruct H31 as [H31f H31v].
  assert (Hpw31 : pw 31 = 2147483648 * pw 0) by (change (pw 31) with (pw (0 + 31)); by rewrite pw_shift by lia).
  assert (Hpw127 : 2 ^ 127 * pw 0 = pw 127) by (change (pw 127) with (pw (0 + 127)); by rewrite pw_shift by lia).
  assert (Hbig : 2 ^ 62 * pw 0 < pw 127) by (rewrite <- Hpw127; nia).
  assert (Hmul : rounds (fval f * fval f32_2_31) (pw 0) (f32_mul f f32_2_31)).
  { apply mul_rounds; [done..|]. rewrite H31v, Hpw31. nia. }
  assert (Hm : pw 31 <= fval (f32_mul f f32_2_31) <= 2 ^ 61 * pw 0).
  { destruct (exact_float 1 61) as (h & Hh & Hhv); [unfold f32_exact; lia|lia|]. rewrite Z.mul_1_l in Hhv.
    assert (Hpw61 : pw 61 = 2 ^ 61 * pw 0) by (change (pw 61) with (pw (0 + 61)); by rewrite pw_shift by lia).
    rewrite <- Hgv, <- Hpw61, <- Hhv. split; [apply (proj2 (proj2 Hmul g Hg))|apply (proj1 (proj2 Hmul h Hh))];
      rewrite ?Hgv, ?Hhv, H31v, ?Hpw61, Hpw31; nia. }
  assert (Hr : is_fin (round_half (f32_mul f f32_2_31)) = true /\ pw 31 <= fval (round_half (f32_mul f f32_2_31))).
  { destruct half_value as [Hhf Hhv]. pose proof (pw_pos (-1) ltac:(lia)) as Hph.
    assert (Hhalf : pw (-1) <= pw 0) by (change (pw 0) with (pw (-1 + 1)); rewrite pw_shift by lia; lia).
    unfold round_half. rewrite leb_fval; [|done|apply Hmul]. change (fval float_zero) with 0. zdecide.
    assert (Hadd : rounds (fval (f32_mul f f32_2_31) + fval f32_half) 1 (f32_add (f32_mul f f32_2_31) f32_half)).
    { apply add_rounds; [apply Hmul|done|]. rewrite Hhv. lia. }
    split; [apply Hadd|]. rewrite <- Hgv. apply (proj2 (proj2 Hadd g Hg)). rewrite Hgv, Hhv. lia. }
  destruct Hr as [Hrf Hrv]. unfold to_s32. set (r := round_half _) in *.
  assert (Hmax : is_fin (f32_of_Z 2147483647) = true /\ fval (f32_of_Z 2147483647) = pw 31) by (split; reflexivity).
  assert (Hmin : is_fin (f32_of_Z (-2147483648)) = true /\ fval (f32_of_Z (-2147483648)) = - pw 31) by (split; reflexivity).
  destruct Hmax as [Hxf Hxv], Hmin as [Hnf Hnv].
  assert (Hq : is_fin (fmin (f32_of_Z 2147483647) r) = true /\ pw 31 <= fval (fmin (f32_of_Z 2147483647) r)).
  { unfold fmin. destruct (SFltb _ _); by split; rewrite ?Hxv. }
  destruct Hq as [Hqf Hqv]. set (q := fmin _ _) in *. unfold fmax. rewrite ltb_fval by done. rewrite Hnv.
  assert (0 < pw 31) by (apply pw_pos; lia). zdecide. unfold f32_to_s32. rewrite trunc_fval by done.
  cbn [mbind option_bind].
  assert (2147483648 <= Z.quot (fval q) (pw 0)).
  { rewrite Z.quot_div_nonneg by lia. apply Z.div_le_lower_bound; lia. }
  by zdecide.
Qed.
