(* ===== verification/DspPipeline.v ===== *)
(** * The dynamic DSP graph (server/cras_dsp_pipeline.c)

    Instances of the plugins that are needed and enabled, in an order in which
    data flows forward, the sharing of audio buffers between them, and running
    them.  The modules behind the instances are an interface. *)
From Stdlib Require Import Floats.SpecFloat.
From S2P Require Import Prelude Arrays Float32 Timespec AudioFormat Outcome Expr DspIni DspUtil.
From Stdlib Require String.
Import String.StringSyntax.
#[local] Open Scope Z_scope.
#[local] Arguments c_str s%_string_scope.

Definition DSP_BUFFER_SIZE : Z := 2048.
Definition MODULE_INPLACE_BROKEN : Z := 1.

(** ** The module interface (server/cras_dsp_module.h) *)

Class dsp_module_library : Type := {
  dsp_module : Type;
  (** [cras_dsp_module_load_builtin], else [cras_dsp_module_load_ladspa] *)
  load_plugin : plugin -> option dsp_module;
  get_properties : dsp_module -> Z;
  module_instantiate : dsp_module -> Z -> Z * dsp_module;
  connect_port : dsp_module -> nat -> location -> outcome dsp_module;
  get_delay : dsp_module -> store -> Z;
  module_run : dsp_module -> Z -> store -> outcome (dsp_module * store);
  deinstantiate : dsp_module -> dsp_module
}.

(** ** Ports and instances *)

(** The size of the memory behind an array after [count] appends. *)
Fixpoint array_size (count : nat) : nat :=
  match count with
  | O => 0
  | S n => let size := array_size n in
           if (size <=? n)%nat then (if (size =? 0)%nat then 4 else 2 * size)%nat else size
  end.

(** A pointer to the port [ref_index] of an instance; it dangles once the
    array it points into has been moved to a larger size. *)
Record port_ref : Type := PortRef { ref_instance : nat; ref_index : nat; ref_size : nat }.

(** An audio port also has a buffer index; a control port has its value, which
    is in the store. *)
Record dsp_port (A : Type) : Type := DspPort {
  peer : option port_ref; port_plugin : nat; original_index : nat; payload : A }.
#[global] Arguments DspPort {A}.
#[global] Arguments peer {A}.
#[global] Arguments port_plugin {A}.
#[global] Arguments original_index {A}.
#[global] Arguments payload {A}.
Abbreviation audio_port := (dsp_port nat).
Abbreviation control_port := (dsp_port unit).
Definition buf_index (p : audio_port) : nat := payload p.
Definition set_peer {A} (r : port_ref) (p : dsp_port A) : dsp_port A :=
  DspPort (Some r) (port_plugin p) (original_index p) (payload p).
Definition set_buf_index (k : nat) (p : audio_port) : audio_port :=
  DspPort (peer p) (port_plugin p) (original_index p) k.

(** The arrays of an instance, one for each direction. *)
Record port_arrays (A : Type) : Type := PortArrays { inputs : list (dsp_port A); outputs : list (dsp_port A) }.
#[global] Arguments PortArrays {A}.
#[global] Arguments inputs {A}.
#[global] Arguments outputs {A}.
Definition array_of {A} (d : port_direction) (a : port_arrays A) : list (dsp_port A) :=
  match d with PORT_INPUT => inputs a | PORT_OUTPUT => outputs a end.
Definition set_array {A} (d : port_direction) (l : list (dsp_port A)) (a : port_arrays A) : port_arrays A :=
  match d with PORT_INPUT => PortArrays l (outputs a) | PORT_OUTPUT => PortArrays (inputs a) l end.

Section Pipeline.
Context {L : dsp_module_library}.

Record instance : Type := Instance {
  inst_plugin : nat; audio : port_arrays nat; control : port_arrays unit;
  module : option dsp_module; instantiated : bool; properties : Z; total_delay : Z }.

Definition new_instance (p : nat) : instance :=
  Instance p (PortArrays [] []) (PortArrays [] []) None false 0 0.
Definition set_audio (a : port_arrays nat) (i : instance) : instance :=
  Instance (inst_plugin i) a (control i) (module i) (instantiated i) (properties i) (total_delay i).
Definition set_control (c : port_arrays unit) (i : instance) : instance :=
  Instance (inst_plugin i) (audio i) c (module i) (instantiated i) (properties i) (total_delay i).

Record pipeline : Type := Pipeline {
  pl_purpose : list Z; pl_ini : ini; instances : list instance; peak_buf : Z; memory : store;
  source_instance : nat; sink_instance : nat; input_channels : Z; output_channels : Z; sample_rate : Z;
  total_time : Z; max_time : Z; min_time : Z; total_blocks : Z; total_samples : Z }.

(** ** Finding the origin of the data *)

Definition find_instance_by_plugin (insts : list instance) (p : nat) : option nat :=
  fst <$> list_find (fun i => inst_plugin i = p) insts.

(** How many outputs of the type come before output [index]. *)
Definition output_rank (ty : port_type) (index : nat) (ps : list port) : option nat :=
  if (index <? length ps)%nat
  then Some (length (filter (fun q => direction q = PORT_OUTPUT /\ type q = ty) (take index ps)))
  else None.

(** The index of the [k]-th input of the type. *)
Fixpoint nth_input (ty : port_type) (k i : nat) (ps : list port) : option nat :=
  match ps with
  | [] => None
  | q :: ps =>
      if bool_decide (direction q = PORT_INPUT) && bool_decide (type q = ty) then
        match k with O => Some i | S k => nth_input ty k (S i) ps end
      else nth_input ty k (S i) ps
  end.

(** The plugin and the port of the origin. *)
Fixpoint find_origin_port (fuel : nat) (s : ini) (insts : list instance) (p index : nat) : outcome (nat * nat) :=
  match fuel with
  | O => OutOfFuel
  | S fuel =>
      pl ← at_ (plugins s !! p);
      port ← at_ (ports pl !! index);
      let ty := type port in
      if flow_id port =? INVALID_FLOW_ID then Failed (-1) else
      f ← at_ (ld (flows s) (flow_id port));
      q ← at_ (from f);
      let index := from_port f in
      if bool_decide (is_Some (find_instance_by_plugin insts q)) then Done (q, index) else
      pl ← at_ (plugins s !! q);
      k ← or_return (-1) (output_rank ty index (ports pl));
      index ← or_return (-1) (nth_input ty k 0 (ports pl));
      find_origin_port fuel s insts q index
  end.

(** The instance and the place in its array of the output with index [index]. *)
Definition find_output_port {A} (arrays : instance -> port_arrays A) (insts : list instance) (p index : nat)
  : option (nat * nat) :=
  n ← find_instance_by_plugin insts p;
  i ← insts !! n;
  '(o, _) ← list_find (fun q => original_index q = index) (outputs (arrays i));
  Some (n, o).

Definition find_output_audio_port : list instance -> nat -> nat -> option (nat * nat) := find_output_port audio.
Definition find_output_control_port : list instance -> nat -> nat -> option (nat * nat) := find_output_port control.

Definition is_disabled (p : plugin) (env : cras_expr_env) : bool :=
  match disable_expr p with
  | Some e =>
      match cras_expr_expression_eval_boolean e env with
      | (rc, Some disabled) => (rc =? 0) && disabled
      | _ => false
      end
  | None => false
  end.

(** ** Building the instances *)

Definition port_array {A} (arrays : instance -> port_arrays A) (insts : list instance) (d : port_direction) (n : nat)
  : list (dsp_port A) := from_option (fun i => array_of d (arrays i)) [] (insts !! n).

(** A pointer to port [j] of the array of instance [n] as it is now. *)
Definition ref_to {A} (arrays : instance -> port_arrays A) (insts : list instance) (d : port_direction) (n j : nat)
  : port_ref := PortRef n j (array_size (length (port_array arrays insts d n))).

Definition append_port {A} (arrays : instance -> port_arrays A)
    (set_arrays : port_arrays A -> instance -> instance) (d : port_direction) (n : nat) (q : dsp_port A)
    (insts : list instance) : list instance :=
  alter (fun i => set_arrays (set_array d (array_of d (arrays i) ++ [q]) (arrays i)) i) n insts.

Definition set_port_peer {A} (arrays : instance -> port_arrays A)
    (set_arrays : port_arrays A -> instance -> instance) (d : port_direction) (n j : nat) (r : port_ref)
    (insts : list instance) : list instance :=
  alter (fun i => set_arrays (set_array d (alter (set_peer r) j (array_of d (arrays i))) (arrays i)) i) n insts.

(** Appends the port to instance [n] and connects it to its origin. *)
Definition append_and_connect {A} (arrays : instance -> port_arrays A)
    (set_arrays : port_arrays A -> instance -> instance) (zero : A) (n p i : nat) (d : port_direction)
    (origin : option (nat * nat)) (insts : list instance) : outcome (list instance) :=
  let j := length (port_array arrays insts d n) in
  let insts := append_port arrays set_arrays d n (DspPort None p i zero) insts in
  match origin with
  | None => Done insts
  | Some (q, index) =>
      '(m, o) ← or_return (-1) (find_output_port arrays insts q index);
      let insts := set_port_peer arrays set_arrays PORT_OUTPUT m o (ref_to arrays insts d n j) insts in
      Done (set_port_peer arrays set_arrays d n j (ref_to arrays insts PORT_OUTPUT m o) insts)
  end.

Definition add_port (fuel : nat) (s : ini) (p n : nat) (i : nat) (port : port) (st : list instance * store)
  : outcome (list instance * store) :=
  let '(insts, mem) := st in
  let need_connect := negb (flow_id port =? INVALID_FLOW_ID) && bool_decide (direction port = PORT_INPUT) in
  origin ← (if need_connect then
              o ← find_origin_port fuel s insts p i; Done (Some o)
            else Done None);
  match type port with
  | PORT_AUDIO =>
      insts ← append_and_connect audio set_audio 0%nat n p i (direction port) origin insts;
      Done (insts, mem)
  | PORT_CONTROL =>
      let j := length (port_array control insts (direction port) n) in
      let mem := <[ControlValue n (bool_decide (direction port = PORT_OUTPUT)) j := [init_value port]]> mem in
      insts ← append_and_connect control set_control tt n p i (direction port) origin insts;
      Done (insts, mem)
  end.

(** Instances, control values and the plugins visited. *)
Record sort_state : Type := SortState { st_instances : list instance; st_memory : store; visited : list bool }.

Fixpoint topological_sort (fuel : nat) (s : ini) (env : cras_expr_env) (p : nat) (st : sort_state)
  : outcome sort_state :=
  match fuel with
  | O => OutOfFuel
  | S fuel' =>
      v ← at_ (visited st !! p);
      if v : bool then Done st else
      let st := SortState (st_instances st) (st_memory st) (<[p := true]> (visited st)) in
      pl ← at_ (plugins s !! p);
      st ← foreach (fun _ port st =>
             if flow_id port =? INVALID_FLOW_ID then Done st else
             f ← at_ (ld (flows s) (flow_id port));
             q ← or_return (-1) (from f);
             topological_sort fuel' s env q st) 0 (ports pl) st;
      if is_disabled pl env then Done st else
      let n := length (st_instances st) in
      '(insts, mem) ← foreach (add_port fuel s p n) 0 (ports pl)
                     (st_instances st ++ [new_instance p], st_memory st);
      Done (SortState insts mem (visited st))
  end.

Definition is_enabled_builtin (lbl purp : list Z) (env : cras_expr_env) (p : plugin) : bool :=
  bool_decide (library p = c_str "builtin") && bool_decide (label p = lbl) &&
  bool_decide (purpose p = Some purp) && negb (is_disabled p env).

(** [None] as well when two plugins qualify. *)
Definition find_enabled_builtin_plugin (s : ini) (lbl purp : list Z) (env : cras_expr_env) : option nat :=
  match list_find (fun p => is_enabled_builtin lbl purp env p = true) (plugins s) with
  | None => None
  | Some (k, _) =>
      match list_find (fun p => is_enabled_builtin lbl purp env p = true) (drop (S k) (plugins s)) with
      | None => Some k
      | Some _ => None
      end
  end.

(** [None] is [NULL].  A graph that cannot be sorted leaves the pipeline behind. *)
Definition cras_dsp_pipeline_create (fuel : nat) (alloc : bool) (s : ini) (env : cras_expr_env) (purp : list Z)
  : outcome (option pipeline) :=
  match find_enabled_builtin_plugin s (c_str "source") purp env,
        find_enabled_builtin_plugin s (c_str "sink") purp env with
  | Some source, Some sink =>
      if negb alloc then Done None else
      match topological_sort fuel s env sink (SortState [] ∅ (replicate (length (plugins s)) false)) with
      | Failed _ => Done None
      | Undefined => Undefined
      | OutOfFuel => OutOfFuel
      | Done st =>
          let insts := st_instances st in
          match find_instance_by_plugin insts source, find_instance_by_plugin insts sink with
          | Some source, Some sink =>
              let input_channels := Z.of_nat (length (port_array audio insts PORT_OUTPUT source)) in
              let output_channels := Z.of_nat (length (port_array audio insts PORT_INPUT sink)) in
              if output_channels >? input_channels then Done None else
              Done (Some (Pipeline purp s insts 0 (st_memory st) source sink input_channels output_channels 0
                            0 0 0 0 0))
          | _, _ => Done None
          end
      end
  | _, _ => Done None
  end.

(** ** Sharing the buffers *)

Definition set_module (m : option dsp_module) (i : instance) : instance :=
  Instance (inst_plugin i) (audio i) (control i) m (instantiated i) (properties i) (total_delay i).
Definition set_properties (z : Z) (i : instance) : instance :=
  Instance (inst_plugin i) (audio i) (control i) (module i) (instantiated i) z (total_delay i).
Definition set_instantiated (b : bool) (i : instance) : instance :=
  Instance (inst_plugin i) (audio i) (control i) (module i) b (properties i) (total_delay i).
Definition set_total_delay (z : Z) (i : instance) : instance :=
  Instance (inst_plugin i) (audio i) (control i) (module i) (instantiated i) (properties i) z.
Definition set_instances (l : list instance) (p : pipeline) : pipeline :=
  Pipeline (pl_purpose p) (pl_ini p) l (peak_buf p) (memory p) (source_instance p) (sink_instance p)
    (input_channels p) (output_channels p) (sample_rate p) (total_time p) (max_time p) (min_time p)
    (total_blocks p) (total_samples p).
Definition set_memory (m : store) (p : pipeline) : pipeline :=
  Pipeline (pl_purpose p) (pl_ini p) (instances p) (peak_buf p) m (source_instance p) (sink_instance p)
    (input_channels p) (output_channels p) (sample_rate p) (total_time p) (max_time p) (min_time p)
    (total_blocks p) (total_samples p).
Definition set_peak_buf (z : Z) (p : pipeline) : pipeline :=
  Pipeline (pl_purpose p) (pl_ini p) (instances p) z (memory p) (source_instance p) (sink_instance p)
    (input_channels p) (output_channels p) (sample_rate p) (total_time p) (max_time p) (min_time p)
    (total_blocks p) (total_samples p).
Definition set_sample_rate (z : Z) (p : pipeline) : pipeline :=
  Pipeline (pl_purpose p) (pl_ini p) (instances p) (peak_buf p) (memory p) (source_instance p) (sink_instance p)
    (input_channels p) (output_channels p) z (total_time p) (max_time p) (min_time p)
    (total_blocks p) (total_samples p).

Definition load_module (p : plugin) (i : instance) : outcome instance :=
  m ← or_return (-1) (load_plugin p); Done (set_properties (get_properties m) (set_module (Some m) i)).

Definition inplace_broken (i : instance) : bool := negb (Z.land (properties i) MODULE_INPLACE_BROKEN =? 0).

(** The buffers in use after an instance, and the most ever in use. *)
Definition count_buffers (i : instance) (need_buf peak_buf : Z) : Z * Z :=
  let n_in := Z.of_nat (length (inputs (audio i))) in
  let n_out := Z.of_nat (length (outputs (audio i))) in
  if inplace_broken i then
    let need_buf := need_buf + n_out in
    (need_buf - n_in, cmax peak_buf need_buf)
  else
    let need_buf := need_buf + (n_out - n_in) in
    (need_buf, cmax peak_buf need_buf).

Definition count_all (l : list instance) : Z * Z :=
  foldl (fun '(need_buf, peak_buf) i => count_buffers i need_buf peak_buf) (0, 0) l.

(** The first buffer from [k] on that is not busy; undefined past the end. *)
Definition next_free (busy : list bool) (k : nat) : outcome nat :=
  '(j, _) ← at_ (list_find (fun b => b = false) (drop k busy)); Done (k + j)%nat.

Fixpoint use_buffers_from (busy : list bool) (k : nat) (ps : list audio_port)
  : outcome (list bool * list audio_port) :=
  match ps with
  | [] => Done (busy, [])
  | p :: ps =>
      k ← next_free busy k;
      '(busy, ps) ← use_buffers_from (<[k := true]> busy) k ps;
      Done (busy, set_buf_index k p :: ps)
  end.
Definition use_buffers (busy : list bool) (ps : list audio_port) : outcome (list bool * list audio_port) :=
  use_buffers_from busy 0 ps.

Definition unuse_buffers (busy : list bool) (ps : list audio_port) : outcome (list bool) :=
  foreach (fun _ p busy => _ ← at_ (busy !! buf_index p); Done (<[buf_index p := false]> busy)) 0 ps busy.

(** Follows a pointer to an output port. *)
Definition deref {A} (arrays : instance -> port_arrays A) (insts : list instance) (r : option port_ref)
  : outcome (dsp_port A) :=
  r ← at_ r;
  let l := port_array arrays insts PORT_OUTPUT (ref_instance r) in
  if (array_size (length l) =? ref_size r)%nat then at_ (l !! ref_index r) else Undefined.

(** Collects the input buffers of instance [i] from upstream. *)
Fixpoint collect_inputs (insts : list instance) (ps : list audio_port) : outcome (list audio_port) :=
  match ps with
  | [] => Done []
  | p :: ps =>
      q ← deref audio insts (peer p);
      ps ← collect_inputs insts ps;
      Done (set_buf_index (buf_index q) p :: ps)
  end.

(** One turn of the last loop, for instance [n]. *)
Definition assign_buffers (n : nat) (_ : instance) (st : list instance * list bool)
  : outcome (list instance * list bool) :=
  let '(insts, busy) := st in
  i ← at_ (insts !! n);
  ins ← collect_inputs insts (inputs (audio i));
  '(busy, outs) ← (if inplace_broken i then
      '(busy, outs) ← use_buffers busy (outputs (audio i));
      busy ← unuse_buffers busy ins;
      Done (busy, outs)
    else
      busy ← unuse_buffers busy ins;
      use_buffers busy (outputs (audio i)));
  Done (<[n := set_audio (PortArrays ins outs) i]> insts, busy).

Definition zero_buffer : list spec_float := replicate (Z.to_nat DSP_BUFFER_SIZE) float_zero.

(** Appends zeroed buffers with the indices from 0 to [n - 1]. *)
Fixpoint alloc_buffers (n : nat) (mem : store) : store :=
  match n with O => mem | S n => <[Buffer n := zero_buffer]> (alloc_buffers n mem) end.

(** [alloc] says whether the memory for the buffers can be had. *)
Definition allocate_buffers (alloc : bool) (p : pipeline) : outcome pipeline :=
  let '(_, peak) := count_all (instances p) in
  let p := set_peak_buf peak p in
  if negb alloc then Failed (-1) else
  let p := set_memory (alloc_buffers (Z.to_nat peak) (memory p)) p in
  '(insts, _) ← foreach assign_buffers 0 (instances p) (instances p, replicate (Z.to_nat peak) false);
  Done (set_instances insts p).

Definition cras_dsp_pipeline_load (alloc : bool) (p : pipeline) : outcome pipeline :=
  insts ← foreach (fun n i insts =>
      pl ← at_ (plugins (pl_ini p) !! inst_plugin i);
      i ← load_module pl i;
      Done (<[n := i]> insts)) 0 (instances p) (instances p);
  allocate_buffers alloc (set_instances insts p).

(** ** Instantiation *)

(** A sum of [int]s. *)
Definition add_s32 (a b : Z) : outcome Z :=
  if (-2147483648 <=? a + b) && (a + b <=? 2147483647) then Done (a + b) else Undefined.

(** The largest delay of the instances that feed the ports. *)
Definition upstream_delay (insts : list instance) (ps : list audio_port) : outcome Z :=
  foreach (fun _ p delay =>
    q ← deref audio insts (peer p);
    u ← at_ (find_instance_by_plugin insts (port_plugin q));
    u ← at_ (insts !! u);
    Done (cmax (total_delay u) delay)) 0 ps 0.

Definition calculate_audio_delay (p : pipeline) : outcome pipeline :=
  insts ← foreach (fun n _ insts =>
      i ← at_ (insts !! n);
      m ← at_ (module i);
      delay ← upstream_delay insts (inputs (audio i));
      delay ← add_s32 delay (get_delay m (memory p));
      Done (<[n := set_total_delay delay i]> insts)) 0 (instances p) (instances p);
  Done (set_instances insts p).

(** Stops at the first module that fails. *)
Fixpoint instantiate_modules (rate : Z) (l : list instance) : outcome (Z * list instance) :=
  match l with
  | [] => Done (0, [])
  | i :: l =>
      m ← at_ (module i);
      let '(rc, m) := module_instantiate m rate in
      let i := set_module (Some m) i in
      if negb (rc =? 0) then Done (-1, i :: l) else
      '(rc, l) ← instantiate_modules rate l;
      Done (rc, set_instantiated true i :: l)
  end.

(** The entry of [pipeline->buffers] a port uses. *)
Definition buffer_of (peak : Z) (p : audio_port) : outcome location :=
  if Z.of_nat (buf_index p) <? peak then Done (Buffer (buf_index p)) else Undefined.

Definition connect_audio (peak : Z) (ps : list audio_port) (m : dsp_module) : outcome dsp_module :=
  foreach (fun _ p m => buf ← buffer_of peak p; connect_port m (original_index p) buf) 0 ps m.

(** An input with a peer is connected to the peer's value. *)
Definition control_location (insts : list instance) (n j : nat) (p : control_port) : outcome location :=
  match peer p with
  | Some r => _ ← deref control insts (Some r); Done (ControlValue (ref_instance r) true (ref_index r))
  | None => Done (ControlValue n false j)
  end.

Definition connect_controls (insts : list instance) (n : nat) (c : port_arrays unit) (m : dsp_module)
  : outcome dsp_module :=
  m ← foreach (fun j p m => v ← control_location insts n j p; connect_port m (original_index p) v)
        0 (inputs c) m;
  foreach (fun j p m => connect_port m (original_index p) (ControlValue n true j)) 0 (outputs c) m.

Definition connect_instance (peak : Z) (n : nat) (_ : instance) (insts : list instance)
  : outcome (list instance) :=
  i ← at_ (insts !! n);
  m ← at_ (module i);
  m ← connect_audio peak (inputs (audio i)) m;
  m ← connect_audio peak (outputs (audio i)) m;
  m ← connect_controls insts n (control i) m;
  Done (<[n := set_module (Some m) i]> insts).

(** The result and the pipeline. *)
Definition cras_dsp_pipeline_instantiate (p : pipeline) (rate : Z) : outcome (Z * pipeline) :=
  '(rc, insts) ← instantiate_modules rate (instances p);
  let p := set_instances insts p in
  if negb (rc =? 0) then Done (-1, p) else
  let p := set_sample_rate rate p in
  insts ← foreach (connect_instance (peak_buf p)) 0 (instances p) (instances p);
  p ← calculate_audio_delay (set_instances insts p);
  Done (0, p).

Definition deinstantiate_instance (i : instance) : outcome instance :=
  if instantiated i then
    m ← at_ (module i); Done (set_instantiated false (set_module (Some (deinstantiate m)) i))
  else Done i.

Definition cras_dsp_pipeline_deinstantiate (p : pipeline) : outcome pipeline :=
  insts ← foreach (fun n i insts => i ← deinstantiate_instance i; Done (<[n := i]> insts))
            0 (instances p) (instances p);
  Done (set_sample_rate 0 (set_instances insts p)).

Definition cras_dsp_pipeline_get_delay (p : pipeline) : outcome Z :=
  i ← at_ (instances p !! sink_instance p); Done (total_delay i).
Definition cras_dsp_pipeline_get_sample_rate (p : pipeline) : Z := sample_rate p.
Definition cras_dsp_pipeline_get_num_input_channels (p : pipeline) : Z := input_channels p.
Definition cras_dsp_pipeline_get_num_output_channels (p : pipeline) : Z := output_channels p.
Definition cras_dsp_pipeline_get_peak_audio_buffers (p : pipeline) : Z := peak_buf p.
Definition cras_dsp_pipeline_get_ini (p : pipeline) : ini := pl_ini p.

(** ** Running *)

(** [None] is [NULL]. *)
Definition find_buffer (p : pipeline) (ps : list audio_port) (index : nat) : outcome (option location) :=
  match list_find (fun q => original_index q = index) ps with
  | Some (_, q) => b ← buffer_of (peak_buf p) q; Done (Some b)
  | None => Done None
  end.

Definition cras_dsp_pipeline_get_source_buffer (p : pipeline) (index : nat) : outcome (option location) :=
  find_buffer p (port_array audio (instances p) PORT_OUTPUT (source_instance p)) index.
Definition cras_dsp_pipeline_get_sink_buffer (p : pipeline) (index : nat) : outcome (option location) :=
  find_buffer p (port_array audio (instances p) PORT_INPUT (sink_instance p)) index.

Definition run_instance (sample_count : Z) (n : nat) (_ : instance) (st : list instance * store)
  : outcome (list instance * store) :=
  let '(insts, mem) := st in
  i ← at_ (insts !! n);
  m ← at_ (module i);
  '(m, mem) ← module_run m sample_count mem;
  Done (<[n := set_module (Some m) i]> insts, mem).

Definition cras_dsp_pipeline_run (p : pipeline) (sample_count : Z) : outcome pipeline :=
  '(insts, mem) ← foreach (run_instance sample_count) 0 (instances p) (instances p, memory p);
  Done (set_memory mem (set_instances insts p)).

Definition cras_dsp_pipeline_add_statistic (p : pipeline) (time_delta : timespec) (samples : Z) : pipeline :=
  if samples <=? 0 then p else
  let t := s64 (tv_sec time_delta * 1000000000 + tv_nsec time_delta) in
  let first := total_blocks p =? 0 in
  Pipeline (pl_purpose p) (pl_ini p) (instances p) (peak_buf p) (memory p) (source_instance p) (sink_instance p)
    (input_channels p) (output_channels p) (sample_rate p) (s64 (total_time p + t))
    (if first then t else cmax (max_time p) t) (if first then t else cmin (min_time p) t)
    (s64 (total_blocks p + 1)) (s64 (total_samples p + samples)).

(** The pointers to the buffers of channels [0 .. n - 1]. *)
Fixpoint channel_buffers (get : nat -> outcome (option location)) (n i : nat) : outcome (list (option location)) :=
  match n with
  | O => Done []
  | S n => b ← get i; bs ← channel_buffers get n (S i); Done (b :: bs)
  end.

Section Apply.
Context {P : pcm_library}.

(** The loop; [buf] is memory and an offset into it.  Returns the result as well. *)
Fixpoint apply_loop (fuel : nat) (p : pipeline) (source sink : list (option location)) (buf : list Z) (off : Z)
    (format remaining : Z) : outcome (Z * pipeline * list Z) :=
  if remaining <=? 0 then Done (0, p, buf) else
  match fuel with
  | O => OutOfFuel
  | S fuel =>
      let chunk := cmin remaining DSP_BUFFER_SIZE in
      '(rc, mem) ← at_ (dsp_util_deinterleave buf off source (input_channels p) format chunk (memory p));
      let p := set_memory mem p in
      if negb (rc =? 0) then Done (rc, p, buf) else
      p ← cras_dsp_pipeline_run p chunk;
      '(rc, buf) ← at_ (dsp_util_interleave sink buf off (output_channels p) format chunk (memory p));
      if negb (rc =? 0) then Done (rc, p, buf) else
      apply_loop fuel p source sink buf
        (off + chunk * output_channels p * snd_pcm_format_physical_width format / 8) format (remaining - chunk)
  end.

(** [delta] is the processor time used. *)
Definition cras_dsp_pipeline_apply (fuel : nat) (p : pipeline) (buf : list Z) (format frames : Z) (delta : timespec)
  : outcome (Z * pipeline * list Z) :=
  if frames =? 0 then Done (0, p, buf) else
  source ← channel_buffers (cras_dsp_pipeline_get_source_buffer p) (Z.to_nat (input_channels p)) 0;
  sink ← channel_buffers (cras_dsp_pipeline_get_sink_buffer p) (Z.to_nat (output_channels p)) 0;
  '(rc, p, buf) ← apply_loop fuel p source sink buf 0 format frames;
  if negb (rc =? 0) then Done (rc, p, buf) else
  Done (0, cras_dsp_pipeline_add_statistic p delta frames, buf).
End Apply.
End Pipeline.
