(* ===== verification/DspBuffers.v ===== *)
(** * Buffer sharing in DSP pipelines is safe

    [allocate_buffers] of server/cras_dsp_pipeline.c is a register allocator
    for straight-line code: an output holds its buffer until the instance that
    reads it has run.  This file states when the graph allows that, what a
    correct assignment is, and proves that the code produces one. *)
From Stdlib Require Import Floats.SpecFloat.
From Stdlib Require String.
From S2P Require Import Prelude Arrays Float32 AudioFormat Outcome Expr DspIni DspUtil DspPipeline.
Import String.StringSyntax.
#[local] Open Scope Z_scope.
#[local] Arguments c_str s%_string_scope.

(** ** Marking buffers *)

(** [busy] marks the buffers [B] out of [peak]. *)
Record marks (peak : nat) (busy : list bool) (B : list nat) : Prop := {
  mk_length : length busy = peak;
  mk_nodup : NoDup B;
  mk_iff : forall b, busy !! b = Some true <-> b ∈ B
}.

Lemma marks_lt (peak : nat) (busy : list bool) (B : list nat) (b : nat) :
  marks peak busy B -> b ∈ B -> (b < peak)%nat.
Proof. intros [<- _ H] Hb. apply H in Hb. by eapply lookup_lt_Some. Qed.

Lemma marks_set (peak : nat) (busy : list bool) (B : list nat) (b : nat) :
  marks peak busy B -> (b < peak)%nat -> b ∉ B -> marks peak (<[b := true]> busy) (b :: B).
Proof.
  intros [Hl Hd H] Hb Hn. split; [by rewrite length_insert|by apply NoDup_cons|]. intros c.
  rewrite elem_of_cons. destruct (decide (c = b)) as [->|Hne].
  - rewrite list_lookup_insert_eq by lia. split; [by left|done].
  - rewrite list_lookup_insert_ne by done. rewrite H. split; [by right|intros [?|?]; done].
Qed.

Lemma marks_clear (peak : nat) (busy : list bool) (B : list nat) (b : nat) :
  marks peak busy B -> b ∈ B -> marks peak (<[b := false]> busy) (filter (fun c => c <> b) B).
Proof.
  intros Hm Hb. pose proof (marks_lt _ _ _ _ Hm Hb) as Hlt. destruct Hm as [Hl Hd H].
  split; [by rewrite length_insert|by apply NoDup_filter|]. intros c. rewrite list_elem_of_filter, <- H.
  destruct (decide (c = b)) as [->|Hne].
  - rewrite list_lookup_insert_eq by lia. split; [done|intros [? _]; done].
  - rewrite list_lookup_insert_ne by done. split; [done|intros [_ ?]; done].
Qed.

Lemma marks_ext (peak : nat) (busy : list bool) (B B' : list nat) :
  marks peak busy B -> NoDup B' -> (forall b, b ∈ B <-> b ∈ B') -> marks peak busy B'.
Proof. intros [Hl Hd H] Hd' Hiff. split; [done..|]. intros b. by rewrite H, Hiff. Qed.

(** A buffer is free as long as not all are in use. *)
Lemma next_free_ok (peak : nat) (busy : list bool) (B : list nat) (k : nat) :
  marks peak busy B -> (length B < peak)%nat -> (forall j, (j < k)%nat -> j ∈ B) ->
  exists b, next_free busy k = Done b /\ (b < peak)%nat /\ (b ∉ B) /\ forall j, (j < S b)%nat -> j ∈ (b :: B).
Proof.
  intros Hm Hlt Hk. pose proof Hm as [Hl Hd H]. unfold next_free.
  destruct (list_find _ (drop k busy)) as [[j b]|] eqn:Hf.
  - apply list_find_Some in Hf as (Hj & -> & Hfirst). rewrite lookup_drop in Hj.
    exists (k + j)%nat. split; [done|]. split; [apply lookup_lt_Some in Hj; lia|]. split.
    + intros Hin. apply H in Hin. congruence.
    + intros i Hi. apply elem_of_cons. destruct (decide (i = k + j)%nat) as [->|Hne]; [by left|right].
      destruct (decide (i < k)%nat) as [?|Hge]; [by apply Hk|]. apply H.
      destruct (lookup_lt_is_Some_2 busy i) as [v Hv]; [apply lookup_lt_Some in Hj; lia|].
      rewrite Hv. f_equal. destruct v; [done|]. exfalso. apply (Hfirst (i - k)%nat false); [|lia|done].
      rewrite lookup_drop. by replace (k + (i - k))%nat with i by lia.
  - exfalso. rewrite list_find_None, Forall_lookup in Hf.
    assert (Hall : forall i, i ∈ seq 0 peak -> i ∈ B).
    { intros i Hi. apply elem_of_seq in Hi. destruct (decide (i < k)%nat) as [?|Hge]; [by apply Hk|]. apply H.
      destruct (lookup_lt_is_Some_2 busy i) as [v Hv]; [lia|]. rewrite Hv. f_equal. destruct v; [done|].
      exfalso. apply (Hf (i - k)%nat false); [|done]. rewrite lookup_drop. by replace (k + (i - k))%nat with i by lia. }
    pose proof (submseteq_length _ _ (NoDup_submseteq _ _ (NoDup_seq 0 peak) Hall)) as Hlen.
    rewrite length_seq in Hlen. lia.
Qed.

(** Ports with the buffers [ks]. *)
Definition with_buffers (ks : list nat) (ps : list audio_port) : list audio_port := zip_with set_buf_index ks ps.

Lemma use_buffers_from_ok (peak : nat) (ps : list audio_port) (busy : list bool) (B : list nat) (k : nat) :
  marks peak busy B -> (length B + length ps <= peak)%nat -> (forall j, (j < k)%nat -> j ∈ B) ->
  exists busy' ks, use_buffers_from busy k ps = Done (busy', with_buffers ks ps) /\ length ks = length ps /\
    NoDup ks /\ (forall b, b ∈ ks -> b ∉ B) /\ marks peak busy' (ks ++ B).
Proof.
  revert busy B k. induction ps as [|p ps IH]; intros busy B k Hm Hlen Hk; cbn [use_buffers_from].
  { exists busy, []. split; [done|]. split; [done|]. split; [constructor|]. split; [|done]. by intros b ?%not_elem_of_nil. }
  cbn [length] in Hlen. destruct (next_free_ok peak busy B k Hm) as (b & -> & Hb & Hn & Hk'); [lia|done|].
  cbn [mbind outcome_bind].
  destruct (IH (<[b := true]> busy) (b :: B) b) as (busy' & ks & -> & Hl & Hd & Hdis & Hm').
  - by apply marks_set.
  - cbn [length]. lia.
  - intros j Hj. apply Hk'. lia.
  - cbn [mbind outcome_bind]. exists busy', (b :: ks). split; [done|]. split; [cbn; by rewrite Hl|]. split.
    + apply NoDup_cons. split; [|done]. intros Hin. apply (Hdis b Hin), elem_of_cons. by left.
    + split.
      * intros c [->|Hc]%elem_of_cons; [done|]. intros Hin. apply (Hdis c Hc), elem_of_cons. by right.
      * eapply marks_ext; [exact Hm'| |].
        -- cbn. apply NoDup_cons. split.
           ++ intros [Hin|Hin]%elem_of_app; [|done]. apply (Hdis b Hin), elem_of_cons. by left.
           ++ apply NoDup_app. split; [done|]. split; [|apply Hm].
              intros c Hc Hin. apply (Hdis c Hc), elem_of_cons. by right.
        -- intros c. cbn. rewrite elem_of_cons, !elem_of_app, elem_of_cons. tauto.
Qed.

Lemma use_buffers_ok (peak : nat) (ps : list audio_port) (busy : list bool) (B : list nat) :
  marks peak busy B -> (length B + length ps <= peak)%nat ->
  exists busy' ks, use_buffers busy ps = Done (busy', with_buffers ks ps) /\ length ks = length ps /\
    NoDup ks /\ (forall b, b ∈ ks -> b ∉ B) /\ marks peak busy' (ks ++ B).
Proof. intros Hm Hl. apply use_buffers_from_ok; [done..|]. lia. Qed.

Lemma unuse_buffers_ok (peak : nat) (ps : list audio_port) (busy : list bool) (B : list nat) :
  marks peak busy B -> NoDup (buf_index <$> ps) -> (forall b, b ∈ buf_index <$> ps -> b ∈ B) ->
  exists busy', unuse_buffers busy ps = Done busy' /\ marks peak busy' (filter (fun b => b ∉ buf_index <$> ps) B).
Proof.
  unfold unuse_buffers. generalize 0%nat as i. revert busy B.
  induction ps as [|p ps IH]; intros busy B i Hm Hd Hin; cbn [foreach].
  { exists busy. split; [done|]. eapply marks_ext; [exact Hm|apply NoDup_filter, Hm|].
    intros b. rewrite list_elem_of_filter. cbn. rewrite elem_of_nil. tauto. }
  cbn [fmap list_fmap] in *. apply NoDup_cons in Hd as [Hn Hd].
  assert (Hp : buf_index p ∈ B) by (apply Hin, elem_of_cons; by left).
  destruct (lookup_lt_is_Some_2 busy (buf_index p)) as [v ->].
  { rewrite (mk_length _ _ _ Hm). by eapply marks_lt. }
  cbn [at_ mbind outcome_bind].
  destruct (IH (<[buf_index p := false]> busy) (filter (fun c => c <> buf_index p) B) (1 + i)%nat)
    as (busy' & -> & Hm'); [by apply marks_clear|done| |].
  - intros b Hb. apply list_elem_of_filter. split; [by intros ->|]. apply Hin, elem_of_cons. by right.
  - exists busy'. split; [done|]. eapply marks_ext; [exact Hm'|apply NoDup_filter, Hm|].
    intros b. rewrite !list_elem_of_filter, elem_of_cons. tauto.
Qed.

Section Buffers.
Context {L : dsp_module_library}.

(** ** Wiring *)

(** The output an input port reads: instance and place. *)
Definition source_of (p : audio_port) : nat * nat :=
  match peer p with Some r => (ref_instance r, ref_index r) | None => (0, 0)%nat end.
Definition sources (i : instance) : list (nat * nat) := source_of <$> inputs (audio i).
Definition output_at (insts : list instance) (r : nat * nat) : option audio_port :=
  port_array audio insts PORT_OUTPUT r.1 !! r.2.

(** Every input reads an output of an earlier instance, through a pointer that
    is good, and no output is read twice. *)
Record wired (insts : list instance) : Prop := {
  wi_peer : forall n i p, insts !! n = Some i -> p ∈ inputs (audio i) ->
    exists r, peer p = Some r /\ (ref_instance r < n)%nat /\
      ref_size r = array_size (length (port_array audio insts PORT_OUTPUT (ref_instance r))) /\
      is_Some (output_at insts (source_of p));
  wi_once : forall n n' i i', insts !! n = Some i -> insts !! n' = Some i' ->
    forall r, r ∈ sources i -> r ∈ sources i' -> n = n';
  wi_nodup : forall n i, insts !! n = Some i -> NoDup (sources i)
}.

(** The output [r] waits to be read before instance [n] runs. *)
Definition live (insts : list instance) (n : nat) (r : nat * nat) : Prop :=
  (r.1 < n)%nat /\ is_Some (output_at insts r) /\
  forall k i, (k < n)%nat -> insts !! k = Some i -> r ∉ sources i.

(** ** The specification of an assignment *)

Definition buffer_at (insts : list instance) (r : nat * nat) : option nat := buf_index <$> output_at insts r.

Record buffers_ok (insts : list instance) (peak : Z) : Prop := {
  bo_range : forall r b, buffer_at insts r = Some b -> Z.of_nat b < peak;
  bo_input : forall n i p, insts !! n = Some i -> p ∈ inputs (audio i) ->
    buffer_at insts (source_of p) = Some (buf_index p);
  bo_distinct : forall n r r', live insts n r -> live insts n r' -> buffer_at insts r = buffer_at insts r' -> r = r';
  bo_broken : forall n i r p, insts !! n = Some i -> inplace_broken i = true -> live insts n r ->
    p ∈ outputs (audio i) -> buffer_at insts r <> Some (buf_index p)
}.

(** What the assignment of buffers leaves alone. *)
Definition strip_port (p : audio_port) : audio_port := set_buf_index 0 p.
Definition strip (i : instance) : instance :=
  set_audio (PortArrays (strip_port <$> inputs (audio i)) (strip_port <$> outputs (audio i))) i.

Lemma strip_lookup (insts insts' : list instance) (n : nat) (i : instance) :
  strip <$> insts = strip <$> insts' -> insts !! n = Some i -> exists i', insts' !! n = Some i' /\ strip i = strip i'.
Proof.
  intros Hs Hi. assert (H : (strip <$> insts) !! n = Some (strip i)) by (by rewrite list_lookup_fmap, Hi).
  rewrite Hs, list_lookup_fmap in H. destruct (insts' !! n) as [i'|]; [|done]. apply (inj Some) in H.
  by exists i'.
Qed.

Lemma strip_ports (i i' : instance) (d : port_direction) :
  strip i = strip i' -> strip_port <$> array_of d (audio i) = strip_port <$> array_of d (audio i').
Proof. intros Hs. apply (f_equal (fun i => array_of d (audio i))) in Hs. by destruct d. Qed.

Lemma source_strip (p : audio_port) : source_of (strip_port p) = source_of p.
Proof. done. Qed.

Lemma sources_strip (i i' : instance) : strip i = strip i' -> sources i = sources i'.
Proof.
  intros Hs. apply (strip_ports _ _ PORT_INPUT) in Hs. cbn in Hs. unfold sources.
  assert (H : forall l : list audio_port, source_of <$> l = source_of <$> (strip_port <$> l)).
  { intros l. rewrite <- list_fmap_compose. by apply list_fmap_ext. }
  by rewrite (H (inputs (audio i))), Hs, <- H.
Qed.

Lemma array_length_strip (insts insts' : list instance) (d : port_direction) (n : nat) :
  strip <$> insts = strip <$> insts' -> length (port_array audio insts d n) = length (port_array audio insts' d n).
Proof.
  intros Hs. unfold port_array. destruct (insts !! n) as [i|] eqn:Hi; cbn.
  - destruct (strip_lookup _ _ _ _ Hs Hi) as (i' & -> & H). cbn.
    apply (strip_ports _ _ d), (f_equal length) in H. by rewrite !length_fmap in H.
  - destruct (insts' !! n) as [i'|] eqn:Hi'; [|done]. symmetry in Hs.
    destruct (strip_lookup _ _ _ _ Hs Hi') as (? & ? & _). congruence.
Qed.

Lemma output_strip (insts insts' : list instance) (r : nat * nat) :
  strip <$> insts = strip <$> insts' -> is_Some (output_at insts r) <-> is_Some (output_at insts' r).
Proof.
  intros Hs. unfold output_at. rewrite !lookup_lt_is_Some.
  by rewrite (array_length_strip insts insts') by done.
Qed.

Lemma live_strip (insts insts' : list instance) (n : nat) (r : nat * nat) :
  strip <$> insts = strip <$> insts' -> live insts n r -> live insts' n r.
Proof.
  intros Hs (Hlt & Ho & Hr). split; [done|]. split; [by rewrite <- (output_strip insts insts')|].
  intros k i' Hk Hi'. symmetry in Hs. destruct (strip_lookup _ _ _ _ Hs Hi') as (i & Hi & Hst).
  rewrite (sources_strip i' i) by done. by eapply Hr.
Qed.

(** ** The live outputs as a list *)

Definition outs (n : nat) (i : instance) : list (nat * nat) := pair n <$> seq 0 (length (outputs (audio i))).

(** [live_from n l t]: what is live after the instances [l], numbered from [n],
    when [t] was live before. *)
Fixpoint live_from (n : nat) (l : list instance) (t : list (nat * nat)) : list (nat * nat) :=
  match l with
  | [] => t
  | i :: l => live_from (S n) l (filter (fun r => r ∉ sources i) t ++ outs n i)
  end.
Definition live_list (insts : list instance) (n : nat) : list (nat * nat) := live_from 0 (take n insts) [].

Lemma live_from_app (n : nat) (l1 l2 : list instance) (t : list (nat * nat)) :
  live_from n (l1 ++ l2) t = live_from (n + length l1) l2 (live_from n l1 t).
Proof.
  revert n t. induction l1 as [|i l1 IH]; intros n t; cbn; [by rewrite Nat.add_0_r|].
  rewrite IH. f_equal. lia.
Qed.

Lemma live_list_S (insts : list instance) (n : nat) (i : instance) :
  insts !! n = Some i ->
  live_list insts (S n) = filter (fun r => r ∉ sources i) (live_list insts n) ++ outs n i.
Proof.
  intros Hi. unfold live_list. rewrite (take_S_r insts n i) by done. rewrite live_from_app. cbn.
  rewrite length_take_le; [done|]. apply lookup_lt_Some in Hi. lia.
Qed.

Lemma elem_of_outs (n : nat) (i : instance) (r : nat * nat) :
  r ∈ outs n i <-> r.1 = n /\ (r.2 < length (outputs (audio i)))%nat.
Proof.
  unfold outs. rewrite list_elem_of_fmap. split.
  - intros (o & -> & Ho). apply elem_of_seq in Ho. cbn. lia.
  - intros [<- Ho]. exists r.2. split; [by destruct r|]. apply elem_of_seq. lia.
Qed.

Lemma output_at_Some (insts : list instance) (n : nat) (i : instance) (o : nat) :
  insts !! n = Some i -> output_at insts (n, o) = outputs (audio i) !! o.
Proof. intros Hi. unfold output_at, port_array. cbn. by rewrite Hi. Qed.

Lemma source_before (insts : list instance) (n : nat) (i : instance) (r : nat * nat) :
  wired insts -> insts !! n = Some i -> r ∈ sources i -> (r.1 < n)%nat /\ is_Some (output_at insts r).
Proof.
  intros Hw Hi (p & -> & Hp)%list_elem_of_fmap. destruct (wi_peer _ Hw n i p Hi Hp) as (q & Hq & Hlt & _ & Ho).
  split; [|done]. unfold source_of. by rewrite Hq.
Qed.

Lemma source_live (insts : list instance) (n : nat) (i : instance) (r : nat * nat) :
  wired insts -> insts !! n = Some i -> r ∈ sources i -> live insts n r.
Proof.
  intros Hw Hi Hr. destruct (source_before _ _ _ _ Hw Hi Hr) as [Hlt Ho]. split; [done|]. split; [done|].
  intros k j Hk Hj Hin. pose proof (wi_once _ Hw n k i j Hi Hj r Hr Hin). lia.
Qed.

Lemma live_list_spec (insts : list instance) (n : nat) (r : nat * nat) :
  wired insts -> (n <= length insts)%nat -> r ∈ live_list insts n <-> live insts n r.
Proof.
  intros Hw. revert r. induction n as [|n IH]; intros r Hn.
  { unfold live_list. cbn. rewrite elem_of_nil. unfold live. split; [done|lia]. }
  destruct (lookup_lt_is_Some_2 insts n) as [i Hi]; [lia|].
  rewrite (live_list_S insts n i) by done. rewrite elem_of_app, list_elem_of_filter, IH, elem_of_outs by lia.
  unfold live. split.
  - intros [(Hns & Hlt & Ho & Hr)|[Hr1 Hr2]].
    + split; [lia|]. split; [done|]. intros k j Hk Hj. destruct (decide (k = n)) as [->|Hne]; [congruence|].
      apply (Hr k); [lia|done].
    + split; [lia|]. split.
      * destruct r as [m o]. cbn [fst snd] in *. subst m. rewrite (output_at_Some insts n i) by done. by apply lookup_lt_is_Some.
      * intros k j Hk Hj Hin. destruct (source_before _ _ _ _ Hw Hj Hin). lia.
  - intros (Hlt & Ho & Hr). destruct (decide (r.1 = n)) as [He|Hne].
    + right. split; [done|]. destruct r as [m o]. cbn [fst snd] in *. subst m.
      rewrite (output_at_Some insts n i) in Ho by done. by apply lookup_lt_is_Some.
    + left. split; [by apply (Hr n); [lia|]|]. split; [lia|]. split; [done|]. intros k j Hk. apply Hr. lia.
Qed.

Lemma live_list_nodup (insts : list instance) (n : nat) :
  wired insts -> (n <= length insts)%nat -> NoDup (live_list insts n).
Proof.
  intros Hw. induction n as [|n IH]; intros Hn; [constructor|].
  destruct (lookup_lt_is_Some_2 insts n) as [i Hi]; [lia|]. rewrite (live_list_S insts n i) by done.
  apply NoDup_app. split; [apply NoDup_filter, IH; lia|]. split.
  - intros r [_ Hr]%list_elem_of_filter. apply live_list_spec in Hr as [Hlt _]; [|done|lia].
    rewrite elem_of_outs. lia.
  - unfold outs. apply NoDup_fmap_2; [|apply NoDup_seq]. by intros a b [= ->].
Qed.

(** Reading frees as many buffers as there are inputs. *)
Lemma filter_length (insts : list instance) (n : nat) (i : instance) :
  wired insts -> insts !! n = Some i ->
  (length (filter (fun r => r ∉ sources i) (live_list insts n)) + length (inputs (audio i)) =
   length (live_list insts n))%nat.
Proof.
  intros Hw Hi. assert (Hn : (n <= length insts)%nat) by (apply lookup_lt_Some in Hi; lia).
  assert (Hp : live_list insts n ≡ₚ sources i ++ filter (fun r => r ∉ sources i) (live_list insts n)).
  { apply NoDup_Permutation; [by apply live_list_nodup| |].
    - apply NoDup_app. split; [by eapply wi_nodup|]. split; [|apply NoDup_filter; by apply live_list_nodup].
      intros r Hr [Hnr _]%list_elem_of_filter. done.
    - intros r. rewrite elem_of_app, list_elem_of_filter, live_list_spec by done. split.
      + intros Hl. destruct (decide (r ∈ sources i)); [by left|by right].
      + intros [Hr|[_ Hr]]; [by eapply source_live|done]. }
  apply Permutation_length in Hp. rewrite length_app in Hp.
  assert (length (sources i) = length (inputs (audio i))) by apply length_fmap. lia.
Qed.

(** ** Counting them *)

Lemma count_all_S (insts : list instance) (n : nat) (i : instance) :
  insts !! n = Some i ->
  count_all (take (S n) insts) = count_buffers i (count_all (take n insts)).1 (count_all (take n insts)).2.
Proof.
  intros Hi. unfold count_all. rewrite (take_S_r insts n i), foldl_app by done. cbn.
  by destruct (foldl _ _ _).
Qed.

Lemma count_need (insts : list instance) (n : nat) :
  wired insts -> (n <= length insts)%nat -> (count_all (take n insts)).1 = Z.of_nat (length (live_list insts n)).
Proof.
  intros Hw. induction n as [|n IH]; intros Hn; [done|].
  destruct (lookup_lt_is_Some_2 insts n) as [i Hi]; [lia|].
  rewrite (count_all_S insts n i), (live_list_S insts n i), IH by (done || lia).
  pose proof (filter_length insts n i Hw Hi). rewrite length_app. unfold outs. rewrite length_fmap, length_seq.
  unfold count_buffers. destruct (inplace_broken i); cbn [fst]; lia.
Qed.

Lemma count_peak_mono (insts : list instance) (n k : nat) :
  (count_all (take n insts)).2 <= (count_all (take (n + k) insts)).2.
Proof.
  induction k as [|k IH]; [by rewrite Nat.add_0_r|]. rewrite Nat.add_succ_r.
  destruct (insts !! (n + k)%nat) as [i|] eqn:Hi.
  - rewrite (count_all_S insts (n + k) i) by done. unfold count_buffers. rewrite !cmax_max.
    destruct (inplace_broken i); cbn [snd]; lia.
  - apply lookup_ge_None in Hi. rewrite (take_ge insts (S (n + k))) by lia.
    rewrite (take_ge insts (n + k)) in IH by lia. done.
Qed.

(** The room an instance needs is counted. *)
Lemma count_room (insts : list instance) (n : nat) (i : instance) :
  wired insts -> insts !! n = Some i ->
  Z.of_nat (length (live_list insts n)) + Z.of_nat (length (outputs (audio i))) -
    (if inplace_broken i then 0 else Z.of_nat (length (inputs (audio i)))) <= (count_all insts).2.
Proof.
  intros Hw Hi. assert (Hn : (n < length insts)%nat) by (by eapply lookup_lt_Some).
  assert (H : (count_all (take (S n) insts)).2 <= (count_all insts).2).
  { rewrite <- (take_ge insts (length insts)) at 2 by lia.
    replace (length insts) with (S n + (length insts - S n))%nat at 1 by lia. apply count_peak_mono. }
  rewrite (count_all_S insts n i) in H by done. rewrite <- (count_need insts n) by (done || lia).
  unfold count_buffers in H. rewrite !cmax_max in H. destruct (inplace_broken i); cbn [snd] in H; lia.
Qed.

(** ** One instance *)

Lemma nodup_fmap_inj {A B} (f : A -> B) (l : list A) (x y : A) :
  NoDup (f <$> l) -> x ∈ l -> y ∈ l -> f x = f y -> x = y.
Proof.
  intros Hd (i & Hi)%list_elem_of_lookup (j & Hj)%list_elem_of_lookup He.
  assert (i = j); [|congruence].
  apply (NoDup_lookup _ _ _ (f x) Hd); rewrite list_lookup_fmap; [by rewrite Hi|by rewrite Hj, He].
Qed.

(** The buffer of an output that exists. *)
Definition buf (insts : list instance) (r : nat * nat) : nat := default 0%nat (buffer_at insts r).

Lemma buffer_at_buf (insts : list instance) (r : nat * nat) :
  is_Some (output_at insts r) -> buffer_at insts r = Some (buf insts r).
Proof. intros [q Hq]. unfold buf, buffer_at. by rewrite Hq. Qed.

Lemma collect_inputs_ok (insts : list instance) (ps : list audio_port) :
  (forall p, p ∈ ps -> exists r, peer p = Some r /\
     ref_size r = array_size (length (port_array audio insts PORT_OUTPUT (ref_instance r))) /\
     is_Some (output_at insts (source_of p))) ->
  collect_inputs insts ps = Done ((fun p => set_buf_index (buf insts (source_of p)) p) <$> ps).
Proof.
  induction ps as [|p ps IH]; intros Hps; [done|]. cbn [collect_inputs].
  destruct (Hps p) as (r & Hr & Hsize & Ho); [by left|]. unfold deref at 1. rewrite Hr. cbn [at_ mbind outcome_bind]. cbv zeta.
  rewrite Hsize, Nat.eqb_refl. destruct Ho as [q Hq].
  assert (Hb : buf insts (source_of p) = buf_index q) by (unfold buf, buffer_at; by rewrite Hq).
  unfold output_at, source_of in Hq. rewrite Hr in Hq. cbn [fst snd] in Hq. rewrite Hq. cbn [at_ mbind outcome_bind].
  rewrite IH by (intros; apply Hps; by right). cbn [mbind outcome_bind fmap list_fmap]. by rewrite Hb.
Qed.

Lemma strip_set_buf_index (k : nat) (p : audio_port) : strip_port (set_buf_index k p) = strip_port p.
Proof. done. Qed.

Lemma with_buffers_strip (ks : list nat) (ps : list audio_port) :
  length ks = length ps -> strip_port <$> with_buffers ks ps = strip_port <$> ps.
Proof.
  revert ks. induction ps as [|p ps IH]; intros [|k ks] Hl; try done. cbn. f_equal. apply IH. by injection Hl.
Qed.

Lemma with_buffers_lookup (ks : list nat) (ps : list audio_port) (o : nat) :
  length ks = length ps -> buf_index <$> with_buffers ks ps !! o = ks !! o.
Proof.
  intros Hl. unfold with_buffers. rewrite lookup_zip_with. destruct (ks !! o) as [k|] eqn:Hk; [|done]. cbn.
  destruct (lookup_lt_is_Some_2 ps o) as [p ->]; [apply lookup_lt_Some in Hk; lia|]. done.
Qed.

Lemma strip_broken (i i' : instance) : strip i = strip i' -> inplace_broken i = inplace_broken i'.
Proof. intros Hs. apply (f_equal inplace_broken) in Hs. exact Hs. Qed.

(** The marks before and after instance [n], whichever order the code takes:
    the outputs get the buffers [ks], the inputs' buffers are given back. *)
Lemma assign_marks (peak : nat) (busy : list bool) (f : nat * nat -> nat) (live srcs : list (nat * nat))
    (ins os : list audio_port) (broken : bool) :
  marks peak busy (f <$> live) -> NoDup srcs -> (forall r, r ∈ srcs -> r ∈ live) ->
  buf_index <$> ins = f <$> srcs ->
  (length live + length os <= peak + if broken then 0 else length srcs)%nat ->
  exists busy' ks,
    (if broken then
       '(busy, outs) ← use_buffers busy os; busy ← unuse_buffers busy ins; Done (busy, outs)
     else
       busy ← unuse_buffers busy ins; use_buffers busy os) = Done (busy', with_buffers ks os) /\
    length ks = length os /\ NoDup ks /\
    marks peak busy' (ks ++ (f <$> filter (fun r => r ∉ srcs) live)) /\
    (broken = true -> forall b, b ∈ ks -> b ∉ f <$> live).
Proof.
  intros Hm Hds Hsub Hins Hroom.
  assert (Hinj : forall x y, x ∈ live -> y ∈ live -> f x = f y -> x = y).
  { intros x y. apply nodup_fmap_inj, Hm. }
  assert (Hdi : NoDup (buf_index <$> ins)).
  { rewrite Hins. apply NoDup_fmap_2_strong; [|done]. intros x y Hx Hy. apply Hinj; by apply Hsub. }
  assert (Hrest : forall b, b ∈ f <$> filter (fun r => r ∉ srcs) live <-> b ∈ f <$> live /\ b ∉ buf_index <$> ins).
  { intros b. rewrite Hins, !list_elem_of_fmap. split.
    - intros (r & -> & [Hn Hr]%list_elem_of_filter). split; [by exists r|]. intros (x & Hx & Hxs).
      apply Hn. by rewrite (Hinj r x Hr (Hsub x Hxs) Hx).
    - intros [(r & -> & Hr) Hn]. exists r. split; [done|]. apply list_elem_of_filter. split; [|done].
      intros Hrs. apply Hn. by exists r. }
  assert (Hdr : NoDup (f <$> filter (fun r => r ∉ srcs) live)).
  { apply NoDup_fmap_2_strong; [|apply NoDup_filter; by eapply NoDup_fmap_1, Hm].
    intros x y [_ Hx]%list_elem_of_filter [_ Hy]%list_elem_of_filter. by apply Hinj. }
  destruct broken.
  - destruct (use_buffers_ok peak os busy _ Hm) as (busy1 & ks & -> & Hl & Hdk & Hdis & Hm1);
      [rewrite length_fmap; lia|]. cbn [mbind outcome_bind].
    destruct (unuse_buffers_ok peak ins busy1 _ Hm1 Hdi) as (busy2 & -> & Hm2).
    { intros b Hb. apply elem_of_app. right. rewrite Hins in Hb. apply list_elem_of_fmap in Hb as (r & -> & Hr).
      by apply list_elem_of_fmap_2, Hsub. }
    cbn [mbind outcome_bind]. exists busy2, ks. split; [done|]. split; [done|]. split; [done|]. split; [|done].
    eapply marks_ext; [exact Hm2| |].
    + apply NoDup_app. split; [done|]. split; [|done]. intros b Hb [Hin _]%Hrest. by apply (Hdis b).
    + intros b. rewrite list_elem_of_filter, !elem_of_app, Hrest. split; [tauto|].
      intros [Hb|[Hb Hn]]; [|tauto]. split; [|by left]. intros Hi. apply (Hdis b Hb).
      rewrite Hins in Hi. apply list_elem_of_fmap in Hi as (r & -> & Hr). by apply list_elem_of_fmap_2, Hsub.
  - destruct (unuse_buffers_ok peak ins busy _ Hm Hdi) as (busy1 & -> & Hm1).
    { intros b Hb. rewrite Hins in Hb. apply list_elem_of_fmap in Hb as (r & -> & Hr). by apply list_elem_of_fmap_2, Hsub. }
    cbn [mbind outcome_bind].
    assert (Hm1' : marks peak busy1 (f <$> filter (fun r => r ∉ srcs) live)).
    { eapply marks_ext; [exact Hm1|done|]. intros b. rewrite list_elem_of_filter, Hrest. tauto. }
    destruct (use_buffers_ok peak os busy1 _ Hm1') as (busy2 & ks & -> & Hl & Hdk & Hdis & Hm2).
    { rewrite length_fmap. assert (Hp : live ≡ₚ srcs ++ filter (fun r => r ∉ srcs) live).
      { apply NoDup_Permutation; [by eapply NoDup_fmap_1, Hm| |].
        - apply NoDup_app. split; [done|]. split; [|apply NoDup_filter; by eapply NoDup_fmap_1, Hm].
          intros r Hr [Hnr _]%list_elem_of_filter. done.
        - intros r. rewrite elem_of_app, list_elem_of_filter. split.
          + intros Hr. destruct (decide (r ∈ srcs)); [by left|by right].
          + intros [Hr|[_ Hr]]; [by apply Hsub|done]. }
      apply Permutation_length in Hp. rewrite length_app in Hp. lia. }
    exists busy2, ks. split; [done|]. split; [done|]. split; [done|]. by split.
Qed.

(** ** The loop *)

Record assigned (insts insts' : list instance) (n peak : nat) (busy : list bool) : Prop := {
  as_strip : strip <$> insts = strip <$> insts';
  as_marks : marks peak busy (buf insts' <$> live_list insts n);
  as_range : forall r, (r.1 < n)%nat -> is_Some (output_at insts r) -> (buf insts' r < peak)%nat;
  as_input : forall k i p, (k < n)%nat -> insts' !! k = Some i -> p ∈ inputs (audio i) ->
    buf insts' (source_of p) = buf_index p;
  as_distinct : forall k r r', (k < n)%nat -> live insts k r -> live insts k r' ->
    buf insts' r = buf insts' r' -> r = r';
  as_broken : forall k i r p, (k < n)%nat -> insts' !! k = Some i -> inplace_broken i = true ->
    live insts k r -> p ∈ outputs (audio i) -> buf insts' r <> buf_index p
}.

Lemma source_of_input (insts insts' : list instance) (k : nat) (i' : instance) (p : audio_port) :
  wired insts -> strip <$> insts = strip <$> insts' -> insts' !! k = Some i' -> p ∈ inputs (audio i') ->
  exists i, insts !! k = Some i /\ source_of p ∈ sources i.
Proof.
  intros Hw Hs Hi' Hp. symmetry in Hs. destruct (strip_lookup _ _ _ _ Hs Hi') as (i & Hi & Hst).
  exists i. split; [done|]. rewrite <- (sources_strip i' i) by done. by apply list_elem_of_fmap_2.
Qed.

Section Step.
Context (insts insts' : list instance) (n peak : nat) (busy : list bool) (i i' : instance).
Hypothesis wires : wired insts.
Hypothesis before : assigned insts insts' n peak busy.
Hypothesis at_n : insts !! n = Some i.
Hypothesis at_n' : insts' !! n = Some i'.
Context (ks : list nat).
Hypothesis ks_length : length ks = length (outputs (audio i')).

Let ins := (fun p => set_buf_index (buf insts' (source_of p)) p) <$> inputs (audio i').
Let insts'' := <[n := set_audio (PortArrays ins (with_buffers ks (outputs (audio i')))) i']> insts'.

Lemma step_at : insts'' !! n = Some (set_audio (PortArrays ins (with_buffers ks (outputs (audio i')))) i').
Proof. apply list_lookup_insert_eq. by eapply lookup_lt_Some. Qed.

Lemma step_strip : strip <$> insts = strip <$> insts''.
Proof.
  rewrite (as_strip _ _ _ _ _ before). unfold insts''. rewrite list_fmap_insert. symmetry. apply list_insert_id.
  rewrite list_lookup_fmap, at_n'. cbn. f_equal. unfold strip, set_audio. cbn. f_equal. f_equal.
  - unfold ins. rewrite <- list_fmap_compose. by apply list_fmap_ext.
  - by apply eq_sym, with_buffers_strip.
Qed.

Lemma step_buf_other (r : nat * nat) : r.1 <> n -> buf insts'' r = buf insts' r.
Proof.
  intros Hr. unfold buf, buffer_at, output_at, port_array, insts''. by rewrite list_lookup_insert_ne by done.
Qed.

Lemma step_buf_new (o : nat) : (o < length ks)%nat -> ks !! o = Some (buf insts'' (n, o)).
Proof.
  intros Ho. unfold buf, buffer_at. rewrite (output_at_Some _ _ _ _ step_at). cbn [outputs audio set_audio].
  rewrite with_buffers_lookup by done. by destruct (lookup_lt_is_Some_2 ks o Ho) as [k ->].
Qed.

Lemma step_outs : ks = buf insts'' <$> outs n i.
Proof.
  assert (Hl : length (outputs (audio i)) = length ks).
  { rewrite ks_length. pose proof (array_length_strip insts insts' PORT_OUTPUT n (as_strip _ _ _ _ _ before)) as H.
    unfold port_array in H. by rewrite at_n, at_n' in H. }
  apply list_eq. intros o. rewrite list_lookup_fmap. unfold outs. rewrite list_lookup_fmap.
  destruct (decide (o < length ks)%nat) as [Hlt|Hge].
  - rewrite lookup_seq_lt by lia. cbn. by apply step_buf_new.
  - rewrite lookup_ge_None_2 by lia. rewrite lookup_seq_ge by lia. done.
Qed.

Lemma step_assigned (busy' : list bool) :
  marks peak busy' (ks ++ (buf insts' <$> filter (fun r => r ∉ sources i) (live_list insts n))) ->
  NoDup ks -> (inplace_broken i' = true -> forall b, b ∈ ks -> b ∉ buf insts' <$> live_list insts n) ->
  assigned insts insts'' (S n) peak busy'.
Proof.
  intros Hm Hd Hbroken. destruct before as [Hs Hmarks Hrange Hinput Hdist Hbr].
  assert (Hn : (n < length insts)%nat) by (by eapply lookup_lt_Some).
  assert (Hold : forall k r, (k <= n)%nat -> live insts k r -> buf insts'' r = buf insts' r).
  { intros k r Hk [Hlt _]. apply step_buf_other. lia. }
  split; [exact step_strip| | | | |].
  - rewrite (live_list_S insts n i) by done. rewrite fmap_app, <- step_outs.
    assert (Heq : buf insts'' <$> filter (fun r => r ∉ sources i) (live_list insts n) =
                  buf insts' <$> filter (fun r => r ∉ sources i) (live_list insts n)).
    { apply list_fmap_ext. intros j r Hr. apply list_elem_of_lookup_2, list_elem_of_filter in Hr as [_ Hr].
      apply live_list_spec in Hr; [|done|lia]. by apply (Hold n). }
    rewrite Heq. eapply marks_ext; [exact Hm| |].
    + destruct Hm as [_ Hd2 _]. by rewrite Permutation_app_comm.
    + intros b. rewrite !elem_of_app. tauto.
  - intros r Hr Ho. destruct (decide (r.1 = n)) as [He|Hne]; [|rewrite step_buf_other by done; apply Hrange; [lia|done]].
    destruct r as [m o]. cbn [fst] in He. subst m. rewrite (output_at_Some insts n i) in Ho by done.
    apply lookup_lt_is_Some in Ho. eapply (marks_lt _ _ _ _ Hm). apply elem_of_app. left. rewrite step_outs.
    apply list_elem_of_fmap_2, elem_of_outs. done.
  - intros k j p Hk Hj Hp.
    destruct (source_of_input insts insts'' k j p wires step_strip Hj Hp) as (j0 & Hj0 & Hsrc).
    destruct (source_before _ _ _ _ wires Hj0 Hsrc) as [Hlt _].
    rewrite step_buf_other by lia. destruct (decide (k = n)) as [->|Hne].
    + rewrite step_at in Hj. injection Hj as <-. cbn in Hp. apply list_elem_of_fmap in Hp as (q & -> & _). done.
    + unfold insts'' in Hj. rewrite list_lookup_insert_ne in Hj by done. apply (Hinput k j); [lia|done..].
  - intros k r r' Hk Hr Hr'. rewrite !(Hold k) by (done || lia). destruct (decide (k = n)) as [->|Hne].
    + apply (nodup_fmap_inj _ (live_list insts n)); [apply Hmarks|by apply live_list_spec; [|lia|]..].
    + apply (Hdist k); [lia|done..].
  - intros k j r p Hk Hj Hbrk Hr Hp. rewrite (Hold k) by (done || lia). destruct (decide (k = n)) as [->|Hne].
    + rewrite step_at in Hj. injection Hj as <-. cbn in Hp, Hbrk. intros He.
      apply (Hbroken Hbrk (buf_index p)).
      * apply list_elem_of_lookup in Hp as [o Ho]. apply (list_elem_of_lookup_2 _ o).
        by rewrite <- (with_buffers_lookup ks (outputs (audio i')) o), Ho.
      * rewrite <- He. apply list_elem_of_fmap_2, live_list_spec; [done|lia|done].
    + unfold insts'' in Hj. rewrite list_lookup_insert_ne in Hj by done. by apply (Hbr k j); [lia|..].
Qed.
End Step.

Lemma strip_input (i i' : instance) (p : audio_port) :
  strip i = strip i' -> p ∈ inputs (audio i') -> exists q, q ∈ inputs (audio i) /\ peer q = peer p.
Proof.
  intros Hs Hp. apply (strip_ports _ _ PORT_INPUT) in Hs. cbn in Hs.
  assert (H : strip_port p ∈ strip_port <$> inputs (audio i)) by (rewrite Hs; by apply list_elem_of_fmap_2).
  apply list_elem_of_fmap in H as (q & Hq & Hin). exists q. split; [done|]. by apply (f_equal peer) in Hq.
Qed.

Lemma assign_step (insts insts' : list instance) (n peak : nat) (busy : list bool) (i x : instance) :
  wired insts -> Z.of_nat peak = (count_all insts).2 -> assigned insts insts' n peak busy -> insts !! n = Some i ->
  exists st, assign_buffers n x (insts', busy) = Done st /\ assigned insts st.1 (S n) peak st.2.
Proof.
  intros Hw Hpeak Has Hi. pose proof (as_strip _ _ _ _ _ Has) as Hs.
  destruct (strip_lookup _ _ _ _ Hs Hi) as (i' & Hi' & Hst).
  assert (Hn : (n < length insts)%nat) by (by eapply lookup_lt_Some).
  assert (Hlen : forall d, length (array_of d (audio i)) = length (array_of d (audio i'))).
  { intros d. apply (strip_ports _ _ d), (f_equal length) in Hst. by rewrite !length_fmap in Hst. }
  pose proof (Hlen PORT_INPUT) as Hli. pose proof (Hlen PORT_OUTPUT) as Hlo. cbn in Hli, Hlo.
  unfold assign_buffers. rewrite Hi'. cbn [at_ mbind outcome_bind].
  rewrite collect_inputs_ok.
  2:{ intros p Hp. destruct (strip_input i i' p Hst Hp) as (q & Hqin & Hq).
      destruct (wi_peer _ Hw n i q Hi Hqin) as (r & Hr & _ & Hsize & Ho). exists r. split; [by rewrite <- Hq|].
      split; [by rewrite <- (array_length_strip insts insts')|].
      rewrite <- (output_strip insts insts') by done. unfold source_of in *. by rewrite <- Hq. }
  cbn [mbind outcome_bind]. pose proof (count_room insts n i Hw Hi) as Hroom.
  destruct (assign_marks peak busy (buf insts') (live_list insts n) (sources i)
    ((fun p => set_buf_index (buf insts' (source_of p)) p) <$> inputs (audio i')) (outputs (audio i'))
    (inplace_broken i')) as (busy' & ks & -> & Hl & Hd & Hm & Hb).
  - apply Has.
  - by eapply wi_nodup.
  - intros r Hr. apply live_list_spec; [done|lia|]. by eapply source_live.
  - rewrite (sources_strip i i') by done. unfold sources. rewrite <- !list_fmap_compose. by apply list_fmap_ext.
  - rewrite (strip_broken i i') in Hroom by done. unfold sources. rewrite length_fmap.
    destruct (inplace_broken i'); lia.
  - cbn [mbind outcome_bind]. eexists. split; [done|]. cbn [fst snd]. by apply (step_assigned insts insts' n peak busy i i').
Qed.

Lemma assign_all (insts : list instance) (peak : nat) :
  wired insts -> Z.of_nat peak = (count_all insts).2 ->
  exists insts' busy, foreach assign_buffers 0 insts (insts, replicate peak false) = Done (insts', busy) /\
    assigned insts insts' (length insts) peak busy.
Proof.
  intros Hw Hpeak.
  destruct (foreach_inv (fun n st => assigned insts st.1 n peak st.2) assign_buffers insts 0 (insts, replicate peak false))
    as ([insts' busy] & Hrun & Hfin).
  - split; cbn [fst snd]; [done| | | | |]; try (intros; lia). unfold live_list. cbn.
    split; [by rewrite length_replicate|constructor|]. intros b. rewrite elem_of_nil. split; [|done].
    intros [? _]%lookup_replicate. done.
  - intros k x [insts' busy] Hx Has. cbn [Nat.add]. by eapply assign_step.
  - by exists insts', busy.
Qed.

Lemma live_le (insts : list instance) (n m : nat) (r : nat * nat) :
  live insts n r -> (m <= n)%nat -> (r.1 < m)%nat -> live insts m r.
Proof. intros (_ & Ho & Hr) Hm Hlt. split; [done|]. split; [done|]. intros k i Hk. apply Hr. lia. Qed.

Lemma assigned_ok (insts insts' : list instance) (peak : nat) (busy : list bool) :
  wired insts -> assigned insts insts' (length insts) peak busy -> buffers_ok insts' (Z.of_nat peak).
Proof.
  intros Hw Has. pose proof Has as [Hs Hmarks Hrange Hinput Hdist Hbr].
  assert (Hlen : length insts' = length insts) by (by rewrite <- (length_fmap strip insts'), <- Hs, length_fmap).
  assert (Hlive : forall k r, live insts' k r -> live insts k r) by (intros; by eapply live_strip).
  assert (Hout : forall r, is_Some (output_at insts' r) -> (r.1 < length insts)%nat).
  { intros r Hr. unfold output_at, port_array in Hr. destruct (insts' !! r.1) eqn:Hk.
    - apply lookup_lt_Some in Hk. lia.
    - cbn in Hr. by destruct Hr. }
  split.
  - intros r b Hb. assert (Ho : is_Some (output_at insts' r)).
    { unfold buffer_at in Hb. destruct (output_at insts' r); [done|done]. }
    rewrite buffer_at_buf in Hb by done. injection Hb as <-. apply inj_lt, Hrange; [by apply Hout|].
    by rewrite (output_strip insts insts').
  - intros n i p Hi Hp. destruct (source_of_input insts insts' n i p Hw Hs Hi Hp) as (j & Hj & Hsrc).
    destruct (source_before _ _ _ _ Hw Hj Hsrc) as [_ Ho]. rewrite buffer_at_buf by (by rewrite <- (output_strip insts insts')).
    f_equal. apply (Hinput n i); [|done..]. apply lookup_lt_Some in Hi. lia.
  - intros n r r' Hr Hr' He. pose proof Hr as (_ & Ho & _). pose proof Hr' as (_ & Ho' & _).
    rewrite !buffer_at_buf in He by done. injection He as He.
    destruct (decide (n < length insts)%nat) as [?|Hge]; [by apply (Hdist n); [|apply Hlive..|]|].
    apply (nodup_fmap_inj (buf insts') (live_list insts (length insts))); [apply Hmarks| | |done];
      (apply live_list_spec; [done|lia|]); (apply (live_le _ n); [by apply Hlive|lia|by apply Hout]).
  - intros n i r p Hi Hbrk Hr Hp He. pose proof Hr as (_ & Ho & _). rewrite buffer_at_buf in He by done. injection He as He.
    apply (Hbr n i r p); try done; [apply lookup_lt_Some in Hi; lia|by apply Hlive].
Qed.

Lemma allocate_buffers_ok (p : pipeline) (Hwired : wired (instances p)) :
  exists p', allocate_buffers true p = Done p' /\
    buffers_ok (instances p') (peak_buf p') /\ peak_buf p' = (count_all (instances p)).2 /\
    strip <$> instances p' = strip <$> instances p /\
    (forall b, Z.of_nat b < peak_buf p' -> memory p' !! Buffer b = Some zero_buffer).
Proof.
  unfold allocate_buffers. pose proof (count_peak_mono (instances p) 0 (length (instances p))) as Hpos.
  rewrite take_0, Nat.add_0_l, take_ge in Hpos by lia. cbn in Hpos.
  destruct (count_all (instances p)) as [need peak] eqn:Hc. cbn [fst snd negb] in *. cbn zeta.
  destruct (assign_all (instances p) (Z.to_nat peak) Hwired) as (insts' & busy & Hrun & Has).
  { rewrite Hc. cbn. lia. }
  cbn [instances set_memory set_peak_buf memory]. rewrite Hrun. cbn [mbind outcome_bind].
  eexists. split; [done|]. cbn [instances set_instances set_memory set_peak_buf peak_buf memory].
  split; [rewrite <- (Z2Nat.id peak) by lia; by eapply assigned_ok|]. split; [done|].
  split; [symmetry; apply Has|]. intros b Hb.
  assert (H : forall n mem, (b < n)%nat -> alloc_buffers n mem !! Buffer b = Some zero_buffer).
  { induction n as [|n IH]; intros mem Hlt; [lia|]. cbn [alloc_buffers].
    destruct (decide (b = n)) as [->|Hne]; [by rewrite lookup_insert_eq|].
    rewrite lookup_insert_ne by (intros [=]; done). apply IH. lia. }
  apply H. lia.
Qed.
(** Claim C32: sharing the audio buffers is safe.  When every input reads an
    output of an earlier instance and no output is read twice, the buffers
    counted are enough: the search for a free one never leaves [busy].  In the
    result every port has a buffer that exists, an input has the buffer of the
    output it reads, outputs that wait to be read have different buffers, and a
    module that cannot work in place gets output buffers that hold no waiting
    output, its own inputs included.  Nothing else of the instances changes. *)
Theorem allocation_safe (p : pipeline) (Hwired : wired (instances p)) :
  exists p', allocate_buffers true p = Done p' /\
    buffers_ok (instances p') (peak_buf p') /\ peak_buf p' = (count_all (instances p)).2 /\
    strip <$> instances p' = strip <$> instances p /\
    (forall b, Z.of_nat b < peak_buf p' -> memory p' !! Buffer b = Some zero_buffer).
Proof. by apply allocate_buffers_ok. Qed.
End Buffers.

(** A source with two outputs, a module that reads the first one and is broken
    in place, and a sink. *)
Definition no_modules : dsp_module_library := {|
  dsp_module := unit; load_plugin _ := None; get_properties _ := 0; module_instantiate m _ := (0, m);
  connect_port m _ _ := Done m; get_delay _ _ := 0; module_run m _ mem := Done (m, mem); deinstantiate m := m |}.

Definition instances_example : list (@instance no_modules) :=
  let out n i := DspPort None n i 0%nat in
  let inp n i m o size := DspPort (Some (PortRef m o size)) n i 0%nat in
  let inst n ins outs props := @Instance no_modules n (PortArrays ins outs) (PortArrays [] []) (Some tt) false props 0 in
  [inst 0 [] [out 0 0; out 0 1] 0%Z;
   inst 1 [inp 1 0 0 0 4] [out 1 1] 1%Z;
   inst 2 [inp 2 0 1 0 4; inp 2 1 0 1 4] [] 0%Z]%nat.

Definition pipeline_example : @pipeline no_modules :=
  @Pipeline no_modules [] (Ini [] []) instances_example 0 ∅ 0 2 2 2 0 0 0 0 0 0.

Lemma wired_example : wired instances_example.
Proof.
  split.
  - intros n i p Hi Hp. destruct n as [|[|[|n]]]; [| | |done]; cbn in Hi; injection Hi as <-; cbn in Hp;
      repeat (apply elem_of_cons in Hp as [->|Hp]); try (by apply not_elem_of_nil in Hp);
      (eexists; split; [reflexivity|]; split; [cbn; lia|]; split; [reflexivity|by eexists]).
  - intros n n' i i' Hi Hi' r Hr Hr'.
    destruct n as [|[|[|n]]]; [| | |done]; cbn in Hi; injection Hi as <-;
    destruct n' as [|[|[|n']]]; try done; cbn in Hi'; injection Hi' as <-; cbn in Hr, Hr'; set_solver.
  - intros n i Hi. destruct n as [|[|[|n]]]; [| | |done]; cbn in Hi; injection Hi as <-;
      apply (bool_decide_unpack _); vm_compute; exact I.
Qed.

Lemma allocation_safe_witness :
  wired (instances pipeline_example) /\
  exists p', allocate_buffers true pipeline_example = Done p' /\ buffers_ok (instances p') (peak_buf p').
Proof.
  split; [exact wired_example|].
  destruct (allocation_safe pipeline_example wired_example) as (p' & H1 & H2 & _). exact (ex_intro _ p' (conj H1 H2)).
Defined.

(** A graph in which a plugin reads one flow twice. *)
Definition dict_twice : dictionary :=
  let section n lbl := [(n ++ c_str ":library", c_str "builtin"); (n ++ c_str ":label", lbl);
                        (n ++ c_str ":purpose", c_str "playback")] in
  Dictionary
    (fun key => snd <$> List.find (fun kv => bool_decide (fst kv = key))
       (section (c_str "a") (c_str "source") ++ section (c_str "b") (c_str "mix") ++
        section (c_str "c") (c_str "split") ++ section (c_str "d") (c_str "sink") ++
        [(c_str "a:output_0", c_str "{x}"); (c_str "a:output_1", c_str "{y}");
         (c_str "b:input_0", c_str "{x}"); (c_str "b:input_1", c_str "{x}"); (c_str "b:output_2", c_str "{z}");
         (c_str "c:input_0", c_str "{z}"); (c_str "c:output_1", c_str "{u}"); (c_str "c:output_2", c_str "{v}");
         (c_str "d:input_0", c_str "{u}"); (c_str "d:input_1", c_str "{v}")]))
    [c_str "a"; c_str "b"; c_str "c"; c_str "d"].

Definition dsp_env_example : cras_expr_env :=
  cras_expr_env_set_variable_boolean (cras_expr_env_install_builtins CRAS_EXPR_ENV_INIT) (c_str "swap_lr_disabled") 1.

(** The condition is not checked.  An ini file in which one flow feeds
    two inputs is read and made into a pipeline, but the buffers in use are then
    counted too low, and the search for a free one reads and writes past the end
    of [busy]. *)
Theorem flow_read_twice_overflows :
  exists s p, cras_dsp_ini_create true (Some dict_twice) = Done (Some s) /\
    @cras_dsp_pipeline_create no_modules 10 true s dsp_env_example (c_str "playback") = Done (Some p) /\
    length (instances p) = 4%nat /\ allocate_buffers true p = Undefined.
Proof.
  destruct (cras_dsp_ini_create true (Some dict_twice)) as [[s|]| | |] eqn:Hs; vm_compute in Hs; try done.
  exists s. injection Hs as <-. eexists. split; [done|]. split; [vm_compute; reflexivity|]. split; [reflexivity|].
  vm_compute. reflexivity.
Qed.
