(* ===== verification/DspSort.v ===== *)
(** * DSP pipelines are wired as the ini file says

    [topological_sort] and [find_origin_port] of server/cras_dsp_pipeline.c, on
    graphs without cycles in which a flow joins one output to one input. *)
From Stdlib Require Import Floats.SpecFloat.
From Stdlib Require String.
From S2P Require Import Prelude Arrays Float32 AudioFormat Outcome Expr DspIni DspUtil DspPipeline DspBuffers.
Import String.StringSyntax.
#[local] Open Scope Z_scope.
#[local] Arguments c_str s%_string_scope.

Section Graph.
Context (s : ini) (env : cras_expr_env).

(** The output [o] of plugin [q] is joined to the input [j] of plugin [i]. *)
Definition feeds (i j q o : nat) : Prop :=
  exists p f, port_at s i j = Some p /\ direction p = PORT_INPUT /\ flow_id p <> INVALID_FLOW_ID /\
    flows s !! Z.to_nat (flow_id p) = Some f /\ from f = Some q /\ from_port f = o.

Record graph_ok (rank : nat -> nat) : Prop := {
  go_ini : ini_ok s;
  go_rank : forall i, (i < length (plugins s))%nat -> (rank i < length (plugins s))%nat;
  go_acyclic : forall i j q o, feeds i j q o -> (rank q < rank i)%nat;
  go_once : forall i j p i' j' p', port_at s i j = Some p -> port_at s i' j' = Some p' ->
    flow_id p = flow_id p' -> flow_id p <> INVALID_FLOW_ID -> direction p = direction p' -> i = i' /\ j = j';
  go_typed : forall i j p i' j' p', port_at s i j = Some p -> port_at s i' j' = Some p' ->
    flow_id p = flow_id p' -> flow_id p <> INVALID_FLOW_ID -> type p = type p';
  go_audio : forall i j p, port_at s i j = Some p -> type p = PORT_AUDIO -> flow_id p <> INVALID_FLOW_ID
}.

(** A disabled plugin. *)
Definition off (q : nat) : Prop := exists pl, plugins s !! q = Some pl /\ is_disabled pl env = true.
#[local] Instance off_dec (q : nat) : Decision (off q).
Proof.
  destruct (plugins s !! q) as [pl|] eqn:Hq.
  - destruct (is_disabled pl env) eqn:Hd; [left; by exists pl|right]. intros (pl' & Hq' & Hd'). congruence.
  - right. intros (pl & Hq' & _). congruence.
Defined.

(** From an input fed by the disabled plugin [q] to the input of [q] that takes
    its place: the one with the rank of the output among those of its type. *)
Definition up (i j q j' : nat) : Prop :=
  exists p pl o k, feeds i j q o /\ port_at s i j = Some p /\ plugins s !! q = Some pl /\
    output_rank (type p) o (ports pl) = Some k /\ nth_input (type p) k 0 (ports pl) = Some j'.

(** Where the data of input [j] of plugin [i] comes from. *)
Inductive origin (i j : nat) (q o : nat) : Prop :=
  | origin_here : feeds i j q o -> ~ off q -> origin i j q o
  | origin_up r j' : up i j r j' -> off r -> origin r j' q o -> origin i j q o.

(** ** Different inputs have different origins *)

Lemma nth_input_spec (ty : port_type) (k b j : nat) (ps : list port) :
  nth_input ty k b ps = Some j ->
  exists p, ps !! (j - b)%nat = Some p /\ (b <= j)%nat /\ direction p = PORT_INPUT /\ type p = ty /\
    length (filter (fun q => direction q = PORT_INPUT /\ type q = ty) (take (j - b) ps)) = k.
Proof.
  revert k b. induction ps as [|q ps IH]; intros k b; cbn [nth_input]; [done|].
  destruct (bool_decide (direction q = PORT_INPUT) && bool_decide (type q = ty)) eqn:Hq.
  - apply andb_true_iff in Hq as [Hd%bool_decide_eq_true Ht%bool_decide_eq_true]. destruct k as [|k].
    + intros [= <-]. exists q. rewrite Nat.sub_diag. cbn. done.
    + intros (p & Hp & Hb & Hpd & Hpt & Hk)%IH. exists p.
      replace (j - b)%nat with (S (j - S b)) by lia. cbn [lookup list_lookup take].
      rewrite filter_cons_True by done. cbn [length]. split_and!; [done|lia|done|done|lia].
  - intros (p & Hp & Hb & Hpd & Hpt & Hk)%IH. exists p.
    replace (j - b)%nat with (S (j - S b)) by lia. cbn [lookup list_lookup take].
    rewrite filter_cons_False; [by split_and!; [|lia|..]|].
    intros [Hd Ht]. rewrite !bool_decide_eq_true_2 in Hq by done. done.
Qed.

(** Positions of the matching elements are determined by their ranks. *)
Lemma rank_inj {A} (P : A -> Prop) `{!forall x, Decision (P x)} (l : list A) (i j : nat) (x y : A) :
  l !! i = Some x -> l !! j = Some y -> P x -> P y ->
  length (filter P (take i l)) = length (filter P (take j l)) -> i = j.
Proof.
  assert (Hlt : forall i j x, (i < j)%nat -> l !! i = Some x -> P x ->
    (length (filter P (take i l)) < length (filter P (take j l)))%nat).
  { intros a b z Hab Hz HP. replace b with (S a + (b - S a))%nat by lia.
    rewrite <- take_take_drop, (take_S_r l a z), !filter_app, !length_app, filter_cons_True by done.
    cbn [length]. lia. }
  intros Hi Hj Hx Hy He. destruct (lt_eq_lt_dec i j) as [[Hl|?]|Hl]; [|done|].
  - specialize (Hlt i j x Hl Hi Hx). lia.
  - specialize (Hlt j i y Hl Hj Hy). lia.
Qed.

Section Ok.
Context (rank : nat -> nat).
Hypothesis ok : graph_ok rank.

Lemma feeds_output (i j q o : nat) :
  feeds i j q o -> exists p p', port_at s i j = Some p /\ port_at s q o = Some p' /\ direction p = PORT_INPUT /\
    direction p' = PORT_OUTPUT /\ flow_id p' = flow_id p /\ flow_id p <> INVALID_FLOW_ID /\ type p' = type p.
Proof.
  intros (p & f & Hp & Hd & Hid & Hf & Hq & <-). pose proof (io_from s (go_ini _ ok) _ f Hf) as He. rewrite Hq in He.
  destruct He as (p' & Hp' & Hd' & Hid').
  assert (Hpos : 0 <= flow_id p).
  { unfold port_at in Hp. destruct (plugins s !! i) as [pl|] eqn:Hi; [|done]. cbn in Hp.
    pose proof (proj1 (Forall_lookup _ _) (proj1 (Forall_lookup _ _) (io_ids s (go_ini _ ok)) i pl Hi) j p Hp) as H.
    cbn in H. lia. }
  rewrite Z2Nat.id in Hid' by done. exists p, p'. split_and!; try done.
  apply (go_typed _ ok q (from_port f) p' i j p Hp' Hp Hid'). congruence.
Qed.

Lemma feeds_inj (i j i' j' q o : nat) : feeds i j q o -> feeds i' j' q o -> i = i' /\ j = j'.
Proof.
  intros H1 H2. destruct (feeds_output _ _ _ _ H1) as (p1 & r1 & Hp1 & Hr1 & Hd1 & _ & Hf1 & Hv1 & _).
  destruct (feeds_output _ _ _ _ H2) as (p2 & r2 & Hp2 & Hr2 & Hd2 & _ & Hf2 & _).
  rewrite Hr1 in Hr2. injection Hr2 as <-. eapply (go_once _ ok); [exact Hp1|exact Hp2|congruence|done|congruence].
Qed.

Lemma up_inj (i j i' j' q k : nat) : up i j q k -> up i' j' q k -> i = i' /\ j = j'.
Proof.
  intros (p1 & pl & o1 & k1 & Hf1 & Hp1 & Hpl & Ho1 & Hn1) (p2 & pl2 & o2 & k2 & Hf2 & Hp2 & Hpl2 & Ho2 & Hn2).
  rewrite Hpl in Hpl2. injection Hpl2 as <-.
  apply nth_input_spec in Hn1 as (x & Hx & _ & _ & Ht1 & Hk1). apply nth_input_spec in Hn2 as (y & Hy & _ & _ & Ht2 & Hk2).
  rewrite Hx in Hy. injection Hy as <-. assert (Hty : type p1 = type p2) by congruence. rewrite <- Hty in *.
  assert (k1 = k2) as <- by congruence. unfold output_rank in Ho1, Ho2.
  destruct (_ <? _)%nat; [|done]. destruct (_ <? _)%nat; [|done]. injection Ho1 as Ho1. injection Ho2 as Ho2.
  destruct (feeds_output _ _ _ _ Hf1) as (a1 & r1 & Ha1 & Hr1 & _ & Hd1 & _ & _ & Hta1).
  destruct (feeds_output _ _ _ _ Hf2) as (a2 & r2 & Ha2 & Hr2 & _ & Hd2 & _ & _ & Hta2).
  rewrite Hp1 in Ha1. injection Ha1 as <-. rewrite Hp2 in Ha2. injection Ha2 as <-.
  unfold port_at in Hr1, Hr2. rewrite Hpl in Hr1, Hr2. cbn in Hr1, Hr2.
  assert (o1 = o2) as <-.
  { apply (rank_inj (fun q => direction q = PORT_OUTPUT /\ type q = type p1) (ports pl) o1 o2 r1 r2 Hr1 Hr2);
      [done|by rewrite Hty|congruence]. }
  by eapply feeds_inj.
Qed.

(** [n] steps up, and the output reached. *)
Fixpoint ups (n : nat) (i j q o : nat) : Prop :=
  match n with
  | O => feeds i j q o
  | S n => exists r j', up i j r j' /\ off r /\ ups n r j' q o
  end.

Lemma origin_ups (i j q o : nat) : origin i j q o -> exists n, ups n i j q o.
Proof. induction 1 as [i j q o Hf _|i j q o r j' Hu Hr _ [n Hn]]; [by exists 0%nat|]. exists (S n). by exists r, j'. Qed.

Lemma ups_inj (n i j i' j' q o : nat) : ups n i j q o -> ups n i' j' q o -> i = i' /\ j = j'.
Proof.
  revert i j i' j'. induction n as [|n IH]; intros i j i' j'; cbn [ups]; [apply feeds_inj|].
  intros (r & k & Hu & _ & H) (r' & k' & Hu' & _ & H'). destruct (IH _ _ _ _ H H') as [<- <-]. by eapply up_inj.
Qed.

(** The longer of two ways to an output passes the start of the shorter one. *)
Lemma ups_split (m n i j q o : nat) :
  ups (m + n) i j q o -> exists i' j', ups n i' j' q o /\ (m <> 0%nat -> off i') /\ (m = 0%nat -> i' = i /\ j' = j).
Proof.
  revert i j. induction m as [|m IH]; intros i j H; cbn [Nat.add ups] in H; [by exists i, j|].
  destruct H as (r & k & Hu & Hr & H). destruct (IH r k H) as (i' & j' & H' & Hm & H0). exists i', j'.
  split; [done|]. split; [|done]. intros _. destruct (decide (m = 0%nat)) as [->|Hne]; [|by apply Hm].
  by destruct H0 as [-> _].
Qed.

Lemma origin_inj (i j i' j' q o : nat) :
  ~ off i -> ~ off i' -> origin i j q o -> origin i' j' q o -> i = i' /\ j = j'.
Proof.
  assert (H : forall n m i j i' j', ups n i j q o -> ups (m + n) i' j' q o -> ~ off i -> i = i' /\ j = j').
  { intros n m a1 b1 a2 b2 H1 H2 Ha1. destruct (ups_split m n a2 b2 q o H2) as (a & b & H & Hm & H0).
    destruct (ups_inj n _ _ _ _ _ _ H1 H) as [<- <-]. destruct (decide (m = 0%nat)) as [->|Hne].
    - by destruct H0 as [-> ->].
    - by destruct Ha1; apply Hm. }
  intros Hi Hi' [n Hn]%origin_ups [m Hm]%origin_ups. destruct (Nat.le_gt_cases n m) as [Hle|Hlt].
  - apply (H n (m - n)%nat); [done|by rewrite Nat.sub_add|done].
  - destruct (H m (n - m)%nat i' j' i j) as [-> ->]; [done|by rewrite Nat.sub_add by lia|done..].
Qed.

Context {L : dsp_module_library}.

(** ** Finding the origin *)

Definition plugins_of (insts : list instance) : list nat := inst_plugin <$> insts.

Lemma find_instance_None (insts : list instance) (q : nat) :
  find_instance_by_plugin insts q = None <-> q ∉ plugins_of insts.
Proof.
  unfold find_instance_by_plugin, plugins_of. destruct (list_find _ insts) as [[n i]|] eqn:Hf; cbn.
  - split; [done|]. intros Hn. destruct Hn. apply list_find_Some in Hf as (Hi & <- & _).
    by apply list_elem_of_fmap_2, (list_elem_of_lookup_2 _ n).
  - split; [|done]. intros _ (i & -> & Hi)%list_elem_of_fmap. apply list_find_None in Hf.
    rewrite Forall_forall in Hf. by apply (Hf i).
Qed.

Lemma find_instance_Some (insts : list instance) (q n : nat) :
  find_instance_by_plugin insts q = Some n -> exists i, insts !! n = Some i /\ inst_plugin i = q.
Proof.
  unfold find_instance_by_plugin. intros ([n' i] & H & ->)%fmap_Some. apply list_find_Some in H as (Hi & Hq & _).
  by exists i.
Qed.

(** [V] holds of plugins whose inputs have been followed to the end. *)
Definition closed (V : nat -> Prop) (q : nat) : Prop :=
  forall j p, port_at s q j = Some p -> flow_id p <> INVALID_FLOW_ID ->
    exists f r, flows s !! Z.to_nat (flow_id p) = Some f /\ from f = Some r /\ (direction p = PORT_INPUT -> V r).

Lemma find_origin_ok (V : nat -> Prop) (insts : list instance) (fuel i j : nat) (p : port) :
  (forall q, V q -> closed V q) -> (forall q, V q -> q ∈ plugins_of insts <-> ~ off q) ->
  closed V i -> port_at s i j = Some p -> direction p = PORT_INPUT -> (rank i < fuel)%nat ->
  returns (find_origin_port fuel s insts i j) (fun r => origin i j r.1 r.2 /\ V r.1).
Proof.
  intros HV Hinst. revert i j p. induction fuel as [|fuel IH]; intros i j p Hi Hp Hd Hfuel; [lia|].
  cbn [find_origin_port]. pose proof Hp as Hp'. unfold port_at in Hp'.
  destruct (plugins s !! i) as [pl|] eqn:Hpl; [|done]. cbn in Hp'. cbn [at_ mbind outcome_bind]. rewrite Hp'.
  cbn [at_ mbind outcome_bind]. destruct (Z.eqb_spec (flow_id p) INVALID_FLOW_ID) as [He|He]; [done|].
  destruct (Hi j p Hp He) as (f & q & Hf & Hq & Hvq). specialize (Hvq Hd).
  assert (Hfeeds : feeds i j q (from_port f)) by (exists p, f; done).
  assert (Hpos : 0 <= flow_id p).
  { pose proof (proj1 (Forall_lookup _ _) (proj1 (Forall_lookup _ _) (io_ids s (go_ini _ ok)) i pl Hpl) j p Hp') as H.
    cbn in H. lia. }
  rewrite <- (Z2Nat.id (flow_id p)) by done. rewrite (ld_Some _ _ _ Hf). cbn [at_ mbind outcome_bind].
  rewrite Hq. cbn [at_ mbind outcome_bind]. cbv zeta.
  destruct (find_instance_by_plugin insts q) as [n|] eqn:Hn.
  - rewrite bool_decide_eq_true_2 by done. cbn. split; [|done]. apply origin_here; [done|].
    apply (Hinst q Hvq). destruct (find_instance_Some _ _ _ Hn) as (x & Hx & <-).
    apply list_elem_of_fmap_2. by eapply list_elem_of_lookup_2.
  - rewrite bool_decide_eq_false_2 by (by intros [? ?]).
    assert (Hoff : off q). { destruct (decide (off q)); [done|]. apply find_instance_None in Hn. by apply Hinst in n. }
    destruct Hoff as (plq & Hplq & Hdis). rewrite Hplq. cbn [at_ mbind outcome_bind].
    destruct (output_rank (type p) (from_port f) (ports plq)) as [k|] eqn:Hk; [|done]. cbn [or_return mbind outcome_bind].
    destruct (nth_input (type p) k 0 (ports plq)) as [j'|] eqn:Hj'; [|done]. cbn [or_return mbind outcome_bind].
    pose proof (nth_input_spec _ _ _ _ _ Hj') as (x & Hx & _ & Hxd & _). rewrite Nat.sub_0_r in Hx.
    eapply returns_mono; [apply (IH q j' x)|].
    + by apply HV.
    + unfold port_at. by rewrite Hplq.
    + done.
    + pose proof (go_acyclic _ ok _ _ _ _ Hfeeds). lia.
    + intros [r o] [Ho Hv]. split; [|done]. cbn [fst snd] in *. eapply (origin_up _ _ _ _ q j'); [|by exists plq|done].
      by exists p, plq, (from_port f), k.
Qed.

(** ** What an instance looks like to the others *)

Record shape : Type := Shape { sh_plugin : nat; sh_inputs : list audio_port; sh_outputs : list nat }.
Definition shape_of (i : instance) : shape :=
  Shape (inst_plugin i) (inputs (audio i)) (original_index <$> outputs (audio i)).

(** The indices of the audio ports of a direction. *)
Definition is_audio (d : port_direction) (p : port) : bool :=
  bool_decide (type p = PORT_AUDIO) && bool_decide (direction p = d).
Fixpoint audio_indices (d : port_direction) (k : nat) (ps : list port) : list nat :=
  match ps with
  | [] => []
  | p :: ps => if is_audio d p then k :: audio_indices d (S k) ps else audio_indices d (S k) ps
  end.
Definition audio_ports (q : nat) (d : port_direction) : list nat :=
  from_option (fun pl => audio_indices d 0 (ports pl)) [] (plugins s !! q).

(** An input is connected to its origin, in one of the shapes [l]. *)
Definition connected (l : list shape) (q : nat) (p : audio_port) : Prop :=
  exists m k sh o, peer p = Some (PortRef m k (array_size (length (sh_outputs sh)))) /\ l !! m = Some sh /\
    sh_outputs sh !! k = Some o /\ origin q (original_index p) (sh_plugin sh) o.

(** The shape with the ports up to [j]. *)
Record shape_upto (l : list shape) (ps : list port) (sh : shape) : Prop := {
  su_inputs : original_index <$> sh_inputs sh = audio_indices PORT_INPUT 0 ps;
  su_outputs : sh_outputs sh = audio_indices PORT_OUTPUT 0 ps;
  su_connected : Forall (connected l (sh_plugin sh)) (sh_inputs sh)
}.

Definition shapes_ok (l : list shape) : Prop :=
  NoDup (sh_plugin <$> l) /\
  forall n sh, l !! n = Some sh -> ~ off (sh_plugin sh) /\
    exists pl, plugins s !! sh_plugin sh = Some pl /\ shape_upto (take n l) (ports pl) sh.

Lemma audio_indices_snoc (d : port_direction) (k : nat) (ps : list port) (p : port) :
  audio_indices d k (ps ++ [p]) =
  audio_indices d k ps ++ (if is_audio d p then [(k + length ps)%nat] else []).
Proof.
  revert k. induction ps as [|q ps IH]; intros k; cbn [audio_indices app length].
  - rewrite Nat.add_0_r. by destruct (is_audio d p).
  - rewrite IH. rewrite <- Nat.add_succ_comm. by destruct (is_audio d q).
Qed.

Lemma plugins_shapes (insts : list instance) : plugins_of insts = sh_plugin <$> (shape_of <$> insts).
Proof. unfold plugins_of. rewrite <- list_fmap_compose. by apply list_fmap_ext. Qed.

(** Instances of well-formed shapes are wired. *)
Lemma shapes_wired (insts : list instance) : shapes_ok (shape_of <$> insts) -> wired insts.
Proof.
  intros [Hnd Hsh].
  assert (Hshape : forall n i, insts !! n = Some i -> ~ off (inst_plugin i) /\
    Forall (connected (take n (shape_of <$> insts)) (inst_plugin i)) (inputs (audio i)) /\
    NoDup (original_index <$> inputs (audio i))).
  { intros n i Hi. destruct (Hsh n (shape_of i)) as (Hoff & pl & _ & [Hin _ Hc]); [by rewrite list_lookup_fmap, Hi|].
    split; [done|]. split; [exact Hc|]. cbn in Hin. rewrite Hin. clear.
    assert (H : forall k ps, Forall (fun j => (k <= j)%nat) (audio_indices PORT_INPUT k ps) /\
      NoDup (audio_indices PORT_INPUT k ps)).
    { intros k ps. revert k. induction ps as [|p ps IH]; intros k; cbn [audio_indices]; [split; constructor|].
      destruct (IH (S k)) as [Hf Hn]. destruct (is_audio PORT_INPUT p).
      - split; [constructor; [lia|]|apply NoDup_cons; split; [|done]].
        + eapply Forall_impl; [exact Hf|]. cbn. lia.
        + intros Hk. rewrite Forall_forall in Hf. specialize (Hf k Hk). lia.
      - split; [|done]. eapply Forall_impl; [exact Hf|]. cbn. lia. }
    apply H. }
  (* the source of an input, as an origin *)
  assert (Hsrc : forall n i p, insts !! n = Some i -> p ∈ inputs (audio i) ->
    exists m k i' o, peer p = Some (PortRef m k (array_size (length (port_array audio insts PORT_OUTPUT m)))) /\
      (m < n)%nat /\ insts !! m = Some i' /\ (original_index <$> outputs (audio i')) !! k = Some o /\
      origin (inst_plugin i) (original_index p) (inst_plugin i') o).
  { intros n i p Hi Hp. destruct (Hshape n i Hi) as (_ & Hc & _). rewrite Forall_forall in Hc.
    destruct (Hc p Hp) as (m & k & sh & o & Hpeer & Hm & Ho & Horg). apply lookup_take_Some in Hm as [Hm Hlt].
    rewrite list_lookup_fmap in Hm. destruct (insts !! m) as [i'|] eqn:Hi'; [|done]. injection Hm as <-.
    exists m, k, i', o. split; [|done]. rewrite Hpeer. cbn [sh_outputs shape_of]. unfold port_array. rewrite Hi'. cbn.
    by rewrite length_fmap. }
  split.
  - intros n i p Hi Hp. destruct (Hsrc n i p Hi Hp) as (m & k & i' & o & Hpeer & Hlt & Hi' & Ho & _).
    eexists. split; [exact Hpeer|]. split; [done|]. split; [done|]. unfold source_of. rewrite Hpeer. cbn [ref_instance ref_index].
    rewrite (output_at_Some _ _ _ _ Hi'). rewrite list_lookup_fmap in Ho. by destruct (outputs (audio i') !! k).
  - intros n n' i i' Hi Hi' r (p & -> & Hp)%list_elem_of_fmap (p' & Hr & Hp')%list_elem_of_fmap.
    destruct (Hsrc n i p Hi Hp) as (m & k & x & o & Hpeer & _ & Hx & Ho & Horg).
    destruct (Hsrc n' i' p' Hi' Hp') as (m' & k' & x' & o' & Hpeer' & _ & Hx' & Ho' & Horg').
    unfold source_of in Hr. rewrite Hpeer, Hpeer' in Hr. cbn in Hr. injection Hr as <- <-.
    rewrite Hx in Hx'. injection Hx' as <-. rewrite Ho in Ho'. injection Ho' as <-.
    destruct (origin_inj _ _ _ _ _ _ (proj1 (Hshape n i Hi)) (proj1 (Hshape n' i' Hi')) Horg Horg') as [He _].
    apply (NoDup_lookup (sh_plugin <$> (shape_of <$> insts)) n n' (inst_plugin i)); [done|..];
      rewrite !list_lookup_fmap; [by rewrite Hi|by rewrite Hi', He].
  - intros n i Hi. destruct (Hshape n i Hi) as (Hoff & _ & Hd). unfold sources.
    apply NoDup_fmap_2_strong; [|by eapply NoDup_fmap_1]. intros p p' Hp Hp' Hr.
    destruct (Hsrc n i p Hi Hp) as (m & k & x & o & Hpeer & _ & Hx & Ho & Horg).
    destruct (Hsrc n i p' Hi Hp') as (m' & k' & x' & o' & Hpeer' & _ & Hx' & Ho' & Horg').
    unfold source_of in Hr. rewrite Hpeer, Hpeer' in Hr. cbn in Hr. injection Hr as <- <-.
    rewrite Hx in Hx'. injection Hx' as <-. rewrite Ho in Ho'. injection Ho' as <-.
    destruct (origin_inj _ _ _ _ _ _ Hoff Hoff Horg Horg') as [_ He]. by apply (nodup_fmap_inj original_index _ _ _ Hd).
Qed.

(** ** Adding a port *)

(** The instance under construction, after those in [l]. *)
Definition building (l : list shape) (sh : shape) (insts : list instance) : Prop :=
  shape_of <$> insts = l ++ [sh].

Lemma shape_alter (f : instance -> instance) (n : nat) (insts : list instance) :
  (forall i, shape_of (f i) = shape_of i) -> shape_of <$> alter f n insts = shape_of <$> insts.
Proof.
  intros Hf. rewrite (list_fmap_alter shape_of f id); [by rewrite list_alter_id|]. by apply Forall_true.
Qed.

Lemma shape_set_peer (m o : nat) (r : port_ref) (insts : list instance) :
  shape_of <$> set_port_peer audio set_audio PORT_OUTPUT m o r insts = shape_of <$> insts.
Proof.
  apply shape_alter. intros i. unfold shape_of. cbn. f_equal.
  rewrite (list_fmap_alter original_index (set_peer r) id); [by rewrite list_alter_id|]. by apply Forall_true.
Qed.

(** Control ports do not show. *)
Lemma connect_control_ok (n p i : nat) (d : port_direction) (org : option (nat * nat)) (insts : list instance) :
  returns (append_and_connect control set_control tt n p i d org insts)
    (fun insts' => shape_of <$> insts' = shape_of <$> insts).
Proof.
  unfold append_and_connect. destruct org as [[q index]|]; [|by apply shape_alter].
  eapply returns_bind; [by apply (returns_or_return _ _ (fun _ => True))|]. intros [m o] _. cbn.
  unfold set_port_peer. rewrite !shape_alter; [by apply shape_alter|done..].
Qed.

Lemma alter_last {A} (f : A -> A) (l : list A) (x : A) : alter f (length l) (l ++ [x]) = l ++ [f x].
Proof. induction l as [|y l IH]; cbn; [done|]. f_equal. exact IH. Qed.

Lemma append_shape (l : list shape) (sh : shape) (insts : list instance) (d : port_direction) (q : audio_port) :
  building l sh insts ->
  building l (match d with
              | PORT_INPUT => Shape (sh_plugin sh) (sh_inputs sh ++ [q]) (sh_outputs sh)
              | PORT_OUTPUT => Shape (sh_plugin sh) (sh_inputs sh) (sh_outputs sh ++ [original_index q])
              end) (append_port audio set_audio d (length l) q insts).
Proof.
  unfold building, append_port. intros Hb.
  rewrite (list_fmap_alter shape_of _ (fun sh => match d with
    | PORT_INPUT => Shape (sh_plugin sh) (sh_inputs sh ++ [q]) (sh_outputs sh)
    | PORT_OUTPUT => Shape (sh_plugin sh) (sh_inputs sh) (sh_outputs sh ++ [original_index q]) end)).
  - rewrite Hb. apply alter_last.
  - apply Forall_true. intros i. destruct d; [done|]. unfold shape_of. cbn. by rewrite fmap_app.
Qed.

(** The length of an array of the instance under construction. *)
Lemma building_inputs (l : list shape) (sh : shape) (insts : list instance) :
  building l sh insts -> port_array audio insts PORT_INPUT (length l) = sh_inputs sh.
Proof.
  intros Hb. assert (H : (shape_of <$> insts) !! length l = Some sh) by (rewrite Hb; by apply list_lookup_middle).
  rewrite list_lookup_fmap in H. unfold port_array. destruct (insts !! length l); [|done]. cbn in *. by injection H as <-.
Qed.

Lemma find_output_shape (l : list shape) (insts : list instance) (q index m o : nat) :
  shape_of <$> insts = l -> find_output_port audio insts q index = Some (m, o) ->
  exists sh, l !! m = Some sh /\ sh_plugin sh = q /\ sh_outputs sh !! o = Some index /\
    length (port_array audio insts PORT_OUTPUT m) = length (sh_outputs sh).
Proof.
  intros <-. unfold find_output_port. destruct (find_instance_by_plugin insts q) as [m'|] eqn:Hm; [|done]. cbn.
  destruct (find_instance_Some _ _ _ Hm) as (i & Hi & Hq). rewrite Hi. cbn.
  destruct (list_find _ (outputs (audio i))) as [[o' x]|] eqn:Ho; [|done]. cbn. intros [= -> ->].
  apply list_find_Some in Ho as (Ho & Hx & _). exists (shape_of i). rewrite list_lookup_fmap, Hi. split; [done|].
  split; [done|]. split; [cbn; by rewrite list_lookup_fmap, Ho, <- Hx|]. unfold port_array. rewrite Hi. cbn.
  by rewrite length_fmap.
Qed.

Lemma connect_input_ok (l : list shape) (sh : shape) (insts : list instance) (i q index : nat) :
  building l sh insts -> q <> sh_plugin sh -> origin (sh_plugin sh) i q index ->
  returns (append_and_connect audio set_audio 0%nat (length l) (sh_plugin sh) i PORT_INPUT (Some (q, index)) insts)
    (fun insts' => exists p, original_index p = i /\ connected l (sh_plugin sh) p /\
       building l (Shape (sh_plugin sh) (sh_inputs sh ++ [p]) (sh_outputs sh)) insts').
Proof.
  intros Hb Hne Horg. unfold append_and_connect. rewrite (building_inputs l sh insts Hb).
  pose proof (append_shape l sh insts PORT_INPUT (DspPort None (sh_plugin sh) i 0%nat) Hb) as Hb1. cbn iota in Hb1.
  set (insts1 := append_port _ _ _ _ _ _) in *.
  eapply returns_bind; [apply (returns_or_return _ _ (fun r => find_output_port audio insts1 q index = Some r)); done|].
  intros [m o] Hfind. destruct (find_output_shape _ _ _ _ _ _ Hb1 Hfind) as (sh' & Hm & Hq & Ho & Hlen).
  assert (Hlt : l !! m = Some sh').
  { apply lookup_app_Some in Hm as [Hm|[Hm1 Hm2]]; [done|]. exfalso.
    destruct (m - length l)%nat as [|k]; [|done]. cbn in Hm2. injection Hm2 as <-. done. }
  cbn [returns]. set (insts2 := set_port_peer audio set_audio PORT_OUTPUT m o _ insts1).
  assert (Hb2 : shape_of <$> insts2 = shape_of <$> insts1) by apply shape_set_peer.
  assert (Hlen2 : length (port_array audio insts2 PORT_OUTPUT m) = length (sh_outputs sh')).
  { assert (H : (shape_of <$> insts2) !! m = Some sh') by (rewrite Hb2, Hb1; exact Hm).
    rewrite list_lookup_fmap in H. unfold port_array. destruct (insts2 !! m) as [x|]; [|done]. cbn in *.
    injection H as <-. cbn. by rewrite length_fmap. }
  exists (set_peer (PortRef m o (array_size (length (sh_outputs sh')))) (DspPort None (sh_plugin sh) i 0%nat)).
  split; [done|]. split; [exists m, o, sh', index; by rewrite Hq|].
  unfold building, set_port_peer. rewrite (list_fmap_alter shape_of _ (fun sh0 =>
    Shape (sh_plugin sh0) (alter (set_peer (ref_to audio insts2 PORT_OUTPUT m o)) (length (sh_inputs sh)) (sh_inputs sh0))
      (sh_outputs sh0))) by (by apply Forall_true).
  rewrite Hb2, Hb1, alter_last. cbn [sh_plugin sh_inputs sh_outputs]. rewrite alter_last. unfold ref_to. by rewrite Hlen2.
Qed.

(** One turn of the loop over the ports of plugin [p]. *)
Definition built_upto (l : list shape) (p : nat) (ps : list port) (insts : list instance) : Prop :=
  exists sh, sh_plugin sh = p /\ building l sh insts /\ shape_upto l ps sh.

Lemma add_port_ok (V : nat -> Prop) (l : list shape) (p fuel : nat) (pl : plugin) (j : nat) (q : port) st :
  (forall r, V r -> closed V r) -> (forall r, V r -> r ∈ sh_plugin <$> l <-> ~ off r) ->
  closed V p -> plugins s !! p = Some pl -> ports pl !! j = Some q -> (rank p < fuel)%nat ->
  ~ V p -> built_upto l p (take j (ports pl)) st.1 ->
  returns (add_port fuel s p (length l) j q st) (fun st' => built_upto l p (take (S j) (ports pl)) st'.1).
Proof.
  intros HV Hinst Hp Hpl Hq Hfuel Hnv (sh & Hsh & Hb & [Hin Hout Hconn]). destruct st as [insts mem].
  cbn [fst] in Hb. assert (Hat : port_at s p j = Some q) by (unfold port_at; by rewrite Hpl).
  assert (Hj : length (take j (ports pl)) = j) by (apply length_take_le; apply lookup_lt_Some in Hq; lia).
  assert (Hplugins : plugins_of insts = (sh_plugin <$> l) ++ [p]).
  { rewrite plugins_shapes, Hb, fmap_app. cbn. by rewrite Hsh. }
  unfold add_port. rewrite (take_S_r _ _ _ Hq).
  eapply (returns_bind _ _ (fun o : option (nat * nat) => match o with
    | Some (r, k) => direction q = PORT_INPUT /\ origin p j r k /\ V r
    | None => direction q = PORT_INPUT -> flow_id q = INVALID_FLOW_ID end)).
  { destruct (Z.eqb_spec (flow_id q) INVALID_FLOW_ID) as [He|He]; cbn [negb andb]; [intros _; exact He|].
    destruct (decide (direction q = PORT_INPUT)) as [Hd|Hd]; [rewrite bool_decide_eq_true_2 by done|
      rewrite bool_decide_eq_false_2 by done; by intros ?].
    eapply returns_bind.
    - apply (find_origin_ok V insts fuel p j q HV); [|done..]. intros r Hr. rewrite Hplugins, elem_of_app, Hinst by done.
      rewrite list_elem_of_singleton. split; [intros [?| ->]; done|by left].
    - intros [r k] [Ho Hr]. done. }
  intros org Horg. destruct (type q) eqn:Hty.
  - (* control *)
    eapply returns_bind; [apply connect_control_ok|]. intros insts' Hsame. cbn [returns fst]. exists sh. split; [done|].
    assert (Hna : forall d, is_audio d q = false) by (intros d; unfold is_audio; by rewrite Hty).
    split; [unfold building; by rewrite Hsame|]. split; [|by rewrite audio_indices_snoc, Hna, app_nil_r|done].
    by rewrite audio_indices_snoc, Hna, app_nil_r.
  - (* audio *)
    destruct (direction q) eqn:Hd.
    + destruct org as [[r k]|].
      * destruct Horg as (_ & Ho & Hr). eapply returns_bind.
        { rewrite <- Hsh. apply (connect_input_ok l sh insts j r k Hb); [by intros ->; rewrite Hsh in Hr|by rewrite Hsh]. }
        intros insts' (x & Hx & Hc & Hb'). cbn [returns fst]. eexists. split; [|split; [exact Hb'|]]; [done|].
        split; cbn [sh_inputs sh_outputs sh_plugin].
        -- rewrite fmap_app, Hin, audio_indices_snoc, Hj. unfold is_audio. rewrite Hty, Hd. cbn. by rewrite Hx.
        -- rewrite audio_indices_snoc, Hout. unfold is_audio. rewrite Hty, Hd. cbn. by rewrite app_nil_r.
        -- apply Forall_app. split; [done|]. by apply Forall_singleton.
      * exfalso. apply (go_audio _ ok p j q Hat Hty). by apply Horg.
    + destruct org as [[r k]|]; [by destruct Horg|]. cbn [append_and_connect mbind outcome_bind returns fst].
      pose proof (append_shape l sh insts PORT_OUTPUT (DspPort None p j 0%nat) Hb) as Hb'. cbn in Hb'.
      eexists. split; [|split; [exact Hb'|]]; [done|]. split; cbn [sh_inputs sh_outputs sh_plugin]; [| |done].
      * rewrite audio_indices_snoc, Hin. unfold is_audio. rewrite Hty, Hd. cbn. by rewrite app_nil_r.
      * rewrite Hout, audio_indices_snoc, Hj. unfold is_audio. by rewrite Hty, Hd.
Qed.

(** ** Sorting *)

Definition was_visited (st : sort_state) (q : nat) : Prop := visited st !! q = Some true.
(** Visited, and not one of the plugins [A] still in progress. *)
Definition finished (A : nat -> Prop) (st : sort_state) (q : nat) : Prop := was_visited st q /\ ~ A q.
Definition shapes (st : sort_state) : list shape := shape_of <$> st_instances st.

Record sorted (A : nat -> Prop) (st : sort_state) : Prop := {
  so_length : length (visited st) = length (plugins s);
  so_closed : forall q, finished A st q -> closed (finished A st) q;
  so_inst : forall q, finished A st q -> q ∈ sh_plugin <$> shapes st <-> ~ off q;
  so_only : forall q, q ∈ sh_plugin <$> shapes st -> finished A st q;
  so_shapes : shapes_ok (shapes st)
}.

Definition also (A : nat -> Prop) (p : nat) : nat -> Prop := fun q => A q \/ q = p.

(** Starting on [p]. *)
Lemma sorted_start (A : nat -> Prop) (p : nat) (st : sort_state) :
  (p < length (plugins s))%nat -> visited st !! p = Some false -> sorted A st ->
  sorted (also A p) (SortState (st_instances st) (st_memory st) (<[p := true]> (visited st))).
Proof.
  intros Hp Hv [Hl Hc Hi Ho Hs].
  assert (Hfin : forall q, finished (also A p) (SortState (st_instances st) (st_memory st) (<[p := true]> (visited st))) q <->
    finished A st q).
  { intros q. unfold finished, was_visited, also. cbn. destruct (decide (q = p)) as [->|Hne].
    - rewrite list_lookup_insert_eq by lia. split; [intros [_ []]; by right|intros [? _]; congruence].
    - rewrite list_lookup_insert_ne by done. split; intros [? Hn]; (split; [done|]); [by intros ?; apply Hn; left|].
      by intros [?|?]. }
  split; cbn [visited]; [by rewrite length_insert| | | |exact Hs].
  - intros q Hq%Hfin j x Hx Hid. destruct (Hc q Hq j x Hx Hid) as (f & r & Hf & Hr & Hv'). exists f, r.
    split; [done|]. split; [done|]. intros Hd. by apply Hfin, Hv'.
  - intros q Hq%Hfin. by apply Hi.
  - intros q Hq. by apply Hfin, Ho.
Qed.

(** What a call keeps: the invariant, and who was visited. *)
Definition sorts (A : nat -> Prop) (p : nat) (st st' : sort_state) : Prop :=
  sorted A st' /\ was_visited st' p /\ forall q, was_visited st q -> was_visited st' q.

(** Ending with [p], whose inputs are closed. *)
Lemma closed_end (A : nat -> Prop) (p : nat) (st : sort_state) :
  ~ A p -> (forall a, A a -> (rank p < rank a)%nat) -> was_visited st p -> sorted (also A p) st ->
  (forall j x, port_at s p j = Some x -> flow_id x <> INVALID_FLOW_ID -> exists f r,
     flows s !! Z.to_nat (flow_id x) = Some f /\ from f = Some r /\ was_visited st r) ->
  closed (finished (also A p) st) p /\
  forall q, finished A st q -> closed (finished A st) q /\ (q = p \/ finished (also A p) st q).
Proof.
  intros Hnp Hlow Hv [Hl Hc Hi Ho Hs] Hp.
  assert (Hfin : forall q, finished (also A p) st q -> finished A st q).
  { intros q [Hq Hn]. split; [done|]. intros ?. apply Hn. by left. }
  assert (Hclosed : closed (finished (also A p) st) p).
  { intros j x Hx Hid. destruct (Hp j x Hx Hid) as (f & r & Hf & Hr & Hvr). exists f, r. split; [done|]. split; [done|].
    intros Hd. assert (Hlt : (rank r < rank p)%nat) by (apply (go_acyclic _ ok p j r (from_port f)); by exists x, f).
    split; [done|]. intros [Ha| ->]; [|lia]. specialize (Hlow r Ha). lia. }
  split; [done|]. intros q Hq. destruct (decide (q = p)) as [->|Hne].
  - split; [|by left]. intros j x Hx Hid. destruct (Hclosed j x Hx Hid) as (f & r & Hf & Hr & H). exists f, r. auto.
  - assert (Hq' : finished (also A p) st q).
    { destruct Hq as [Hq Hn]. split; [done|]. by intros [?|?]. }
    split; [|by right]. intros j x Hx Hid. destruct (Hc q Hq' j x Hx Hid) as (f & r & Hf & Hr & H). exists f, r. auto.
Qed.

Lemma topological_sort_ok (fuel : nat) (A : nat -> Prop) (p : nat) (st : sort_state) :
  (p < length (plugins s))%nat -> sorted A st ->
  (was_visited st p /\ (0 < fuel)%nat) \/
    ((S (rank p) < fuel)%nat /\ ~ A p /\ forall a, A a -> (rank p < rank a)%nat) ->
  returns (topological_sort fuel s env p st) (sorts A p st).
Proof.
  revert A p st. induction fuel as [|fuel IH]; intros A p st Hp Hst Hpre; [lia|]. cbn [topological_sort].
  destruct (lookup_lt_is_Some_2 (visited st) p) as [v Hv]; [by rewrite (so_length _ _ Hst)|].
  rewrite Hv. cbn [at_ mbind outcome_bind]. destruct v; [by split; [|split]|].
  destruct Hpre as [[Hv' _]|(Hfuel & Hnp & Hlow)]; [unfold was_visited in Hv'; congruence|].
  destruct (lookup_lt_is_Some_2 (plugins s) p Hp) as [pl Hpl]. rewrite Hpl. cbn [at_ mbind outcome_bind].
  pose proof (sorted_start A p st Hp Hv Hst) as Hst0.
  set (st0 := SortState _ _ (<[p := true]> _)) in *.
  assert (Hv0 : was_visited st0 p) by (unfold was_visited; cbn; apply list_lookup_insert_eq; by rewrite (so_length _ _ Hst)).
  assert (Hmono0 : forall q, was_visited st q -> was_visited st0 q).
  { intros q Hq. unfold was_visited in *. cbn. destruct (decide (q = p)) as [->|]; [congruence|].
    by rewrite list_lookup_insert_ne. }
  (* the plugins that feed this one *)
  eapply (returns_bind _ _ (fun st1 => sorted (also A p) st1 /\ (forall q, was_visited st0 q -> was_visited st1 q) /\
    forall j x, port_at s p j = Some x -> flow_id x <> INVALID_FLOW_ID -> exists f r,
      flows s !! Z.to_nat (flow_id x) = Some f /\ from f = Some r /\ was_visited st1 r)).
  { eapply returns_mono; [apply (foreach_returns (fun k st1 => sorted (also A p) st1 /\
      (forall q, was_visited st0 q -> was_visited st1 q) /\
      forall j x, (j < k)%nat -> ports pl !! j = Some x -> flow_id x <> INVALID_FLOW_ID -> exists f r,
        flows s !! Z.to_nat (flow_id x) = Some f /\ from f = Some r /\ was_visited st1 r))|].
    - split; [done|]. split; [done|]. lia.
    - cbn [Nat.add]. intros k x st1 Hx (Hs1 & Hm1 & Hdone).
      destruct (Z.eqb_spec (flow_id x) INVALID_FLOW_ID) as [He|He].
      { cbn. split; [done|]. split; [done|]. intros j y Hj Hy Hid. destruct (decide (j = k)) as [->|]; [congruence|].
        apply (Hdone j y); [lia|done..]. }
      assert (Hat : port_at s p k = Some x) by (unfold port_at; by rewrite Hpl).
      assert (Hid : 0 <= flow_id x < Z.of_nat (length (flows s))).
      { pose proof (proj1 (Forall_lookup _ _) (proj1 (Forall_lookup _ _) (io_ids s (go_ini _ ok)) p pl Hpl) k x Hx) as H.
        cbn in H. lia. }
      destruct (lookup_lt_is_Some_2 (flows s) (Z.to_nat (flow_id x))) as [f Hf]; [lia|].
      rewrite <- (Z2Nat.id (flow_id x)) by lia. rewrite (ld_Some _ _ _ Hf). cbn [at_ mbind outcome_bind].
      destruct (from f) as [r|] eqn:Hr; [|done]. cbn [or_return mbind outcome_bind].
      pose proof (io_from s (go_ini _ ok) _ f Hf) as Hend. rewrite Hr in Hend. destruct Hend as (y & Hy & Hyd & Hyid).
      rewrite Z2Nat.id in Hyid by lia.
      assert (Hrl : (r < length (plugins s))%nat).
      { unfold port_at in Hy. destruct (plugins s !! r) eqn:E; [|done]. by eapply lookup_lt_Some. }
      eapply returns_mono; [apply (IH (also A p) r st1 Hrl Hs1)|].
      + destruct (decide (direction x = PORT_INPUT)) as [Hd|Hd].
        * assert (Hlt : (rank r < rank p)%nat) by (apply (go_acyclic _ ok p k r (from_port f)); by exists x, f).
          right. split; [lia|]. split; [intros [Ha| ->]; [specialize (Hlow r Ha)|]; lia|].
          intros a [Ha| ->]; [specialize (Hlow a Ha)|]; lia.
        * left. assert (Hd' : direction x = PORT_OUTPUT) by (by destruct (direction x)).
          destruct (go_once _ ok r (from_port f) y p k x Hy Hat) as [-> _]; [congruence..|]. split; [by apply Hm1|lia].
      + intros st2 (Hs2 & Hvr & Hm2). split; [done|]. split; [auto|]. intros j z Hj Hz Hzid.
        destruct (decide (j = k)) as [->|]; [rewrite Hx in Hz; injection Hz as <-; by exists f, r|].
        destruct (Hdone j z) as (g & r' & ? & ? & ?); [lia|done..|]. exists g, r'. auto.
    - cbn [Nat.add]. intros st1 (Hs1 & Hm1 & Hdone). split; [done|]. split; [done|]. intros j x Hx Hid.
      unfold port_at in Hx. rewrite Hpl in Hx. cbn in Hx. apply (Hdone j x); [by eapply lookup_lt_Some|done..]. }
  intros st1 (Hs1 & Hm1 & Hdone).
  destruct (closed_end A p st1 Hnp Hlow (Hm1 p Hv0) Hs1 Hdone) as [Hclosed Hend].
  assert (Hpn : p ∉ sh_plugin <$> shapes st1).
  { intros Hin. apply (so_only _ _ Hs1) in Hin as [_ Hn]. apply Hn. by right. }
  assert (Hsub : forall q, finished (also A p) st1 q -> finished A st1 q).
  { intros q [Hq Hn]. split; [done|]. intros ?. apply Hn. by left. }
  assert (Hpfin : finished A st1 p) by (split; [by apply Hm1|done]).
  destruct (is_disabled pl env) eqn:Hdis.
  - (* no instance *)
    assert (Hoff : off p) by (by exists pl). cbn. split; [|split; [by apply Hm1|auto]]. destruct Hs1 as [Hl1 Hc1 Hi1 Ho1 Hsh1].
    split; [done| | | |done].
    + intros q Hq. by apply Hend.
    + intros q Hq. destruct (Hend q Hq) as [_ [->|Hq']]; [|by apply Hi1]. split; [by intros ?%Hpn|by intros []].
    + intros q Hq. by apply Hsub, Ho1.
  - (* an instance *)
    assert (Hon : ~ off p) by (intros (pl' & Hpl' & Hd'); congruence).
    assert (Hlen : length (st_instances st1) = length (shapes st1)) by (unfold shapes; by rewrite length_fmap).
    eapply (returns_bind _ _ (fun r : list instance * store => built_upto (shapes st1) p (ports pl) r.1)).
    { rewrite Hlen. eapply returns_mono;
        [apply (foreach_returns (fun k (r : list instance * store) => built_upto (shapes st1) p (take k (ports pl)) r.1))|].
      - cbn [fst]. rewrite take_0. exists (Shape p [] []). split; [done|]. split; [unfold building; by rewrite fmap_app|].
        by split.
      - cbn [Nat.add]. intros k x r Hx Hb. apply (add_port_ok (finished (also A p) st1)); try done.
        + apply Hs1.
        + intros q Hq. by apply (so_inst _ _ Hs1).
        + lia.
        + intros [_ Hn]. apply Hn. by right.
      - intros r. cbn [Nat.add]. by rewrite take_ge by lia. }
    intros [insts mem] (sh & Hsh & Hb & Hupto). cbn [fst] in Hb. cbn [returns].
    destruct Hs1 as [Hl1 Hc1 Hi1 Ho1 [Hnd1 Hsh1]].
    assert (Hshapes : shapes (SortState insts mem (visited st1)) = shapes st1 ++ [sh]) by exact Hb.
    split; [|split; [by apply Hm1|auto]]. split; [done| | | |]; rewrite ?Hshapes, ?fmap_app; cbn [fmap list_fmap]; rewrite ?Hsh.
    + intros q Hq. by apply Hend.
    + intros q Hq. rewrite elem_of_app, list_elem_of_singleton. destruct (Hend q Hq) as [_ [->|Hq']].
      * split; [done|by right].
      * rewrite (Hi1 q Hq'). split; [by intros [?| ->]|by left].
    + intros q [Hq| ->%list_elem_of_singleton]%elem_of_app; [by apply Hsub, Ho1|done].
    + split.
      * rewrite fmap_app. apply NoDup_app. split; [done|]. split; [|apply NoDup_singleton].
        cbn. rewrite Hsh. by intros q Hq ->%list_elem_of_singleton.
      * intros n sh' [Hn|[Hge Hn]]%lookup_app_Some.
        -- rewrite take_app_le by (apply lookup_lt_Some in Hn; lia). by apply Hsh1.
        -- assert (n = length (shapes st1)) as ->.
           { apply lookup_lt_Some in Hn. cbn in Hn. lia. }
           rewrite Nat.sub_diag in Hn. injection Hn as <-. rewrite Hsh. split; [done|]. exists pl. split; [done|].
           by rewrite take_app_length.
    + intros q Hq. by apply Hm1, Hmono0.
Qed.

Lemma shapes_origins (insts : list instance) : shapes_ok (shape_of <$> insts) ->
  NoDup (inst_plugin <$> insts) /\ Forall (fun i => ~ off (inst_plugin i)) insts /\
  forall n i q, insts !! n = Some i -> q ∈ inputs (audio i) -> exists i' o,
    insts !! (source_of q).1 = Some i' /\ (original_index <$> outputs (audio i')) !! (source_of q).2 = Some o /\
    origin (inst_plugin i) (original_index q) (inst_plugin i') o.
Proof.
  intros [Hnd Hsh]. split; [by rewrite <- list_fmap_compose in Hnd|]. split.
  - apply Forall_lookup. intros n i Hi. apply (Hsh n (shape_of i)). by rewrite list_lookup_fmap, Hi.
  - intros n i q Hi Hq. destruct (Hsh n (shape_of i)) as (_ & pl & _ & [_ _ Hc]); [by rewrite list_lookup_fmap, Hi|].
    rewrite Forall_forall in Hc. destruct (Hc q Hq) as (m & k & sh & o & Hpeer & Hm & Ho & Horg).
    apply lookup_take_Some in Hm as [Hm _]. rewrite list_lookup_fmap in Hm.
    destruct (insts !! m) as [i'|] eqn:Hi'; [|done]. injection Hm as <-. unfold source_of. rewrite Hpeer. by exists i', o.
Qed.
End Ok.
End Graph.

Lemma sorted_init {L : dsp_module_library} (s : ini) (env : cras_expr_env) :
  sorted s env (fun _ => False) (SortState [] ∅ (replicate (length (plugins s)) false)).
Proof.
  assert (H : forall q, ~ finished (fun _ => False) (SortState [] ∅ (replicate (length (plugins s)) false)) q).
  { intros q [Hq _]. unfold was_visited in Hq. cbn in Hq. by apply lookup_replicate in Hq as [? _]. }
  split; cbn; [by rewrite length_replicate|by intros q ?%H|by intros q ?%H|by intros q ?%not_elem_of_nil|].
  split; [constructor|done].
Qed.

Lemma find_enabled_lt (s : ini) (lbl purp : list Z) (env : cras_expr_env) (k : nat) :
  find_enabled_builtin_plugin s lbl purp env = Some k -> (k < length (plugins s))%nat.
Proof.
  unfold find_enabled_builtin_plugin. destruct (list_find _ (plugins s)) as [[j p]|] eqn:Hf; [|done].
  apply list_find_Some in Hf as (Hj & _ & _). destruct (list_find _ (drop _ _)); [done|]. intros [= ->].
  by eapply lookup_lt_Some.
Qed.

Lemma pipeline_create_ok {L : dsp_module_library} (alloc : bool) (s : ini) (env : cras_expr_env) (purp : list Z)
    (rank : nat -> nat) (Hok : graph_ok s rank) :
  exists r, cras_dsp_pipeline_create (S (length (plugins s))) alloc s env purp = Done r /\
  forall p, r = Some p ->
    wired (instances p) /\ NoDup (inst_plugin <$> instances p) /\
    Forall (fun i => ~ off s env (inst_plugin i)) (instances p) /\
    (forall n i q, instances p !! n = Some i -> q ∈ inputs (audio i) -> exists i' o,
       instances p !! (source_of q).1 = Some i' /\ (original_index <$> outputs (audio i')) !! (source_of q).2 = Some o /\
       origin s env (inst_plugin i) (original_index q) (inst_plugin i') o) /\
    inst_plugin <$> instances p !! source_instance p = find_enabled_builtin_plugin s (c_str "source") purp env /\
    inst_plugin <$> instances p !! sink_instance p = find_enabled_builtin_plugin s (c_str "sink") purp env.
Proof.
  unfold cras_dsp_pipeline_create. destruct (find_enabled_builtin_plugin s (c_str "source") purp env) as [source|];
    [|by exists None].
  destruct (find_enabled_builtin_plugin s (c_str "sink") purp env) as [sink|] eqn:Hsink; [|by exists None].
  apply find_enabled_lt in Hsink. destruct alloc; cbn [negb]; [|by exists None].
  pose proof (topological_sort_ok s env rank Hok (S (length (plugins s))) (fun _ => False) sink _ Hsink
    (sorted_init s env)) as Hrun.
  assert (Hpre : (S (rank sink) < S (length (plugins s)))%nat) by (pose proof (go_rank _ _ Hok sink Hsink); lia).
  specialize (Hrun (or_intror (conj Hpre (conj (fun H => H) (fun a H => False_ind _ H))))).
  destruct (topological_sort _ s env sink _) as [st|rc| |]; cbn [returns] in Hrun; [|by exists None|done..].
  destruct Hrun as (Hst & _ & _). pose proof (so_shapes _ _ _ _ Hst) as Hsh.
  destruct (find_instance_by_plugin (st_instances st) source) as [n1|] eqn:H1; [|by exists None].
  destruct (find_instance_by_plugin (st_instances st) sink) as [n2|] eqn:H2; [|by exists None]. cbn zeta.
  destruct (_ >? _); [by exists None|]. eexists. split; [done|]. intros p [= <-].
  cbn [instances source_instance sink_instance]. split; [by eapply shapes_wired|].
  destruct (shapes_origins s env _ Hsh) as (Hnd & Hoff & Horg). split; [done|]. split; [done|]. split; [done|].
  destruct (find_instance_Some _ _ _ H1) as (i1 & -> & <-). by destruct (find_instance_Some _ _ _ H2) as (i2 & -> & <-).
Qed.

(** Claim C31: building a pipeline ends and follows the flows.  On a graph
    without cycles in which a flow joins one output to one input, the recursions
    of [topological_sort] and [find_origin_port] end and fault nowhere.  The
    instances of the pipeline are enabled plugins, each at most once; every
    audio input is connected, through a pointer that is good, to an output of
    an earlier instance, and that output is the origin the ini file gives it,
    with disabled plugins passed over from their k-th output to their k-th input
    of the same type; no output has two readers. *)
Theorem pipeline_follows_flows {L : dsp_module_library} (alloc : bool) (s : ini) (env : cras_expr_env) (purp : list Z)
    (rank : nat -> nat) (Hok : graph_ok s rank) :
  exists r, cras_dsp_pipeline_create (S (length (plugins s))) alloc s env purp = Done r /\
  forall p, r = Some p ->
    wired (instances p) /\ NoDup (inst_plugin <$> instances p) /\
    Forall (fun i => ~ off s env (inst_plugin i)) (instances p) /\
    (forall n i q, instances p !! n = Some i -> q ∈ inputs (audio i) -> exists i' o,
       instances p !! (source_of q).1 = Some i' /\ (original_index <$> outputs (audio i')) !! (source_of q).2 = Some o /\
       origin s env (inst_plugin i) (original_index q) (inst_plugin i') o) /\
    inst_plugin <$> instances p !! source_instance p = find_enabled_builtin_plugin s (c_str "source") purp env /\
    inst_plugin <$> instances p !! sink_instance p = find_enabled_builtin_plugin s (c_str "sink") purp env.
Proof. by apply pipeline_create_ok with rank. Qed.

(** ** Checking a concrete graph *)

Definition all_ports (s : ini) : list (nat * nat * port) :=
  List.concat (imap (fun i pl => imap (fun j p => (i, j, p)) (ports pl)) (plugins s)).

Lemma all_ports_spec (s : ini) (i j : nat) (p : port) : port_at s i j = Some p -> (i, j, p) ∈ all_ports s.
Proof.
  unfold port_at. destruct (plugins s !! i) as [pl|] eqn:Hi; [|done]. cbn. intros Hj. unfold all_ports.
  apply list_elem_of_In, in_concat. exists (imap (fun j p => (i, j, p)) (ports pl)).
  split; apply list_elem_of_In; [apply (list_elem_of_lookup_2 _ i)|apply (list_elem_of_lookup_2 _ j)];
    rewrite list_lookup_imap; [by rewrite Hi|by rewrite Hj].
Qed.

Definition end_check (s : ini) (k : nat) (d : port_direction) (e : option nat) (j : nat) : bool :=
  let matches p := bool_decide (direction p = d) && (flow_id p =? Z.of_nat k) in
  match e with
  | Some i => from_option matches false (port_at s i j)
  | None => forallb (fun x => negb (matches x.2)) (all_ports s)
  end.

Lemma end_check_ok (s : ini) (k : nat) (d : port_direction) (e : option nat) (j : nat) :
  end_check s k d e j = true -> end_ok s k d e j.
Proof.
  unfold end_check, end_ok. destruct e as [i|].
  - destruct (port_at s i j) as [p|]; cbn; [|done]. intros [Hd%bool_decide_eq_true Hk%Z.eqb_eq]%andb_true_iff. by exists p.
  - rewrite forallb_forall. intros H a b p Hp Hd Hk. specialize (H _ (proj1 (list_elem_of_In _ _) (all_ports_spec _ _ _ _ Hp))).
    cbn in H. rewrite bool_decide_eq_true_2, Hk, Z.eqb_refl in H by done. done.
Qed.

Definition graph_check (s : ini) (rank : nat -> nat) : bool :=
  let ps := all_ports s in
  let n := length (plugins s) in
  forallb (fun p => forallb (fun q => (flow_id q =? INVALID_FLOW_ID) ||
    ((0 <=? flow_id q) && (flow_id q <? Z.of_nat (length (flows s))))) (ports p) &&
    (Z.of_nat (length (ports p)) <=? MAX_NR_PORT)) (plugins s) &&
  bool_decide (NoDup (name <$> flows s)) &&
  forallb id (imap (fun k f => end_check s k PORT_OUTPUT (from f) (from_port f) &&
                               end_check s k PORT_INPUT (to f) (to_port f)) (flows s)) &&
  forallb (fun i => (rank i <? n)%nat) (seq 0 n) &&
  forallb (fun x => match x with (i, j, p) =>
    (bool_decide (direction p = PORT_OUTPUT) || (flow_id p =? INVALID_FLOW_ID) ||
     match flows s !! Z.to_nat (flow_id p) with
     | Some f => match from f with Some q => (rank q <? rank i)%nat | None => true end
     | None => true
     end) &&
    (negb (bool_decide (type p = PORT_AUDIO)) || negb (flow_id p =? INVALID_FLOW_ID)) &&
    forallb (fun y => match y with (i', j', p') =>
      (flow_id p =? INVALID_FLOW_ID) || negb (flow_id p =? flow_id p') ||
      (bool_decide (type p = type p') &&
       (negb (bool_decide (direction p = direction p')) || ((i =? i')%nat && (j =? j')%nat))) end) ps end) ps.

Lemma graph_check_ok (s : ini) (rank : nat -> nat) : graph_check s rank = true -> graph_ok s rank.
Proof.
  unfold graph_check. rewrite !andb_true_iff. intros [[[[Hids Hnames] Hends] Hrank] Hports].
  rewrite forallb_forall in Hids, Hends, Hrank, Hports.
  assert (Hend : forall k f, flows s !! k = Some f ->
    end_ok s k PORT_OUTPUT (from f) (from_port f) /\ end_ok s k PORT_INPUT (to f) (to_port f)).
  { intros k f Hk. assert (Hin : (end_check s k PORT_OUTPUT (from f) (from_port f) && end_check s k PORT_INPUT (to f) (to_port f)) ∈
      imap (fun k f => end_check s k PORT_OUTPUT (from f) (from_port f) && end_check s k PORT_INPUT (to f) (to_port f)) (flows s)).
    { apply (list_elem_of_lookup_2 _ k). by rewrite list_lookup_imap, Hk. }
    apply list_elem_of_In, Hends in Hin. apply andb_true_iff in Hin as [H1 H2]. split; by apply end_check_ok. }
  assert (Hport : forall i j p, port_at s i j = Some p -> In (i, j, p) (all_ports s)).
  { intros i j p Hp. by apply list_elem_of_In, all_ports_spec. }
  assert (Hpair : forall i j p i' j' p', port_at s i j = Some p -> port_at s i' j' = Some p' -> flow_id p = flow_id p' ->
    flow_id p <> INVALID_FLOW_ID -> type p = type p' /\ (direction p = direction p' -> i = i' /\ j = j')).
  { intros i j p i' j' p' Hp Hp' Hid Hv. specialize (Hports _ (Hport i j p Hp)). cbn in Hports.
    apply andb_true_iff in Hports as [_ H]. rewrite forallb_forall in H. specialize (H _ (Hport i' j' p' Hp')). cbn in H.
    rewrite Hid, Z.eqb_refl in H. rewrite Hid in Hv. apply Z.eqb_neq in Hv. rewrite Hv in H. cbn in H.
    apply andb_true_iff in H as [Ht%bool_decide_eq_true H]. split; [done|]. intros Hd.
    rewrite bool_decide_eq_true_2 in H by done. cbn in H.
    by apply andb_true_iff in H as [?%Nat.eqb_eq ?%Nat.eqb_eq]. }
  split.
  - split.
    + apply Forall_forall. intros p Hp. apply list_elem_of_In, Hids, andb_true_iff in Hp as [Hp _].
      rewrite forallb_forall in Hp. apply Forall_forall. intros q Hq. apply list_elem_of_In, Hp in Hq. lia.
    + apply Forall_forall. intros p Hp. apply list_elem_of_In, Hids, andb_true_iff in Hp as [_ Hp]. lia.
    + by apply bool_decide_eq_true in Hnames.
    + intros k f Hk. by apply Hend.
    + intros k f Hk. by apply Hend.
  - intros i Hi. apply Nat.ltb_lt, Hrank, in_seq. lia.
  - intros i j q o (p & f & Hp & Hd & Hv & Hf & Hq & _). specialize (Hports _ (Hport i j p Hp)). cbn in Hports.
    apply andb_true_iff in Hports as [[H _]%andb_true_iff _]. rewrite Hd, Hf, Hq in H. apply Z.eqb_neq in Hv.
    rewrite Hv in H. cbn in H. by apply Nat.ltb_lt.
  - intros. by eapply Hpair.
  - intros. by eapply Hpair.
  - intros i j p Hp Ht Hv. specialize (Hports _ (Hport i j p Hp)). cbn in Hports.
    apply andb_true_iff in Hports as [[_ H]%andb_true_iff _]. rewrite Ht, Hv, Z.eqb_refl in H. done.
Qed.

(** The graph of [dict_example], with the swap plugin in use. *)
Definition ini_example : ini :=
  match cras_dsp_ini_create true (Some dict_example) with Done (Some s) => s | _ => Ini [] [] end.
Definition rank_example (i : nat) : nat := match i with 0 => 0 | 1 => 2 | _ => 1 end%nat.

Lemma pipeline_follows_flows_witness :
  graph_ok ini_example rank_example /\
  exists r, @cras_dsp_pipeline_create no_modules (S (length (plugins ini_example))) true ini_example CRAS_EXPR_ENV_INIT
    (c_str "playback") = Done r /\ (length ∘ instances <$> r) = Some 3%nat.
Proof.
  assert (H : graph_ok ini_example rank_example) by (apply graph_check_ok; vm_compute; reflexivity).
  split; [exact H|].
  destruct (@pipeline_follows_flows no_modules true ini_example CRAS_EXPR_ENV_INIT (c_str "playback") rank_example H)
    as (r & Hr & _).
  exists r. split; [exact Hr|]. vm_compute in Hr. injection Hr as <-. reflexivity.
Defined.

(** A disabled plugin whose output is its own input, and feeds the sink too. *)
Definition dict_self : dictionary :=
  Dictionary
    (fun key => snd <$> List.find (fun kv => bool_decide (fst kv = key))
       [(c_str "a:library", c_str "builtin"); (c_str "a:label", c_str "source");
        (c_str "a:purpose", c_str "playback"); (c_str "a:output_0", c_str "{x}");
        (c_str "b:library", c_str "builtin"); (c_str "b:label", c_str "eq"); (c_str "b:disable", c_str "#t");
        (c_str "b:input_0", c_str "{y}"); (c_str "b:output_1", c_str "{y}");
        (c_str "c:library", c_str "builtin"); (c_str "c:label", c_str "sink");
        (c_str "c:purpose", c_str "playback"); (c_str "c:input_0", c_str "{y}")])
    [c_str "a"; c_str "b"; c_str "c"].
Definition ini_self : ini :=
  match cras_dsp_ini_create true (Some dict_self) with Done (Some s) => s | _ => Ini [] [] end.

Lemma find_origin_self {L : dsp_module_library} (insts : list instance) (fuel i : nat) :
  find_instance_by_plugin insts 1 = None -> i = 1%nat \/ i = 2%nat ->
  find_origin_port fuel ini_self insts i 0 = OutOfFuel.
Proof.
  intros Hn. revert i. induction fuel as [|fuel IH]; intros i Hi; [done|]. cbn [find_origin_port].
  assert (H1 : exists pl f, plugins ini_self !! i = Some pl /\ (q ← ports pl !! 0%nat; Some (type q, flow_id q)) = Some (PORT_AUDIO, 1) /\
    ld (flows ini_self) 1 = Some f /\ from f = Some 1%nat /\ from_port f = 1%nat).
  { destruct Hi as [-> | ->]; eexists _, _; (split; [vm_compute; reflexivity|]); (split; [vm_compute; reflexivity|]);
      (split; [vm_compute; reflexivity|]); by split. }
  destruct H1 as (pl & f & -> & Hp & Hf & Hq & Ho). cbn [at_ mbind outcome_bind].
  destruct (ports pl !! 0%nat) as [q|] eqn:Hq0; [clear Hq0|discriminate Hp]. cbn in Hp. injection Hp as Hty Hid.
  cbn [at_ mbind outcome_bind]. rewrite Hty, Hid. change (1 =? INVALID_FLOW_ID) with false. cbv iota. rewrite Hf.
  cbn [at_ mbind outcome_bind]. rewrite Hq. cbn [at_ mbind outcome_bind]. rewrite Ho, Hn.
  rewrite bool_decide_eq_false_2 by (by intros [? ?]).
  destruct (plugins ini_self !! 1%nat) as [pl1|] eqn:Hpl1; [|by vm_compute in Hpl1]. cbn [at_ mbind outcome_bind].
  assert (H2 : output_rank PORT_AUDIO 1 (ports pl1) = Some 0%nat /\ nth_input PORT_AUDIO 0 0 (ports pl1) = Some 0%nat).
  { vm_compute in Hpl1. injection Hpl1 as <-. by split. }
  destruct H2 as [H2 H3]. rewrite H2. cbn [or_return mbind outcome_bind]. rewrite H3.
  cbn [or_return mbind outcome_bind]. apply IH. by left.
Qed.

(** Without the condition on cycles the search for an origin may not
    end.  For an ini file in which a disabled plugin reads its own output, which
    also feeds the sink, creating the pipeline recurses for ever: no amount of
    fuel is enough. *)
Theorem self_feeding_never_ends {L : dsp_module_library} (fuel : nat) :
  cras_dsp_ini_create true (Some dict_self) = Done (Some ini_self) /\
  cras_dsp_pipeline_create fuel true ini_self CRAS_EXPR_ENV_INIT (c_str "playback") = OutOfFuel.
Proof.
  split; [vm_compute; reflexivity|]. unfold cras_dsp_pipeline_create.
  replace (find_enabled_builtin_plugin ini_self (c_str "source") (c_str "playback") CRAS_EXPR_ENV_INIT)
    with (Some 0%nat) by (vm_compute; reflexivity).
  replace (find_enabled_builtin_plugin ini_self (c_str "sink") (c_str "playback") CRAS_EXPR_ENV_INIT)
    with (Some 2%nat) by (vm_compute; reflexivity).
  cbn [negb]. replace (topological_sort _ _ _ _ _) with (@OutOfFuel sort_state); [done|]. symmetry.
  destruct fuel as [|[|[|fuel]]]; [done|reflexivity|reflexivity|].
  assert (H : exists pl q, plugins ini_self !! 2%nat = Some pl /\ ports pl = [q] /\ flow_id q = 1 /\
    direction q = PORT_INPUT /\ is_disabled pl CRAS_EXPR_ENV_INIT = false).
  { eexists _, _. split; [vm_compute; reflexivity|]. split; [reflexivity|]. by split_and!. }
  destruct H as (pl & q & Hpl & Hq & Hid & Hd & Hdis).
  set (f := S (S fuel)). cbn [topological_sort]. change (visited _ !! 2%nat) with (Some false).
  cbn [at_ mbind outcome_bind]. rewrite Hpl. cbn [at_ mbind outcome_bind]. rewrite Hq. cbn [foreach].
  rewrite Hid. change (1 =? INVALID_FLOW_ID) with false. cbv iota.
  assert (Hb : exists st, (f0 ← at_ (ld (flows ini_self) 1); r ← or_return (-1) (from f0);
    topological_sort f ini_self CRAS_EXPR_ENV_INIT r
      (SortState [] ∅ [false; false; true])) = Done st /\ st_instances st = []).
  { eexists. split; [vm_compute; reflexivity|reflexivity]. }
  destruct Hb as (st & Hst & Hnil). cbn [st_instances st_memory].
  change (<[2%nat := true]> (visited _)) with [false; false; true]. rewrite Hst. cbn [mbind outcome_bind].
  rewrite Hdis, Hnil. unfold add_port. rewrite Hid, Hd. change (1 =? INVALID_FLOW_ID) with false.
  rewrite (bool_decide_eq_true_2 (PORT_INPUT = PORT_INPUT)) by reflexivity. cbn [negb andb]. rewrite find_origin_self; [done|reflexivity|by right].
Qed.
