(* ===== verification/DspModules.v ===== *)
(** * Built-in DSP modules (server/cras_dsp_mod_builtin.c)

    The modules that only move and add samples: [empty], [swap_lr],
    [invert_lr], [mix_stereo] and [sink].  The filters and LADSPA plugins are a
    library of their own that this one extends. *)
From Stdlib Require Import Floats.SpecFloat.
From Stdlib Require String.
From S2P Require Import Prelude Arrays Float32 AudioFormat Outcome Expr DspIni DspUtil DspPipeline.
Import String.StringSyntax.
#[local] Open Scope Z_scope.
#[local] Arguments c_str s%_string_scope.

Definition MAX_EXT_DSP_PORTS : nat := 8.

(** An external module: its state and what [run] does to memory through the
    ports it was given. *)
Class ext_modules : Type := {
  ext_dsp_module : Type;
  ext_run : ext_dsp_module -> list (option location) -> Z -> store -> outcome (ext_dsp_module * store)
}.

Section Builtin.
Context {X : ext_modules} {K : dsp_module_library}.

(** The array of pointers behind [module->data], [None] until it is allocated. *)
Definition port_table : Type := option (list (option location)).

Record sink_data : Type := SinkData {
  ext_module : option (ext_dsp_module * list (option location)); sink_ports : list (option location) }.

Inductive builtin_module : Type :=
  | Empty
  | SwapLr (ports : port_table)
  | InvertLr (ports : port_table)
  | MixStereo (ports : port_table)
  | Sink (data : option sink_data)
  | Other (m : @dsp_module K).

Definition null_ports (n : nat) : list (option location) := replicate n None.

Definition swap_lr_instantiate (_ : port_table) : port_table := Some (null_ports 4).
Definition invert_lr_instantiate (_ : port_table) : port_table := Some (null_ports 4).
Definition mix_stereo_instantiate (_ : port_table) : port_table := Some (null_ports 4).
Definition sink_instantiate (_ : option sink_data) : option sink_data :=
  Some (SinkData None (null_ports MAX_EXT_DSP_PORTS)).

(** [ports[port] = data_location], undefined past the end or without a table. *)
Definition set_port (ports : list (option location)) (port : nat) (loc : location)
  : outcome (list (option location)) :=
  _ ← at_ (ports !! port); Done (<[port := Some loc]> ports).
Definition table_connect_port (ports : port_table) (port : nat) (loc : location) : outcome port_table :=
  ports ← at_ ports; ports ← set_port ports port loc; Done (Some ports).
Definition swap_lr_connect_port := table_connect_port.
Definition invert_lr_connect_port := table_connect_port.
Definition mix_stereo_connect_port := table_connect_port.
Definition sink_connect_port (data : option sink_data) (port : nat) (loc : location) : outcome (option sink_data) :=
  d ← at_ data; ports ← set_port (sink_ports d) port loc; Done (Some (SinkData (ext_module d) ports)).

(** [ports[k][i]], and an assignment to it. *)
Definition port_get (ports : list (option location)) (k : nat) (mem : store) (i : Z) : option spec_float :=
  p ← ports !! k; p ← p; load_float mem p i.
Definition port_set (ports : list (option location)) (k : nat) (mem : store) (i : Z) (v : spec_float) : option store :=
  p ← ports !! k; p ← p; store_float mem p i v.

Definition swap_lr_sample (ports : list (option location)) (i : Z) (mem : store) : option store :=
  temp ← port_get ports 0 mem i;
  x ← port_get ports 1 mem i;
  mem ← port_set ports 2 mem i x;
  port_set ports 3 mem i temp.
Definition swap_lr_run (ports : list (option location)) (sample_count : Z) : store -> option store :=
  for_n sample_count (swap_lr_sample ports).

Definition invert_lr_sample (ports : list (option location)) (i : Z) (mem : store) : option store :=
  x ← port_get ports 0 mem i;
  mem ← port_set ports 2 mem i (SFopp x);
  y ← port_get ports 1 mem i;
  port_set ports 3 mem i y.
Definition invert_lr_run (ports : list (option location)) (sample_count : Z) : store -> option store :=
  for_n sample_count (invert_lr_sample ports).

Definition mix_stereo_sample (ports : list (option location)) (i : Z) (mem : store) : option store :=
  x ← port_get ports 0 mem i;
  y ← port_get ports 1 mem i;
  let tmp := f32_add x y in
  mem ← port_set ports 2 mem i tmp;
  port_set ports 3 mem i tmp.
Definition mix_stereo_run (ports : list (option location)) (sample_count : Z) : store -> option store :=
  for_n sample_count (mix_stereo_sample ports).

(** [ext_module->ports] are the external module's own. *)
Definition sink_run (d : sink_data) (sample_count : Z) (mem : store) : outcome (sink_data * store) :=
  match ext_module d with
  | None => Done (d, mem)
  | Some (e, ports) =>
      '(e, mem) ← ext_run e ports sample_count mem;
      Done (SinkData (Some (e, ports)) (sink_ports d), mem)
  end.

(** Copies the sink's ports into the external module's. *)
Definition cras_dsp_module_set_sink_ext_module (m : builtin_module) (ext : option ext_dsp_module)
  : outcome builtin_module :=
  match m with
  | Sink (Some d) =>
      Done (Sink (Some (SinkData ((fun e => (e, sink_ports d)) <$> ext) (sink_ports d))))
  | _ => Undefined
  end.

(** ** The functions of a [struct dsp_module] *)

Definition builtin_instantiate (m : builtin_module) (rate : Z) : Z * builtin_module :=
  match m with
  | Empty => (0, Empty)
  | SwapLr t => (0, SwapLr (swap_lr_instantiate t))
  | InvertLr t => (0, InvertLr (invert_lr_instantiate t))
  | MixStereo t => (0, MixStereo (mix_stereo_instantiate t))
  | Sink d => (0, Sink (sink_instantiate d))
  | Other m => let '(rc, m) := module_instantiate m rate in (rc, Other m)
  end.

Definition builtin_connect_port (m : builtin_module) (port : nat) (loc : location) : outcome builtin_module :=
  match m with
  | Empty => Done Empty
  | SwapLr t => t ← swap_lr_connect_port t port loc; Done (SwapLr t)
  | InvertLr t => t ← invert_lr_connect_port t port loc; Done (InvertLr t)
  | MixStereo t => t ← mix_stereo_connect_port t port loc; Done (MixStereo t)
  | Sink d => d ← sink_connect_port d port loc; Done (Sink d)
  | Other m => m ← connect_port m port loc; Done (Other m)
  end.

Definition empty_get_delay : Z := 0.
Definition builtin_get_delay (m : builtin_module) (mem : store) : Z :=
  match m with Other m => get_delay m mem | _ => empty_get_delay end.

Definition empty_get_properties : Z := 0.
Definition builtin_get_properties (m : builtin_module) : Z :=
  match m with Other m => get_properties m | _ => empty_get_properties end.

Definition builtin_run (m : builtin_module) (n : Z) (mem : store) : outcome (builtin_module * store) :=
  match m with
  | Empty => Done (Empty, mem)
  | SwapLr t => ports ← at_ t; mem ← at_ (swap_lr_run ports n mem); Done (SwapLr t, mem)
  | InvertLr t => ports ← at_ t; mem ← at_ (invert_lr_run ports n mem); Done (InvertLr t, mem)
  | MixStereo t => ports ← at_ t; mem ← at_ (mix_stereo_run ports n mem); Done (MixStereo t, mem)
  | Sink d => d ← at_ d; '(d, mem) ← sink_run d n mem; Done (Sink (Some d), mem)
  | Other m => '(m, mem) ← module_run m n mem; Done (Other m, mem)
  end.

(** What [deinstantiate] frees is gone. *)
Definition builtin_deinstantiate (m : builtin_module) : builtin_module :=
  match m with
  | Empty => Empty
  | SwapLr _ => SwapLr None
  | InvertLr _ => InvertLr None
  | MixStereo _ => MixStereo None
  | Sink _ => Sink None
  | Other m => Other (deinstantiate m)
  end.

(** The filters: [K] loads those as well as what is not built in. *)
Definition is_filter (lbl : list Z) : bool :=
  existsb (fun l => bool_decide (l = lbl)) [c_str "dcblock"; c_str "eq"; c_str "eq2"; c_str "drc"].

Definition cras_dsp_module_load_builtin (p : plugin) : option builtin_module :=
  if negb (bool_decide (library p = c_str "builtin")) then None
  else if bool_decide (label p = c_str "mix_stereo") then Some (MixStereo None)
  else if bool_decide (label p = c_str "invert_lr") then Some (InvertLr None)
  else if is_filter (label p) then Other <$> load_plugin p
  else if bool_decide (label p = c_str "swap_lr") then Some (SwapLr None)
  else if bool_decide (label p = c_str "sink") then Some (Sink None)
  else Some Empty.

#[export] Instance builtin_library : dsp_module_library := {|
  dsp_module := builtin_module;
  load_plugin p := match cras_dsp_module_load_builtin p with Some m => Some m | None => Other <$> load_plugin p end;
  get_properties := builtin_get_properties;
  module_instantiate := builtin_instantiate;
  connect_port := builtin_connect_port;
  get_delay := builtin_get_delay;
  module_run := builtin_run;
  deinstantiate := builtin_deinstantiate
|}.
End Builtin.
