(* ===== verification/DspSemantics.v ===== *)
(** * What the modules compute

    An interface: a module connected to audio buffers computes a function of its
    state, its inputs and the control values, and stores the results in its
    output buffers, which may be those of its inputs.  The built-in modules of
    server/cras_dsp_mod_builtin.c that move and add samples implement it. *)
From Stdlib Require Import Floats.SpecFloat.
From S2P Require Import Prelude Arrays Float32 AudioFormat Outcome Expr DspIni DspUtil DspPipeline DspModules.
#[local] Open Scope Z_scope.

(** ** What a module computes *)

(** The values of the control ports. *)
Definition is_control (p : location) : bool := match p with inl _ => false | inr _ => true end.
Definition controls (mem : store) : store := filter (fun x => is_control x.1 = true) mem.

Lemma controls_lookup (mem : store) (p : location) :
  controls mem !! p = if is_control p then mem !! p else None.
Proof.
  unfold controls. rewrite map_lookup_filter. destruct (mem !! p) as [v|]; cbn; [|by destruct p].
  by destruct p.
Qed.

Lemma controls_eq (mem mem' : store) :
  controls mem = controls mem' <-> forall c, mem !! inr c = mem' !! inr c.
Proof.
  split.
  - intros H c. apply (f_equal (lookup (inr c : location))) in H. by rewrite !controls_lookup in H.
  - intros H. apply map_eq. intros [k|c]; rewrite !controls_lookup; [done|]. apply H.
Qed.

Definition fits_buffer (n : nat) (mem : store) (b : nat) : Prop :=
  exists l, mem !! Buffer b = Some l /\ (n <= length l)%nat.

(** The samples of a run in a buffer. *)
Definition read_buffer (n : nat) (mem : store) (b : nat) : list spec_float := take n (default [] (mem !! Buffer b)).

(** [outs] are stored in the buffers [bo], and no other buffer changes. *)
Definition stored (n : nat) (bo : list nat) (outs : list (list spec_float)) (mem mem' : store) : Prop :=
  Forall2 (fun b out => length out = n /\ exists l, mem !! Buffer b = Some l /\ mem' !! Buffer b = Some (out ++ drop n l))
    bo outs /\
  forall b, b ∉ bo -> mem' !! Buffer b = mem !! Buffer b.

(** Connecting ports to memory, in order. *)
Fixpoint connect_all {L : dsp_module_library} (l : list (nat * location)) (m : dsp_module) : outcome dsp_module :=
  match l with
  | [] => Done m
  | (k, loc) :: l => m ← connect_port m k loc; connect_all l m
  end.

Lemma connect_all_app {L : dsp_module_library} (l1 l2 : list (nat * location)) (m : dsp_module) :
  connect_all (l1 ++ l2) m = (connect_all l1 m ≫= connect_all l2).
Proof.
  revert m. induction l1 as [|[k loc] l1 IH]; intros m; cbn [connect_all app]; [done|].
  destruct (connect_port m k loc); cbn; [|done..]. by rewrite IH.
Qed.

(** Connecting keeps what connecting one port keeps. *)
Lemma connect_all_keeps {L : dsp_module_library} (I : dsp_module -> Prop) (l : list (nat * location)) (m m' : dsp_module) :
  connect_all l m = Done m' -> (forall m k loc m', I m -> connect_port m k loc = Done m' -> I m') -> I m -> I m'.
Proof.
  intros Hrun Hk. revert m Hrun. induction l as [|[k loc] l IH]; intros m Hrun Hm; cbn [connect_all] in Hrun.
  - by injection Hrun as <-.
  - apply bind_Done in Hrun as (m1 & H1 & Hrun). by eapply IH, Hk.
Qed.

(** A module that is connected to input and output buffers computes a function
    of its state, the inputs and the control values, wherever the buffers are:
    inputs and outputs may share buffers, unless it says it is broken in place.
    [accepts] are the numbers of the audio inputs, the audio outputs and the
    control ports that a loaded module is made for. *)
Class module_semantics (L : dsp_module_library) : Type := {
  accepts : dsp_module -> list nat -> list nat -> list nat -> Prop;
  connected_to : dsp_module -> list nat -> list nat -> Prop;
  process : dsp_module -> nat -> list (list spec_float) -> store -> dsp_module * list (list spec_float) * store;
  run_law (m : dsp_module) (bi bo : list nat) (n : nat) (mem : store) :
    connected_to m bi bo -> NoDup bo ->
    (Z.land (get_properties m) MODULE_INPLACE_BROKEN <> 0 -> forall b, b ∈ bi -> b ∉ bo) ->
    Forall (fits_buffer n mem) bi -> Forall (fits_buffer n mem) bo ->
    exists mem', module_run m (Z.of_nat n) mem =
        Done ((process m n (read_buffer n mem <$> bi) (controls mem)).1.1, mem') /\
      stored n bo (process m n (read_buffer n mem <$> bi) (controls mem)).1.2 mem mem' /\
      controls mem' = (process m n (read_buffer n mem <$> bi) (controls mem)).2 /\
      connected_to (process m n (read_buffer n mem <$> bi) (controls mem)).1.1 bi bo;
  connect_law (m m0 m' : dsp_module) (rate : Z) (ins outs ctl bi bo : list nat) (locs : list location) :
    accepts m ins outs ctl -> length ins = length bi -> length outs = length bo -> length ctl = length locs ->
    module_instantiate m rate = (0, m0) ->
    connect_all (zip ins (Buffer <$> bi) ++ zip outs (Buffer <$> bo) ++ zip ctl locs) m0 = Done m' ->
    get_properties m' = get_properties m /\ connected_to m' bi bo
}.

(** ** The built-in modules *)

Lemma st_next {A} (l out : list A) (i : nat) (v : A) :
  out !! i = Some v -> (i < length l)%nat ->
  <[i := v]> (take i out ++ drop i l) = take (S i) out ++ drop (S i) l.
Proof.
  intros Hv Hi. assert (Hl : length (take i out) = i) by (rewrite length_take; apply lookup_lt_Some in Hv; lia).
  rewrite (take_S_r _ _ v) by done. rewrite insert_app_r_alt by lia. rewrite Hl, Nat.sub_diag, <- app_assoc. f_equal.
  destruct (drop i l) as [|x r] eqn:Hd; [apply (f_equal length) in Hd; rewrite length_drop in Hd; cbn in Hd; lia|].
  cbn. f_equal. rewrite <- (Nat.add_1_r i), <- drop_drop, Hd. done.
Qed.

(** A loop whose [i]-th pass reads two samples and then stores two. *)
Section Stereo.
Context (b0 b1 c0 c1 : nat) (f g : spec_float -> spec_float -> spec_float) (sample : Z -> store -> option store).
Hypothesis c_ne : c0 <> c1.
Hypothesis step : forall (i : nat) mem x y l0 l1,
  load_float mem (Buffer b0) (Z.of_nat i) = Some x -> load_float mem (Buffer b1) (Z.of_nat i) = Some y ->
  mem !! Buffer c0 = Some l0 -> mem !! Buffer c1 = Some l1 -> (i < length l0)%nat -> (i < length l1)%nat ->
  sample (Z.of_nat i) mem = Some (<[Buffer c1 := <[i := g x y]> l1]> (<[Buffer c0 := <[i := f x y]> l0]> mem)).

(** Memory after [i] passes. *)
Definition stereo_mem (X Y l0 l1 : list spec_float) (mem0 : store) (i : nat) : store :=
  <[Buffer c1 := take i (zip_with g X Y) ++ drop i l1]> (<[Buffer c0 := take i (zip_with f X Y) ++ drop i l0]> mem0).

Lemma stereo_load (X Y l0 l1 l : list spec_float) (mem0 : store) (i b : nat) (x : spec_float) :
  mem0 !! Buffer c0 = Some l0 -> mem0 !! Buffer c1 = Some l1 -> mem0 !! Buffer b = Some l -> l !! i = Some x ->
  (i <= length X)%nat -> (i <= length Y)%nat ->
  load_float (stereo_mem X Y l0 l1 mem0 i) (Buffer b) (Z.of_nat i) = Some x.
Proof.
  intros H0 H1 Hb Hx HX HY. unfold load_float, stereo_mem.
  assert (Ht : forall (h : spec_float -> spec_float -> spec_float), length (take i (zip_with h X Y)) = i).
  { intros h. rewrite length_take, length_zip_with. lia. }
  assert (Hl : forall (h : spec_float -> spec_float -> spec_float), (take i (zip_with h X Y) ++ drop i l) !! i = Some x).
  { intros h. rewrite lookup_app_r by (rewrite Ht; lia). rewrite Ht, Nat.sub_diag, lookup_drop, Nat.add_0_r. done. }
  destruct (decide (b = c1)) as [->|Hb1].
  { rewrite lookup_insert_eq. cbn [mbind option_bind]. apply ld_Some. rewrite H1 in Hb. injection Hb as <-. apply Hl. }
  rewrite lookup_insert_ne by (intros [=]; congruence). destruct (decide (b = c0)) as [->|Hb0].
  { rewrite lookup_insert_eq. cbn [mbind option_bind]. apply ld_Some. rewrite H0 in Hb. injection Hb as <-. apply Hl. }
  rewrite lookup_insert_ne by (intros [=]; congruence). rewrite Hb. cbn [mbind option_bind]. by apply ld_Some.
Qed.

Lemma stereo_loop (n : nat) (mem : store) :
  Forall (fits_buffer n mem) [b0; b1] -> Forall (fits_buffer n mem) [c0; c1] ->
  exists mem', for_n (Z.of_nat n) sample mem = Some mem' /\
    stored n [c0; c1] [zip_with f (read_buffer n mem b0) (read_buffer n mem b1);
                       zip_with g (read_buffer n mem b0) (read_buffer n mem b1)] mem mem' /\
    controls mem' = controls mem.
Proof.
  intros Hi Ho. apply Forall_cons in Hi as [(X & HX & HnX) Hi]. apply Forall_cons in Hi as [(Y & HY & HnY) _].
  apply Forall_cons in Ho as [(l0 & H0 & Hn0) Ho]. apply Forall_cons in Ho as [(l1 & H1 & Hn1) _].
  unfold read_buffer. rewrite HX, HY. cbn [default from_option id]. unfold for_n. rewrite Nat2Z.id.
  destruct (for_loop_inv (fun i m => m = stereo_mem (take n X) (take n Y) l0 l1 mem i) n 0 sample mem)
    as (mem' & Hrun & ->).
  - unfold stereo_mem. rewrite !take_0, !drop_0. cbn [app]. by rewrite (insert_id _ _ _ H0), insert_id.
  - intros i m [_ Hlt] ->. cbn in Hlt.
    destruct (lookup_lt_is_Some_2 X i) as [x Hx]; [lia|]. destruct (lookup_lt_is_Some_2 Y i) as [y Hy]; [lia|].
    assert (Hout : forall (h : spec_float -> spec_float -> spec_float), zip_with h (take n X) (take n Y) !! i = Some (h x y)).
    { intros h. rewrite lookup_zip_with, !lookup_take_lt by lia. by rewrite Hx, Hy. }
    assert (HlX : length (take n X) = n) by (rewrite length_take; lia).
    assert (HlY : length (take n Y) = n) by (rewrite length_take; lia).
    eexists. split; [|reflexivity].
    rewrite (step i _ x y (take i (zip_with f (take n X) (take n Y)) ++ drop i l0)
      (take i (zip_with g (take n X) (take n Y)) ++ drop i l1)).
    + rewrite !st_next by (done || lia). unfold stereo_mem. f_equal. apply map_eq. intros p.
      destruct (decide (p = Buffer c1)) as [->|Hp1]; [by rewrite !lookup_insert_eq|].
      rewrite !(lookup_insert_ne _ (Buffer c1)) by done.
      destruct (decide (p = Buffer c0)) as [->|Hp0]; [by rewrite !lookup_insert_eq|].
      by rewrite !lookup_insert_ne by done.
    + apply (stereo_load _ _ _ _ X _ _ _ _ H0 H1 HX Hx); lia.
    + apply (stereo_load _ _ _ _ Y _ _ _ _ H0 H1 HY Hy); lia.
    + unfold stereo_mem. rewrite lookup_insert_ne by (intros [=]; congruence). by rewrite lookup_insert_eq.
    + unfold stereo_mem. by rewrite lookup_insert_eq.
    + rewrite length_app, length_take, length_zip_with, length_drop. lia.
    + rewrite length_app, length_take, length_zip_with, length_drop. lia.
  - eexists. split; [exact Hrun|]. unfold stereo_mem. rewrite Nat.add_0_l.
    assert (Hlen : forall (h : spec_float -> spec_float -> spec_float), length (zip_with h (take n X) (take n Y)) = n).
    { intros h. rewrite length_zip_with, !length_take. lia. }
    rewrite !(take_ge (zip_with _ _ _)) by (rewrite Hlen; lia). split; [split|].
    + constructor; [split; [apply Hlen|]|constructor; [split; [apply Hlen|]|constructor]].
      * exists l0. split; [done|]. rewrite lookup_insert_ne by (intros [=]; congruence). by rewrite lookup_insert_eq.
      * exists l1. split; [done|]. by rewrite lookup_insert_eq.
    + intros b Hb. rewrite !lookup_insert_ne by (intros [=]; set_solver). done.
    + apply controls_eq. intros c. by rewrite !lookup_insert_ne by done.
Qed.
End Stereo.

(** Reading and storing samples through a table of buffers. *)
Lemma port_get_buffer (ports : list (option location)) (k b : nat) (mem : store) (i : Z) :
  ports !! k = Some (Some (Buffer b)) -> port_get ports k mem i = load_float mem (Buffer b) i.
Proof. intros Hk. unfold port_get. by rewrite Hk. Qed.

Lemma port_set_buffer (ports : list (option location)) (k b : nat) (mem : store) (i : nat) (v : spec_float) (l : list spec_float) :
  ports !! k = Some (Some (Buffer b)) -> mem !! Buffer b = Some l -> (i < length l)%nat ->
  port_set ports k mem (Z.of_nat i) v = Some (<[Buffer b := <[i := v]> l]> mem).
Proof.
  intros Hk Hl Hi. unfold port_set, store_float. rewrite Hk. cbn [mbind option_bind]. rewrite Hl. cbn [mbind option_bind].
  rewrite st_Some by lia. cbn [mbind option_bind]. by rewrite Nat2Z.id.
Qed.

Definition table (b0 b1 c0 c1 : nat) : list (option location) := [Some (Buffer b0); Some (Buffer b1); Some (Buffer c0); Some (Buffer c1)].

Lemma table_get0 (b0 b1 c0 c1 : nat) (mem : store) (i : Z) : port_get (table b0 b1 c0 c1) 0 mem i = load_float mem (Buffer b0) i.
Proof. by apply port_get_buffer. Qed.
Lemma table_get1 (b0 b1 c0 c1 : nat) (mem : store) (i : Z) : port_get (table b0 b1 c0 c1) 1 mem i = load_float mem (Buffer b1) i.
Proof. by apply port_get_buffer. Qed.

(** The two stores at the end of a pass. *)
Lemma table_set (b0 b1 c0 c1 : nat) (mem : store) (i : nat) (u v : spec_float) (l0 l1 : list spec_float) :
  c0 <> c1 -> mem !! Buffer c0 = Some l0 -> mem !! Buffer c1 = Some l1 -> (i < length l0)%nat -> (i < length l1)%nat ->
  port_set (table b0 b1 c0 c1) 2 mem (Z.of_nat i) u = Some (<[Buffer c0 := <[i := u]> l0]> mem) /\
  port_set (table b0 b1 c0 c1) 3 (<[Buffer c0 := <[i := u]> l0]> mem) (Z.of_nat i) v =
    Some (<[Buffer c1 := <[i := v]> l1]> (<[Buffer c0 := <[i := u]> l0]> mem)).
Proof.
  intros Hne H0 H1 Hl0 Hl1. split; [by apply port_set_buffer|]. apply port_set_buffer; [done| |done].
  rewrite lookup_insert_ne by (intros [=]; congruence). exact H1.
Qed.

(** A pass, where the second read may come after the first store. *)
Ltac stereo_sample Hx Hy Hset :=
  rewrite ?table_get0, ?Hx; cbn [mbind option_bind]; rewrite ?table_get1, ?Hy; cbn [mbind option_bind];
  rewrite (proj1 Hset); cbn [mbind option_bind]; rewrite ?table_get1; try exact (proj2 Hset).

Section Builtin.
Context {X : ext_modules} {K : dsp_module_library} {MK : module_semantics K}.

Definition wired_stereo (t : port_table) (bi bo : list nat) : Prop :=
  exists b0 b1 c0 c1, t = Some (table b0 b1 c0 c1) /\ bi = [b0; b1] /\ bo = [c0; c1].

(** [invert_lr] stores its first output before it reads its second input. *)
Definition builtin_connected (m : builtin_module) (bi bo : list nat) : Prop :=
  match m with
  | Empty => bo = []
  | SwapLr t | MixStereo t => wired_stereo t bi bo
  | InvertLr t => wired_stereo t bi bo /\ bi !! 1%nat <> bo !! 0%nat
  | Sink d => bo = [] /\ exists ports, d = Some (SinkData None ports)
  | Other m => connected_to m bi bo
  end.

Definition builtin_process (m : builtin_module) (n : nat) (ins : list (list spec_float)) (ctl : store)
  : builtin_module * list (list spec_float) * store :=
  match m, ins with
  | SwapLr _, [x; y] => (m, [zip_with (fun _ y => y) x y; zip_with (fun x _ => x) x y], ctl)
  | InvertLr _, [x; y] => (m, [zip_with (fun x _ => SFopp x) x y; zip_with (fun _ y => y) x y], ctl)
  | MixStereo _, [x; y] => (m, [zip_with f32_add x y; zip_with f32_add x y], ctl)
  | Other k, _ => let '(k, outs, ctl) := process k n ins ctl in (Other k, outs, ctl)
  | _, _ => (m, [], ctl)
  end.

Lemma stored_nothing (n : nat) (mem : store) : stored n [] [] mem mem.
Proof. split; [constructor|done]. Qed.

Lemma builtin_run_law (m : builtin_module) (bi bo : list nat) (n : nat) (mem : store) :
  builtin_connected m bi bo -> NoDup bo ->
  (Z.land (builtin_get_properties m) MODULE_INPLACE_BROKEN <> 0 -> forall b, b ∈ bi -> b ∉ bo) ->
  Forall (fits_buffer n mem) bi -> Forall (fits_buffer n mem) bo ->
  exists mem', builtin_run m (Z.of_nat n) mem =
      Done ((builtin_process m n (read_buffer n mem <$> bi) (controls mem)).1.1, mem') /\
    stored n bo (builtin_process m n (read_buffer n mem <$> bi) (controls mem)).1.2 mem mem' /\
    controls mem' = (builtin_process m n (read_buffer n mem <$> bi) (controls mem)).2 /\
    builtin_connected (builtin_process m n (read_buffer n mem <$> bi) (controls mem)).1.1 bi bo.
Proof.
  intros Hc Hnd Hbr Hi Ho. destruct m as [|t|t|t|d|k]; cbn [builtin_connected] in Hc.
  - subst bo. exists mem. cbn. split; [done|]. split; [apply stored_nothing|done].
  - pose proof Hc as (b0 & b1 & c0 & c1 & -> & -> & ->). apply NoDup_cons in Hnd as [Hne%not_elem_of_cons _].
    destruct (stereo_loop b0 b1 c0 c1 (fun _ y => y) (fun x _ => x) (swap_lr_sample (table b0 b1 c0 c1)))
      with (n := n) (mem := mem) as (mem' & Hrun & Hst & Hctl); [apply Hne| |done..|].
    { intros i m x y l0 l1 Hx Hy H0 H1 Hl0 Hl1. unfold swap_lr_sample.
      pose proof (fun u v => table_set b0 b1 c0 c1 m i u v l0 l1 (proj1 Hne) H0 H1 Hl0 Hl1) as Hset.
      stereo_sample Hx Hy (Hset y x). }
    exists mem'. cbn. unfold swap_lr_run. rewrite Hrun. done.
  - pose proof Hc as [(b0 & b1 & c0 & c1 & -> & -> & ->) Hcross]. cbn in Hcross.
    apply NoDup_cons in Hnd as [Hne%not_elem_of_cons _].
    destruct (stereo_loop b0 b1 c0 c1 (fun x _ => SFopp x) (fun _ y => y) (invert_lr_sample (table b0 b1 c0 c1)))
      with (n := n) (mem := mem) as (mem' & Hrun & Hst & Hctl); [apply Hne| |done..|].
    { intros i m x y l0 l1 Hx Hy H0 H1 Hl0 Hl1. unfold invert_lr_sample.
      pose proof (table_set b0 b1 c0 c1 m i (SFopp x) y l0 l1 (proj1 Hne) H0 H1 Hl0 Hl1) as Hset.
      stereo_sample Hx Hy Hset. unfold load_float in *. rewrite lookup_insert_ne by (intros [=]; congruence).
      rewrite Hy. exact (proj2 Hset). }
    exists mem'. cbn. unfold invert_lr_run. rewrite Hrun. done.
  - pose proof Hc as (b0 & b1 & c0 & c1 & -> & -> & ->). apply NoDup_cons in Hnd as [Hne%not_elem_of_cons _].
    destruct (stereo_loop b0 b1 c0 c1 f32_add f32_add (mix_stereo_sample (table b0 b1 c0 c1)))
      with (n := n) (mem := mem) as (mem' & Hrun & Hst & Hctl); [apply Hne| |done..|].
    { intros i m x y l0 l1 Hx Hy H0 H1 Hl0 Hl1. unfold mix_stereo_sample.
      pose proof (fun u v => table_set b0 b1 c0 c1 m i u v l0 l1 (proj1 Hne) H0 H1 Hl0 Hl1) as Hset.
      stereo_sample Hx Hy (Hset (f32_add x y) (f32_add x y)). }
    exists mem'. cbn. unfold mix_stereo_run. rewrite Hrun. done.
  - destruct Hc as (-> & ports & ->). exists mem. cbn. split; [done|]. split; [apply stored_nothing|].
    split; [done|]. split; [done|]. by exists ports.
  - destruct (run_law k bi bo n mem Hc Hnd Hbr Hi Ho) as (mem' & Hrun & Hst & Hctl & Hcon).
    exists mem'. cbn [builtin_run builtin_process]. rewrite Hrun. cbn [mbind outcome_bind].
    destruct (process k n _ _) as [[k' outs] ctl]. done.
Qed.

(** The ports the modules are made for; [invert_lr] is not safe wherever its
    buffers are. *)
Definition builtin_accepts (m : builtin_module) (ins outs ctl : list nat) : Prop :=
  match m with
  | Empty => outs = []
  | SwapLr _ | MixStereo _ => ins = [0; 1]%nat /\ outs = [2; 3]%nat /\ ctl = []
  | InvertLr _ => False
  | Sink _ => outs = []
  | Other m => accepts m ins outs ctl
  end.

Lemma connect_all_other (l : list (nat * location)) (k : @dsp_module K) (m' : builtin_module) :
  connect_all l (Other k : @dsp_module builtin_library) = Done m' -> exists k', m' = Other k' /\ connect_all l k = Done k'.
Proof.
  revert k. induction l as [|[p loc] l IH]; intros k Hrun; cbn [connect_all] in *.
  - injection Hrun as <-. by exists k.
  - cbn in Hrun. destruct (connect_port k p loc) as [k1| | |]; cbn in Hrun |- *; [|done..]. by apply IH.
Qed.

(** Four pointers through two of each. *)
Lemma connect_stereo (C : port_table -> builtin_module) (bi bo : list nat) (m' : builtin_module) :
  (forall t k loc, builtin_connect_port (C t) k loc = (t ← table_connect_port t k loc; Done (C t))) ->
  length bi = 2%nat -> length bo = 2%nat ->
  connect_all (zip [0; 1]%nat (Buffer <$> bi) ++ zip [2; 3]%nat (Buffer <$> bo) ++ [])
    (C (Some (null_ports 4)) : @dsp_module builtin_library) = Done m' ->
  exists t, m' = C t /\ wired_stereo t bi bo.
Proof.
  intros HC Hi Ho. destruct bi as [|x [|y []]]; try done. destruct bo as [|u [|v []]]; try done.
  cbn [fmap list_fmap zip zip_with app connect_all connect_port builtin_library].
  rewrite HC. cbn [table_connect_port set_port at_ mbind outcome_bind null_ports replicate lookup list_lookup insert list_insert].
  rewrite HC. cbn [table_connect_port set_port at_ mbind outcome_bind lookup list_lookup insert list_insert].
  rewrite HC. cbn [table_connect_port set_port at_ mbind outcome_bind lookup list_lookup insert list_insert].
  rewrite HC. cbn [table_connect_port set_port at_ mbind outcome_bind lookup list_lookup insert list_insert].
  intros [= <-]. eexists. split; [done|]. by exists x, y, u, v.
Qed.

Lemma builtin_connect_law (m m0 m' : builtin_module) (rate : Z) (ins outs ctl bi bo : list nat) (locs : list location) :
  builtin_accepts m ins outs ctl -> length ins = length bi -> length outs = length bo -> length ctl = length locs ->
  builtin_instantiate m rate = (0, m0) ->
  connect_all (zip ins (Buffer <$> bi) ++ zip outs (Buffer <$> bo) ++ zip ctl locs)
    (m0 : @dsp_module builtin_library) = Done m' ->
  builtin_get_properties m' = builtin_get_properties m /\ builtin_connected m' bi bo.
Proof.
  intros Ha Hi Ho Hl Hinst Hrun. destruct m as [|t|t|t|d|k]; cbn [builtin_accepts builtin_instantiate] in *.
  - injection Hinst as <-. assert (m' = Empty) as ->.
    { by eapply (connect_all_keeps (L := builtin_library) (fun m : builtin_module => m = Empty) _ _ _ Hrun); [intros ? ? ? ? -> [= <-]|]. }
    split; [done|]. subst outs. by destruct bo.
  - injection Hinst as <-. destruct Ha as (-> & -> & ->). destruct locs; [|done].
    by destruct (connect_stereo SwapLr bi bo m') as (t' & -> & Hw).
  - done.
  - injection Hinst as <-. destruct Ha as (-> & -> & ->). destruct locs; [|done].
    by destruct (connect_stereo MixStereo bi bo m') as (t' & -> & Hw).
  - injection Hinst as <-. assert (H : exists ports, m' = Sink (Some (SinkData None ports))).
    { eapply (connect_all_keeps (L := builtin_library) (fun m : builtin_module => exists ports, m = Sink (Some (SinkData None ports))) _ _ _ Hrun); [|by eexists].
      intros ? k loc m1 [ps ->] Hc. cbn in Hc. unfold set_port in Hc.
      destruct (ps !! k); cbn in Hc; [|done]. injection Hc as <-. by eexists. }
    destruct H as [ps ->]. split; [done|]. subst outs. split; [by destruct bo|]. by exists ps.
  - destruct (module_instantiate k rate) as [rc k0] eqn:Hk. injection Hinst as -> <-.
    destruct (connect_all_other _ _ _ Hrun) as (k' & -> & Hrun'). by eapply connect_law.
Qed.

#[export] Instance builtin_semantics : module_semantics builtin_library := {|
  accepts := builtin_accepts : @dsp_module builtin_library -> _;
  connected_to := builtin_connected : @dsp_module builtin_library -> _;
  process := builtin_process : @dsp_module builtin_library -> _;
  run_law := builtin_run_law;
  connect_law := builtin_connect_law
|}.
End Builtin.
