(* ===== verification/DspRun.v ===== *)
(** * Running a DSP pipeline is dataflow

    [cras_dsp_pipeline_run] of server/cras_dsp_pipeline.c on shared buffers
    computes what the graph says, where every output has a value of its own. *)
From Stdlib Require Import Floats.SpecFloat.
From Stdlib Require String.
From S2P Require Import Prelude Arrays Float32 AudioFormat Outcome Expr DspIni DspUtil DspPipeline DspBuffers DspModules DspSemantics.
Import String.StringSyntax.
#[local] Open Scope Z_scope.
#[local] Arguments c_str s%_string_scope.

Section Run.
Context {L : dsp_module_library} {M : module_semantics L}.

(** ** The dataflow machine *)

(** A value for each output, and the control values. *)
Abbreviation values := (gmap (nat * nat) (list spec_float)).

Definition inputs_of (vals : values) (i : instance) : list (list spec_float) :=
  (fun r => default [] (vals !! r)) <$> sources i.

(** The value of output [j] of instance [k] is set to the [j]-th of [outs]. *)
Definition set_outputs (k : nat) (outs : list (list spec_float)) (vals : values) : values :=
  foldr (fun x vals => <[(k, x.1) := x.2]> vals) vals (imap pair outs).

Fixpoint dataflow (n k : nat) (l : list instance) (vals : values) (ctl : store) : values * store :=
  match l with
  | [] => (vals, ctl)
  | i :: l =>
      match module i with
      | None => (vals, ctl)
      | Some m =>
          let '(_, outs, ctl) := process m n (inputs_of vals i) ctl in
          dataflow n (1 + k) l (set_outputs k outs vals) ctl
      end
  end.

Lemma set_outputs_lookup (k : nat) (outs : list (list spec_float)) (vals : values) (r : nat * nat) :
  set_outputs k outs vals !! r = if decide (r.1 = k) then match outs !! r.2 with Some o => Some o | None => vals !! r end
                                 else vals !! r.
Proof.
  unfold set_outputs. destruct r as [m j]. cbn [fst snd].
  assert (H : forall b, foldr (fun x vals => <[(k, x.1) := x.2]> vals) vals (imap (fun i => pair (b + i)%nat) outs) !! (m, j) =
    if decide (m = k) then
      match (if (b <=? j)%nat then outs !! (j - b)%nat else None) with Some o => Some o | None => vals !! (m, j) end
    else vals !! (m, j)).
  { induction outs as [|o outs IH]; intros b.
    - cbn. destruct (decide (m = k)); [|done]. by destruct (b <=? j)%nat.
    - cbn [imap foldr fst snd]. rewrite Nat.add_0_r.
      assert (Hi : imap ((fun i => pair (b + i)%nat) ∘ S) outs = imap (fun i => pair (S b + i)%nat) outs).
      { apply imap_ext. intros i x _. cbn. f_equal. lia. }
      rewrite Hi. destruct (decide ((k, b) = (m, j))) as [[= -> ->]|Hne].
      + rewrite lookup_insert_eq, decide_True, Nat.leb_refl, Nat.sub_diag by done. done.
      + rewrite lookup_insert_ne by done. rewrite IH. destruct (decide (m = k)) as [->|]; [|done].
        assert (b <> j) by congruence.
        destruct (Nat.leb_spec b j), (Nat.leb_spec (S b) j); try lia; [|done].
        by replace (j - b)%nat with (S (j - S b)) by lia. }
  specialize (H 0%nat). rewrite Nat.sub_0_r in H. exact H.
Qed.

(** ** Running on shared buffers *)

Definition bufs_in (i : instance) : list nat := buf_index <$> inputs (audio i).
Definition bufs_out (i : instance) : list nat := buf_index <$> outputs (audio i).

Record runnable (n : nat) (insts : list instance) (peak : Z) (mem : store) : Prop := {
  rn_wired : wired insts;
  rn_buffers : buffers_ok insts peak;
  rn_memory : forall b, Z.of_nat b < peak -> fits_buffer n mem b
}.

(** The module of instance [k] is there, connected as the ports say. *)
Definition connected_instance (i : instance) : Prop :=
  exists m, module i = Some m /\ connected_to m (bufs_in i) (bufs_out i) /\
    (Z.land (get_properties m) MODULE_INPLACE_BROKEN <> 0 -> inplace_broken i = true).

(** What waits to be read before instance [k] is in its buffer. *)
Definition agrees (n : nat) (insts : list instance) (k : nat) (vals : values) (mem : store) : Prop :=
  forall r, live insts k r -> vals !! r = Some (read_buffer n mem (buf insts r)).

Section Step.
Context (n : nat) (insts : list instance) (peak : Z) (mem : store) (k : nat) (i : instance) (vals : values).
Hypothesis run_ok : runnable n insts peak mem.
Hypothesis at_k : insts !! k = Some i.
Hypothesis agree : agrees n insts k vals mem.

Lemma output_buffer (j : nat) (p : audio_port) :
  outputs (audio i) !! j = Some p -> buffer_at insts (k, j) = Some (buf_index p).
Proof. intros Hp. unfold buffer_at. by rewrite (output_at_Some _ _ _ _ at_k), Hp. Qed.

Lemma own_live (j : nat) : (j < length (outputs (audio i)))%nat -> live insts (S k) (k, j).
Proof.
  intros Hj. split; [cbn; lia|]. split.
  - rewrite (output_at_Some _ _ _ _ at_k). by apply lookup_lt_is_Some.
  - intros k' i' Hk' Hi' Hin. destruct (source_before _ _ _ _ (rn_wired _ _ _ _ run_ok) Hi' Hin) as [Hlt _].
    cbn in Hlt. lia.
Qed.

Lemma inputs_read : inputs_of vals i = read_buffer n mem <$> bufs_in i.
Proof.
  unfold inputs_of, sources, bufs_in. rewrite <- !list_fmap_compose. apply list_fmap_ext. intros j p Hp. cbn.
  apply list_elem_of_lookup_2 in Hp.
  assert (Hl : live insts k (source_of p)).
  { eapply source_live; [apply run_ok|exact at_k|]. by apply list_elem_of_fmap_2. }
  rewrite (agree _ Hl). cbn. f_equal.
  pose proof (bo_input _ _ (rn_buffers _ _ _ _ run_ok) k i p at_k Hp) as Hb.
  rewrite buffer_at_buf in Hb by apply Hl. by injection Hb.
Qed.

Lemma outputs_distinct : NoDup (bufs_out i).
Proof.
  apply NoDup_alt. intros a b x Ha Hb. unfold bufs_out in Ha, Hb. rewrite list_lookup_fmap in Ha, Hb.
  destruct (outputs (audio i) !! a) as [p|] eqn:Hp; [|done]. destruct (outputs (audio i) !! b) as [q|] eqn:Hq; [|done].
  cbn in Ha, Hb. assert (He : (k, a) = (k, b)); [|by injection He].
  apply (bo_distinct _ _ (rn_buffers _ _ _ _ run_ok) (S k)).
  - apply own_live. by eapply lookup_lt_Some.
  - apply own_live. by eapply lookup_lt_Some.
  - rewrite (output_buffer _ _ Hp), (output_buffer _ _ Hq). congruence.
Qed.

Lemma inputs_fit : Forall (fits_buffer n mem) (bufs_in i).
Proof.
  apply Forall_fmap, Forall_forall. intros p Hp. cbn. apply (rn_memory _ _ _ _ run_ok).
  eapply (bo_range _ _ (rn_buffers _ _ _ _ run_ok)), (bo_input _ _ (rn_buffers _ _ _ _ run_ok)); [exact at_k|done].
Qed.

Lemma outputs_fit : Forall (fits_buffer n mem) (bufs_out i).
Proof.
  apply Forall_fmap, Forall_forall. intros p [j Hp]%list_elem_of_lookup. cbn. apply (rn_memory _ _ _ _ run_ok).
  eapply (bo_range _ _ (rn_buffers _ _ _ _ run_ok)). by apply output_buffer.
Qed.

(** A module broken in place has outputs apart from its inputs. *)
Lemma broken_apart : inplace_broken i = true -> forall b, b ∈ bufs_in i -> b ∉ bufs_out i.
Proof.
  intros Hbr b (p & -> & Hp)%list_elem_of_fmap (q & Hq & Hqo)%list_elem_of_fmap.
  apply (bo_broken _ _ (rn_buffers _ _ _ _ run_ok) k i (source_of p) q at_k Hbr); [|done|].
  - eapply source_live; [apply run_ok|exact at_k|]. by apply list_elem_of_fmap_2.
  - rewrite (bo_input _ _ (rn_buffers _ _ _ _ run_ok) k i p at_k Hp). by rewrite Hq.
Qed.

Lemma other_live (r : nat * nat) :
  live insts (S k) r -> r.1 <> k -> live insts k r /\ buf insts r ∉ bufs_out i.
Proof.
  intros Hl Hne. pose proof Hl as (Hlt & Ho & _). split; [apply (live_le _ (S k)); [done|lia|lia]|].
  intros (q & Hq & [j Hj]%list_elem_of_lookup)%list_elem_of_fmap.
  assert (He : r = (k, j)); [|by subst r].
  apply (bo_distinct _ _ (rn_buffers _ _ _ _ run_ok) (S k)); [done| |].
  - apply own_live. by eapply lookup_lt_Some.
  - by rewrite (output_buffer _ _ Hj), buffer_at_buf, Hq.
Qed.

Lemma stored_agrees (outs : list (list spec_float)) (mem' : store) :
  stored n (bufs_out i) outs mem mem' ->
  runnable n insts peak mem' /\ agrees n insts (S k) (set_outputs k outs vals) mem'.
Proof.
  intros [Hout Hother]. assert (Hl : length outs = length (outputs (audio i))).
  { apply Forall2_length in Hout. unfold bufs_out in Hout. by rewrite length_fmap in Hout. }
  split.
  - destruct run_ok as [Hw Hb Hm]. split; [done..|]. intros b Hlt. destruct (Hm b Hlt) as (l & Hbl & Hn).
    destruct (decide (b ∈ bufs_out i)) as [(j & Hj)%list_elem_of_lookup|Hni].
    + destruct (Forall2_lookup_l _ _ _ _ _ Hout Hj) as (o & _ & Ho & l' & Hl' & Hm'). rewrite Hbl in Hl'.
      injection Hl' as <-. exists (o ++ drop n l). split; [done|]. rewrite length_app, length_drop. lia.
    + exists l. by rewrite (Hother b Hni).
  - intros r Hr. rewrite set_outputs_lookup. destruct (decide (r.1 = k)) as [Hk|Hk].
    + destruct r as [m j]. cbn [fst snd] in *. subst m. destruct Hr as (_ & Ho & _).
      pose proof Ho as Ho'. rewrite (output_at_Some _ _ _ _ at_k) in Ho'. destruct Ho' as [p Hp].
      assert (Hbj : bufs_out i !! j = Some (buf insts (k, j))).
      { unfold bufs_out. rewrite list_lookup_fmap, Hp. cbn. rewrite <- (output_buffer _ _ Hp). by rewrite buffer_at_buf. }
      destruct (Forall2_lookup_l _ _ _ _ _ Hout Hbj) as (o & Hoj & Hon & l & Hbl & Hm'). rewrite Hoj. f_equal.
      unfold read_buffer. rewrite Hm'. cbn. by rewrite take_app_le, take_ge by lia.
    + destruct (other_live r Hr Hk) as [Hlive Hni]. rewrite (agree r Hlive). unfold read_buffer. by rewrite (Hother _ Hni).
Qed.
End Step.

Lemma run_instance_at (n : Z) (k : nat) (x i : instance) (m m' : dsp_module) (insts : list instance) (mem mem' : store) :
  insts !! k = Some i -> module i = Some m -> module_run m n mem = Done (m', mem') ->
  run_instance n k x (insts, mem) = Done (<[k := set_module (Some m') i]> insts, mem').
Proof.
  intros Hi Hm Hrun. unfold run_instance. rewrite Hi. cbn [at_ mbind outcome_bind]. rewrite Hm.
  cbn [at_ mbind outcome_bind]. by rewrite Hrun.
Qed.

Lemma run_step (n : nat) (insts insts' : list instance) (peak : Z) (mem : store) (k : nat) (i x : instance) (vals : values) :
  runnable n insts peak mem -> insts !! k = Some i -> insts' !! k = Some i -> agrees n insts k vals mem ->
  connected_instance i ->
  exists m m' outs mem', module i = Some m /\
    process m n (inputs_of vals i) (controls mem) = (m', outs, controls mem') /\
    run_instance (Z.of_nat n) k x (insts', mem) = Done (<[k := set_module (Some m') i]> insts', mem') /\
    runnable n insts peak mem' /\ agrees n insts (S k) (set_outputs k outs vals) mem'.
Proof.
  intros Hok Hi Hi' Hag (m & Hm & Hconn & Hbr).
  destruct (run_law m (bufs_in i) (bufs_out i) n mem Hconn) as (mem' & Hrun & Hst & Hctl & _).
  - by eapply outputs_distinct.
  - intros Hb. apply (broken_apart n insts peak mem k i); [done|done|by apply Hbr].
  - by eapply inputs_fit.
  - by eapply outputs_fit.
  - rewrite <- (inputs_read n insts peak mem k i vals Hok Hi Hag) in *.
    destruct (process m n (inputs_of vals i) (controls mem)) as [[m' outs] ctl] eqn:Hp. cbn [fst snd] in *.
    exists m, m', outs, mem'. split; [done|]. split; [by rewrite Hctl|].
    split; [by eapply run_instance_at|by eapply stored_agrees].
Qed.

(** The loop over the instances [l] from [k] on. *)
Lemma run_loop (n : nat) (insts : list instance) (peak : Z) (l rest : list instance) (k : nat) (insts' : list instance)
    (mem : store) (vals : values) :
  drop k insts = l ++ rest -> drop k insts' = l ++ rest ->
  runnable n insts peak mem -> agrees n insts k vals mem -> Forall connected_instance l ->
  exists insts'' mem', foreach (run_instance (Z.of_nat n)) k l (insts', mem) = Done (insts'', mem') /\
    runnable n insts peak mem' /\ agrees n insts (k + length l) (dataflow n k l vals (controls mem)).1 mem' /\
    controls mem' = (dataflow n k l vals (controls mem)).2 /\
    drop (k + length l) insts'' = rest.
Proof.
  revert k insts' mem vals. induction l as [|i l IH]; intros k insts' mem vals Hd Hd' Hok Hag Hcon; cbn [foreach dataflow].
  { exists insts', mem. rewrite Nat.add_0_r. done. }
  apply Forall_cons in Hcon as [Hi Hcon].
  assert (Hk : insts !! k = Some i) by (rewrite <- (Nat.add_0_r k), <- lookup_drop, Hd; done).
  assert (Hk' : insts' !! k = Some i) by (rewrite <- (Nat.add_0_r k), <- lookup_drop, Hd'; done).
  destruct (run_step n insts insts' peak mem k i i vals Hok Hk Hk' Hag Hi)
    as (m & m' & outs & mem1 & Hm & Hp & -> & Hok1 & Hag1).
  cbn [mbind outcome_bind]. rewrite Hm, Hp.
  assert (Hdrop : forall t : list instance, drop k t = i :: l ++ rest -> drop (1 + k) t = l ++ rest).
  { intros t Ht. rewrite <- (Nat.add_comm k 1), <- drop_drop, Ht. done. }
  destruct (IH (1 + k)%nat (<[k := set_module (Some m') i]> insts') mem1 (set_outputs k outs vals))
    as (insts2 & mem2 & -> & Hok2 & Hag2 & Hc2 & Hl2); [by apply Hdrop| |done..|].
  - rewrite drop_insert_lt by lia. by apply Hdrop.
  - exists insts2, mem2. split; [done|]. split; [done|]. cbn [length].
    replace (k + S (length l))%nat with (1 + k + length l)%nat by lia. done.
Qed.

(** The samples that lie in the source's outputs. *)
Definition source_values (n : nat) (mem : store) (source : instance) : values :=
  set_outputs 0 (read_buffer n mem <$> bufs_out source) ∅.

Lemma source_agrees (n : nat) (insts : list instance) (mem : store) (source : instance) :
  insts !! 0%nat = Some source -> agrees n insts 1 (source_values n mem source) mem.
Proof.
  intros Hs r (Hlt & Ho & _). destruct r as [m j]. cbn in Hlt. assert (m = 0%nat) as -> by lia.
  rewrite (output_at_Some _ _ _ _ Hs) in Ho. destruct Ho as [q Hq]. unfold source_values.
  rewrite set_outputs_lookup. cbn [fst snd]. rewrite decide_True by done. unfold bufs_out.
  assert (Hb : buf insts (0%nat, j) = buf_index q) by (unfold buf, buffer_at; by rewrite (output_at_Some _ _ _ _ Hs), Hq).
  by rewrite !list_lookup_fmap, Hq, Hb.
Qed.

(** Running a pipeline on shared buffers computes the dataflow of its graph:
    when the first instance is the source, which leaves memory alone,
    the last one is the sink, and the modules in between compute functions of
    what they are connected to, a run ends, and the sink's buffers hold the
    values that the outputs they stem from have in the graph, where every output
    has a value of its own, starting from the samples in the source's buffers.
    The control values agree too. *)
Lemma run_is_dataflow (n : nat) (p : pipeline) (source sink : instance) (mid : list instance)
    (ms ms' : dsp_module)
    (Hrun : runnable n (instances p) (peak_buf p) (memory p))
    (Hsplit : instances p = source :: mid ++ [sink])
    (Hsource : module source = Some ms /\ module_run ms (Z.of_nat n) (memory p) = Done (ms', memory p))
    (Hmid : Forall connected_instance mid)
    (Hsink : connected_instance sink /\ outputs (audio sink) = []) :
  exists p', cras_dsp_pipeline_run p (Z.of_nat n) = Done p' /\
    let '(vals, ctl) := dataflow n 1 mid (source_values n (memory p) source) (controls (memory p)) in
    read_buffer n (memory p') <$> bufs_in sink = inputs_of vals sink /\
    exists m, module sink = Some m /\ controls (memory p') = (process m n (inputs_of vals sink) ctl).2.
Proof.
  destruct Hsource as [Hms Hnop]. destruct Hsink as [Hcs Hout]. unfold cras_dsp_pipeline_run. rewrite Hsplit.
  cbn [foreach]. rewrite (run_instance_at _ 0 source source ms ms' _ _ (memory p)) by done. cbn [mbind outcome_bind].
  set (insts1 := <[0%nat := set_module (Some ms') source]> (source :: mid ++ [sink])).
  assert (H0 : instances p !! 0%nat = Some source) by (by rewrite Hsplit).
  pose proof (source_agrees n (instances p) (memory p) source H0) as Hag.
  destruct (run_loop n (instances p) (peak_buf p) mid [sink] 1 insts1 (memory p) (source_values n (memory p) source))
    as (insts2 & mem2 & Hfor & Hok2 & Hag2 & Hc2 & Hat2); [by rewrite Hsplit|done|done|done|done|].
  rewrite foreach_app. change (1 + 0)%nat with 1%nat. rewrite Hfor. cbn [mbind outcome_bind foreach].
  destruct (dataflow n 1 mid (source_values n (memory p) source) (controls (memory p))) as [vals ctl].
  cbn [fst snd] in *.
  assert (Hpk : instances p !! (1 + length mid)%nat = Some sink).
  { rewrite Hsplit. cbn. by apply list_lookup_middle. }
  assert (Hpk2 : insts2 !! (1 + length mid)%nat = Some sink).
  { rewrite <- (Nat.add_0_r (1 + length mid)), <- lookup_drop, Hat2. done. }
  destruct Hcs as (m & Hm & Hconn & Hbr). pose proof (inputs_read n _ _ mem2 _ sink vals Hok2 Hpk Hag2) as Hread.
  assert (Hbo : bufs_out sink = []) by (unfold bufs_out; by rewrite Hout).
  destruct (run_law m (bufs_in sink) (bufs_out sink) n mem2 Hconn) as (mem3 & Hrun3 & [_ Hst3] & Hc3 & _).
  - rewrite Hbo. constructor.
  - rewrite Hbo. intros _ b _. apply not_elem_of_nil.
  - by eapply inputs_fit.
  - by eapply outputs_fit.
  - rewrite (run_instance_at _ _ sink sink m _ _ _ mem3 Hpk2 Hm Hrun3). cbn [mbind outcome_bind]. eexists. split; [done|]. cbn [memory set_memory]. split.
    + rewrite Hread. apply list_fmap_ext. intros j b Hb. unfold read_buffer. rewrite Hst3; [done|].
      rewrite Hbo. apply not_elem_of_nil.
    + exists m. split; [done|]. by rewrite Hc3, Hread, Hc2.
Qed.
End Run.
