(* ===== verification/DspLoad.v ===== *)
(** * From an ini file to the samples: the composition

    [cras_dsp_pipeline_create], [_load], [_instantiate] and [_run] of
    server/cras_dsp_pipeline.c one after another, with the built-in modules. *)
From Stdlib Require Import Floats.SpecFloat.
From Stdlib Require String.
From S2P Require Import Prelude Arrays Float32 AudioFormat Outcome Expr DspIni DspUtil DspPipeline DspBuffers DspSort.
From S2P Require Import DspModules DspSemantics DspRun.
Import String.StringSyntax.
#[local] Open Scope Z_scope.
#[local] Arguments c_str s%_string_scope.

Section Load.
Context {L : dsp_module_library}.

(** ** What the wiring depends on *)

Definition wiring (i : instance) : list (option port_ref) * nat := (peer <$> inputs (audio i), length (outputs (audio i))).

Definition source_ref (r : option port_ref) : nat * nat :=
  match r with Some r => (ref_instance r, ref_index r) | None => (0, 0)%nat end.

Lemma wiring_lookup (insts insts' : list instance) (n : nat) (i : instance) :
  wiring <$> insts = wiring <$> insts' -> insts' !! n = Some i -> exists i', insts !! n = Some i' /\ wiring i' = wiring i.
Proof.
  intros Hw Hi. assert (H : (wiring <$> insts) !! n = Some (wiring i)) by (by rewrite Hw, list_lookup_fmap, Hi).
  rewrite list_lookup_fmap in H. destruct (insts !! n) as [i'|]; [|done]. apply (inj Some) in H. by exists i'.
Qed.

Lemma sources_wiring (i i' : instance) : wiring i = wiring i' -> sources i = sources i'.
Proof.
  intros Hw. assert (H : forall i, sources i = source_ref <$> (wiring i).1).
  { intros j. unfold sources, wiring. cbn. rewrite <- list_fmap_compose. by apply list_fmap_ext. }
  by rewrite !H, Hw.
Qed.

Lemma outputs_wiring (insts insts' : list instance) (n : nat) : wiring <$> insts = wiring <$> insts' ->
  length (port_array audio insts PORT_OUTPUT n) = length (port_array audio insts' PORT_OUTPUT n).
Proof.
  intros Hw. assert (H : forall l : list instance, length (port_array audio l PORT_OUTPUT n) =
    from_option snd 0%nat ((wiring <$> l) !! n)).
  { intros l. unfold port_array. rewrite list_lookup_fmap. by destruct (l !! n). }
  by rewrite !H, Hw.
Qed.

Lemma output_at_wiring (insts insts' : list instance) (r : nat * nat) : wiring <$> insts = wiring <$> insts' ->
  is_Some (output_at insts r) -> is_Some (output_at insts' r).
Proof. intros Hw. unfold output_at. rewrite !lookup_lt_is_Some. by rewrite (outputs_wiring insts insts'). Qed.

Lemma wired_wiring (insts insts' : list instance) : wiring <$> insts = wiring <$> insts' -> wired insts -> wired insts'.
Proof.
  intros Hw [Hp Ho Hn]. split.
  - intros n i p Hi Hin. destruct (wiring_lookup _ _ _ _ Hw Hi) as (i0 & Hi0 & Ha).
    assert (H : peer p ∈ (wiring i0).1) by (rewrite Ha; by apply list_elem_of_fmap_2).
    apply list_elem_of_fmap in H as (q & Hq & Hqin). destruct (Hp n i0 q Hi0 Hqin) as (r & Hr & Hlt & Hsize & Hout).
    exists r. rewrite Hq. split; [done|]. split; [done|]. rewrite <- (outputs_wiring insts insts') by done. split; [done|].
    apply (output_at_wiring insts); [done|]. unfold source_of in *. by rewrite Hq.
  - intros n n' i i' Hi Hi' r Hr Hr'. destruct (wiring_lookup _ _ _ _ Hw Hi) as (i0 & Hi0 & Ha).
    destruct (wiring_lookup _ _ _ _ Hw Hi') as (i1 & Hi1 & Ha'). rewrite <- (sources_wiring _ _ Ha) in Hr.
    rewrite <- (sources_wiring _ _ Ha') in Hr'. by eapply Ho.
  - intros n i Hi. destruct (wiring_lookup _ _ _ _ Hw Hi) as (i0 & Hi0 & Ha). rewrite <- (sources_wiring _ _ Ha). by eapply Hn.
Qed.

Lemma strip_wiring (i i' : instance) : strip i = strip i' -> wiring i = wiring i'.
Proof.
  intros H. assert (Hs : forall i, wiring (strip i) = wiring i).
  { intros j. unfold wiring, strip. cbn. rewrite length_fmap, <- list_fmap_compose. done. }
  by rewrite <- (Hs i), <- (Hs i'), H.
Qed.

Lemma live_wiring (insts insts' : list instance) (n : nat) (r : nat * nat) :
  wiring <$> insts = wiring <$> insts' -> live insts n r -> live insts' n r.
Proof.
  intros Hw (Hlt & Ho & Hs). split; [done|]. split; [by eapply output_at_wiring|]. intros k i Hk Hi.
  destruct (wiring_lookup _ _ _ _ Hw Hi) as (i0 & Hi0 & Ha). rewrite <- (sources_wiring _ _ Ha). by eapply Hs.
Qed.

(** The buffers also depend on the indices and on the properties. *)
Definition graph (insts : list instance) : list (port_arrays nat * Z) := (fun i => (audio i, properties i)) <$> insts.

Lemma graph_wiring (insts insts' : list instance) : graph insts = graph insts' -> wiring <$> insts = wiring <$> insts'.
Proof.
  intros Hg. assert (H : forall l, wiring <$> l = (fun x => (peer <$> inputs x.1, length (outputs x.1))) <$> graph l).
  { intros l. unfold graph. rewrite <- list_fmap_compose. by apply list_fmap_ext. }
  by rewrite !H, Hg.
Qed.

Lemma buffers_graph (insts insts' : list instance) (peak : Z) :
  graph insts = graph insts' -> buffers_ok insts peak -> buffers_ok insts' peak.
Proof.
  intros Hg [Hr Hi Hd Hb]. pose proof (graph_wiring _ _ Hg) as Hw.
  assert (Hlk : forall n i, insts' !! n = Some i -> exists i0, insts !! n = Some i0 /\ audio i0 = audio i /\ properties i0 = properties i).
  { intros n i Hn. apply (f_equal (fun l => l !! n)) in Hg. unfold graph in Hg. rewrite !list_lookup_fmap, Hn in Hg.
    destruct (insts !! n) as [i0|]; [|done]. cbn in Hg. apply (inj Some) in Hg. injection Hg as Ha Hp. by exists i0. }
  assert (Hat : forall r, buffer_at insts' r = buffer_at insts r).
  { intros [m j]. unfold buffer_at, output_at, port_array. cbn [fst snd].
    apply (f_equal (fun l => l !! m)) in Hg. unfold graph in Hg. rewrite !list_lookup_fmap in Hg.
    destruct (insts !! m) as [i0|], (insts' !! m) as [i1|]; cbn in Hg |- *; try done.
    apply (inj Some) in Hg. by injection Hg as ->. }
  split.
  - intros r b. rewrite Hat. apply Hr.
  - intros n i p Hn Hp. rewrite Hat. destruct (Hlk n i Hn) as (i0 & Hi0 & Ha & _). rewrite <- Ha in Hp. by eapply Hi.
  - intros n r r' Hl Hl'. rewrite !Hat. by apply (Hd n); apply (live_wiring insts').
  - intros n i r p Hn Hbr Hl Hp. rewrite Hat. destruct (Hlk n i Hn) as (i0 & Hi0 & Ha & Hpr).
    rewrite <- Ha in Hp. apply (Hb n i0 r p Hi0); [|by apply (live_wiring insts')|done].
    unfold inplace_broken in *. by rewrite Hpr.
Qed.

(** ** Loops that treat the instances one after another *)

(** The instances before [n] are related to what they were, the others are the same. *)
Definition upto (P : instance -> instance -> Prop) (n : nat) (l0 l : list instance) : Prop :=
  exists l1 l2 l1', l0 = l1 ++ l2 /\ l = l1' ++ l2 /\ length l1 = n /\ Forall2 P l1 l1'.

Lemma upto_start (P : instance -> instance -> Prop) (l : list instance) : upto P 0 l l.
Proof. exists [], l, []. by repeat split. Qed.

Lemma upto_at (P : instance -> instance -> Prop) (n : nat) (l0 l : list instance) (i : instance) :
  upto P n l0 l -> l0 !! n = Some i -> l !! n = Some i.
Proof.
  intros (l1 & l2 & l1' & -> & -> & Hn & HP). apply Forall2_length in HP.
  rewrite !lookup_app_r by lia. by rewrite <- HP.
Qed.

Lemma upto_step (P : instance -> instance -> Prop) (n : nat) (l0 l : list instance) (i i' : instance) :
  upto P n l0 l -> l0 !! n = Some i -> P i i' -> upto P (S n) l0 (<[n := i']> l).
Proof.
  intros (l1 & l2 & l1' & -> & -> & Hn & HP) Hi HPi. pose proof (Forall2_length _ _ _ HP) as Hl.
  rewrite lookup_app_r in Hi by lia. rewrite Hn, Nat.sub_diag in Hi. destruct l2 as [|j l2]; [done|]. injection Hi as ->.
  exists (l1 ++ [i]), l2, (l1' ++ [i']). rewrite <- !app_assoc. split; [done|].
  rewrite insert_app_r_alt by lia. replace (n - length l1')%nat with 0%nat by lia. split; [done|].
  rewrite length_app. cbn. split; [lia|]. apply Forall2_app; [done|]. by repeat constructor.
Qed.

Lemma upto_all (P : instance -> instance -> Prop) (l0 l : list instance) : upto P (length l0) l0 l -> Forall2 P l0 l.
Proof.
  intros (l1 & l2 & l1' & -> & -> & Hn & HP). rewrite length_app in Hn. destruct l2; [|cbn in Hn; lia]. by rewrite !app_nil_r.
Qed.

(** A loop over the instances of a list that replaces each by a related one. *)
Lemma foreach_instances (P : instance -> instance -> Prop) (body : nat -> instance -> list instance -> outcome (list instance))
    (l l' : list instance) :
  foreach body 0 l l = Done l' ->
  (forall n x l l', body n x l = Done l' -> l !! n = Some x -> exists i', l' = <[n := i']> l /\ P x i') ->
  Forall2 P l l'.
Proof.
  intros Hrun Hbody. apply upto_all.
  apply (foreach_Done (fun n t => upto P n l t) _ _ _ _ _ Hrun (upto_start P l)).
  intros k x s s' Hk Hup Hb. cbn in *. destruct (Hbody k x s s' Hb) as (i' & -> & HP); [by eapply upto_at|].
  by eapply upto_step.
Qed.

(** ** The steps *)

Definition loaded (s : ini) (i i' : instance) : Prop :=
  exists pl m, plugins s !! inst_plugin i = Some pl /\ load_plugin pl = Some m /\
    i' = set_properties (get_properties m) (set_module (Some m) i).

Lemma Forall2_fmap_eq {B} (P : instance -> instance -> Prop) (f : instance -> B) (l l' : list instance) :
  Forall2 P l l' -> (forall i i', P i i' -> f i = f i') -> f <$> l = f <$> l'.
Proof. intros HP Hf. induction HP as [|i i' l l' Hi _ IH]; [done|]. cbn. by rewrite (Hf _ _ Hi), IH. Qed.

Lemma load_ok (p p1 : pipeline) :
  wired (instances p) -> cras_dsp_pipeline_load true p = Done p1 ->
  exists mid, Forall2 (loaded (pl_ini p)) (instances p) mid /\ strip <$> instances p1 = strip <$> mid /\
    wired (instances p1) /\ buffers_ok (instances p1) (peak_buf p1).
Proof.
  intros Hw Hload. unfold cras_dsp_pipeline_load in Hload. apply bind_Done in Hload as (mid & Hmid & Hall).
  assert (Hl : Forall2 (loaded (pl_ini p)) (instances p) mid).
  { apply (foreach_instances _ _ _ _ Hmid). intros n x l l' Hrun Hx. apply bind_Done in Hrun as (pl & Hpl & Hrun).
    apply at_Done in Hpl. apply bind_Done in Hrun as (i' & Hi' & [= <-]).
    unfold load_module in Hi'. apply bind_Done in Hi' as (m & Hm & [= <-]). apply or_return_Done in Hm.
    eexists. split; [done|]. by exists pl, m. }
  assert (Hw1 : wired mid).
  { apply (wired_wiring (instances p)); [|done]. apply (Forall2_fmap_eq _ _ _ _ Hl). by intros i i' (pl & m & _ & _ & ->). }
  destruct (allocate_buffers_ok (set_instances mid p) Hw1) as (p' & Hrun & Hb & _ & Hst & _).
  rewrite Hrun in Hall. injection Hall as <-. exists mid. split; [done|]. split; [done|]. split; [|done].
  cbn [instances set_instances] in Hst. apply (wired_wiring mid); [|done].
  apply (f_equal (fmap (M := list) wiring)) in Hst. rewrite <- !list_fmap_compose in Hst.
  assert (H : forall l : list instance, wiring ∘ strip <$> l = wiring <$> l).
  { intros l. apply list_fmap_ext. intros k i _. apply strip_wiring. unfold strip. cbn.
    rewrite <- !list_fmap_compose. done. }
  by rewrite !H in Hst.
Qed.

(** What instantiating does to instance [n]. *)
Definition made (peak rate : Z) (i i' : instance) : Prop :=
  exists m m0 m' locs, module i = Some m /\ module_instantiate m rate = (0, m0) /\
    connect_all (zip (original_index <$> inputs (audio i)) (Buffer <$> bufs_in i) ++
                 zip (original_index <$> outputs (audio i)) (Buffer <$> bufs_out i) ++
                 zip (original_index <$> inputs (control i) ++ outputs (control i)) locs) m0 = Done m' /\
    length locs = length (inputs (control i) ++ outputs (control i)) /\
    module i' = Some m' /\ audio i' = audio i /\ properties i' = properties i /\ inst_plugin i' = inst_plugin i.

Lemma connect_audio_all (peak : Z) (ps : list audio_port) (m m' : dsp_module) :
  connect_audio peak ps m = Done m' -> connect_all (zip (original_index <$> ps) (Buffer <$> (buf_index <$> ps))) m = Done m'.
Proof.
  unfold connect_audio. generalize 0%nat. revert m. induction ps as [|p ps IH]; intros m n Hrun; [done|].
  cbn [foreach fmap list_fmap zip zip_with connect_all] in *. apply bind_Done in Hrun as (m1 & H1 & Hrun).
  apply bind_Done in H1 as (loc & Hloc & H1). unfold buffer_of in Hloc. destruct (_ <? _); [|done]. injection Hloc as <-.
  rewrite H1. cbn [mbind outcome_bind]. by eapply IH.
Qed.

Lemma connect_ports_all {A} (loc_of : nat -> dsp_port A -> outcome location) (ps : list (dsp_port A)) (j : nat) (m m' : dsp_module) :
  foreach (fun j p m => v ← loc_of j p; connect_port m (original_index p) v) j ps m = Done m' ->
  exists locs, length locs = length ps /\ connect_all (zip (original_index <$> ps) locs) m = Done m'.
Proof.
  revert j m. induction ps as [|p ps IH]; intros j m Hrun; cbn [foreach] in Hrun; [by exists []|].
  apply bind_Done in Hrun as (m1 & H1 & Hrun). apply bind_Done in H1 as (loc & Hloc & H1).
  destruct (IH _ _ Hrun) as (locs & Hl & Hc). exists (loc :: locs). cbn. split; [by rewrite Hl|]. by rewrite H1.
Qed.

Lemma connect_controls_all (insts : list instance) (n : nat) (c : port_arrays unit) (m m' : dsp_module) :
  connect_controls insts n c m = Done m' ->
  exists locs, length locs = length (inputs c ++ outputs c) /\
    connect_all (zip (original_index <$> inputs c ++ outputs c) locs) m = Done m'.
Proof.
  intros Hrun. apply bind_Done in Hrun as (m1 & H1 & H2). apply connect_ports_all in H1 as (l1 & Hl1 & H1).
  destruct (connect_ports_all (fun j _ => Done (ControlValue n true j)) (outputs c) 0 m1 m' H2) as (l2 & Hl2 & H2').
  exists (l1 ++ l2). rewrite !length_app, Hl1, Hl2. split; [done|].
  rewrite fmap_app, zip_with_app by (by rewrite length_fmap). by rewrite connect_all_app, H1.
Qed.

Lemma instantiate_modules_ok (rate : Z) (l l' : list instance) :
  instantiate_modules rate l = Done (0, l') ->
  Forall2 (fun i i' => exists m m0, module i = Some m /\ module_instantiate m rate = (0, m0) /\
    i' = set_instantiated true (set_module (Some m0) i)) l l'.
Proof.
  revert l'. induction l as [|i l IH]; intros l' Hrun; cbn [instantiate_modules] in Hrun; [by injection Hrun as <-|].
  apply bind_Done in Hrun as (m & Hm & Hrun). apply at_Done in Hm. destruct (module_instantiate m rate) as [rc m0] eqn:Hi.
  destruct (Z.eqb_spec rc 0) as [->|]; [|done]. cbn [negb] in Hrun. apply bind_Done in Hrun as ([rc l1] & Hl & [= -> <-]).
  constructor; [by exists m, m0|]. by apply IH.
Qed.

Lemma instantiate_ok (p p2 : pipeline) (rate : Z) :
  cras_dsp_pipeline_instantiate p rate = Done (0, p2) ->
  Forall2 (made (peak_buf p) rate) (instances p) (instances p2) /\ peak_buf p2 = peak_buf p /\ memory p2 = memory p.
Proof.
  intros Hrun. unfold cras_dsp_pipeline_instantiate in Hrun. apply bind_Done in Hrun as ([rc l1] & H1 & Hrun).
  destruct (Z.eqb_spec rc 0) as [->|]; [|done]. cbn [negb] in Hrun. apply bind_Done in Hrun as (l2 & H2 & Hrun).
  apply bind_Done in Hrun as (p' & H3 & [= <-]). unfold calculate_audio_delay in H3.
  apply bind_Done in H3 as (l3 & H3 & [= <-]). cbn [instances peak_buf memory set_instances set_sample_rate] in *.
  split; [|done]. apply instantiate_modules_ok in H1.
  apply (foreach_instances (fun i i' => exists m m' locs, module i = Some m /\
    connect_all (zip (original_index <$> inputs (audio i)) (Buffer <$> bufs_in i) ++
                 zip (original_index <$> outputs (audio i)) (Buffer <$> bufs_out i) ++
                 zip (original_index <$> inputs (control i) ++ outputs (control i)) locs) m = Done m' /\
    length locs = length (inputs (control i) ++ outputs (control i)) /\ i' = set_module (Some m') i)) in H2.
  - apply (foreach_instances (fun i i' => exists d, i' = set_total_delay d i)) in H3.
    + revert l2 l3 H2 H3. induction H1 as [|i i1 l l1 (m & m0 & Hm & Hi & ->) _ IH]; intros l2 l3 H2 H3.
      { apply Forall2_nil_inv_l in H2 as ->. apply Forall2_nil_inv_l in H3 as ->. constructor. }
      apply Forall2_cons_inv_l in H2 as (i2 & l2' & (m1 & m' & locs & Hm1 & Hc & Hlen & ->) & H2 & ->).
      apply Forall2_cons_inv_l in H3 as (i3 & l3' & (d & ->) & H3 & ->). constructor; [|by eapply IH].
      cbn in Hm1. injection Hm1 as <-. by exists m, m0, m', locs.
    + intros n x l l' Hb Hx. run_steps Hb. rewrite Hx in *. simplify_eq. eexists. split; [done|]. by eexists.
  - intros n x l l' Hb Hx. unfold connect_instance in Hb. rewrite Hx in Hb. cbn [at_ mbind outcome_bind] in Hb.
    apply bind_Done in Hb as (m & Hm & Hb). apply at_Done in Hm. apply bind_Done in Hb as (m1 & Hm1 & Hb).
    apply bind_Done in Hb as (m2 & Hm2 & Hb). apply bind_Done in Hb as (m3 & Hm3 & [= <-]).
    apply connect_audio_all in Hm1, Hm2. apply connect_controls_all in Hm3 as (locs & Hlen & Hm3).
    eexists. split; [done|]. exists m, m3, locs. split; [done|]. split; [|done].
    rewrite connect_all_app. unfold bufs_in. rewrite Hm1. cbn [mbind outcome_bind]. rewrite connect_all_app.
    unfold bufs_out. by rewrite Hm2.
Qed.
End Load.

(** ** From the ini file to the samples *)

Section Built.
Context {L : dsp_module_library} {M : module_semantics L}.

(** The plugin's module is made for the ports of the instance. *)
Definition suits (s : ini) (i : instance) : Prop :=
  exists pl m, plugins s !! inst_plugin i = Some pl /\ load_plugin pl = Some m /\
    accepts m (original_index <$> inputs (audio i)) (original_index <$> outputs (audio i))
      (original_index <$> inputs (control i) ++ outputs (control i)).

(** An instance after loading, sharing buffers and instantiating. *)
Definition built (s : ini) (peak rate : Z) (i i' : instance) : Prop :=
  exists i1 i2, loaded s i i1 /\ strip i2 = strip i1 /\ made peak rate i2 i'.

Lemma strip_indices (i i' : instance) : strip i = strip i' ->
  original_index <$> inputs (audio i) = original_index <$> inputs (audio i') /\
  original_index <$> outputs (audio i) = original_index <$> outputs (audio i').
Proof.
  intros Hs. assert (H : forall l : list audio_port, original_index <$> l = original_index <$> (strip_port <$> l)).
  { intros l. rewrite <- list_fmap_compose. by apply list_fmap_ext. }
  split.
  - rewrite (H (inputs (audio i))), (H (inputs (audio i'))). f_equal. by apply (strip_ports i i' PORT_INPUT).
  - rewrite (H (outputs (audio i))), (H (outputs (audio i'))). f_equal. by apply (strip_ports i i' PORT_OUTPUT).
Qed.

Lemma built_connected (s : ini) (peak rate : Z) (i i' : instance) :
  built s peak rate i i' -> suits s i -> connected_instance i'.
Proof.
  intros (i1 & i2 & (pl & m & Hpl & Hm & ->) & Hst & Hmade) (pl' & m' & Hpl' & Hm' & Hacc).
  rewrite Hpl in Hpl'. injection Hpl' as <-. rewrite Hm in Hm'. injection Hm' as <-.
  destruct Hmade as (u & u0 & u' & locs & Hu & Hinst & Hall & Hlen & Hmod & Haud & Hprop & _).
  pose proof (strip_indices _ _ Hst) as [Hi Ho]. cbn in Hi, Ho.
  assert (Hu' : u = m) by (apply (f_equal module) in Hst; cbn in Hst; congruence).
  assert (Hc : control i2 = control i) by (by apply (f_equal control) in Hst).
  assert (Hp : properties i2 = get_properties m) by (by apply (f_equal properties) in Hst).
  subst u. rewrite Hc in Hall, Hlen. rewrite Hi, Ho in Hall.
  destruct (connect_law m u0 u' rate _ _ _ (bufs_in i2) (bufs_out i2) locs Hacc) as [Hgp Hcon]; try done.
  - unfold bufs_in. rewrite <- Hi. by rewrite !length_fmap.
  - unfold bufs_out. rewrite <- Ho. by rewrite !length_fmap.
  - rewrite length_fmap. by rewrite Hlen.
  - exists u'. unfold bufs_in, bufs_out in *. rewrite Haud. split; [done|]. split; [done|].
    unfold inplace_broken. rewrite Hprop, Hp, Hgp. intros Hb. apply negb_true_iff. by apply Z.eqb_neq.
Qed.

Lemma built_all (p p1 p2 : pipeline) (rate : Z) :
  wired (instances p) -> cras_dsp_pipeline_load true p = Done p1 ->
  cras_dsp_pipeline_instantiate p1 rate = Done (0, p2) ->
  Forall2 (built (pl_ini p) (peak_buf p2) rate) (instances p) (instances p2) /\
  wired (instances p2) /\ buffers_ok (instances p2) (peak_buf p2).
Proof.
  intros Hw Hload Hinst. destruct (load_ok _ _ Hw Hload) as (mid & Hl & Hst & Hw1 & Hb1).
  destruct (instantiate_ok _ _ _ Hinst) as (Hm & Hpk & _). rewrite Hpk. split.
  - apply Forall2_same_length_lookup. pose proof (Forall2_length _ _ _ Hl). pose proof (Forall2_length _ _ _ Hm).
    pose proof (f_equal length Hst) as Hlen. rewrite !length_fmap in Hlen. split; [lia|].
    intros n i i' Hi Hi'. destruct (Forall2_lookup_l _ _ _ _ _ Hl Hi) as (i1 & Hi1 & Hload1).
    destruct (Forall2_lookup_r _ _ _ _ _ Hm Hi') as (i2 & Hi2 & Hmade). exists i1, i2. split; [done|]. split; [|done].
    destruct (strip_lookup _ _ _ _ Hst Hi2) as (x & Hx & Hs). congruence.
  - assert (Hg : graph (instances p1) = graph (instances p2)).
    { apply (Forall2_fmap_eq _ _ _ _ Hm). by intros i i' (? & ? & ? & ? & _ & _ & _ & _ & _ & -> & -> & _). }
    split; [by apply (wired_wiring (instances p1)); [apply graph_wiring|]|by apply (buffers_graph (instances p1))].
Qed.
End Built.

Section EndToEnd.
Context {X : ext_modules} {K : dsp_module_library} {MK : module_semantics K}.

Lemma built_empty (s : ini) (peak rate : Z) (i i' : @instance builtin_library) (pl : plugin) :
  built s peak rate i i' -> plugins s !! inst_plugin i = Some pl -> cras_dsp_module_load_builtin pl = Some Empty ->
  module i' = Some Empty.
Proof.
  intros (i1 & i2 & (pl' & m & Hpl & Hm & ->) & Hst & Hmade) Hpl' He. rewrite Hpl in Hpl'. injection Hpl' as <-.
  cbn in Hm. rewrite He in Hm. injection Hm as <-.
  destruct Hmade as (u & u0 & u' & locs & Hu & Hinst & Hall & _ & Hmod & _).
  assert (Hu' : u = Empty) by (apply (f_equal module) in Hst; cbn in Hst; congruence). subst u.
  injection Hinst as <-. rewrite Hmod. f_equal.
  by eapply (connect_all_keeps (L := builtin_library) (fun m : builtin_module => m = Empty) _ _ _ Hall);
    [intros ? ? ? ? -> [= <-]|].
Qed.

End EndToEnd.

(** ** A source, the module that swaps channels, and a sink *)

Section Example.
#[local] Instance no_ext : ext_modules := {| ext_dsp_module := unit; ext_run e _ _ mem := Done (e, mem) |}.
#[local] Existing Instance no_modules.
#[local] Program Instance no_modules_semantics : module_semantics no_modules := {|
  accepts _ _ outs _ := outs = []; connected_to _ _ bo := bo = []; process m _ _ ctl := (m, [], ctl) |}.
Next Obligation. intros m bi bo n mem -> _ _ _ _. exists mem. cbn. split; [done|]. split; [apply stored_nothing|done]. Qed.
Next Obligation. intros m m0 m' rate ins outs ctl bi bo locs -> _ Ho _ _ _. destruct m', m. by destruct bo. Qed.

Abbreviation lib := (@builtin_library no_ext no_modules).

Definition no_pipeline : @pipeline lib := @Pipeline lib [] (Ini [] []) [] 0 ∅ 0 0 0 0 0 0 0 0 0 0.
Definition result {A} (d : A) (m : outcome A) : A := match m with Done a => a | _ => d end.
Lemma result_created {A} (d : A) (m : outcome (option A)) :
  match m with Done (Some _) => true | _ => false end = true -> m = Done (Some (default d (result None m))).
Proof. by destruct m as [[|]| | |]. Qed.
Lemma result_loaded {A} (d : A) (m : outcome A) :
  match m with Done _ => true | _ => false end = true -> m = Done (result d m).
Proof. by destruct m. Qed.
Lemma result_instantiated {A} (d : A) (m : outcome (Z * A)) :
  match m with Done (rc, _) => rc =? 0 | _ => false end = true -> m = Done (0, (result (-1, d) m).2).
Proof. destruct m as [[rc a]| | |]; try done. by intros ->%Z.eqb_eq. Qed.

Lemma three_elements {A} (d : A) (l : list A) :
  length l = 3%nat -> l = default d (l !! 0%nat) :: [default d (l !! 1%nat)] ++ [default d (l !! 2%nat)].
Proof. by destruct l as [|a [|b [|c []]]]. Qed.

Definition created_example : @pipeline lib :=
  default no_pipeline (result None (@cras_dsp_pipeline_create lib (S (length (plugins ini_example))) true ini_example
    CRAS_EXPR_ENV_INIT (c_str "playback"))).
Definition loaded_example : @pipeline lib := result no_pipeline (@cras_dsp_pipeline_load lib true created_example).
Definition built_example : @pipeline lib :=
  (result (-1, no_pipeline) (@cras_dsp_pipeline_instantiate lib loaded_example 48000)).2.
Definition memory_example : store :=
  {[Buffer 0 := [float_one]; Buffer 1 := [SFopp float_one]]}.

Definition instance_example (k : nat) : @instance lib := default (new_instance 0) (instances created_example !! k).
Definition plugin_example : plugin := default (Plugin [] [] [] None None []) (plugins (pl_ini created_example) !! 0%nat).

Lemma suits_example (k : nat) : k = 1%nat \/ k = 2%nat -> suits (pl_ini created_example) (instance_example k).
Proof.
  intros [-> | ->]; (eexists _, _; split; [vm_compute; reflexivity|]); (split; [vm_compute; reflexivity|]); vm_compute; by repeat split.
Qed.

Lemma memory_example_fits (b : nat) : Z.of_nat b < peak_buf built_example -> fits_buffer 1 memory_example b.
Proof.
  intros Hb. assert (Hpk : peak_buf built_example = 2) by (vm_compute; reflexivity). rewrite Hpk in Hb.
  destruct b as [|[|b]]; [eexists; split; [vm_compute; reflexivity|cbn; lia]..|lia].
Qed.

(** A source, [invert_lr] reading the channels crosswise, and a sink. *)
Definition dict_crossed : dictionary :=
  let section n lbl := [(n ++ c_str ":library", c_str "builtin"); (n ++ c_str ":label", lbl);
                        (n ++ c_str ":purpose", c_str "playback")] in
  Dictionary
    (fun key => snd <$> List.find (fun kv => bool_decide (fst kv = key))
       (section (c_str "a") (c_str "source") ++ section (c_str "b") (c_str "invert_lr") ++
        section (c_str "c") (c_str "sink") ++
        [(c_str "a:output_0", c_str "{l}"); (c_str "a:output_1", c_str "{r}");
         (c_str "b:input_0", c_str "{r}"); (c_str "b:input_1", c_str "{l}");
         (c_str "b:output_2", c_str "{x}"); (c_str "b:output_3", c_str "{y}");
         (c_str "c:input_0", c_str "{x}"); (c_str "c:input_1", c_str "{y}")]))
    [c_str "a"; c_str "b"; c_str "c"].

Definition f32_two : spec_float := f32_of_Z 2.

(** Stores a sample in each buffer, and reads one from each. *)
Definition put_samples (bs : list (option location)) (vs : list spec_float) (mem : store) : store :=
  foldr (fun x mem => match x.1 with Some p => <[p := [x.2]]> mem | None => mem end) mem (zip bs vs).
Definition get_samples (mem : store) (bs : list (option location)) : list (option spec_float) :=
  (fun b : option location => p ← b; load_float mem p 0) <$> bs.

(** The sink's samples after a run on one sample for each channel. *)
Definition run_crossed (l r : spec_float) : outcome (list (option spec_float)) :=
  s ← cras_dsp_ini_create true (Some dict_crossed) : outcome (option ini);
  s ← or_return (-1) s;
  p ← @cras_dsp_pipeline_create lib 10 true s dsp_env_example (c_str "playback") : outcome (option (@pipeline lib));
  p ← or_return (-1) p;
  p ← @cras_dsp_pipeline_load lib true p;
  '(_, p) ← @cras_dsp_pipeline_instantiate lib p 48000 : outcome (Z * @pipeline lib);
  source ← channel_buffers (@cras_dsp_pipeline_get_source_buffer lib p) 2 0;
  p ← @cras_dsp_pipeline_run lib (set_memory (put_samples source [l; r] (memory p)) p) 1;
  sink ← channel_buffers (@cras_dsp_pipeline_get_sink_buffer lib p) 2 0;
  Done (get_samples (memory p) sink).

(** [invert_lr] says that it can work in place, but it stores its first
    output before it reads its second input.  When an ini file crosses its
    inputs, the first output gets the buffer of the second input: with one on
    the left and two on the right, minus two and one are due, but the sink
    receives minus two twice. *)
Theorem crossed_invert_reads_output :
  @builtin_get_properties no_ext no_modules (InvertLr None) = 0 /\
  run_crossed float_one f32_two = Done [Some (SFopp f32_two); Some (SFopp f32_two)].
Proof. split; [reflexivity|]. vm_compute. reflexivity. Qed.
End Example.
