(* ===== verification/DspContext.v ===== *)
(** * DSP contexts (server/cras_dsp.c)

    A context for each direction keeps a pipeline, which is loaded again when
    the ini file is.  An [ini] is an object that the contexts' pipelines point
    into: the model keeps the objects that are allocated, under addresses, so
    that freeing one twice or using a freed one is undefined.  Allocations
    succeed; a function of the main thread that would wait for a context's mutex
    is run when it has it. *)
From Stdlib Require String.
From S2P Require Import Prelude Arrays Float32 AudioFormat Outcome Expr DspIni DspUtil DspPipeline.
From S2P Require Import DspBuffers DspSort DspModules.
Import String.StringSyntax.
#[local] Open Scope Z_scope.
#[local] Arguments c_str s%_string_scope.

Section Contexts.
Context {L : dsp_module_library}.

(** A pipeline and the address of its ini. *)
Record cras_dsp_context : Type := DspContext {
  cx_pipeline : option (nat * pipeline); cx_env : cras_expr_env; cx_sample_rate : Z; cx_purpose : list Z }.

(** The static variables of the file, the ini objects that are allocated, and
    the next address.  Contexts have addresses too. *)
Record dsp_state : Type := DspState {
  inis : gmap nat ini; next_ini : nat; global_ini : option nat; context_list : list (nat * cras_dsp_context); next_context : nat }.

Definition dsp_start : dsp_state := DspState ∅ 0 None [] 0.

Definition set_inis (m : gmap nat ini) (d : dsp_state) : dsp_state :=
  DspState m (next_ini d) (global_ini d) (context_list d) (next_context d).
Definition set_global_ini (a : option nat) (d : dsp_state) : dsp_state :=
  DspState (inis d) (next_ini d) a (context_list d) (next_context d).
Definition set_context_list (l : list (nat * cras_dsp_context)) (d : dsp_state) : dsp_state :=
  DspState (inis d) (next_ini d) (global_ini d) l (next_context d).

(** [malloc] and [cras_dsp_ini_free]. *)
Definition new_ini (s : ini) (d : dsp_state) : nat * dsp_state :=
  (next_ini d, DspState (<[next_ini d := s]> (inis d)) (S (next_ini d)) (global_ini d) (context_list d) (next_context d)).
Definition cras_dsp_ini_free (a : nat) (d : dsp_state) : outcome dsp_state :=
  _ ← at_ (inis d !! a); Done (set_inis (delete a (inis d)) d).

Definition initialize_environment (env : cras_expr_env) : cras_expr_env :=
  let env := cras_expr_env_install_builtins env in
  let env := cras_expr_env_set_variable_boolean env (c_str "disable_eq") 0 in
  let env := cras_expr_env_set_variable_boolean env (c_str "disable_drc") 0 in
  let env := cras_expr_env_set_variable_string env (c_str "dsp_name") [] in
  cras_expr_env_set_variable_boolean env (c_str "swap_lr_disabled") 1.

(** An ini other than the global one is freed with its pipeline. *)
Definition destroy_pipeline (x : nat * pipeline) (d : dsp_state) : outcome dsp_state :=
  if bool_decide (global_ini d = Some x.1) then Done d else cras_dsp_ini_free x.1 d.

(** What comes of an ini: no pipeline, one that has to be destroyed, or one to use. *)
Inductive prepared : Type := NotCreated | Bailed (p : pipeline) | Ready (p : pipeline).

Definition try_pipeline (fuel : nat) (s : ini) (env : cras_expr_env) (purpose : list Z) (rate : Z) : outcome prepared :=
  r ← cras_dsp_pipeline_create fuel true s env purpose;
  match r with
  | None => Done NotCreated
  | Some p =>
      match cras_dsp_pipeline_load true p with
      | Failed _ => Done (Bailed p)
      | Undefined => Undefined
      | OutOfFuel => OutOfFuel
      | Done p =>
          '(rc, p) ← cras_dsp_pipeline_instantiate p rate;
          if negb (rc =? 0) then Done (Bailed p)
          else if negb (cras_dsp_pipeline_get_sample_rate p =? rate) then Done (Bailed p)
          else Done (Ready p)
      end
  end.

Definition prepare_pipeline (fuel : nat) (ctx : cras_dsp_context) (target_ini : nat) (d : dsp_state)
  : outcome (option (nat * pipeline) * dsp_state) :=
  s ← at_ (inis d !! target_ini);
  r ← try_pipeline fuel s (cx_env ctx) (cx_purpose ctx) (cx_sample_rate ctx);
  match r with
  | NotCreated => Done (None, d)
  | Bailed p => d ← destroy_pipeline (target_ini, p) d; Done (None, d)
  | Ready p => Done (Some (target_ini, p), d)
  end.

Definition find_context (c : nat) (d : dsp_state) : option (nat * (nat * cras_dsp_context)) :=
  list_find (fun x => x.1 = c) (context_list d).

Definition set_cx_pipeline (p : option (nat * pipeline)) (x : cras_dsp_context) : cras_dsp_context :=
  DspContext p (cx_env x) (cx_sample_rate x) (cx_purpose x).
Definition set_cx_env (e : cras_expr_env) (x : cras_dsp_context) : cras_dsp_context :=
  DspContext (cx_pipeline x) e (cx_sample_rate x) (cx_purpose x).

Definition update_context (c : nat) (f : cras_dsp_context -> cras_dsp_context) (d : dsp_state) : dsp_state :=
  set_context_list ((fun x => if bool_decide (x.1 = c) then (x.1, f x.2) else x) <$> context_list d) d.

Definition cmd_load_pipeline (fuel c : nat) (target_ini : option nat) (d : dsp_state) : outcome dsp_state :=
  '(_, (_, ctx)) ← at_ (find_context c d);
  '(pipeline, d) ← match target_ini with
                   | Some a => prepare_pipeline fuel ctx a d
                   | None => Done (None, d)
                   end;
  let d := update_context c (set_cx_pipeline pipeline) d in
  match cx_pipeline ctx with Some old => destroy_pipeline old d | None => Done d end.

(** [file] is what is in the ini file, [None] when it cannot be read. *)
Definition cmd_reload_ini (fuel : nat) (file : option dictionary) (d : dsp_state) : outcome dsp_state :=
  let old_ini := global_ini d in
  r ← cras_dsp_ini_create true file;
  match r with
  | None => Done d
  | Some s =>
      let '(a, d) := new_ini s d in
      d ← foreach (fun _ x d => cmd_load_pipeline fuel x.1 (Some a) d) 0 (context_list d) d;
      let d := set_global_ini (Some a) d in
      match old_ini with Some o => cras_dsp_ini_free o d | None => Done d end
  end.

(** ** Exported functions *)

Definition cras_dsp_init (fuel : nat) (file : option dictionary) (d : dsp_state) : outcome dsp_state :=
  cmd_reload_ini fuel file d.
Definition cras_dsp_stop (d : dsp_state) : outcome dsp_state :=
  match global_ini d with Some a => d ← cras_dsp_ini_free a d; Done (set_global_ini None d) | None => Done d end.

Definition cras_dsp_context_new (sample_rate : Z) (purpose : list Z) (d : dsp_state) : nat * dsp_state :=
  (next_context d,
   DspState (inis d) (next_ini d) (global_ini d)
     (context_list d ++ [(next_context d, DspContext None (initialize_environment CRAS_EXPR_ENV_INIT) sample_rate purpose)])
     (S (next_context d))).

Definition cras_dsp_context_free (c : nat) (d : dsp_state) : outcome dsp_state :=
  '(_, (_, ctx)) ← at_ (find_context c d);
  let d := set_context_list (filter (fun x => x.1 <> c) (context_list d)) d in
  match cx_pipeline ctx with Some p => destroy_pipeline p d | None => Done d end.

Definition cras_dsp_set_variable_string (c : nat) (key value : list Z) (d : dsp_state) : dsp_state :=
  update_context c (fun x => set_cx_env (cras_expr_env_set_variable_string (cx_env x) key value) x) d.
Definition cras_dsp_set_variable_boolean (c : nat) (key : list Z) (value : Z) (d : dsp_state) : dsp_state :=
  update_context c (fun x => set_cx_env (cras_expr_env_set_variable_boolean (cx_env x) key value) x) d.

Definition cras_dsp_load_pipeline (fuel c : nat) (d : dsp_state) : outcome dsp_state :=
  cmd_load_pipeline fuel c (global_ini d) d.

Definition cras_dsp_load_dummy_pipeline (fuel c : nat) (num_channels : Z) (d : dsp_state) : outcome dsp_state :=
  '(_, (_, ctx)) ← at_ (find_context c d);
  r ← create_dummy_ini true (cx_purpose ctx) num_channels;
  match r with
  | None => Done d
  | Some s => let '(a, d) := new_ini s d in cmd_load_pipeline fuel c (Some a) d
  end.

Definition cras_dsp_get_pipeline (c : nat) (d : dsp_state) : outcome (option (nat * pipeline)) :=
  '(_, (_, ctx)) ← at_ (find_context c d); Done (cx_pipeline ctx).
Definition cras_dsp_reload_ini (fuel : nat) (file : option dictionary) (d : dsp_state) : outcome dsp_state :=
  cmd_reload_ini fuel file d.
Definition cras_dsp_num_output_channels (c : nat) (d : dsp_state) : outcome Z :=
  x ← cras_dsp_get_pipeline c d; x ← at_ x; Done (cras_dsp_pipeline_get_num_output_channels x.2).
Definition cras_dsp_num_input_channels (c : nat) (d : dsp_state) : outcome Z :=
  x ← cras_dsp_get_pipeline c d; x ← at_ x; Done (cras_dsp_pipeline_get_num_input_channels x.2).

(** ** Who owns the ini objects *)

(** The pipeline of context [c] points into the ini at [a]. *)
Definition uses (d : dsp_state) (c a : nat) : Prop :=
  exists ctx p, (c, ctx) ∈ context_list d /\ cx_pipeline ctx = Some (a, p).

(** The objects in [Sh] may be used by many contexts, any other by one. *)
Record owned_by (Sh : nat -> Prop) (d : dsp_state) : Prop := {
  ow_fresh : forall a, is_Some (inis d !! a) -> (a < next_ini d)%nat;
  ow_shared : forall a, Sh a -> is_Some (inis d !! a);
  ow_live : forall c a, uses d c a -> is_Some (inis d !! a);
  ow_one : forall c c' a, uses d c a -> uses d c' a -> ~ Sh a -> c = c';
  ow_global : forall a, global_ini d = Some a -> Sh a;
  ow_ids : NoDup (context_list d).*1;
  ow_next : Forall (fun x => (x.1 < next_context d)%nat) (context_list d)
}.

Definition owned (d : dsp_state) : Prop := owned_by (fun a => global_ini d = Some a) d.

Lemma find_context_Some (c : nat) (d : dsp_state) (ctx : cras_dsp_context) :
  NoDup (context_list d).*1 -> (c, ctx) ∈ context_list d -> exists k, find_context c d = Some (k, (c, ctx)).
Proof.
  unfold find_context. intros Hnd [k Hk]%list_elem_of_lookup. exists k. apply list_find_Some.
  split; [done|]. split; [done|]. intros j [c' x] Hj Hlt Hc. cbn in Hlt, Hc. subst c'.
  pose proof (NoDup_lookup _ j k c Hnd) as H. rewrite !list_lookup_fmap, Hj, Hk in H. specialize (H eq_refl eq_refl). lia.
Qed.

Lemma find_context_elem (c k c' : nat) (d : dsp_state) (ctx : cras_dsp_context) :
  find_context c d = Some (k, (c', ctx)) -> c' = c /\ (c, ctx) ∈ context_list d.
Proof.
  unfold find_context. intros (Hk & Hc & _)%list_find_Some. cbn in Hc. subst c'. split; [done|]. by eapply list_elem_of_lookup_2.
Qed.

Lemma context_unique (d : dsp_state) (c : nat) (x y : cras_dsp_context) :
  NoDup (context_list d).*1 -> (c, x) ∈ context_list d -> (c, y) ∈ context_list d -> x = y.
Proof.
  intros Hnd Hx Hy. destruct (find_context_Some c d x Hnd Hx) as [k Hk].
  destruct (find_context_Some c d y Hnd Hy) as [j Hj]. congruence.
Qed.

Lemma update_elem (c : nat) (f : cras_dsp_context -> cras_dsp_context) (d : dsp_state) (c' : nat) (x : cras_dsp_context) :
  (c', x) ∈ context_list (update_context c f d) <->
  (c' <> c /\ (c', x) ∈ context_list d) \/ (c' = c /\ exists y, (c, y) ∈ context_list d /\ x = f y).
Proof.
  cbn. rewrite list_elem_of_fmap. split.
  - intros ([b y] & Heq & Hin). cbn in Heq. destruct (bool_decide_reflect (b = c)) as [->|Hne]; injection Heq as -> ->.
    + right. split; [done|]. by exists y.
    + by left.
  - intros [[Hne Hin]|(-> & y & Hin & ->)].
    + exists (c', x). cbn. by destruct (bool_decide_reflect (c' = c)).
    + exists (c, y). cbn. by destruct (bool_decide_reflect (c = c)).
Qed.

Lemma update_ids (c : nat) (f : cras_dsp_context -> cras_dsp_context) (d : dsp_state) :
  (context_list (update_context c f d)).*1 = (context_list d).*1.
Proof. cbn. rewrite <- list_fmap_compose. apply list_fmap_ext. intros k [b y] _. cbn. by destruct (bool_decide _). Qed.

Lemma update_next (c : nat) (f : cras_dsp_context -> cras_dsp_context) (d : dsp_state) (n : nat) :
  Forall (fun x => (x.1 < n)%nat) (context_list d) -> Forall (fun x => (x.1 < n)%nat) (context_list (update_context c f d)).
Proof.
  intros H. cbn. apply Forall_fmap. eapply Forall_impl; [exact H|]. intros [b y] Hb. cbn in *. by destruct (bool_decide _).
Qed.

Lemma uses_set_pipeline (d : dsp_state) (c c' a : nat) (np : option (nat * pipeline)) :
  uses (update_context c (set_cx_pipeline np) d) c' a ->
  (c' <> c /\ uses d c' a) \/ (c' = c /\ exists p, np = Some (a, p)).
Proof.
  intros (ctx & p & Hin & Hp). apply update_elem in Hin as [[Hne Hin]|(-> & y & Hin & ->)].
  - left. split; [done|]. by exists ctx, p.
  - right. split; [done|]. by exists p.
Qed.

(** Changing nothing but environments. *)
Lemma uses_set_env (d : dsp_state) (c c' a : nat) (f : cras_dsp_context -> cras_expr_env) :
  uses (update_context c (fun x => set_cx_env (f x) x) d) c' a <-> uses d c' a.
Proof.
  split.
  - intros (ctx & p & Hin & Hp). apply update_elem in Hin as [[Hne Hin]|(-> & y & Hin & ->)]; [by exists ctx, p|by exists y, p].
  - intros (ctx & p & Hin & Hp). destruct (decide (c' = c)) as [->|Hne].
    + exists (set_cx_env (f ctx) ctx), p. split; [|done]. apply update_elem. right. split; [done|]. by exists ctx.
    + exists ctx, p. split; [|done]. apply update_elem. by left.
Qed.

(** The ini makes a pipeline for the context or none. *)
Definition suitable (fuel : nat) (s : ini) (ctx : cras_dsp_context) : Prop :=
  match try_pipeline fuel s (cx_env ctx) (cx_purpose ctx) (cx_sample_rate ctx) with
  | Done (Bailed _) => False
  | Done _ => True
  | _ => False
  end.

(** A pipeline whose ini is not shared is destroyed with it. *)
Lemma destroy_ok (Sh : nat -> Prop) (d : dsp_state) (a : nat) (p : pipeline) :
  owned_by Sh d -> is_Some (inis d !! a) ->
  (global_ini d = Some a \/ (~ Sh a /\ forall c, ~ uses d c a)) ->
  exists d', destroy_pipeline (a, p) d = Done d' /\ owned_by Sh d' /\
    context_list d' = context_list d /\ global_ini d' = global_ini d /\
    next_ini d' = next_ini d /\ (forall b, b <> a -> inis d' !! b = inis d !! b).
Proof.
  intros Hok [s Hs] Hcase. unfold destroy_pipeline. cbn [fst].
  destruct (bool_decide_reflect (global_ini d = Some a)) as [Hg|Hg]; [by exists d|].
  destruct Hcase as [|[Hsh Hno]]; [done|]. unfold cras_dsp_ini_free. rewrite Hs. cbn [at_ mbind outcome_bind].
  eexists. split; [done|]. split; [|by split_and!; try done; intros b Hb; cbn; rewrite lookup_delete_ne by done].
  destruct Hok as [Hf Hsd Hl Ho Hgl Hn Hx]. split; try done.
  - intros b Hb. apply Hf. cbn in Hb. destruct (decide (b = a)) as [->|Hne]; [by rewrite Hs|].
    by rewrite lookup_delete_ne in Hb.
  - intros b Hb. cbn. rewrite lookup_delete_ne by (intros ->; done). by apply Hsd.
  - intros c b Hb. cbn. rewrite lookup_delete_ne by (intros ->; by eapply Hno). by eapply Hl.
Qed.

(** Loading a pipeline from an ini that is shared or that no other context uses. *)
Lemma cmd_load_ok (Sh : nat -> Prop) (fuel c : nat) (ctx : cras_dsp_context) (target : option nat) (d : dsp_state) :
  owned_by Sh d -> (c, ctx) ∈ context_list d ->
  (forall t, target = Some t -> (Sh t \/ forall c', ~ uses d c' t) /\
     exists s, inis d !! t = Some s /\ suitable fuel s ctx) ->
  (forall a, uses d c a -> global_ini d = Some a \/ ~ Sh a /\ target <> Some a) ->
  exists d' np, cmd_load_pipeline fuel c target d = Done d' /\ owned_by Sh d' /\
    context_list d' = context_list (update_context c (set_cx_pipeline np) d) /\
    global_ini d' = global_ini d /\ next_ini d' = next_ini d /\
    (forall b, Sh b -> inis d' !! b = inis d !! b) /\
    (forall a p, np = Some (a, p) -> target = Some a).
Proof.
  intros Hok Hin Ht Hold. unfold cmd_load_pipeline.
  destruct (find_context_Some c d ctx (ow_ids _ _ Hok) Hin) as [k ->]. cbn [at_ mbind outcome_bind].
  assert (Hprep : exists np, match target with Some a => prepare_pipeline fuel ctx a d | None => Done (None, d) end = Done (np, d) /\
    forall a p, np = Some (a, p) -> target = Some a).
  { destruct target as [t|]; [|by exists None]. destruct (Ht t eq_refl) as (_ & s & Hs & Hsuit).
    unfold prepare_pipeline, suitable in *. rewrite Hs. cbn [at_ mbind outcome_bind].
    destruct (try_pipeline _ _ _ _ _) as [[|p|p]| | |]; cbn; try done; [by exists None|].
    exists (Some (t, p)). split; [done|]. by intros a q [= -> _]. }
  destruct Hprep as (np & Hrun & Hnp). rewrite Hrun. cbn [mbind outcome_bind].
  set (d1 := update_context c (set_cx_pipeline np) d).
  assert (Hok1 : owned_by Sh d1).
  { destruct Hok as [Hf Hsd Hl Ho Hgl Hn Hx]. split; try done.
    - intros c' a Hu. apply uses_set_pipeline in Hu as [[_ Hu]|(_ & p & Hp)]; [by eapply Hl|].
      destruct (Ht a (Hnp _ _ Hp)) as (_ & s & Hs & _). cbn. by rewrite Hs.
    - intros c1 c2 a Hu1 Hu2 Hns. apply uses_set_pipeline in Hu1 as [[Hne1 Hu1]|(-> & p & Hp)];
        apply uses_set_pipeline in Hu2 as [[Hne2 Hu2]|(-> & p2 & Hp2)]; [by eapply Ho|..|done].
      + destruct (Ht a (Hnp _ _ Hp2)) as ([Hsh|Hno] & _); [done|]. by destruct (Hno c1).
      + destruct (Ht a (Hnp _ _ Hp)) as ([Hsh|Hno] & _); [done|]. by destruct (Hno c2).
    - unfold d1. by rewrite update_ids.
    - unfold d1. by apply update_next. }
  destruct (cx_pipeline ctx) as [[a po]|] eqn:Hpo; [|by exists d1, np].
  assert (Hua : uses d c a) by (by exists ctx, po).
  destruct (destroy_ok Sh d1 a po Hok1) as (d2 & Hd2 & Hok2 & Hc2 & Hg2 & Hx2 & Hi2).
  - by apply (ow_live _ _ Hok c).
  - destruct (Hold a Hua) as [Hg|[Hns Hta]]; [by left|right]. split; [done|]. intros c' Hu.
    apply uses_set_pipeline in Hu as [[Hne Hu]|(-> & p & Hp)].
    + apply Hne. by eapply (ow_one _ _ Hok).
    + by apply Hta, Hnp with p.
  - exists d2, np. split; [done|]. split; [done|]. split; [done|]. split; [done|]. split; [done|]. split; [|done].
    intros b Hb. destruct (decide (b = a)) as [->|Hne]; [|by rewrite Hi2].
    destruct (Hold a Hua) as [Hg|[Hns _]]; [|done].
    unfold destroy_pipeline in Hd2. cbn [fst] in Hd2. rewrite bool_decide_eq_true_2 in Hd2 by done. by injection Hd2 as <-.
Qed.

(** ** Reading the ini file again *)

Section Reload.
Context (fuel : nat) (s : ini) (d0 : dsp_state).
Hypothesis owned0 : owned d0.
Hypothesis suits0 : forall c ctx, (c, ctx) ∈ context_list d0 -> suitable fuel s ctx.

(** The new object is shared like the old one while contexts move over. *)
Definition sharing (b : nat) : Prop := global_ini d0 = Some b \/ b = next_ini d0.

(** The first [k] contexts have moved. *)
Record moved (k : nat) (d : dsp_state) : Prop := {
  mv_owned : owned_by sharing d;
  mv_global : global_ini d = global_ini d0;
  mv_new : inis d !! next_ini d0 = Some s;
  mv_ids : (context_list d).*1 = (context_list d0).*1;
  mv_rest : forall j c ctx, (k <= j)%nat -> context_list d0 !! j = Some (c, ctx) -> (c, ctx) ∈ context_list d;
  mv_done : forall j c, (j < k)%nat -> (context_list d0).*1 !! j = Some c -> forall b, uses d c b -> b = next_ini d0
}.

Lemma uses_old (c b : nat) : uses d0 c b -> (b < next_ini d0)%nat.
Proof. intros Hu. by apply (ow_fresh _ _ owned0), (ow_live _ _ owned0 c). Qed.

Lemma moved_start : moved 0 (new_ini s d0).2.
Proof.
  pose proof owned0 as [Hf Hsd Hl Ho Hgl Hn Hx]. split; try done; cbn.
  - split; cbn; try done.
    + intros a. destruct (decide (a = next_ini d0)) as [->|Hne]; [lia|]. rewrite lookup_insert_ne by done.
      intros Ha. apply Hf in Ha. lia.
    + intros a [Ha| ->]; [|by rewrite lookup_insert_eq]. apply lookup_insert_is_Some'. right. by apply Hsd.
    + intros c a Hu. apply lookup_insert_is_Some'. right. by eapply Hl.
    + intros c c' a Hu Hu' Hns. eapply Ho; [exact Hu|exact Hu'|]. intros Hg. apply Hns. by left.
    + intros a Ha. by left.
  - by rewrite lookup_insert_eq.
  - intros j c ctx _. apply list_elem_of_lookup_2.
  - intros j c Hj. lia.
Qed.

Lemma moved_step (k c : nat) (ctx : cras_dsp_context) (d : dsp_state) :
  context_list d0 !! k = Some (c, ctx) -> moved k d ->
  exists d', cmd_load_pipeline fuel c (Some (next_ini d0)) d = Done d' /\ moved (S k) d'.
Proof.
  intros Hk [Hok Hg Hnew Hids Hrest Hdone]. pose proof (Hrest k c ctx ltac:(lia) Hk) as Hin.
  destruct (cmd_load_ok sharing fuel c ctx (Some (next_ini d0)) d Hok Hin) as (d' & np & Hrun & Hok' & Hl' & Hg' & Hx' & Hi' & Hnp).
  - intros t [= <-]. split; [left; by right|]. exists s. split; [done|]. apply (suits0 c). by eapply list_elem_of_lookup_2.
  - intros a (ctx' & p & Hin' & Hp). assert (ctx' = ctx) as -> by (eapply (context_unique d); [apply Hok|done..]).
    assert (Hu : uses d0 c a) by (exists ctx, p; split; [by eapply list_elem_of_lookup_2|done]). apply uses_old in Hu.
    destruct (decide (global_ini d = Some a)) as [|Hne]; [by left|right]. rewrite Hg in Hne.
    split; [|intros [= Ha]; lia]. intros [|Ha]; [done|lia].
  - exists d'. split; [done|]. assert (Hu : forall c' b, uses d' c' b ->
      (c' <> c /\ uses d c' b) \/ (c' = c /\ b = next_ini d0)).
    { intros c' b (x & p & Hx & Hp). rewrite Hl' in Hx.
      destruct (uses_set_pipeline d c c' b np) as [|[-> [q Hq]]]; [by exists x, p|by left|].
      right. split; [done|]. by injection (Hnp _ _ Hq). }
    split; [done|by rewrite Hg'| | |..].
    + rewrite Hi'; [done|by right].
    + by rewrite Hl', update_ids.
    + intros j c' x Hj Hx. rewrite Hl'. apply update_elem. left. split; [|apply (Hrest j); [lia|done]].
      intros ->. pose proof (NoDup_lookup _ j k c (ow_ids _ _ owned0)) as H. rewrite !list_lookup_fmap, Hx, Hk in H.
      specialize (H eq_refl eq_refl). lia.
    + intros j c' Hj Hc b Hub. destruct (Hu _ _ Hub) as [[Hne Hub']|[-> ->]]; [|done].
      destruct (decide (j = k)) as [->|]; [|apply (Hdone j c'); [lia|done..]].
      rewrite list_lookup_fmap, Hk in Hc. by injection Hc as ->.
Qed.

Lemma reload_ok (file : option dictionary) :
  cras_dsp_ini_create true file = Done (Some s) ->
  exists d, cmd_reload_ini fuel file d0 = Done d /\ owned d /\ global_ini d = Some (next_ini d0) /\
    inis d !! next_ini d0 = Some s /\ (forall c b, uses d c b -> b = next_ini d0).
Proof.
  intros Hfile. unfold cmd_reload_ini. rewrite Hfile. cbn [mbind outcome_bind new_ini].
  pose proof moved_start as H0. unfold new_ini in H0. cbn [snd] in H0.
  destruct (foreach_inv moved (fun _ x d => cmd_load_pipeline fuel x.1 (Some (next_ini d0)) d) (context_list d0) 0 _ H0)
    as (d1 & Hrun & Hm).
  { intros k [c ctx] d Hk Hd. by eapply moved_step. }
  cbn [context_list]. rewrite Hrun. cbn [mbind outcome_bind]. destruct Hm as [Hok Hg Hnew Hids _ Hdone].
  assert (Hall : forall c b, uses d1 c b -> b = next_ini d0).
  { intros c b Hu. assert (Hc : c ∈ (context_list d1).*1) by (destruct Hu as (x & p & Hx & _); by apply (list_elem_of_fmap_2 fst _ (c, x))).
    rewrite Hids in Hc. apply list_elem_of_lookup in Hc as [j Hj]. apply (Hdone j c); [|done..].
    apply lookup_lt_Some in Hj. by rewrite length_fmap in Hj. }
  pose proof Hok as [Hf Hsd Hl Ho Hgl Hn Hx]. destruct (global_ini d0) as [o|] eqn:Ho0.
  - assert (Hold : is_Some (inis d1 !! o)) by (apply Hsd; by left). destruct Hold as [so Hso].
    assert (Hne : o <> next_ini d0) by (pose proof (ow_fresh _ _ owned0 o (ow_shared _ _ owned0 o Ho0)); lia).
    unfold cras_dsp_ini_free. cbn [inis set_global_ini]. rewrite Hso. cbn [at_ mbind outcome_bind]. eexists. split; [done|].
    split; [|cbn; by rewrite lookup_delete_ne]. split; cbn; try done.
    + intros a Ha. apply Hf. destruct (decide (a = o)) as [->|]; [by rewrite Hso|]. by rewrite lookup_delete_ne in Ha.
    + intros a [= <-]. rewrite lookup_delete_ne by done. by rewrite Hnew.
    + intros c b Hu. rewrite (Hall c b Hu), lookup_delete_ne by done. by rewrite Hnew.
    + intros c c' b Hu _ Hns. by rewrite (Hall c b Hu) in Hns.
  - eexists. split; [done|]. split; [|done]. split; cbn; try done.
    + intros a [= <-]. by rewrite Hnew.
    + intros c c' b Hu _ Hns. by rewrite (Hall c b Hu) in Hns.
Qed.
End Reload.

(** ** Any sequence of calls *)

Inductive dsp_call : Type :=
  | ReloadIni (file : option dictionary)
  | ContextNew (sample_rate : Z) (purpose : list Z)
  | ContextFree (c : nat)
  | SetString (c : nat) (key value : list Z)
  | SetBoolean (c : nat) (key : list Z) (value : Z)
  | LoadPipeline (c : nat)
  | LoadDummy (c : nat) (num_channels : Z).

Definition dsp_do (fuel : nat) (o : dsp_call) (d : dsp_state) : outcome dsp_state :=
  match o with
  | ReloadIni file => cras_dsp_reload_ini fuel file d
  | ContextNew rate purpose => Done (cras_dsp_context_new rate purpose d).2
  | ContextFree c => cras_dsp_context_free c d
  | SetString c k v => Done (cras_dsp_set_variable_string c k v d)
  | SetBoolean c k v => Done (cras_dsp_set_variable_boolean c k v d)
  | LoadPipeline c => cras_dsp_load_pipeline fuel c d
  | LoadDummy c n => cras_dsp_load_dummy_pipeline fuel c n d
  end.

(** The context exists, and the ini makes pipelines that can be loaded or none. *)
Definition call_ok (fuel : nat) (o : dsp_call) (d : dsp_state) : Prop :=
  match o with
  | ReloadIni file => forall s, cras_dsp_ini_create true file = Done (Some s) ->
      forall c ctx, (c, ctx) ∈ context_list d -> suitable fuel s ctx
  | ContextFree c => c ∈ (context_list d).*1
  | LoadPipeline c => exists ctx, (c, ctx) ∈ context_list d /\
      forall a s, global_ini d = Some a -> inis d !! a = Some s -> suitable fuel s ctx
  | LoadDummy c n => exists ctx, (c, ctx) ∈ context_list d /\
      match create_dummy_ini true (cx_purpose ctx) n with
      | Done (Some s) => suitable fuel s ctx
      | Done None => True
      | _ => False
      end
  | _ => True
  end.

Lemma owned_new_ini (s : ini) (d : dsp_state) : owned d -> owned (new_ini s d).2.
Proof.
  intros [Hf Hsd Hl Ho Hgl Hn Hx]. split; cbn; try done.
  - intros a. destruct (decide (a = next_ini d)) as [->|Hne]; [lia|]. rewrite lookup_insert_ne by done.
    intros Ha. apply Hf in Ha. lia.
  - intros a Ha. apply lookup_insert_is_Some'. right. by apply Hsd.
  - intros c a Hu. apply lookup_insert_is_Some'. right. by eapply Hl.
Qed.

Lemma owned_set_env (c : nat) (f : cras_dsp_context -> cras_expr_env) (d : dsp_state) :
  owned d -> owned (update_context c (fun x => set_cx_env (f x) x) d).
Proof.
  intros [Hf Hsd Hl Ho Hgl Hn Hx]. split; try done.
  - intros c' a Hu%uses_set_env. by eapply Hl.
  - intros c1 c2 a Hu1%uses_set_env Hu2%uses_set_env. by apply Ho.
  - by rewrite update_ids.
  - by apply update_next.
Qed.

Lemma owned_new_context (rate : Z) (purpose : list Z) (d : dsp_state) :
  owned d -> owned (cras_dsp_context_new rate purpose d).2.
Proof.
  intros [Hf Hsd Hl Ho Hgl Hn Hx].
  assert (Hu : forall c a, uses (cras_dsp_context_new rate purpose d).2 c a -> uses d c a).
  { intros c a (x & p & Hin & Hp). cbn in Hin. apply elem_of_app in Hin as [Hin|Hin]; [by exists x, p|].
    apply list_elem_of_singleton in Hin. injection Hin as -> ->. done. }
  split; try done.
  - intros c a H%Hu. by eapply Hl.
  - intros c c' a H%Hu H'%Hu. by apply Ho.
  - cbn. rewrite fmap_app. apply NoDup_app. split; [done|]. split; [|apply NoDup_singleton].
    intros c (x & -> & Hin)%list_elem_of_fmap Hc%list_elem_of_singleton. rewrite Forall_forall in Hx. specialize (Hx x Hin).
    cbn in Hc. lia.
  - cbn. apply Forall_app. split; [|by repeat constructor]. eapply Forall_impl; [exact Hx|]. cbn. lia.
Qed.

Lemma owned_free (c : nat) (d : dsp_state) : owned d -> c ∈ (context_list d).*1 ->
  exists d', cras_dsp_context_free c d = Done d' /\ owned d'.
Proof.
  intros Hok ([c' ctx] & -> & Hin)%list_elem_of_fmap. cbn [fst]. unfold cras_dsp_context_free.
  destruct (find_context_Some c' d ctx (ow_ids _ _ Hok) Hin) as [k ->]. cbn [at_ mbind outcome_bind].
  set (d1 := set_context_list (filter (fun x => x.1 <> c') (context_list d)) d).
  assert (Hu : forall c a, uses d1 c a -> uses d c a /\ c <> c').
  { intros c a (x & p & Hx & Hp). apply list_elem_of_filter in Hx as [Hne Hx]. split; [by exists x, p|done]. }
  assert (Hok1 : owned d1).
  { destruct Hok as [Hf Hsd Hl Ho Hgl Hn Hx]. split; try done.
    - intros c a [H _]%Hu. by eapply Hl.
    - intros c c2 a [H _]%Hu [H' _]%Hu. by apply Ho.
    - cbn. clear -Hn. induction (context_list d) as [|[a x] l IH]; [constructor|].
      cbn in Hn. apply NoDup_cons in Hn as [Ha Hn]. rewrite filter_cons. case_decide; [|by apply IH].
      cbn. apply NoDup_cons. split; [|by apply IH]. intros (y & -> & Hy)%list_elem_of_fmap. apply Ha.
      apply list_elem_of_filter in Hy as [_ Hy]. by apply list_elem_of_fmap_2.
    - cbn. apply Forall_forall. intros x [_ Hin']%list_elem_of_filter. rewrite Forall_forall in Hx. by apply Hx. }
  destruct (cx_pipeline ctx) as [[a p]|] eqn:Hp; [|by exists d1].
  assert (Hua : uses d c' a) by (by exists ctx, p).
  destruct (destroy_ok (fun a => global_ini d = Some a) d1 a p Hok1) as (d2 & -> & Hok2 & _ & Hg2 & _).
  - by apply (ow_live _ _ Hok c').
  - destruct (decide (global_ini d = Some a)) as [|Hne]; [by left|right]. split; [done|].
    intros c [H Hc]%Hu. apply Hc. by eapply (ow_one _ _ Hok).
  - exists d2. split; [done|]. unfold owned. rewrite Hg2. exact Hok2.
Qed.

Lemma owned_load (fuel c : nat) (ctx : cras_dsp_context) (target : option nat) (d : dsp_state) :
  owned d -> (c, ctx) ∈ context_list d ->
  (forall t, target = Some t -> (global_ini d = Some t \/ forall c', ~ uses d c' t) /\
     exists s, inis d !! t = Some s /\ suitable fuel s ctx) ->
  exists d', cmd_load_pipeline fuel c target d = Done d' /\ owned d'.
Proof.
  intros Hok Hin Ht.
  destruct (cmd_load_ok (fun a => global_ini d = Some a) fuel c ctx target d Hok Hin Ht)
    as (d' & np & Hrun & Hok' & _ & Hg & _).
  - intros a Hu. destruct (decide (global_ini d = Some a)) as [|Hne]; [by left|right]. split; [done|].
    intros Hta. destruct (Ht a Hta) as ([|Hno] & _); [done|]. by eapply Hno.
  - exists d'. split; [done|]. unfold owned. by rewrite Hg.
Qed.

Lemma call_keeps_owned (fuel : nat) (o : dsp_call) (d : dsp_state) :
  owned d -> call_ok fuel o d -> exists d', dsp_do fuel o d = Done d' /\ owned d'.
Proof.
  intros Hok Ho. destruct o as [file|rate purp|c|c k v|c k v|c|c n]; cbn [dsp_do call_ok] in *.
  - destruct (ini_create_ok true file) as (r & Hr & _). destruct r as [s|].
    + destruct (reload_ok fuel s d Hok (Ho s Hr) file Hr) as (d' & Hd & Hok' & _). by exists d'.
    + exists d. unfold cras_dsp_reload_ini, cmd_reload_ini. by rewrite Hr.
  - eexists. split; [done|]. by apply owned_new_context.
  - by apply owned_free.
  - eexists. split; [done|]. by apply (owned_set_env c (fun x => cras_expr_env_set_variable_string (cx_env x) k v)).
  - eexists. split; [done|]. by apply (owned_set_env c (fun x => cras_expr_env_set_variable_boolean (cx_env x) k v)).
  - destruct Ho as (ctx & Hin & Hs). apply (owned_load fuel c ctx); [done..|]. intros t Ht. split; [by left|].
    destruct (ow_shared _ _ Hok t Ht) as [s Hst]. exists s. split; [done|]. by eapply Hs.
  - destruct Ho as (ctx & Hin & Hs). unfold cras_dsp_load_dummy_pipeline.
    destruct (find_context_Some c d ctx (ow_ids _ _ Hok) Hin) as [k ->]. cbn [at_ mbind outcome_bind].
    destruct (create_dummy_ini true (cx_purpose ctx) n) as [[s|]| | |]; try done; cbn [mbind outcome_bind new_ini]; [|by exists d].
    pose proof (owned_new_ini s d Hok) as Hok1. cbn [new_ini snd] in Hok1.
    apply (owned_load fuel c ctx _ _ Hok1 Hin). intros t [= <-]. cbn. split.
    + right. intros c' Hu. assert (Hu' : uses d c' (next_ini d)) by exact Hu.
      apply (ow_live _ _ Hok), (ow_fresh _ _ Hok) in Hu'. lia.
    + exists s. by rewrite lookup_insert_eq.
Qed.

Fixpoint dsp_run (fuel : nat) (l : list dsp_call) (d : dsp_state) : outcome dsp_state :=
  match l with [] => Done d | o :: l => d ← dsp_do fuel o d; dsp_run fuel l d end.
Fixpoint calls_ok (fuel : nat) (l : list dsp_call) (d : dsp_state) : Prop :=
  match l with [] => True | o :: l => call_ok fuel o d /\ forall d', dsp_do fuel o d = Done d' -> calls_ok fuel l d' end.

End Contexts.

(** Contexts with the built-in modules: the ini file is read twice, and a
    context changes to a pipeline of its own and back. *)
#[local] Instance no_ext_modules : ext_modules := {| ext_dsp_module := unit; ext_run e _ _ mem := Done (e, mem) |}.
Definition builtin_only : dsp_module_library := @builtin_library no_ext_modules no_modules.

Definition calls_example : list dsp_call :=
  [ContextNew 48000 (c_str "playback"); ReloadIni (Some dict_example); LoadDummy 0 2; ReloadIni (Some dict_example);
   LoadPipeline 0; ContextFree 0].

(** A bool for [suitable]. *)
Definition is_suitable {L : dsp_module_library} (fuel : nat) (s : ini) (ctx : cras_dsp_context) : bool :=
  match try_pipeline fuel s (cx_env ctx) (cx_purpose ctx) (cx_sample_rate ctx) with
  | Done (Bailed _) => false | Done _ => true | _ => false
  end.
Definition is_call_ok {L : dsp_module_library} (fuel : nat) (o : dsp_call) (d : dsp_state) : bool :=
  match o with
  | ReloadIni file =>
      match cras_dsp_ini_create true file with
      | Done (Some s) => forallb (fun x => is_suitable fuel s x.2) (context_list d)
      | _ => true
      end
  | ContextFree c => bool_decide (c ∈ (context_list d).*1)
  | LoadPipeline c =>
      match find_context c d with
      | Some (_, (_, ctx)) =>
          match global_ini d with Some a => from_option (fun s => is_suitable fuel s ctx) true (inis d !! a) | None => true end
      | None => false
      end
  | LoadDummy c n =>
      match find_context c d with
      | Some (_, (_, ctx)) =>
          match create_dummy_ini true (cx_purpose ctx) n with
          | Done (Some s) => is_suitable fuel s ctx | Done None => true | _ => false
          end
      | None => false
      end
  | _ => true
  end.
Fixpoint are_calls_ok {L : dsp_module_library} (fuel : nat) (l : list dsp_call) (d : dsp_state) : bool :=
  match l with
  | [] => true
  | o :: l => is_call_ok fuel o d && match dsp_do fuel o d with Done d => are_calls_ok fuel l d | _ => true end
  end.

Lemma is_suitable_ok {L : dsp_module_library} (fuel : nat) (s : ini) (ctx : cras_dsp_context) :
  is_suitable fuel s ctx = true -> suitable fuel s ctx.
Proof. unfold is_suitable, suitable. by destruct (try_pipeline _ _ _ _ _) as [[]| | |]. Qed.

Lemma is_call_ok_ok {L : dsp_module_library} (fuel : nat) (o : dsp_call) (d : dsp_state) :
  is_call_ok fuel o d = true -> call_ok fuel o d.
Proof.
  destruct o as [file|rate purp|c|c k v|c k v|c|c n]; cbn [is_call_ok call_ok]; try done.
  - intros H s Hs c ctx Hin. rewrite Hs, forallb_forall in H. apply is_suitable_ok, (H (c, ctx)).
    by apply list_elem_of_In.
  - apply bool_decide_eq_true.
  - destruct (find_context c d) as [[k [c' ctx]]|] eqn:Hf; [|done]. apply find_context_elem in Hf as [_ Hin].
    intros H. exists ctx. split; [done|]. intros a s Ha Hs. rewrite Ha, Hs in H. by apply is_suitable_ok.
  - destruct (find_context c d) as [[k [c' ctx]]|] eqn:Hf; [|done]. apply find_context_elem in Hf as [_ Hin].
    intros H. exists ctx. split; [done|]. destruct (create_dummy_ini _ _ _) as [[s|]| | |]; try done. by apply is_suitable_ok.
Qed.

Lemma are_calls_ok_ok {L : dsp_module_library} (fuel : nat) (l : list dsp_call) (d : dsp_state) :
  are_calls_ok fuel l d = true -> calls_ok fuel l d.
Proof.
  revert d. induction l as [|o l IH]; intros d; cbn [are_calls_ok calls_ok]; [done|].
  intros [Ho Hl]%andb_true_iff. split; [by apply is_call_ok_ok|]. intros d' Hd. rewrite Hd in Hl. by apply IH.
Qed.


(** The condition matters.  When the ini file is read again and a
    plugin's module cannot be loaded, destroying the pipeline frees the new ini,
    because it is not the global one yet; then it becomes the global ini all the
    same, and loading a pipeline later uses an object that was freed. *)
Theorem failed_reload_dangles :
  exists d, @dsp_run no_modules 10 [ContextNew 48000 (c_str "playback"); ReloadIni (Some dict_example)] dsp_start = Done d /\
    (a ← global_ini d; inis d !! a) = None /\ is_Some (global_ini d) /\
    @dsp_do no_modules 10 (LoadPipeline 0) d = Undefined.
Proof.
  eexists. split; [vm_compute; reflexivity|]. split; [reflexivity|]. split; [by eexists|]. vm_compute. reflexivity.
Qed.
